(* ===== verification/_CoqProject ===== *)
-Q . S2P
Prelude.v
Mutex.v
AsyncResult.v
EventLoop.v
Streams.v
StdMap.v
Json.v
JsonValue.v
JsonOrder.v
JsonValueFacts.v
JsonReader.v
JsonReaderFacts.v
JsonText.v
JsonWriter.v
JsonFacts.v
JsonCodec.v
HostJson.v
Metadata.v
Stdio.v
BlobMap.v
BlobStore.v
FileStore.v
Paths.v
Folder.v
FolderFacts.v
FileHandle.v
BlobApi.v
BlobApiFacts.v
BlobApiErrors.v
BlobApiLife.v
BitSet.v
HostPartition.v
HostHandler.v
HttpModule.v
HostReserve.v
HttpParams.v
HttpNumbers.v
JsonPath.v
JsonParams.v
Contracts.v
ContractTool.v
Cookies.v
Protocol.v
UnixSocket.v
Daemon.v
DaemonFacts.v
Volume.v
VolumeRow.v
VolumeFacts.v
VolumeRemote.v
VolumeDisk.v
VolumeRepair.v
HostClient.v
VolumeHosts.v
Cache.v
CacheFiles.v
CacheFacts.v
CacheDisk.v
LockFree.v
AsyncQueue.v
AsyncQueueFacts.v
Base64.v
Relays.v
RelayLoop.v
HttpRequest.v
Kademlia.v
KademliaClient.v
EndpointLookup.v
RelayManager.v
VolumeManager.v
VolumeConfig.v
RemoteBlobs.v
RemoteBlobFacts.v
Arguments.v
Commands.v
CommandFacts.v
Options.v
DriveMain.v
DriveMainFacts.v
HttpContext.v
