(* ===== verification/Prelude.v ===== *)
(** * The Drive storage platform: a verification library

    Drive keeps files and disk volumes on the machines of others.  [bdblob] is a
    file API over blobs; a volume ([bdfsclient-lib]) is a matrix of blocks whose
    columns are partitions on storage hosts; [bdhost] serves partitions over HTTP;
    hosts and clients find each other through Kademlia nodes ([bdkad]).  This
    library models these parts from the sources under src/src and proves what makes
    them correct.

    ** Parts, files and how they meet

    - Streams (IInputStream, IOutputStream, Buffered*, EndianUtil), Stdio (what the
      code uses of the C library's files), StdMap (std::map with string keys).
    - jsoncpp.  Json (Value), JsonReader and JsonReaderFacts (Reader), JsonWriter
      (FastWriter, StyledWriter,
      StyledStreamWriter), JsonText and JsonFacts: what is written is read
      back.  JsonCodec, HostJson and JsonParams discharge with it what hosts and
      clients ask of a JSON library.  JsonValue (Value as it is stored, with all its
      operations) and JsonValueFacts: arrays with gaps as sequences, and Json as what
      the program sees of it; JsonOrder: the comparisons; JsonPath (Path).
    - bdblob.  Metadata (BlobMetadata) and BlobMap (BlobMap, Buffer): the metadata of
      a blob by its id, in one append-only file.  BlobStore (IBlob, BlobProvider,
      FileBlob, FileBlobProvider, BlobConfig): the provider interface [BlobProvider]
      with its laws [BlobProviderLaws]; FileStore proves them of the file-system
      provider; FileHandle (File) works over any.  Folder and FolderFacts (Folder):
      folders as sorted maps in blobs.  Paths: the path and pattern scanners.
      BlobApi, with BlobApiFacts, BlobApiErrors and BlobApiLife (BlobApi): List,
      Mkdir, Put, Get, Delete, Move and Info over any provider.  Arguments
      (Argument, ArgumentParser), Commands and CommandFacts (Command,
      commands/, Main): the program on top of them.  RemoteBlobs and RemoteBlobFacts
      (RemoteBlob, RemoteBlobProvider): blobs that are volumes on hosts.
    - bdhost.  BitSet; HostPartition (Partition): block files and their map;
      HostHandler and HostReserve (PartitionHandler, ConfigHandler, Util): requests,
      reservations and the space they take.  RelayManager
      (RelayManager, init_kad of Main): the relay processes of a host and what it
      publishes of them, on top of the discovery below.
    - httpserver.  HttpModule (HttpModule, HttpServer::OnRequest,
      HttpHandlerRegister): the table of handlers and the dispatch to them;
      HttpContext (MGHttpContext, HttpServer): forms, bodies, cookies and answers
      over a mongoose connection, and the start of the server.
    - bdcontract.  Contracts (Contract, ContractRepository): contracts as files;
      ContractTool (Options, Main): the program that makes and shows them.
    - Between client and host.  HttpParams and HttpNumbers (BdSession, HttpRequest,
      MGHttpContext): arguments into text and back; HostClient (BdPartition,
      BdPartitionFolder, BdObject, BdSession, BdTypes): the calls; RelayLoop
      (HttpRequest::Execute): which relays a request tries; HttpRequest: its address,
      options, headers and body on the way; Cookies (HttpCookies).
    - bdfsclient-lib.  Volume, VolumeRow, VolumeFacts (Volume, VolumeRow, VolumeCell,
      VolumeColumn, Partition): rows, encoding, encryption.  A volume is proved
      against the interface [CellOps] and its laws [cell_laws]; VolumeRemote
      discharges them for remote partitions ([remote_laws]), CacheFacts for the
      cache, VolumeHosts for the client's calls on HostHandler, so that the theorem
      of VolumeDisk holds of each stack.  VolumeRepair: decoding of lost columns.
      Cache, CacheFiles, CacheFacts, CacheDisk (Cache); LockFree (LockFreeQueue):
      the queue that feeds its thread.  VolumeManager and VolumeConfig: descriptions
      of volumes and the files they are kept in.
    - bdfsclient and bdfs.  Protocol (BdProtocol, UnixDomainSocket): messages and
      their way through a socket; UnixSocket (UnixDomainSocket): connecting, listening
      and the descriptors, over system calls with laws; Daemon and DaemonFacts
      (ActionHandler, ClientManager): the volumes and devices of the daemon, its answers
      and its service, which is [Daemon.HandleRequest] in the loop of EventLoop; DriveMain
      and DriveMainFacts (bdfs/Main, bdfsclient/Main): the start of the daemon, and the
      program bdfs from its command line to what it prints and the commands it runs.
    - Options (Options of bdhost, bdkad and bdfs, Action): the
      command lines and configuration files of the programs.
    - Threads.  Mutex: what lists of threads have in common.  AsyncQueue,
      AsyncQueueFacts (AsyncQueue), AsyncResult
      (IAsyncResult, AutoMutex, Event): requests handed to another
      thread and the wait for their results.  EventLoop (EventLoop): events sent to a
      thread that handles them.
    - Finding each other.  Base64 (Base64Encoder), Relays (RelayInfo, HostInfo),
      Kademlia (KademliaHandler), KademliaClient (BdKademlia, BlobCache,
      GetProviderEndpoint, init_kad of bdhost), EndpointLookup: the two ends
      together.

    ** How the code is modelled

    Code that changes state is in the monad [M]: a function of the state of its part
    to an [outcome], which is a value with the new state, a [Fault] where C++ would
    crash, throw or have no defined behaviour, or [OutOfFuel].  Machine integers are
    [Z] with their wrap-around written out ([u8] to [u64]); bytes are [Z] below 256;
    buffers are lists.  The file system is a map from paths to contents with a limit
    on their size and names that cannot be opened.  LockFree, AsyncQueue and
    AsyncResult are the exception: there threads are machines that do one shared
    access per step, and the theorems speak of every interleaving.  AsyncQueue takes
    its LockFreeQueue for a list, which LockFree shows it to be as long as calls of
    Produce do not overlap.
    The relay processes of a host are a table from process ids to programs.

    Fuel: loops over a file's entries get one unit more than the file has bytes, and
    an entry has at least one; loops over a buffer or a text one unit more than its
    length; the loops that fill a buffer from a file or a socket one unit more than
    what is to come; the loop over relays two more than the relays have endpoints; the
    attempts of Connect one more than ten for each second of its timeout; a
    folder that grows one for each level of its path; the JSON reader a multiple of
    the text's length, which [json_reader_returns] shows to be enough.  [cat] takes
    more steps than the file has bytes.  The functional theorems state that a result
    is returned, so the fuel is enough wherever they apply; [try_all] and
    [parse_words] have it as theorems of their own.  The search of a handler takes one
    step more than the path is long, and [dispatch_longest_prefix] states its answer.

    ** What the theorems show

    - Volumes are disks: [volume_refines_disk], [encrypted_volume_refines_disk],
      [cached_volume_refines_disk] and, over the whole stack down to the hosts'
      files, [volume_over_hosts] and [remote_blob_over_hosts];
      [cache_flush_writes_back] for the end of a cache; [row_decode_recovers] for
      lost columns, [row_decode_hides_loss] and [error_answer_read_as_data] for where
      it goes wrong.
    - Descriptions survive: [created_volume_loads] and [load_volume_puts_together]
      for volumes, [remote_blob_reopens] for blobs, [repository_refines_map] and
      [created_contract_shown] for contracts.
    - Hosts: [host_serves_disk], [partition_refines_disk], the bit set, the
      accounting of reservations with its rejected requests, [relays_stay_together]
      for the processes of the relays, [dispatch_longest_prefix] for the handler
      that a request reaches and [cookies_get_through] for what it carries.
    - Files: [put_cat_get] and [rm_removes_file] from the command line down,
      [put_then_reopen], the folder invariant and its round trips, the blob map as a
      finite map, the provider contract, and the branches that reject or lose
      something.
    - jsoncpp's values: [value_refines_json], [array_is_sequence], [value_order],
      [conversions_checked], [path_make_resolve] and [path_roundtrip].
    - Texts: [json_roundtrip], [message_roundtrip], [set_cookie_sent_back] and
      [jar_one_per_key], [parse_rendered] and [parse_keeps_types],
      [base64_decode_bounds], [pattern_match_is_glob].
    - The daemon and bdfs: [mount_request_served], [service_keeps_devices],
      [list_repeats_volumes], [bind_timeout_succeeds].
    - Discovery: [published_endpoint_found] from the host to the client,
      [create_volume_distinct_providers], [execute_tries_in_order] (requests end).
    - Concurrency: [spsc_queue_safe] and [consumer_drains] for one producer and one
      consumer, [two_producers_use_after_free] for two; [queue_in_order],
      [no_lost_wakeup] and [queue_never_stuck] for the queue of requests,
      [wait_returns] and [wait_truthful] for the wait on a result; [loop_handles_all],
      [loop_serves_in_order] and [stop_returns] for the loop of events;
      [sockets_close] and [Connect_returns] for sockets.
    - Requests: [request_is_its_exchanges], [cookie_comes_back], [split_url_parts].
    - Command lines: [created_blocks_bounded], and the branches that crash or wrap.

    ** Parameters and hypotheses

    printf and sscanf of doubles, libcurl's exchange and percent encoding, the cm256
    erasure code, OpenSSL's AES, SHA-1, the Kademlia node, the shell, local time,
    fork and exec, the output of commands, the system calls of sockets ([Kernel] with
    [KernelLaws]) and how they cut what is sent ([Sockets]),
    inet_addr, whether mongoose can listen, and the block device
    ([Platform]) are arguments of the definitions; the theorems name
    what they rely on ([url_ok], [scans], [encoder_total], [cipher_ok], [node_ok] and
    the like), and a witness shows each with concrete functions.

    ** Not modelled

    - jsoncpp: comments kept in values, error messages, and the
      internal maps and allocators that this build leaves out.
    - Vendored code: mongoose, ImDisk's headers and proxy (devio, safeio),
      dirent-win.  The submodules kademlia and cm256 are not in the repository.
    - Windows variants; the waiting loops, signal handlers and usage texts of the
      programs; CrossIPC; a queue of requests started twice, which
      its sessions never do; the wrappers Lock and AutoMutex, but for its deadline: little but calls of the platform. *)

From Stdlib Require Import ZArith Lia Bool Ascii String.
From stdpp Require Import base list gmap strings.

Set Default Goal Selector "!".

Declare Scope drive_scope.
Delimit Scope drive_scope with drive.
Local Open Scope Z_scope.
Local Open Scope drive_scope.

(** ** Outcomes and the state monad

    A C++ call either returns normally, or hits undefined behaviour or a
    failed [assert] (a [fault]), or, for the recursive functions that are
    given fuel, runs out of it.  [Fault] and [OutOfFuel] are kept apart so that
    a termination theorem cannot be met by a crash. *)
Inductive fault :=
| NullDeref
| OutOfBounds
| AssertFailed
| BadShift
| DivByZero
| UseAfterFree
| BadCast
| UncaughtException
| IntegerOverflow.

Inductive outcome (A : Type) :=
| Ok (a : A)
| Fault (f : fault)
| OutOfFuel.
Arguments Ok {A} a.
Arguments Fault {A} f.
Arguments OutOfFuel {A}.

Definition obind {A B} (m : outcome A) (k : A -> outcome B) : outcome B :=
  match m with
  | Ok a => k a
  | Fault f => Fault f
  | OutOfFuel => OutOfFuel
  end.

Definition ocode {A} (m : outcome A) : option A :=
  match m with Ok a => Some a | _ => None end.

Definition M (W A : Type) := W -> outcome (A * W).

Definition ret {W A} (a : A) : M W A := fun w => Ok (a, w).
Definition bind {W A B} (m : M W A) (k : A -> M W B) : M W B :=
  fun w => obind (m w) (fun '(a, w') => k a w').
Definition get {W} : M W W := fun w => Ok (w, w).
Definition put {W} (w : W) : M W unit := fun _ => Ok (tt, w).
Definition modify {W} (f : W -> W) : M W unit := fun w => Ok (tt, f w).
Definition gets {W A} (f : W -> A) : M W A := fun w => Ok (f w, w).
Definition fail {W A} (f : fault) : M W A := fun _ => Fault f.
Definition nofuel {W A} : M W A := fun _ => OutOfFuel.
Definition lift {W A} (o : outcome A) : M W A := fun w => obind o (fun a => Ok (a, w)).
Definition assertM {W} (b : bool) : M W unit :=
  if b then ret tt else fail AssertFailed.

Notation "x <- m ;; k" := (bind m (fun x => k))
  (at level 100, m at next level, right associativity) : drive_scope.
Notation "'pat!' p <- m ;; k" := (bind m (fun p => k))
  (at level 100, p pattern, m at next level, right associativity) : drive_scope.
Notation "m ;;; k" := (bind m (fun _ => k))
  (at level 100, right associativity) : drive_scope.

(** ** Machine integers *)
Definition u8 (x : Z) : Z := x mod 2 ^ 8.
Definition u16 (x : Z) : Z := x mod 2 ^ 16.
Definition u32 (x : Z) : Z := x mod 2 ^ 32.
Definition u64 (x : Z) : Z := x mod 2 ^ 64.
(** reinterpretation of a [8*n]-bit unsigned value as two's complement *)
Definition to_signed (n : nat) (x : Z) : Z :=
  let m := 2 ^ (8 * Z.of_nat n) in
  if (x mod m) <? m / 2 then x mod m else x mod m - m.
Definition is_byte (b : Z) : Prop := 0 <= b < 256.
Definition in_u32 (x : Z) : Prop := 0 <= x < 2 ^ 32.
Definition in_u64 (x : Z) : Prop := 0 <= x < 2 ^ 64.
Definition zlen {A} (l : list A) : Z := Z.of_nat (length l).

(** the bytes of an integer in memory on a little-endian host *)
Fixpoint le_split (n : nat) (v : Z) : list Z :=
  match n with
  | O => []
  | S n' => v mod 256 :: le_split n' (v / 256)
  end.
Fixpoint le_combine (l : list Z) : Z :=
  match l with
  | [] => 0
  | b :: l' => b + 256 * le_combine l'
  end.

(** ** Byte strings *)
Definition ascii_byte (a : ascii) : Z := Z.of_N (N_of_ascii a).
Definition byte_ascii (b : Z) : ascii := ascii_of_N (Z.to_N b).
Definition bytes_of_string (s : string) : list Z :=
  map ascii_byte (list_ascii_of_string s).
Definition string_of_bytes (l : list Z) : string :=
  string_of_list_ascii (map byte_ascii l).
Definition str_size (s : string) : Z := Z.of_nat (String.length s).
Definition empty_str (s : string) : bool :=
  match s with EmptyString => true | _ => false end.

(** ** Arrays and files as byte lists *)
(** bytes [off, off+n) of [l], fewer when [l] ends before *)
Definition read_at (l : list Z) (off n : nat) : list Z := take n (drop off l).
(** [data] stored at [off]; a gap between the end of [l] and [off] is zeros *)
Definition write_at (l : list Z) (off : nat) (data : list Z) : list Z :=
  take off (l ++ replicate (off - length l) 0) ++ data
    ++ drop (off + length data) l.

(** ** Tactics and hint databases *)
Create HintDb drive.
Create Rewrite HintDb drive_len.

Ltac split_and_all := repeat match goal with |- _ /\ _ => split end.
(** destruct the scrutinee of a [match]/[if] in the goal or a hypothesis *)
Ltac case_hyp H :=
  match type of H with
  | context [match ?x with _ => _ end] =>
      lazymatch x with
      | context [match _ with _ => _ end] => fail
      | _ => destruct x eqn:?
      end
  end.
Ltac case_goal :=
  match goal with
  | |- context [match ?x with _ => _ end] =>
      lazymatch x with
      | context [match _ with _ => _ end] => fail
      | _ => destruct x eqn:?
      end
  end.
Ltac invc H := inversion H; subst; clear H.
(** turn boolean comparisons in the context into propositions *)
Ltac zbool :=
  repeat match goal with
  | H : (_ <? _)%Z = true |- _ => apply Z.ltb_lt in H
  | H : (_ <? _)%Z = false |- _ => apply Z.ltb_ge in H
  | H : (_ <=? _)%Z = true |- _ => apply Z.leb_le in H
  | H : (_ <=? _)%Z = false |- _ => apply Z.leb_gt in H
  | H : (_ =? _)%Z = true |- _ => apply Z.eqb_eq in H
  | H : (_ =? _)%Z = false |- _ => apply Z.eqb_neq in H
  | H : negb _ = true |- _ => apply negb_true_iff in H
  | H : negb _ = false |- _ => apply negb_false_iff in H
  | H : _ && _ = true |- _ => apply andb_true_iff in H; destruct H
  | H : _ || _ = false |- _ => apply orb_false_iff in H; destruct H
  end.
(** closed goals about concrete ranges and lists, by evaluation *)
Ltac closed_range := vm_compute; repeat split; intros; discriminate.
Ltac closed_forall :=
  repeat (apply Forall_nil_2 || (apply Forall_cons_2; [closed_range|])).
Ltac len_simpl := autorewrite with drive_len in *.

(** ** Shared lemmas *)
Lemma bind_ret_l {W A B} (a : A) (k : A -> M W B) w : bind (ret a) k w = k a w.
Proof. reflexivity. Qed.

Lemma bind_ok {W A B} (m : M W A) (k : A -> M W B) w a w' :
  m w = Ok (a, w') -> bind m k w = k a w'.
Proof. intros H. unfold bind. by rewrite H. Qed.

Lemma bind_inv {W A B} (m : M W A) (k : A -> M W B) w b w'' :
  bind m k w = Ok (b, w'') ->
  exists a w', m w = Ok (a, w') /\ k a w' = Ok (b, w'').
Proof.
  unfold bind, obind. destruct (m w) as [[a w']| |]; intros H; [eauto | done | done].
Qed.
Lemma obind_inv {A B} (m : outcome A) (k : A -> outcome B) b : obind m k = Ok b -> exists a, m = Ok a /\ k a = Ok b.
Proof. destruct m; [by eexists|done..]. Qed.
Lemma lift_inv {W A} (o : outcome A) (w : W) a w' : lift o w = Ok (a, w') -> o = Ok a /\ w' = w.
Proof. unfold lift. destruct o; cbn; [|done..]. by intros [= -> ->]. Qed.

Lemma u64_small x : in_u64 x -> u64 x = x.
Proof. intros H. unfold u64. by apply Z.mod_small. Qed.
Lemma u32_small x : in_u32 x -> u32 x = x.
Proof. intros H. unfold u32. by apply Z.mod_small. Qed.
Lemma u64_range x : in_u64 (u64 x).
Proof. unfold in_u64, u64. apply Z.mod_pos_bound. lia. Qed.
Lemma u32_range x : in_u32 (u32 x).
Proof. unfold in_u32, u32. apply Z.mod_pos_bound. lia. Qed.

Lemma zlen_app {A} (l k : list A) : zlen (l ++ k) = zlen l + zlen k.
Proof. unfold zlen. rewrite length_app. lia. Qed.
Lemma zlen_nonneg {A} (l : list A) : 0 <= zlen l.
Proof. unfold zlen. lia. Qed.

Lemma length_le_split n v : length (le_split n v) = n.
Proof. revert v. induction n; intros v; cbn; auto. Qed.

Lemma le_split_bytes n v : Forall is_byte (le_split n v).
Proof.
  revert v. induction n; intros v; cbn; constructor; auto.
  unfold is_byte. apply Z.mod_pos_bound. lia.
Qed.

Lemma le_combine_split n v :
  le_combine (le_split n v) = v mod 2 ^ (8 * Z.of_nat n).
Proof.
  revert v. induction n as [|n IH]; intros v; cbn [le_split le_combine].
  - rewrite Z.mod_1_r. done.
  - rewrite IH.
    replace (8 * Z.of_nat (S n)) with (8 + 8 * Z.of_nat n) by lia.
    rewrite Z.pow_add_r by lia. change (2 ^ 8) with 256.
    rewrite Z.rem_mul_r by lia. done.
Qed.

Lemma le_combine_range l :
  Forall is_byte l -> 0 <= le_combine l < 2 ^ (8 * zlen l).
Proof.
  unfold zlen. induction 1 as [|b l Hb Hl IH]; cbn [le_combine length].
  - simpl. lia.
  - replace (8 * Z.of_nat (S (length l))) with (8 + 8 * Z.of_nat (length l)) by lia.
    rewrite Z.pow_add_r by lia. change (2 ^ 8) with 256.
    unfold is_byte in Hb. lia.
Qed.

Lemma le_split_combine l :
  Forall is_byte l -> le_split (length l) (le_combine l) = l.
Proof.
  induction 1 as [|b l Hb Hl IH]; cbn [le_combine length le_split]; [done|].
  unfold is_byte in Hb. f_equal.
  - rewrite (Z.mul_comm 256), Z_mod_plus_full. by apply Z.mod_small.
  - rewrite (Z.mul_comm 256), Z_div_plus_full by lia.
    rewrite (Z.div_small b) by lia. by rewrite Z.add_0_l.
Qed.

Lemma length_bytes_of_string s : length (bytes_of_string s) = String.length s.
Proof.
  unfold bytes_of_string. rewrite length_map.
  induction s; cbn; auto.
Qed.
Lemma zlen_bytes_of_string s : zlen (bytes_of_string s) = str_size s.
Proof. unfold zlen, str_size. by rewrite length_bytes_of_string. Qed.

Lemma ascii_byte_range a : is_byte (ascii_byte a).
Proof.
  unfold is_byte, ascii_byte. pose proof (N_ascii_bounded a). lia.
Qed.
Lemma byte_ascii_byte a : byte_ascii (ascii_byte a) = a.
Proof.
  unfold byte_ascii, ascii_byte. rewrite N2Z.id. apply ascii_N_embedding.
Qed.
Lemma ascii_byte_ascii b : is_byte b -> ascii_byte (byte_ascii b) = b.
Proof.
  unfold is_byte, ascii_byte, byte_ascii. intros H.
  rewrite N_ascii_embedding by lia. lia.
Qed.

Lemma string_of_bytes_of_string s : string_of_bytes (bytes_of_string s) = s.
Proof.
  unfold string_of_bytes, bytes_of_string. rewrite map_map.
  rewrite <- (string_of_list_ascii_of_string s) at 2. f_equal.
  rewrite <- (map_id (list_ascii_of_string s)) at 2.
  apply map_ext. apply byte_ascii_byte.
Qed.

Lemma bytes_of_string_of_bytes l :
  Forall is_byte l -> bytes_of_string (string_of_bytes l) = l.
Proof.
  intros H. unfold bytes_of_string, string_of_bytes.
  rewrite list_ascii_of_string_of_list_ascii, map_map.
  induction H as [|b l Hb Hl IH]; cbn; [done|]. by rewrite ascii_byte_ascii, IH.
Qed.

Lemma bytes_of_string_bytes s : Forall is_byte (bytes_of_string s).
Proof.
  unfold bytes_of_string. apply Forall_map, Forall_true. apply ascii_byte_range.
Qed.

Lemma string_of_bytes_app l k :
  string_of_bytes (l ++ k) = (string_of_bytes l ++ string_of_bytes k)%string.
Proof.
  unfold string_of_bytes. rewrite map_app.
  induction (map byte_ascii l) as [|a l' IH]; cbn; [done|]. by rewrite IH.
Qed.

Lemma length_read_at l off n :
  length (read_at l off n) = Nat.min n (length l - off).
Proof. unfold read_at. by rewrite length_take, length_drop. Qed.

Lemma length_write_at l off data :
  length (write_at l off data) = Nat.max (length l) (off + length data).
Proof.
  unfold write_at.
  rewrite !length_app, length_take, length_app, length_replicate, length_drop. lia.
Qed.

Lemma write_at_end l data : write_at l (length l) data = l ++ data.
Proof.
  unfold write_at. rewrite Nat.sub_diag. cbn. rewrite app_nil_r, take_ge by lia.
  rewrite drop_ge by lia. by rewrite app_nil_r.
Qed.

Lemma read_write_same l off data :
  read_at (write_at l off data) off (length data) = data.
Proof.
  unfold read_at, write_at.
  rewrite drop_app_ge by (rewrite length_take, length_app, length_replicate; lia).
  rewrite length_take, length_app, length_replicate.
  replace (off - off `min` (length l + (off - length l)))%nat with 0%nat by lia.
  rewrite drop_0, take_app_le by lia. by rewrite take_ge by lia.
Qed.

Lemma read_write_before l off data o n :
  (o + n <= off)%nat -> (off <= length l)%nat ->
  read_at (write_at l off data) o n = read_at l o n.
Proof.
  intros H1 H2. unfold read_at, write_at.
  replace (off - length l)%nat with 0%nat by lia. cbn. rewrite app_nil_r.
  rewrite drop_app_le by (rewrite length_take; lia).
  rewrite take_app_le by (rewrite length_drop, length_take; lia).
  rewrite skipn_firstn_comm, take_take. f_equal. lia.
Qed.

Lemma read_write_after l off data o n :
  (off + length data <= o)%nat -> (off <= length l)%nat ->
  read_at (write_at l off data) o n = read_at l o n.
Proof.
  intros H1 H2. unfold read_at, write_at.
  replace (off - length l)%nat with 0%nat by lia. cbn. rewrite app_nil_r.
  rewrite app_assoc, drop_app_ge
    by (rewrite length_app, length_take; lia).
  rewrite drop_drop. f_equal. f_equal. rewrite length_app, length_take. lia.
Qed.

Lemma read_at_all l n : (length l <= n)%nat -> read_at l 0 n = l.
Proof. intros H. unfold read_at. by rewrite drop_0, take_ge by lia. Qed.

#[export] Hint Rewrite @length_app @length_take @length_drop @length_replicate
  @length_map length_le_split length_bytes_of_string length_read_at length_write_at
  @zlen_app zlen_bytes_of_string : drive_len.
#[export] Hint Resolve le_split_bytes bytes_of_string_bytes u64_range u32_range
  ascii_byte_range @zlen_nonneg : drive.

Lemma length_concat_const {A B} (f : A -> list B) n l :
  (forall a, length (f a) = n) -> length (concat (map f l)) = (length l * n)%nat.
Proof.
  intros Hf. induction l as [|a l IH]; [done|].
  cbn [map concat]. rewrite length_app, Hf, IH. done.
Qed.

Lemma string_app_inj (a b c : string) : (a ++ b)%string = (a ++ c)%string -> b = c.
Proof. induction a as [|x a IH]; cbn; [done|]. intros [= H]. auto. Qed.

Lemma write_at_app old off c r :
  write_at (write_at old off c) (off + length c) r = write_at old off (c ++ r).
Proof.
  unfold write_at at 1. rewrite length_write_at.
  replace (off + length c - Nat.max (length old) (off + length c))%nat with 0%nat by lia.
  cbn [replicate]. rewrite app_nil_r. unfold write_at.
  set (a := take off (old ++ replicate (off - length old) 0)).
  assert (Ha : length a = off) by (unfold a; rewrite length_take, length_app, length_replicate; lia).
  rewrite (app_assoc a), take_app_length' by (rewrite length_app; lia).
  rewrite drop_app_ge by (rewrite length_app; lia).
  rewrite drop_drop, !length_app, <- !app_assoc. do 4 f_equal. lia.
Qed.

(** ** Characters of strings *)
Fixpoint str_mem (c : ascii) (s : string) : bool :=
  match s with
  | EmptyString => false
  | String x s => Ascii.eqb x c || str_mem c s
  end.
(** no NUL in the middle *)
Definition no_nul (s : string) : Prop := str_mem "000" s = false.
Lemma str_mem_In c s : str_mem c s = true <-> In (ascii_byte c) (bytes_of_string s).
Proof.
  unfold bytes_of_string. induction s as [|d s IH]; cbn; [by split|]. rewrite orb_true_iff, IH. apply or_iff_compat_r.
  rewrite Ascii.eqb_eq. split; [by intros ->|]. intros E%(f_equal byte_ascii). by rewrite !byte_ascii_byte in E.
Qed.
Lemma str_mem_not_In c s : str_mem c s = false <-> ~ In (ascii_byte c) (bytes_of_string s).
Proof. rewrite <- str_mem_In. destruct (str_mem c s); [by split|by split; auto]. Qed.
Lemma no_nul_In s : no_nul s <-> ~ In 0 (bytes_of_string s).
Proof. apply (str_mem_not_In "000"). Qed.
Lemma bytes_of_app a b : bytes_of_string (a +:+ b) = bytes_of_string a ++ bytes_of_string b.
Proof.
  induction a as [|c a IH]; [done|].
  change (ascii_byte c :: bytes_of_string (a +:+ b) = ascii_byte c :: (bytes_of_string a ++ bytes_of_string b)). by rewrite IH.
Qed.
Lemma append_nil_r s : s +:+ EmptyString = s.
Proof.
  induction s as [|c s IH]; [done|].
  change (String c s +:+ "") with (String c (s +:+ "")). by rewrite IH.
Qed.
Lemma append_assoc s1 s2 s3 : (s1 +:+ s2) +:+ s3 = s1 +:+ (s2 +:+ s3).
Proof.
  induction s1 as [|c s IH]; [done|].
  change (String c s +:+ s2) with (String c (s +:+ s2)).
  change (String c (s +:+ s2) +:+ s3) with (String c ((s +:+ s2) +:+ s3)). by rewrite IH.
Qed.
Lemma length_append a b : String.length (a +:+ b) = (String.length a + String.length b)%nat.
Proof. induction a as [|c a IH]; [done|]. change (String c a +:+ b) with (String c (a +:+ b)). cbn [String.length]. lia. Qed.
Lemma str_size_app (a b : string) : str_size (a +:+ b) = str_size a + str_size b.
Proof. unfold str_size. rewrite length_append. lia. Qed.
Lemma substring_all n s : (String.length s <= n)%nat -> substring 0 n s = s.
Proof.
  revert n. induction s as [|c s IH]; intros [|n] Hn; cbn in *; [done|done|lia|].
  rewrite IH by lia. done.
Qed.
Lemma substring_prefix a b : substring 0 (String.length a) (a +:+ b) = a.
Proof.
  induction a as [|x a IH].
  - by destruct b.
  - change (String x a +:+ b) with (String x (a +:+ b)). cbn [String.length substring].
    by rewrite IH.
Qed.
Lemma str_mem_app c s1 s2 : str_mem c (s1 +:+ s2) = str_mem c s1 || str_mem c s2.
Proof. induction s1 as [|x s IH]; [done|]. change (str_mem c (String x s +:+ s2)) with (Ascii.eqb x c || str_mem c (s +:+ s2)). cbn. by rewrite IH, orb_assoc. Qed.
Lemma no_nul_app s1 s2 : no_nul (s1 +:+ s2) <-> no_nul s1 /\ no_nul s2.
Proof. unfold no_nul. by rewrite str_mem_app, orb_false_iff. Qed.
