(* ===== verification/Mutex.v ===== *)
(** * Mutual exclusion

    What a mutex promises, for the components whose threads are machines of single
    steps (AsyncQueue, AsyncResult): a thread is in its critical section exactly when
    it holds the mutex.  And what holds of some thread of a list. *)

From Stdlib Require Import ZArith Lia Bool.
From stdpp Require Import base tactics list.
Set Default Goal Selector "!".

Section Mutex.
Context {T : Type} `{EqDecision T}.
Implicit Types (c : T -> bool) (m : option T) (t : T).
Definition excludes c m : Prop := forall t, c t = true <-> m = Some t.

Lemma excludes_keep c m c' : excludes c m -> (forall t, c' t = c t) -> excludes c' m.
Proof. intros He Hc t. rewrite Hc. apply He. Qed.
Lemma excludes_acquire c c' t : excludes c None -> c' t = true -> (forall t', t' <> t -> c' t' = c t') -> excludes c' (Some t).
Proof.
  intros He Ht Hc t'. destruct (decide (t' = t)) as [->|Hne]; [done|]. rewrite Hc, (He t') by done. split; [done|congruence].
Qed.
Lemma excludes_release c m c' t : excludes c m -> c t = true -> c' t = false -> (forall t', t' <> t -> c' t' = c t') -> excludes c' None.
Proof.
  intros He H Ht Hc t'. destruct (decide (t' = t)) as [->|Hne]; [by rewrite Ht|].
  rewrite Hc, (He t') by done. apply He in H. split; [congruence|done].
Qed.
Lemma excludes_one c m t t' : excludes c m -> c t = true -> c t' = true -> t = t'.
Proof. intros He H1%He H2%He. congruence. Qed.
Lemma excludes_free c t : excludes c None -> c t = false.
Proof. intros He. destruct (c t) eqn:E; [|done]. by apply He in E. Qed.
End Mutex.

Section Some.
Context {X : Type}.
Implicit Types (f : X -> bool) (l : list X) (x y : X).
Definition some_in f l : Prop := exists i x, l !! i = Some x /\ f x = true.

Lemma some_here f l i x : l !! i = Some x -> f x = true -> some_in f l.
Proof. by exists i, x. Qed.
Lemma some_insert f l i x y : l !! i = Some x -> (f y = true \/ (f x = false /\ some_in f l)) -> some_in f (<[i := y]> l).
Proof.
  intros Hx [Hy|[Hf (j & z & Hj & Hz)]].
  - exists i, y. rewrite list_lookup_insert_eq by by eapply lookup_lt_Some. done.
  - exists j, z. destruct (decide (i = j)) as [<-|Hne]; [congruence|]. by rewrite list_lookup_insert_ne.
Qed.
Lemma some_insert_inv f l i y : some_in f (<[i := y]> l) -> f y = true \/ some_in f l.
Proof.
  intros (j & z & [[-> [-> _]]|[_ Hj]]%list_lookup_insert_Some & Hz); [by left|right; by exists j, z].
Qed.
Lemma some_map f (g : X -> X) l : some_in f (map g l) -> exists i x, l !! i = Some x /\ f (g x) = true.
Proof.
  intros (i & x & Hi & Hf). rewrite list_lookup_fmap in Hi. destruct (l !! i) as [y|] eqn:E; [|done]. injection Hi as <-. by exists i, y.
Qed.
Lemma sum_insert (f : X -> nat) l i x y : l !! i = Some x ->
  sum_list_with f (<[i := y]> l) + f x = sum_list_with f l + f y.
Proof.
  revert i. induction l as [|z l IH]; intros [|i]; [done..| |]; intros E.
  - injection E as ->. cbn. lia.
  - specialize (IH i E). change (<[S i := y]> (z :: l)) with (z :: <[i := y]> l). cbn [sum_list_with]. lia.
Qed.
(** some element has a part in a sum *)
Lemma sum_pos (f : X -> nat) l : 0 < sum_list_with f l -> exists i x, l !! i = Some x /\ 0 < f x.
Proof.
  induction l as [|x l IH]; cbn [sum_list_with]; [lia|]. intros H. destruct (f x) eqn:E.
  - destruct IH as (i & y & Hi & Hy); [lia|]. by exists (S i), y.
  - exists 0, x. split; [done|lia].
Qed.
Lemma sum_zero (f : X -> nat) l x : sum_list_with f l = 0 -> x ∈ l -> f x = 0.
Proof. induction 2 as [|? ? ? _ IH]; cbn [sum_list_with] in *; [lia|]. apply IH. lia. Qed.
End Some.
