(* ===== verification/AsyncResult.v ===== *)
(** * Waiting for an answer (src/src/bdfs-lib/AsyncResult.cpp, AutoMutex.h, Event.cpp)

    Threads that wait for a result and threads that complete it, as machines that do
    one access to shared memory per step. *)

From Stdlib Require Import ZArith Lia Bool.
From stdpp Require Import base list.
From S2P Require Import Prelude Mutex.
Set Default Goal Selector "!".
Local Open Scope Z_scope.

(** where a call of Wait stands *)
Inductive wpc :=
| W_start
| W_lock
| W_test
| W_wait
| W_blocked
| W_woken (no_timeout : bool)
| W_unlock (r : bool)
| W_returned (r : bool).
Record waiter := mkwaiter { msTimeout : Z; wpos : wpc }.
(** and a call of Complete *)
Inductive kpc := K_start | K_lock | K_notify | K_unlock | K_returned.

#[export] Instance kpc_eq_dec : EqDecision kpc.
Proof. solve_decision. Defined.

Inductive party := Waiter (i : nat) | Completer (i : nat).
#[export] Instance party_eq_dec : EqDecision party.
Proof. solve_decision. Defined.

Record result := mkresult {
  completed : bool;
  mutex : option party;
  waiters : list waiter;
  completers : list kpc
}.
Definition set_mutex (m : option party) (s : result) : result := mkresult (completed s) m (waiters s) (completers s).
Definition set_waiter (i : nat) (p : waiter) (s : result) : result :=
  mkresult (completed s) (mutex s) (<[i := p]> (waiters s)) (completers s).
Definition set_completer (i : nat) (k : kpc) (s : result) : result :=
  mkresult (completed s) (mutex s) (waiters s) (<[i := k]> (completers s)).
Definition set_completed (s : result) : result := mkresult true (mutex s) (waiters s) (completers s).
Definition lock (t : party) (k : result -> result) (s : result) : result :=
  match mutex s with None => k (set_mutex (Some t) s) | Some _ => s end.

(** a waiter that is blocked goes on, with what [wait_for] says *)
Definition wake (no_timeout : bool) (p : waiter) : waiter :=
  match wpos p with W_blocked => mkwaiter (msTimeout p) (W_woken no_timeout) | _ => p end.
Definition notify_all (s : result) : result := mkresult (completed s) (mutex s) (map (wake true) (waiters s)) (completers s).

(** one step of Wait; without a timeout the answer of [wait] is true *)
Definition wait_step (i : nat) (p : waiter) (s : result) : result :=
  let goto pc s := set_waiter i (mkwaiter (msTimeout p) pc) s in
  match wpos p with
  | W_start => goto (if completed s then W_returned true else W_lock) s
  | W_lock => lock (Waiter i) (goto W_test) s
  | W_test => goto (if completed s then W_unlock true else W_wait) s
  | W_wait => goto W_blocked (set_mutex None s)
  | W_blocked => s
  | W_woken no_timeout => lock (Waiter i) (goto (W_unlock no_timeout)) s
  | W_unlock r => goto (W_returned r) (set_mutex None s)
  | W_returned _ => s
  end.
(** one step of Complete *)
Definition complete_step (i : nat) (k : kpc) (s : result) : result :=
  match k with
  | K_start => set_completer i K_lock (set_completed s)
  | K_lock => lock (Completer i) (set_completer i K_notify) s
  | K_notify => set_completer i K_unlock (notify_all s)
  | K_unlock => set_completer i K_returned (set_mutex None s)
  | K_returned => s
  end.
(** a spurious wake-up, and the end of the time a waiter gave *)
Definition alarm_step (no_timeout : bool) (i : nat) (p : waiter) (s : result) : result :=
  if no_timeout || (0 <? msTimeout p) then set_waiter i (wake no_timeout p) s else s.

Inductive event := Wait (i : nat) | Complete (i : nat) | Spurious (i : nat) | Timeout (i : nat).
Definition step (e : event) (s : result) : result :=
  match e with
  | Wait i => match waiters s !! i with Some p => wait_step i p s | None => s end
  | Complete i => match completers s !! i with Some k => complete_step i k s | None => s end
  | Spurious i => match waiters s !! i with Some p => alarm_step true i p s | None => s end
  | Timeout i => match waiters s !! i with Some p => alarm_step false i p s | None => s end
  end.
Definition run (es : list event) (s : result) : result := fold_left (fun s e => step e s) es s.
(** threads that will wait, each with its timeout, and [n] threads that will complete *)
Definition fresh (timeouts : list Z) (n : nat) : result :=
  mkresult false None (map (fun t => mkwaiter t W_start) timeouts) (replicate n K_start).

(** ** The invariant *)
Definition in_wait (p : waiter) : bool := match wpos p with W_test | W_wait | W_unlock _ => true | _ => false end.
Definition in_complete (k : kpc) : bool := match k with K_notify | K_unlock => true | _ => false end.
Definition critical (s : result) (t : party) : bool :=
  match t with
  | Waiter i => match waiters s !! i with Some p => in_wait p | None => false end
  | Completer i => match completers s !! i with Some k => in_complete k | None => false end
  end.
Definition waits (p : waiter) : bool := match wpos p with W_wait | W_blocked => true | _ => false end.
(** a thread that has completed the result and has yet to notify *)
Definition notifies (k : kpc) : bool := match k with K_lock | K_notify => true | _ => false end.
Definition started (k : kpc) : bool := match k with K_start => false | _ => true end.
Record inv (s : result) : Prop := mkinv {
  inv_mutex : excludes (critical s) (mutex s);
  inv_completed : completed s = true <-> some_in started (completers s);
  inv_wake : completed s = true -> some_in waits (waiters s) -> some_in notifies (completers s)
}.

Lemma critical_waiter s i p q t : waiters s !! i = Some p ->
  critical (set_waiter i q s) t = if decide (t = Waiter i) then in_wait q else critical s t.
Proof.
  intros Hp. destruct t as [j|j]; cbn; [|by destruct (decide _)].
  destruct (decide (Waiter j = Waiter i)) as [[= ->]|Hne]; [by rewrite list_lookup_insert_eq by by eapply lookup_lt_Some|].
  by rewrite list_lookup_insert_ne by congruence.
Qed.
Lemma critical_completer s i k k' t : completers s !! i = Some k ->
  critical (set_completer i k' s) t = if decide (t = Completer i) then in_complete k' else critical s t.
Proof.
  intros Hp. destruct t as [j|j]; cbn; [by destruct (decide _)|].
  destruct (decide (Completer j = Completer i)) as [[= ->]|Hne]; [by rewrite list_lookup_insert_eq by by eapply lookup_lt_Some|].
  by rewrite list_lookup_insert_ne by congruence.
Qed.
Lemma critical_notify s t : critical (notify_all s) t = critical s t.
Proof.
  destruct t as [i|i]; [|done]. cbn. rewrite list_lookup_fmap. destruct (waiters s !! i) as [[m pc]|]; [|done]. by destruct pc.
Qed.

(** ** Every step preserves it *)
Lemma inv_waiter s s' i p q : inv s -> waiters s !! i = Some p -> waiters s' = <[i := q]> (waiters s) ->
  completers s' = completers s -> completed s' = completed s -> excludes (critical s') (mutex s') ->
  (waits q = true -> waits p = true \/ completed s = false) -> inv s'.
Proof.
  intros [Hm Hc Hw] Hp He Hk Hd Hex Hq. split; [done|by rewrite Hd, Hk|]. rewrite Hd, Hk, He. intros Hcd Hs. apply Hw; [done|].
  apply some_insert_inv in Hs as [Hs|Hs]; [|done]. destruct (Hq Hs) as [|]; [by eapply some_here|congruence].
Qed.
Lemma keeps_waiter s i p q : inv s -> waiters s !! i = Some p -> in_wait q = in_wait p -> excludes (critical (set_waiter i q s)) (mutex s).
Proof.
  intros Hi Hp Hq. apply (excludes_keep (critical s)); [by apply inv_mutex|]. intros t. rewrite (critical_waiter s i p q t Hp).
  destruct (decide _) as [->|]; [|done]. cbn. by rewrite Hp.
Qed.
Lemma acquires_waiter s i p q : inv s -> waiters s !! i = Some p -> mutex s = None -> in_wait q = true ->
  excludes (critical (set_waiter i q (set_mutex (Some (Waiter i)) s))) (Some (Waiter i)).
Proof.
  intros Hi Hp Hn Hq. pose proof (inv_mutex s Hi) as Hm. rewrite Hn in Hm. apply (excludes_acquire (critical s)); [done| |].
  - rewrite (critical_waiter _ i p q) by done. by rewrite decide_True.
  - intros t Hne. rewrite (critical_waiter _ i p q) by done. by rewrite decide_False.
Qed.
Lemma releases_waiter s i p q : inv s -> waiters s !! i = Some p -> in_wait p = true -> in_wait q = false ->
  excludes (critical (set_waiter i q (set_mutex None s))) None.
Proof.
  intros Hi Hp Hc Hq. apply (excludes_release (critical s) (mutex s) _ (Waiter i)); [by apply inv_mutex|cbn; by rewrite Hp| |].
  - rewrite (critical_waiter _ i p q) by done. by rewrite decide_True.
  - intros t Hne. rewrite (critical_waiter _ i p q) by done. by rewrite decide_False.
Qed.
Lemma wait_inv i p s : inv s -> waiters s !! i = Some p -> inv (wait_step i p s).
Proof.
  intros Hi Hp. unfold wait_step, lock. destruct p as [m pc]. destruct pc; cbn [wpos msTimeout]; try done.
  - eapply (inv_waiter s); [done..| |by destruct (completed s)]. apply (keeps_waiter s i _ _ Hi Hp). by destruct (completed s).
  - destruct (mutex s) eqn:Em; [done|]. eapply (inv_waiter s); [done..| |done]. by apply (acquires_waiter s i _ _ Hi Hp).
  - eapply (inv_waiter s); [done..| |destruct (completed s); by auto]. apply (keeps_waiter s i _ _ Hi Hp). by destruct (completed s).
  - eapply (inv_waiter s); [done..| |by left]. by apply (releases_waiter s i _ _ Hi Hp).
  - destruct (mutex s) eqn:Em; [done|]. eapply (inv_waiter s); [done..| |done]. by apply (acquires_waiter s i _ _ Hi Hp).
  - eapply (inv_waiter s); [done..| |done]. by apply (releases_waiter s i _ _ Hi Hp).
Qed.
Lemma alarm_inv b i p s : inv s -> waiters s !! i = Some p -> inv (alarm_step b i p s).
Proof.
  intros Hi Hp. unfold alarm_step. destruct (b || _); [|done]. eapply (inv_waiter s); [done..| |].
  - apply (keeps_waiter s i _ _ Hi Hp). unfold wake. destruct p as [m pc]. by destruct pc.
  - unfold wake. destruct p as [m pc]. destruct pc; by auto.
Qed.

Lemma inv_completer s s' i k k' : inv s -> completers s !! i = Some k -> completers s' = <[i := k']> (completers s) ->
  completed s' = true -> started k' = true -> excludes (critical s') (mutex s') ->
  (some_in waits (waiters s') -> notifies k' = true \/ (notifies k = false /\ completed s = true /\ some_in waits (waiters s))) -> inv s'.
Proof.
  intros [Hm Hc Hw] Hk He Hd Hs Hex Hn. split; [done| |]; rewrite He.
  - split; [|done]. intros _. apply (some_insert _ _ i k); [done|by left].
  - intros _ Hwt. apply (some_insert _ _ i k); [done|]. destruct (Hn Hwt) as [|(Hnk & Hcd & Hwt')]; [by left|right; auto].
Qed.
Lemma complete_inv i k s : inv s -> completers s !! i = Some k -> inv (complete_step i k s).
Proof.
  intros Hi Hk. pose proof (inv_mutex s Hi) as Hm. unfold complete_step, lock.
  assert (started k = true -> completed s = true) as Hd by (intros Hs; apply inv_completed; [done|by eapply some_here]).
  destruct k; try done.
  - eapply (inv_completer s); [done..| |by left]. apply (excludes_keep (critical s)); [done|]. intros t.
    rewrite (critical_completer (set_completed s) i K_start) by done. destruct (decide _) as [->|]; [|done]. cbn. by rewrite Hk.
  - destruct (mutex s) eqn:Em; [done|]. eapply (inv_completer s); [done..|by apply Hd|done| |by left].
    apply (excludes_acquire (critical s)); [done| |]; [rewrite (critical_completer _ i K_lock) by done; by rewrite decide_True|].
    intros t Hne. rewrite (critical_completer _ i K_lock) by done. by rewrite decide_False.
  - assert (critical s (Completer i) = true) as Hcr by by cbn; rewrite Hk.
    eapply (inv_completer s); [done..|by apply Hd|done| |].
    + apply (excludes_keep (critical s)); [done|]. intros t. rewrite (critical_completer (notify_all s) i K_notify) by done.
      destruct (decide _) as [->|]; [by rewrite Hcr|apply critical_notify].
    + intros (j & [m pc] & Hj & Hwt)%some_map. exfalso. destruct pc; try done.
      assert (critical s (Waiter j) = true) as Hcw by by cbn; rewrite Hj.
      by pose proof (excludes_one _ _ _ _ Hm Hcr Hcw).
  - eapply (inv_completer s); [done..|by apply Hd|done| |].
    + apply (excludes_release (critical s) (mutex s) _ (Completer i)); [done|cbn; by rewrite Hk| |].
      * rewrite (critical_completer _ i K_unlock) by done. by rewrite decide_True.
      * intros t Hne. rewrite (critical_completer _ i K_unlock) by done. by rewrite decide_False.
    + intros Hwt. right. split; [done|]. split; [by apply Hd|done].
Qed.
Lemma result_step_inv e s : inv s -> inv (step e s).
Proof.
  intros Hi. destruct e as [i|i|i|i]; cbn [step]; [destruct (waiters s !! i) eqn:E; [by apply wait_inv|done]
    |destruct (completers s !! i) eqn:E; [by apply complete_inv|done]|destruct (waiters s !! i) eqn:E; [by apply alarm_inv|done]..].
Qed.
Lemma result_run_inv es s : inv s -> inv (run es s).
Proof. revert s. induction es as [|e es IH]; intros s Hi; [done|]. by apply IH, result_step_inv. Qed.
Lemma fresh_inv timeouts n : inv (fresh timeouts n).
Proof.
  assert (forall i p, map (fun t => mkwaiter t W_start) timeouts !! i = Some p -> wpos p = W_start) as Hw.
  { intros i p. rewrite list_lookup_fmap. destruct (timeouts !! i); [|done]. by intros [= <-]. }
  split; cbn; [| |done].
  - intros [i|i]; cbn.
    + destruct (map _ timeouts !! i) as [p|] eqn:E; [|done]. unfold in_wait. by rewrite (Hw i p E).
    + destruct (replicate n K_start !! i) as [k|] eqn:E; [|done]. by apply lookup_replicate in E as [-> _].
  - split; [done|]. intros (i & k & [-> _]%lookup_replicate & Hk). done.
Qed.

(** ** What Wait says *)
(** without spurious wake-ups a waiter that was woken finds the result completed *)
Definition says_completed (p : waiter) : bool := match wpos p with W_woken r | W_unlock r | W_returned r => r | _ => false end.
Definition honest (s : result) : Prop := some_in says_completed (waiters s) -> completed s = true.
Definition spurious (e : event) : bool := match e with Spurious _ => true | _ => false end.
Lemma honest_set s i p q : honest s -> waiters s !! i = Some p -> (says_completed q = true -> says_completed p = true \/ completed s = true) ->
  some_in says_completed (<[i := q]> (waiters s)) -> completed s = true.
Proof.
  intros Hh Hp Hq [Hs|Hs]%some_insert_inv; [|by apply Hh]. destruct (Hq Hs); [|done]. apply Hh. by eapply some_here.
Qed.
Lemma step_honest e s : inv s -> spurious e = false -> honest s -> honest (step e s).
Proof.
  intros Hi He Hh. destruct e as [i|i|i|i]; cbn [step]; [| |done|].
  - destruct (waiters s !! i) as [[m pc]|] eqn:E; [|done]. unfold wait_step, lock.
    destruct pc; cbn [wpos msTimeout]; try done; try (destruct (mutex s); [done|]);
      unfold honest; cbn; apply (honest_set s i _ _ Hh E); cbn; try (by left); try by destruct (completed s); auto.
  - destruct (completers s !! i) as [k|] eqn:E; [|done].
    assert (started k = true -> completed s = true) as Hd by (intros Hs; apply inv_completed; [done|by eapply some_here]).
    unfold complete_step, lock. destruct k; try done; try (destruct (mutex s); [done|]); unfold honest; cbn; intros _; auto.
  - destruct (waiters s !! i) as [[m pc]|] eqn:E; [|done]. unfold alarm_step. destruct (_ || _); [|done].
    unfold honest; cbn. apply (honest_set s i _ _ Hh E). unfold wake. cbn. destruct pc; by auto.
Qed.
Lemma run_honest es s : inv s -> existsb spurious es = false -> honest s -> honest (run es s).
Proof.
  revert s. induction es as [|e es IH]; intros s Hi; [done|]. cbn. intros [He Hes]%orb_false_iff Hh.
  apply IH; [by apply result_step_inv|done|by apply step_honest].
Qed.

(** ** The threads' own steps *)
Definition own (e : event) : bool := match e with Wait _ | Complete _ => true | _ => false end.
Definition reaches (s : result) (P : result -> Prop) : Prop := exists es, forallb own es = true /\ P (run es s).
Lemma reached_now s (P : result -> Prop) : P s -> reaches s P.
Proof. intros H. by exists []. Qed.
Lemma reached_trans s P Q : reaches s P -> (forall s', P s' -> reaches s' Q) -> reaches s Q.
Proof.
  intros (es & Hes & HP) HQ. destruct (HQ _ HP) as (es' & Hes' & H). exists (es ++ es').
  unfold run. rewrite fold_left_app, forallb_app, Hes, Hes'. by split.
Qed.
(** a step that makes a measure smaller, until [Q] *)
Lemma reaches_measure (I Q : result -> Prop) (m : result -> nat) :
  (forall s, I s -> Q s \/ exists e, own e = true /\ I (step e s) /\ (m (step e s) < m s)%nat) ->
  forall s, I s -> reaches s (fun s' => I s' /\ Q s').
Proof.
  intros Hstep s. remember (m s) as n eqn:En. revert s En. induction n as [n IH] using lt_wf_ind. intros s -> Hs.
  destruct (Hstep s Hs) as [HQ|(e & Ho & Hs' & Hm)]; [by apply reached_now|].
  destruct (IH _ Hm _ eq_refl Hs') as (es & Hes & H). exists (e :: es). split; [|done]. cbn. by rewrite Ho.
Qed.

(** ** Those who complete the result return *)
Definition kweight (k : kpc) : nat := match k with K_start => 4 | K_lock => 3 | K_notify => 2 | K_unlock => 1 | K_returned => 0 end.
Definition cweight (p : waiter) : nat := match wpos p with W_test => 2 | W_wait | W_unlock _ => 1 | _ => 0 end.
Definition kwork (s : result) : nat := sum_list_with kweight (completers s) + sum_list_with cweight (waiters s).
Lemma wake_cweight l : sum_list_with cweight (map (wake true) l) = sum_list_with cweight l.
Proof. induction l as [|[m pc] l IH]; [done|]. cbn [map sum_list_with]. rewrite IH. f_equal. by destruct pc. Qed.
Lemma complete_kwork i k s : completers s !! i = Some k -> k <> K_returned -> (k = K_lock -> mutex s = None) ->
  (kwork (complete_step i k s) < kwork s)%nat.
Proof.
  intros Hk Hw Hl. unfold complete_step, lock, kwork. pose proof (fun k' => sum_insert kweight _ i _ k' Hk) as Hs.
  destruct k; [| | | |done].
  - specialize (Hs K_lock). cbn in *. lia.
  - rewrite (Hl eq_refl). specialize (Hs K_notify). cbn in *. lia.
  - specialize (Hs K_unlock). cbn in *. rewrite wake_cweight. lia.
  - specialize (Hs K_returned). cbn in *. lia.
Qed.
Lemma wait_kwork i p s : waiters s !! i = Some p -> in_wait p = true -> (kwork (wait_step i p s) < kwork s)%nat.
Proof.
  intros Hp Hc. destruct p as [m pc]. unfold wait_step, lock, kwork. pose proof (fun q => sum_insert cweight _ i _ q Hp) as Hs.
  destruct pc; try (cbn in Hc; discriminate); cbn [wpos msTimeout].
  - specialize (Hs (mkwaiter m (if completed s then W_unlock true else W_wait))). cbn in *. destruct (completed s); cbn in *; lia.
  - specialize (Hs (mkwaiter m W_blocked)). cbn in *. lia.
  - specialize (Hs (mkwaiter m (W_returned r))). cbn in *. lia.
Qed.
Definition all_returned (s : result) : Prop := Forall (fun k => k = K_returned) (completers s).
Lemma not_returned s : all_returned s \/ exists i k, completers s !! i = Some k /\ k <> K_returned.
Proof.
  destruct (decide (Forall (fun k => k = K_returned) (completers s))) as [|H]; [by left|right].
  apply not_Forall_Exists in H; [|apply _]. apply Exists_exists in H as (k & [i Hi]%list_elem_of_lookup & Hk). by exists i, k.
Qed.
Lemma completers_return s : inv s -> reaches s (fun s' => inv s' /\ all_returned s').
Proof.
  apply (reaches_measure inv all_returned kwork). clear s. intros s Hi. destruct (not_returned s) as [|(i & k & Hk & Hn)]; [by left|right].
  destruct (mutex s) as [t|] eqn:Em.
  - assert (critical s t = true) as Hc by by apply (inv_mutex s Hi). destruct t as [j|j]; cbn in Hc.
    + destruct (waiters s !! j) as [p|] eqn:Hp; [|done]. exists (Wait j). split; [done|]. split; [by apply result_step_inv|].
      cbn [step]. rewrite Hp. by apply wait_kwork.
    + destruct (completers s !! j) as [k'|] eqn:Hk'; [|done]. exists (Complete j). split; [done|]. split; [by apply result_step_inv|].
      cbn [step]. rewrite Hk'. by apply complete_kwork; [|intros ->|intros ->].
  - exists (Complete i). split; [done|]. split; [by apply result_step_inv|]. cbn [step]. rewrite Hk. by apply complete_kwork.
Qed.

(** ** Then those who wait return *)
Definition wweight (p : waiter) : nat :=
  match wpos p with W_wait | W_blocked => 5 | W_lock => 4 | W_test => 3 | W_woken _ => 2 | W_start | W_unlock _ => 1 | W_returned _ => 0 end.
Definition wwork (s : result) : nat := sum_list_with wweight (waiters s).
Lemma wait_wwork i p s : waiters s !! i = Some p -> completed s = true -> waits p = false -> (0 < wweight p)%nat ->
  (mutex s = None \/ in_wait p = true) -> (wwork (wait_step i p s) < wwork s)%nat.
Proof.
  intros Hp Hd Hw H0 Hm. destruct p as [m pc]. unfold wait_step, lock, wwork. rewrite Hd. pose proof (fun q => sum_insert wweight _ i _ q Hp) as Hs.
  destruct pc; try done; cbn [wpos msTimeout]; try (destruct Hm as [->|]; [|done]).
  - specialize (Hs (mkwaiter m (W_returned true))). cbn in *. lia.
  - specialize (Hs (mkwaiter m W_test)). cbn in *. lia.
  - specialize (Hs (mkwaiter m (W_unlock true))). cbn in *. lia.
  - specialize (Hs (mkwaiter m (W_unlock no_timeout))). cbn in *. lia.
  - specialize (Hs (mkwaiter m (W_returned r))). cbn in *. lia.
  - cbn in H0. lia.
Qed.
(** the state in which all calls of Complete have returned *)
Definition complete (s : result) : Prop := inv s /\ all_returned s /\ completers s <> [].
Lemma complete_completed s : complete s -> completed s = true.
Proof.
  intros (Hi & Ha & Hn). apply inv_completed; [done|]. destruct (completers s) as [|k l] eqn:E; [done|].
  exists 0%nat, k. split; [done|]. unfold all_returned in Ha. rewrite E in Ha. by apply Forall_cons in Ha as [-> _].
Qed.
Lemma complete_awake s : complete s -> forall i p, waiters s !! i = Some p -> waits p = false.
Proof.
  intros Hc i p Hp. destruct (waits p) eqn:E; [|done]. destruct Hc as (Hi & Ha & Hn).
  destruct (inv_wake s Hi (complete_completed s ltac:(done)) ltac:(by eapply some_here)) as (j & k & Hk & Hkn).
  unfold all_returned in Ha. rewrite Forall_lookup in Ha. by rewrite (Ha _ _ Hk) in Hkn.
Qed.
Definition returned (p : waiter) : bool := match wpos p with W_returned _ => true | _ => false end.
Definition all_back (s : result) : Prop := Forall (fun p => returned p = true) (waiters s).
Lemma waiters_return s : complete s -> reaches s (fun s' => complete s' /\ all_back s').
Proof.
  apply (reaches_measure complete all_back wwork). clear s. intros s Hc. pose proof Hc as (Hi & Ha & Hn).
  assert (forall i p, waiters s !! i = Some p -> (0 < wweight p)%nat -> mutex s = None \/ in_wait p = true ->
    exists e, own e = true /\ complete (step e s) /\ (wwork (step e s) < wwork s)%nat) as Hs.
  { intros i p Hp H0 Hm. exists (Wait i). split; [done|]. split.
    - split; [by apply result_step_inv|]. cbn [step]. rewrite Hp. unfold all_returned. 
      assert (completers (wait_step i p s) = completers s) as -> by (unfold wait_step, lock; by repeat case_match). done.
    - cbn [step]. rewrite Hp. apply wait_wwork; [done|by apply complete_completed|by eapply complete_awake|done|done]. }
  destruct (mutex s) as [t|] eqn:Em.
  - right. assert (critical s t = true) as Hcr by by apply (inv_mutex s Hi). destruct t as [j|j]; cbn in Hcr.
    + destruct (waiters s !! j) as [p|] eqn:Hp; [|done]. apply (Hs j p); [done| |by right]. unfold in_wait in Hcr. unfold wweight. destruct (wpos p); try done; lia.
    + destruct (completers s !! j) as [k|] eqn:Hk; [|done]. unfold all_returned in Ha. rewrite Forall_lookup in Ha. by rewrite (Ha _ _ Hk) in Hcr.
  - destruct (decide (wwork s = 0%nat)) as [E|Hne].
    + left. apply Forall_forall. intros p Hp. pose proof (sum_zero wweight _ p E Hp) as Hw. unfold wweight, returned in *. by destruct (wpos p).
    + right. destruct (sum_pos wweight (waiters s)) as (i & p & Hp & Hw); [unfold wwork in Hne; lia|]. apply (Hs i p); [done|done|by left].
Qed.

Lemma complete_start timeouts n es : (0 < n)%nat -> completers (run es (fresh timeouts n)) <> [].
Proof.
  intros Hn. assert (length (completers (run es (fresh timeouts n))) = n) as Hl; [|by intros E; rewrite E in Hl; cbn in Hl; lia].
  assert (forall s, length (completers s) = n -> length (completers (run es s)) = n) as Hr; [|apply Hr; cbn; apply length_replicate].
  induction es as [|e es IH]; intros s Hs; [done|]. apply IH. rewrite <- Hs.
  destruct e; cbn [step]; unfold wait_step, complete_step, alarm_step, lock; repeat case_match; cbn; rewrite ?length_insert; done.
Qed.

(** ** Theorems *)
(** [C27] No call of Wait is left behind: from wherever a run stands, once some thread is
    going to complete the result, the threads' own steps lead on to a state in which all
    calls of Complete and all calls of Wait have returned. *)
Theorem wait_returns (timeouts : list Z) (n : nat) (es : list event) : (0 < n)%nat ->
  exists es', forallb own es' = true /\ all_returned (run es' (run es (fresh timeouts n))) /\
    all_back (run es' (run es (fresh timeouts n))).
Proof.
  intros Hn. set (s := run es (fresh timeouts n)). assert (inv s) as Hi by apply result_run_inv, fresh_inv.
  destruct (reached_trans s (fun s' => inv s' /\ all_returned s' /\ completers s' <> []) (fun s' => complete s' /\ all_back s'))
    as (es' & Ho & (_ & Ha & _) & Hb); [| |by exists es'].
  - destruct (completers_return s Hi) as (es1 & Ho & Hi1 & Ha1). exists es1. split; [done|]. split; [done|]. split; [done|].
    unfold s. assert (run es1 (run es (fresh timeouts n)) = run (es ++ es1) (fresh timeouts n)) as -> by (unfold run; by rewrite fold_left_app).
    by apply complete_start.
  - intros s' Hs'. by apply waiters_return.
Qed.
Lemma wait_returns_witness : exists es', forallb own es' = true /\
  all_returned (run es' (run [Wait 0; Wait 0; Wait 0; Complete 0; Wait 1; Wait 0] (fresh [0; 5] 1))) /\
  all_back (run es' (run [Wait 0; Wait 0; Wait 0; Complete 0; Wait 1; Wait 0] (fresh [0; 5] 1))).
Proof. apply (wait_returns [0; 5] 1 [Wait 0; Wait 0; Wait 0; Complete 0; Wait 1; Wait 0]). lia. Defined.

(** What Wait says is so: as long as no condition variable wakes up for no reason,
    a call of Wait that returned true found the result completed. *)
Theorem wait_truthful (timeouts : list Z) (n : nat) (es : list event) (i : nat) (p : waiter) :
  existsb spurious es = false -> waiters (run es (fresh timeouts n)) !! i = Some p -> wpos p = W_returned true ->
  completed (run es (fresh timeouts n)) = true.
Proof.
  intros Hs Hp Hr. apply (run_honest es (fresh timeouts n)); [apply fresh_inv|done| |].
  - intros (j & q & Hj & Hq). cbn in Hj. rewrite list_lookup_fmap in Hj. destruct (timeouts !! j); [|done]. by injection Hj as <-.
  - exists i, p. split; [done|]. unfold says_completed. by rewrite Hr.
Qed.
Definition wait_events : list event := [Wait 0; Wait 0; Wait 0; Wait 0; Complete 0; Complete 0; Complete 0; Complete 0; Wait 0; Wait 0].
Lemma wait_truthful_witness : completed (run wait_events (fresh [0] 1)) = true.
Proof. apply (wait_truthful [0] 1 wait_events 0 (mkwaiter 0 (W_returned true))); reflexivity. Defined.

(** a spurious wake-up makes Wait say that a result is there that is not: [wait] and
    [wait_for] are called once, and not until the result is completed *)
Lemma spurious_wait : let s := run [Wait 0; Wait 0; Wait 0; Wait 0; Spurious 0; Wait 0; Wait 0] (fresh [0] 1) in
  waiters s !! 0%nat = Some (mkwaiter 0 (W_returned true)) /\ completed s = false.
Proof. by split. Qed.
(** and a timeout makes it say that it is not, although it has been completed *)
Lemma late_wait : let s := run [Wait 0; Wait 0; Wait 0; Wait 0; Timeout 0; Complete 0; Complete 0; Complete 0; Complete 0; Wait 0; Wait 0] (fresh [5] 1) in
  waiters s !! 0%nat = Some (mkwaiter 5 (W_returned false)) /\ completed s = true.
Proof. by split. Qed.

(** ** AutoMutex::Wait: the time to wait until *)
Definition timed_wait (tv_sec tv_nsec milliseconds : Z) : Z * Z :=
  let seconds := milliseconds / 1000 in
  let nseconds := u32 ((milliseconds - seconds * 1000) * 1000000) in
  let nseconds := u32 (nseconds + (nseconds + tv_nsec)) in
  let (seconds, nseconds) := if 1000000000 <=? nseconds then (seconds + 1, nseconds - 1000000000) else (seconds, nseconds) in
  (tv_sec + seconds, nseconds).
Definition instant (t : Z * Z) : Z := fst t * 1000000000 + snd t.
(** the milliseconds that are not whole seconds count twice *)
Lemma timed_wait_instant s n ms : 0 <= n < 1000000000 -> 0 <= ms ->
  instant (timed_wait s n ms) = instant (s, n) + ms * 1000000 + ms mod 1000 * 1000000.
Proof.
  intros Hn Hms. unfold timed_wait, instant. pose proof (Z.div_mod ms 1000 ltac:(lia)) as Hd. pose proof (Z.mod_pos_bound ms 1000 ltac:(lia)) as Hm.
  rewrite !u32_small by (unfold in_u32; rewrite ?u32_small; unfold in_u32; lia).
  destruct (Z.leb_spec 1000000000 ((ms - ms / 1000 * 1000) * 1000000 + ((ms - ms / 1000 * 1000) * 1000000 + n))); cbn [fst snd]; lia.
Qed.
(** and may leave nanoseconds that are no time: pthread_cond_timedwait refuses them *)
Lemma timed_wait_invalid : timed_wait 0 999999999 999 = (1, 1997999999).
Proof. done. Qed.

(** ** Event, whose calls hold its mutex from end to end but for the wait *)
Record signal_event := mkevent { isSet : bool; blocked : nat }.
(** None when the caller has to wait *)
Definition event_wait (e : signal_event) : option bool * signal_event :=
  if isSet e then (Some true, mkevent false (blocked e)) else (None, mkevent (isSet e) (S (blocked e))).
Definition event_signal (e : signal_event) : signal_event := mkevent true 0.
(** a signal that wakes a thread is still there for the next one *)
Lemma event_signal_kept : forall e, isSet e = false ->
  let e1 := event_signal (snd (event_wait e)) in blocked e1 = 0%nat /\ fst (event_wait e1) = Some true.
Proof. done. Qed.
