(* ===== verification/EventLoop.v ===== *)
(** * The loop that handles requests (src/src/bdfs-lib/EventLoop.h)

    Threads that send events, the loop's own thread and the thread that starts and
    stops it, as machines that do one access to shared memory per step.  The queue
    between them is a list that Produce and Consume change in one step: for one thread
    that sends, as the daemon has, [LockFree] proves that of LockFreeQueue (with two it
    is not safe).  The Event is that of [AsyncResult].  What a handler does to the rest of the program is a
    parameter. *)

From Stdlib Require Import ZArith Lia Bool.
From stdpp Require Import base list.
From S2P Require Import Prelude Mutex AsyncResult.
Set Default Goal Selector "!".
Local Open Scope drive_scope.

Section EventLoop.
Context {T E : Type} (handler : T -> M E bool).

(** ** The loop *)
(** where the thread stands: [while (!quit)], [Consume], [&& !quit], the call of the
    handler, [if (!quit)], and the wait *)
Inductive lpc := L_none | L_test | L_consume | L_check (v : T) | L_handle (v : T) | L_idle | L_wait | L_blocked | L_done.
(** a call of SendEvent: [active], [quit], [Produce] and [Signal] *)
Inductive spc := S_idle | S_quit (v : T) | S_produce (v : T) | S_signal.
Record sender := mksender { todo : list T; spos : spc }.
(** Start, and Stop after it *)
Inductive opc :=
| O_start
| O_new
| O_create
| O_active
| O_returned (r : bool)
| O_quit
| O_signal
| O_join
| O_inactive
| O_delete
| O_null
| O_stopped.
Inductive pointer := Null | Freed | Live (e : signal_event).

(** [handled], [dropped], [produced] and [refused] only record what happens *)
Record loop := mkloop {
  queue : list T;
  queueEvent : pointer;
  active : bool;
  quit : bool;
  lpos : lpc;
  senders : list sender;
  owner : opc;
  env : E;
  handled : list T;
  dropped : list T;
  produced : list T;
  refused : list T
}.
Definition set_lpos (p : lpc) (s : loop) : loop :=
  mkloop (queue s) (queueEvent s) (active s) (quit s) p (senders s) (owner s) (env s) (handled s) (dropped s) (produced s) (refused s).
Definition set_queue (q : list T) (s : loop) : loop :=
  mkloop q (queueEvent s) (active s) (quit s) (lpos s) (senders s) (owner s) (env s) (handled s) (dropped s) (produced s) (refused s).
Definition set_event (e : pointer) (s : loop) : loop :=
  mkloop (queue s) e (active s) (quit s) (lpos s) (senders s) (owner s) (env s) (handled s) (dropped s) (produced s) (refused s).
Definition set_flags (a q : bool) (s : loop) : loop :=
  mkloop (queue s) (queueEvent s) a q (lpos s) (senders s) (owner s) (env s) (handled s) (dropped s) (produced s) (refused s).
Definition set_owner (o : opc) (s : loop) : loop :=
  mkloop (queue s) (queueEvent s) (active s) (quit s) (lpos s) (senders s) o (env s) (handled s) (dropped s) (produced s) (refused s).
Definition set_sender (i : nat) (p : sender) (s : loop) : loop :=
  mkloop (queue s) (queueEvent s) (active s) (quit s) (lpos s) (<[i := p]> (senders s)) (owner s) (env s) (handled s) (dropped s) (produced s) (refused s).
Definition set_handled (v : T) (e : E) (s : loop) : loop :=
  mkloop (queue s) (queueEvent s) (active s) (quit s) (lpos s) (senders s) (owner s) e (handled s ++ [v]) (dropped s) (produced s) (refused s).
Definition set_dropped (v : T) (s : loop) : loop :=
  mkloop (queue s) (queueEvent s) (active s) (quit s) (lpos s) (senders s) (owner s) (env s) (handled s) (dropped s ++ [v]) (produced s) (refused s).
Definition set_produced (v : T) (s : loop) : loop :=
  mkloop (queue s ++ [v]) (queueEvent s) (active s) (quit s) (lpos s) (senders s) (owner s) (env s) (handled s) (dropped s) (produced s ++ [v]) (refused s).
Definition set_refused (v : T) (s : loop) : loop :=
  mkloop (queue s) (queueEvent s) (active s) (quit s) (lpos s) (senders s) (owner s) (env s) (handled s) (dropped s) (produced s) (refused s ++ [v]).

(** a call on [queueEvent] *)
Definition on_event {A} (f : signal_event -> A * signal_event) (k : A -> loop -> outcome loop) (s : loop) : outcome loop :=
  match queueEvent s with
  | Null => Fault NullDeref
  | Freed => Fault UseAfterFree
  | Live e => let (a, e) := f e in k a (set_event (Live e) s)
  end.
Definition signal (k : loop -> loop) : loop -> outcome loop := on_event (fun e => (tt, event_signal e)) (fun _ s => Ok (k s)).

(** one step of LoopThread; without a handler the code skips the call, as a handler
    that always answers true would *)
Definition loop_step (s : loop) : outcome loop :=
  match lpos s with
  | L_none | L_done => Ok s
  | L_test => Ok (set_lpos (if quit s then L_done else L_consume) s)
  | L_consume => match queue s with [] => Ok (set_lpos L_idle s) | v :: q => Ok (set_lpos (L_check v) (set_queue q s)) end
  | L_check v => Ok (if quit s then set_lpos L_idle (set_dropped v s) else set_lpos (L_handle v) s)
  | L_handle v => obind (handler v (env s)) (fun '(r, e) => Ok (set_lpos (if r : bool then L_consume else L_done) (set_handled v e s)))
  | L_idle => Ok (set_lpos (if quit s then L_test else L_wait) s)
  | L_wait => on_event event_wait (fun r s => Ok (set_lpos (match r with Some _ => L_test | None => L_blocked end) s)) s
  | L_blocked => match queueEvent s with Live e => Ok (if Nat.eqb (blocked e) 0 then set_lpos L_test s else s) | _ => Ok s end
  end.
(** one step of SendEvent *)
Definition send_step (i : nat) (p : sender) (s : loop) : outcome loop :=
  let goto pc s := set_sender i (mksender (todo p) pc) s in
  match spos p with
  | S_idle =>
      match todo p with
      | [] => Ok s
      | v :: vs => Ok (if active s then set_sender i (mksender vs (S_quit v)) s else set_sender i (mksender vs S_idle) (set_refused v s))
      end
  | S_quit v => Ok (if quit s then goto S_idle (set_refused v s) else goto (S_produce v) s)
  | S_produce v => Ok (goto S_signal (set_produced v s))
  | S_signal => signal (goto S_idle) s
  end.
(** one step of Start or Stop: [created] is what pthread_create says *)
Definition owner_step (created : bool) (s : loop) : outcome loop :=
  match owner s with
  | O_start => Ok (set_owner O_new (set_flags (active s) false s))
  | O_new => Ok (set_owner O_create (set_event (Live (mkevent false 0)) s))
  | O_create => Ok (if created then set_owner O_active (set_lpos L_test s) else set_owner (O_returned false) s)
  | O_active => Ok (set_owner (O_returned true) (set_flags true (quit s) s))
  | O_returned _ => Ok (set_owner O_quit (set_flags (active s) true s))
  | O_quit => Ok (set_owner (if active s then O_signal else O_delete) s)
  | O_signal => match queueEvent s with Null => Ok (set_owner O_join s) | _ => signal (set_owner O_join) s end
  | O_join => match lpos s with L_done => Ok (set_owner O_inactive s) | _ => Ok s end
  | O_inactive => Ok (set_owner O_delete (set_flags false (quit s) s))
  | O_delete => Ok (set_owner O_null (match queueEvent s with Null => s | _ => set_event Freed s end))
  | O_null => Ok (set_owner O_stopped (set_event Null s))
  | O_stopped => Ok s
  end.
(** the end of the longest wait, or a wake-up for no reason *)
Definition alarm_step (s : loop) : outcome loop :=
  match lpos s, queueEvent s with L_blocked, Live e => Ok (set_event (Live (mkevent (isSet e) 0)) s) | _, _ => Ok s end.

Inductive event := Loop | Send (i : nat) | Owner (created : bool) | Alarm.
Definition step (e : event) (s : loop) : outcome loop :=
  match e with
  | Loop => loop_step s
  | Send i => match senders s !! i with Some p => send_step i p s | None => Ok s end
  | Owner created => owner_step created s
  | Alarm => alarm_step s
  end.
Fixpoint run (es : list event) (s : loop) : outcome loop :=
  match es with [] => Ok s | e :: es => obind (step e s) (run es) end.
(** the constructor, with threads that will send events *)
Definition fresh (todos : list (list T)) (e : E) : loop :=
  mkloop [] Null false false L_none (map (fun t => mksender t S_idle) todos) O_start e [] [] [] [].
Definition Start : list event := replicate 4 (Owner true).

(** ** What it is for: events handled one after the other, until one fails *)
Fixpoint serve (vs : list T) : M E bool :=
  match vs with
  | [] => ret true
  | v :: vs => b <- handler v ;; if b : bool then serve vs else ret false
  end.

Lemma serve_app vs ws e : serve (vs ++ ws) e = obind (serve vs e) (fun '(b, e) => if b : bool then serve ws e else Ok (false, e)).
Proof.
  revert e. induction vs as [|v vs IH]; intros e; [done|]. cbn. unfold bind. destruct (handler v e) as [[[] e']| |]; cbn; [apply IH|done..].
Qed.
Lemma loop_run_app es es' s : run (es ++ es') s = obind (run es s) (run es').
Proof. revert s. induction es as [|e es IH]; intros s; [done|]. cbn. destruct (step e s) as [s'| |]; [apply IH|done..]. Qed.
(** what every step keeps, every run keeps *)
Lemma run_keeps (I : loop -> Prop) (ok : event -> bool) :
  (forall e s s', ok e = true -> I s -> step e s = Ok s' -> I s') ->
  forall es s s', forallb ok es = true -> I s -> run es s = Ok s' -> I s'.
Proof.
  intros Hstep es. induction es as [|e es IH]; intros s s'; cbn; [by intros _ Hs [= <-]|].
  intros [He Hes]%andb_prop Hs (s1 & H1 & H2)%obind_inv. eapply IH; [done| |done]. by eapply Hstep.
Qed.

(** ** The states of a run *)
Definition flight (s : loop) : list T := match lpos s with L_check v | L_handle v => [v] | _ => [] end.
Definition live (s : loop) : Prop := match queueEvent s with Live _ => True | _ => False end.
Definition not_running (s : loop) : Prop := lpos s = L_none \/ lpos s = L_done.
(** what the owner's steps have done so far *)
Definition phase (s : loop) : Prop :=
  match owner s with
  | O_start => lpos s = L_none /\ active s = false
  | O_new => lpos s = L_none /\ active s = false /\ quit s = false
  | O_create => lpos s = L_none /\ active s = false /\ quit s = false /\ live s
  | O_active => lpos s <> L_none /\ active s = false /\ quit s = false /\ live s
  | O_returned true => lpos s <> L_none /\ active s = true /\ quit s = false /\ live s
  | O_returned false => lpos s = L_none /\ active s = false /\ live s
  | O_quit => quit s = true /\ live s /\ (if active s then lpos s <> L_none else lpos s = L_none)
  | O_signal | O_join => quit s = true /\ live s /\ active s = true /\ lpos s <> L_none
  | O_inactive | O_delete | O_null | O_stopped => quit s = true /\ not_running s
  end.
Record inv (e0 : E) (s : loop) : Prop := mkinv {
  inv_phase : phase s;
  inv_account : produced s = handled s ++ flight s ++ dropped s ++ queue s;
  inv_serve : exists b, serve (handled s) e0 = Ok (b, env s) /\ (b = false -> lpos s = L_done) /\ (lpos s = L_done -> quit s = true \/ b = false);
  inv_drop : dropped s <> [] -> quit s = true /\ (lpos s = L_idle \/ lpos s = L_test \/ lpos s = L_done)
}.

(** a step of a sender, or of the Event, leaves all of it but the queue *)
Lemma inv_other e0 s s' vs : inv e0 s -> lpos s' = lpos s -> owner s' = owner s -> active s' = active s -> quit s' = quit s ->
  (live s -> live s') -> queue s' = queue s ++ vs -> produced s' = produced s ++ vs -> handled s' = handled s ->
  dropped s' = dropped s -> env s' = env s -> inv e0 s'.
Proof.
  intros [Hp Ha Hs Hd] El Eo Ea Eq Hl Equ Ep Eh Edr Ee. split.
  - unfold phase, not_running in *. rewrite Eo, Ea, Eq, El. destruct (owner s) as [| | | |[]| | | | | | |]; naive_solver.
  - unfold flight. rewrite Ep, Ha, Eh, El, Edr, Equ. by rewrite <- !app_assoc.
  - by rewrite Eh, Ee, El, Eq.
  - by rewrite Edr, Eq, El.
Qed.
Lemma on_event_ok {A} (f : signal_event -> A * signal_event) k s s' : on_event f k s = Ok s' ->
  exists e, queueEvent s = Live e /\ k (fst (f e)) (set_event (Live (snd (f e))) s) = Ok s'.
Proof. unfold on_event. destruct (queueEvent s) as [| |e]; [done..|]. destruct (f e) as [a e'] eqn:Ef. intros H. exists e. by rewrite Ef. Qed.
Lemma loop_send_inv e0 i p s s' : inv e0 s -> send_step i p s = Ok s' -> inv e0 s'.
Proof.
  intros Hi. unfold send_step. destruct (spos p) as [|v|v|].
  - destruct (todo p) as [|v vs]; [by intros [= <-]|]. intros [= <-]. destruct (active s) eqn:Ea;
      apply (inv_other e0 s _ [] Hi); cbn; rewrite ?app_nil_r, ?Ea; done.
  - intros [= <-]. destruct (quit s) eqn:Eq; apply (inv_other e0 s _ [] Hi); cbn; rewrite ?app_nil_r, ?Eq; done.
  - intros [= <-]. by apply (inv_other e0 s _ [v] Hi).
  - intros (e & He & [= <-])%on_event_ok. apply (inv_other e0 s _ [] Hi); cbn; rewrite ?app_nil_r; done.
Qed.
Lemma alarm_loop_inv e0 s s' : inv e0 s -> alarm_step s = Ok s' -> inv e0 s'.
Proof.
  intros Hi. unfold alarm_step. destruct (lpos s) eqn:El; try by intros [= <-]. destruct (queueEvent s) eqn:Ee; try by intros [= <-].
  intros [= <-]. apply (inv_other e0 s _ [] Hi); cbn; rewrite ?app_nil_r; done.
Qed.
(** a step of the loop's thread, which leaves the owner and the flags *)
Lemma phase_loop s s' : phase s -> lpos s <> L_none -> lpos s <> L_done -> lpos s' <> L_none -> owner s' = owner s ->
  active s' = active s -> quit s' = quit s -> (live s -> live s') -> phase s'.
Proof.
  unfold phase, not_running. intros Hp Hn Hd Hn' -> -> -> Hl. destruct (owner s) as [| | | |[]| | | | | | |]; try naive_solver.
  destruct (active s); naive_solver.
Qed.
Lemma loop_inv e0 s s' : inv e0 s -> loop_step s = Ok s' -> inv e0 s'.
Proof.
  intros Hi. pose proof Hi as [Hp Ha (b & Hs & Hb & Hq) Hd]. unfold loop_step. destruct (lpos s) eqn:El; try (by intros [= <-]).
  all: assert (b = true) as -> by (destruct b; [done|specialize (Hb eq_refl); congruence]).
  all: unfold flight in Ha; rewrite El in Ha.
  all: assert (forall s2, env s2 = env s -> handled s2 = handled s -> (lpos s2 = L_done -> quit s2 = true) ->
    exists b, serve (handled s2) e0 = Ok (b, env s2) /\ (b = false -> lpos s2 = L_done) /\ (lpos s2 = L_done -> quit s2 = true \/ b = false))
    as Hsv by (intros s2 -> -> H2; exists true; split; [done|split; [done|auto]]).
  - intros [= <-]. split; [apply (phase_loop s); cbn; rewrite ?El; by destruct (quit s)|unfold flight; cbn; by destruct (quit s)|apply Hsv; cbn; by destruct (quit s)|].
    cbn. intros H. destruct (Hd H) as [-> _]. auto.
  - destruct (queue s) as [|v q] eqn:Eq; intros [= <-]; (split; [apply (phase_loop s); cbn; by rewrite ?El| |by apply Hsv|cbn; naive_solver]); cbn.
    + by rewrite Eq.
    + rewrite Ha. destruct (dropped s) eqn:Edr; [done|]. destruct Hd as [_ [|[]]]; done.
  - assert (dropped s = []) as Edr by (destruct (dropped s); [done|destruct Hd as [_ [|[]]]; done]).
    intros [= <-]. destruct (quit s) eqn:Eq; (split; [apply (phase_loop s); cbn; by rewrite ?El|unfold flight; cbn; by rewrite ?Ha, ?Edr|by apply Hsv|]);
      cbn; [by auto|by rewrite Edr].
  - assert (dropped s = []) as Edr by (destruct (dropped s); [done|destruct Hd as [_ [|[]]]; done]).
    intros ([r e] & Hh & [= <-])%obind_inv. split; cbn.
    + apply (phase_loop s); cbn; rewrite ?El; try done. by destruct r.
    + rewrite Ha, Edr. unfold flight; cbn. destruct r; by rewrite <- !app_assoc.
    + exists r. rewrite serve_app, Hs. cbn. unfold bind. rewrite Hh. cbn. destruct r; naive_solver.
    + by rewrite Edr.
  - intros [= <-]. split; [apply (phase_loop s); cbn; rewrite ?El; by destruct (quit s)|unfold flight; cbn; by destruct (quit s)|apply Hsv; cbn; by destruct (quit s)|].
    cbn. intros H. destruct (Hd H) as [-> _]. auto.
  - intros (e & He & [= <-])%on_event_ok. split; [|unfold flight; cbn; by destruct (fst (event_wait e))|apply Hsv; cbn; by destruct (fst (event_wait e))|].
    + apply (phase_loop s); cbn; rewrite ?El; try done. by destruct (fst (event_wait e)).
    + cbn. intros H. destruct (Hd H) as [_ [|[]]]; done.
  - destruct (queueEvent s) as [| |e] eqn:Ee; [by intros [= <-]..|]. destruct (Nat.eqb _ _); [|by intros [= <-]]. intros [= <-].
    split; [apply (phase_loop s); cbn; by rewrite ?El|done|by apply Hsv|]. cbn. intros H. destruct (Hd H) as [? _]. auto.
Qed.
Lemma inv_owner e0 s s' : inv e0 s -> produced s' = produced s -> handled s' = handled s -> dropped s' = dropped s -> queue s' = queue s ->
  env s' = env s -> phase s' ->
  (lpos s' = lpos s /\ (quit s = true -> quit s' = true \/ lpos s = L_none) \/ lpos s = L_none /\ lpos s' = L_test) -> inv e0 s'.
Proof.
  intros [_ Ha (b & Hb & Hb' & Hdq) Hd] E1 E2 E3 E4 E5 Hp Hl. split; [done| | |].
  - unfold flight in *. rewrite E1, E2, E3, E4, Ha. destruct Hl as [[-> _]|[-> ->]]; done.
  - rewrite E2, E5. exists b. split; [done|]. destruct Hl as [[-> Hk]|[El ->]].
    + split; [done|]. intros Hdn. destruct (Hdq Hdn) as [Hqt|]; [|auto]. destruct (Hk Hqt); [auto|congruence].
    + split; [|done]. intros ->. specialize (Hb' eq_refl). congruence.
  - rewrite E3. intros H. destruct (Hd H) as [Hq Hl']. destruct Hl as [[-> Hk]|[El _]]; [|rewrite El in Hl'; naive_solver].
    destruct (Hk Hq) as [|El]; [done|]. rewrite El in Hl'. naive_solver.
Qed.
#[local] Ltac owner_case Hi := intros [= <-]; apply (inv_owner _ _ _ Hi); try reflexivity; unfold phase, live, not_running; cbn.
Lemma owner_inv e0 c s s' : inv e0 s -> owner_step c s = Ok s' -> inv e0 s'.
Proof.
  intros Hi. pose proof (inv_phase e0 s Hi) as Hp. unfold owner_step. unfold phase, live, not_running in Hp.
  destruct (owner s) as [| | | |r| | | | | | |] eqn:Eo.
  - owner_case Hi; naive_solver.
  - owner_case Hi; naive_solver.
  - destruct c; owner_case Hi; naive_solver.
  - owner_case Hi; naive_solver.
  - owner_case Hi; [|naive_solver]. destruct r; [destruct Hp as (? & -> & ? & ?)|destruct Hp as (? & -> & ?)]; auto.
  - destruct (active s) eqn:Ea; owner_case Hi; rewrite ?Ea; naive_solver.
  - destruct (queueEvent s) as [| |e] eqn:Ee; [naive_solver..|]. unfold signal, on_event. rewrite Ee. cbn. owner_case Hi; naive_solver.
  - destruct (lpos s) eqn:El; try (by intros [= <-]). owner_case Hi; naive_solver.
  - owner_case Hi; naive_solver.
  - destruct (queueEvent s) eqn:Ee; owner_case Hi; naive_solver.
  - owner_case Hi; naive_solver.
  - by intros [= <-].
Qed.
Lemma loop_step_inv e0 e s s' : inv e0 s -> step e s = Ok s' -> inv e0 s'.
Proof.
  intros Hi. destruct e as [|i|c|]; cbn [step]; [by apply loop_inv| |by apply owner_inv|by apply alarm_loop_inv].
  destruct (senders s !! i); [by apply loop_send_inv|by intros [= <-]].
Qed.
Lemma loop_fresh_inv todos e0 : inv e0 (fresh todos e0).
Proof. split; [done..|by exists true|done]. Qed.
Lemma loop_run_inv todos e0 es s : run es (fresh todos e0) = Ok s -> inv e0 s.
Proof.
  apply (run_keeps (inv e0) (fun _ => true)); [by intros; eapply loop_step_inv|by induction es|apply loop_fresh_inv].
Qed.

(** ** No event sleeps in the queue *)
Definition signals (p : sender) : bool := match spos p with S_signal => true | _ => false end.
Definition isset (s : loop) : bool := match queueEvent s with Live e => isSet e | _ => false end.
Definition sleeper (s : loop) : nat := match queueEvent s with Live e => blocked e | _ => 0%nat end.
Definition awake (s : loop) : Prop :=
  match lpos s with
  | L_idle | L_wait => isset s = true \/ some_in signals (senders s)
  | L_blocked => sleeper s = 0%nat \/ some_in signals (senders s)
  | _ => True
  end.
(** the second part is what Stop relies on *)
Record wakes (s : loop) : Prop := mkwakes {
  wakes_queue : queue s <> [] -> quit s = false -> awake s;
  wakes_join : owner s = O_join -> match lpos s with L_wait => isset s = true | L_blocked => sleeper s = 0%nat | _ => True end
}.
Lemma wakes_send i p s s' : senders s !! i = Some p -> wakes s -> send_step i p s = Ok s' -> wakes s'.
Proof.
  intros Hp [Hw Hj]. unfold send_step.
  assert (forall q, spos p <> S_signal -> some_in signals (senders s) -> some_in signals (<[i := q]> (senders s))) as Hs.
  { intros q Hn H. apply (some_insert _ _ i p q Hp). right. split; [|done]. unfold signals. by destruct (spos p). }
  assert (forall q s2, spos p <> S_signal -> queue s2 = queue s -> quit s2 = quit s -> owner s2 = owner s -> lpos s2 = lpos s ->
    queueEvent s2 = queueEvent s -> senders s2 = <[i := q]> (senders s) -> wakes s2) as Hk.
  { intros q s2 Hn E1 E2 E3 E4 E5 E6. split; unfold awake, isset, sleeper in *; rewrite ?E1, ?E2, ?E3, ?E4, ?E5, ?E6; [|done].
    intros H1 H2. specialize (Hw H1 H2). specialize (Hs q Hn). destruct (lpos s); naive_solver. }
  destruct (spos p) as [|v|v|] eqn:Esp.
  - destruct (todo p) as [|v vs]; [by intros [= <-]|]. intros [= <-]. destruct (active s); by eapply Hk.
  - intros [= <-]. destruct (quit s) eqn:Eq; by eapply Hk.
  - intros [= <-]. split; [|done]. intros _ _. unfold awake; cbn.
    assert (some_in signals (<[i := mksender (todo p) S_signal]> (senders s))) as H by (apply (some_insert _ _ i p); [done|by left]).
    destruct (lpos s); auto.
  - intros (e & He & [= <-])%on_event_ok. split; unfold awake; cbn; destruct (lpos s); auto.
Qed.
Lemma wakes_loop e0 s s' : inv e0 s -> wakes s -> loop_step s = Ok s' -> wakes s'.
Proof.
  intros Hi Hwk. pose proof Hwk as [Hw Hj]. unfold loop_step. destruct (lpos s) eqn:El; try by intros [= <-].
  - intros [= <-]. split; unfold awake; cbn; by destruct (quit s).
  - destruct (queue s) eqn:Eq; intros [= <-]; split; unfold awake; cbn; rewrite ?Eq; done.
  - intros [= <-]. split; unfold awake; destruct (quit s) eqn:Eq; cbn; rewrite ?Eq; try done.
  - intros ([r e] & Hh & [= <-])%obind_inv. split; unfold awake; cbn; by destruct r.
  - intros [= <-]. unfold awake in Hw. rewrite El in Hw. destruct (quit s) eqn:Eq; split; unfold awake; cbn; try done; [by rewrite Eq|].
    intros Ho. pose proof (inv_phase e0 s Hi) as Hp. unfold phase in Hp. rewrite Ho, Eq in Hp. by destruct Hp.
  - intros (e & He & [= <-])%on_event_ok. unfold awake, isset in *. rewrite El, He in *. unfold event_wait in *.
    destruct (isSet e) eqn:Es; split; unfold awake; cbn; try done.
    + intros H1 H2. right. destruct (Hw H1 H2); done.
    + intros H. by specialize (Hj H).
  - destruct (queueEvent s) as [| |e] eqn:Ee; [by intros [= <-]..|]. destruct (Nat.eqb _ _); intros [= <-]; [|done]. by split.
Qed.
#[local] Ltac wake_case := intros [= <-]; split; [|done]; unfold awake, isset, sleeper in *; cbn.
Lemma wakes_owner e0 c s s' : inv e0 s -> wakes s -> owner_step c s = Ok s' -> wakes s'.
Proof.
  intros Hi Hwk. pose proof Hwk as [Hw Hj]. pose proof (inv_phase e0 s Hi) as Hp. unfold owner_step. unfold phase, live, not_running in Hp.
  destruct (owner s) as [| | | |r| | | | | | |] eqn:Eo.
  - wake_case. destruct Hp as [-> _]. done.
  - wake_case. destruct Hp as [-> _]. done.
  - destruct c; wake_case; [done|exact Hw].
  - wake_case. exact Hw.
  - wake_case. done.
  - destruct (active s); wake_case; exact Hw.
  - destruct (queueEvent s) as [| |e] eqn:Ee; [naive_solver..|]. unfold signal, on_event. rewrite Ee. cbn. intros [= <-].
    split; unfold awake; cbn; destruct (lpos s); by auto.
  - destruct (lpos s) eqn:El; by intros [= <-].
  - wake_case. exact Hw.
  - destruct Hp as [Hq _]. destruct (queueEvent s) eqn:Ee; wake_case; by rewrite Hq.
  - destruct Hp as [Hq _]. wake_case. by rewrite Hq.
  - by intros [= <-].
Qed.
Lemma wakes_alarm s s' : wakes s -> alarm_step s = Ok s' -> wakes s'.
Proof.
  intros Hw. unfold alarm_step. destruct (lpos s) eqn:El; try by intros [= <-]. destruct (queueEvent s) eqn:Ee; try by intros [= <-].
  intros [= <-]. split; unfold awake; cbn; rewrite El; auto.
Qed.
Lemma loop_step_wakes e0 e s s' : inv e0 s -> wakes s -> step e s = Ok s' -> wakes s'.
Proof.
  intros Hi Hw. destruct e as [|i|c|]; cbn [step]; [by eapply wakes_loop| |by eapply wakes_owner|by apply wakes_alarm].
  destruct (senders s !! i) eqn:Ep; [by apply wakes_send|by intros [= <-]].
Qed.
Lemma loop_run_wakes todos e0 es s : run es (fresh todos e0) = Ok s -> inv e0 s /\ wakes s.
Proof.
  apply (run_keeps (fun s => inv e0 s /\ wakes s) (fun _ => true)).
  - intros e s1 s2 _ [Hi Hw] Hs. split; [by eapply loop_step_inv|by eapply loop_step_wakes].
  - by induction es.
  - split; [apply loop_fresh_inv|]. by split.
Qed.

(** ** While nobody stops it *)
Definition hand (p : sender) : list T := match spos p with S_quit v | S_produce v => [v] | _ => [] end.
Definition pending (p : sender) : list T := hand p ++ todo p.
(** started, and what each thread has sent is in the order it sent it *)
Record serving (todos : list (list T)) (s : loop) : Prop := mkserving {
  serving_owner : owner s = O_returned true;
  serving_refused : refused s = [];
  serving_all : concat todos ≡ₚ produced s ++ concat (map pending (senders s));
  serving_order : forall i t, todos !! i = Some t -> exists d p, senders s !! i = Some p /\ t = d ++ pending p /\ d `sublist_of` produced s
}.
Definition own (e : event) : bool := match e with Loop | Send _ => true | _ => false end.
Definition unstopped (e : event) : bool := match e with Owner _ => false | _ => true end.

Lemma concat_pending l i p q : l !! i = Some p -> pending p = pending q ->
  concat (map pending (<[i := q]> l)) = concat (map pending l).
Proof.
  revert i. induction l as [|x l IH]; intros [|i] Hi Hq; [done..| |]; [injection Hi as ->; cbn; by rewrite Hq|].
  change (<[S i := q]> (x :: l)) with (x :: <[i := q]> l). cbn. by rewrite (IH i).
Qed.
Lemma concat_pending_sent l i p q v : l !! i = Some p -> pending p = v :: pending q ->
  concat (map pending l) ≡ₚ v :: concat (map pending (<[i := q]> l)).
Proof.
  revert i. induction l as [|x l IH]; intros [|i] Hi Hq; [done..| |]; [injection Hi as ->; cbn; by rewrite Hq|].
  change (<[S i := q]> (x :: l)) with (x :: <[i := q]> l). cbn. rewrite (IH i) by done. by rewrite <- Permutation_middle.
Qed.
(** a sender moves without sending *)
Lemma serving_keep todos s s' i p q : serving todos s -> senders s !! i = Some p -> pending p = pending q ->
  senders s' = <[i := q]> (senders s) -> owner s' = owner s -> refused s' = refused s -> produced s' = produced s -> serving todos s'.
Proof.
  intros [Ho Hr Ha Hs] Hp Hq E1 E2 E3 E4. split; [by rewrite E2|by rewrite E3| |].
  - by rewrite E4, E1, (concat_pending _ i p).
  - intros j t Hj. destruct (Hs j t Hj) as (d & p' & Hp' & -> & Hd). rewrite E4, E1. destruct (decide (i = j)) as [<-|Hne].
    + exists d, q. rewrite list_lookup_insert_eq by by eapply lookup_lt_Some. rewrite <- Hq. naive_solver.
    + exists d, p'. by rewrite list_lookup_insert_ne.
Qed.
Lemma serving_same todos s s' : serving todos s -> senders s' = senders s -> owner s' = owner s -> refused s' = refused s ->
  produced s' = produced s -> serving todos s'.
Proof. intros [Ho Hr Ha Hs] E1 E2 E3 E4. split; by rewrite ?E1, ?E2, ?E3, ?E4. Qed.
Lemma serving_flags todos e0 s : inv e0 s -> serving todos s -> active s = true /\ quit s = false /\ live s /\ lpos s <> L_none.
Proof. intros Hi Hs. pose proof (inv_phase e0 s Hi) as Hp. unfold phase in Hp. rewrite (serving_owner _ _ Hs) in Hp. tauto. Qed.
Lemma serving_send todos e0 i p s : inv e0 s -> serving todos s -> senders s !! i = Some p ->
  exists s', send_step i p s = Ok s' /\ serving todos s'.
Proof.
  intros Hi Hs Hp. destruct (serving_flags _ _ _ Hi Hs) as (Ha & Hq & Hl & _). unfold send_step. rewrite Ha, Hq.
  destruct p as [td [|v|v|]]; cbn [spos todo].
  - destruct td as [|v vs]; (eexists; split; [reflexivity|]); [done|]. by apply (serving_keep todos s _ i _ (mksender vs (S_quit v)) Hs Hp).
  - eexists; split; [reflexivity|]. by apply (serving_keep todos s _ i _ (mksender td (S_produce v)) Hs Hp).
  - eexists; split; [reflexivity|]. destruct Hs as [Ho Hr Hall Hord]. split; [done..| |]; cbn.
    + rewrite Hall, (concat_pending_sent _ i (mksender td (S_produce v)) (mksender td S_signal) v) by done. by rewrite <- app_assoc.
    + intros j t Hj. destruct (Hord j t Hj) as (d & p' & Hp' & -> & Hd). destruct (decide (i = j)) as [<-|Hne].
      * assert (p' = mksender td (S_produce v)) as -> by congruence. exists (d ++ [v]), (mksender td S_signal).
        rewrite list_lookup_insert_eq by by eapply lookup_lt_Some. split; [done|]. split; [cbn; by rewrite <- app_assoc|]. by apply sublist_app.
      * exists d, p'. rewrite list_lookup_insert_ne by done. split; [done|]. split; [done|]. by apply sublist_inserts_r.
  - unfold signal, on_event. unfold live in Hl. destruct (queueEvent s) as [| |e]; [done..|]. cbn. eexists; split; [reflexivity|].
    by apply (serving_keep todos s _ i _ (mksender td S_idle) Hs Hp).
Qed.
Lemma serving_loop todos s s' : serving todos s -> loop_step s = Ok s' -> serving todos s'.
Proof.
  intros Hs. unfold loop_step. destruct (lpos s); try (intros [= <-]; by apply (serving_same todos s)).
  - destruct (queue s); intros [= <-]; by apply (serving_same todos s).
  - destruct (quit s); intros [= <-]; by apply (serving_same todos s).
  - intros ([r e] & _ & [= <-])%obind_inv. by apply (serving_same todos s).
  - intros (e & _ & [= <-])%on_event_ok. by apply (serving_same todos s).
  - destruct (queueEvent s) as [| |e]; [by intros [= <-]..|]. destruct (Nat.eqb _ _); intros [= <-]; by apply (serving_same todos s).
Qed.
Lemma serving_alarm todos s s' : serving todos s -> alarm_step s = Ok s' -> serving todos s'.
Proof.
  intros Hs. unfold alarm_step. destruct (lpos s); try by intros [= <-]. destruct (queueEvent s); try by intros [= <-].
  intros [= <-]. by apply (serving_same todos s).
Qed.
Definition start_state (todos : list (list T)) (e0 : E) : loop :=
  mkloop [] (Live (mkevent false 0)) true false L_test (map (fun t => mksender t S_idle) todos) (O_returned true) e0 [] [] [] [].
Lemma run_Start todos e0 : run Start (fresh todos e0) = Ok (start_state todos e0).
Proof. done. Qed.
Lemma start_serving todos e0 : inv e0 (start_state todos e0) /\ wakes (start_state todos e0) /\ serving todos (start_state todos e0).
Proof.
  destruct (loop_run_wakes todos e0 Start _ (run_Start todos e0)) as [Hi Hw]. split; [done|]. split; [done|]. split; [done..| |]; cbn.
  - rewrite map_map. cbn. by rewrite map_id.
  - intros i t Hi'. exists [], (mksender t S_idle). rewrite list_lookup_fmap, Hi'. split; [done|]. split; [done|]. apply sublist_nil_l.
Qed.

(** ** Everything sent is handled *)
Definition sweight (p : sender) : nat :=
  (17 * length (todo p) + match spos p with S_idle => 0 | S_quit _ => 16 | S_produce _ => 15 | S_signal => 11 end)%nat.
Definition lweight (s : loop) : nat :=
  match lpos s with
  | L_none | L_done => 0 | L_test | L_handle _ => 5 | L_consume => 4 | L_check _ => 6 | L_idle => 3 | L_wait => 2
  | L_blocked => if Nat.eqb (sleeper s) 0 then 6 else 0
  end.
Definition work (s : loop) : nat :=
  (sum_list_with sweight (senders s) + 3 * length (queue s) + (if isset s then 4 else 0) + lweight s)%nat.
Definition asleep (s : loop) : Prop := lpos s = L_blocked /\ sleeper s <> 0%nat.
Definition ready (todos : list (list T)) (e0 : E) (s : loop) : Prop := inv e0 s /\ wakes s /\ serving todos s.

Lemma ready_step todos e0 e s s' : unstopped e = true -> ready todos e0 s -> step e s = Ok s' -> ready todos e0 s'.
Proof.
  intros He (Hi & Hw & Hs) H. split; [by eapply loop_step_inv|]. split; [by eapply loop_step_wakes|].
  destruct e as [|i|c|]; cbn [step] in H; [by eapply serving_loop| |done|by eapply serving_alarm].
  destruct (senders s !! i) as [p|] eqn:Hp; [|by injection H as <-].
  destruct (serving_send todos e0 i p s Hi Hs Hp) as (s2 & E2 & H2). congruence.
Qed.
Lemma on_event_live {A} (f : signal_event -> A * signal_event) k s : live s ->
  exists e, queueEvent s = Live e /\ on_event f k s = k (fst (f e)) (set_event (Live (snd (f e))) s).
Proof. unfold live, on_event. destruct (queueEvent s) as [| |e]; [done..|]. exists e. split; [done|]. by destruct (f e). Qed.
Lemma send_work todos e0 i p s : ready todos e0 s -> senders s !! i = Some p -> sweight p <> 0%nat ->
  exists s', step (Send i) s = Ok s' /\ (work s' < work s)%nat.
Proof.
  intros (Hi & _ & Hs) Hp Hn. destruct (serving_flags _ _ _ Hi Hs) as (Ha & Hq & Hl & _). cbn [step]. rewrite Hp.
  pose proof (fun q => sum_insert sweight (senders s) i p q Hp) as Hsum.
  unfold send_step. rewrite Ha, Hq. destruct p as [td [|v|v|]]; cbn [spos todo].
  - destruct td as [|v vs]; [done|]. eexists; split; [reflexivity|]. specialize (Hsum (mksender vs (S_quit v))).
    unfold work, lweight, isset, sleeper, sweight in *. cbn in *. lia.
  - eexists; split; [reflexivity|]. specialize (Hsum (mksender td (S_produce v))). unfold work, lweight, isset, sleeper, sweight in *. cbn in *. lia.
  - eexists; split; [reflexivity|]. specialize (Hsum (mksender td S_signal)).
    unfold work, lweight, isset, sleeper, sweight in *. cbn in *. rewrite length_app. cbn. lia.
  - destruct (on_event_live (fun e => (tt, event_signal e)) (fun _ s => Ok (set_sender i (mksender td S_idle) s)) s Hl) as (e & He & E2).
    unfold signal. rewrite E2. eexists; split; [reflexivity|]. specialize (Hsum (mksender td S_idle)).
    unfold work, lweight, isset, sleeper, sweight in *. rewrite He. cbn in *. destruct (lpos s), (isSet e), (Nat.eqb (blocked e) 0); lia.
Qed.

Lemma pending_none l : concat (map pending l) = [] <-> forall i p, l !! i = Some p -> pending p = [].
Proof.
  rewrite <- Forall_lookup. induction l as [|p l IH]; [done|]. cbn. rewrite Forall_cons, <- IH. split; [by intros [-> ->]%app_nil|by intros [-> ->]].
Qed.
Lemma sublist_all (l k : list T) : l `sublist_of` k -> l ≡ₚ k -> l = k.
Proof.
  intros Hs Hp. apply Permutation_length in Hp. induction Hs as [|x l k Hs IH|x l k Hs _]; [done|f_equal; cbn in Hp; auto|].
  apply sublist_length in Hs. cbn in Hp. lia.
Qed.

Section Total.
Hypothesis handler_true : forall v e, exists e', handler v e = Ok (true, e').
Lemma serve_true vs e : exists e', serve vs e = Ok (true, e').
Proof using handler_true.
  revert e. induction vs as [|v vs IH]; intros e; [by exists e|]. cbn. unfold bind. destruct (handler_true v e) as (e' & ->). cbn. apply IH.
Qed.
Lemma never_done e0 s : inv e0 s -> quit s = false -> lpos s <> L_done.
Proof using handler_true.
  intros [_ _ (b & Hb & _ & Hd) _] Hq El. destruct (Hd El) as [Hq2|Hb2]; [congruence|subst b]. destruct (serve_true (handled s) e0) as (e & He). congruence.
Qed.
Lemma loop_work todos e0 s : ready todos e0 s -> asleep s \/ exists s', step Loop s = Ok s' /\ (work s' < work s)%nat.
Proof using handler_true.
  intros (Hi & _ & Hs). destruct (serving_flags _ _ _ Hi Hs) as (_ & Hq & Hl & Hn). pose proof (never_done e0 s Hi Hq) as Hd.
  cbn [step]. unfold loop_step, asleep. destruct (lpos s) eqn:El; try done; rewrite ?Hq.
  - right. eexists; split; [reflexivity|]. unfold work, lweight, isset. rewrite El. cbn. lia.
  - right. destruct (queue s) as [|v q] eqn:Eq; (eexists; split; [reflexivity|]); unfold work, lweight, isset; rewrite El; cbn; rewrite ?Eq; cbn; lia.
  - right. eexists; split; [reflexivity|]. unfold work, lweight, isset. rewrite El. cbn. lia.
  - right. destruct (handler_true v (env s)) as (e & ->). eexists; split; [reflexivity|]. unfold work, lweight, isset. rewrite El. cbn. lia.
  - right. eexists; split; [reflexivity|]. unfold work, lweight, isset. rewrite El. cbn. lia.
  - right. destruct (on_event_live event_wait (fun r s => Ok (set_lpos (match r with Some _ => L_test | None => L_blocked end) s)) s Hl) as (e & He & ->).
    unfold event_wait. destruct (isSet e) eqn:Es; (eexists; split; [reflexivity|]); unfold work, lweight, isset, sleeper; rewrite El, He; cbn; rewrite ?Es; cbn; lia.
  - unfold live in Hl. unfold sleeper. destruct (queueEvent s) as [| |e] eqn:Ee; [done..|]. destruct (Nat.eqb_spec (blocked e) 0) as [E0|E0]; [right|by left].
    eexists; split; [reflexivity|]. unfold work, lweight, isset, sleeper. cbn. rewrite El, Ee, E0. cbn. lia.
Qed.
(** all that was sent is handled, and the loop waits for more *)
Definition settled (s : loop) : Prop := asleep s /\ queue s = [] /\ Forall (fun p => pending p = []) (senders s).
Lemma ready_settles todos e0 s : ready todos e0 s -> exists es s', forallb own es = true /\ run es s = Ok s' /\ ready todos e0 s' /\ settled s'.
Proof using handler_true.
  remember (work s) as n eqn:En. revert s En. induction n as [n IH] using lt_wf_ind. intros s -> Hr.
  assert (forall e s1, own e = true -> step e s = Ok s1 -> (work s1 < work s)%nat ->
    exists es s', forallb own es = true /\ run es s = Ok s' /\ ready todos e0 s' /\ settled s') as Hgo.
  { intros e s1 Ho H1 Hlt. destruct (IH _ Hlt s1 eq_refl) as (es & s' & Hes & Hrun & H').
    - eapply ready_step; [|done..]. by destruct e.
    - exists (e :: es), s'. cbn. rewrite Ho, H1. done. }
  destruct (loop_work todos e0 s Hr) as [Ha|(s1 & H1 & Hlt)]; [|by apply (Hgo Loop s1)].
  destruct (decide (sum_list_with sweight (senders s) = 0%nat)) as [E0|Hne].
  - exists [], s. split; [done|]. split; [done|]. split; [done|]. split; [done|].
    assert (Forall (fun p => sweight p = 0%nat) (senders s)) as Hz by (apply Forall_forall; intros p; by apply sum_zero).
    split.
    + destruct Hr as (Hi & Hw & Hs). destruct (serving_flags _ _ _ Hi Hs) as (_ & Hq & _). destruct (queue s) eqn:Eq; [done|].
      destruct Ha as [El Hsl]. assert (awake s) as Hk by (apply wakes_queue; [done|by rewrite Eq|done]). unfold awake in Hk. rewrite El in Hk.
      destruct Hk as [|(i & p & Hp & Hsp)]; [done|]. rewrite Forall_lookup in Hz. specialize (Hz i p Hp). unfold signals, sweight in *. by destruct (spos p); lia.
    + eapply Forall_impl; [exact Hz|]. intros [[|v td] pc]; unfold sweight, pending, hand; destruct pc; cbn; done || lia.
  - destruct (sum_pos sweight (senders s)) as (i & p & Hp & Hw); [lia|].
    destruct (send_work todos e0 i p s Hr Hp ltac:(lia)) as (s1 & H1 & Hlt). by apply (Hgo (Send i) s1).
Qed.
Lemma settled_produced todos e0 s : ready todos e0 s -> settled s -> produced s = handled s.
Proof using.
  intros (Hi & _ & Hs) (Ha & Hq & _). destruct (serving_flags _ _ _ Hi Hs) as (_ & Hqt & _).
  rewrite (inv_account _ _ Hi). unfold flight. destruct Ha as [-> _]. rewrite Hq. destruct (dropped s) eqn:Ed; [by rewrite app_nil_r|].
  destruct (inv_drop _ _ Hi) as [Hqt' _]; [by rewrite Ed|congruence].
Qed.
Lemma ready_run todos e0 es : forall s, forallb unstopped es = true -> ready todos e0 s -> exists s', run es s = Ok s' /\ ready todos e0 s'.
Proof using handler_true.
  induction es as [|e es IH]; intros s Hes Hr; [by exists s|]. cbn in *. apply andb_prop in Hes as [He Hes].
  assert (exists s1, step e s = Ok s1) as [s1 H1].
  { destruct Hr as (Hi & Hw & Hs). destruct e as [|i|c|]; cbn [step]; [|destruct (senders s !! i) as [p|] eqn:Hp; [|by exists s]|done|].
    - destruct (loop_work todos e0 s) as [[El Hsl]|(s' & H' & _)]; [done| |by exists s']. unfold loop_step. rewrite El.
      destruct (queueEvent s); eauto.
    - destruct (serving_send todos e0 i p s Hi Hs Hp) as (s' & H' & _). by exists s'.
    - unfold alarm_step. destruct (lpos s), (queueEvent s); eauto. }
  rewrite H1. cbn. apply IH; [done|]. by eapply ready_step.
Qed.
End Total.

(** ** Stop *)
Definition stopping (s : loop) : bool :=
  match owner s with O_quit | O_signal | O_join | O_inactive | O_delete | O_null | O_stopped => true | _ => false end.
Definition orank (s : loop) : nat :=
  match owner s with O_quit => 6 | O_signal => 5 | O_join => 4 | O_inactive => 3 | O_delete => 2 | O_null => 1 | _ => 0 end.
Definition lrank (s : loop) : nat :=
  match lpos s with L_handle _ => 6 | L_consume => 5 | L_check _ => 4 | L_idle | L_wait | L_blocked => 3 | L_test => 2 | L_none | L_done => 0 end.
Definition towards_stop (e : event) : bool := match e with Loop | Owner _ => true | _ => false end.
Hypothesis handler_returns : forall v e, exists r e', handler v e = Ok (r, e').
Lemma join_step e0 s : inv e0 s -> wakes s -> owner s = O_join -> lpos s <> L_done ->
  exists s', loop_step s = Ok s' /\ stopping s' = true /\ (10 * orank s' + lrank s' < 10 * orank s + lrank s)%nat.
Proof using handler_returns.
  intros Hi Hw Ho Hd. pose proof (inv_phase e0 s Hi) as Hp. unfold phase in Hp. rewrite Ho in Hp. destruct Hp as (Hq & Hl & _ & Hn).
  pose proof (wakes_join s Hw Ho) as Hj. unfold loop_step, stopping, orank, lrank. rewrite Ho, Hq.
  destruct (lpos s) as [| | |v|v| | | |] eqn:El; try done.
  - eexists; split; [reflexivity|]. cbn. rewrite Ho. split; [done|lia].
  - destruct (queue s) as [|v q]; (eexists; split; [reflexivity|]); cbn; rewrite Ho; (split; [done|lia]).
  - eexists; split; [reflexivity|]. cbn. rewrite Ho. split; [done|lia].
  - destruct (handler_returns v (env s)) as (r & e & ->). eexists; split; [reflexivity|]. cbn. rewrite Ho. split; [done|destruct r; lia].
  - eexists; split; [reflexivity|]. cbn. rewrite Ho. split; [done|lia].
  - destruct (on_event_live event_wait (fun r s => Ok (set_lpos (match r with Some _ => L_test | None => L_blocked end) s)) s Hl) as (e & He & ->).
    unfold isset in Hj. rewrite He in Hj. unfold event_wait. rewrite Hj. eexists; split; [reflexivity|]. cbn. rewrite Ho. split; [done|lia].
  - unfold live in Hl. unfold sleeper in Hj. destruct (queueEvent s) as [| |e]; [done..|]. rewrite Hj. cbn.
    eexists; split; [reflexivity|]. cbn. rewrite Ho. split; [done|lia].
Qed.
Lemma stop_step e0 s : inv e0 s -> stopping s = true -> owner s <> O_stopped -> (owner s = O_join -> lpos s = L_done) ->
  exists s', owner_step true s = Ok s' /\ stopping s' = true /\ (10 * orank s' + lrank s' < 10 * orank s + lrank s)%nat.
Proof using.
  intros Hi Hs Hn Hj. pose proof (inv_phase e0 s Hi) as Hp. unfold phase, live, not_running in Hp.
  unfold owner_step, stopping, orank in *. destruct (owner s) eqn:Ho; try done.
  - eexists; split; [reflexivity|]. unfold lrank. cbn. destruct (active s); (split; [done|cbn; lia]).
  - destruct (queueEvent s) as [| |e] eqn:Ee; [naive_solver..|]. unfold signal, on_event. rewrite Ee. cbn.
    eexists; split; [reflexivity|]. unfold lrank. cbn. split; [done|lia].
  - rewrite Hj by done. eexists; split; [reflexivity|]. unfold lrank. cbn. split; [done|lia].
  - eexists; split; [reflexivity|]. unfold lrank. cbn. split; [done|lia].
  - eexists; split; [reflexivity|]. unfold lrank. destruct (queueEvent s); cbn; (split; [done|lia]).
  - eexists; split; [reflexivity|]. unfold lrank. cbn. split; [done|lia].
Qed.
Lemma stopping_moves e0 s : inv e0 s -> wakes s -> stopping s = true -> owner s = O_stopped \/
  exists e s', towards_stop e = true /\ step e s = Ok s' /\ stopping s' = true /\ (10 * orank s' + lrank s' < 10 * orank s + lrank s)%nat.
Proof using handler_returns.
  intros Hi Hw Hs. assert (owner s = O_stopped \/ owner s <> O_stopped) as [|Hn] by (destruct (owner s); auto; by right); [by left|right].
  assert ((owner s = O_join /\ lpos s <> L_done) \/ (owner s = O_join -> lpos s = L_done)) as [[Ho El]|Hj]
    by (destruct (lpos s); try (by right); destruct (owner s); try (by right); by left).
  - destruct (join_step e0 s Hi Hw Ho El) as (s' & H' & ? & ?). by exists Loop, s'.
  - destruct (stop_step e0 s Hi Hs Hn Hj) as (s' & H' & ? & ?). by exists (Owner true), s'.
Qed.
Lemma stops e0 s : inv e0 s -> wakes s -> stopping s = true ->
  exists es s', forallb towards_stop es = true /\ run es s = Ok s' /\ owner s' = O_stopped /\ not_running s'.
Proof using handler_returns.
  remember (10 * orank s + lrank s)%nat as n eqn:En. revert s En. induction n as [n IH] using lt_wf_ind. intros s -> Hi Hw Hs.
  destruct (stopping_moves e0 s Hi Hw Hs) as [Ho|(e & s1 & He & H1 & Hs1 & Hlt)].
  - exists [], s. pose proof (inv_phase e0 s Hi) as Hp. unfold phase in Hp. rewrite Ho in Hp. by destruct Hp.
  - destruct (IH _ Hlt s1 eq_refl) as (es & s' & Hes & Hrun & H'); [by eapply loop_step_inv|by eapply loop_step_wakes|done|].
    exists (e :: es), s'. cbn. by rewrite He, H1.
Qed.

(** ** After the handler has failed *)
Lemma done_step e0 e s s' : inv e0 s -> lpos s = L_done -> step e s = Ok s' -> lpos s' = L_done /\ handled s' = handled s /\ env s' = env s.
Proof using.
  intros Hi El. pose proof (inv_phase e0 s Hi) as Hp. destruct e as [|i|c|]; cbn [step].
  - unfold loop_step. rewrite El. by intros [= <-].
  - destruct (senders s !! i) as [p|]; [|by intros [= <-]]. unfold send_step. destruct (spos p).
    + destruct (todo p); [by intros [= <-]|]. destruct (active s); by intros [= <-].
    + destruct (quit s); by intros [= <-].
    + by intros [= <-].
    + by intros (e & _ & [= <-])%on_event_ok.
  - unfold owner_step. unfold phase in Hp. destruct (owner s) eqn:Ho; try (by intros [= <-]).
    + rewrite El in Hp. naive_solver.
    + destruct (queueEvent s) as [| |e] eqn:Ee; [by intros [= <-]| |]; intros (e' & _ & [= <-])%on_event_ok; done.
    + rewrite El. by intros [= <-].
    + destruct (queueEvent s); by intros [= <-].
  - unfold alarm_step. rewrite El. by intros [= <-].
Qed.
Lemma done_run e0 es : forall s s', inv e0 s -> lpos s = L_done -> run es s = Ok s' -> handled s' = handled s /\ env s' = env s.
Proof using.
  induction es as [|e es IH]; intros s s' Hi El; cbn; [by intros [= <-]|]. intros (s1 & H1 & H2)%obind_inv.
  destruct (done_step e0 e s s1 Hi El H1) as (El1 & <- & <-). eapply IH; [|done..]. by eapply loop_step_inv.
Qed.
End EventLoop.

(** ** Theorems *)
(** [C26] Every event is handled: whatever a thread sends to a loop that was started, and
    however its steps and the loop's are interleaved, no step goes wrong, and from
    wherever the run stands their own steps lead on to where each event has been handled
    once, in the order it was sent, one after the other, and the loop sleeps.  Handlers
    return true. *)
Theorem loop_handles_all {T E : Type} (handler : T -> M E bool) (todo : list T) (e0 : E) (es : list event) :
  (forall v e, exists e', handler v e = Ok (true, e')) -> forallb unstopped es = true ->
  exists s es' s', run handler (Start ++ es) (fresh [todo] e0) = Ok s /\ forallb own es' = true /\ run handler es' s = Ok s' /\
    handled s' = todo /\ serve handler todo e0 = Ok (true, env s') /\ asleep s'.
Proof.
  intros Hh Hes. destruct (ready_run handler Hh [todo] e0 es (start_state [todo] e0) Hes (start_serving handler [todo] e0)) as (s & Hrun & Hr).
  destruct (ready_settles handler Hh [todo] e0 s Hr) as (es' & s' & Ho & Hrun' & Hr' & Ha & Hq & Hp).
  exists s, es', s'. rewrite loop_run_app, run_Start. split; [done|]. split; [done|]. split; [done|].
  pose proof (settled_produced handler _ _ _ Hr' (conj Ha (conj Hq Hp))) as Epr. destruct Hr' as (Hi & _ & Hs).
  assert (handled s' = todo) as Et.
  { destruct (serving_order _ _ Hs 0 todo eq_refl) as (d & p & Hl & Ed & Hd). rewrite Forall_lookup in Hp.
    rewrite (Hp 0 p Hl), app_nil_r in Ed. subst d. pose proof (serving_all _ _ Hs) as Hall. cbn in Hall.
    rewrite (proj2 (pending_none _) Hp), !app_nil_r, Epr in Hall. rewrite Epr in Hd. symmetry. by apply sublist_all. }
  split; [done|]. split; [|done]. destruct (inv_serve _ _ _ Hi) as (b & Hb & _). rewrite Et in Hb.
  destruct (serve_true handler Hh todo e0) as (e & He). congruence.
Qed.
(** a handler that keeps what it is given *)
Definition keep (v : nat) : M (list nat) bool := fun e => Ok (true, e ++ [v]).
Definition loop_events : list event := [Send 0; Loop; Send 0; Loop; Loop; Loop; Send 0; Send 0; Loop; Alarm; Loop].
Lemma loop_handles_all_witness : exists s es' s', run keep (Start ++ loop_events) (fresh [[1; 2; 3]] []) = Ok s /\ forallb own es' = true /\
  run keep es' s = Ok s' /\ handled s' = [1; 2; 3] /\ serve keep [1; 2; 3] [] = Ok (true, env s') /\ asleep s'.
Proof. apply (loop_handles_all keep [1; 2; 3] [] loop_events); [intros v e; by exists (e ++ [v])|reflexivity]. Defined.

(** [C24] Whatever the interleaving, with Start and Stop among the steps, what the loop
    has done is what handling the events one after the other does, in the order they
    were queued: none is lost but the one that is taken when the loop is told to quit.
    Once a handler has returned false nothing is ever handled again. *)
Theorem loop_serves_in_order {T E : Type} (handler : T -> M E bool) (todos : list (list T)) (e0 : E) (es : list event) (s : loop) :
  run handler es (fresh todos e0) = Ok s ->
  exists b, serve handler (handled s) e0 = Ok (b, env s) /\ produced s = handled s ++ flight s ++ dropped s ++ queue s /\
    (dropped s <> [] -> quit s = true) /\
    (b = false -> forall es' s', run handler es' s = Ok s' -> handled s' = handled s /\ env s' = env s).
Proof.
  intros Hrun. pose proof (loop_run_inv handler todos e0 es s Hrun) as Hi. destruct (inv_serve _ _ _ Hi) as (b & Hb & Hd & _).
  exists b. split; [done|]. split; [by apply (inv_account handler e0)|]. split; [intros H; by apply (inv_drop _ _ _ Hi) in H as [H _]|].
  intros -> es' s'. by apply done_run with (e0 := e0); [|apply Hd].
Qed.
(** a handler that fails on 0 *)
Definition positive (v : nat) : M (list nat) bool := fun e => Ok (negb (Nat.eqb v 0), e ++ [v]).
Definition failing_run : list event :=
  Start ++ [Send 0; Send 0; Send 0; Send 0] ++ [Send 0; Send 0; Send 0; Send 0] ++ [Send 0; Send 0; Send 0; Send 0] ++ replicate 9 Loop.
Definition failed_state : loop (T := nat) (E := list nat) :=
  mkloop [3] (Live (mkevent true 0)) true false L_done [mksender [] S_idle] (O_returned true) [1; 0] [1; 0] [] [1; 0; 3] [].
Lemma loop_serves_in_order_witness : exists b, serve positive [1; 0] [] = Ok (b, [1; 0]) /\ [1; 0; 3] = [1; 0] ++ [] ++ [] ++ [3] /\
  (([] : list nat) <> [] -> false = true) /\
  (b = false -> forall es' s', run positive es' failed_state = Ok s' -> handled s' = [1; 0] /\ env s' = [1; 0]).
Proof. apply (loop_serves_in_order positive [[1; 0; 3]] [] failing_run failed_state). vm_compute. reflexivity. Defined.

(** Stop returns, as long as handlers do: from wherever it has come to, the steps of the
    loop and its own lead to its end, and the loop's thread has ended. *)
Theorem stop_returns {T E : Type} (handler : T -> M E bool) (todos : list (list T)) (e0 : E) (es : list event) (s : loop) :
  (forall v e, exists r e', handler v e = Ok (r, e')) -> run handler es (fresh todos e0) = Ok s -> stopping s = true ->
  exists es' s', forallb towards_stop es' = true /\ run handler es' s = Ok s' /\ owner s' = O_stopped /\ not_running s'.
Proof.
  intros Hh Hrun Hs. destruct (loop_run_wakes handler todos e0 es s Hrun) as [Hi Hw]. by apply (stops handler Hh e0).
Qed.
(** Stop while the loop sleeps *)
Definition stop_run : list event := Start ++ replicate 4 Loop ++ [Owner true].
Definition stop_state : loop (T := nat) (E := list nat) :=
  mkloop [] (Live (mkevent false 1)) true true L_blocked [] O_quit [] [] [] [] [].
Lemma stop_returns_witness : exists es' s', forallb towards_stop es' = true /\ run keep es' stop_state = Ok s' /\
  owner s' = O_stopped /\ not_running s'.
Proof.
  apply (stop_returns keep [] [] stop_run stop_state); [intros v e; by exists true, (e ++ [v])|vm_compute; reflexivity|reflexivity].
Defined.

(** a thread that is in SendEvent while Stop goes on signals a deleted Event *)
Lemma send_after_stop : run keep (Start ++ [Send 0; Send 0; Send 0] ++ replicate 3 (Owner true) ++ [Loop] ++ replicate 3 (Owner true) ++ [Send 0])
  (fresh [[1]] []) = Fault UseAfterFree.
Proof. vm_compute. reflexivity. Qed.
