(* ===== verification/Streams.v ===== *)
(** * Byte streams (src/src/bdfsclient-lib)

    [IInputStream]/[IOutputStream] are abstract classes whose typed readers and
    writers are built on a few virtual methods: here two type classes and
    definitions generic over them.  [BufferedInputStream] and
    [BufferedOutputStream] are the instances the program uses.  Integers cross
    the stream big-endian; the host is little-endian (the
    [1 != (unsigned char&)signature] test of IOutputStream.cpp is true and
    [htobe16/32/64], [be16/32/64toh] swap bytes). *)

From S2P Require Import Prelude.
From Stdlib Require Import ZArith Lia Bool Ascii String.
From stdpp Require Import base list gmap strings.
Set Default Goal Selector "!".
Local Open Scope Z_scope.
Local Open Scope drive_scope.

(** ** EndianUtil.h: [htobe*] and [be*toh] on an [8*n]-bit integer *)
Definition bswap (n : nat) (v : Z) : Z := le_combine (rev (le_split n v)).
Definition be_bytes (n : nat) (v : Z) : list Z := rev (le_split n v).
Definition be_value (l : list Z) : Z := le_combine (rev l).
(** an array of [8*n]-bit integers in memory, and back *)
Definition mem_of (n : nat) (ary : list Z) : list Z := concat (map (le_split n) ary).
Fixpoint ary_of (n len : nat) (mem : list Z) : list Z :=
  match len with
  | O => []
  | S len' => le_combine (take n mem) :: ary_of n len' (drop n mem)
  end.
(** [str.resize(n)] on a byte string *)
Definition resize (l : list Z) (n : nat) : list Z :=
  take n l ++ replicate (n - length l) 0.

(** ** The abstract streams *)
Class OutputStream (S : Type) := {
  Write : list Z -> S -> Z * S
}.
Class InputStream (S : Type) := {
  Read : Z -> S -> list Z * S;
  Peek : Z -> S -> list Z;
  Remainder : S -> Z;
  IsValid : S -> bool
}.

(** ** IOutputStream.cpp *)
Section IOutputStream.
Context {S : Type} `{OutputStream S}.

(** [size_t] returned as [bool] *)
Definition write_bool (data : list Z) (s : S) : bool * S :=
  let '(n, s') := Write data s in (negb (n =? 0), s').

Definition WriteInt8 (value : Z) (s : S) : bool * S := write_bool (le_split 1 value) s.
Definition WriteInt8_array (ary : list Z) (length : Z) (s : S) : bool * S :=
  write_bool (take (Z.to_nat length) (mem_of 1 ary)) s.
Definition WriteUInt8 (value : Z) (s : S) : bool * S := write_bool (le_split 1 value) s.
Definition WriteUInt8_array (ary : list Z) (length : Z) (s : S) : bool * S :=
  write_bool (take (Z.to_nat length) (mem_of 1 ary)) s.
Definition WriteInt16 (value : Z) (s : S) : bool * S :=
  write_bool (le_split 2 (bswap 2 value)) s.
Definition WriteUInt16 (value : Z) (s : S) : bool * S :=
  write_bool (le_split 2 (bswap 2 value)) s.
Definition WriteInt32 (value : Z) (s : S) : bool * S :=
  write_bool (le_split 4 (bswap 4 value)) s.
Definition WriteUInt32 (value : Z) (s : S) : bool * S :=
  write_bool (le_split 4 (bswap 4 value)) s.
Definition WriteInt64 (value : Z) (s : S) : bool * S :=
  write_bool (le_split 8 (bswap 8 value)) s.
Definition WriteUInt64 (value : Z) (s : S) : bool * S :=
  write_bool (le_split 8 (bswap 8 value)) s.

(** The array writers cast away [const], swap the first [length] elements in
    place, write the memory, and swap back; the caller's array is part of the
    result. *)
Definition swap_prefix (n : nat) (length : Z) (ary : list Z) : list Z :=
  map (bswap n) (take (Z.to_nat length) ary) ++ drop (Z.to_nat length) ary.
Definition write_array (n : nat) (ary : list Z) (length : Z) (s : S)
  : bool * list Z * S :=
  let ary1 := swap_prefix n length ary in
  let '(r, s') := write_bool (take (n * Z.to_nat length) (mem_of n ary1)) s in
  let ary2 := swap_prefix n length ary1 in
  (r, ary2, s').
Definition WriteInt16_array := write_array 2.
Definition WriteUInt16_array := write_array 2.
Definition WriteInt32_array := write_array 4.
Definition WriteUInt32_array := write_array 4.
Definition WriteInt64_array := write_array 8.
Definition WriteUInt64_array := write_array 8.

(** the length is passed to [WriteUInt32(uint32_t)]: truncated to 32 bits *)
Definition WriteString (str : string) (s : S) : bool * S :=
  let '(ok, s1) := WriteUInt32 (u32 (str_size str)) s in
  if negb ok then (false, s1)
  else if 0 <? str_size str
  then WriteInt8_array (bytes_of_string str) (str_size str) s1
  else (true, s1).
End IOutputStream.

(** ** IInputStream.cpp *)
Section IInputStream.
Context {S : Type} `{InputStream S}.

(** a scalar read: the value when all [n] bytes were read, else 0 *)
Definition read_scalar (n : nat) (conv : Z -> Z) (s : S) : Z * S :=
  let '(bs, s') := Read (Z.of_nat n) s in
  (if zlen bs =? Z.of_nat n then conv (le_combine bs) else 0, s').

Definition ReadInt8 (s : S) : Z * S := read_scalar 1 (to_signed 1) s.
Definition ReadUInt8 (s : S) : Z * S := read_scalar 1 (fun v => u8 (to_signed 1 v)) s.
Definition ReadInt16 (s : S) : Z * S := read_scalar 2 (fun v => to_signed 2 (bswap 2 v)) s.
Definition ReadUInt16 (s : S) : Z * S := read_scalar 2 (bswap 2) s.
Definition ReadInt32 (s : S) : Z * S := read_scalar 4 (fun v => to_signed 4 (bswap 4 v)) s.
Definition ReadUInt32 (s : S) : Z * S := read_scalar 4 (bswap 4) s.
Definition ReadInt64 (s : S) : Z * S := read_scalar 8 (fun v => to_signed 8 (bswap 8 v)) s.
Definition ReadUInt64 (s : S) : Z * S := read_scalar 8 (bswap 8) s.
Definition PeekUInt16 (s : S) : Z :=
  let bs := Peek 2 s in
  if zlen bs =? 2 then bswap 2 (le_combine bs) else 0.

Definition ReadInt8_array (ary : list Z) (length : Z) (s : S) : Z * list Z * S :=
  let '(bs, s') := Read length s in
  (zlen bs, map (to_signed 1) (ary_of 1 (List.length ary) (write_at (mem_of 1 ary) 0 bs)), s').
Definition ReadUInt8_array (ary : list Z) (length : Z) (s : S) : Z * list Z * S :=
  let '(bs, s') := Read length s in
  (zlen bs, ary_of 1 (List.length ary) (write_at (mem_of 1 ary) 0 bs), s').

(** [read = Read(ary, length * sizeof) / sizeof]; the elements are swapped only
    when every requested element was read *)
Definition read_array (n : nat) (conv : Z -> Z) (ary : list Z) (length : Z) (s : S)
  : Z * list Z * S :=
  let '(bs, s') := Read (u64 (length * Z.of_nat n)) s in
  let read := zlen bs / Z.of_nat n in
  let ary1 := ary_of n (List.length ary) (write_at (mem_of n ary) 0 bs) in
  let ary2 :=
    if read =? length
    then map (bswap n) (take (Z.to_nat read) ary1) ++ drop (Z.to_nat read) ary1
    else ary1 in
  (read, map conv ary2, s').
Definition ReadInt16_array := read_array 2 (to_signed 2).
Definition ReadUInt16_array := read_array 2 u16.
Definition ReadInt32_array := read_array 4 (to_signed 4).
Definition ReadUInt32_array := read_array 4 u32.
Definition ReadInt64_array := read_array 8 (to_signed 8).
Definition ReadUInt64_array := read_array 8 u64.

(** [str] is an in/out parameter: it keeps its old value when the length is 0 or
    the stream is no longer valid, and its tail when the read is short *)
Definition ReadString (str : string) (s : S) : Z * string * S :=
  let '(strLength, s1) := ReadUInt32 s in
  if IsValid s1 && (0 <? strLength) then
    let buf := resize (bytes_of_string str) (Z.to_nat strLength) in
    let '(bs, s2) := Read strLength s1 in
    (4 + zlen bs, string_of_bytes (write_at buf 0 bs), s2)
  else (4, str, s1).
End IInputStream.

(** ** BufferedOutputStream.cpp *)
Module BufferedOutputStream.
(** [buffer] is the allocation, [length] its capacity; what [realloc] leaves
    beyond the old contents is indeterminate, modelled as zeros *)
Record t := mk { buffer : list Z; length : Z; offset : Z }.

Definition init : t := mk [] 0 0.

Definition EnsureBuffer (n : Z) (s : t) : t :=
  if length s <? u64 (offset s + n) then
    let len := Z.land (u64 (u64 (length s + n) + 64)) (u64 (Z.lnot 63)) in
    mk (resize (buffer s) (Z.to_nat len)) len (offset s)
  else s.

Definition Write (ary : list Z) (s : t) : Z * t :=
  let s1 := EnsureBuffer (zlen ary) s in
  (zlen ary,
   mk (write_at (buffer s1) (Z.to_nat (offset s1)) ary)
      (length s1) (u64 (offset s1 + zlen ary))).

Definition Reset (s : t) : bool * t := (true, mk (buffer s) (length s) 0).

(** what the users of a stream take: [Buffer()] up to [Offset()] *)
Definition bytes (s : t) : list Z := take (Z.to_nat (offset s)) (buffer s).

(** the allocation has [length] bytes, the cursor is inside it, and the
    capacity stays within a constant factor of the contents *)
Definition ok (s : t) : Prop :=
  zlen (buffer s) = length s /\ 0 <= offset s <= length s /\
  length s <= 2 * offset s + 64.
(** no 64-bit size computation of [Write] wraps below this *)
Definition limit : Z := 2 ^ 61.
End BufferedOutputStream.
#[export] Instance BufferedOutputStream_OutputStream
  : OutputStream BufferedOutputStream.t :=
  { Write := BufferedOutputStream.Write }.

(** ** BufferedInputStream.cpp *)
Module BufferedInputStream.
Record t := mk {
  buffer : list Z; length : Z; offset : Z; needFree : bool; isValid : bool }.

Definition init : t := mk [] 0 0 false true.
Definition make (buf : list Z) (len : Z) : t := mk buf len 0 false true.
Definition Initialize (buf : list Z) (len : Z) (s : t) : bool * t :=
  (true, mk buf len 0 false true).

Definition Remainder (s : t) : Z := u64 (length s - offset s).
Definition Rewind (n : Z) (s : t) : t :=
  mk (buffer s) (length s) (u64 (offset s - n)) (needFree s) (isValid s).
Definition Skip (n : Z) (s : t) : t :=
  mk (buffer s) (length s) (u64 (offset s + n)) (needFree s) (isValid s).

Definition Read (n : Z) (s : t) : list Z * t :=
  let remainder := u64 (length s - offset s) in
  let short := remainder <? n in
  let n' := if short then remainder else n in
  (read_at (buffer s) (Z.to_nat (offset s)) (Z.to_nat n'),
   mk (buffer s) (length s) (u64 (offset s + n')) (needFree s)
      (if short then false else isValid s)).

Definition Peek (n : Z) (s : t) : list Z :=
  let remainder := u64 (length s - offset s) in
  let n' := if remainder <? n then remainder else n in
  read_at (buffer s) (Z.to_nat (offset s)) (Z.to_nat n').

Definition ok (s : t) : Prop :=
  length s = zlen (buffer s) /\ 0 <= offset s <= length s /\ length s < 2 ^ 64.
(** the unread bytes *)
Definition rest (s : t) : list Z := drop (Z.to_nat (offset s)) (buffer s).
(** the stream after [n] bytes were consumed *)
Definition advance (n : Z) (s : t) : t :=
  mk (buffer s) (length s) (offset s + n) (needFree s) (isValid s).
End BufferedInputStream.
#[export] Instance BufferedInputStream_InputStream
  : InputStream BufferedInputStream.t :=
  { Read := BufferedInputStream.Read; Peek := BufferedInputStream.Peek;
    Remainder := BufferedInputStream.Remainder;
    IsValid := BufferedInputStream.isValid }.

Abbreviation ostream := BufferedOutputStream.t.
Abbreviation istream := BufferedInputStream.t.

(** ** Byte order *)
Lemma length_be_bytes n v : length (be_bytes n v) = n.
Proof. unfold be_bytes. by rewrite length_rev, length_le_split. Qed.
Lemma zlen_be_bytes n v : zlen (be_bytes n v) = Z.of_nat n.
Proof. unfold zlen. by rewrite length_be_bytes. Qed.
Lemma zlen_le_split n v : zlen (le_split n v) = Z.of_nat n.
Proof. unfold zlen. by rewrite length_le_split. Qed.
#[export] Hint Rewrite length_be_bytes zlen_be_bytes zlen_le_split : drive_len.

Lemma le_split_bswap n v : le_split n (bswap n v) = be_bytes n v.
Proof.
  unfold bswap, be_bytes.
  rewrite <- (le_split_combine (rev (le_split n v))) at 2.
  - by rewrite length_rev, length_le_split.
  - apply Forall_rev, le_split_bytes.
Qed.

Lemma bswap_le_combine n l :
  length l = n -> Forall is_byte l -> bswap n (le_combine l) = be_value l.
Proof.
  intros <- Hl. unfold bswap, be_value. by rewrite le_split_combine.
Qed.

Lemma be_value_bytes n v : be_value (be_bytes n v) = v mod 2 ^ (8 * Z.of_nat n).
Proof. unfold be_value, be_bytes. by rewrite rev_involutive, le_combine_split. Qed.

Lemma be_bytes_bytes n v : Forall is_byte (be_bytes n v).
Proof. apply Forall_rev, le_split_bytes. Qed.

Lemma bswap_involutive n v :
  0 <= v < 2 ^ (8 * Z.of_nat n) -> bswap n (bswap n v) = v.
Proof.
  intros Hv. unfold bswap at 1. rewrite le_split_bswap. unfold be_bytes.
  rewrite rev_involutive, le_combine_split. by apply Z.mod_small.
Qed.

(** ** The output buffer *)
Module OStreamFacts.
Import BufferedOutputStream.

Lemma init_ok : ok init.
Proof. unfold ok, init, zlen; cbn. lia. Qed.

Lemma bytes_init : bytes init = [].
Proof. done. Qed.

Lemma length_bytes s : ok s -> zlen (bytes s) = offset s.
Proof.
  unfold ok, bytes, zlen. intros (H1 & H2 & _). rewrite length_take. lia.
Qed.

Lemma align64 x : 0 <= x < 2 ^ 64 ->
  Z.land x (u64 (Z.lnot 63)) = 64 * (x / 64).
Proof.
  intros Hx. change (u64 (Z.lnot 63)) with (Z.ldiff (Z.ones 64) 63).
  replace (Z.land x (Z.ldiff (Z.ones 64) 63)) with (Z.ldiff (Z.land x (Z.ones 64)) 63)
    by (apply Z.bits_inj'; intros n _; rewrite Z.ldiff_spec, !Z.land_spec, Z.ldiff_spec;
        by rewrite andb_assoc).
  rewrite Z.land_ones, Z.mod_small by lia.
  change 63 with (Z.ones 6). rewrite Z.ldiff_ones_r by lia.
  rewrite Z.shiftr_div_pow2, Z.shiftl_mul_pow2 by lia.
  change (2 ^ 6) with 64. lia.
Qed.

Lemma EnsureBuffer_spec n s :
  ok s -> 0 <= n -> offset s + n < limit ->
  zlen (buffer (EnsureBuffer n s)) = length (EnsureBuffer n s) /\
  offset (EnsureBuffer n s) = offset s /\
  offset s + n <= length (EnsureBuffer n s) <= 2 * (offset s + n) + 64 /\
  bytes (EnsureBuffer n s) = bytes s.
Proof.
  intros (Hb & Ho & Hl) Hn Hlim. unfold EnsureBuffer, limit in *.
  rewrite (u64_small (offset s + n)) by (unfold in_u64; lia).
  destruct (Z.ltb_spec (length s) (offset s + n)) as [Hlt|Hge].
  2:{ unfold ok. split_and_all; auto; lia. }
  rewrite (u64_small (length s + n)), u64_small by (unfold in_u64; lia).
  rewrite align64 by lia.
  set (L := 64 * ((length s + n + 64) / 64)).
  assert (HL : length s + n < L <= length s + n + 64).
  { unfold L. pose proof (Z.mul_div_le (length s + n + 64) 64).
    pose proof (Z.mul_succ_div_gt (length s + n + 64) 64). lia. }
  clearbody L. unfold zlen in Hb. unfold ok, bytes, resize, zlen; cbn.
  rewrite length_app, length_take, length_replicate.
  split_and_all; try lia.
  rewrite take_app_le by (rewrite length_take; lia).
  rewrite take_take. f_equal. lia.
Qed.

Lemma Write_spec d s :
  ok s -> offset s + zlen d < limit ->
  let '(n, s') := Write d s in
  n = zlen d /\ ok s' /\ offset s' = offset s + zlen d /\ bytes s' = bytes s ++ d.
Proof.
  intros Hok Hlim. pose proof (zlen_nonneg d) as Hd.
  destruct (EnsureBuffer_spec (zlen d) s Hok Hd Hlim) as (Hz & Ho1 & Hl1 & Hb1).
  unfold Write. set (s1 := EnsureBuffer (zlen d) s) in *. clearbody s1.
  destruct Hok as (_ & Ho & _). unfold limit in Hlim.
  rewrite (u64_small (offset s1 + zlen d)) by (unfold in_u64; lia).
  unfold ok, bytes in *; cbn. unfold zlen in *. rewrite length_write_at.
  split_and_all; try lia.
  rewrite <- Hb1. unfold write_at.
  replace (Z.to_nat (offset s1) - List.length (buffer s1))%nat with 0%nat by lia.
  cbn. rewrite app_nil_r, app_assoc, take_app_le
    by (rewrite length_app, length_take; lia).
  apply take_ge. rewrite length_app, length_take. lia.
Qed.

(** [appends s d s']: the writes between [s] and [s'] produced [d] *)
Definition appends (s : t) (d : list Z) (s' : t) : Prop :=
  ok s' /\ offset s' = offset s + zlen d /\ bytes s' = bytes s ++ d.

Lemma appends_refl s : ok s -> appends s [] s.
Proof. intros H. unfold appends, zlen; cbn. rewrite app_nil_r. split_and_all; auto; lia. Qed.

Lemma appends_trans s1 s2 s3 d1 d2 :
  appends s1 d1 s2 -> appends s2 d2 s3 -> appends s1 (d1 ++ d2) s3.
Proof.
  intros (A1 & A2 & A3) (B1 & B2 & B3). unfold appends.
  rewrite zlen_app, app_assoc, <- A3. split_and_all; auto; lia.
Qed.

Lemma write_bool_appends d s :
  ok s -> d <> [] -> offset s + zlen d < limit ->
  exists s', write_bool d s = (true, s') /\ appends s d s'.
Proof.
  intros Hok Hne Hlim. unfold write_bool; cbn [Streams.Write BufferedOutputStream_OutputStream].
  pose proof (Write_spec d s Hok Hlim) as H.
  destruct (Write d s) as [n s']. destruct H as (-> & H1 & H2 & H3).
  exists s'. unfold zlen in *. destruct d as [|x d]; [done|].
  by split; [|unfold appends, zlen; auto].
Qed.

Lemma write_int_appends n v s :
  (0 < n)%nat -> ok s -> offset s + Z.of_nat n < limit ->
  exists s', write_bool (le_split n (bswap n v)) s = (true, s') /\
             appends s (be_bytes n v) s'.
Proof.
  intros Hn Hok Hlim. rewrite le_split_bswap. apply write_bool_appends; [done| |].
  - intros E. apply (f_equal List.length) in E. rewrite length_be_bytes in E. cbn in E; lia.
  - by rewrite zlen_be_bytes.
Qed.

Lemma write_int8_appends v s :
  ok s -> offset s + 1 < limit ->
  exists s', write_bool (le_split 1 v) s = (true, s') /\ appends s [v mod 256] s'.
Proof. intros Hok Hlim. apply write_bool_appends; [done|done|]. exact Hlim. Qed.

Definition string_bytes (str : string) : list Z :=
  be_bytes 4 (str_size str) ++ bytes_of_string str.

Lemma zlen_string_bytes str : zlen (string_bytes str) = 4 + str_size str.
Proof. unfold string_bytes. by len_simpl. Qed.

Lemma mem_of_1 l : Forall is_byte l -> mem_of 1 l = l.
Proof.
  induction 1 as [|b l Hb Hl IH]; [done|].
  change (mem_of 1 (b :: l)) with (b mod 256 :: mem_of 1 l).
  rewrite IH. f_equal. by apply Z.mod_small.
Qed.

Lemma WriteString_appends str s :
  ok s -> in_u32 (str_size str) -> offset s + 4 + str_size str < limit ->
  exists s', WriteString str s = (true, s') /\ appends s (string_bytes str) s'.
Proof.
  intros Hok Hsz Hlim. unfold WriteString, WriteUInt32. rewrite u32_small by done.
  assert (Hn : 0 <= str_size str) by (unfold str_size; lia).
  destruct (write_int_appends 4 (str_size str) s) as (s1 & -> & H1); [lia|done|lia|].
  cbn [negb]. destruct (Z.ltb_spec 0 (str_size str)) as [Hpos|Hz].
  - unfold WriteInt8_array. rewrite mem_of_1 by auto with drive.
    rewrite take_ge by (unfold str_size; len_simpl; lia).
    destruct H1 as (A1 & A2 & A3).
    destruct (write_bool_appends (bytes_of_string str) s1) as (s2 & -> & H2); [done| | |].
    + intros E. apply (f_equal zlen) in E. rewrite zlen_bytes_of_string in E.
      unfold zlen in E. cbn in E. lia.
    + rewrite A2. len_simpl. lia.
    + exists s2. split; [done|]. eapply appends_trans; [|done]. by unfold appends.
  - exists s1. split; [done|]. unfold string_bytes.
    destruct str as [|a str]; [by rewrite app_nil_r|]. unfold str_size in *. cbn in *. lia.
Qed.
End OStreamFacts.

(** ** The input buffer *)
Module IStreamFacts.
Import BufferedInputStream.

Lemma make_ok buf : zlen buf < 2 ^ 64 -> ok (make buf (zlen buf)).
Proof. unfold ok, make, zlen; cbn. lia. Qed.
Lemma rest_make buf n : rest (make buf n) = buf.
Proof. done. Qed.

Lemma Remainder_rest s : ok s -> Remainder s = zlen (rest s).
Proof.
  unfold ok, Remainder, rest, zlen. intros (H1 & H2 & H3).
  rewrite u64_small by (unfold in_u64; lia). rewrite length_drop. lia.
Qed.

Lemma advance_ok n s : ok s -> 0 <= n <= zlen (rest s) -> ok (advance n s).
Proof.
  unfold ok, advance, rest, zlen; cbn. rewrite length_drop. intros. lia.
Qed.

Lemma rest_advance n s :
  ok s -> 0 <= n -> rest (advance n s) = drop (Z.to_nat n) (rest s).
Proof.
  unfold ok, rest, advance; cbn. intros (_ & H & _) Hn.
  rewrite drop_drop. f_equal. lia.
Qed.

Lemma advance_advance n m s : advance m (advance n s) = advance (n + m) s.
Proof. unfold advance; cbn. f_equal. lia. Qed.
Lemma advance_0 s : advance 0 s = s.
Proof. destruct s. unfold advance; cbn. f_equal. lia. Qed.
Lemma isValid_advance n s : isValid (advance n s) = isValid s.
Proof. done. Qed.

(** a read that the buffer can satisfy *)
Lemma Read_full n s :
  ok s -> 0 <= n <= zlen (rest s) ->
  Read n s = (take (Z.to_nat n) (rest s), advance n s).
Proof.
  intros Hok Hn. pose proof (Remainder_rest s Hok) as HR. unfold Remainder in HR.
  unfold Read. rewrite HR.
  destruct (Z.ltb_spec (zlen (rest s)) n) as [Hlt|_]; [lia|].
  f_equal. unfold advance, ok, rest, zlen in *. rewrite length_drop in Hn. f_equal.
  apply u64_small. unfold in_u64. lia.
Qed.

(** a read past the end returns what is left and invalidates the stream *)
Lemma Read_short n s :
  ok s -> zlen (rest s) < n ->
  Read n s = (rest s, mk (buffer s) (length s) (length s) (needFree s) false).
Proof.
  intros Hok Hn. pose proof (Remainder_rest s Hok) as HR. unfold Remainder in HR.
  unfold Read. rewrite HR.
  destruct (Z.ltb_spec (zlen (rest s)) n) as [_|Hge]; [|lia].
  destruct Hok as (H1 & H2 & H3). unfold rest, read_at, zlen in *.
  rewrite length_drop in *. f_equal.
  - rewrite take_ge by (rewrite length_drop; lia). done.
  - f_equal. rewrite u64_small by (unfold in_u64; lia). lia.
Qed.

Lemma rest_app_len s d r : rest s = d ++ r -> zlen d <= zlen (rest s).
Proof. intros ->. rewrite zlen_app. pose proof (zlen_nonneg r). lia. Qed.

Lemma Read_app s d r n :
  ok s -> rest s = d ++ r -> n = zlen d ->
  Read n s = (d, advance n s) /\ ok (advance n s) /\ rest (advance n s) = r.
Proof.
  intros Hok Hr ->. pose proof (rest_app_len _ _ _ Hr) as Hl.
  pose proof (zlen_nonneg d) as Hd.
  rewrite Read_full, rest_advance by (done || lia). rewrite Hr.
  replace (Z.to_nat (zlen d)) with (List.length d) by (unfold zlen; lia).
  rewrite take_app_length, drop_app_length.
  split_and_all; [done|apply advance_ok; [done|lia]|done].
Qed.

Lemma read_scalar_app n conv s v r :
  ok s -> rest s = be_bytes n v ++ r ->
  read_scalar n conv s
    = (conv (le_combine (be_bytes n v)), advance (Z.of_nat n) s)
  /\ ok (advance (Z.of_nat n) s) /\ rest (advance (Z.of_nat n) s) = r.
Proof.
  intros Hok Hr.
  destruct (Read_app s (be_bytes n v) r (Z.of_nat n)) as (E & Hok' & Hr'); auto.
  { by rewrite zlen_be_bytes. }
  unfold read_scalar; cbn [Streams.Read BufferedInputStream_InputStream].
  rewrite E, zlen_be_bytes, Z.eqb_refl. auto.
Qed.

Lemma read_uint_app n s v r :
  ok s -> rest s = be_bytes n v ++ r -> 0 <= v < 2 ^ (8 * Z.of_nat n) ->
  read_scalar n (bswap n) s = (v, advance (Z.of_nat n) s)
  /\ ok (advance (Z.of_nat n) s) /\ rest (advance (Z.of_nat n) s) = r.
Proof.
  intros Hok Hr Hv. destruct (read_scalar_app n (bswap n) s v r Hok Hr) as (E & H).
  split; [|done]. rewrite E. f_equal.
  rewrite bswap_le_combine, be_value_bytes; [by apply Z.mod_small| |].
  - apply length_be_bytes.
  - apply be_bytes_bytes.
Qed.

Lemma read_uint8_app s v r :
  ok s -> rest s = (v mod 256) :: r -> 0 <= v < 256 ->
  ReadUInt8 s = (v, advance 1 s) /\ ok (advance 1 s) /\ rest (advance 1 s) = r.
Proof.
  intros Hok Hr Hv.
  destruct (Read_app s [v mod 256] r 1) as (E & H); [done|done|done|].
  split; [|done]. unfold ReadUInt8, read_scalar;
    cbn [Streams.Read BufferedInputStream_InputStream].
  change (Z.of_nat 1) with 1. rewrite E. cbn. f_equal.
  rewrite Z.add_0_r, (Z.mod_small v) by lia.
  unfold u8, to_signed. change (8 * Z.of_nat 1) with 8. change (2 ^ 8) with 256.
  rewrite (Z.mod_small v) by lia. destruct (v <? 256 / 2).
  - apply Z.mod_small; lia.
  - change (v - 256) with (v + (-1) * 256). rewrite Z_mod_plus_full. apply Z.mod_small; lia.
Qed.

Lemma ReadString_app old str s r :
  ok s -> isValid s = true -> in_u32 (str_size str) ->
  (str_size str = 0 -> old = EmptyString) ->
  rest s = OStreamFacts.string_bytes str ++ r ->
  str_size old <= str_size str ->
  exists s', ReadString old s = (4 + str_size str, str, s') /\
    s' = advance (4 + str_size str) s /\ ok s' /\ rest s' = r.
Proof.
  intros Hok Hv Hsz Hold Hr Hle. unfold OStreamFacts.string_bytes in Hr.
  rewrite <- app_assoc in Hr. unfold ReadString, ReadUInt32.
  destruct (read_uint_app 4 s (str_size str) (bytes_of_string str ++ r)) as (E & Hok1 & Hr1);
    [done|done|exact Hsz|].
  rewrite E. change (Z.of_nat 4) with 4 in *. cbn [IsValid BufferedInputStream_InputStream].
  rewrite isValid_advance, Hv. cbn [andb].
  destruct (Z.ltb_spec 0 (str_size str)) as [Hpos|Hz].
  - destruct (Read_app _ _ r (str_size str) Hok1 Hr1) as (E2 & Hok2 & Hr2);
      [by rewrite zlen_bytes_of_string|].
    cbn [Streams.Read BufferedInputStream_InputStream]. rewrite E2.
    eexists. split_and_all; [|reflexivity|..].
    + rewrite zlen_bytes_of_string, advance_advance. do 2 f_equal.
      transitivity (string_of_bytes (bytes_of_string str));
        [|apply string_of_bytes_of_string]. f_equal.
      unfold write_at, resize. cbn [Nat.sub take app].
      rewrite drop_ge; [apply app_nil_r|].
      unfold str_size in *. len_simpl. lia.
    + by rewrite <- advance_advance.
    + by rewrite <- advance_advance.
  - assert (str_size str = 0) as Hz0 by (destruct Hsz; lia).
    destruct str as [|a str]; [|unfold str_size in Hz0; cbn in Hz0; lia].
    rewrite Hold by done. eexists. by split_and_all.
Qed.
End IStreamFacts.

(** ** Properties of the streams *)

(** A typed value as a client writes and reads it. *)
Inductive field :=
| FUInt8 (v : Z)
| FUInt16 (v : Z)
| FUInt32 (v : Z)
| FUInt64 (v : Z)
| FString (str : string).

Definition field_ok (f : field) : Prop :=
  match f with
  | FUInt8 v => 0 <= v < 2 ^ 8
  | FUInt16 v => 0 <= v < 2 ^ 16
  | FUInt32 v => in_u32 v
  | FUInt64 v => in_u64 v
  | FString str => in_u32 (str_size str)
  end.
Definition field_bytes (f : field) : list Z :=
  match f with
  | FUInt8 v => [v mod 256]
  | FUInt16 v => be_bytes 2 v
  | FUInt32 v => be_bytes 4 v
  | FUInt64 v => be_bytes 8 v
  | FString str => OStreamFacts.string_bytes str
  end.
Definition write_field (f : field) (s : ostream) : bool * ostream :=
  match f with
  | FUInt8 v => WriteUInt8 v s
  | FUInt16 v => WriteUInt16 v s
  | FUInt32 v => WriteUInt32 v s
  | FUInt64 v => WriteUInt64 v s
  | FString str => WriteString str s
  end.
(** reads a field of the same type as [f] *)
Definition read_field (f : field) (s : istream) : field * istream :=
  match f with
  | FUInt8 _ => let '(v, s') := ReadUInt8 s in (FUInt8 v, s')
  | FUInt16 _ => let '(v, s') := ReadUInt16 s in (FUInt16 v, s')
  | FUInt32 _ => let '(v, s') := ReadUInt32 s in (FUInt32 v, s')
  | FUInt64 _ => let '(v, s') := ReadUInt64 s in (FUInt64 v, s')
  | FString _ => let '(_, str, s') := ReadString EmptyString s in (FString str, s')
  end.
Fixpoint write_fields (fs : list field) (s : ostream) : bool * ostream :=
  match fs with
  | [] => (true, s)
  | f :: fs' =>
      let '(ok, s') := write_field f s in
      if ok then write_fields fs' s' else (false, s')
  end.
Fixpoint read_fields (fs : list field) (s : istream) : list field * istream :=
  match fs with
  | [] => ([], s)
  | f :: fs' =>
      let '(v, s') := read_field f s in
      let '(vs, s'') := read_fields fs' s' in (v :: vs, s'')
  end.

Lemma write_field_appends f s :
  field_ok f -> BufferedOutputStream.ok s ->
  BufferedOutputStream.offset s + zlen (field_bytes f) < BufferedOutputStream.limit ->
  exists s', write_field f s = (true, s') /\ OStreamFacts.appends s (field_bytes f) s'.
Proof.
  intros Hf Hok Hlim.
  destruct f; cbn [field_bytes] in *; len_simpl; cbn [write_field].
  - by apply OStreamFacts.write_int8_appends.
  - apply OStreamFacts.write_int_appends; [lia|done|done].
  - apply OStreamFacts.write_int_appends; [lia|done|done].
  - apply OStreamFacts.write_int_appends; [lia|done|done].
  - apply OStreamFacts.WriteString_appends; [done|done|].
    rewrite OStreamFacts.zlen_string_bytes in Hlim. lia.
Qed.

Lemma write_fields_appends fs s :
  Forall field_ok fs -> BufferedOutputStream.ok s ->
  BufferedOutputStream.offset s + zlen (concat (map field_bytes fs))
    < BufferedOutputStream.limit ->
  exists s', write_fields fs s = (true, s') /\
             OStreamFacts.appends s (concat (map field_bytes fs)) s'.
Proof.
  revert s. induction fs as [|f fs IH]; intros s Hfs Hok Hlim; cbn [map concat] in *.
  { exists s. split; [done|]. by apply OStreamFacts.appends_refl. }
  apply Forall_cons in Hfs as [Hf Hfs]. rewrite zlen_app in Hlim.
  pose proof (zlen_nonneg (concat (map field_bytes fs))) as Hn.
  destruct (write_field_appends f s Hf Hok) as (s1 & E1 & H1); [lia|].
  destruct H1 as (Hok1 & Ho1 & Hb1).
  destruct (IH s1 Hfs Hok1) as (s2 & E2 & H2); [lia|].
  exists s2. cbn [write_fields]. rewrite E1. split; [done|].
  eapply OStreamFacts.appends_trans; [|done]. by unfold OStreamFacts.appends.
Qed.

Lemma read_field_app f s r :
  field_ok f -> BufferedInputStream.ok s -> BufferedInputStream.isValid s = true ->
  BufferedInputStream.rest s = field_bytes f ++ r ->
  exists s', read_field f s = (f, s') /\ BufferedInputStream.ok s' /\
    BufferedInputStream.isValid s' = true /\ BufferedInputStream.rest s' = r.
Proof.
  intros Hf Hok Hv Hr. destruct f; cbn [field_ok field_bytes] in *.
  - destruct (IStreamFacts.read_uint8_app s v r) as (E & H1 & H2); [done|done|done|].
    cbn [read_field]. rewrite E. eauto.
  - destruct (IStreamFacts.read_uint_app 2 s v r) as (E & H1 & H2); [done|done|done|].
    unfold read_field, ReadUInt16. rewrite E. eauto.
  - destruct (IStreamFacts.read_uint_app 4 s v r) as (E & H1 & H2); [done|done|done|].
    unfold read_field, ReadUInt32. rewrite E. eauto.
  - destruct (IStreamFacts.read_uint_app 8 s v r) as (E & H1 & H2); [done|done|done|].
    unfold read_field, ReadUInt64. rewrite E. eauto.
  - destruct (IStreamFacts.ReadString_app EmptyString str s r)
      as (s' & E & -> & H1 & H2); [done|done|done|done|done|by destruct Hf|].
    unfold read_field. rewrite E. eauto.
Qed.

Lemma read_fields_app fs s r :
  Forall field_ok fs -> BufferedInputStream.ok s -> BufferedInputStream.isValid s = true ->
  BufferedInputStream.rest s = concat (map field_bytes fs) ++ r ->
  exists s', read_fields fs s = (fs, s') /\ BufferedInputStream.ok s' /\
    BufferedInputStream.isValid s' = true /\ BufferedInputStream.rest s' = r.
Proof.
  revert s. induction fs as [|f fs IH]; intros s Hfs Hok Hv Hr; [by eauto|].
  apply Forall_cons in Hfs as [Hf Hfs]. cbn [map concat] in Hr. rewrite <- app_assoc in Hr.
  destruct (read_field_app f s _ Hf Hok Hv Hr) as (s1 & E1 & Hok1 & Hv1 & Hr1).
  destruct (IH s1 Hfs Hok1 Hv1 Hr1) as (s2 & E2 & H2).
  exists s2. cbn [read_fields]. by rewrite E1, E2.
Qed.

(** Stream round trip: whatever typed values (8, 16, 32, 64-bit integers and
    strings) are written to a fresh [BufferedOutputStream], in any order and
    number below the size limit, every write succeeds, and reading the same
    types back from a [BufferedInputStream] over the written bytes gives the
    same values, stays valid and consumes every byte. *)
Theorem fields_roundtrip (fs : list field) :
  Forall field_ok fs ->
  zlen (concat (map field_bytes fs)) < BufferedOutputStream.limit ->
  exists out, write_fields fs BufferedOutputStream.init = (true, out) /\
    let buf := BufferedOutputStream.bytes out in
    exists s', read_fields fs (BufferedInputStream.make buf (zlen buf)) = (fs, s') /\
      BufferedInputStream.isValid s' = true /\ BufferedInputStream.Remainder s' = 0.
Proof.
  intros Hfs Hlim.
  destruct (write_fields_appends fs BufferedOutputStream.init Hfs)
    as (out & E & Hok & Ho & Hb); [apply OStreamFacts.init_ok|cbn; lia|].
  exists out. split; [done|]. cbn [app] in Hb.
  rewrite OStreamFacts.bytes_init in Hb. cbn [app] in Hb. rewrite Hb. cbv zeta.
  unfold BufferedOutputStream.limit in Hlim.
  destruct (read_fields_app fs (BufferedInputStream.make (concat (map field_bytes fs))
    (zlen (concat (map field_bytes fs)))) []) as (s' & E' & Hok' & Hv & Hr); [done| |done| |].
  - apply IStreamFacts.make_ok. lia.
  - by rewrite IStreamFacts.rest_make, app_nil_r.
  - exists s'. split_and_all; [done|done|]. by rewrite IStreamFacts.Remainder_rest, Hr.
Qed.

Lemma fields_roundtrip_witness :
  exists out, write_fields [FUInt64 5; FString "ab"; FUInt8 255] BufferedOutputStream.init
              = (true, out) /\
    let buf := BufferedOutputStream.bytes out in
    exists s', read_fields [FUInt64 5; FString "ab"; FUInt8 255]
                 (BufferedInputStream.make buf (zlen buf))
               = ([FUInt64 5; FString "ab"; FUInt8 255], s') /\
      BufferedInputStream.isValid s' = true /\ BufferedInputStream.Remainder s' = 0.
Proof.
  apply fields_roundtrip.
  - closed_forall.
  - reflexivity.
Defined.

(** Memory safety of the output buffer: below the size limit [Write] grows the
    allocation so that the whole copy lies inside it, keeps cursor and capacity
    consistent, and appends exactly the given bytes to the contents. *)
Theorem buffer_write_bounds (s : ostream) (d : list Z) :
  BufferedOutputStream.ok s ->
  BufferedOutputStream.offset s + zlen d < BufferedOutputStream.limit ->
  let s1 := BufferedOutputStream.EnsureBuffer (zlen d) s in
  let '(n, s') := BufferedOutputStream.Write d s in
  BufferedOutputStream.offset s1 + zlen d <= zlen (BufferedOutputStream.buffer s1) /\
  n = zlen d /\ BufferedOutputStream.ok s' /\
  BufferedOutputStream.bytes s' = BufferedOutputStream.bytes s ++ d.
Proof.
  intros Hok Hlim. pose proof (OStreamFacts.Write_spec d s Hok Hlim) as H. cbv zeta.
  pose proof (OStreamFacts.EnsureBuffer_spec (zlen d) s Hok (zlen_nonneg d) Hlim)
    as (Hz & Ho & Hl & _).
  destruct (BufferedOutputStream.Write d s) as [n s'].
  destruct H as (-> & H1 & H2 & H3). rewrite Hz, Ho. split_and_all; auto; lia.
Qed.

Lemma buffer_write_bounds_witness :
  let s := BufferedOutputStream.init in
  let s1 := BufferedOutputStream.EnsureBuffer 3 s in
  let '(n, s') := BufferedOutputStream.Write [1; 2; 3] s in
  BufferedOutputStream.offset s1 + 3 <= zlen (BufferedOutputStream.buffer s1) /\
  n = 3 /\ BufferedOutputStream.ok s' /\
  BufferedOutputStream.bytes s' = BufferedOutputStream.bytes s ++ [1; 2; 3].
Proof.
  apply (buffer_write_bounds BufferedOutputStream.init [1; 2; 3]).
  - repeat split; cbn; lia.
  - reflexivity.
Defined.

(** Bounds of [BufferedInputStream::Read]: from a consistent stream any read
    returns the unread bytes up to the requested count, never reaches past the
    buffer, leaves the stream consistent with those bytes consumed, and clears
    the valid flag exactly when fewer bytes than requested were left. *)
Theorem buffer_read_bounds (s : istream) (n : Z) :
  BufferedInputStream.ok s -> 0 <= n ->
  let '(bs, s') := BufferedInputStream.Read n s in
  zlen bs = Z.min n (BufferedInputStream.Remainder s) /\
  BufferedInputStream.rest s = bs ++ BufferedInputStream.rest s' /\
  BufferedInputStream.ok s' /\
  BufferedInputStream.isValid s'
    = (n <=? BufferedInputStream.Remainder s) && BufferedInputStream.isValid s.
Proof.
  intros Hok Hn. rewrite IStreamFacts.Remainder_rest by done.
  destruct (Z.leb_spec n (zlen (BufferedInputStream.rest s))) as [Hle|Hgt].
  - rewrite IStreamFacts.Read_full by (done || lia).
    rewrite IStreamFacts.rest_advance, take_drop by (done || lia).
    split_and_all; [|done|by apply IStreamFacts.advance_ok|done].
    unfold zlen in *. len_simpl. lia.
  - rewrite IStreamFacts.Read_short by (done || lia).
    destruct Hok as (H1 & H2 & H3).
    split_and_all; [lia| | |done].
    + unfold BufferedInputStream.rest at 3; cbn.
      unfold zlen in H1. rewrite drop_ge, app_nil_r by lia. done.
    + unfold BufferedInputStream.ok; cbn. lia.
Qed.

Lemma buffer_read_bounds_witness :
  let s := BufferedInputStream.make [7; 8] 2 in
  let '(bs, s') := BufferedInputStream.Read 3 s in
  zlen bs = Z.min 3 (BufferedInputStream.Remainder s) /\
  BufferedInputStream.rest s = bs ++ BufferedInputStream.rest s' /\
  BufferedInputStream.ok s' /\
  BufferedInputStream.isValid s'
    = (3 <=? BufferedInputStream.Remainder s) && BufferedInputStream.isValid s.
Proof.
  apply (buffer_read_bounds (BufferedInputStream.make [7; 8] 2) 3).
  - repeat split; cbn; lia.
  - lia.
Defined.

Lemma mem_of_bswap n l : mem_of n (map (bswap n) l) = concat (map (be_bytes n) l).
Proof.
  unfold mem_of. rewrite map_map. f_equal. apply map_ext. intros v. apply le_split_bswap.
Qed.

Lemma map_bswap_involutive n l :
  Forall (fun v => 0 <= v < 2 ^ (8 * Z.of_nat n)) l ->
  map (bswap n) (map (bswap n) l) = l.
Proof.
  intros Hl. rewrite map_map. transitivity (map id l); [|apply map_id].
  apply map_ext_in. intros v Hv. apply bswap_involutive.
  rewrite Forall_forall in Hl. apply Hl. by apply list_elem_of_In.
Qed.

Lemma swap_prefix_involutive n k l :
  Forall (fun v => 0 <= v < 2 ^ (8 * Z.of_nat n)) l ->
  swap_prefix n k (swap_prefix n k l) = l.
Proof.
  intros Hl. unfold swap_prefix.
  rewrite <- (take_drop (Z.to_nat k) l) in Hl. apply Forall_app in Hl as [Ht _].
  set (m := Z.to_nat k) in *.
  assert (Hm : length (map (bswap n) (take m l)) = Nat.min m (length l)) by by len_simpl.
  destruct (Nat.le_gt_cases m (length l)) as [Hle|Hgt].
  - rewrite take_app_length', drop_app_length' by lia.
    by rewrite map_bswap_involutive, take_drop.
  - rewrite (drop_ge l) by lia. rewrite !app_nil_r.
    set (x := map (bswap n) (take m l)) in *.
    rewrite (take_ge x), (drop_ge x), app_nil_r by lia. unfold x.
    rewrite map_bswap_involutive by done. apply take_ge. lia.
Qed.

Lemma length_swap_prefix n k l : length (swap_prefix n k l) = length l.
Proof. unfold swap_prefix. len_simpl. lia. Qed.

Lemma take_mem_of n k l : take (n * k) (mem_of n l) = mem_of n (take k l).
Proof.
  unfold mem_of. revert k. induction l as [|v l IH]; intros k.
  { rewrite take_nil. cbn [map concat]. apply take_nil. }
  destruct k as [|k]; [by rewrite Nat.mul_0_r|]. cbn [map concat take].
  rewrite take_app_ge by (rewrite length_le_split; lia).
  rewrite length_le_split, <- IH. do 2 f_equal. lia.
Qed.

(** The array writers (16, 32 and 64 bits, all six of them) restore the
    caller's array they byte-swapped in place, and write exactly the big-endian
    encoding of its first [length] elements; the stream content is only
    extended. *)
Theorem write_array_restores (n : nat) (ary : list Z) (len : Z) (s : ostream) :
  (0 < n)%nat -> 0 < len <= zlen ary ->
  Forall (fun v => 0 <= v < 2 ^ (8 * Z.of_nat n)) ary ->
  BufferedOutputStream.ok s ->
  BufferedOutputStream.offset s + Z.of_nat n * len < BufferedOutputStream.limit ->
  exists s', write_array n ary len s = (true, ary, s') /\
    BufferedOutputStream.ok s' /\
    BufferedOutputStream.bytes s' = BufferedOutputStream.bytes s
      ++ concat (map (be_bytes n) (take (Z.to_nat len) ary)).
Proof.
  intros Hn Hlen Hary Hok Hlim. unfold zlen in Hlen. unfold write_array.
  rewrite take_mem_of.
  assert (E : take (Z.to_nat len) (swap_prefix n len ary)
              = map (bswap n) (take (Z.to_nat len) ary)).
  { unfold swap_prefix. apply take_app_length'. len_simpl. lia. }
  rewrite E, mem_of_bswap. set (d := concat _).
  assert (Hd : zlen d = Z.of_nat n * len).
  { unfold d, zlen. rewrite (length_concat_const _ n) by apply length_be_bytes.
    rewrite length_take, Nat2Z.inj_mul, Z.mul_comm. f_equal. lia. }
  destruct (OStreamFacts.write_bool_appends d s) as (s' & -> & Hok' & _ & Hb); [done| |lia|].
  { intros ->. unfold zlen in Hd. cbn in Hd. nia. }
  exists s'. by rewrite swap_prefix_involutive.
Qed.

Lemma write_array_restores_witness :
  exists s', write_array 2 [258; 3; 4] 2 BufferedOutputStream.init
             = (true, [258; 3; 4], s') /\
    BufferedOutputStream.ok s' /\
    BufferedOutputStream.bytes s' = BufferedOutputStream.bytes BufferedOutputStream.init
      ++ concat (map (be_bytes 2) (take 2 [258; 3; 4])).
Proof.
  apply (write_array_restores 2 [258; 3; 4] 2 BufferedOutputStream.init).
  - lia.
  - closed_range.
  - closed_forall.
  - apply OStreamFacts.init_ok.
  - reflexivity.
Defined.
