(* ===== verification/StdMap.v ===== *)
(** * [std::map<std::string, V>]

    The containers whose iteration order the program observes (folder entries
    are serialized in map order) are association lists sorted by the order of
    [std::string]'s [operator<]: unsigned bytes, a proper prefix first.  Maps
    that are only looked up are stdpp [gmap]s elsewhere. *)

From S2P Require Import Prelude.
From Stdlib Require Import ZArith Lia Bool Ascii String.
From stdpp Require Import base list gmap strings.
Set Default Goal Selector "!".
Local Open Scope Z_scope.

Fixpoint str_ltb (a b : string) : bool :=
  match a, b with
  | _, EmptyString => false
  | EmptyString, String _ _ => true
  | String x a', String y b' =>
      (ascii_byte x <? ascii_byte y)
      || ((ascii_byte x =? ascii_byte y) && str_ltb a' b')
  end.

Module SMap.
Section SMap.
Context {V : Type}.

Abbreviation smap := (list (string * V)).

Fixpoint find (k : string) (m : smap) : option V :=
  match m with
  | [] => None
  | (k', v) :: m' => if String.eqb k k' then Some v else find k m'
  end.

(** [m[k] = v] *)
Fixpoint insert (k : string) (v : V) (m : smap) : smap :=
  match m with
  | [] => [(k, v)]
  | (k', v') :: m' =>
      if str_ltb k k' then (k, v) :: m
      else if String.eqb k k' then (k, v) :: m'
      else (k', v') :: insert k v m'
  end.

(** [m.emplace(k, v)]: no effect when [k] is present *)
Definition emplace (k : string) (v : V) (m : smap) : smap :=
  match find k m with Some _ => m | None => insert k v m end.

(** [m.erase(m.find(k))] *)
Fixpoint erase (k : string) (m : smap) : smap :=
  match m with
  | [] => []
  | (k', v') :: m' => if String.eqb k k' then m' else (k', v') :: erase k m'
  end.

(** [m[k]] as an lvalue: inserts the value-initialized [d] when absent *)
Definition get_or_insert (d : V) (k : string) (m : smap) : V * smap :=
  match find k m with
  | Some v => (v, m)
  | None => (d, insert k d m)
  end.

(** every key of [m] is greater than [k] *)
Definition above (k : string) (m : smap) : Prop :=
  Forall (fun p => str_ltb k p.1 = true) m.
Fixpoint sorted (m : smap) : Prop :=
  match m with
  | [] => True
  | (k, _) :: m' => above k m' /\ sorted m'
  end.
End SMap.
End SMap.

Lemma str_ltb_irrefl a : str_ltb a a = false.
Proof.
  induction a as [|x a IH]; cbn; [done|]. by rewrite Z.ltb_irrefl, Z.eqb_refl.
Qed.

Lemma str_ltb_trans a b c :
  str_ltb a b = true -> str_ltb b c = true -> str_ltb a c = true.
Proof.
  revert b c. induction a as [|x a IH]; intros [|y b] [|z c]; cbn; try done.
  rewrite !orb_true_iff, !andb_true_iff, !Z.ltb_lt, !Z.eqb_eq.
  intros [H1|[H1 H2]] [H3|[H3 H4]]; [left; lia..|right]. split; [lia|eauto].
Qed.

Lemma ascii_byte_inj x y : ascii_byte x = ascii_byte y -> x = y.
Proof. intros H. rewrite <- (byte_ascii_byte x), H. apply byte_ascii_byte. Qed.

Lemma str_ltb_total a b : str_ltb a b = false -> a <> b -> str_ltb b a = true.
Proof.
  revert b. induction a as [|x a IH]; intros [|y b]; cbn; try done.
  rewrite orb_false_iff, andb_false_iff, orb_true_iff, andb_true_iff.
  rewrite Z.ltb_ge, Z.eqb_neq, Z.ltb_lt, Z.eqb_eq.
  intros [H1 H2] Hne. destruct (decide (ascii_byte x = ascii_byte y)) as [E|E].
  - right. split; [done|]. apply ascii_byte_inj in E as ->.
    destruct H2; [done|]. apply IH; congruence.
  - left. lia.
Qed.

Lemma str_ltb_ne a b : str_ltb a b = true -> a <> b.
Proof. intros H ->. by rewrite str_ltb_irrefl in H. Qed.

Module SMapFacts.
Import SMap.
Section SMapFacts.
Context {V : Type}.
Implicit Types (m : list (string * V)) (k : string) (v : V).

Lemma find_insert_eq k v m : find k (insert k v m) = Some v.
Proof.
  induction m as [|[k' v'] m IH]; cbn; [by rewrite String.eqb_refl|].
  destruct (str_ltb k k') eqn:E; cbn; [by rewrite String.eqb_refl|].
  destruct (String.eqb k k') eqn:E'; cbn; [by rewrite String.eqb_refl|].
  by rewrite E'.
Qed.

Lemma find_insert_ne k k' v m : k' <> k -> find k' (insert k v m) = find k' m.
Proof.
  intros Hne. apply String.eqb_neq in Hne.
  induction m as [|[k2 v2] m IH]; cbn; [by rewrite Hne|].
  destruct (str_ltb k k2) eqn:E; cbn; [by rewrite Hne|].
  destruct (String.eqb k k2) eqn:E'; cbn; [|by rewrite IH].
  apply String.eqb_eq in E' as ->. by rewrite Hne.
Qed.

Lemma find_insert k k' v m :
  find k' (insert k v m) = if String.eqb k' k then Some v else find k' m.
Proof.
  destruct (String.eqb_spec k' k) as [->|Hne].
  - apply find_insert_eq.
  - by apply find_insert_ne.
Qed.

Lemma above_trans k k' m : str_ltb k k' = true -> above k' m -> above k m.
Proof.
  intros Hlt. unfold above. intros H. eapply Forall_impl; [exact H|].
  intros p Hp. by eapply str_ltb_trans.
Qed.

Lemma above_insert k k' v m :
  above k m -> str_ltb k k' = true -> above k (insert k' v m).
Proof.
  unfold above. induction m as [|[k2 v2] m IH]; cbn; intros H Hlt.
  { by constructor. }
  apply Forall_cons in H as [H1 H2]. cbn in H1.
  destruct (str_ltb k' k2); [by repeat constructor|].
  destruct (String.eqb k' k2); constructor; auto.
Qed.

Lemma sorted_insert k v m : sorted m -> sorted (insert k v m).
Proof.
  induction m as [|[k2 v2] m IH]; cbn; [by repeat constructor|].
  intros [Ha Hs]. destruct (str_ltb k k2) eqn:E.
  - split; [|done]. constructor; [done|]. by eapply above_trans.
  - destruct (String.eqb_spec k k2) as [->|Hne]; [done|].
    cbn. split; [|auto]. apply above_insert; [done|]. by apply str_ltb_total.
Qed.

Lemma above_find k m : above k m -> find k m = None.
Proof.
  unfold above. induction 1 as [|[k2 v2] m Hk Hm IH]; cbn; [done|].
  cbn in Hk. apply str_ltb_ne in Hk. apply String.eqb_neq in Hk. by rewrite Hk.
Qed.

Lemma above_erase k k' m : above k m -> above k (erase k' m).
Proof.
  unfold above. induction 1 as [|[k2 v2] m Hk Hm IH]; cbn; [constructor|].
  destruct (String.eqb k' k2); [done|]. by constructor.
Qed.

Lemma sorted_erase k m : sorted m -> sorted (erase k m).
Proof.
  induction m as [|[k2 v2] m IH]; cbn; [done|]. intros [Ha Hs].
  destruct (String.eqb k k2); [done|]. cbn. split; [by apply above_erase|auto].
Qed.

Lemma find_erase k k' m :
  sorted m -> find k' (erase k m) = if String.eqb k' k then None else find k' m.
Proof.
  induction m as [|[k2 v2] m IH]; cbn; [by destruct (String.eqb k' k)|].
  intros [Ha Hs]. destruct (String.eqb_spec k k2) as [->|Hne].
  - destruct (String.eqb_spec k' k2) as [->|]; [by apply above_find|done].
  - cbn. rewrite IH by done. destruct (String.eqb_spec k' k2) as [->|]; [|done].
    assert (k2 <> k) as Hne' by done. apply String.eqb_neq in Hne'. by rewrite Hne'.
Qed.

Lemma sorted_emplace k v m : sorted m -> sorted (emplace k v m).
Proof. unfold emplace. destruct (find k m); [done|apply sorted_insert]. Qed.

Lemma sorted_get_or_insert d k m : sorted m -> sorted (get_or_insert d k m).2.
Proof. unfold get_or_insert. destruct (find k m); [done|apply sorted_insert]. Qed.

Lemma get_or_insert_found d k m v : find k m = Some v -> get_or_insert d k m = (v, m).
Proof. unfold get_or_insert. by intros ->. Qed.

(** appending a key above all the others *)
Lemma insert_last k v m :
  Forall (fun p => str_ltb p.1 k = true) m -> insert k v m = m ++ [(k, v)].
Proof.
  induction 1 as [|[k2 v2] m Hk Hm IH]; cbn in *; [done|].
  rewrite IH. destruct (str_ltb k k2) eqn:E.
  { pose proof (str_ltb_trans _ _ _ E Hk) as F. by rewrite str_ltb_irrefl in F. }
  apply str_ltb_ne in Hk. destruct (String.eqb_spec k k2); congruence.
Qed.

Lemma find_below k m : Forall (fun p => str_ltb p.1 k = true) m -> find k m = None.
Proof.
  induction 1 as [|[k2 v2] m Hk Hm IH]; cbn in *; [done|].
  apply str_ltb_ne in Hk. destruct (String.eqb_spec k k2); congruence.
Qed.

Lemma sorted_app_below m1 k v m2 :
  sorted (m1 ++ (k, v) :: m2) -> Forall (fun p => str_ltb p.1 k = true) m1.
Proof.
  induction m1 as [|[k1 v1] m1 IH]; cbn; [constructor|]. intros [Ha Hs].
  constructor; [|auto]. unfold above in Ha. rewrite Forall_app, Forall_cons in Ha.
  by destruct Ha as (_ & Ha & _).
Qed.

Lemma find_in k v m : find k m = Some v -> In (k, v) m.
Proof.
  induction m as [|[k2 v2] m IH]; cbn; [done|].
  destruct (String.eqb_spec k k2) as [->|]; [intros [= ->]; auto|auto].
Qed.

Lemma in_find k v m : sorted m -> In (k, v) m -> find k m = Some v.
Proof.
  induction m as [|[k2 v2] m IH]; cbn; [done|]. intros [Ha Hs] [[= -> ->]|Hin].
  - by rewrite String.eqb_refl.
  - destruct (String.eqb_spec k k2) as [->|]; [|auto].
    unfold above in Ha. rewrite Forall_forall in Ha.
    apply list_elem_of_In in Hin. apply Ha in Hin. cbn in Hin.
    by rewrite str_ltb_irrefl in Hin.
Qed.

Lemma length_insert_new k v m :
  find k m = None -> length (insert k v m) = S (length m).
Proof.
  induction m as [|[k2 v2] m IH]; cbn; [done|].
  destruct (String.eqb_spec k k2) as [|Hne]; [done|]. intros Hf.
  destruct (str_ltb k k2); cbn; [done|]. by rewrite IH.
Qed.

Lemma length_insert_old k v m w :
  sorted m -> find k m = Some w -> length (insert k v m) = length m.
Proof.
  induction m as [|[k2 v2] m IH]; cbn; [done|]. intros [Ha Hs].
  destruct (String.eqb_spec k k2) as [->|Hne]; [by rewrite str_ltb_irrefl|]. intros Hf.
  destruct (str_ltb k k2) eqn:E; cbn; [|by rewrite IH].
  assert (above k m) as Ha' by by eapply above_trans.
  by rewrite above_find in Hf.
Qed.

Lemma length_erase k m v :
  find k m = Some v -> length m = S (length (erase k m)).
Proof.
  induction m as [|[k2 v2] m IH]; cbn; [done|].
  destruct (String.eqb k k2); [done|]. intros Hf. cbn. f_equal. auto.
Qed.

(** two sorted maps with the same lookups are the same list *)
Lemma sorted_ext m1 m2 :
  sorted m1 -> sorted m2 -> (forall k, find k m1 = find k m2) -> m1 = m2.
Proof.
  revert m2. induction m1 as [|[k1 v1] m1 IH]; intros [|[k2 v2] m2]; cbn; intros H1 H2 Hf.
  - done.
  - specialize (Hf k2). by rewrite String.eqb_refl in Hf.
  - specialize (Hf k1). by rewrite String.eqb_refl in Hf.
  - destruct H1 as [Ha1 Hs1], H2 as [Ha2 Hs2].
    assert (k1 = k2) as ->.
    { destruct (str_ltb k1 k2) eqn:E.
      - pose proof (Hf k1) as F. rewrite String.eqb_refl in F.
        pose proof (str_ltb_ne _ _ E) as Hne. apply String.eqb_neq in Hne.
        rewrite Hne, above_find in F; [done|]. by eapply above_trans.
      - destruct (decide (k1 = k2)) as [|Hne]; [done|].
        pose proof (str_ltb_total _ _ E Hne) as E'.
        pose proof (Hf k2) as F. rewrite String.eqb_refl in F.
        pose proof (str_ltb_ne _ _ E') as Hne'. apply String.eqb_neq in Hne'.
        rewrite Hne', above_find in F; [done|]. by eapply above_trans. }
    pose proof (Hf k2) as F. rewrite String.eqb_refl in F. injection F as ->.
    f_equal. apply IH; [done|done|]. intros k. specialize (Hf k).
    destruct (decide (k = k2)) as [->|Hne]; [by rewrite !above_find|].
    apply String.eqb_neq in Hne. by rewrite !Hne in Hf.
Qed.

Lemma insert_same k v m : sorted m -> find k m = Some v -> insert k v m = m.
Proof.
  intros Hs Hf. apply sorted_ext; [by apply sorted_insert|done|]. intros k'.
  rewrite find_insert. destruct (String.eqb_spec k' k) as [->|]; done.
Qed.

Lemma insert_insert k v w m : sorted m -> insert k v (insert k w m) = insert k v m.
Proof.
  intros Hs. apply sorted_ext; [by repeat apply sorted_insert|by apply sorted_insert|].
  intros k'. rewrite !find_insert. by destruct (String.eqb k' k).
Qed.

Lemma insert_comm k k' v w m :
  sorted m -> k <> k' -> insert k v (insert k' w m) = insert k' w (insert k v m).
Proof.
  intros Hs Hne. apply sorted_ext; [by repeat apply sorted_insert..|].
  intros x. rewrite !find_insert.
  destruct (String.eqb_spec x k), (String.eqb_spec x k'); congruence.
Qed.

Lemma erase_insert_ne k k' v m :
  sorted m -> k <> k' -> erase k (insert k' v m) = insert k' v (erase k m).
Proof.
  intros Hs Hne. apply sorted_ext; [by apply sorted_erase, sorted_insert
    |by apply sorted_insert, sorted_erase|].
  intros x. rewrite find_erase, !find_insert, find_erase by auto using sorted_insert.
  destruct (String.eqb_spec x k), (String.eqb_spec x k'); congruence.
Qed.

Lemma Forall_insert (Q : string * V -> Prop) k v m :
  Q (k, v) -> Forall Q m -> Forall Q (insert k v m).
Proof.
  intros Hq. induction 1 as [|[k2 v2] m H2 Hm IH]; cbn; [by repeat constructor|].
  destruct (str_ltb k k2); [by repeat constructor|].
  destruct (String.eqb k k2); by constructor.
Qed.
Lemma Forall_erase (Q : string * V -> Prop) k m : Forall Q m -> Forall Q (erase k m).
Proof.
  induction 1 as [|[k2 v2] m H2 Hm IH]; cbn; [constructor|].
  destruct (String.eqb k k2); [done|by constructor].
Qed.

(** a sum over the entries *)
Definition total (g : string * V -> Z) (m : list (string * V)) : Z :=
  fold_right (fun p c => (g p + c)%Z) 0%Z m.

Lemma total_insert g k v m :
  sorted m ->
  (total g (insert k v m) + match find k m with Some w => g (k, w) | None => 0 end
   = total g m + g (k, v))%Z.
Proof.
  unfold total. induction m as [|[k2 v2] m IH]; cbn; intros Hs; [lia|].
  destruct Hs as [Ha Hs]. destruct (String.eqb_spec k k2) as [->|Hne].
  { rewrite str_ltb_irrefl. cbn. lia. }
  destruct (str_ltb k k2) eqn:E.
  - rewrite above_find by (by eapply above_trans). cbn. lia.
  - cbn. specialize (IH Hs). lia.
Qed.

Lemma total_erase g k v m :
  find k m = Some v -> (total g (erase k m) + g (k, v) = total g m)%Z.
Proof.
  unfold total. induction m as [|[k2 v2] m IH]; cbn; [done|].
  destruct (String.eqb_spec k k2) as [->|Hne]; intros Hf.
  - injection Hf as ->. lia.
  - cbn. specialize (IH Hf). lia.
Qed.

(** entries whose key satisfies a test *)
Definition count (q : string -> bool) (m : list (string * V)) : nat :=
  length (List.filter (fun p => q p.1) m).

Lemma count_insert q k v m :
  sorted m ->
  count q (insert k v m)
    = match find k m with
      | Some _ => count q m
      | None => ((if q k then 1 else 0) + count q m)%nat
      end.
Proof.
  unfold count. induction m as [|[k2 v2] m IH]; cbn; intros Hs.
  { by destruct (q k). }
  destruct Hs as [Ha Hs]. destruct (String.eqb_spec k k2) as [->|Hne].
  { rewrite str_ltb_irrefl. cbn. by destruct (q k2). }
  destruct (str_ltb k k2) eqn:E.
  - rewrite above_find by (by eapply above_trans). cbn. by destruct (q k).
  - cbn. specialize (IH Hs). destruct (q k2), (find k m); cbn in *; rewrite ?IH; lia.
Qed.

Lemma count_erase q k m :
  count q m = ((match find k m with Some _ => if q k then 1 else 0 | None => 0 end)
               + count q (erase k m))%nat.
Proof.
  unfold count. induction m as [|[k2 v2] m IH]; cbn; [done|].
  destruct (String.eqb_spec k k2) as [->|Hne]; [by destruct (q k2)|].
  cbn. destruct (q k2); cbn; rewrite IH; lia.
Qed.
End SMapFacts.
End SMapFacts.
#[export] Hint Resolve SMapFacts.sorted_insert SMapFacts.sorted_erase
  SMapFacts.sorted_emplace SMapFacts.sorted_get_or_insert : drive.
