(* ===== verification/Json.v ===== *)
(** * Values of jsoncpp (src/src/jsoncpp/json_value.cpp)

    [Value] as the program uses it: its constructors, the accessors the code reads
    values with, and a structural induction principle.  The members of an object are
    a [std::map] ordered by [strcmp]; comments of a value are not modelled. *)

From Stdlib Require Import ZArith Lia Bool Ascii String SpecFloat.
From stdpp Require Import base list strings.
From S2P Require Import Prelude StdMap.
Set Default Goal Selector "!".
Local Open Scope Z_scope.
Local Open Scope drive_scope.

(** a [double] *)
Definition real := spec_float.
Inductive json :=
| JNull
| JInt (n : Z)
| JBool (b : bool)
| JString (s : string)
| JArray (l : list json)
| JObject (members : list (string * json))
| JReal (d : real).

Section JsonInd.
Context (P : json -> Prop).
Hypotheses (Hnull : P JNull) (Hint : forall n, P (JInt n)) (Hbool : forall b, P (JBool b)) (Hstring : forall s, P (JString s))
  (Harray : forall l, Forall P l -> P (JArray l)) (Hobject : forall l, Forall (fun p => P p.2) l -> P (JObject l))
  (Hreal : forall d, P (JReal d)).
Fixpoint json_forall (v : json) : P v :=
  match v with
  | JNull => Hnull
  | JInt n => Hint n
  | JBool b => Hbool b
  | JString s => Hstring s
  | JArray l => Harray l ((fix each l : Forall P l :=
      match l with [] => List.Forall_nil _ | v :: l => List.Forall_cons _ _ _ (json_forall v) (each l) end) l)
  | JObject l => Hobject l ((fix each l : Forall (fun p => P p.2) l :=
      match l with [] => List.Forall_nil _ | (k, v) :: l => List.Forall_cons _ (k, v) _ (json_forall v) (each l) end) l)
  | JReal d => Hreal d
  end.
End JsonInd.

(** ** Members and types: null counts as an empty array and an empty object *)
(** [value\[name\]]: null when there is no such member *)
Definition member (v : json) (name : string) : json :=
  match v with
  | JObject l => match find (fun p => String.eqb p.1 name) l with Some p => p.2 | None => JNull end
  | _ => JNull
  end.
Definition index (v : json) (name : string) : outcome json :=
  match v with
  | JNull => Ok JNull
  | JObject _ => Ok (member v name)
  | _ => Fault AssertFailed
  end.
(** [value\[name\] = x] *)
Definition set_member (name : string) (x v : json) : outcome json :=
  match v with
  | JNull => Ok (JObject [(name, x)])
  | JObject l => Ok (JObject (SMap.insert name x l))
  | _ => Fault AssertFailed
  end.
Definition elements (v : json) : list json := match v with JArray l => l | _ => [] end.
Module Value.
Definition append (x v : json) : outcome json :=
  match v with
  | JNull | JArray _ => Ok (JArray (elements v ++ [x]))
  | _ => Fault AssertFailed
  end.
Definition size (v : json) : Z :=
  match v with JArray l => zlen l | JObject l => zlen l | _ => 0 end.
End Value.
Definition isNull (v : json) : bool := match v with JNull => true | _ => false end.
Definition isBool (v : json) : bool := match v with JBool _ => true | _ => false end.
Definition isIntegral (v : json) : bool := match v with JInt _ | JBool _ => true | _ => false end.
Definition isDouble (v : json) : bool := match v with JReal _ => true | _ => false end.
Definition isString (v : json) : bool := match v with JString _ => true | _ => false end.
Definition isArray (v : json) : bool := match v with JNull | JArray _ => true | _ => false end.
Definition isObject (v : json) : bool := match v with JNull | JObject _ => true | _ => false end.

(** ** Conversions *)
Definition asString (v : json) : outcome string :=
  match v with
  | JNull => Ok EmptyString
  | JString s => Ok s
  | JBool b => Ok (if b then "true" else "false")%string
  | _ => Fault UncaughtException
  end.
(** a double that lies between 0 and the greatest UInt, without its fraction *)
Definition real_to_UInt (d : real) : option Z :=
  match d with
  | S754_zero _ => Some 0
  | S754_finite false m e =>
      let n := Z.shiftl (Z.pos m) e in
      if (n <? 2 ^ 32 - 1) || ((n =? 2 ^ 32 - 1) && (Z.pos m =? Z.shiftl n (- e))) then Some n else None
  | _ => None
  end.
Definition asUInt (v : json) : outcome Z :=
  match v with
  | JNull => Ok 0
  | JInt n => if n <? 0 then Fault UncaughtException else Ok n
  | JReal d => match real_to_UInt d with Some n => Ok n | None => Fault UncaughtException end
  | JBool b => Ok (if b then 1 else 0)
  | _ => Fault UncaughtException
  end.

(** a string of the library is a C string: it ends at the first NUL *)
Fixpoint c_bytes (l : list Z) : list Z :=
  match l with
  | [] => []
  | c :: l => if c =? 0 then [] else c :: c_bytes l
  end.
Lemma c_bytes_no_nul l : Forall (fun c => c <> 0) l -> c_bytes l = l.
Proof. induction 1 as [|c l Hc _ IH]; [done|]. cbn. apply Z.eqb_neq in Hc as ->. by rewrite IH. Qed.

(** ** Values a text can carry: integers in some range, strings without NUL,
    members in order, no doubles *)
Section Printable.
Context (ok : Z -> Prop).
Fixpoint printable (v : json) : Prop :=
  match v with
  | JNull | JBool _ => True
  | JInt n => ok n
  | JString s => ~ In 0 (bytes_of_string s)
  | JArray l => (fix each l := match l with [] => True | v :: l => printable v /\ each l end) l
  | JObject l => SMap.sorted l /\
      (fix each l := match l with [] => True | p :: l => ~ In 0 (bytes_of_string p.1) /\ printable p.2 /\ each l end) l
  | JReal _ => False
  end.
Lemma printable_array l : printable (JArray l) <-> Forall printable l.
Proof using.
  cbn. induction l as [|v l IH]; [split; intros; [apply List.Forall_nil|done]|]. by rewrite Forall_cons, IH.
Qed.
Lemma printable_object l : printable (JObject l) <->
  SMap.sorted l /\ Forall (fun p => ~ In 0 (bytes_of_string p.1) /\ printable p.2) l.
Proof using.
  cbn. apply and_iff_compat_l. induction l as [|[k v] l IH]; [split; intros; [apply List.Forall_nil|done]|].
  rewrite Forall_cons, IH. cbn. tauto.
Qed.
End Printable.
Lemma printable_weaken (ok ok' : Z -> Prop) v : (forall n, ok n -> ok' n) -> printable ok v -> printable ok' v.
Proof.
  intros Hok. induction v as [|n|b|s|l IH|l IH|d] using json_forall; try done; [apply Hok| |].
  - rewrite !printable_array, !Forall_forall in *. auto.
  - rewrite !printable_object, !Forall_forall in *. intros [Hs Hl]. split; [done|]. intros p Hp. destruct (Hl p Hp). auto.
Qed.
(** integers the writers print, and those the reader keeps as integers *)
Definition writable : json -> Prop := printable (fun n => - 10 ^ 32 < n < 10 ^ 32).
Definition plain : json -> Prop := printable (fun n => - 2147483640 < n < 4294967290).
Lemma plain_writable v : plain v -> writable v.
Proof. apply printable_weaken. lia. Qed.
Lemma writable_array l : writable (JArray l) <-> Forall writable l.
Proof. apply printable_array. Qed.
Lemma writable_object l : writable (JObject l) <->
  SMap.sorted l /\ Forall (fun p => ~ In 0 (bytes_of_string p.1) /\ writable p.2) l.
Proof. apply printable_object. Qed.
Lemma plain_array l : plain (JArray l) <-> Forall plain l.
Proof. apply printable_array. Qed.
Lemma plain_object l : plain (JObject l) <->
  SMap.sorted l /\ Forall (fun p => ~ In 0 (bytes_of_string p.1) /\ plain p.2) l.
Proof. apply printable_object. Qed.

(** ** A value with its integers seen as something else *)
Section View.
Context (f : Z -> json).
Fixpoint view (v : json) : json :=
  match v with
  | JInt n => f n
  | JArray l => JArray (map view l)
  | JObject l => JObject (map (fun p => (p.1, view p.2)) l)
  | _ => v
  end.
Definition view_members (l : list (string * json)) : list (string * json) := map (fun p => (p.1, view p.2)) l.
Lemma sorted_view l : SMap.sorted l -> SMap.sorted (view_members l).
Proof using.
  induction l as [|[k v] l IH]; [done|]. cbn. intros [Ha Hs]. split; [|auto].
  clear - Ha. induction l as [|[k' v'] l IH]; [apply List.Forall_nil|]. unfold SMap.above in *. apply Forall_cons in Ha as [H1 Ha].
  apply List.Forall_cons; [done|auto].
Qed.
End View.
Lemma view_id v : view JInt v = v.
Proof.
  induction v as [|n|b|s|l IH|l IH|d] using json_forall; try done.
  - cbn. f_equal. induction IH as [|v l E _ IH]; [done|]. cbn. by rewrite E, IH.
  - cbn. f_equal. induction IH as [|[k v] l E _ IH]; [done|]. cbn in *. by rewrite E, IH.
Qed.

(** ** Plain values, part by part *)
Lemma plain_string s : no_nul s -> plain (JString s).
Proof. by intros Hs%no_nul_In. Qed.
Lemma plain_int n : - 2147483640 < n < 4294967290 -> plain (JInt n).
Proof. done. Qed.
Lemma plain_members l : SMap.sorted l -> Forall (fun p => no_nul p.1 /\ plain p.2) l -> plain (JObject l).
Proof.
  intros Hs Hl. apply plain_object. split; [done|]. eapply Forall_impl; [exact Hl|]. intros p [H1%no_nul_In H2]. done.
Qed.
(** a concrete value, down to its strings and integers *)
Ltac plain_json :=
  repeat lazymatch goal with
    | |- plain (JObject _) => apply plain_members; [by repeat constructor|]
    | |- plain (JArray _) => apply plain_array
    | |- plain (JString _) => apply plain_string
    | |- plain (JInt _) => apply plain_int
    | |- List.Forall _ (_ :: _) => apply List.Forall_cons
    | |- List.Forall _ [] => apply List.Forall_nil
    | |- no_nul (_, _).1 => cbn [fst]
    | |- plain (_, _).2 => cbn [snd]
    | |- no_nul _ /\ plain _ => split
    end.
