(* ===== verification/JsonValue.v ===== *)
(** * The values of jsoncpp as they are stored (src/src/jsoncpp/json_value.cpp)

    [Value] with all of its types and operations: two types of integers, strings that
    may be null pointers, and arrays and objects as maps in the order of their keys,
    where an array has only the elements that were assigned.  [Json] is what the
    program sees of it.  The key of an element is its index as an int.  An element
    that an operator gives a reference to is read and written by the computation that
    the operator is given. *)

From Stdlib Require Import ZArith Lia Bool Ascii String SpecFloat.
From stdpp Require Import base list strings.
From S2P Require Import Prelude StdMap Json.
Set Default Goal Selector "!".
Local Open Scope Z_scope.
Local Open Scope drive_scope.

(** ** [std::map] by the order of its keys *)
Module OMap.
Section OMap.
Context {K V : Type} (ltb : K -> K -> bool).
Fixpoint find (k : K) (m : list (K * V)) : option V :=
  match m with
  | [] => None
  | (k', v) :: m => if ltb k' k then find k m else if ltb k k' then None else Some v
  end.
(** the element of a key, inserted as [d] where there is none, given to [f] *)
Fixpoint at_key {A} (d : V) (k : K) (f : M V A) (m : list (K * V)) : outcome (A * list (K * V)) :=
  match m with
  | [] => obind (f d) (fun '(a, v) => Ok (a, [(k, v)]))
  | (k', v') :: rest =>
      if ltb k' k then obind (at_key d k f rest) (fun '(a, rest) => Ok (a, (k', v') :: rest))
      else if ltb k k' then obind (f d) (fun '(a, v) => Ok (a, (k, v) :: m))
      else obind (f v') (fun '(a, v) => Ok (a, (k', v) :: rest))
  end.
Fixpoint erase (k : K) (m : list (K * V)) : list (K * V) :=
  match m with
  | [] => []
  | (k', v) :: rest => if ltb k' k then (k', v) :: erase k rest else if ltb k k' then m else rest
  end.
End OMap.
End OMap.

Inductive value :=
| nullValue
| intValue (n : Z)
| uintValue (n : Z)
| realValue (d : real)
| stringValue (s : option string)
| booleanValue (b : bool)
| arrayValue (map_ : list (Z * value))
| objectValue (map_ : list (string * value)).
(** the enumeration ValueType *)
Inductive ValueType := TNull | TInt | TUInt | TReal | TString | TBoolean | TArray | TObject.
#[export] Instance ValueType_eq_dec : EqDecision ValueType.
Proof. solve_decision. Defined.
Definition type_number (t : ValueType) : Z :=
  match t with
  | TNull => 0 | TInt => 1 | TUInt => 2 | TReal => 3 | TString => 4 | TBoolean => 5 | TArray => 6 | TObject => 7
  end.
Definition type (v : value) : ValueType :=
  match v with
  | nullValue => TNull | intValue _ => TInt | uintValue _ => TUInt | realValue _ => TReal | stringValue _ => TString
  | booleanValue _ => TBoolean | arrayValue _ => TArray | objectValue _ => TObject
  end.
(** Value(ValueType) *)
Definition of_type (t : ValueType) : value :=
  match t with
  | TNull => nullValue | TInt => intValue 0 | TUInt => uintValue 0 | TReal => realValue (S754_zero false)
  | TString => stringValue None | TBoolean => booleanValue false | TArray => arrayValue [] | TObject => objectValue []
  end.
Definition minInt : Z := - 2 ^ 31.
Definition maxInt : Z := 2 ^ 31 - 1.
Definition maxUInt : Z := 2 ^ 32 - 1.

(** ** Types *)
Definition isNull (v : value) : bool := bool_decide (type v = TNull).
Definition isBool (v : value) : bool := bool_decide (type v = TBoolean).
Definition isInt (v : value) : bool := bool_decide (type v = TInt).
Definition isUInt (v : value) : bool := bool_decide (type v = TUInt).
Definition isIntegral (v : value) : bool := isInt v || isUInt v || isBool v.
Definition isDouble (v : value) : bool := bool_decide (type v = TReal).
Definition isNumeric (v : value) : bool := isIntegral v || isDouble v.
Definition isString (v : value) : bool := bool_decide (type v = TString).
Definition isArray (v : value) : bool := isNull v || bool_decide (type v = TArray).
Definition isObject (v : value) : bool := isNull v || bool_decide (type v = TObject).

(** ** Conversions *)
(** a double without its fraction, when the double is not above [limit] *)
Definition truncated (limit : Z) (m : positive) (e : Z) : option Z :=
  let n := Z.shiftl (Z.pos m) e in
  if (n <? limit) || ((n =? limit) && (Z.pos m =? Z.shiftl n (- e))) then Some n else None.
Definition real_to_Int (d : real) : option Z :=
  match d with
  | S754_zero _ => Some 0
  | S754_finite false m e => truncated maxInt m e
  | S754_finite true m e => option_map Z.opp (truncated (- minInt) m e)
  | _ => None
  end.
Definition asCString (v : value) : outcome (option string) :=
  match v with stringValue s => Ok s | _ => Fault AssertFailed end.
Definition asString (v : value) : outcome string :=
  match v with
  | nullValue => Ok EmptyString
  | stringValue s => Ok (default EmptyString s)
  | booleanValue b => Ok (if b then "true" else "false")%string
  | _ => Fault UncaughtException
  end.
Definition asInt (v : value) : outcome Z :=
  match v with
  | nullValue => Ok 0
  | intValue n => Ok n
  | uintValue n => if n <? maxInt then Ok n else Fault UncaughtException
  | realValue d => match real_to_Int d with Some n => Ok n | None => Fault UncaughtException end
  | booleanValue b => Ok (if b then 1 else 0)
  | _ => Fault UncaughtException
  end.
Definition asUInt (v : value) : outcome Z :=
  match v with
  | nullValue => Ok 0
  | intValue n => if 0 <=? n then Ok n else Fault UncaughtException
  | uintValue n => Ok n
  | realValue d => match real_to_UInt d with Some n => Ok n | None => Fault UncaughtException end
  | booleanValue b => Ok (if b then 1 else 0)
  | _ => Fault UncaughtException
  end.
Definition real_of_Z (n : Z) : real := binary_normalize 53 1024 n 0 false.
Definition asDouble (v : value) : outcome real :=
  match v with
  | nullValue => Ok (S754_zero false)
  | intValue n | uintValue n => Ok (real_of_Z n)
  | realValue d => Ok d
  | booleanValue b => Ok (real_of_Z (if b then 1 else 0))
  | _ => Fault UncaughtException
  end.
Definition real_is_zero (d : real) : bool := match d with S754_zero _ => true | _ => false end.
Definition empty_string (s : option string) : bool := match s with None | Some EmptyString => true | _ => false end.
Definition asBool (v : value) : bool :=
  match v with
  | nullValue => false
  | intValue n | uintValue n => negb (n =? 0)
  | realValue d => negb (real_is_zero d)
  | booleanValue b => b
  | stringValue s => negb (empty_string s)
  | arrayValue m => match m with [] => false | _ => true end
  | objectValue m => match m with [] => false | _ => true end
  end.
Definition isConvertibleTo (v : value) (other : ValueType) : bool :=
  match v with
  | nullValue => true
  | intValue n =>
      match other with TNull => n =? 0 | TUInt => 0 <=? n | TInt | TReal | TString | TBoolean => true | _ => false end
  | uintValue n =>
      match other with TNull => n =? 0 | TInt => n <=? maxInt | TUInt | TReal | TString | TBoolean => true | _ => false end
  | realValue d =>
      match other with
      | TNull => real_is_zero d
      | TInt => match real_to_Int d with Some _ => true | None => false end
      | TUInt => match real_to_UInt d with Some _ => true | None => false end
      | TReal | TString | TBoolean => true
      | _ => false
      end
  | booleanValue b => match other with TNull => negb b | TInt | TUInt | TReal | TString | TBoolean => true | _ => false end
  | stringValue s => match other with TString => true | TNull => empty_string s | _ => false end
  | arrayValue m => match other with TArray => true | TNull => match m with [] => true | _ => false end | _ => false end
  | objectValue m => match other with TObject => true | TNull => match m with [] => true | _ => false end | _ => false end
  end.

(** ** Arrays and objects *)
(** CZString(Int) of an index *)
Definition CZString (index : Z) : Z := to_signed 4 index.
(** the highest index and one, as an unsigned integer; the number of members *)
Definition size (v : value) : outcome Z :=
  match v with
  | arrayValue m =>
      match last m with
      | None => Ok 0
      | Some (index, _) => if index =? maxInt then Fault IntegerOverflow else Ok (u32 (index + 1))
      end
  | objectValue m => Ok (u32 (to_signed 4 (zlen m)))
  | _ => Ok 0
  end.
Definition empty (v : value) : outcome bool :=
  if isNull v || isArray v || isObject v then obind (size v) (fun n => Ok (n =? 0)) else Ok false.
Definition isValidIndex (index : Z) (v : value) : outcome bool := obind (size v) (fun n => Ok (index <? n)).
(** [operator\[\]] on a constant value: None is [&null] *)
Definition at_index (index : Z) (v : value) : outcome (option value) :=
  match v with
  | nullValue => Ok None
  | arrayValue m => Ok (OMap.find Z.ltb (CZString index) m)
  | _ => Fault AssertFailed
  end.
Definition at_member (key : string) (v : value) : outcome (option value) :=
  match v with
  | nullValue => Ok None
  | objectValue m => Ok (OMap.find str_ltb key m)
  | _ => Fault AssertFailed
  end.
(** [operator\[\]] with the reference that it gives *)
Definition ref_index {A} (index : Z) (f : M value A) : M value A := fun v =>
  let go m := obind (OMap.at_key Z.ltb nullValue (CZString index) f m) (fun '(a, m) => Ok (a, arrayValue m)) in
  match v with
  | nullValue => go []
  | arrayValue m => go m
  | _ => Fault AssertFailed
  end.
Definition ref_member {A} (key : string) (f : M value A) : M value A := fun v =>
  let go m := obind (OMap.at_key str_ltb nullValue key f m) (fun '(a, m) => Ok (a, objectValue m)) in
  match v with
  | nullValue => go []
  | objectValue m => go m
  | _ => Fault AssertFailed
  end.
Definition get_index (index : Z) (defaultValue : value) (v : value) : outcome value :=
  obind (at_index index v) (fun r => Ok (default defaultValue r)).
Definition get_member (key : string) (defaultValue : value) (v : value) : outcome value :=
  obind (at_member key v) (fun r => Ok (default defaultValue r)).
Definition isMember (key : string) (v : value) : outcome bool :=
  obind (at_member key v) (fun r => Ok (match r with Some _ => true | None => false end)).
Definition append (x : value) : M value unit := fun v => obind (size v) (fun n => ref_index n (put x) v).
Definition removeMember (key : string) : M value value := fun v =>
  match v with
  | nullValue => Ok (nullValue, v)
  | objectValue m =>
      match OMap.find str_ltb key m with
      | None => Ok (nullValue, v)
      | Some old => Ok (old, objectValue (OMap.erase str_ltb key m))
      end
  | _ => Fault AssertFailed
  end.
Definition getMemberNames (v : value) : outcome (list string) :=
  match v with
  | nullValue => Ok []
  | objectValue m => Ok (map fst m)
  | _ => Fault AssertFailed
  end.
Definition clear : M value unit := fun v =>
  match v with
  | nullValue => Ok (tt, v)
  | arrayValue _ => Ok (tt, arrayValue [])
  | objectValue _ => Ok (tt, objectValue [])
  | _ => Fault AssertFailed
  end.
(** the loop of resize, over the indices that go *)
Fixpoint erase_indices (indices : list Z) (m : list (Z * value)) : list (Z * value) :=
  match indices with
  | [] => m
  | index :: indices => erase_indices indices (OMap.erase Z.ltb (CZString index) m)
  end.
Definition resize (newSize : Z) : M value unit := fun v =>
  match v with
  | nullValue | arrayValue _ =>
      let v := match v with nullValue => arrayValue [] | _ => v end in
      obind (size v) (fun oldSize =>
      if newSize =? 0 then clear v
      else if oldSize <? newSize then ref_index (newSize - 1) (ret tt) v
      else
        let v := match v with arrayValue m => arrayValue (erase_indices (seqZ newSize (oldSize - newSize)) m) | _ => v end in
        obind (size v) (fun n => if n =? newSize then Ok (tt, v) else Fault AssertFailed))
  | _ => Fault AssertFailed
  end.

(** ** Iterators *)
(** what an iterator from begin() to end() points at: its key and its value *)
Inductive entry := index_entry (index : Z) (v : value) | name_entry (name : string) (v : value).
Definition entries (v : value) : list entry :=
  match v with
  | arrayValue m => map (fun p => index_entry p.1 p.2) m
  | objectValue m => map (fun p => name_entry p.1 p.2) m
  | _ => []
  end.
Definition deref (e : entry) : value := match e with index_entry _ v | name_entry _ v => v end.
Definition entry_key (e : entry) : value := match e with index_entry i _ => intValue i | name_entry n _ => stringValue (Some n) end.
Definition entry_index (e : entry) : Z := match e with index_entry i _ => u32 i | name_entry _ _ => u32 (-1) end.
Definition entry_memberName (e : entry) : string := match e with index_entry _ _ => EmptyString | name_entry n _ => n end.

(** ** Comparisons *)
(** the operators of pairs, and of maps as the sequences of their pairs *)
Section MapOrder.
Context {K V : Type} (kltb keqb : K -> K -> bool) (vltb veqb : V -> V -> bool).
Definition pair_ltb (a b : K * V) : bool := kltb a.1 b.1 || (negb (kltb b.1 a.1) && vltb a.2 b.2).
Fixpoint map_eqb (a b : list (K * V)) : bool :=
  match a, b with
  | [], [] => true
  | (k, v) :: a, (k', v') :: b => keqb k k' && veqb v v' && map_eqb a b
  | _, _ => false
  end.
End MapOrder.
Fixpoint map_ltb {P : Type} (pltb : P -> P -> bool) (a b : list P) : bool :=
  match a, b with
  | _, [] => false
  | [], _ :: _ => true
  | p :: a, q :: b => pltb p q || (negb (pltb q p) && map_ltb pltb a b)
  end.
Definition real_ltb (a b : real) : bool := SFltb a b.
Definition real_eqb (a b : real) : bool := SFeqb a b.
Definition string_ltb (a b : option string) : bool :=
  match a, b with
  | None, Some _ => true
  | Some a, Some b => str_ltb a b
  | _, _ => false
  end.
Definition string_eqb (a b : option string) : bool :=
  match a, b with
  | None, None => true
  | Some a, Some b => String.eqb a b
  | _, _ => false
  end.
(** [int(a.size() - b.size())], of two 64-bit sizes *)
Definition size_delta {A} (a b : list A) : Z := to_signed 4 (u64 (zlen a - zlen b)).
(** operator< on values that are nested at most [n] deep *)
Fixpoint less (n : nat) (a b : value) : bool :=
  let typeDelta := type_number (type a) - type_number (type b) in
  if negb (typeDelta =? 0) then typeDelta <? 0 else
  match a, b with
  | intValue a, intValue b => a <? b
  | uintValue a, uintValue b => a <? b
  | realValue a, realValue b => real_ltb a b
  | booleanValue a, booleanValue b => negb a && b
  | stringValue a, stringValue b => string_ltb a b
  | arrayValue a, arrayValue b =>
      let delta := size_delta a b in
      if negb (delta =? 0) then delta <? 0
      else match n with O => false | S n => map_ltb (pair_ltb Z.ltb (less n)) a b end
  | objectValue a, objectValue b =>
      let delta := size_delta a b in
      if negb (delta =? 0) then delta <? 0
      else match n with O => false | S n => map_ltb (pair_ltb str_ltb (less n)) a b end
  | _, _ => false
  end.
Fixpoint height (v : value) : nat :=
  match v with
  | arrayValue m => S ((fix highest m := match m with [] => O | (_, v) :: m => Nat.max (height v) (highest m) end) m)
  | objectValue m => S ((fix highest m := match m with [] => O | (_, v) :: m => Nat.max (height v) (highest m) end) m)
  | _ => O
  end.
Definition value_ltb (a b : value) : bool := less (Nat.max (height a) (height b)) a b.
Definition value_gtb (a b : value) : bool := value_ltb b a.
Definition value_leb (a b : value) : bool := negb (value_gtb a b).
Definition value_geb (a b : value) : bool := negb (value_ltb a b).
Fixpoint value_eqb (a b : value) : bool :=
  match a, b with
  | nullValue, nullValue => true
  | intValue a, intValue b => a =? b
  | uintValue a, uintValue b => a =? b
  | realValue a, realValue b => real_eqb a b
  | booleanValue a, booleanValue b => Bool.eqb a b
  | stringValue a, stringValue b => string_eqb a b
  | arrayValue a, arrayValue b => (zlen a =? zlen b) && map_eqb Z.eqb value_eqb a b
  | objectValue a, objectValue b => (zlen a =? zlen b) && map_eqb String.eqb value_eqb a b
  | _, _ => false
  end.
Definition value_neqb (a b : value) : bool := negb (value_eqb a b).
(** Value::compare *)
Definition compare (a b : value) : Z := 0.
