(* ===== verification/JsonOrder.v ===== *)
(** * The order of values (src/src/jsoncpp/json_value.cpp)

    operator< and operator== are a strict weak order and its equivalence on values
    without NaN whose arrays and objects have fewer than 2^31 elements.  The laws are
    put together from those of keys and scalars, through pairs and sequences. *)

From Stdlib Require Import ZArith Lia Bool Ascii String SpecFloat.
From stdpp Require Import base list strings.
From S2P Require Import Prelude StdMap Json JsonValue.
Set Default Goal Selector "!".
Local Open Scope Z_scope.
Local Open Scope drive_scope.

(** ** Strict weak orders on a domain *)
Record WeakOrder {A} (D : A -> Prop) (lt eq : A -> A -> bool) : Prop := {
  wo_refl a : D a -> eq a a = true;
  wo_sym a b : D a -> D b -> eq a b = eq b a;
  wo_tri a b : D a -> D b -> lt a b = true /\ eq a b = false /\ lt b a = false \/
    lt a b = false /\ eq a b = true /\ lt b a = false \/ lt a b = false /\ eq a b = false /\ lt b a = true;
  wo_trans a b c : D a -> D b -> D c -> lt a b = true -> lt b c = true -> lt a c = true;
  wo_eq_trans a b c : D a -> D b -> D c -> eq a b = true -> eq b c = true -> eq a c = true
}.
Section Laws.
Context {A : Type} {D : A -> Prop} {lt eq : A -> A -> bool} (W : WeakOrder D lt eq).
Lemma wo_eq_lt a b c : D a -> D b -> D c -> eq a b = true -> lt b c = true -> lt a c = true.
Proof using W.
  intros Ha Hb Hc E L. destruct (wo_tri _ _ _ W a c Ha Hc) as [(H1 & _)|[(_ & H2 & _)|(_ & _ & H3)]]; [done| |].
  - rewrite (wo_sym _ _ _ W) in E by done. pose proof (wo_eq_trans _ _ _ W b a c Hb Ha Hc E H2) as E2.
    destruct (wo_tri _ _ _ W b c Hb Hc) as [(_ & H4 & _)|[(H4 & _)|(H4 & _)]]; congruence.
  - pose proof (wo_trans _ _ _ W b c a Hb Hc Ha L H3) as L2.
    destruct (wo_tri _ _ _ W a b Ha Hb) as [(_ & _ & H4)|[(_ & _ & H4)|(_ & H4 & _)]]; congruence.
Qed.
Lemma wo_lt_eq a b c : D a -> D b -> D c -> lt a b = true -> eq b c = true -> lt a c = true.
Proof using W.
  intros Ha Hb Hc L E. destruct (wo_tri _ _ _ W a c Ha Hc) as [(H1 & _)|[(_ & H2 & _)|(_ & _ & H3)]]; [done| |].
  - rewrite (wo_sym _ _ _ W) in E by done. pose proof (wo_eq_trans _ _ _ W a c b Ha Hc Hb H2 E) as E2.
    destruct (wo_tri _ _ _ W a b Ha Hb) as [(_ & H4 & _)|[(H4 & _)|(H4 & _)]]; congruence.
  - pose proof (wo_trans _ _ _ W c a b Hc Ha Hb H3 L) as L2.
    destruct (wo_tri _ _ _ W b c Hb Hc) as [(_ & _ & H4)|[(_ & _ & H4)|(_ & H4 & _)]]; congruence.
Qed.
(** when neither is less they are equivalent *)
Lemma wo_eqb a b : D a -> D b -> eq a b = negb (lt a b) && negb (lt b a).
Proof using W. intros Ha Hb. destruct (wo_tri _ _ _ W a b Ha Hb) as [(-> & -> & ->)|[(-> & -> & ->)|(-> & -> & ->)]]; done. Qed.
End Laws.
Lemma wo_key {A B} (f : A -> B) (D : A -> Prop) (E : B -> Prop) lt eq lt' eq' : WeakOrder E lt' eq' -> (forall a, D a -> E (f a)) ->
  (forall a b, D a -> D b -> lt a b = lt' (f a) (f b)) -> (forall a b, D a -> D b -> eq a b = eq' (f a) (f b)) -> WeakOrder D lt eq.
Proof.
  intros W Hf Hl He. split.
  - intros a Ha. rewrite He by done. apply W; auto.
  - intros a b Ha Hb. rewrite !He by done. apply W; auto.
  - intros a b Ha Hb. rewrite !Hl, He by done. apply W; auto.
  - intros a b c Ha Hb Hc. rewrite !Hl by done. apply W; auto.
  - intros a b c Ha Hb Hc. rewrite !He by done. apply W; auto.
Qed.

(** ** Keys *)
Lemma wo_Z : WeakOrder (fun _ => True) Z.ltb Z.eqb.
Proof. split; intros; rewrite ?Z.eqb_refl, ?(Z.eqb_sym a b); zbool; lia. Qed.
Lemma wo_string : WeakOrder (fun _ => True) str_ltb String.eqb.
Proof.
  split.
  - intros a _. apply String.eqb_refl.
  - intros a b _ _. apply String.eqb_sym.
  - intros a b _ _. destruct (String.eqb_spec a b) as [->|Hne]; [by rewrite str_ltb_irrefl; right; left|].
    destruct (str_ltb a b) eqn:E1; destruct (str_ltb b a) eqn:E2; [|by left|by right; right|].
    + pose proof (str_ltb_trans a b a E1 E2) as E. by rewrite str_ltb_irrefl in E.
    + by rewrite (str_ltb_total a b E1 Hne) in E2.
  - intros a b c _ _ _. apply str_ltb_trans.
  - intros a b c _ _ _ E1%String.eqb_eq E2%String.eqb_eq. subst. apply String.eqb_refl.
Qed.
Lemma wo_bool : WeakOrder (fun _ => True) (fun a b => negb a && b) Bool.eqb.
Proof.
  split; [by intros []|by intros [] []|..]; [|by intros [] [] []..]. intros [] [] _ _; cbn; tauto.
Qed.
Section Options.
Context {A : Type} {D : A -> Prop} {lt eq : A -> A -> bool} (W : WeakOrder D lt eq).
(** None first *)
Definition option_ltb (a b : option A) : bool :=
  match a, b with None, Some _ => true | Some a, Some b => lt a b | _, None => false end.
Definition option_eqb (a b : option A) : bool :=
  match a, b with None, None => true | Some a, Some b => eq a b | _, _ => false end.
Lemma wo_option : WeakOrder (fun o => match o with Some a => D a | None => True end) option_ltb option_eqb.
Proof using W.
  destruct W as [Hr Hs Ht Htr He]. split.
  - intros [a|] Ha; [by apply Hr|done].
  - intros [a|] [b|] Ha Hb; [by apply Hs|done..].
  - intros [a|] [b|] Ha Hb; cbn; [by apply Ht|tauto..].
  - intros [a|] [b|] [c|] Ha Hb Hc; cbn; [by apply Htr|done..].
  - intros [a|] [b|] [c|] Ha Hb Hc; cbn; [by apply He|done..].
Qed.
End Options.
Lemma wo_option_string : WeakOrder (fun _ => True) string_ltb string_eqb.
Proof. apply (wo_key (fun o => o) _ _ _ _ _ _ (wo_option wo_string)); by intros []; try intros []. Qed.

(** ** Pairs and sequences *)
Section Pairs.
Context {K V : Type} {DK : K -> Prop} {DV : V -> Prop} {kl ke : K -> K -> bool} {vl ve : V -> V -> bool}.
Context (WK : WeakOrder DK kl ke) (WV : WeakOrder DV vl ve).
Definition pair_eqb (a b : K * V) : bool := ke a.1 b.1 && ve a.2 b.2.
Lemma wo_pair : WeakOrder (fun p => DK p.1 /\ DV p.2) (pair_ltb kl vl) pair_eqb.
Proof using WK WV.
  assert (forall a b, DK a -> DK b -> kl a b = false -> kl b a = false -> ke a b = true) as Hk.
  { intros a b Ha Hb E1 E2. destruct (wo_tri _ _ _ WK a b Ha Hb) as [(?&?&?)|[(?&?&?)|(?&?&?)]]; congruence. }
  unfold pair_ltb, pair_eqb. split.
  - intros [k v] [Hk1 Hv]. cbn. by rewrite (wo_refl _ _ _ WK), (wo_refl _ _ _ WV).
  - intros [k v] [k' v'] [Hk1 Hv1] [Hk2 Hv2]. cbn in *. by rewrite (wo_sym _ _ _ WK k k'), (wo_sym _ _ _ WV v v').
  - intros [k v] [k' v'] [Hk1 Hv1] [Hk2 Hv2]. cbn in *.
    destruct (wo_tri _ _ _ WK k k' Hk1 Hk2) as [(-> & -> & ->)|[(-> & -> & ->)|(-> & -> & ->)]]; cbn; [tauto| |tauto].
    apply (wo_tri _ _ _ WV v v' Hv1 Hv2).
  - intros [k v] [k' v'] [k2 v2] [Hk1 Hv1] [Hk2 Hv2] [Hk3 Hv3]. cbn in *.
    destruct (wo_tri _ _ _ WK k k' Hk1 Hk2) as [(L1 & E1 & G1)|[(L1 & E1 & G1)|(L1 & E1 & G1)]]; rewrite L1, G1; cbn; [| |done].
    + intros _ H2. destruct (wo_tri _ _ _ WK k' k2 Hk2 Hk3) as [(L2 & E2 & G2)|[(L2 & E2 & G2)|(L2 & E2 & G2)]]; rewrite L2, G2 in H2; cbn in H2; [..|done].
      * by rewrite (wo_trans _ _ _ WK k k' k2).
      * by rewrite (wo_lt_eq WK k k' k2).
    + intros H1 H2. destruct (wo_tri _ _ _ WK k' k2 Hk2 Hk3) as [(L2 & E2 & G2)|[(L2 & E2 & G2)|(L2 & E2 & G2)]]; rewrite L2, G2 in H2; cbn in H2; [..|done].
      * by rewrite (wo_eq_lt WK k k' k2).
      * pose proof (wo_eq_trans _ _ _ WK k k' k2 Hk1 Hk2 Hk3 E1 E2) as E3.
        destruct (wo_tri _ _ _ WK k k2 Hk1 Hk3) as [(?&?&?)|[(-> & _ & ->)|(?&?&?)]]; [congruence| |congruence]. cbn.
        by apply (wo_trans _ _ _ WV v v' v2).
  - intros [k v] [k' v'] [k2 v2] [Hk1 Hv1] [Hk2 Hv2] [Hk3 Hv3]. cbn in *. rewrite !andb_true_iff. intros [? ?] [? ?].
    split; [by apply (wo_eq_trans _ _ _ WK k k' k2)|by apply (wo_eq_trans _ _ _ WV v v' v2)].
Qed.
End Pairs.
Section Sequences.
Context {P : Type} {D : P -> Prop} {lt eq : P -> P -> bool} (W : WeakOrder D lt eq).
Fixpoint seq_eqb (a b : list P) : bool :=
  match a, b with
  | [], [] => true
  | p :: a, q :: b => eq p q && seq_eqb a b
  | _, _ => false
  end.
(** a sequence as its first element and the rest *)
Definition uncons (l : list P) : option (P * list P) := match l with [] => None | p :: l => Some (p, l) end.
Lemma wo_bounded n : WeakOrder (fun l => Forall D l /\ (length l <= n)%nat) (map_ltb lt) seq_eqb.
Proof using W.
  induction n as [|n IH].
  - apply (wo_key (fun _ => O) _ (fun _ => True) _ _ (fun _ _ => false) (fun _ _ => true)); [split; auto; done|done|..];
      intros [|p a] [|q b] [_ Ha] [_ Hb]; cbn in *; done || lia.
  - apply (wo_key uncons _ _ _ _ _ _ (wo_option (wo_pair W IH))); [|by intros [|p a] [|q b]..].
    intros [|p a] [Ha Hl]; [done|]. apply Forall_cons in Ha as [Hp Ha]. cbn in *. split_and!; [done..|lia].
Qed.
Lemma wo_sequence : WeakOrder (Forall D) (map_ltb lt) seq_eqb.
Proof using W.
  split.
  - intros a Ha. by apply (wo_bounded (length a)).
  - intros a b Ha Hb. apply (wo_bounded (length a + length b)); split; (done || lia).
  - intros a b Ha Hb. apply (wo_bounded (length a + length b)); split; (done || lia).
  - intros a b c Ha Hb Hc. apply (wo_bounded (length a + length b + length c)); split; (done || lia).
  - intros a b c Ha Hb Hc. apply (wo_bounded (length a + length b + length c)); split; (done || lia).
Qed.
End Sequences.

(** ** Doubles that are numbers *)
Definition is_nan (d : real) : bool := match d with S754_nan => true | _ => false end.
Definition real_key (d : real) : Z * (Z * Z) :=
  match d with
  | S754_zero _ | S754_nan => (0, (0, 0))
  | S754_infinity s => (if s then -2 else 2, (0, 0))
  | S754_finite false m e => (1, (e, Z.pos m))
  | S754_finite true m e => (-1, (- e, Z.neg m))
  end.
Lemma real_compare a b : is_nan a = false -> is_nan b = false ->
  SFcompare a b = Some (match Z.compare (real_key a).1 (real_key b).1 with
    | Eq => match Z.compare (real_key a).2.1 (real_key b).2.1 with Eq => Z.compare (real_key a).2.2 (real_key b).2.2 | c => c end
    | c => c end).
Proof.
  destruct a as [s|s| |s m e], b as [s'|s'| |s' m' e']; try done; intros _ _; destruct s; try done; destruct s'; try done; cbn.
  - rewrite Z.compare_opp, (Z.compare_antisym e e'). by destruct (e ?= e').
Qed.
Lemma wo_real : WeakOrder (fun d => is_nan d = false) real_ltb real_eqb.
Proof.
  apply (wo_key real_key _ _ _ _ _ _ (wo_pair wo_Z (wo_pair wo_Z wo_Z))); [done|..]; intros a b Ha Hb;
    unfold real_ltb, real_eqb, SFltb, SFeqb, pair_ltb, pair_eqb; rewrite real_compare by done;
    destruct (Z.compare_spec (real_key a).1 (real_key b).1); try lia;
    destruct (Z.compare_spec (real_key a).2.1 (real_key b).2.1); try lia;
    destruct (Z.compare_spec (real_key a).2.2 (real_key b).2.2); lia.
Qed.

(** ** Values *)
Fixpoint comparable (v : value) : Prop :=
  match v with
  | realValue d => is_nan d = false
  | arrayValue m => zlen m < 2 ^ 31 /\ (fix each m := match m with [] => True | (_, v) :: m => comparable v /\ each m end) m
  | objectValue m => zlen m < 2 ^ 31 /\ (fix each m := match m with [] => True | (_, v) :: m => comparable v /\ each m end) m
  | _ => True
  end.
Lemma comparable_array m : comparable (arrayValue m) <-> zlen m < 2 ^ 31 /\ Forall (fun p => comparable p.2) m.
Proof.
  cbn. apply and_iff_compat_l. induction m as [|[k v] m IH]; [split; intros; [apply List.Forall_nil|done]|]. by rewrite Forall_cons, IH.
Qed.
Lemma comparable_object m : comparable (objectValue m) <-> zlen m < 2 ^ 31 /\ Forall (fun p => comparable p.2) m.
Proof.
  cbn. apply and_iff_compat_l. induction m as [|[k v] m IH]; [split; intros; [apply List.Forall_nil|done]|]. by rewrite Forall_cons, IH.
Qed.
Lemma height_array m n : (height (arrayValue m) <= S n)%nat <-> Forall (fun p => (height p.2 <= n)%nat) m.
Proof.
  cbn [height]. rewrite <- Nat.succ_le_mono. induction m as [|[k v] m IH]; [split; intros; [apply List.Forall_nil|lia]|].
  rewrite Forall_cons, <- IH. cbn [snd]. lia.
Qed.
Lemma height_object m n : (height (objectValue m) <= S n)%nat <-> Forall (fun p => (height p.2 <= n)%nat) m.
Proof.
  cbn [height]. rewrite <- Nat.succ_le_mono. induction m as [|[k v] m IH]; [split; intros; [apply List.Forall_nil|lia]|].
  rewrite Forall_cons, <- IH. cbn [snd]. lia.
Qed.
Lemma map_eqb_seq {K V} (ke : K -> K -> bool) (ve : V -> V -> bool) a : forall b, map_eqb ke ve a b = seq_eqb (eq := @pair_eqb K V ke ve) a b.
Proof. induction a as [|[k v] a IH]; intros [|[k' v'] b]; [done..|]. cbn. by rewrite IH. Qed.
Lemma size_delta_small {A} (a c : list A) : zlen a < 2 ^ 31 -> zlen c < 2 ^ 31 -> size_delta a c = zlen a - zlen c.
Proof.
  intros Ha Hc. pose proof (zlen_nonneg a). pose proof (zlen_nonneg c). unfold size_delta, to_signed, u64.
  change (2 ^ (8 * Z.of_nat 4)) with (2 ^ 32). change (2 ^ 32 / 2) with (2 ^ 31).
  assert (((zlen a - zlen c) mod 2 ^ 64) mod 2 ^ 32 = (zlen a - zlen c) mod 2 ^ 32) as ->.
  { rewrite (Z.mod_eq _ (2 ^ 64)) by lia. change (2 ^ 64) with (2 ^ 32 * 2 ^ 32).
    replace (zlen a - zlen c - 2 ^ 32 * 2 ^ 32 * ((zlen a - zlen c) / (2 ^ 32 * 2 ^ 32)))
      with (zlen a - zlen c + (- (2 ^ 32 * ((zlen a - zlen c) / (2 ^ 32 * 2 ^ 32)))) * 2 ^ 32) by lia. by rewrite Z.mod_add. }
  destruct (Z.leb_spec 0 (zlen a - zlen c)).
  - rewrite Z.mod_small by lia. destruct (Z.ltb_spec (zlen a - zlen c) (2 ^ 31)); lia.
  - rewrite <- (Z.mod_add _ 1) by lia. rewrite Z.mod_small by lia. destruct (Z.ltb_spec (zlen a - zlen c + 1 * 2 ^ 32) (2 ^ 31)); lia.
Qed.

(** what a value is compared by: its type, then its number or its size, then the rest *)
Definition sort_key (v : value) : Z * (Z * (real * (option string * (list (Z * value) * list (string * value))))) :=
  let zero := S754_zero false in
  (type_number (type v),
  match v with
  | nullValue => (0, (zero, (None, ([], []))))
  | intValue n | uintValue n => (n, (zero, (None, ([], []))))
  | realValue d => (0, (d, (None, ([], []))))
  | stringValue s => (0, (zero, (s, ([], []))))
  | booleanValue b => (if b then 1 else 0, (zero, (None, ([], []))))
  | arrayValue m => (zlen m, (zero, (None, (m, []))))
  | objectValue m => (zlen m, (zero, (None, ([], m))))
  end).
Definition below (n : nat) (v : value) : Prop := comparable v /\ (height v <= n)%nat.
Definition key_ltb (l : value -> value -> bool) (a b : value) : bool :=
  pair_ltb Z.ltb (pair_ltb Z.ltb (pair_ltb real_ltb (pair_ltb string_ltb
    (pair_ltb (map_ltb (pair_ltb Z.ltb l)) (map_ltb (pair_ltb str_ltb l)))))) (sort_key a) (sort_key b).
Definition key_eqb (a b : value) : bool :=
  pair_eqb (ke := Z.eqb) (ve := pair_eqb (ke := Z.eqb) (ve := pair_eqb (ke := real_eqb) (ve := pair_eqb (ke := string_eqb)
    (ve := pair_eqb (ke := seq_eqb (eq := pair_eqb (ke := Z.eqb) (ve := value_eqb)))
      (ve := seq_eqb (eq := pair_eqb (ke := String.eqb) (ve := value_eqb))))))) (sort_key a) (sort_key b).
Lemma eqb_key a b : value_eqb a b = key_eqb a b.
Proof.
  unfold key_eqb, pair_eqb. destruct a as [|x|x|x|x|x|x|x], b as [|y|y|y|y|y|y|y]; try reflexivity; cbn [sort_key fst snd value_eqb type type_number];
    rewrite ?Z.eqb_refl; cbn; rewrite ?andb_true_r; try done.
  - by destruct x, y.
  - by rewrite map_eqb_seq.
  - by rewrite map_eqb_seq.
Qed.
Lemma less_key n l a b : below n a -> below n b -> (forall n', n = S n' -> l = less n') -> less n a b = key_ltb l a b.
Proof.
  intros [Ca Ha] [Cb Hb] Hl. unfold key_ltb, pair_ltb.
  destruct a as [|x|x|x|x|x|x|x], b as [|y|y|y|y|y|y|y]; try (destruct n; reflexivity).
  - destruct n; cbn; by rewrite ?andb_false_r, ?orb_false_r.
  - destruct n; cbn; by rewrite ?andb_false_r, ?orb_false_r.
  - destruct n; cbn; by rewrite ?andb_false_r, ?orb_false_r.
  - destruct n; cbn; by rewrite ?andb_false_r, ?orb_false_r.
  - destruct n, x, y; reflexivity.
  - destruct n as [|n]; [cbn in Ha; lia|]. rewrite (Hl n eq_refl). apply comparable_array in Ca as [Ca _], Cb as [Cb _].
    cbn [less type type_number sort_key fst snd]. rewrite size_delta_small by done. change (negb (6 - 6 =? 0)) with false. cbv iota.
    rewrite Z.ltb_irrefl. cbn [negb andb orb]. change (real_ltb (S754_zero false) (S754_zero false)) with false. cbn [string_ltb negb andb orb map_ltb].
    destruct (Z.eqb_spec (zlen x - zlen y) 0); cbn [negb]; [|destruct (Z.ltb_spec (zlen x) (zlen y)), (Z.ltb_spec (zlen y) (zlen x)); cbn; lia].
    assert (zlen x = zlen y) as -> by lia. rewrite Z.ltb_irrefl. cbn. by rewrite andb_false_r, orb_false_r.
  - destruct n as [|n]; [cbn in Ha; lia|]. rewrite (Hl n eq_refl). apply comparable_object in Ca as [Ca _], Cb as [Cb _].
    cbn [less type type_number sort_key fst snd]. rewrite size_delta_small by done. change (negb (7 - 7 =? 0)) with false. cbv iota.
    rewrite Z.ltb_irrefl. cbn [negb andb orb]. change (real_ltb (S754_zero false) (S754_zero false)) with false. cbn [string_ltb negb andb orb map_ltb].
    destruct (Z.eqb_spec (zlen x - zlen y) 0); cbn [negb]; [|destruct (Z.ltb_spec (zlen x) (zlen y)), (Z.ltb_spec (zlen y) (zlen x)); cbn; lia].
    assert (zlen x = zlen y) as -> by lia. rewrite Z.ltb_irrefl. by cbn.
Qed.
Lemma wo_level n (C : value -> Prop) l : WeakOrder C l value_eqb -> (forall n', n = S n' -> l = less n' /\ forall v, below n' v -> C v) ->
  WeakOrder (below n) (less n) value_eqb.
Proof.
  intros W Hl.
  refine (wo_key sort_key _ _ _ _ _ _ (wo_pair wo_Z (wo_pair wo_Z (wo_pair wo_real (wo_pair wo_option_string
    (wo_pair (wo_sequence (wo_pair wo_Z W)) (wo_sequence (wo_pair wo_string W))))))) _ _ _).
  - assert (forall K (m : list (K * value)) n', n = S n' -> Forall (fun p => comparable p.2) m -> Forall (fun p => (height p.2 <= n')%nat) m ->
      Forall (fun p : K * value => True /\ C p.2) m) as Hc.
    { intros K m n' En H1 H2. destruct (Hl n' En) as [_ HC]. rewrite Forall_forall in *. intros p Hp. split; [done|]. apply HC. split; auto. }
    intros v [Hv Hh]. destruct v as [|x|x|x|x|x|x|x]; cbn -[comparable]; split_and!; try done; try (apply List.Forall_nil).
    + destruct n as [|n]; [cbn in Hh; lia|]. apply comparable_array in Hv as [_ Hv]. apply height_array in Hh. eauto.
    + destruct n as [|n]; [cbn in Hh; lia|]. apply comparable_object in Hv as [_ Hv]. apply height_object in Hh. eauto.
  - intros a b Ha Hb. apply less_key; [done|done|]. intros n' E. by apply Hl.
  - intros a b _ _. apply eqb_key.
Qed.
Lemma wo_values n : WeakOrder (below n) (less n) value_eqb.
Proof.
  induction n as [|n IH].
  - apply (wo_level 0 (fun _ => False) (fun _ _ => false)); [by split|done].
  - apply (wo_level (S n) (below n) (less n)); [done|]. intros n' [= ->]. done.
Qed.
(** more depth than the values have changes nothing *)
Lemma map_ltb_ext {K} (kl : K -> K -> bool) (l l' : value -> value -> bool) (D : value -> Prop) a :
  (forall v v', D v -> D v' -> l v v' = l' v v') -> forall b, Forall (fun p => D p.2) a -> Forall (fun p => D p.2) b ->
  map_ltb (pair_ltb kl l) a b = map_ltb (pair_ltb kl l') a b.
Proof.
  intros Hl. induction a as [|p a IH]; intros [|q b] Ha Hb; [done..|]. apply Forall_cons in Ha as [Hp Ha]. apply Forall_cons in Hb as [Hq Hb].
  cbn. unfold pair_ltb. by rewrite (Hl p.2 q.2), (Hl q.2 p.2), IH.
Qed.
Lemma less_depth n : forall k a b, (height a <= n)%nat -> (height b <= n)%nat -> (height a <= k)%nat -> (height b <= k)%nat -> less n a b = less k a b.
Proof.
  induction n as [|n IH]; intros [|k] a b Ha Hb Ka Kb; [done|..].
  1,2: destruct a as [|x|x|x|x|x|x|x], b as [|y|y|y|y|y|y|y]; try reflexivity; cbn in *; lia.
  destruct a as [|x|x|x|x|x|x|x], b as [|y|y|y|y|y|y|y]; try reflexivity; cbn [less]; destruct (size_delta x y =? 0); try done; cbn [negb];
    rewrite ?height_array, ?height_object in *.
  1,2: apply (map_ltb_ext _ _ _ (fun v => (height v <= n)%nat /\ (height v <= k)%nat)); [intros v v' [? ?] [? ?]; by apply IH|..];
    rewrite Forall_forall in *; intros p Hp; split; auto.
Qed.

(** Values can be compared: on values without NaN and with fewer than 2^31
    elements in each array and object, operator< and operator== are a strict weak order
    with its equivalence - of two values exactly one is less or they are equal, both
    relations are transitive, and <=, >=, > and != are what they are called. *)
Theorem value_order (a b c : value) : comparable a -> comparable b -> comparable c ->
  (value_ltb a b = true /\ value_eqb a b = false /\ value_gtb a b = false \/
   value_ltb a b = false /\ value_eqb a b = true /\ value_gtb a b = false \/
   value_ltb a b = false /\ value_eqb a b = false /\ value_gtb a b = true) /\
  (value_ltb a b = true -> value_ltb b c = true -> value_ltb a c = true) /\
  value_eqb a a = true /\ (value_eqb a b = true -> value_eqb b a = true) /\
  (value_eqb a b = true -> value_eqb b c = true -> value_eqb a c = true) /\
  value_leb a b = value_ltb a b || value_eqb a b /\ value_geb a b = value_gtb a b || value_eqb a b.
Proof.
  intros Ca Cb Cc. set (n := (height a + height b + height c)%nat).
  assert (below n a /\ below n b /\ below n c) as (Ha & Hb & Hc) by (unfold n; by split_and!; split; (done || lia)).
  assert (forall x y, below n x -> below n y -> value_ltb x y = less n x y) as El.
  { intros x y [_ Hx] [_ Hy]. apply less_depth; lia. }
  pose proof (wo_values n) as W. unfold value_leb, value_geb, value_gtb. rewrite !El by done.
  pose proof (wo_tri _ _ _ W a b Ha Hb) as Ht. split_and!.
  - exact Ht.
  - by apply W.
  - by apply W.
  - by rewrite (wo_sym _ _ _ W b a).
  - by apply W.
  - by destruct Ht as [(-> & -> & ->)|[(-> & -> & ->)|(-> & -> & ->)]].
  - by destruct Ht as [(-> & -> & ->)|[(-> & -> & ->)|(-> & -> & ->)]].
Qed.
Definition sample_value (n : Z) : value :=
  objectValue [("list", arrayValue [(0, uintValue 7); (3, realValue (real_of_Z n))]); ("name", stringValue (Some "x"))]%string.
Lemma value_order_witness : value_ltb (sample_value 1) (sample_value 2) = true /\
  (value_ltb (sample_value 1) (sample_value 2) = true -> value_ltb (sample_value 2) (intValue 0) = true -> value_ltb (sample_value 1) (intValue 0) = true).
Proof.
  split; [vm_compute; reflexivity|].
  destruct (value_order (sample_value 1) (sample_value 2) (intValue 0)) as (_ & Ht & _); [by cbn..|]. exact Ht.
Defined.
(** an integer is never equal to the same integer of the other type *)
Lemma types_differ n : value_eqb (intValue n) (uintValue n) = false /\ value_ltb (intValue n) (uintValue 0) = true.
Proof. done. Qed.
(** with NaN nothing is less, nothing is equal *)
Lemma nan_unordered v : value_ltb (realValue S754_nan) (realValue v) = false /\ value_eqb (realValue S754_nan) (realValue v) = false.
Proof. done. Qed.
