(* ===== verification/JsonValueFacts.v ===== *)
(** * Arrays as sequences, and values as the program sees them
      (src/src/jsoncpp/json_value.cpp)

    A map is what its lookups say; an array with gaps is the sequence that has null
    there; and the operations of [JsonValue] are those of [Json]. *)

From Stdlib Require Import ZArith Lia Bool Ascii String SpecFloat.
From stdpp Require Import base list strings.
From S2P Require Import Prelude StdMap Json JsonValue.
Set Default Goal Selector "!".
Local Open Scope Z_scope.
Local Open Scope drive_scope.

(** ** Maps in the order of their keys *)
Class KeyOrder {K} (ltb : K -> K -> bool) : Prop := {
  key_irrefl a : ltb a a = false;
  key_trans a b c : ltb a b = true -> ltb b c = true -> ltb a c = true;
  key_total a b : ltb a b = false -> ltb b a = false -> a = b
}.
#[export] Instance Z_order : KeyOrder Z.ltb.
Proof. split; intros; lia. Qed.
#[export] Instance string_order : KeyOrder str_ltb.
Proof.
  split; [apply str_ltb_irrefl|apply str_ltb_trans|]. intros a b H1 H2. destruct (decide (a = b)) as [|Hne]; [done|].
  by rewrite (str_ltb_total a b H1 Hne) in H2.
Qed.
Section Maps.
Context {K V : Type} `{EqDecision K} (ltb : K -> K -> bool) {HK : KeyOrder ltb}.
Implicit Types (m : list (K * V)) (k : K).
Definition after k m : Prop := Forall (fun p => ltb k p.1 = true) m.
Fixpoint sorted m : Prop := match m with [] => True | (k, _) :: m => after k m /\ sorted m end.
Lemma key_asym a b : ltb a b = true -> ltb b a = false.
Proof using HK. intros H1. destruct (ltb b a) eqn:H2; [|done]. pose proof (key_trans a b a H1 H2) as E. by rewrite key_irrefl in E. Qed.
Lemma key_cases a b : ltb a b = true \/ ltb b a = true \/ a = b.
Proof using HK. destruct (ltb a b) eqn:E1; [by left|]. destruct (ltb b a) eqn:E2; [by right; left|]. right. right. by apply key_total. Qed.
Lemma key_after_trans k k' m : ltb k k' = true -> after k' m -> after k m.
Proof using HK. intros Hk Hm. eapply Forall_impl; [exact Hm|]. intros p Hp. by apply (key_trans _ k'). Qed.
Lemma key_find_after k m : after k m -> OMap.find ltb k m = None.
Proof using HK. destruct m as [|[k' v] m]; [done|]. intros [H1 _]%Forall_cons. cbn in *. by rewrite (key_asym k k'), H1. Qed.
Lemma key_find_self k v m : OMap.find ltb k ((k, v) :: m) = Some v.
Proof using HK. cbn. by rewrite key_irrefl. Qed.

(** [m\[k\] = v] *)
Fixpoint insert k (v : V) m : list (K * V) :=
  match m with
  | [] => [(k, v)]
  | (k', v') :: rest => if ltb k' k then (k', v') :: insert k v rest else if ltb k k' then (k, v) :: m else (k', v) :: rest
  end.
Lemma at_key_ok {A} d k (f : M V A) m :
  OMap.at_key ltb d k f m = obind (f (default d (OMap.find ltb k m))) (fun '(a, v) => Ok (a, insert k v m)).
Proof using.
  induction m as [|[k' v'] m IH]; [done|]. cbn. destruct (ltb k' k); [|by destruct (ltb k k')].
  rewrite IH. by destruct (f _) as [[a v]| |].
Qed.
Lemma key_find_insert k k' v m : sorted m -> OMap.find ltb k' (insert k v m) = if decide (k' = k) then Some v else OMap.find ltb k' m.
Proof using HK.
  induction m as [|[k2 v2] m IH]; cbn.
  { intros _. destruct (decide (k' = k)) as [->|Hne]; [by rewrite key_irrefl|].
    destruct (key_cases k k') as [->|[E| ->]]; [done| |done]. by rewrite E, (key_asym _ _ E). }
  intros [Ha Hs]. destruct (ltb k2 k) eqn:E1; cbn.
  - destruct (ltb k2 k') eqn:E2; [by apply IH|]. destruct (decide (k' = k)) as [->|]; [congruence|done].
  - destruct (ltb k k2) eqn:E2; cbn.
    + destruct (decide (k' = k)) as [->|Hne]; [by rewrite key_irrefl|].
      destruct (key_cases k k') as [->|[E| ->]]; [done| |done]. rewrite (key_asym _ _ E), E.
      by rewrite (key_asym k' k2), (key_trans k' k k2) by (done || by apply (key_trans k' k k2)).
    + assert (k = k2) as -> by by apply key_total. destruct (decide (k' = k2)) as [->|Hne]; [by rewrite key_irrefl|].
      destruct (key_cases k2 k') as [->|[E|]]; [done| |congruence]. by rewrite (key_asym _ _ E), E.
Qed.
Lemma key_after_insert k k' v m : after k m -> ltb k k' = true -> after k (insert k' v m).
Proof using.
  intros Hm Hk. induction m as [|[k2 v2] m IH]; cbn; [by apply List.Forall_cons|]. apply Forall_cons in Hm as [H1 Hm].
  destruct (ltb k2 k'); [apply List.Forall_cons; [done|by apply IH]|]. destruct (ltb k' k2); repeat (apply List.Forall_cons; [done|]); done.
Qed.
Lemma key_sorted_insert k v m : sorted m -> sorted (insert k v m).
Proof using HK.
  induction m as [|[k2 v2] m IH]; cbn; [by split; [apply List.Forall_nil|]|]. intros [Ha Hs].
  destruct (ltb k2 k) eqn:E1; cbn; [split; [by apply key_after_insert|auto]|]. destruct (ltb k k2) eqn:E2; cbn; [|done].
  split; [|done]. apply List.Forall_cons; [done|by apply (key_after_trans k k2)].
Qed.
Lemma key_after_erase k k' m : after k m -> after k (OMap.erase ltb k' m).
Proof using.
  induction m as [|[k2 v2] m IH]; [done|]. intros [H1 Hm]%Forall_cons. cbn. destruct (ltb k2 k'); [apply List.Forall_cons; [done|by apply IH]|].
  destruct (ltb k' k2); [by apply List.Forall_cons|done].
Qed.
Lemma key_sorted_erase k m : sorted m -> sorted (OMap.erase ltb k m).
Proof using HK.
  induction m as [|[k2 v2] m IH]; [done|]. cbn. intros [Ha Hs]. destruct (ltb k2 k); [split; [by apply key_after_erase|auto]|].
  by destruct (ltb k k2).
Qed.
Lemma key_find_erase k k' m : sorted m -> OMap.find ltb k' (OMap.erase ltb k m) = if decide (k' = k) then None else OMap.find ltb k' m.
Proof using HK.
  induction m as [|[k2 v2] m IH]; cbn; [by destruct (decide (k' = k))|]. intros [Ha Hs]. destruct (ltb k2 k) eqn:E1; cbn.
  - destruct (ltb k2 k') eqn:E2; [by apply IH|]. destruct (decide (k' = k)) as [->|]; [congruence|done].
  - destruct (ltb k k2) eqn:E2; cbn.
    + destruct (decide (k' = k)) as [->|Hne]; [by rewrite (key_asym _ _ E2), E2|done].
    + assert (k = k2) as -> by by apply key_total. destruct (decide (k' = k2)) as [->|Hne]; [by apply key_find_after|].
      destruct (ltb k2 k') eqn:E3; [done|]. destruct (key_cases k2 k') as [|[E|]]; [congruence| |congruence]. rewrite E.
      apply key_find_after. by apply (key_after_trans k' k2).
Qed.
End Maps.

(** ** Arrays *)
Abbreviation zfind := (OMap.find Z.ltb).
Abbreviation zsorted := (sorted Z.ltb).
Definition array_size (m : list (Z * value)) : Z := match last m with Some (i, _) => i + 1 | None => 0 end.
Definition array_ok (m : list (Z * value)) : Prop := zsorted m /\ Forall (fun p => 0 <= p.1 < maxInt) m.
(** the elements of an array, null where there is none *)
Definition items (m : list (Z * value)) : list value :=
  map (fun i => default nullValue (zfind i m)) (seqZ 0 (array_size m)).
Implicit Types (m : list (Z * value)) (i : Z) (v : value).
Lemma zfind_in i m v : zfind i m = Some v -> In (i, v) m.
Proof.
  induction m as [|[j w] m IH]; [done|]. cbn. destruct (Z.ltb_spec j i); [by right; apply IH|]. destruct (Z.ltb_spec i j); [done|].
  intros [= ->]. left. f_equal. lia.
Qed.
Lemma last_highest m : zsorted m -> forall i v, In (i, v) m -> i < array_size m.
Proof.
  unfold array_size. induction m as [|[j w] m IH]; [done|]. intros [Ha Hs] i v. destruct m as [|q m].
  - intros [[= -> ->]|[]]. cbn. lia.
  - change (last ((j, w) :: q :: m)) with (last (q :: m)). intros [[= <- <-]|Hi]; [|by apply (IH Hs i v)].
    apply Forall_cons in Ha as [Hj _]. destruct q as [j' w']. cbn in Hj. specialize (IH Hs j' w' ltac:(by left)). lia.
Qed.
Lemma zfind_size i m : zsorted m -> zfind i m <> None -> i < array_size m.
Proof. intros Hs. destruct (zfind i m) as [v|] eqn:E; [|done]. intros _. by apply (last_highest m Hs i v), zfind_in. Qed.
Lemma zfind_last m : m <> [] -> zsorted m -> zfind (array_size m - 1) m <> None.
Proof.
  unfold array_size. induction m as [|[j w] m IH]; [done|]. intros _ [Ha Hs]. destruct m as [|q m].
  - cbn. replace (j + 1 - 1) with j by lia. by rewrite Z.ltb_irrefl.
  - change (last ((j, w) :: q :: m)) with (last (q :: m)). specialize (IH ltac:(done) Hs). cbn -[last].
    destruct (last (q :: m)) as [[i u]|] eqn:E; [|by destruct m as [|? ?] using rev_ind; rewrite ?last_cons, ?last_snoc in E].
    assert (j < i + 1) as Hlt by (apply Forall_cons in Ha as [Hj _]; destruct q as [j' w']; cbn in Hj;
      pose proof (last_highest ((j', w') :: m) Hs j' w' ltac:(by left)) as Hx; unfold array_size in Hx; rewrite E in Hx; lia).
    destruct (Z.ltb_spec j (i + 1 - 1)); [exact IH|]. destruct (Z.ltb_spec (i + 1 - 1) j); [|done]. lia.
Qed.
(** the size is the one bound that the last element reaches *)
Lemma size_unique m n : zsorted m -> (forall i, zfind i m <> None -> i < n) -> (m = [] /\ n = 0 \/ m <> [] /\ zfind (n - 1) m <> None) -> array_size m = n.
Proof.
  intros Hs Hu [[-> ->]|[Hne Hl]]; [done|]. pose proof (zfind_size _ _ Hs Hl). pose proof (Hu _ (zfind_last m Hne Hs)). lia.
Qed.
Lemma array_size_nonneg m : array_ok m -> 0 <= array_size m <= maxInt.
Proof.
  intros [Hs Hr]. unfold array_size. destruct (last m) as [[i v]|] eqn:E; [|unfold maxInt; lia]. apply last_Some in E as [m' ->].
  apply Forall_app in Hr as [_ Hr]. apply Forall_cons in Hr as [Hi _]. cbn in Hi. lia.
Qed.
Lemma length_items m : array_ok m -> zlen (items m) = array_size m.
Proof. intros Hm. pose proof (array_size_nonneg m Hm). unfold items, zlen. rewrite length_map, length_seqZ. lia. Qed.
Lemma items_lookup m i : array_ok m -> 0 <= i -> items m !! Z.to_nat i = if i <? array_size m then Some (default nullValue (zfind i m)) else None.
Proof.
  intros Hm Hi. unfold items. rewrite list_lookup_fmap. destruct (Z.ltb_spec i (array_size m)).
  - rewrite lookup_seqZ_lt by lia. cbn. do 3 f_equal. lia.
  - by rewrite lookup_seqZ_ge by lia.
Qed.
Lemma CZString_index i : 0 <= i <= maxInt -> CZString i = i.
Proof.
  unfold maxInt. intros Hi. unfold CZString, to_signed. change (2 ^ (8 * Z.of_nat 4)) with (2 ^ 32). change (2 ^ 32 / 2) with (2 ^ 31).
  rewrite Z.mod_small by lia. destruct (Z.ltb_spec i (2 ^ 31)); lia.
Qed.
Lemma array_ok_nil : array_ok [].
Proof. by split; [|apply List.Forall_nil]. Qed.
Lemma stored_size m : array_ok m -> size (arrayValue m) = Ok (zlen (items m)).
Proof.
  intros Hm. rewrite length_items by done. destruct Hm as [_ Hr]. unfold size, array_size. destruct (last m) as [[i v]|] eqn:E; [|done].
  apply last_Some in E as [m' ->]. apply Forall_app in Hr as [_ Hr]. apply Forall_cons in Hr as [Hi _]. cbn in Hi.
  destruct (Z.eqb_spec i maxInt); [lia|]. f_equal. apply u32_small. unfold in_u32, maxInt in *. lia.
Qed.
Lemma in_insert (i j : Z) v w m : In (j, w) (insert Z.ltb i v m) -> j = i \/ exists w', In (j, w') m.
Proof.
  induction m as [|[k u] m IH]; cbn; [intros [[= -> ->]|[]]; by left|]. destruct (Z.ltb_spec k i); [|destruct (Z.ltb_spec i k)]; cbn.
  - intros [[= -> ->]|Hj]; [right; by exists w; left|]. destruct (IH Hj) as [->|[w' Hw]]; [by left|right; exists w'; by right].
  - intros [[= -> ->]|[[= -> ->]|Hj]]; [by left|right; by exists w; left|right; exists w; by right].
  - intros [[= -> ->]|Hj]; [right; by eexists; left|right; exists w; by right].
Qed.
Lemma array_ok_insert i v m : array_ok m -> 0 <= i < maxInt -> array_ok (insert Z.ltb i v m).
Proof.
  intros [Hs Hr] Hi. split; [by apply key_sorted_insert; [apply _|]|]. apply List.Forall_forall. intros [j w] Hj.
  destruct (in_insert _ _ _ _ _ Hj) as [->|[w' Hw]]; [done|]. exact (proj1 (List.Forall_forall _ _) Hr _ Hw).
Qed.
Lemma array_size_insert i v m : array_ok m -> 0 <= i -> array_size (insert Z.ltb i v m) = Z.max (array_size m) (i + 1).
Proof.
  intros [Hs Hr] Hi. apply size_unique; [by apply key_sorted_insert; [apply _|]|..].
  - intros j. rewrite key_find_insert by (done || apply _). destruct (decide (j = i)) as [->|]; [lia|]. intros Hj. pose proof (zfind_size j m Hs Hj). lia.
  - right. split; [destruct m as [|[k u] m]; cbn; [done|by destruct (k <? i), (i <? k)]|].
    rewrite key_find_insert by (done || apply _). destruct (decide _) as [|Hne]; [done|].
    destruct (Z.max_spec (array_size m) (i + 1)) as [[_ E]|[Hle E]]; rewrite E in *; [lia|]. apply zfind_last; [|done].
    intros ->. cbn in Hle. lia.
Qed.
Lemma items_insert i v m : array_ok m -> 0 <= i < maxInt ->
  items (insert Z.ltb i v m) = <[Z.to_nat i := v]> (items m ++ replicate (Z.to_nat (i + 1 - zlen (items m))) nullValue).
Proof.
  intros Hm Hi. pose proof (array_size_nonneg m Hm) as Hn. pose proof (length_items m Hm) as Hl.
  apply list_eq. intros j. rewrite <- (Nat2Z.id j). rewrite items_lookup by (by apply array_ok_insert || lia).
  rewrite array_size_insert by (done || lia). rewrite key_find_insert by (apply Hm || apply _). rewrite Nat2Z.id.
  unfold zlen in Hl. destruct (decide (Z.of_nat j = i)) as [<-|Hne].
  - rewrite Nat2Z.id, list_lookup_insert_eq by (rewrite length_app, length_replicate; unfold zlen; lia).
    destruct (Z.ltb_spec (Z.of_nat j) (Z.max (array_size m) (Z.of_nat j + 1))); [done|lia].
  - rewrite list_lookup_insert_ne by lia. destruct (Z.ltb_spec (Z.of_nat j) (array_size m)).
    + rewrite lookup_app_l by lia. rewrite <- (Nat2Z.id j) at 3. rewrite items_lookup by (done || lia).
      destruct (Z.ltb_spec (Z.of_nat j) (array_size m)), (Z.ltb_spec (Z.of_nat j) (Z.max (array_size m) (i + 1))); done || lia.
    + rewrite lookup_app_r by lia. assert (zfind (Z.of_nat j) m = None) as ->.
      { destruct (zfind (Z.of_nat j) m) as [w|] eqn:E; [|done]. pose proof (zfind_size (Z.of_nat j) m (proj1 Hm)) as Hz. rewrite E in Hz. specialize (Hz ltac:(done)). lia. }
      cbn [default from_option]. destruct (Z.ltb_spec (Z.of_nat j) (Z.max (array_size m) (i + 1))).
      * rewrite lookup_replicate_2 by (unfold zlen; lia). done.
      * symmetry. apply lookup_ge_None. rewrite length_replicate. unfold zlen. lia.
Qed.

Lemma ref_index_ok {A} i (f : M value A) m : array_ok m -> 0 <= i <= maxInt ->
  ref_index i f (arrayValue m) = obind (f (default nullValue (items m !! Z.to_nat i))) (fun '(a, v) => Ok (a, arrayValue (insert Z.ltb i v m))).
Proof.
  intros Hm Hi. unfold ref_index. rewrite CZString_index, at_key_ok by lia. rewrite items_lookup by (done || lia).
  assert (default nullValue (if i <? array_size m then Some (default nullValue (zfind i m)) else None) = default nullValue (zfind i m)) as ->.
  { destruct (Z.ltb_spec i (array_size m)); [done|]. destruct (zfind i m) as [w|] eqn:E; [|done].
    pose proof (zfind_size i m (proj1 Hm)) as Hz. rewrite E in Hz. specialize (Hz ltac:(done)). lia. }
  by destruct (f _) as [[a v]| |].
Qed.
Lemma append_ok m v : array_ok m -> zlen (items m) < maxInt ->
  exists m', append v (arrayValue m) = Ok (tt, arrayValue m') /\ array_ok m' /\ items m' = items m ++ [v].
Proof.
  intros Hm Hl. pose proof (zlen_nonneg (items m)). exists (insert Z.ltb (zlen (items m)) v m). split_and!.
  - unfold append. rewrite stored_size by done. cbn [obind]. by rewrite ref_index_ok by (done || lia).
  - by apply array_ok_insert.
  - rewrite items_insert by done. replace (zlen (items m) + 1 - zlen (items m)) with 1 by lia. cbn [replicate Z.to_nat Pos.to_nat Pos.iter_op].
    rewrite insert_app_r_alt by (unfold zlen; lia). unfold zlen. by rewrite Nat2Z.id, Nat.sub_diag.
Qed.

(** ** resize *)
Lemma erase_indices_ok l : forall m, zsorted m -> Forall (fun i => 0 <= i <= maxInt) l ->
  zsorted (erase_indices l m) /\ forall i, zfind i (erase_indices l m) = if decide (i ∈ l) then None else zfind i m.
Proof.
  induction l as [|i l IH]; intros m Hs Hl; cbn; [split; [done|]; intros i; by destruct (decide (i ∈ []))  as [H%not_elem_of_nil|]|].
  apply Forall_cons in Hl as [Hi Hl]. destruct (IH (OMap.erase Z.ltb (CZString i) m)) as [H1 H2]; [by apply key_sorted_erase; [apply _|]|done|].
  split; [done|]. intros j. rewrite H2, key_find_erase by (done || apply _). rewrite CZString_index by done.
  destruct (decide (j ∈ l)); [by rewrite decide_True by (by right)|]. destruct (decide (j = i)) as [->|]; [by rewrite decide_True by left|].
  rewrite decide_False; [done|]. intros [?|?]%elem_of_cons; done.
Qed.
Lemma in_zfind i v m : zsorted m -> In (i, v) m -> zfind i m = Some v.
Proof.
  induction m as [|[j w] m IH]; [done|]. intros [Ha Hs] [[= -> ->]|Hi]; cbn; [by rewrite Z.ltb_irrefl|].
  apply List.Forall_forall with (x := (i, v)) in Ha; [|done]. cbn in Ha. rewrite Ha. by apply IH.
Qed.
Lemma array_ok_find m : zsorted m -> (forall i, zfind i m <> None -> 0 <= i < maxInt) -> array_ok m.
Proof. intros Hs Hr. split; [done|]. apply List.Forall_forall. intros [i v] Hi. apply Hr. by rewrite (in_zfind i v). Qed.
Lemma array_ok_range i m : array_ok m -> zfind i m <> None -> 0 <= i < maxInt.
Proof. intros [_ Hr]. destruct (zfind i m) as [v|] eqn:E; [|done]. intros _. apply zfind_in in E. exact (proj1 (List.Forall_forall _ _) Hr _ E). Qed.
(** the elements from [n] on, which the loop of resize erases *)
Lemma erase_tail m n : array_ok m -> 0 <= n -> let m' := erase_indices (seqZ n (array_size m - n)) m in
  array_ok m' /\ forall i, zfind i m' = if i <? n then zfind i m else None.
Proof.
  intros Hm Hn m'. pose proof (array_size_nonneg m Hm) as Hsz. destruct (erase_indices_ok (seqZ n (array_size m - n)) m) as [Hs Hf]; [apply Hm| |].
  { apply Forall_seqZ. intros i Hi. lia. }
  fold m' in Hs, Hf. assert (forall i, zfind i m' = if i <? n then zfind i m else None) as Hfind.
  { intros i. rewrite Hf. destruct (Z.ltb_spec i n); [rewrite decide_False; [done|rewrite elem_of_seqZ; lia]|].
    destruct (decide _) as [|Hni]; [done|]. rewrite elem_of_seqZ in Hni. destruct (zfind i m) as [v|] eqn:E; [|done].
    pose proof (zfind_size i m (proj1 Hm)) as Hz. rewrite E in Hz. specialize (Hz ltac:(done)). lia. }
  split; [|done]. apply array_ok_find; [done|]. intros i. rewrite Hfind. destruct (i <? n); [by apply array_ok_range|done].
Qed.
Lemma array_size_below m n : zsorted m -> 0 < n -> (forall i, zfind i m <> None -> i < n) -> zfind (n - 1) m = None -> array_size m < n.
Proof.
  intros Hs Hn Hu Hl. destruct m as [|p m]; [cbn; lia|]. pose proof (zfind_last (p :: m) ltac:(done) Hs) as Hz. pose proof (Hu _ Hz).
  destruct (decide (array_size (p :: m) = n)) as [E|]; [by rewrite E in Hz|lia].
Qed.
Lemma resize_ok m n : array_ok m -> 0 <= n <= maxInt -> n = 0 \/ zlen (items m) < n \/ zfind (n - 1) m <> None ->
  exists m', resize n (arrayValue m) = Ok (tt, arrayValue m') /\ array_ok m' /\
    items m' = take (Z.to_nat n) (items m) ++ replicate (Z.to_nat (n - zlen (items m))) nullValue.
Proof.
  intros Hm Hn Hc. pose proof (length_items m Hm) as Hl. pose proof (array_size_nonneg m Hm) as Hsz. unfold resize. rewrite stored_size by done. cbn [obind].
  destruct (Z.eqb_spec n 0) as [->|Hn0].
  { exists []. split_and!; [done|apply array_ok_nil|]. cbn [Z.to_nat take]. replace (Z.to_nat (0 - _)) with 0%nat by (pose proof (zlen_nonneg (items m)); lia). done. }
  destruct (Z.ltb_spec (zlen (items m)) n) as [Hlt|Hle].
  - rewrite ref_index_ok by (done || lia). assert (items m !! Z.to_nat (n - 1) = None) as -> by (apply lookup_ge_None; unfold zlen in *; lia).
    cbn [default from_option obind ret]. eexists. split; [done|]. split; [apply array_ok_insert; [done|lia]|]. rewrite items_insert by (done || lia).
    rewrite take_ge by (unfold zlen in *; lia). replace (n - 1 + 1 - zlen (items m)) with (n - zlen (items m)) by lia.
    apply list_insert_id. rewrite lookup_app_r by (unfold zlen in *; lia). apply lookup_replicate_2. unfold zlen in *. lia.
  - destruct (erase_tail m n Hm ltac:(lia)) as [Hm' Hf]. rewrite Hl in *. set (m' := erase_indices _ m) in *.
    assert (array_size m' = n) as En.
    { apply size_unique; [apply Hm'|intros i; rewrite Hf; destruct (Z.ltb_spec i n); [done|done]|right]. split.
      - intros E0. rewrite E0 in Hf. specialize (Hf (n - 1)). destruct (Z.ltb_spec (n - 1) n); [|lia]. destruct Hc as [?|[?|Hc]]; [lia|lia|]. by rewrite <- Hf in Hc.
      - rewrite Hf. destruct (Z.ltb_spec (n - 1) n); [|lia]. destruct Hc as [?|[?|Hc]]; [lia|lia|done]. }
    rewrite stored_size by done. rewrite length_items by done. cbn [obind]. rewrite En, Z.eqb_refl. exists m'. split_and!; [done|done|].
    replace (Z.to_nat (n - array_size m)) with 0%nat by lia. cbn [replicate]. rewrite app_nil_r.
    apply list_eq. intros j. rewrite <- (Nat2Z.id j). rewrite items_lookup by (done || lia). rewrite Nat2Z.id, En.
    destruct (Z.ltb_spec (Z.of_nat j) n).
    + rewrite lookup_take_lt by lia. rewrite <- (Nat2Z.id j) at 2. rewrite items_lookup by (done || lia).
      rewrite Hf. by destruct (Z.ltb_spec (Z.of_nat j) n), (Z.ltb_spec (Z.of_nat j) (array_size m)); try lia.
    + symmetry. apply lookup_take_ge. lia.
Qed.
(** shrinking to a size whose last element was never assigned ends the program *)
Lemma resize_gap m n : array_ok m -> 0 < n <= zlen (items m) -> zfind (n - 1) m = None -> resize n (arrayValue m) = Fault AssertFailed.
Proof.
  intros Hm Hn Hc. pose proof (length_items m Hm) as Hl. unfold resize. rewrite stored_size by done. cbn [obind].
  destruct (Z.eqb_spec n 0); [lia|]. destruct (Z.ltb_spec (zlen (items m)) n); [lia|].
  destruct (erase_tail m n Hm ltac:(lia)) as [Hm' Hf]. rewrite Hl in *. set (m' := erase_indices _ m) in *.
  rewrite stored_size by done. rewrite length_items by done. cbn [obind].
  assert (array_size m' < n) as Hlt.
  { apply array_size_below; [apply Hm'|lia|intros i; rewrite Hf; by destruct (Z.ltb_spec i n)|]. rewrite Hf. destruct (Z.ltb_spec (n - 1) n); [done|lia]. }
  destruct (Z.eqb_spec (array_size m') n); [lia|done].
Qed.

(** An array is a sequence: whatever elements of it were assigned, its size is the
    length of the sequence that has null at the others; reading at an index reads the
    sequence; a reference to an index, within it or past its end, writes the sequence,
    filled up with null; append adds at the end; and resize cuts the sequence or fills it
    up with null - provided that the element which becomes the last was assigned. *)
Theorem array_is_sequence (m : list (Z * value)) (i n : Z) (x : value) : array_ok m -> 0 <= i < maxInt -> 0 <= n <= maxInt ->
  let l := items m in
  size (arrayValue m) = Ok (zlen l) /\ get_index i nullValue (arrayValue m) = Ok (default nullValue (l !! Z.to_nat i)) /\
  (exists m', ref_index i (put x) (arrayValue m) = Ok (tt, arrayValue m') /\ array_ok m' /\
    items m' = <[Z.to_nat i := x]> (l ++ replicate (Z.to_nat (i + 1 - zlen l)) nullValue)) /\
  (zlen l < maxInt -> exists m', append x (arrayValue m) = Ok (tt, arrayValue m') /\ array_ok m' /\ items m' = l ++ [x]) /\
  (n = 0 \/ zlen l < n \/ zfind (n - 1) m <> None -> exists m', resize n (arrayValue m) = Ok (tt, arrayValue m') /\ array_ok m' /\
    items m' = take (Z.to_nat n) l ++ replicate (Z.to_nat (n - zlen l)) nullValue).
Proof.
  intros Hm Hi Hn l. split_and!.
  - by apply stored_size.
  - unfold get_index, at_index. rewrite CZString_index by lia. cbn [obind]. unfold l. rewrite items_lookup by (done || lia).
    destruct (Z.ltb_spec i (array_size m)); [done|]. destruct (zfind i m) as [w|] eqn:E; [|done].
    pose proof (zfind_size i m (proj1 Hm)) as Hz. rewrite E in Hz. specialize (Hz ltac:(done)). lia.
  - exists (insert Z.ltb i x m). split_and!; [by rewrite ref_index_ok by (done || lia)|by apply array_ok_insert|by apply items_insert].
  - by apply append_ok.
  - by apply resize_ok.
Qed.
Definition gap_array : list (Z * value) := [(0, booleanValue true); (3, intValue 7)].
Lemma gap_array_ok : array_ok gap_array.
Proof. by repeat (split || apply List.Forall_cons || apply List.Forall_nil). Qed.
Lemma array_is_sequence_witness : items gap_array = [booleanValue true; nullValue; nullValue; intValue 7] /\
  (exists m', append (intValue 8) (arrayValue gap_array) = Ok (tt, arrayValue m') /\ array_ok m' /\ items m' = items gap_array ++ [intValue 8]) /\
  (exists m', resize 1 (arrayValue gap_array) = Ok (tt, arrayValue m') /\ array_ok m' /\ items m' = [booleanValue true]).
Proof.
  split; [reflexivity|]. destruct (array_is_sequence gap_array 1 1 (intValue 8) gap_array_ok) as (_ & _ & _ & Ha & Hr); [done|done|].
  split; [by apply Ha|]. apply Hr. by right; right.
Defined.
(** so an array that was just enlarged cannot be made smaller *)
Lemma resize_twice : obind (resize 5 nullValue) (fun '(_, v) => resize 3 v) = Fault AssertFailed.
Proof. reflexivity. Qed.
(** and an element at an index that is no int counts for nothing *)
Lemma high_index_lost x : exists v, ref_index (2 ^ 32 - 1) (put x) nullValue = Ok (tt, v) /\ size v = Ok 0.
Proof. by eexists. Qed.

(** ** What the program sees *)
(** the elements from index [i] on *)
Fixpoint fill {V} (d : V) (i : Z) (m : list (Z * V)) : list V :=
  match m with
  | [] => []
  | (k, v) :: m => replicate (Z.to_nat (k - i)) d ++ v :: fill d (k + 1) m
  end.
Fixpoint to_json (v : value) : json :=
  match v with
  | nullValue => JNull
  | intValue n | uintValue n => JInt n
  | realValue d => JReal d
  | stringValue s => JString (default EmptyString s)
  | booleanValue b => JBool b
  | arrayValue m => JArray (fill JNull 0 (map (fun p => (p.1, to_json p.2)) m))
  | objectValue m => JObject (map (fun p => (p.1, to_json p.2)) m)
  end.
Lemma fill_map {V W} (f : V -> W) d (l : list (Z * V)) : forall i, fill (f d) i (map (fun p => (p.1, f p.2)) l) = map f (fill d i l).
Proof. induction l as [|[k x] l IH]; intros i; [done|]. cbn. rewrite map_app. cbn. rewrite IH. f_equal. symmetry. apply fmap_replicate. Qed.
Lemma fill_lookup m : forall i, 0 <= i -> zsorted m -> Forall (fun p => i <= p.1) m -> forall j : nat,
  fill nullValue i m !! j = if i + Z.of_nat j <? array_size m then Some (default nullValue (zfind (i + Z.of_nat j) m)) else None.
Proof.
  induction m as [|[k v] m IH]; intros i Hi Hs Hr j.
  { cbn. by destruct (Z.ltb_spec (i + Z.of_nat j) 0); [lia|]. }
  cbn [sorted] in Hs. destruct Hs as [Ha Hs]. apply Forall_cons in Hr as [Hk Hr]. cbn [fst] in Hk.
  assert (array_size ((k, v) :: m) = Z.max (k + 1) (array_size m)) as Esz.
  { destruct m as [|q m]; [cbn; lia|]. assert (array_size ((k, v) :: q :: m) = array_size (q :: m)) as -> by done.
    destruct q as [k' v']. pose proof (last_highest ((k', v') :: m) Hs k' v' ltac:(by left)). apply Forall_cons in Ha as [Hlt _]. cbn in Hlt. lia. }
  rewrite Esz. cbn [fill]. destruct (Z.ltb_spec (i + Z.of_nat j) k) as [Hlt|Hge].
  - rewrite lookup_app_l by (rewrite length_replicate; lia). rewrite lookup_replicate_2 by lia.
    destruct (Z.ltb_spec (i + Z.of_nat j) (Z.max (k + 1) (array_size m))); [|lia]. cbn.
    destruct (Z.ltb_spec k (i + Z.of_nat j)); [lia|]. destruct (Z.ltb_spec (i + Z.of_nat j) k); [done|lia].
  - rewrite lookup_app_r by (rewrite length_replicate; lia). rewrite length_replicate. cbn [OMap.find].
    destruct (decide (i + Z.of_nat j = k)) as [E|Hne].
    + replace (j - Z.to_nat (k - i))%nat with 0%nat by lia. cbn [lookup list_lookup]. destruct (Z.ltb_spec (i + Z.of_nat j) (Z.max (k + 1) (array_size m))); [|lia].
      destruct (Z.ltb_spec k (i + Z.of_nat j)); [lia|]. by destruct (Z.ltb_spec (i + Z.of_nat j) k); [lia|].
    + replace (j - Z.to_nat (k - i))%nat with (S (Z.to_nat (i + Z.of_nat j - (k + 1)))) by lia. cbn [lookup list_lookup].
      change (list_lookup (Z.to_nat (i + Z.of_nat j - (k + 1))) (fill nullValue (k + 1) m)) with (fill nullValue (k + 1) m !! Z.to_nat (i + Z.of_nat j - (k + 1))).
      rewrite IH; [|lia|done|].
      * replace (k + 1 + Z.of_nat (Z.to_nat (i + Z.of_nat j - (k + 1)))) with (i + Z.of_nat j) by lia.
        destruct (Z.ltb_spec k (i + Z.of_nat j)); [|lia].
        by destruct (Z.ltb_spec (i + Z.of_nat j) (array_size m)), (Z.ltb_spec (i + Z.of_nat j) (Z.max (k + 1) (array_size m))); try lia.
      * eapply Forall_impl; [exact Ha|]. intros p Hp. cbn in Hp. lia.
Qed.
Lemma to_json_array m : array_ok m -> to_json (arrayValue m) = JArray (map to_json (items m)).
Proof.
  intros Hm. cbn. change JNull with (to_json nullValue). rewrite fill_map. do 2 f_equal. apply list_eq. intros j.
  rewrite (fill_lookup m 0) by (lia || apply Hm || (eapply Forall_impl; [apply Hm|]; intros p Hp; cbn in Hp; lia)).
  pose proof (items_lookup m (Z.of_nat j) Hm ltac:(lia)) as E. rewrite Nat2Z.id in E. by rewrite E.
Qed.

(** ** Objects *)
Section Objects.
Implicit Types (o : list (string * value)) (k : string).
Abbreviation members o := (map (fun p => (p.1, to_json p.2)) o).
Lemma insert_json k v o : sorted str_ltb o -> members (insert str_ltb k v o) = SMap.insert k (to_json v) (members o).
Proof.
  induction o as [|[k' v'] o IH]; [done|]. intros [Ha Hs]. cbn. destruct (key_cases str_ltb k k') as [E|[E| ->]].
  - rewrite (key_asym str_ltb _ _ E), E. done.
  - rewrite E, (key_asym str_ltb _ _ E). destruct (String.eqb_spec k k') as [->|]; [by rewrite str_ltb_irrefl in E|]. cbn. by rewrite IH.
  - rewrite str_ltb_irrefl, String.eqb_refl. done.
Qed.
Lemma find_json k o : sorted str_ltb o -> member (JObject (members o)) k = to_json (default nullValue (OMap.find str_ltb k o)).
Proof.
  cbn [member]. induction o as [|[k' v'] o IH]; [done|]. intros [Ha Hs]. cbn [map List.find OMap.find fst snd].
  destruct (String.eqb_spec k' k) as [->|Hne]; [by rewrite str_ltb_irrefl|]. destruct (key_cases str_ltb k' k) as [E|[E|]]; [| |done].
  - rewrite E. by apply IH.
  - rewrite (key_asym str_ltb _ _ E), E. rewrite IH by done. rewrite key_find_after; [done|apply _|]. by apply (key_after_trans str_ltb k k').
Qed.
End Objects.

Definition value_ok (v : value) : Prop :=
  match v with
  | uintValue n => 0 <= n
  | arrayValue m => array_ok m
  | objectValue m => sorted str_ltb m /\ zlen m < 2 ^ 31
  | _ => True
  end.
(** the result of an operation as the program sees it *)
Definition seen (r : outcome (unit * value)) : outcome json := obind r (fun '(_, v) => Ok (to_json v)).
Lemma seen_array i x m : array_ok m -> 0 <= i < maxInt -> i = zlen (items m) ->
  seen (ref_index i (put x) (arrayValue m)) = Ok (JArray (map to_json (items m) ++ [to_json x])).
Proof.
  intros Hm Hi Ei. rewrite ref_index_ok by (done || lia). cbn [put obind seen]. unfold seen. cbn [obind].
  rewrite to_json_array by by apply array_ok_insert. rewrite items_insert by done. do 2 f_equal.
  replace (i + 1 - zlen (items m)) with 1 by lia. rewrite Ei, insert_app_r_alt by (unfold zlen; lia). unfold zlen. rewrite Nat2Z.id, Nat.sub_diag.
  cbn. by rewrite map_app.
Qed.
(** [C34] What [Json] says of values is true of the values that jsoncpp keeps: for every
    well-formed value the tests of its type, its conversions, its size, the reading and
    the assignment of a member, and append give on the stored value what they give on
    the value that the program sees. *)
Theorem value_refines_json (v x : value) (name : string) : value_ok v ->
  (JsonValue.isNull v = Json.isNull (to_json v) /\ JsonValue.isBool v = Json.isBool (to_json v) /\
   JsonValue.isIntegral v = Json.isIntegral (to_json v) /\ JsonValue.isDouble v = Json.isDouble (to_json v) /\
   JsonValue.isString v = Json.isString (to_json v) /\ JsonValue.isArray v = Json.isArray (to_json v) /\
   JsonValue.isObject v = Json.isObject (to_json v)) /\
  JsonValue.asString v = Json.asString (to_json v) /\ JsonValue.asUInt v = Json.asUInt (to_json v) /\
  size v = Ok (Value.size (to_json v)) /\
  obind (at_member name v) (fun r => Ok (to_json (default nullValue r))) = Json.index (to_json v) name /\
  seen (ref_member name (put x) v) = set_member name (to_json x) (to_json v) /\
  (forall n, size v = Ok n -> n < maxInt -> seen (JsonValue.append x v) = Json.Value.append (to_json x) (to_json v)).
Proof.
  intros Hv. split_and!; try (by destruct v).
  - destruct v as [|n|n|d|s|b|m|o]; try done; cbn in *; destruct (Z.leb_spec 0 n), (Z.ltb_spec n 0); done || lia.
  - destruct v as [|n|n|d|s|b|m|o]; try done.
    + rewrite stored_size, to_json_array by done. cbn. unfold zlen. by rewrite length_map.
    + destruct Hv as [_ Hl]. pose proof (zlen_nonneg o). cbn. unfold zlen in *. rewrite length_map. f_equal.
      assert (to_signed 4 (Z.of_nat (length o)) = Z.of_nat (length o)) as -> by (apply CZString_index; unfold maxInt; lia).
      apply u32_small. unfold in_u32. lia.
  - destruct v as [|n|n|d|s|b|m|o]; try done. cbn [at_member obind to_json Json.index]. destruct Hv as [Hs _]. f_equal. symmetry. by apply find_json.
  - destruct v as [|n|n|d|s|b|m|o]; try done. destruct Hv as [Hs _]. unfold ref_member. rewrite at_key_ok. cbn. by rewrite insert_json.
  - intros n Hn Hlt. destruct v as [|k|k|d|s|b|m|o]; try done.
    + rewrite stored_size in Hn by done. injection Hn as <-. unfold JsonValue.append. rewrite stored_size by done. cbn [obind].
      pose proof (zlen_nonneg (items m)). rewrite seen_array by done. by rewrite to_json_array.
Qed.
Lemma value_refines_json_witness :
  seen (ref_member "k" (put (arrayValue gap_array)) (objectValue [("a", intValue 1)]%string)) =
    Ok (JObject [("a", JInt 1); ("k", JArray [JBool true; JNull; JNull; JInt 7])]%string) /\
  seen (JsonValue.append (intValue 8) (arrayValue gap_array)) = Ok (JArray [JBool true; JNull; JNull; JInt 7; JInt 8]).
Proof.
  destruct (value_refines_json (objectValue [("a", intValue 1)]%string) (arrayValue gap_array) "k") as (_ & _ & _ & _ & _ & H1 & _); [by repeat (split || apply List.Forall_nil)|].
  destruct (value_refines_json (arrayValue gap_array) (intValue 8) "k" gap_array_ok) as (_ & _ & _ & _ & _ & _ & H2).
  split; [exact H1|]. by apply (H2 4).
Defined.

(** ** Conversions *)
(** numbers of 32 bits *)
Definition in_range (v : value) : Prop :=
  match v with intValue n => minInt <= n <= maxInt | uintValue n => 0 <= n <= maxUInt | _ => True end.
Lemma truncated_range limit (p : positive) (e n : Z) : 0 <= limit -> truncated limit p e = Some n -> 0 <= n <= limit.
Proof.
  intros Hl. unfold truncated. pose proof (proj2 (Z.shiftl_nonneg (Z.pos p) e) ltac:(lia)) as Hp.
  destruct ((Z.shiftl (Z.pos p) e <? limit) || _) eqn:E; [|done]. intros [= <-]. zbool.
  apply orb_true_iff in E as [E|E]; [|apply andb_true_iff in E as [E _]]; zbool; lia.
Qed.
Lemma real_to_Int_range d n : real_to_Int d = Some n -> minInt <= n <= maxInt.
Proof.
  unfold real_to_Int. destruct d as [s|s| |[] m e]; try done; [intros [= <-]; done|..].
  - destruct (truncated _ m e) as [k|] eqn:E; [|done]. intros [= <-]. apply truncated_range in E; [|done]. unfold minInt, maxInt in *. lia.
  - intros E. apply truncated_range in E; [|done]. unfold minInt, maxInt in *. lia.
Qed.
Lemma real_to_UInt_range d n : real_to_UInt d = Some n -> 0 <= n <= maxUInt.
Proof.
  unfold real_to_UInt. destruct d as [s|s| |[] m e]; try done; [by intros [= <-]|]. intros E. apply (truncated_range maxUInt m e n); done.
Qed.
(** A conversion gives a number exactly when isConvertibleTo says that it does, and
    the number is in the range of its type - but for the greatest Int, held as a UInt,
    which is convertible and which asInt refuses. *)
Theorem conversions_checked (v : value) : in_range v ->
  (isConvertibleTo v TUInt = true <-> exists n, JsonValue.asUInt v = Ok n /\ 0 <= n <= maxUInt) /\
  (isConvertibleTo v TInt = true /\ v <> uintValue maxInt <-> exists n, asInt v = Ok n /\ minInt <= n <= maxInt) /\
  (isConvertibleTo v TReal = true <-> exists d, asDouble v = Ok d).
Proof.
  intros Hr. assert (minInt = - 2147483648 /\ maxInt = 2147483647 /\ maxUInt = 4294967295) as (E1 & E2 & E3) by done.
  split_and!.
  - destruct v as [|n|n|d|s|b|m|o]; cbn in *; try (split; [done|by intros (? & ? & _)]).
    + split; [intros _; by exists 0|done].
    + destruct (Z.leb_spec 0 n); split; try done; [intros _; exists n; split; [done|lia]|by intros (? & ? & _)].
    + split; [intros _; by exists n|done].
    + destruct (real_to_UInt d) as [n|] eqn:E; split; try done; [intros _; exists n; split; [done|by eapply real_to_UInt_range]|by intros (? & ? & _)].
    + split; [intros _; exists (if b then 1 else 0); by destruct b|done].
  - destruct v as [|n|n|d|s|b|m|o]; cbn in *; try (split; [by intros []|by intros (? & ? & _)]).
    + split; [intros _; by exists 0|done].
    + split; [intros _; by exists n|done].
    + destruct (Z.ltb_spec n maxInt); split; try (by intros (? & ? & _)).
      * intros _. exists n. split; [done|lia].
      * intros _. split; [apply Z.leb_le; lia|]. intros [= ->]. lia.
      * intros [Hle%Z.leb_le Hne]. exfalso. apply Hne. f_equal. lia.
    + destruct (real_to_Int d) as [n|] eqn:E; split; try done; [intros _; exists n; split; [done|by eapply real_to_Int_range]|by intros []|by intros (? & ? & _)].
    + split; [intros _; exists (if b then 1 else 0); by destruct b|done].
  - destruct v as [|n|n|d|s|b|m|o]; cbn in *; split; try done; try (intros _; by eexists); by intros [? ?].
Qed.
Lemma conversions_checked_witness : isConvertibleTo (uintValue maxInt) TInt = true /\ asInt (uintValue maxInt) = Fault UncaughtException /\
  exists n, asInt (realValue (real_of_Z (-5))) = Ok n /\ minInt <= n <= maxInt.
Proof.
  split; [reflexivity|]. split; [reflexivity|].
  destruct (conversions_checked (realValue (real_of_Z (-5))) I) as (_ & [H1 _] & _). by apply H1.
Defined.
(** a number counts as convertible to a string, and asString refuses it *)
Lemma string_conversion_refused n : isConvertibleTo (intValue n) TString = true /\ JsonValue.asString (intValue n) = Fault UncaughtException.
Proof. done. Qed.
