(* ===== verification/JsonReader.v ===== *)
(** * The JSON reader (src/src/jsoncpp/json_reader.cpp)

    [Reader::parse] on a buffer of bytes, with the features the program uses:
    comments are skipped and not collected, any value may be the root.  The messages
    of errors are not modelled: a failure is [false] with the value built so far.
    The C library's [sscanf("%lf")] is a parameter. *)

From Stdlib Require Import ZArith Lia Bool Ascii String.
From stdpp Require Import base list strings.
From S2P Require Import Prelude StdMap Json.
Set Default Goal Selector "!".
Local Open Scope Z_scope.
Local Open Scope drive_scope.

(** a character of the source *)
Notation "# c" := (ascii_byte c%char) (at level 1, c at level 0, only parsing) : drive_scope.
Definition quote_char : Z := 34.

Inductive TokenType :=
| tokenEndOfStream | tokenObjectBegin | tokenObjectEnd | tokenArrayBegin | tokenArrayEnd
| tokenString | tokenNumber | tokenTrue | tokenFalse | tokenNull
| tokenArraySeparator | tokenMemberSeparator | tokenComment | tokenError.
#[export] Instance token_eq_dec : EqDecision TokenType.
Proof. solve_decision. Defined.
(** a token: its type and its bytes, from [start_] to [end_] *)
Record Token := mktoken { type_ : TokenType; text_ : list Z }.

(** ** Characters *)
Definition is_space (c : Z) : bool := (c =? # " ") || (c =? 9) || (c =? 13) || (c =? 10).
Definition is_digit (c : Z) : bool := (# "0" <=? c) && (c <=? # "9").
Definition in_number (c : Z) : bool :=
  is_digit c || (c =? # ".") || (c =? # "e") || (c =? # "E") || (c =? # "+") || (c =? # "-").
(** 0 at the end *)
Definition getNextChar (l : list Z) : Z * list Z :=
  match l with [] => (0, []) | c :: l => (c, l) end.
Fixpoint skipSpaces (l : list Z) : list Z :=
  match l with
  | c :: l' => if is_space c then skipSpaces l' else l
  | [] => []
  end.
(** [match]: the pattern is consumed when it is there *)
Fixpoint match_pattern (pattern l : list Z) : option (list Z) :=
  match pattern, l with
  | [], _ => Some l
  | p :: pattern, c :: l => if c =? p then match_pattern pattern l else None
  | _ :: _, [] => None
  end.

(** ** Tokens *)
Fixpoint readCStyleComment (l : list Z) : bool * list Z :=
  match l with
  | [] => (false, [])
  | c :: l =>
      match l with
      | d :: l' => if (c =? # "*") && (d =? # "/") then (true, l') else readCStyleComment l
      | [] => (false, [])
      end
  end.
Fixpoint readCppStyleComment (l : list Z) : list Z :=
  match l with
  | [] => []
  | c :: l => if (c =? 13) || (c =? 10) then l else readCppStyleComment l
  end.
Definition readComment (l : list Z) : bool * list Z :=
  let (c, l) := getNextChar l in
  if c =? # "*" then readCStyleComment l
  else if c =? # "/" then (true, readCppStyleComment l)
  else (false, l).
Fixpoint readNumber (l : list Z) : list Z :=
  match l with
  | c :: l' => if in_number c then readNumber l' else l
  | [] => []
  end.
(** to the closing quotation mark; what follows a backslash is skipped *)
Fixpoint readString (l : list Z) : bool * list Z :=
  match l with
  | [] => (false, [])
  | c :: l =>
      if c =? # "\" then match l with [] => (false, []) | _ :: l => readString l end
      else if c =? quote_char then (true, l)
      else readString l
  end.
(** the switch of [readToken], on the first character and what follows it *)
Definition read_token (c : Z) (l1 : list Z) : TokenType * list Z :=
  let one (t : TokenType) := (t, l1) in
  let read (t : TokenType) (r : bool * list Z) := (if fst r then t else tokenError, snd r) in
  let word (t : TokenType) (pattern : string) :=
    match match_pattern (bytes_of_string pattern) l1 with
    | Some l2 => (t, l2)
    | None => (tokenError, l1)
    end in
  if c =? # "{" then one tokenObjectBegin
  else if c =? # "}" then one tokenObjectEnd
  else if c =? # "[" then one tokenArrayBegin
  else if c =? # "]" then one tokenArrayEnd
  else if c =? quote_char then read tokenString (readString l1)
  else if c =? # "/" then read tokenComment (readComment l1)
  else if is_digit c || (c =? # "-") then (tokenNumber, readNumber l1)
  else if c =? # "t" then word tokenTrue "rue"%string
  else if c =? # "f" then word tokenFalse "alse"%string
  else if c =? # "n" then word tokenNull "ull"%string
  else if c =? # "," then one tokenArraySeparator
  else if c =? # ":" then one tokenMemberSeparator
  else if c =? 0 then one tokenEndOfStream
  else one tokenError.
Definition readToken (l : list Z) : Token * list Z :=
  let l := skipSpaces l in
  let (c, l1) := getNextChar l in
  let (t, l2) := read_token c l1 in
  (mktoken t (take (length l - length l2) l), l2).
(** [readToken] until the token is no comment *)
Fixpoint skipCommentTokens (fuel : nat) (l : list Z) : outcome (Token * list Z) :=
  match fuel with
  | O => OutOfFuel
  | S fuel =>
      let (t, l) := readToken l in
      if decide (type_ t = tokenComment) then skipCommentTokens fuel l else Ok (t, l)
  end.
(** [recoverFromError]: the rest of the text after the error *)
Fixpoint recoverFromError (fuel : nat) (skip : TokenType) (l : list Z) : outcome (list Z) :=
  match fuel with
  | O => OutOfFuel
  | S fuel =>
      let (t, l) := readToken l in
      if bool_decide (type_ t = skip) || bool_decide (type_ t = tokenEndOfStream) then Ok l
      else recoverFromError fuel skip l
  end.

(** ** Strings *)
Definition codePointToUTF8 (cp : Z) : list Z :=
  if cp <=? 0x7f then [cp]
  else if cp <=? 0x7FF then [Z.lor 0xC0 (Z.land 0x1f (Z.shiftr cp 6)); Z.lor 0x80 (Z.land 0x3f cp)]
  else if cp <=? 0xFFFF then
    [Z.lor 0xE0 (Z.land 0xf (Z.shiftr cp 12)); Z.lor 0x80 (Z.land 0x3f (Z.shiftr cp 6)); Z.lor 0x80 (Z.land 0x3f cp)]
  else if cp <=? 0x10FFFF then
    [Z.lor 0xF0 (Z.land 0x7 (Z.shiftr cp 18)); Z.lor 0x80 (Z.land 0x3f (Z.shiftr cp 12));
     Z.lor 0x80 (Z.land 0x3f (Z.shiftr cp 6)); Z.lor 0x80 (Z.land 0x3f cp)]
  else [].
Definition hex_digit (c : Z) : option Z :=
  if is_digit c then Some (c - # "0")
  else if (# "a" <=? c) && (c <=? # "f") then Some (c - # "a" + 10)
  else if (# "A" <=? c) && (c <=? # "F") then Some (c - # "A" + 10)
  else None.
Definition decodeUnicodeEscapeSequence (a b c d : Z) : option Z :=
  match hex_digit a, hex_digit b, hex_digit c, hex_digit d with
  | Some a, Some b, Some c, Some d => Some (((a * 16 + b) * 16 + c) * 16 + d)
  | _, _, _, _ => None
  end.
(** one character after a backslash, [u] apart *)
Definition simple_escape (e : Z) : option Z :=
  if e =? quote_char then Some quote_char
  else if e =? # "/" then Some (# "/")
  else if e =? # "\" then Some (# "\")
  else if e =? # "b" then Some 8
  else if e =? # "f" then Some 12
  else if e =? # "n" then Some 10
  else if e =? # "r" then Some 13
  else if e =? # "t" then Some 9
  else None.
(** the text between the quotation marks; None for an error *)
Fixpoint decode_chars (l : list Z) : option (list Z) :=
  match l with
  | [] => Some []
  | c :: l =>
      if c =? quote_char then Some []
      else if c =? # "\" then
        match l with
        | [] => None
        | e :: l =>
            if e =? # "u" then
              match l with
              | a :: b :: c :: d :: l =>
                  match decodeUnicodeEscapeSequence a b c d with
                  | None => None
                  | Some unicode =>
                      if (0xD800 <=? unicode) && (unicode <=? 0xDBFF) then
                        match l with
                        | s :: u :: a :: b :: c :: d :: l =>
                            if (s =? # "\") && (u =? # "u") then
                              match decodeUnicodeEscapeSequence a b c d with
                              | None => None
                              | Some surrogatePair =>
                                  option_map (app (codePointToUTF8
                                    (0x10000 + Z.shiftl (Z.land unicode 0x3FF) 10 + Z.land surrogatePair 0x3FF)))
                                    (decode_chars l)
                              end
                            else None
                        | _ => None
                        end
                      else option_map (app (codePointToUTF8 unicode)) (decode_chars l)
                  end
              | _ => None
              end
            else match simple_escape e with
                 | Some x => option_map (cons x) (decode_chars l)
                 | None => None
                 end
        end
      else option_map (cons c) (decode_chars l)
  end.
Definition decodeString (t : Token) : option (list Z) :=
  decode_chars (take (length (text_ t) - 2) (drop 1 (text_ t))).
Definition c_string (l : list Z) : string := string_of_bytes (c_bytes l).

Section Reader.
(** [sscanf] with [%lf]; the byte that lies behind the text *)
Context (scan_double : list Z -> option real) (past : Z).

(** ** Numbers *)
(** a text of 32 characters is one too long for the buffer *)
Definition decodeDouble (t : list Z) (cur : json) : outcome (bool * json) :=
  if zlen t =? 32 then Fault OutOfBounds
  else match scan_double t with
       | Some d => Ok (true, JReal d)
       | None => Ok (false, cur)
       end.
(** the digits; None when there is another character, and whether it is too big *)
Fixpoint decode_digits (threshold : Z) (l : list Z) (value : Z) : option (option Z) :=
  match l with
  | [] => Some (Some value)
  | c :: l =>
      if negb (is_digit c) then None
      else if threshold <=? value then Some None
      else decode_digits threshold l (value * 10 + (c - # "0"))
  end.
Definition decodeNumber (t : list Z) (cur : json) : outcome (bool * json) :=
  let isDouble := existsb (fun c => (c =? # ".") || (c =? # "e") || (c =? # "E") || (c =? # "+")) t
                  || existsb (fun c => c =? # "-") (drop 1 t) in
  if isDouble then decodeDouble t cur
  else
    let isNegative := match t with c :: _ => c =? # "-" | [] => false end in
    let threshold := (if isNegative then 2 ^ 31 else 2 ^ 32 - 1) / 10 in
    match decode_digits threshold (if isNegative then drop 1 t else t) 0 with
    | None => Ok (false, cur)
    | Some None => decodeDouble t cur
    | Some (Some value) => Ok (true, JInt (if isNegative then - value else value))
    end.

(** ** Values: what was read, the value and the rest *)
Definition result : Type := bool * json * list Z.
Definition failed (skip : TokenType) (v : json) (l : list Z) : outcome result :=
  obind (recoverFromError (S (length l)) skip l) (fun l => Ok (false, v, l)).
Definition next_token (l : list Z) : outcome (Token * list Z) := skipCommentTokens (S (length l)) l.

(** The bodies of readValue, readObject and readArray, over the calls they make *)
Definition value_body (readObject : list (string * json) -> list Z -> list Z -> outcome result)
    (readArray : list json -> list Z -> outcome result) (cur : json) (l : list Z) : outcome result :=
  obind (next_token l) (fun '(t, l) =>
    match type_ t with
    | tokenObjectBegin => readObject [] [] l
    | tokenArrayBegin =>
        let l := skipSpaces l in
        if match l with c :: _ => c =? # "]" | [] => past =? # "]" end
        then Ok (true, JArray [], snd (readToken l))
        else readArray [] l
    | tokenNumber => obind (decodeNumber (text_ t) cur) (fun '(ok, v) => Ok (ok, v, l))
    | tokenString =>
        match decodeString t with
        | Some s => Ok (true, JString (c_string s), l)
        | None => Ok (false, cur, l)
        end
    | tokenTrue => Ok (true, JBool true, l)
    | tokenFalse => Ok (true, JBool false, l)
    | tokenNull => Ok (true, JNull, l)
    | _ => Ok (false, cur, l)
    end).
(** one member, and what follows it; [name] is the name read before *)
Definition object_body (readValue : json -> list Z -> outcome result)
    (readObject : list (string * json) -> list Z -> list Z -> outcome result)
    (members : list (string * json)) (name l : list Z) : outcome result :=
  obind (next_token l) (fun '(tokenName, l) =>
    match type_ tokenName, name with
    | tokenObjectEnd, [] => Ok (true, JObject members, l)
    | tokenString, _ =>
        match decodeString tokenName with
        | None => failed tokenObjectEnd (JObject members) l
        | Some name =>
            let (colon, l) := readToken l in
            if negb (bool_decide (type_ colon = tokenMemberSeparator)) then failed tokenObjectEnd (JObject members) l
            else
              obind (readValue (member (JObject members) (c_string name)) l) (fun '(ok, v, l) =>
                let members := SMap.insert (c_string name) v members in
                if negb ok then failed tokenObjectEnd (JObject members) l
                else
                  let (comma, l) := readToken l in
                  match type_ comma with
                  | tokenObjectEnd => Ok (true, JObject members, l)
                  | tokenArraySeparator => readObject members name l
                  | tokenComment =>
                      obind (next_token l) (fun '(comma, l) =>
                        if decide (type_ comma = tokenObjectEnd) then Ok (true, JObject members, l)
                        else readObject members name l)
                  | _ => failed tokenObjectEnd (JObject members) l
                  end)
        end
    | _, _ => failed tokenObjectEnd (JObject members) l
    end).
(** one element, and what follows it: any token but the end counts as a comma *)
Definition array_body (readValue : json -> list Z -> outcome result) (readArray : list json -> list Z -> outcome result)
    (elems : list json) (l : list Z) : outcome result :=
  obind (readValue JNull l) (fun '(ok, v, l) =>
    let elems := elems ++ [v] in
    if negb ok then failed tokenArrayEnd (JArray elems) l
    else
      obind (next_token l) (fun '(t, l) =>
        if decide (type_ t = tokenArrayEnd) then Ok (true, JArray elems, l)
        else readArray elems l)).
Fixpoint readValue (fuel : nat) : json -> list Z -> outcome result :=
  match fuel with
  | O => fun _ _ => OutOfFuel
  | S fuel => fun cur l => value_body (readObject fuel) (readArray fuel) cur l
  end
with readObject (fuel : nat) : list (string * json) -> list Z -> list Z -> outcome result :=
  match fuel with
  | O => fun _ _ _ => OutOfFuel
  | S fuel => fun members name l => object_body (readValue fuel) (readObject fuel) members name l
  end
with readArray (fuel : nat) : list json -> list Z -> outcome result :=
  match fuel with
  | O => fun _ _ => OutOfFuel
  | S fuel => fun elems l => array_body (readValue fuel) (readArray fuel) elems l
  end.

Definition parse (cur : json) (text : list Z) : outcome (bool * json) :=
  obind (readValue (2 * length text + 2) cur text) (fun '(successful, root, l) =>
    obind (next_token l) (fun _ => Ok (successful, root))).
End Reader.
