(* ===== verification/JsonReaderFacts.v ===== *)
(** * The JSON reader returns

    What a token takes from the text, and that [parse] ends on every text: its
    fuel is enough, and the only thing that can go wrong is a number of 32
    characters. *)

From Stdlib Require Import ZArith Lia Bool Ascii String.
From stdpp Require Import base list strings.
From S2P Require Import Prelude StdMap Json JsonReader.
Set Default Goal Selector "!".
Local Open Scope Z_scope.
Local Open Scope drive_scope.

(** ** What is left of the text is a suffix of it *)
Lemma skipSpaces_suffix l : suffix (skipSpaces l) l.
Proof. induction l as [|c l IH]; cbn; [done|]. destruct (is_space c); [by apply suffix_cons_r|done]. Qed.
Lemma readNumber_split l : exists n, l = n ++ readNumber l /\ Forall (fun c => in_number c = true) n.
Proof.
  induction l as [|c l (n & E & Hn)]; [by exists []|]. cbn. destruct (in_number c) eqn:Ec.
  - exists (c :: n). split; [cbn; by rewrite <- E|by apply List.Forall_cons].
  - by exists [].
Qed.
Lemma readNumber_suffix l : suffix (readNumber l) l.
Proof. destruct (readNumber_split l) as (n & E & _). by exists n. Qed.
Lemma readString_suffix l : suffix (snd (readString l)) l.
Proof.
  remember (length l) as n eqn:Hn. revert l Hn. induction n as [n IH] using lt_wf_ind. intros [|c l] ->; [done|].
  cbn. destruct (c =? # "\").
  - destruct l as [|d l]; cbn; [apply suffix_nil|]. apply suffix_cons_r, suffix_cons_r. by eapply IH; [|reflexivity]; cbn; lia.
  - destruct (c =? quote_char); cbn; [by apply suffix_cons_r|]. apply suffix_cons_r. by eapply IH; [|reflexivity]; cbn; lia.
Qed.
Lemma readCStyleComment_suffix l : suffix (snd (readCStyleComment l)) l.
Proof.
  induction l as [|c l IH]; [done|]. cbn. destruct l as [|d l]; [apply suffix_nil|].
  destruct (_ && _); cbn; [by do 2 apply suffix_cons_r|by apply suffix_cons_r].
Qed.
Lemma readCppStyleComment_suffix l : suffix (readCppStyleComment l) l.
Proof. induction l as [|c l IH]; [done|]. cbn. destruct (_ || _); by apply suffix_cons_r. Qed.
Lemma readComment_suffix l : suffix (snd (readComment l)) l.
Proof.
  unfold readComment. destruct l as [|c l]; [done|]. cbn. apply suffix_cons_r.
  destruct (c =? _); [apply readCStyleComment_suffix|]. destruct (c =? _); [apply readCppStyleComment_suffix|done].
Qed.
Lemma match_pattern_suffix p : forall l l', match_pattern p l = Some l' -> suffix l' l.
Proof.
  induction p as [|c p IH]; intros [|d l] l'; cbn; [by intros [= <-]..|done|]. destruct (d =? c); [|done].
  intros E. apply suffix_cons_r. eauto.
Qed.
#[local] Hint Resolve readNumber_suffix readString_suffix readComment_suffix : core.
Lemma read_token_suffix c l : suffix (snd (read_token c l)) l.
Proof.
  unfold read_token.
  repeat match goal with |- suffix (snd (if ?b then _ else _)) _ => destruct b end; cbn [fst snd]; auto; try reflexivity;
    (destruct (match_pattern _ l) eqn:E; cbn; [by eapply match_pattern_suffix|reflexivity]).
Qed.
Lemma take_consumed (l k l2 : list Z) : l = k ++ l2 -> take (length l - length l2) l = k.
Proof. intros ->. rewrite length_app, Nat.add_sub. by rewrite take_app_length. Qed.
(** what a token is, besides the end of the text, takes a character or more *)
Lemma readToken_split l t l' : readToken l = (t, l') ->
  exists w, l = w ++ text_ t ++ l' /\ (type_ t = tokenEndOfStream \/ text_ t <> []) /\ (text_ t = [] -> l' = []).
Proof.
  unfold readToken. destruct (skipSpaces_suffix l) as [w Hw]. destruct (skipSpaces l) as [|c l1] eqn:El; cbn [getNextChar].
  - cbn. intros [= <- <-]. exists w. cbn. split; [done|]. split; [by left|done].
  - destruct (read_token c l1) as [ty l2] eqn:Et. intros [= <- <-]. exists w. cbn [text_ type_].
    pose proof (read_token_suffix c l1) as Hs. rewrite Et in Hs. destruct Hs as [k Hk]. cbn in Hk.
    change (S (length l1)) with (length (c :: l1)). rewrite (take_consumed _ (c :: k) l2) by by rewrite Hk.
    split; [by rewrite Hw, Hk|]. split; [by right|done].
Qed.
Lemma readToken_suffix l : suffix (snd (readToken l)) l.
Proof.
  destruct (readToken l) as [t l'] eqn:E. apply readToken_split in E as (w & -> & _). exists (w ++ text_ t). by rewrite <- app_assoc.
Qed.
Lemma readToken_shorter l t l' : readToken l = (t, l') -> type_ t <> tokenEndOfStream -> (length l' < length l)%nat.
Proof.
  intros E Ht. apply readToken_split in E as (w & -> & [Hs|Hs] & _); [done|]. rewrite !length_app.
  destruct (text_ t); [done|]. cbn. lia.
Qed.
Lemma readToken_end l t l' : readToken l = (t, l') -> type_ t = tokenEndOfStream -> text_ t = [] -> l' = [].
Proof. intros E _ Ht. apply readToken_split in E as (w & _ & _ & H). auto. Qed.

(** ** The loops over tokens end *)
Lemma skipCommentTokens_ok fuel : forall l, (length l < fuel)%nat ->
  exists t l', skipCommentTokens fuel l = Ok (t, l') /\ suffix l' l /\ type_ t <> tokenComment /\
    (exists w, suffix (w ++ text_ t ++ l') l) /\ (type_ t <> tokenEndOfStream -> (length l' < length l)%nat).
Proof.
  induction fuel as [|fuel IH]; intros l Hl; [lia|]. cbn [skipCommentTokens].
  destruct (readToken l) as [t l'] eqn:E. pose proof (readToken_suffix l) as Hs. rewrite E in Hs. cbn in Hs.
  destruct (decide _) as [Hc|Hc].
  - assert (length l' < length l)%nat as Hlt by (apply (readToken_shorter _ _ _ E); congruence).
    destruct (IH l' ltac:(lia)) as (t2 & l2 & -> & H1 & H2 & (w & H3) & H4). exists t2, l2. split; [done|].
    split; [by etrans|]. split; [done|]. split; [exists w; by etrans|]. intros H. specialize (H4 H). lia.
  - exists t, l'. split; [done|]. split; [done|]. split; [done|].
    split; [apply readToken_split in E as (w & -> & _); by exists w|by apply readToken_shorter].
Qed.
Lemma next_token_ok l : exists t l', next_token l = Ok (t, l') /\ suffix l' l /\ type_ t <> tokenComment /\
    (exists w, suffix (w ++ text_ t ++ l') l) /\ (type_ t <> tokenEndOfStream -> (length l' < length l)%nat).
Proof. apply skipCommentTokens_ok. lia. Qed.
Lemma recoverFromError_ok fuel : forall skip l, (length l < fuel)%nat ->
  exists l', recoverFromError fuel skip l = Ok l' /\ suffix l' l.
Proof.
  induction fuel as [|fuel IH]; intros skip l Hl; [lia|]. cbn [recoverFromError].
  destruct (readToken l) as [t l'] eqn:E. pose proof (readToken_suffix l) as Hs. rewrite E in Hs. cbn in Hs.
  destruct (bool_decide (type_ t = skip)); [by exists l'|]. destruct (bool_decide _) eqn:Ee; [by exists l'|]. cbn.
  apply bool_decide_eq_false in Ee. pose proof (readToken_shorter _ _ _ E Ee).
  destruct (IH skip l' ltac:(lia)) as (l2 & -> & H2). exists l2. split; [done|by etrans].
Qed.
Lemma failed_ok skip v l : exists l', failed skip v l = Ok (false, v, l') /\ suffix l' l.
Proof.
  unfold failed. destruct (recoverFromError_ok (S (length l)) skip l ltac:(lia)) as (l' & -> & H). by exists l'.
Qed.

(** ** [parse] *)
(** 32 characters of a number in a row *)
Definition long_number (l : list Z) : Prop :=
  exists a n b, l = a ++ n ++ b /\ length n = 32%nat /\ Forall (fun c => in_number c = true) n.
Lemma long_number_suffix l' l : suffix l' l -> long_number l' -> long_number l.
Proof. intros [k ->] (a & n & b & -> & H). exists (k ++ a), n, b. by rewrite <- app_assoc. Qed.
Lemma read_token_number c l1 l2 : read_token c l1 = (tokenNumber, l2) -> in_number c = true /\ l2 = readNumber l1.
Proof.
  unfold read_token, in_number. destruct (is_digit c || (c =? # "-")) eqn:Ed.
  - repeat match goal with |- (if ?b then _ else _) = _ -> _ => destruct b eqn:? end; try done;
      try (destruct match_pattern; done).
    all: try (cbn; destruct (fst _); done). intros [= <-]. split; [|done].
    apply orb_true_iff in Ed as [-> | ->]; [done|]. by rewrite orb_true_r.
  - repeat match goal with |- (if ?b then _ else _) = _ -> _ => destruct b end; try done;
      try (destruct match_pattern; done). all: cbn; destruct (fst _); done.
Qed.
Lemma readToken_number l t l' : readToken l = (t, l') -> type_ t = tokenNumber -> Forall (fun c => in_number c = true) (text_ t).
Proof.
  unfold readToken. destruct (skipSpaces l) as [|c l1]; cbn [getNextChar]; [by intros [= <- <-]|].
  destruct (read_token c l1) as [ty l2] eqn:Et. intros [= <- <-]. cbn [type_ text_]. intros ->.
  apply read_token_number in Et as [Hc ->]. destruct (readNumber_split l1) as (n & E & Hn).
  change (S (length l1)) with (length (c :: l1)).
  rewrite (take_consumed _ (c :: n) (readNumber l1)) by by cbn; rewrite <- E. by apply List.Forall_cons.
Qed.
Lemma next_token_number l t l' : next_token l = Ok (t, l') -> type_ t = tokenNumber -> Forall (fun c => in_number c = true) (text_ t).
Proof.
  unfold next_token. generalize (S (length l)). intros fuel. revert l. induction fuel as [|fuel IH]; [done|]. intros l. cbn.
  destruct (readToken l) as [t1 l1] eqn:E. destruct (decide _); [by apply IH|]. intros [= <- <-]. by eapply readToken_number.
Qed.

Section Returns.
Context (scan_double : list Z -> option real) (past : Z).
Definition good (l : list Z) (o : outcome result) : Prop :=
  match o with
  | OutOfFuel => False
  | Fault f => f = OutOfBounds /\ long_number l
  | Ok (ok, _, l') => suffix l' l /\ (ok = true -> length l' < length l)%nat
  end.
Lemma good_suffix l l' o : suffix l' l -> good l' o -> good l o.
Proof.
  intros Hs. pose proof (suffix_length _ _ Hs). destruct o as [[[ok v] r]|f|]; cbn; [|intros [-> Hf]|done].
  - intros [H1 H2]. split; [by etrans|]. intros E. specialize (H2 E). lia.
  - split; [done|by eapply long_number_suffix].
Qed.
Lemma good_failed skip v l : good l (failed skip v l).
Proof. destruct (failed_ok skip v l) as (l' & -> & H). by split. Qed.
Lemma decodeNumber_good t cur : Forall (fun c => in_number c = true) t ->
  match decodeNumber scan_double t cur with
  | Ok _ => True
  | Fault f => f = OutOfBounds /\ long_number t
  | OutOfFuel => False
  end.
Proof.
  intros Ht. assert (match decodeDouble scan_double t cur with Ok _ => True | Fault f => f = OutOfBounds /\ long_number t | OutOfFuel => False end) as Hd.
  { unfold decodeDouble. destruct (Z.eqb_spec (zlen t) 32) as [E|E].
    - split; [done|]. exists [], t, []. rewrite app_nil_r. split; [done|]. unfold zlen in E. split; [lia|done].
    - by destruct (scan_double t). }
  unfold decodeNumber. destruct (_ || _); [done|]. by destruct decode_digits as [[|]|].
Qed.
Abbreviation read_value := (readValue scan_double past).
Abbreviation read_object := (readObject scan_double past).
Abbreviation read_array := (readArray scan_double past).
(** enough fuel for what is left of the text *)
Definition returns (fuel : nat) : Prop :=
  (forall cur l, (2 * length l + 1 <= fuel)%nat -> good l (read_value fuel cur l)) /\
  (forall ms name l, (2 * length l + 1 <= fuel)%nat -> good l (read_object fuel ms name l)) /\
  (forall vs l, (2 * length l + 2 <= fuel)%nat -> good l (read_array fuel vs l)).

Lemma readValue_good fuel cur l : returns fuel -> (2 * length l + 1 <= S fuel)%nat -> good l (read_value (S fuel) cur l).
Proof using.
  intros (_ & IHo & IHa) Hl. change (readValue scan_double past (S fuel)) with (value_body scan_double past (readObject scan_double past fuel) (readArray scan_double past fuel)). unfold value_body. destruct (next_token_ok l) as (t & l1 & E & Hs & _ & (w & Hw) & Hlt). rewrite E. cbn [obind].
  destruct (type_ t) eqn:Et; try (specialize (Hlt ltac:(discriminate))).
  all: try (split; [exact Hs|first [discriminate|done]]).
  - apply (good_suffix _ l1); [done|]. apply IHo. lia.
  - pose proof (suffix_length _ _ (skipSpaces_suffix l1)) as Hk. destruct (match _ with [] => _ | _ => _ end).
    + split; [etrans; [|exact Hs]; etrans; [apply readToken_suffix|apply skipSpaces_suffix]|].
      intros _. pose proof (suffix_length _ _ (readToken_suffix (skipSpaces l1))). lia.
    + apply (good_suffix _ (skipSpaces l1)); [etrans; [apply skipSpaces_suffix|done]|]. apply IHa. lia.
  - destruct (decodeString t); (split; [exact Hs|done]).
  - pose proof (decodeNumber_good _ cur (next_token_number _ _ _ E Et)) as Hn.
    destruct (decodeNumber scan_double (text_ t) cur) as [[ok v]|f|]; cbn; [by split| |done].
    destruct Hn as [-> (a & n & b & En & H)]. split; [done|]. apply (long_number_suffix _ _ Hw).
    exists (w ++ a), n, (b ++ l1). rewrite En, <- !app_assoc. by split.
Qed.
Lemma readObject_good fuel ms name l : returns fuel -> (2 * length l + 1 <= S fuel)%nat -> good l (read_object (S fuel) ms name l).
Proof using.
  intros (IHv & IHo & _) Hl. change (readObject scan_double past (S fuel)) with (object_body (readValue scan_double past fuel) (readObject scan_double past fuel)). unfold object_body. destruct (next_token_ok l) as (t & l1 & E & Hs & _ & _ & Hlt). rewrite E. cbn [obind].
  destruct (type_ t) eqn:Et; try (specialize (Hlt ltac:(discriminate))).
  all: try (apply (good_suffix _ l1); [done|apply good_failed]).
  { destruct name; [by split|]. apply (good_suffix _ l1); [done|apply good_failed]. }
  destruct (decodeString t) as [nm|]; [|apply (good_suffix _ l1); [done|apply good_failed]].
  destruct (readToken l1) as [colon l2] eqn:E2. pose proof (readToken_suffix l1) as Hs2. rewrite E2 in Hs2. cbn in Hs2.
  assert (suffix l2 l) as Hs2' by by etrans. pose proof (suffix_length _ _ Hs2).
  apply (good_suffix _ l2); [done|].
  destruct (negb _); [apply good_failed|]. pose proof (IHv (member (JObject ms) (c_string nm)) l2 ltac:(lia)) as Hv.
  destruct (read_value fuel _ l2) as [[[ok v] l3]|f|]; [|exact Hv|done]. cbn [obind]. destruct Hv as [Hs3 Hlt3].
  apply (good_suffix _ l3); [done|]. destruct ok; cbn [negb]; [|apply good_failed]. specialize (Hlt3 eq_refl).
  destruct (readToken l3) as [comma l4] eqn:E4. pose proof (readToken_suffix l3) as Hs4. rewrite E4 in Hs4. cbn in Hs4.
  pose proof (suffix_length _ _ Hs4).
  destruct (type_ comma) eqn:Ec; try (apply (good_suffix _ l4); [done|apply good_failed]).
  - split; [done|]. intros _. apply (readToken_shorter _ _ _ E4). congruence.
  - apply (good_suffix _ l4); [done|]. apply IHo. lia.
  - destruct (next_token_ok l4) as (t5 & l5 & E5 & Hs5 & _ & _ & Hlt5). rewrite E5. cbn [obind]. apply (good_suffix _ l4); [done|].
    destruct (decide _) as [He|He].
    + split; [done|]. intros _. apply Hlt5. congruence.
    + apply (good_suffix _ l5); [done|]. pose proof (suffix_length _ _ Hs5). apply IHo. lia.
Qed.
Lemma readArray_good fuel vs l : returns fuel -> (2 * length l + 2 <= S fuel)%nat -> good l (read_array (S fuel) vs l).
Proof using.
  intros (IHv & _ & IHa) Hl. change (readArray scan_double past (S fuel)) with (array_body (readValue scan_double past fuel) (readArray scan_double past fuel)). unfold array_body. pose proof (IHv JNull l ltac:(lia)) as Hv.
  destruct (read_value fuel JNull l) as [[[ok v] l1]|f|]; [|exact Hv|done]. cbn [obind]. destruct Hv as [Hs Hlt].
  apply (good_suffix _ l1); [done|]. destruct ok; cbn [negb]; [|apply good_failed]. specialize (Hlt eq_refl).
  destruct (next_token_ok l1) as (t & l2 & E & Hs2 & _ & _ & Hlt2). rewrite E. cbn [obind].
  destruct (decide _) as [He|He].
  - split; [done|]. intros _. apply Hlt2. congruence.
  - apply (good_suffix _ l2); [done|]. pose proof (suffix_length _ _ Hs2). apply IHa. lia.
Qed.
Lemma reader_returns fuel : returns fuel.
Proof using.
  induction fuel as [|fuel IH]; [split; [|split]; intros; lia|].
  split; [|split]; intros; [by apply readValue_good|by apply readObject_good|by apply readArray_good].
Qed.
End Returns.

(** [C16] The reader returns on every text: a value and whether the text was one, in
    the fuel that [parse] gives it.  The one thing that can go wrong is a number of 32
    characters that is read as a double, whose copy does not fit its buffer. *)
Theorem json_reader_returns (scan_double : list Z -> option real) (past : Z) (cur : json) (text : list Z) :
  match parse scan_double past cur text with
  | Ok _ => True
  | Fault f => f = OutOfBounds /\ long_number text
  | OutOfFuel => False
  end.
Proof.
  unfold parse. destruct (reader_returns scan_double past (2 * length text + 2)) as (Hv & _).
  specialize (Hv cur text ltac:(lia)). destruct readValue as [[[ok v] l]|f|]; [|exact Hv|done]. cbn [obind].
  by destruct (next_token_ok l) as (t & l' & -> & _).
Qed.
