(* ===== verification/JsonText.v ===== *)
(** * JSON texts

    The grammar: which texts stand for a value, with white space wherever it is
    allowed and any escapes.  The reader of [JsonReader] reads every text of the
    grammar as its value and stops behind it. *)

From Stdlib Require Import ZArith Lia Bool Ascii String.
From stdpp Require Import base list strings.
From S2P Require Import Prelude StdMap Json JsonReader JsonReaderFacts.
Set Default Goal Selector "!".
Local Open Scope Z_scope.
Local Open Scope drive_scope.

(** ** The grammar *)
Definition ws (l : list Z) : Prop := Forall (fun c => is_space c = true) l.
(** a decimal number: not empty, digits, their value, no leading zero *)
Definition dec_value (l : list Z) : Z := fold_left (fun v c => v * 10 + (c - # "0")) l 0.
Definition decimal (t : list Z) (n : Z) : Prop :=
  t <> [] /\ Forall (fun c => is_digit c = true) t /\ dec_value t = n /\ (hd 0 t = # "0" -> t = [# "0"]).
Inductive char_text : Z -> list Z -> Prop :=
| raw_char c : c <> quote_char -> c <> # "\" -> char_text c [c]
| escaped_char c e : e <> # "u" -> simple_escape e = Some c -> char_text c [# "\"; e]
| unicode_char c a b d e : decodeUnicodeEscapeSequence a b d e = Some c -> 0 <= c <= 0x7f ->
    char_text c [# "\"; # "u"; a; b; d; e].
Inductive chars_text : list Z -> list Z -> Prop :=
| no_chars : chars_text [] []
| more_chars c t s r : char_text c t -> chars_text s r -> chars_text (c :: s) (t ++ r).
Definition string_text (s t : list Z) : Prop := exists r, chars_text s r /\ t = quote_char :: r ++ [quote_char].

Inductive json_text : json -> list Z -> Prop :=
| null_text : json_text JNull (bytes_of_string "null")
| true_text : json_text (JBool true) (bytes_of_string "true")
| false_text : json_text (JBool false) (bytes_of_string "false")
| int_text n t : decimal t n -> json_text (JInt n) t
| negative_text n t : decimal t n -> json_text (JInt (- n)) (# "-" :: t)
| str_text s t : string_text (bytes_of_string s) t -> json_text (JString s) t
| empty_array_text w : ws w -> json_text (JArray []) (# "[" :: w ++ [# "]"])
| array_text l t : elements_text l t -> json_text (JArray l) (# "[" :: t)
| empty_object_text w : ws w -> json_text (JObject []) (# "{" :: w ++ [# "}"])
| object_text l t : members_text l t -> json_text (JObject l) (# "{" :: t)
with elements_text : list json -> list Z -> Prop :=
| last_element v t w1 w2 : ws w1 -> json_text v t -> ws w2 -> elements_text [v] (w1 ++ t ++ w2 ++ [# "]"])
| more_elements v t w1 w2 l r : ws w1 -> json_text v t -> ws w2 -> elements_text l r ->
    elements_text (v :: l) (w1 ++ t ++ w2 ++ # "," :: r)
with members_text : list (string * json) -> list Z -> Prop :=
| last_member k v s t w1 w2 w3 w4 : ws w1 -> string_text (bytes_of_string k) s -> ws w2 -> ws w3 -> json_text v t -> ws w4 ->
    members_text [(k, v)] (w1 ++ s ++ w2 ++ # ":" :: w3 ++ t ++ w4 ++ [# "}"])
| more_members k v s t w1 w2 w3 w4 l r : ws w1 -> string_text (bytes_of_string k) s -> ws w2 -> ws w3 -> json_text v t -> ws w4 ->
    members_text l r -> members_text ((k, v) :: l) (w1 ++ s ++ w2 ++ # ":" :: w3 ++ t ++ w4 ++ # "," :: r).
Scheme json_text_mind := Induction for json_text Sort Prop
  with elements_text_mind := Induction for elements_text Sort Prop
  with members_text_mind := Induction for members_text Sort Prop.
Combined Scheme texts_ind from json_text_mind, elements_text_mind, members_text_mind.

(** ** Tokens *)
Lemma skipSpaces_ws w l : ws w -> skipSpaces (w ++ l) = skipSpaces l.
Proof. intros Hw. induction Hw as [|c w Hc _ IH]; [done|]. cbn. by rewrite Hc. Qed.
Lemma readToken_ws w l : ws w -> readToken (w ++ l) = readToken l.
Proof. intros Hw. unfold readToken. by rewrite skipSpaces_ws. Qed.
(** a character that is a token by itself, or starts one *)
Lemma readToken_start c l t l2 k : is_space c = false -> read_token c l = (t, l2) -> l = k ++ l2 ->
  readToken (c :: l) = (mktoken t (c :: k), l2).
Proof.
  intros Hs Ht Hk. unfold readToken. cbn [skipSpaces]. rewrite Hs. cbn [getNextChar]. rewrite Ht. do 2 f_equal.
  apply take_consumed. by rewrite Hk.
Qed.
Lemma next_token_start w c l t l2 k : ws w -> is_space c = false -> read_token c l = (t, l2) -> l = k ++ l2 -> t <> tokenComment ->
  next_token (w ++ c :: l) = Ok (mktoken t (c :: k), l2).
Proof.
  intros Hw Hs Ht Hk Hc. unfold next_token. cbn [skipCommentTokens]. rewrite readToken_ws, (readToken_start c l t l2 k) by done.
  cbn [type_]. by rewrite decide_False.
Qed.

(** ** Strings *)
Lemma hex_digit_plain c n : hex_digit c = Some n -> (c =? # "\") = false /\ (c =? quote_char) = false.
Proof.
  unfold hex_digit, is_digit, quote_char. change (# "0") with 48. change (# "9") with 57. change (# "a") with 97.
  change (# "f") with 102. change (# "A") with 65. change (# "F") with 70. change (# "\") with 92. intros H.
  split; apply Z.eqb_neq; intros ->; discriminate H.
Qed.
Lemma unicode_digits a b d e c : decodeUnicodeEscapeSequence a b d e = Some c ->
  Forall (fun x => (x =? # "\") = false /\ (x =? quote_char) = false) [a; b; d; e].
Proof.
  unfold decodeUnicodeEscapeSequence. destruct (hex_digit a) eqn:Ea; [|done]. destruct (hex_digit b) eqn:Eb; [|done].
  destruct (hex_digit d) eqn:Ed; [|done]. destruct (hex_digit e) eqn:Ee; [|done]. intros _.
  repeat (apply List.Forall_cons; [by eapply hex_digit_plain|]). apply List.Forall_nil.
Qed.
Lemma readString_plain l rest : Forall (fun x => (x =? # "\") = false /\ (x =? quote_char) = false) l ->
  readString (l ++ rest) = readString rest.
Proof. intros Hl. induction Hl as [|x l [H1 H2] _ IH]; [done|]. cbn. by rewrite H1, H2. Qed.
Lemma readString_char c t rest : char_text c t -> readString (t ++ rest) = readString rest.
Proof.
  intros Ht. destruct Ht as [c Hq Hb|c e Hu He|c a b d e Hd Hc]; cbn [app].
  - apply (readString_plain [c]). apply Forall_singleton. by split; apply Z.eqb_neq.
  - reflexivity.
  - change (readString ([a; b; d; e] ++ rest) = readString rest). apply readString_plain. by eapply unicode_digits.
Qed.
Lemma readString_chars s r rest : chars_text s r -> readString (r ++ quote_char :: rest) = (true, rest).
Proof.
  intros Hs. induction Hs as [|c t s r Ht _ IH]; [reflexivity|]. rewrite <- app_assoc. by rewrite (readString_char c).
Qed.
Lemma decode_char c t l : char_text c t -> decode_chars (t ++ l) = option_map (cons c) (decode_chars l).
Proof.
  intros Ht. destruct Ht as [c Hq Hb|c e Hu He|c a b d e Hd Hc]; cbn [app].
  - cbn [decode_chars]. by apply Z.eqb_neq in Hq as ->, Hb as ->.
  - cbn [decode_chars]. change (# "\" =? quote_char) with false. rewrite Z.eqb_refl. apply Z.eqb_neq in Hu as ->. by rewrite He.
  - cbn [decode_chars]. change (# "\" =? quote_char) with false. rewrite !Z.eqb_refl, Hd.
    destruct (Z.leb_spec 0xD800 c); [lia|]. cbn [andb]. unfold codePointToUTF8. by destruct (Z.leb_spec c 0x7f); [|lia].
Qed.
Lemma decode_string_text s r : chars_text s r -> decode_chars r = Some s.
Proof.
  intros Hs. induction Hs as [|c t s r Ht _ IH]; [done|]. by rewrite (decode_char c), IH.
Qed.
Lemma readToken_string w s t rest : ws w -> string_text s t ->
  exists tok, next_token (w ++ t ++ rest) = Ok (tok, rest) /\ type_ tok = tokenString /\ decodeString tok = Some s.
Proof.
  intros Hw (r & Hr & ->). exists (mktoken tokenString (quote_char :: r ++ [quote_char])). split.
  - cbn [app]. rewrite <- app_assoc. apply next_token_start; [done|done| |by rewrite <- app_assoc|done].
    unfold read_token. cbn [app]. rewrite (readString_chars s) by done. reflexivity.
  - split; [done|]. unfold decodeString. cbn [text_ length]. rewrite length_app.
    change (drop 1 (quote_char :: r ++ [quote_char])) with (r ++ [quote_char]). cbn [length].
    replace (S (length r + 1) - 2)%nat with (length r) by lia. rewrite take_app_length. by apply decode_string_text.
Qed.

(** ** Numbers *)
Lemma dec_value_step l v : fold_left (fun v c => v * 10 + (c - # "0")) l v = v * 10 ^ zlen l + dec_value l.
Proof.
  unfold dec_value. revert v. induction l as [|c l IH]; intros v; [unfold zlen; cbn; lia|]. cbn [fold_left].
  rewrite IH, (IH (0 * 10 + _)). unfold zlen. cbn [length]. rewrite Nat2Z.inj_succ, Z.pow_succ_r by lia. lia.
Qed.
Lemma dec_value_cons c l : dec_value (c :: l) = (c - # "0") * 10 ^ zlen l + dec_value l.
Proof. change (dec_value (c :: l)) with (fold_left (fun v c => v * 10 + (c - # "0")) l (0 * 10 + (c - # "0"))). by rewrite dec_value_step. Qed.
Lemma is_digit_range c : is_digit c = true -> 0 <= c - # "0" < 10.
Proof. unfold is_digit. rewrite andb_true_iff, !Z.leb_le. change (# "0") with 48. change (# "9") with 57. lia. Qed.
Lemma dec_value_nonneg l : Forall (fun c => is_digit c = true) l -> 0 <= dec_value l.
Proof.
  intros Hl. induction Hl as [|c l Hc _ IH]; [done|]. rewrite dec_value_cons. apply is_digit_range in Hc.
  pose proof (Z.pow_nonneg 10 (zlen l)). nia.
Qed.
Lemma decode_digits_ok threshold l : forall v, Forall (fun c => is_digit c = true) l -> 0 <= v ->
  v * 10 ^ zlen l + dec_value l < threshold * 10 ->
  decode_digits threshold l v = Some (Some (v * 10 ^ zlen l + dec_value l)).
Proof.
  induction l as [|c l IH]; intros v Hl Hv Hn.
  { cbn. do 2 f_equal. change (zlen []) with 0. rewrite Z.pow_0_r. unfold dec_value. cbn. lia. }
  apply Forall_cons in Hl as [Hc Hl]. cbn [decode_digits]. rewrite Hc. cbn [negb].
  pose proof (dec_value_nonneg l Hl). pose proof (is_digit_range c Hc). rewrite dec_value_cons in *.
  assert (zlen (c :: l) = zlen l + 1) as Ez by (unfold zlen; cbn [length]; lia). rewrite Ez in *.
  rewrite Z.pow_add_r, Z.pow_1_r in * by (unfold zlen; lia). pose proof (Z.pow_pos_nonneg 10 (zlen l) ltac:(lia) ltac:(unfold zlen; lia)).
  destruct (Z.leb_spec threshold v); [nia|]. rewrite IH; [do 2 f_equal; ring|done|lia|]. lia.
Qed.
(** what follows a number *)
Definition number_end (l : list Z) : Prop := match l with [] => True | c :: _ => in_number c = false end.
Lemma is_digit_in_number c : is_digit c = true -> in_number c = true.
Proof. intros H. unfold in_number. by rewrite H. Qed.
Lemma readNumber_end t rest : Forall (fun c => is_digit c = true) t -> number_end rest -> readNumber (t ++ rest) = rest.
Proof.
  intros Ht He. induction Ht as [|c t Hc _ IH]; cbn [app].
  - destruct rest as [|c rest]; [done|]. cbn in *. by rewrite He.
  - cbn [readNumber]. by rewrite is_digit_in_number.
Qed.
Lemma is_digit_above c : is_digit c = true -> 48 <= c <= 57.
Proof. intros H%is_digit_range. change (# "0") with 48 in H. lia. Qed.
Lemma read_token_digit c l : is_digit c = true -> read_token c l = (tokenNumber, readNumber l) /\ is_space c = false.
Proof.
  intros Hc. pose proof (is_digit_above c Hc). unfold read_token, is_space, quote_char.
  change (# "{") with 123. change (# "}") with 125. change (# "[") with 91. change (# "]") with 93. change (# "/") with 47. change (# " ") with 32.
  repeat match goal with |- context [c =? ?x] => rewrite (proj2 (Z.eqb_neq c x)) by lia end. by rewrite Hc.
Qed.
Lemma next_token_decimal w t n rest : ws w -> decimal t n -> number_end rest ->
  next_token (w ++ t ++ rest) = Ok (mktoken tokenNumber t, rest).
Proof.
  intros Hw (Hne & Ht & _) He. destruct t as [|c t]; [done|]. apply Forall_cons in Ht as [Hc Ht]. cbn [app].
  destruct (read_token_digit c (t ++ rest) Hc) as [E Es]. rewrite readNumber_end in E by done. by apply next_token_start.
Qed.
Lemma next_token_negative w t n rest : ws w -> decimal t n -> number_end rest ->
  next_token (w ++ (# "-" :: t) ++ rest) = Ok (mktoken tokenNumber (# "-" :: t), rest).
Proof.
  intros Hw (Hne & Ht & _) He. cbn [app]. apply next_token_start; [done|done| |done|done].
  pose proof (readNumber_end t rest Ht He) as E. rewrite <- E at 2. reflexivity.
Qed.
Lemma digits_no_sign t : Forall (fun c => is_digit c = true) t ->
  existsb (fun c => (c =? # ".") || (c =? # "e") || (c =? # "E") || (c =? # "+")) t = false /\ existsb (fun c => c =? # "-") t = false.
Proof.
  change (# ".") with 46. change (# "e") with 101. change (# "E") with 69. change (# "+") with 43. change (# "-") with 45.
  intros Ht. induction Ht as [|c t Hc _ [I1 I2]]; [done|]. apply is_digit_above in Hc. cbn. rewrite I1, I2.
  by rewrite !(proj2 (Z.eqb_neq c _)) by lia.
Qed.
Lemma decodeNumber_decimal scan t n cur : decimal t n -> n < 4294967290 -> decodeNumber scan t cur = Ok (true, JInt n).
Proof.
  intros (Hne & Ht & Hv & _) Hn. unfold decodeNumber. destruct (digits_no_sign t Ht) as [-> _].
  destruct t as [|c t]; [done|]. cbn [drop]. pose proof Ht as Ht'. apply Forall_cons in Ht' as [Hc Ht'].
  destruct (digits_no_sign t Ht') as [_ Es]. rewrite drop_0, Es. cbn [orb].
  apply is_digit_above in Hc. change (# "-") with 45. rewrite (proj2 (Z.eqb_neq c 45)) by lia.
  change ((2 ^ 32 - 1) / 10) with 429496729. pose proof (dec_value_nonneg _ Ht).
  rewrite (decode_digits_ok _ _ 0 Ht) by lia. do 3 f_equal. lia.
Qed.
Lemma decodeNumber_negative scan t n cur : decimal t n -> n < 2147483640 -> decodeNumber scan (# "-" :: t) cur = Ok (true, JInt (- n)).
Proof.
  intros (Hne & Ht & Hv & _) Hn. unfold decodeNumber. destruct (digits_no_sign t Ht) as [E1 E2].
  change (drop 1 (# "-" :: t)) with t. cbn [existsb]. change (# "-" =? # ".") with false. change (# "-" =? # "e") with false.
  change (# "-" =? # "E") with false. change (# "-" =? # "+") with false. rewrite E1, E2. cbn [orb]. rewrite Z.eqb_refl.
  change (2 ^ 31 / 10) with 214748364. pose proof (dec_value_nonneg _ Ht).
  rewrite (decode_digits_ok _ _ 0 Ht) by lia. do 4 f_equal. lia.
Qed.
Lemma next_token_word w t s rest : ws w -> is_space (hd 0 (bytes_of_string s)) = false ->
  read_token (hd 0 (bytes_of_string s)) (tl (bytes_of_string s) ++ rest) = (t, rest) -> bytes_of_string s <> [] -> t <> tokenComment ->
  exists tok, next_token (w ++ bytes_of_string s ++ rest) = Ok (tok, rest) /\ type_ tok = t.
Proof.
  intros Hw Hs Ht Hne Hc. destruct (bytes_of_string s) as [|c l]; [done|]. cbn [hd tl] in *. eexists. split; [by apply next_token_start|done].
Qed.

(** ** White space before a value *)
Lemma skipSpaces_idem l : skipSpaces (skipSpaces l) = skipSpaces l.
Proof. induction l as [|c l IH]; [done|]. cbn. destruct (is_space c) eqn:E; [done|]. cbn. by rewrite E. Qed.
Lemma skipCommentTokens_more fuel fuel' : forall l r, skipCommentTokens fuel l = Ok r -> (fuel <= fuel')%nat -> skipCommentTokens fuel' l = Ok r.
Proof.
  revert fuel'. induction fuel as [|fuel IH]; intros fuel' l r E Hl; [done|]. destruct fuel' as [|fuel']; [lia|].
  cbn [skipCommentTokens] in *. destruct (readToken l) as [t l']. destruct (decide _); [|done]. eapply IH; [done|lia].
Qed.
Lemma next_token_skip l : next_token (skipSpaces l) = next_token l.
Proof.
  destruct (next_token_ok (skipSpaces l)) as (t & l' & E & _). rewrite E. symmetry. unfold next_token in *.
  apply (skipCommentTokens_more _ (S (length l))) in E; [|pose proof (suffix_length _ _ (skipSpaces_suffix l)); lia].
  cbn [skipCommentTokens] in *. unfold readToken in *. by rewrite skipSpaces_idem in E.
Qed.

(** ** Every text of the grammar is read *)
Section Reads.
Context (scan_double : list Z -> option real) (past : Z).
Abbreviation read_value := (readValue scan_double past).
Abbreviation read_object := (readObject scan_double past).
Abbreviation read_array := (readArray scan_double past).

Lemma readValue_skip fuel cur l : read_value fuel cur (skipSpaces l) = read_value fuel cur l.
Proof using. destruct fuel as [|fuel]; [done|]. cbn [readValue]. unfold value_body. by rewrite next_token_skip. Qed.
Lemma readArray_skip fuel vs l : read_array fuel vs (skipSpaces l) = read_array fuel vs l.
Proof using. destruct fuel as [|fuel]; [done|]. cbn [readArray]. unfold array_body. by rewrite readValue_skip. Qed.

Definition read_as (v : json) (t : list Z) : Prop := forall fuel cur w rest,
  ws w -> number_end rest -> (2 * length t + 1 <= fuel)%nat -> read_value fuel cur (w ++ t ++ rest) = Ok (true, v, rest).
Lemma readValue_unfold fuel cur l : read_value (S fuel) cur l = value_body scan_double past (read_object fuel) (read_array fuel) cur l.
Proof using. done. Qed.
Lemma readArray_unfold fuel vs l : read_array (S fuel) vs l = array_body (read_value fuel) (read_array fuel) vs l.
Proof using. done. Qed.
Lemma readObject_unfold fuel ms name l : read_object (S fuel) ms name l = object_body (read_value fuel) (read_object fuel) ms name l.
Proof using. done. Qed.

Lemma c_string_plain s : ~ In 0 (bytes_of_string s) -> c_string (bytes_of_string s) = s.
Proof using.
  intros Hs. unfold c_string. rewrite c_bytes_no_nul; [apply string_of_bytes_of_string|].
  apply Forall_forall. intros c Hc%list_elem_of_In ->. done.
Qed.
(** the text of a value starts with neither a space nor a closing bracket *)
Lemma json_text_head v t : json_text v t -> exists c k, t = c :: k /\ is_space c = false /\ (c =? # "]") = false.
Proof using.
  intros Ht. destruct Ht as [| | |n t (Hne & Hd & _)|n t _|s t (r & _ & ->)|w _|l t _|w _|l t _].
  all: try (eexists _, _; split; [reflexivity|by split]).
  destruct t as [|c t]; [done|]. exists c, t. split; [done|]. apply Forall_cons in Hd as [Hc _].
  split; [by apply (read_token_digit c [])|]. apply is_digit_above in Hc. change (# "]") with 93. apply Z.eqb_neq. lia.
Qed.
Lemma elements_text_head l t rest : elements_text l t -> exists c k, skipSpaces (t ++ rest) = c :: k /\ (c =? # "]") = false.
Proof using.
  intros Ht. destruct Ht as [v t w1 w2 H1 Hv _|v t w1 w2 l r H1 Hv _ _];
    destruct (json_text_head v t Hv) as (c & k & -> & Hs & Hc); rewrite <- !app_assoc, skipSpaces_ws by done;
    cbn; rewrite Hs; by eexists _, _.
Qed.
Lemma number_end_ws w c l : ws w -> in_number c = false -> number_end (w ++ c :: l).
Proof using.
  intros Hw Hc. destruct Hw as [|d w Hd _]; [done|]. cbn. unfold is_space in Hd. unfold in_number, is_digit.
  change (# " ") with 32 in Hd. repeat (apply orb_true_iff in Hd as [Hd|Hd]); apply Z.eqb_eq in Hd as ->; done.
Qed.
(** a punctuation mark *)
Definition mark (c : Z) (t : TokenType) : Prop :=
  is_space c = false /\ in_number c = false /\ t <> tokenComment /\ forall l, read_token c l = (t, l).
Lemma mark_token c t w l : mark c t -> ws w -> next_token (w ++ c :: l) = Ok (mktoken t [c], l).
Proof using. intros (H1 & _ & H3 & H4) Hw. by apply next_token_start. Qed.
Lemma mark_read c t w l : mark c t -> ws w -> readToken (w ++ c :: l) = (mktoken t [c], l).
Proof using. intros (H1 & _ & _ & H4) Hw. rewrite readToken_ws by done. by apply readToken_start. Qed.
Lemma mark_comma : mark (# ",") tokenArraySeparator. Proof using. by split. Qed.
Lemma mark_end : mark (# "]") tokenArrayEnd. Proof using. by split. Qed.
Lemma mark_brace : mark (# "}") tokenObjectEnd. Proof using. by split. Qed.
Lemma mark_colon : mark (# ":") tokenMemberSeparator. Proof using. by split. Qed.

Lemma insert_at_end {V} k (v : V) acc l : SMap.sorted (acc ++ (k, v) :: l) -> SMap.insert k v acc = acc ++ [(k, v)].
Proof using.
  induction acc as [|[k' v'] acc IH]; cbn; [done|]. intros [Ha Hs]. apply Forall_app in Ha as [_ Ha]. apply Forall_cons in Ha as [Ha _].
  cbn in Ha. destruct (str_ltb k k') eqn:E.
  - pose proof (str_ltb_trans _ _ _ Ha E) as C. by rewrite str_ltb_irrefl in C.
  - destruct (String.eqb_spec k k') as [->|_]; [by rewrite str_ltb_irrefl in Ha|]. by rewrite IH.
Qed.
(** a member up to its value *)
Lemma reads_member k v s t w1 w2 w3 w4 c rest l fuel acc name ty :
  read_as v t -> ~ In 0 (bytes_of_string k) -> SMap.sorted (acc ++ (k, v) :: l) ->
  ws w1 -> string_text (bytes_of_string k) s -> ws w2 -> ws w3 -> ws w4 -> mark c ty -> (2 * length t + 1 <= fuel)%nat ->
  read_object (S fuel) acc name (w1 ++ s ++ w2 ++ # ":" :: w3 ++ t ++ w4 ++ c :: rest) =
    match ty with
    | tokenObjectEnd => Ok (true, JObject (acc ++ [(k, v)]), rest)
    | tokenArraySeparator => read_object fuel (acc ++ [(k, v)]) (bytes_of_string k) rest
    | tokenComment => obind (next_token rest) (fun '(comma, l) =>
                        if decide (type_ comma = tokenObjectEnd) then Ok (true, JObject (acc ++ [(k, v)]), l)
                        else read_object fuel (acc ++ [(k, v)]) (bytes_of_string k) l)
    | _ => failed tokenObjectEnd (JObject (acc ++ [(k, v)])) rest
    end.
Proof using.
  intros Hv Hk Hs H1 Ht H2 H3 H4 Hm Hl. rewrite readObject_unfold. unfold object_body.
  destruct (readToken_string w1 _ s (w2 ++ # ":" :: w3 ++ t ++ w4 ++ c :: rest) H1 Ht) as (tok & -> & Et & Es).
  cbn [obind]. rewrite Et, Es, (mark_read _ _ _ _ mark_colon H2). cbn [type_]. rewrite bool_decide_true by done. cbn [negb].
  destruct Hm as (M1 & M2 & M3 & M4). rewrite Hv by (done || by apply number_end_ws). cbn [obind negb].
  rewrite c_string_plain by done. rewrite (insert_at_end k v acc l) by done.
  rewrite (mark_read c ty w4 rest) by done. done.
Qed.

(** *** Integers that are kept *)
Lemma kept_int n t : n < 4294967290 -> decimal t n -> read_as (JInt n) t.
Proof using.
  intros Hp Hd [|fuel] cur w rest Hw He Hl; [lia|]. rewrite readValue_unfold. unfold value_body.
  rewrite (next_token_decimal w t n rest) by done. cbn [obind type_ text_]. by rewrite (decodeNumber_decimal _ t n) by done.
Qed.
Lemma kept_negative n t : n < 2147483640 -> decimal t n -> read_as (JInt (- n)) (# "-" :: t).
Proof using.
  intros Hp Hd [|fuel] cur w rest Hw He Hl; [lia|]. rewrite readValue_unfold. unfold value_body.
  rewrite (next_token_negative w t n rest) by done. cbn [obind type_ text_]. by rewrite (decodeNumber_negative _ t n) by done.
Qed.

(** values whose integers satisfy [ok] are read with their integers seen as [f] says *)
Section View.
Context (ok : Z -> Prop) (f : Z -> json).
Hypotheses (Hint : forall n t, ok n -> decimal t n -> read_as (f n) t)
  (Hneg : forall n t, ok (- n) -> decimal t n -> read_as (f (- n)) (# "-" :: t)).
Abbreviation fine := (printable ok).
Definition reads (v : json) (t : list Z) : Prop := fine v -> read_as (view f v) t.
Definition reads_elements (l : list json) (t : list Z) : Prop := Forall fine l -> forall fuel acc rest,
  (2 * length t + 2 <= fuel)%nat -> read_array fuel acc (t ++ rest) = Ok (true, JArray (acc ++ map (view f) l), rest).
Definition reads_members (l : list (string * json)) (t : list Z) : Prop :=
  Forall (fun p => ~ In 0 (bytes_of_string p.1) /\ fine p.2) l -> forall fuel acc name rest,
  SMap.sorted (acc ++ view_members f l) -> (2 * length t + 1 <= fuel)%nat ->
  read_object fuel acc name (t ++ rest) = Ok (true, JObject (acc ++ view_members f l), rest).

Lemma reads_word v s t : bytes_of_string s <> [] -> is_space (hd 0 (bytes_of_string s)) = false ->
  (forall rest, read_token (hd 0 (bytes_of_string s)) (tl (bytes_of_string s) ++ rest) = (t, rest)) ->
  (t = tokenNull /\ v = JNull \/ t = tokenTrue /\ v = JBool true \/ t = tokenFalse /\ v = JBool false) -> reads v (bytes_of_string s).
Proof using.
  intros Hne Hs Ht Hv _ [|fuel] cur w rest Hw _ Hl; [lia|].
  destruct (next_token_word w t s rest) as (tok & E & Et); [done|done|done|done|by destruct Hv as [[-> _]|[[-> _]|[-> _]]]|].
  rewrite readValue_unfold. unfold value_body. rewrite E. cbn [obind]. rewrite Et. by destruct Hv as [[-> ->]|[[-> ->]|[-> ->]]].
Qed.
Lemma reads_int n t : decimal t n -> reads (JInt n) t.
Proof using Hint. intros Hd Hp. by apply Hint. Qed.
Lemma reads_negative n t : decimal t n -> reads (JInt (- n)) (# "-" :: t).
Proof using Hneg. intros Hd Hp. by apply Hneg. Qed.
Lemma reads_string s t : string_text (bytes_of_string s) t -> reads (JString s) t.
Proof using.
  intros Ht Hp [|fuel] cur w rest Hw He Hl; [lia|]. rewrite readValue_unfold. unfold value_body.
  destruct (readToken_string w _ t rest Hw Ht) as (tok & -> & Et & Es). cbn [obind]. rewrite Et, Es. by rewrite c_string_plain.
Qed.
Lemma reads_last v t w1 w2 : reads v t -> ws w1 -> ws w2 -> reads_elements [v] (w1 ++ t ++ w2 ++ [# "]"]).
Proof using.
  intros Hv H1 H2 Hp [|fuel] acc rest Hl; [lia|]. rewrite readArray_unfold. unfold array_body. apply Forall_cons in Hp as [Hp _].
  rewrite !length_app in Hl. rewrite <- !app_assoc. rewrite Hv by (done || lia || by apply number_end_ws). cbn [obind negb app].
  rewrite (mark_token _ _ _ _ mark_end H2). cbn [obind type_]. by rewrite decide_True.
Qed.
Lemma reads_more v t w1 w2 l r : reads v t -> ws w1 -> ws w2 -> reads_elements l r ->
  reads_elements (v :: l) (w1 ++ t ++ w2 ++ # "," :: r).
Proof using.
  intros Hv H1 H2 Hr Hp [|fuel] acc rest Hl; [lia|]. rewrite readArray_unfold. unfold array_body. apply Forall_cons in Hp as [Hp Hps].
  rewrite !length_app in Hl. cbn [length] in Hl. rewrite <- !app_assoc. cbn [app]. rewrite Hv by (done || lia || by apply number_end_ws).
  cbn [obind negb]. rewrite (mark_token _ _ _ _ mark_comma H2). cbn [obind type_]. rewrite decide_False by done.
  rewrite Hr by (done || lia). by rewrite <- app_assoc.
Qed.
Lemma reads_array l t : elements_text l t -> reads_elements l t -> reads (JArray l) (# "[" :: t).
Proof using.
  intros Ht Hr Hp [|fuel] cur w rest Hw He Hl; [lia|]. rewrite readValue_unfold. unfold value_body. cbn [app].
  rewrite (next_token_start w (# "[") _ tokenArrayBegin _ []) by done. cbn [obind type_].
  destruct (elements_text_head l t rest Ht) as (c & k & E & Hc). pose proof (readArray_skip fuel [] (t ++ rest)) as Es.
  rewrite E in *. rewrite Hc, Es. cbn [length] in Hl. rewrite Hr by (try lia; by apply printable_array in Hp). done.
Qed.
Lemma reads_empty_array w : ws w -> reads (JArray []) (# "[" :: w ++ [# "]"]).
Proof using.
  intros Hw' Hp [|fuel] cur w' rest Hw He Hl; [lia|]. rewrite readValue_unfold. unfold value_body. cbn [app]. rewrite <- app_assoc.
  rewrite (next_token_start w' (# "[") _ tokenArrayBegin _ []) by done. cbn [obind type_].
  rewrite skipSpaces_ws by done. cbn [app]. change (skipSpaces (# "]" :: rest)) with (# "]" :: rest). cbv beta iota. rewrite Z.eqb_refl.
  pose proof (mark_read _ _ [] rest mark_end (List.Forall_nil _)) as E. cbn [app] in E. by rewrite E.
Qed.
Lemma reads_empty_object w : ws w -> reads (JObject []) (# "{" :: w ++ [# "}"]).
Proof using.
  intros Hw' Hp [|[|fuel]] cur w' rest Hw He Hl; [lia|cbn in Hl; lia|]. rewrite readValue_unfold. unfold value_body. cbn [app]. rewrite <- app_assoc.
  rewrite (next_token_start w' (# "{") _ tokenObjectBegin _ []) by done. cbn [obind type_].
  rewrite readObject_unfold. unfold object_body. cbn [app]. by rewrite (mark_token _ _ _ _ mark_brace Hw').
Qed.

Lemma reads_last_member k v s t w1 w2 w3 w4 : reads v t -> ws w1 -> string_text (bytes_of_string k) s -> ws w2 -> ws w3 -> ws w4 ->
  reads_members [(k, v)] (w1 ++ s ++ w2 ++ # ":" :: w3 ++ t ++ w4 ++ [# "}"]).
Proof using.
  intros Hv H1 Ht H2 H3 H4 Hp [|fuel] acc name rest Hs Hl; [lia|]. apply Forall_cons in Hp as [[Hk Hp] _].
  repeat (rewrite ?length_app in Hl; cbn [length] in Hl). repeat (rewrite <- !app_assoc; cbn [app]).
  by rewrite (reads_member k (view f v) s t w1 w2 w3 w4 (# "}") rest [] fuel acc name _ (Hv Hp) Hk Hs H1 Ht H2 H3 H4 mark_brace ltac:(lia)).
Qed.
Lemma reads_more_members k v s t w1 w2 w3 w4 l r : reads v t -> ws w1 -> string_text (bytes_of_string k) s -> ws w2 -> ws w3 -> ws w4 ->
  reads_members l r -> reads_members ((k, v) :: l) (w1 ++ s ++ w2 ++ # ":" :: w3 ++ t ++ w4 ++ # "," :: r).
Proof using.
  intros Hv H1 Ht H2 H3 H4 Hr Hp [|fuel] acc name rest Hs Hl; [lia|]. apply Forall_cons in Hp as [[Hk Hp] Hps].
  repeat (rewrite ?length_app in Hl; cbn [length] in Hl). repeat (rewrite <- !app_assoc; cbn [app]).
  rewrite (reads_member k (view f v) s t w1 w2 w3 w4 (# ",") (r ++ rest) (view_members f l) fuel acc name _ (Hv Hp) Hk Hs H1 Ht H2 H3 H4 mark_comma ltac:(lia)).
  rewrite Hr; [by rewrite <- app_assoc|done|by rewrite <- app_assoc|lia].
Qed.
Lemma reads_object l t : reads_members l t -> reads (JObject l) (# "{" :: t).
Proof using.
  intros Hr Hp [|fuel] cur w rest Hw He Hl; [lia|]. rewrite readValue_unfold. unfold value_body. cbn [app].
  rewrite (next_token_start w (# "{") _ tokenObjectBegin _ []) by done. cbn [obind type_]. cbn [length] in Hl.
  apply printable_object in Hp as [Hs Hp]. by rewrite Hr by (done || lia || by apply sorted_view).
Qed.
Lemma reader_reads : (forall v t, json_text v t -> reads v t) /\ (forall l t, elements_text l t -> reads_elements l t) /\
  (forall l t, members_text l t -> reads_members l t).
Proof using Hint Hneg.
  apply texts_ind; intros.
  - apply (reads_word _ _ tokenNull); try done. by left.
  - apply (reads_word _ _ tokenTrue); try done. by right; left.
  - apply (reads_word _ _ tokenFalse); try done. by right; right.
  - by apply reads_int.
  - by apply reads_negative.
  - by apply reads_string.
  - by apply reads_empty_array.
  - by apply reads_array.
  - by apply reads_empty_object.
  - by apply reads_object.
  - by apply reads_last.
  - by apply reads_more.
  - by apply reads_last_member.
  - by apply reads_more_members.
Qed.
End View.
End Reads.

(** what the reader makes of a text of the grammar, with white space around it *)
Lemma parse_read_as scan past cur v t w1 w2 : read_as scan past v t -> ws w1 -> ws w2 ->
  parse scan past cur (w1 ++ t ++ w2) = Ok (true, v).
Proof.
  intros Hr H1 H2. unfold parse. rewrite Hr; [|done| |rewrite !length_app; lia].
  - cbn [obind]. by destruct (next_token_ok w2) as (tok & l & -> & _).
  - destruct H2 as [|d w Hd _]; [done|]. exact (number_end_ws [d] 0 [] ltac:(by apply Forall_singleton) eq_refl).
Qed.
Lemma parse_text scan past cur v t w1 w2 : json_text v t -> plain v -> ws w1 -> ws w2 ->
  parse scan past cur (w1 ++ t ++ w2) = Ok (true, v).
Proof.
  intros Ht Hp. rewrite <- (view_id v). apply parse_read_as, (reader_reads scan past (fun n => - 2147483640 < n < 4294967290) JInt); [| |done|done].
  - intros n x Hn. apply kept_int. lia.
  - intros n x Hn. apply kept_negative. lia.
Qed.

(** ** Integers that are too big for the reader *)
Lemma decode_digits_big threshold l : forall v, Forall (fun c => is_digit c = true) l -> l <> [] ->
  threshold * 10 <= v * 10 ^ zlen l + dec_value l -> decode_digits threshold l v = Some None.
Proof.
  induction l as [|c l IH]; [done|]. intros v [Hc Hl]%Forall_cons _ Hn. cbn [decode_digits]. rewrite Hc. cbn [negb].
  destruct (Z.leb_spec threshold v) as [|Hv]; [done|]. pose proof (is_digit_range c Hc). rewrite dec_value_cons in Hn.
  assert (zlen (c :: l) = zlen l + 1) as Ez by (unfold zlen; cbn [length]; lia). rewrite Ez in Hn.
  rewrite Z.pow_add_r, Z.pow_1_r in Hn by (unfold zlen; lia). destruct l as [|d l].
  - change (zlen []) with 0 in Hn. rewrite Z.pow_0_r in Hn. unfold dec_value in Hn. cbn [fold_left] in Hn. lia.
  - apply IH; [done|done|]. lia.
Qed.
Lemma reads_big scan past n t d : decimal t n -> 4294967290 <= n -> zlen t <> 32 -> scan t = Some d -> read_as scan past (JReal d) t.
Proof.
  intros Ht Hn Hl Hd [|fuel] cur w rest Hw He Hf; [lia|]. rewrite readValue_unfold. unfold value_body.
  rewrite (next_token_decimal w t n rest) by done. cbn [obind type_ text_].
  assert (decodeNumber scan t cur = Ok (true, JReal d)) as ->; [|done].
  destruct Ht as (Hne & Ht & Hv & _). unfold decodeNumber. destruct (digits_no_sign t Ht) as [-> _].
  destruct t as [|c t]; [done|]. pose proof Ht as Ht'. apply Forall_cons in Ht' as [Hc Ht'].
  change (drop 1 (c :: t)) with t. destruct (digits_no_sign t Ht') as [_ ->]. cbn [orb].
  apply is_digit_above in Hc. change (# "-") with 45. rewrite (proj2 (Z.eqb_neq c 45)) by lia.
  change ((2 ^ 32 - 1) / 10) with 429496729. rewrite (decode_digits_big _ _ 0 Ht) by (done || lia).
  unfold decodeDouble. destruct (Z.eqb_spec (zlen (c :: t)) 32); [done|]. by rewrite Hd.
Qed.
Lemma reads_big_negative scan past n t d : decimal t n -> 2147483640 <= n -> zlen t <> 31 -> scan (# "-" :: t) = Some d ->
  read_as scan past (JReal d) (# "-" :: t).
Proof.
  intros Ht Hn Hl Hd [|fuel] cur w rest Hw He Hf; [lia|]. rewrite readValue_unfold. unfold value_body.
  rewrite (next_token_negative w t n rest) by done. cbn [obind type_ text_].
  assert (decodeNumber scan (# "-" :: t) cur = Ok (true, JReal d)) as ->; [|done].
  destruct Ht as (Hne & Ht & Hv & _). unfold decodeNumber. destruct (digits_no_sign t Ht) as [E1 E2].
  change (drop 1 (# "-" :: t)) with t. cbn [existsb]. change (# "-" =? # ".") with false. change (# "-" =? # "e") with false.
  change (# "-" =? # "E") with false. change (# "-" =? # "+") with false. rewrite E1, E2. cbn [orb]. rewrite Z.eqb_refl.
  change (2 ^ 31 / 10) with 214748364. rewrite (decode_digits_big _ _ 0 Ht) by (done || lia).
  unfold decodeDouble. assert (zlen (# "-" :: t) = zlen t + 1) as -> by (unfold zlen; cbn [length]; lia).
  destruct (Z.eqb_spec (zlen t + 1) 32); [lia|]. by rewrite Hd.
Qed.
Lemma decimal_length t n : decimal t n -> 0 < n < 10 ^ 10 -> zlen t <= 10.
Proof.
  intros (Hne & Ht & Hv & Hz) Hn. destruct t as [|c t]; [done|]. rewrite dec_value_cons in Hv.
  apply Forall_cons in Ht as [Hc Ht]. pose proof (dec_value_nonneg t Ht). pose proof (is_digit_range c Hc).
  assert (c - # "0" <> 0) as Hc0. { intros E. assert (c = # "0") as -> by lia. specialize (Hz eq_refl). injection Hz as ->. unfold dec_value in Hv. cbn in Hv. lia. }
  assert (zlen (c :: t) = zlen t + 1) as -> by (unfold zlen; cbn [length]; lia).
  destruct (Z.le_gt_cases (zlen t) 9) as [|Hl]; [lia|].
  pose proof (Z.pow_le_mono_r 10 10 (zlen t) ltac:(lia) ltac:(lia)). nia.
Qed.

(** *** What the reader makes of any Int or UInt: a double of those it does not keep *)
Definition kept (n : Z) : bool := (-2147483640 <? n) && (n <? 4294967290).
Definition machine (n : Z) : Prop := - 2 ^ 31 < n < 2 ^ 32.
(** [sscanf] reads the decimal texts of integers *)
Definition scans (scan : list Z -> option real) (to_double : Z -> real) : Prop :=
  forall n t, decimal t n -> scan t = Some (to_double n) /\ scan (# "-" :: t) = Some (to_double (- n)).
Definition seen (to_double : Z -> real) (v : json) : json := view (fun n => if kept n then JInt n else JReal (to_double n)) v.
Lemma parse_seen scan past to_double cur v t w1 w2 : scans scan to_double -> json_text v t -> printable machine v -> ws w1 -> ws w2 ->
  parse scan past cur (w1 ++ t ++ w2) = Ok (true, seen to_double v).
Proof.
  intros Hscan Ht Hp. apply parse_read_as, (reader_reads scan past machine); [| |done|done].
  - intros n x Hn Hx. unfold machine in Hn. destruct (Hscan n x Hx) as [Hd _]. unfold kept.
    pose proof Hx as (_ & Hdig & Hv & _). pose proof (dec_value_nonneg x Hdig).
    destruct (Z.ltb_spec (-2147483640) n); [|lia]. destruct (Z.ltb_spec n 4294967290); cbn [andb]; [by apply kept_int|].
    apply (reads_big _ _ n); [done|done| |done]. pose proof (decimal_length x n Hx). lia.
  - intros n x Hn Hx. unfold machine in Hn. destruct (Hscan n x Hx) as [_ Hd]. unfold kept.
    pose proof Hx as (_ & Hdig & Hv & _). pose proof (dec_value_nonneg x Hdig).
    destruct (Z.ltb_spec (-2147483640) (- n)); cbn [andb].
    + destruct (Z.ltb_spec (- n) 4294967290); [|lia]. apply kept_negative; [lia|done].
    + apply (reads_big_negative _ _ n); [done|lia| |done]. pose proof (decimal_length x n Hx). lia.
Qed.
