(* ===== verification/JsonWriter.v ===== *)
(** * The JSON writers (src/src/jsoncpp/json_writer.cpp)

    [FastWriter], [StyledWriter] and [StyledStreamWriter] on values without comments.
    The styled writers keep their document, its indentation and the texts of an array's
    elements in their state, as the classes do; [Layout] is what they share.  The C library's [sprintf("%#.16g")] is a parameter. *)

From Stdlib Require Import ZArith Lia Bool Ascii String.
From stdpp Require Import base list strings.
From S2P Require Import Prelude StdMap Json JsonReader JsonReaderFacts JsonText.
Set Default Goal Selector "!".
Local Open Scope Z_scope.
Local Open Scope drive_scope.

(** ** Numbers *)
(** [do ... while], one digit a round in front of [current]; 32 bytes are enough *)
Fixpoint uintToString (fuel : nat) (value : Z) (current : list Z) : list Z :=
  match fuel with
  | O => current
  | S fuel =>
      let current := (value mod 10 + # "0") :: current in
      if value / 10 =? 0 then current else uintToString fuel (value / 10) current
  end.
(** an [Int] or a [UInt] *)
Definition intToString (value : Z) : list Z :=
  if value <? 0 then # "-" :: uintToString 32 (- value) [] else uintToString 32 value [].
(** the zeros at the end but the first, when the digits reach back to the point *)
Fixpoint drop_zeros (l : list Z) : list Z :=
  match l with
  | c :: (_ :: _) as l' => if c =? # "0" then drop_zeros l' else l
  | _ => l
  end.
Fixpoint reaches_point (l : list Z) : bool :=
  match l with
  | [] => false
  | c :: l => if is_digit c then reaches_point l else c =? # "."
  end.
Definition truncate_zeros (buffer : list Z) : list Z :=
  let p := drop_zeros (rev buffer) in
  if reaches_point p then take (length p + 1) buffer else buffer.
Definition boolToString (value : bool) : list Z := bytes_of_string (if value then "true" else "false")%string.

(** ** Strings *)
Definition isControlCharacter (ch : Z) : bool := (0 <? ch) && (ch <=? 0x1F).
Definition special_character (c : Z) : bool :=
  (c =? quote_char) || (c =? # "\") || (c =? 8) || (c =? 12) || (c =? 10) || (c =? 13) || (c =? 9).
Definition hex_upper (d : Z) : Z := if d <? 10 then d + # "0" else d - 10 + # "A".
Definition escape_char (c : Z) : list Z :=
  if c =? quote_char then [# "\"; quote_char]
  else if c =? # "\" then [# "\"; # "\"]
  else if c =? 8 then [# "\"; # "b"]
  else if c =? 12 then [# "\"; # "f"]
  else if c =? 10 then [# "\"; # "n"]
  else if c =? 13 then [# "\"; # "r"]
  else if c =? 9 then [# "\"; # "t"]
  else if isControlCharacter c then [# "\"; # "u"; # "0"; # "0"; hex_upper (c / 16); hex_upper (c mod 16)]
  else [c].
Definition valueToQuotedString (value : list Z) : list Z :=
  let value := c_bytes value in
  if negb (existsb special_character value) && negb (existsb isControlCharacter value)
  then quote_char :: value ++ [quote_char]
  else quote_char :: concat (map escape_char value) ++ [quote_char].

(** ** FastWriter *)
Module FastWriter.
Section FastWriter.
Context (print_double : real -> list Z).
Fixpoint writeValue (v : json) : list Z :=
  match v with
  | JNull => bytes_of_string "null"
  | JInt n => intToString n
  | JReal d => truncate_zeros (print_double d)
  | JString s => valueToQuotedString (bytes_of_string s)
  | JBool b => boolToString b
  | JArray l =>
      # "[" :: (fix each (first : bool) (l : list json) : list Z :=
        match l with
        | [] => [# "]"]
        | v :: l => (if first then [] else [# ","]) ++ writeValue v ++ each false l
        end) true l
  | JObject l =>
      # "{" :: (fix each (first : bool) (l : list (string * json)) : list Z :=
        match l with
        | [] => [# "}"]
        | (name, v) :: l =>
            (if first then [] else [# ","]) ++ valueToQuotedString (bytes_of_string name) ++ # ":" :: writeValue v ++ each false l
        end) true l
  end.
Definition write (root : json) : string := string_of_bytes (writeValue root).
End FastWriter.
End FastWriter.

(** ** The styled writers *)
(** What StyledWriter and StyledStreamWriter have in common: they differ in how a line
    starts and in the indentation *)
Module Layout.
Record t := mk {
  document_ : list Z;
  indentString_ : list Z;
  addChildValues_ : bool;
  childValues_ : list (list Z)
}.
Definition rightMargin_ : Z := 74.
Definition add (text : list Z) : M t unit :=
  modify (fun w => mk (document_ w ++ text) (indentString_ w) (addChildValues_ w) (childValues_ w)).
Definition set_children (add : bool) (l : list (list Z)) : M t unit :=
  modify (fun w => mk (document_ w) (indentString_ w) add l).
Definition pushValue (value : list Z) : M t unit :=
  w <- get ;;
  if addChildValues_ w then set_children true (childValues_ w ++ [value]) else add value.
Definition set_indent (l : list Z) : M t unit :=
  modify (fun w => mk (document_ w) l (addChildValues_ w) (childValues_ w)).
(** [childValues_\[index\]] *)
Definition child (index : nat) : M t (list Z) :=
  w <- get ;; match childValues_ w !! index with Some c => ret c | None => fail OutOfBounds end.

(** the loops over an array's elements, over what writes a value *)
Fixpoint collect (write : json -> M t unit) (index : nat) (lineLength : Z) (l : list json) : M t Z :=
  match l with
  | [] => ret lineLength
  | v :: l => write v ;;; c <- child index ;; collect write (S index) (lineLength + zlen c) l
  end.
Definition nonempty_container (v : json) : bool := (isArray v || isObject v) && (0 <? Value.size v).
Definition isMultineArray (write : json -> M t unit) (l : list json) : M t bool :=
  w <- get ;;
  set_children (addChildValues_ w) [] ;;;
  if (rightMargin_ <=? zlen l * 3) || existsb nonempty_container l then ret true
  else
    set_children true [] ;;;
    lineLength <- collect write 0 (4 + (zlen l - 1) * 2) l ;;
    w <- get ;;
    set_children false (childValues_ w) ;;;
    ret (rightMargin_ <=? lineLength).
Fixpoint write_row (index size : nat) : M t unit :=
  match size with
  | O => ret tt
  | S size =>
      (if (0 <? index)%nat then add [# ","; # " "] else ret tt) ;;;
      c <- child index ;;
      add c ;;;
      write_row (S index) size
  end.
Section Layout.
Context (writeIndent : M t unit) (indentation : list Z).
Definition writeWithIndent (value : list Z) : M t unit := writeIndent ;;; add value.
Definition indent : M t unit :=
  w <- get ;; set_indent (indentString_ w ++ indentation).
Definition unindent : M t unit :=
  w <- get ;;
  assertM (length indentation <=? length (indentString_ w))%nat ;;;
  set_indent (take (length (indentString_ w) - length indentation) (indentString_ w)).
Fixpoint write_lines (write : json -> M t unit) (hasChildValue : bool) (index : nat) (l : list json) : M t unit :=
  match l with
  | [] => ret tt
  | v :: l =>
      (if hasChildValue then c <- child index ;; writeWithIndent c else writeIndent ;;; write v) ;;;
      match l with
      | [] => ret tt
      | _ => add [# ","] ;;; write_lines write hasChildValue (S index) l
      end
  end.
Definition writeArrayValue (write : json -> M t unit) (l : list json) : M t unit :=
  match l with
  | [] => pushValue [# "["; # "]"]
  | _ =>
      isArrayMultiLine <- isMultineArray write l ;;
      if isArrayMultiLine : bool then
        writeWithIndent [# "["] ;;;
        indent ;;;
        w <- get ;;
        write_lines write (negb (bool_decide (childValues_ w = []))) 0 l ;;;
        unindent ;;;
        writeWithIndent [# "]"]
      else
        w <- get ;;
        assertM (length (childValues_ w) =? length l)%nat ;;;
        add [# "["; # " "] ;;;
        write_row 0 (length l) ;;;
        add [# " "; # "]"]
  end.
Fixpoint write_members (write : json -> M t unit) (l : list (string * json)) : M t unit :=
  match l with
  | [] => ret tt
  | (name, childValue) :: l =>
      writeWithIndent (valueToQuotedString (bytes_of_string name)) ;;;
      add [# " "; # ":"; # " "] ;;;
      write childValue ;;;
      match l with
      | [] => ret tt
      | _ => add [# ","] ;;; write_members write l
      end
  end.
Context (print_double : real -> list Z).
Fixpoint writeValue (v : json) : M t unit :=
  match v with
  | JNull => pushValue (bytes_of_string "null")
  | JInt n => pushValue (intToString n)
  | JReal d => pushValue (truncate_zeros (print_double d))
  | JString s => pushValue (valueToQuotedString (bytes_of_string s))
  | JBool b => pushValue (boolToString b)
  | JArray l => writeArrayValue writeValue l
  | JObject [] => pushValue [# "{"; # "}"]
  | JObject l =>
      writeWithIndent [# "{"] ;;;
      indent ;;;
      write_members writeValue l ;;;
      unindent ;;;
      writeWithIndent [# "}"]
  end.
Definition write (root : json) : outcome (list Z) :=
  obind (writeValue root (mk [] [] false [])) (fun '(_, w) => Ok (document_ w ++ [10])).
End Layout.
End Layout.

(** ** StyledWriter *)
Module StyledWriter.
Import Layout.
Definition indentSize_ : nat := 3.
Definition writeIndent : M t unit :=
  w <- get ;;
  match last (document_ w) with
  | None => add (indentString_ w)
  | Some c =>
      if c =? # " " then ret tt
      else (if c =? 10 then ret tt else add [10]) ;;; add (indentString_ w)
  end.
Definition writeWithIndent : list Z -> M t unit := Layout.writeWithIndent writeIndent.
Definition writeValue (print_double : real -> list Z) : json -> M t unit :=
  Layout.writeValue writeIndent (replicate indentSize_ (# " ")) print_double.
Definition write (print_double : real -> list Z) : json -> outcome (list Z) :=
  Layout.write writeIndent (replicate indentSize_ (# " ")) print_double.
End StyledWriter.

(** ** StyledStreamWriter *)
(** its stream is the document *)
Module StyledStreamWriter.
Import Layout.
Definition writeIndent : M t unit := w <- get ;; add (10 :: indentString_ w).
(** the default indentation, that of [operator<<] *)
Definition indentation_ : list Z := [9].
Definition writeWithIndent : list Z -> M t unit := Layout.writeWithIndent writeIndent.
Section StyledStreamWriter.
Context (indentation : list Z) (print_double : real -> list Z).
Definition indent : M t unit := Layout.indent indentation.
Definition unindent : M t unit := Layout.unindent indentation.
Definition writeValue : json -> M t unit := Layout.writeValue writeIndent indentation print_double.
Definition isMultineArray : list json -> M t bool := Layout.isMultineArray writeValue.
Definition writeArrayValue : list json -> M t unit := Layout.writeArrayValue writeIndent indentation writeValue.
Definition write (root : json) : outcome (list Z) := Layout.write writeIndent indentation print_double root.
End StyledStreamWriter.
End StyledStreamWriter.
