(* ===== verification/JsonFacts.v ===== *)
(** * What the JSON writers write, the reader reads

    Both writers produce texts of the grammar of [JsonText], so the reader gives the
    value back: the round trips of the two formats. *)

From Stdlib Require Import ZArith Lia Bool Ascii String.
From stdpp Require Import base list strings.
From S2P Require Import Prelude StdMap Json JsonReader JsonReaderFacts JsonText JsonWriter.
Set Default Goal Selector "!".
Local Open Scope Z_scope.
Local Open Scope drive_scope.

(** ** Numbers and strings *)
Lemma dec_value_app l c : dec_value (l ++ [c]) = dec_value l * 10 + (c - # "0").
Proof. unfold dec_value. by rewrite fold_left_app. Qed.
Lemma uintToString_ok fuel : forall v acc, 0 <= v < 10 ^ Z.of_nat fuel -> (0 < fuel)%nat ->
  exists t, uintToString fuel v acc = t ++ acc /\ decimal t v.
Proof.
  induction fuel as [|fuel IH]; intros v acc Hv Hf; [lia|]. cbn [uintToString].
  pose proof (Z.mod_pos_bound v 10 ltac:(lia)) as Hm. pose proof (Z.div_mod v 10 ltac:(lia)) as Hd.
  assert (is_digit (v mod 10 + # "0") = true) as Hdig.
  { unfold is_digit. change (# "0") with 48. change (# "9") with 57. apply andb_true_iff. rewrite !Z.leb_le. lia. }
  destruct (Z.eqb_spec (v / 10) 0) as [E|E].
  - exists [v mod 10 + # "0"]. split; [done|]. split; [done|]. split; [by apply Forall_singleton|].
    rewrite dec_value_cons. change (zlen []) with 0. rewrite Z.pow_0_r. unfold dec_value. cbn [fold_left hd].
    split; [lia|by intros ->].
  - rewrite Nat2Z.inj_succ, Z.pow_succ_r in Hv by lia.
    destruct fuel as [|fuel]; [change (10 ^ Z.of_nat 0) with 1 in Hv; lia|].
    destruct (IH (v / 10) ((v mod 10 + # "0") :: acc)) as (t & -> & Hne & Ht & Hval & Hz); [|lia|].
    { split; [apply Z.div_pos; lia|]. apply Z.div_lt_upper_bound; lia. }
    exists (t ++ [v mod 10 + # "0"]). split; [by rewrite <- app_assoc|]. split; [by destruct t|].
    split; [apply Forall_app; split; [done|by apply Forall_singleton]|].
    rewrite dec_value_app, Hval. split; [lia|]. intros H0. destruct t as [|c t]; [done|]. rewrite (Hz H0) in Hval. by subst.
Qed.
Lemma uint_text n : 0 <= n < 10 ^ 32 -> decimal (uintToString 32 n []) n.
Proof. intros Hn. destruct (uintToString_ok 32 n [] Hn ltac:(lia)) as (t & E & Ht). by rewrite E, app_nil_r. Qed.
Lemma intToString_text n : - 10 ^ 32 < n < 10 ^ 32 -> json_text (JInt n) (intToString n).
Proof.
  intros Hn. unfold intToString. destruct (Z.ltb_spec n 0).
  - rewrite <- (Z.opp_involutive n) at 1. apply negative_text, uint_text. lia.
  - apply int_text, uint_text. lia.
Qed.
Lemma hex_upper_digit d : 0 <= d < 16 -> hex_digit (hex_upper d) = Some d.
Proof.
  intros Hd. assert (In d (map Z.of_nat (seq 0 16))) as Hin.
  { apply in_map_iff. exists (Z.to_nat d). rewrite in_seq. lia. }
  cbn in Hin. repeat destruct Hin as [<-|Hin]; done.
Qed.
Lemma escape_char_text c : char_text c (escape_char c).
Proof.
  unfold escape_char. destruct (Z.eqb_spec c quote_char) as [->|Hq]; [by apply escaped_char|].
  destruct (Z.eqb_spec c (# "\")) as [->|Hb]; [by apply escaped_char|].
  do 5 (match goal with |- char_text _ (if ?x =? ?y then _ else _) => destruct (Z.eqb_spec x y) as [->|_] end; [by apply escaped_char|]).
  unfold isControlCharacter. destruct (_ && _) eqn:E; [|by apply raw_char].
  apply andb_true_iff in E as [H1%Z.ltb_lt H2%Z.leb_le]. apply unicode_char; [|lia].
  pose proof (Z.mod_pos_bound c 16 ltac:(lia)). pose proof (Z.div_mod c 16 ltac:(lia)).
  assert (0 <= c / 16 < 16) by (split; [apply Z.div_pos; lia|apply Z.div_lt_upper_bound; lia]).
  unfold decodeUnicodeEscapeSequence. rewrite !hex_upper_digit by lia. cbn. f_equal. lia.
Qed.
Lemma escaped_text l : chars_text l (concat (map escape_char l)).
Proof. induction l as [|c l IH]; cbn; [apply no_chars|]. apply more_chars; [apply escape_char_text|done]. Qed.
Lemma raw_text l : existsb special_character l = false -> chars_text l l.
Proof.
  induction l as [|c l IH]; cbn; [intros _; apply no_chars|]. intros [Hc Hl]%orb_false_iff.
  apply (more_chars c [c]); [|auto]. by apply raw_char; intros ->.
Qed.
Lemma quoted_text s : ~ In 0 s -> string_text s (valueToQuotedString s).
Proof.
  intros Hs. unfold valueToQuotedString. rewrite c_bytes_no_nul by (apply Forall_forall; intros c Hc%list_elem_of_In ->; done).
  destruct (existsb special_character s) eqn:E; cbn [negb andb].
  - eexists. split; [apply escaped_text|done].
  - destruct (existsb isControlCharacter s); cbn; (eexists; split; [|reflexivity]); [apply escaped_text|by apply raw_text].
Qed.

(** ** FastWriter *)
Section Fast.
Context (print_double : real -> list Z).
Abbreviation fast := (FastWriter.writeValue print_double).
Abbreviation fast_elements := (fix each (first : bool) (l : list json) : list Z :=
  match l with
  | [] => [# "]"]
  | v :: l => (if first then [] else [# ","]) ++ fast v ++ each false l
  end).
Abbreviation fast_members := (fix each (first : bool) (l : list (string * json)) : list Z :=
  match l with
  | [] => [# "}"]
  | (name, v) :: l =>
      (if first then [] else [# ","]) ++ valueToQuotedString (bytes_of_string name) ++ # ":" :: fast v ++ each false l
  end).
Lemma fast_elements_text l : Forall (fun v => json_text v (fast v)) l -> l <> [] -> elements_text l (fast_elements true l).
Proof using.
  induction l as [|v l IH]; [done|]. intros [Hv Hl]%Forall_cons _. destruct l as [|v' l].
  - exact (last_element v _ [] [] (List.Forall_nil _) Hv (List.Forall_nil _)).
  - exact (more_elements v _ [] [] _ _ (List.Forall_nil _) Hv (List.Forall_nil _) (IH Hl ltac:(discriminate))).
Qed.
Lemma fast_members_text l : Forall (fun p => ~ In 0 (bytes_of_string p.1) /\ json_text p.2 (fast p.2)) l -> l <> [] ->
  members_text l (fast_members true l).
Proof using.
  induction l as [|[k v] l IH]; [done|]. intros [[Hk Hv] Hl]%Forall_cons _. cbn [fst snd] in *. destruct l as [|[k' v'] l].
  - exact (last_member k v _ _ [] [] [] [] (List.Forall_nil _) (quoted_text _ Hk) (List.Forall_nil _) (List.Forall_nil _) Hv (List.Forall_nil _)).
  - exact (more_members k v _ _ [] [] [] [] _ _ (List.Forall_nil _) (quoted_text _ Hk) (List.Forall_nil _) (List.Forall_nil _) Hv
      (List.Forall_nil _) (IH Hl ltac:(discriminate))).
Qed.
Lemma fast_text v : writable v -> json_text v (fast v).
Proof using.
  induction v as [|n|b|s|l IH|l IH|d] using json_forall; intros Hp.
  - apply null_text.
  - cbn in Hp. apply intToString_text. lia.
  - destruct b; [apply true_text|apply false_text].
  - apply str_text, quoted_text. exact Hp.
  - apply writable_array in Hp. destruct l as [|v l]; [exact (empty_array_text [] (List.Forall_nil _))|].
    apply array_text, fast_elements_text; [|done]. rewrite Forall_forall in IH, Hp. apply Forall_forall. auto.
  - apply writable_object in Hp as [_ Hp]. destruct l as [|p l]; [exact (empty_object_text [] (List.Forall_nil _))|].
    apply object_text, fast_members_text; [|done]. rewrite Forall_forall in IH, Hp.
    apply Forall_forall. intros x Hx. destruct (Hp x Hx). auto.
  - done.
Qed.
End Fast.

(** ** The styled writers *)
Section Styled.
Import Layout.
Context (print_double : real -> list Z) (writeIndent : M t unit) (indentation : list Z).
Abbreviation writeWithIndent := (Layout.writeWithIndent writeIndent).
Abbreviation indent := (Layout.indent indentation).
Abbreviation unindent := (Layout.unindent indentation).
Abbreviation write_lines := (Layout.write_lines writeIndent).
Abbreviation write_members := (Layout.write_members writeIndent).
Abbreviation writeArrayValue := (Layout.writeArrayValue writeIndent indentation).
Abbreviation styled := (Layout.writeValue writeIndent indentation print_double).
Abbreviation children := (list (list Z)).
(** outside of [isMultineArray], with an indentation of spaces *)
Definition ready (s : t) : Prop := addChildValues_ s = false /\ ws (indentString_ s).
(** [m] appends a text of [P] to the document, from a state whose element texts are
    in [A] to one whose are in [B], and keeps the indentation *)
Definition writes (A B : children -> Prop) (m : M t unit) (P : list Z -> Prop) : Prop := forall s,
  ready s -> A (childValues_ s) ->
  exists s' u, m s = Ok (tt, s') /\ document_ s' = document_ s ++ u /\ indentString_ s' = indentString_ s /\
    addChildValues_ s' = false /\ B (childValues_ s') /\ P u.
Definition any : children -> Prop := fun _ => True.
(** what both writers promise of a line's start and of the indentation *)
Hypothesis writes_indent : forall A, writes A A writeIndent ws.
Hypothesis ws_indentation : ws indentation.

Lemma writes_bind A B C m k P Q : writes A B m P -> writes B C k Q ->
  writes A C (m ;;; k) (fun u => exists a b, u = a ++ b /\ P a /\ Q b).
Proof using.
  intros Hm Hk s [Hs Hi] Ha. destruct (Hm s (conj Hs Hi) Ha) as (s1 & a & E1 & D1 & I1 & C1 & B1 & Pa).
  destruct (Hk s1) as (s2 & b & E2 & D2 & I2 & C2 & B2 & Qb); [by split; [|rewrite I1]|done|].
  exists s2, (a ++ b). split; [by erewrite bind_ok|]. split; [by rewrite D2, D1, app_assoc|]. split; [congruence|].
  split; [done|]. split; [done|]. by exists a, b.
Qed.
Lemma writes_weaken A A' B B' m P Q : writes A B m P -> (forall c, A' c -> A c) -> (forall c, B c -> B' c) -> (forall u, P u -> Q u) ->
  writes A' B' m Q.
Proof using.
  intros Hm HA HB HP s Hs Ha. destruct (Hm s Hs (HA _ Ha)) as (s' & u & H1 & H2 & H3 & H4 & H5 & H6). exists s', u. auto 10.
Qed.
Lemma writes_text A B m P Q : writes A B m P -> (forall u, P u -> Q u) -> writes A B m Q.
Proof using. intros Hm HP. by eapply writes_weaken. Qed.
Lemma writes_ret A : writes A A (ret tt) (eq []).
Proof using. intros s [Hs _] Ha. exists s, []. rewrite app_nil_r. auto 10. Qed.
Lemma writes_add A x : writes A A (add x) (eq x).
Proof using. intros [d i b c] [Hs _] Ha. by eexists _, x. Qed.
Lemma writes_push A x : writes A A (pushValue x) (eq x).
Proof using.
  intros s [Hs Hi] Ha. destruct (writes_add A x s (conj Hs Hi) Ha) as (s' & u & E & H). exists s', u. split; [|done].
  unfold pushValue, bind, get. cbn [obind]. by rewrite Hs.
Qed.
Lemma writes_with_indent A x : writes A A (writeWithIndent x) (fun u => exists w, ws w /\ u = w ++ x).
Proof using writes_indent.
  eapply writes_text; [eapply writes_bind; [apply writes_indent|apply writes_add]|]. intros u (a & b & -> & Ha & <-). eauto.
Qed.
(** what is written between [indent] and [unindent] *)
Lemma writes_indented A B C m k P Q : writes A B m P -> writes B C k Q ->
  writes A C (indent ;;; m ;;; unindent ;;; k) (fun u => exists a b, u = a ++ b /\ P a /\ Q b).
Proof using ws_indentation.
  intros Hm Hk [d i b c] [Hs Hi] Ha. cbn in Hs, Hi. subst b.
  set (s1 := mk d (i ++ indentation) false c).
  destruct (Hm s1) as (s2 & a & E2 & D2 & I2 & C2 & B2 & Pa); [split; [done|]|done|].
  { cbn. by apply Forall_app. }
  set (s3 := mk (document_ s2) i false (childValues_ s2)).
  destruct (Hk s3) as (s4 & b & E4 & D4 & I4 & C4 & B4 & Qb); [by split|done|].
  assert (unindent s2 = Ok (tt, s3)) as E3.
  { unfold Layout.unindent, bind, get, set_indent, modify. cbn [obind]. rewrite I2. cbn [indentString_ s1]. rewrite length_app.
    rewrite (proj2 (Nat.leb_le (length indentation) _)) by lia. cbn. rewrite Nat.add_sub, take_app_length. subst s3. by rewrite C2. }
  exists s4, (a ++ b). split.
  - erewrite bind_ok by reflexivity. fold s1. erewrite bind_ok by exact E2. by erewrite bind_ok by exact E3.
  - split; [rewrite D4; cbn; by rewrite D2, app_assoc|]. split; [done|]. split; [done|]. split; [done|]. by exists a, b.
Qed.

(** ** Elements and members *)
(** a text of the value behind white space *)
Definition value_text (v : json) (u : list Z) : Prop := exists w x, ws w /\ json_text v x /\ u = w ++ x.
(** the elements up to their bracket, the members up to their brace *)
Definition open_elements (l : list json) (u : list Z) : Prop := forall w, ws w -> elements_text l (u ++ w ++ [# "]"]).
Definition open_members (l : list (string * json)) (u : list Z) : Prop := forall w, ws w -> members_text l (u ++ w ++ [# "}"]).
Lemma ws_app a b : ws a -> ws b -> ws (a ++ b).
Proof using. intros. by apply Forall_app. Qed.
Lemma open_last v u : value_text v u -> open_elements [v] u.
Proof using. intros (w & x & Hw & Hx & ->) w2 H2. rewrite <- app_assoc. by apply last_element. Qed.
Lemma open_more v u l r : value_text v u -> open_elements l r -> open_elements (v :: l) (u ++ # "," :: r).
Proof using.
  intros (w & x & Hw & Hx & ->) Hr w2 H2. rewrite <- !app_assoc. cbn [app].
  exact (more_elements v x w [] l _ Hw Hx (List.Forall_nil _) (Hr w2 H2)).
Qed.
Lemma elements_text_ws w l u : ws w -> elements_text l u -> elements_text l (w ++ u).
Proof using.
  intros Hw [v x w1 w2|v x w1 w2 l' r]; rewrite app_assoc; [apply last_element|apply more_elements]; by try apply ws_app.
Qed.
Lemma open_elements_ws w l u : ws w -> open_elements l u -> open_elements l (w ++ u).
Proof using. intros Hw Hu w2 H2. rewrite <- app_assoc. apply elements_text_ws; auto. Qed.
Lemma value_text_ws w v u : ws w -> value_text v u -> value_text v (w ++ u).
Proof using. intros Hw (w' & x & Hw' & Hx & ->). exists (w ++ w'), x. rewrite <- app_assoc. by split; [apply ws_app|]. Qed.
Lemma value_text_self v x : json_text v x -> value_text v x.
Proof using. intros Hx. exists [], x. by split; [apply List.Forall_nil|]. Qed.

Lemma write_lines_values f l : forall i, l <> [] -> Forall (fun v => writes any any (f v) (value_text v)) l ->
  writes any any (write_lines f false i l) (open_elements l).
Proof using writes_indent.
  induction l as [|v l IH]; [done|]. intros i _ [Hv Hl]%Forall_cons. cbn [Layout.write_lines].
  assert (writes any any (writeIndent ;;; f v) (value_text v)) as H1.
  { eapply writes_text; [eapply writes_bind; [apply writes_indent|exact Hv]|]. intros u (a & b & -> & Ha & Hb). by apply value_text_ws. }
  destruct l as [|v' l].
  - eapply writes_text; [eapply writes_bind; [exact H1|apply writes_ret]|]. intros u (a & b & -> & Ha & <-). rewrite app_nil_r.
    by apply open_last.
  - eapply writes_text; [eapply writes_bind; [exact H1|eapply writes_bind; [apply writes_add|by apply IH]]|].
    intros u (a & b & -> & Ha & c & d & -> & <- & Hd). by apply open_more.
Qed.
Lemma writes_child cs i x m P : cs !! i = Some x -> writes (eq cs) (eq cs) (m x) P ->
  writes (eq cs) (eq cs) (c <- child i ;; m c) P.
Proof using.
  intros Hx Hm s Hs Hc. destruct (Hm s Hs Hc) as (s' & u & E & H). exists s', u. split; [|done].
  unfold bind at 1, child. unfold bind, get. cbn [obind]. rewrite <- Hc, Hx. exact E.
Qed.
Lemma write_lines_children f cs l : forall i, l <> [] -> Forall2 json_text l (drop i cs) ->
  writes (eq cs) (eq cs) (write_lines f true i l) (open_elements l).
Proof using writes_indent.
  induction l as [|v l IH]; [done|]. intros i _ Hf. apply Forall2_cons_inv_l in Hf as (x & r & Hx & Hr & Ed). cbn [Layout.write_lines].
  assert (cs !! i = Some x) as Ei by by rewrite <- (Nat.add_0_r i), <- lookup_drop, Ed.
  assert (drop (S i) cs = r) as Ed' by by rewrite <- Nat.add_1_r, <- drop_drop, Ed.
  assert (writes (eq cs) (eq cs) (c <- child i ;; writeWithIndent c) (value_text v)) as H1.
  { apply (writes_child cs i x); [done|]. eapply writes_text; [apply writes_with_indent|]. intros u (w & Hw & ->).
    by apply value_text_ws, value_text_self. }
  destruct l as [|v' l].
  - eapply writes_text; [eapply writes_bind; [exact H1|apply writes_ret]|]. intros u (a & b & -> & Ha & <-). rewrite app_nil_r.
    by apply open_last.
  - eapply writes_text; [eapply writes_bind; [exact H1|eapply writes_bind; [apply writes_add|apply IH; [done|by rewrite Ed']]]|].
    intros u (a & b & -> & Ha & c & d & -> & <- & Hd). by apply open_more.
Qed.
Lemma write_row_elements cs l : forall i, l <> [] -> Forall2 json_text l (drop i cs) ->
  writes (eq cs) (eq cs) (write_row i (length l)) (fun u => exists r, u = (if (0 <? i)%nat then [# ","; # " "] else []) ++ r /\ open_elements l r).
Proof using.
  induction l as [|v l IH]; [done|]. intros i _ Hf. apply Forall2_cons_inv_l in Hf as (x & r & Hx & Hr & Ed). cbn [length write_row].
  assert (cs !! i = Some x) as Ei by by rewrite <- (Nat.add_0_r i), <- lookup_drop, Ed.
  assert (drop (S i) cs = r) as Ed' by by rewrite <- Nat.add_1_r, <- drop_drop, Ed.
  assert (writes (eq cs) (eq cs) (if (0 <? i)%nat then add [# ","; # " "] else ret tt) (eq (if (0 <? i)%nat then [# ","; # " "] else []))) as H1.
  { destruct (0 <? i)%nat; [apply writes_add|apply writes_ret]. }
  destruct l as [|v' l].
  - eapply writes_text; [eapply writes_bind; [exact H1|apply (writes_child cs i x); [done|eapply writes_bind; [apply writes_add|apply writes_ret]]]|].
    intros u (a & b & -> & <- & c & d & -> & <- & <-). eexists. split; [reflexivity|]. rewrite app_nil_r. by apply open_last, value_text_self.
  - eapply writes_text; [eapply writes_bind; [exact H1|apply (writes_child cs i x); [done|eapply writes_bind; [apply writes_add|apply IH; [done|by rewrite Ed']]]]|].
    intros u (a & b & -> & <- & c & d & -> & <- & k & -> & Hk). eexists. split; [reflexivity|]. cbn [app].
    apply open_more; [by apply value_text_self|]. apply (open_elements_ws [# " "]); [by apply List.Forall_cons|done].
Qed.
Lemma write_members_text f l : l <> [] ->
  Forall (fun p => ~ In 0 (bytes_of_string p.1) /\ writes any any (f p.2) (value_text p.2)) l ->
  writes any any (write_members f l) (open_members l).
Proof using writes_indent.
  induction l as [|[k v] l IH]; [done|]. intros _ [[Hk Hv] Hl]%Forall_cons. cbn [Layout.write_members fst snd] in *.
  assert (ws [# " "]) as Hsp by by apply List.Forall_cons.
  destruct l as [|p l].
  - eapply writes_text; [eapply writes_bind; [apply writes_with_indent|eapply writes_bind; [apply writes_add|eapply writes_bind; [exact Hv|apply writes_ret]]]|].
    intros u (a & b & -> & (w & Hw & ->) & c & d & -> & <- & e & g & -> & (w' & x & Hw' & Hx & ->) & <-) w4 H4.
    rewrite app_nil_r. repeat (rewrite <- ?app_assoc; cbn [app]).
    exact (last_member k v _ x w [# " "] (# " " :: w') w4 Hw (quoted_text _ Hk) Hsp (ws_app [# " "] w' Hsp Hw') Hx H4).
  - eapply writes_text; [eapply writes_bind; [apply writes_with_indent|eapply writes_bind; [apply writes_add|eapply writes_bind; [exact Hv|
      eapply writes_bind; [apply writes_add|by apply IH]]]]|].
    intros u (a & b & -> & (w & Hw & ->) & c & d & -> & <- & e & g & -> & (w' & x & Hw' & Hx & ->) & h & j & -> & <- & Hj) w4 H4.
    repeat (rewrite <- ?app_assoc; cbn [app]).
    exact (more_members k v _ x w [# " "] (# " " :: w') [] (p :: l) _ Hw (quoted_text _ Hk) Hsp (ws_app [# " "] w' Hsp Hw') Hx
      (List.Forall_nil _) (Hj w4 H4)).
Qed.

(** ** Values *)
Definition leaf (v : json) : bool := match v with JArray (_ :: _) | JObject (_ :: _) => false | _ => true end.
Definition leaf_text (v : json) : list Z :=
  match v with
  | JNull => bytes_of_string "null"
  | JInt n => intToString n
  | JReal d => truncate_zeros (print_double d)
  | JString s => valueToQuotedString (bytes_of_string s)
  | JBool b => boolToString b
  | JArray _ => [# "["; # "]"]
  | JObject _ => [# "{"; # "}"]
  end.
Lemma leaf_write v : leaf v = true -> styled v = pushValue (leaf_text v).
Proof using. destruct v as [| | | |[|]|[|]|]; done. Qed.
Lemma leaf_json v : leaf v = true -> writable v -> json_text v (leaf_text v).
Proof using.
  destruct v as [|n|b|s|[|x l]|[|x l]|]; cbn [leaf leaf_text]; intros Hl Hp; try done.
  - apply null_text.
  - cbn in Hp. apply intToString_text. lia.
  - destruct b; [apply true_text|apply false_text].
  - by apply str_text, quoted_text.
  - exact (empty_array_text [] (List.Forall_nil _)).
  - exact (empty_object_text [] (List.Forall_nil _)).
Qed.
Lemma leaf_nonempty v : nonempty_container v = negb (leaf v).
Proof using. by destruct v as [| | | |[|]|[|]|]. Qed.
Lemma collect_leaves l : forall s i n, Forall (fun v => leaf v = true) l -> addChildValues_ s = true -> i = length (childValues_ s) ->
  exists n', collect styled i n l s =
    Ok (n', mk (document_ s) (indentString_ s) true (childValues_ s ++ map leaf_text l)).
Proof using.
  induction l as [|v l IH]; intros [d ind b c] i n Hl Hb Hi; cbn in Hb, Hi; subst b.
  { exists n. cbn. by rewrite app_nil_r. }
  apply Forall_cons in Hl as [Hv Hl]. cbn [collect]. rewrite leaf_write by done.
  edestruct (IH (mk d ind true (c ++ [leaf_text v])) (S i)) as [n' E]; [done|done|cbn; rewrite length_app; cbn; lia|].
  exists n'. erewrite bind_ok by reflexivity.
  assert (child i (mk d ind true (c ++ [leaf_text v])) = Ok (leaf_text v, mk d ind true (c ++ [leaf_text v]))) as Ec.
  { unfold child, bind, get. cbn [obind childValues_]. by rewrite list_lookup_middle by lia. }
  erewrite bind_ok by exact Ec. rewrite E. cbn. by rewrite <- app_assoc.
Qed.
(** either the texts of all elements are known, or the array is written on lines *)
Lemma isMultineArray_cases l s : ready s -> exists b c,
  isMultineArray styled l s = Ok (b, mk (document_ s) (indentString_ s) false c) /\
  (b = true /\ c = [] \/ Forall (fun v => leaf v = true) l /\ c = map leaf_text l).
Proof using.
  destruct s as [d i b c]. intros [Hb _]. cbn in Hb. subst b. unfold isMultineArray.
  erewrite bind_ok by reflexivity. erewrite bind_ok by reflexivity. cbn [document_ indentString_ addChildValues_].
  destruct (_ || _) eqn:E; [by exists true, []; split; [|left]|].
  apply orb_false_iff in E as [_ E]. assert (Forall (fun v => leaf v = true) l) as Hl.
  { induction l as [|v l IH]; [apply List.Forall_nil|]. cbn in E. apply orb_false_iff in E as [Ev El].
    rewrite leaf_nonempty, negb_false_iff in Ev. apply List.Forall_cons; auto. }
  edestruct (collect_leaves l (mk d i true []) 0) as [n En]; [done|done|done|].
  eexists _, _. split; [|by right].
  erewrite bind_ok by reflexivity. erewrite bind_ok by exact En. reflexivity.
Qed.
Lemma writes_ext A B m m' P : (forall s, m s = m' s) -> writes A B m' P -> writes A B m P.
Proof using. intros Hm Hw s Hs Ha. rewrite Hm. by apply Hw. Qed.
Lemma writes_get B c k P : (forall w, childValues_ w = c -> writes (eq c) B (k w) P) -> writes (eq c) B (w <- get ;; k w) P.
Proof using. intros Hk s Hs Hc. by destruct (Hk s (eq_sym Hc) s Hs Hc) as (s' & u & H); exists s', u. Qed.
(** an array on lines, and one in a row *)
Lemma writes_lines c l : (forall b, b = negb (bool_decide (c = [])) -> writes (eq c) any (write_lines styled b 0 l) (open_elements l)) ->
  writes (eq c) any (writeWithIndent [# "["] ;;; indent ;;;
    (w <- get ;; write_lines styled (negb (bool_decide (childValues_ w = []))) 0 l ;;; unindent ;;; writeWithIndent [# "]"])) (value_text (JArray l)).
Proof using ws_indentation writes_indent.
  intros Hl. eapply writes_text.
  - eapply writes_bind; [apply writes_with_indent|].
    eapply (writes_ext _ _ _ (indent ;;; (w <- get ;; write_lines styled (negb (bool_decide (childValues_ w = []))) 0 l) ;;; unindent ;;;
      writeWithIndent [# "]"])); [reflexivity|].
    eapply writes_indented; [|apply writes_with_indent]. apply writes_get. intros w Hw. apply Hl. by rewrite Hw.
  - intros u (a & b & -> & (w & Hw & ->) & e & g & -> & He & w2 & H2 & ->).
    exists w, (# "[" :: e ++ w2 ++ [# "]"]). split; [done|]. split; [apply array_text; by apply He|]. by rewrite <- app_assoc.
Qed.
Lemma writes_row c l : l <> [] -> Forall2 json_text l c ->
  writes (eq c) any (w <- get ;; assertM (length (childValues_ w) =? length l)%nat ;;; add [# "["; # " "] ;;;
    write_row 0 (length l) ;;; add [# " "; # "]"]) (value_text (JArray l)).
Proof using.
  intros Hne Hl. apply writes_get. intros w Hw. rewrite Hw, (proj2 (Nat.eqb_eq (length c) (length l))) by by rewrite (Forall2_length _ _ _ Hl).
  eapply (writes_ext _ _ _ (add [# "["; # " "] ;;; write_row 0 (length l) ;;; add [# " "; # "]"])); [reflexivity|].
  eapply writes_weaken; [eapply writes_bind; [apply writes_add|eapply writes_bind; [apply (write_row_elements c l 0)|apply writes_add]]|done|done|];
    [done|by rewrite drop_0|].
  intros u (a & b & -> & <- & d & e & -> & (r & -> & Hr) & <-). apply value_text_self. cbn [app].
  assert (ws [# " "]) as Hsp by by apply List.Forall_cons.
  exact (array_text l _ (elements_text_ws [# " "] l _ Hsp (Hr [# " "] Hsp))).
Qed.
Lemma styled_array l : l <> [] -> Forall (fun v => writes any any (styled v) (value_text v)) l -> Forall writable l ->
  writes any any (writeArrayValue styled l) (value_text (JArray l)).
Proof using ws_indentation writes_indent.
  intros Hne Hw Hp s Hs _. destruct (isMultineArray_cases l s Hs) as (b & c & E & Hc).
  assert (Forall (fun v => leaf v = true) l -> Forall2 json_text l (map leaf_text l)) as Hleaves.
  { intros Hl. apply Forall2_fmap_r, Forall_Forall2_diag. rewrite Forall_forall in Hl, Hp. apply Forall_forall.
    intros v Hv. apply leaf_json; auto. }
  set (s1 := mk (document_ s) (indentString_ s) false c) in *.
  assert (exists m, writes (eq c) any m (value_text (JArray l)) /\ writeArrayValue styled l s = m s1) as (m & Hm & ->).
  { eexists. split; [|destruct l as [|v l']; [done|]; unfold Layout.writeArrayValue; by erewrite bind_ok by exact E]. destruct b.
    - apply writes_lines. intros b ->. destruct Hc as [[_ ->]|[Hl ->]].
      + eapply writes_weaken; [by apply write_lines_values|done..].
      + rewrite bool_decide_false by by destruct l. eapply writes_weaken; [apply (write_lines_children _ (map leaf_text l))|done..]; [done|].
        by apply Hleaves.
    - destruct Hc as [[? _]|[Hl ->]]; [done|]. apply writes_row; auto. }
  destruct Hs as [Hs Hi]. by apply (Hm s1).
Qed.
Lemma styled_object l : l <> [] -> Forall (fun p => ~ In 0 (bytes_of_string p.1) /\ writes any any (styled p.2) (value_text p.2)) l ->
  writes any any (styled (JObject l)) (value_text (JObject l)).
Proof using ws_indentation writes_indent.
  intros Hne Hl. eapply (writes_ext _ _ _ (writeWithIndent [# "{"] ;;; indent ;;; write_members styled l ;;; unindent ;;; writeWithIndent [# "}"]));
    [by destruct l|].
  eapply writes_text.
  - eapply writes_bind; [apply writes_with_indent|]. eapply writes_indented; [by apply write_members_text|apply writes_with_indent].
  - intros u (a & b & -> & (w & Hw & ->) & e & g & -> & He & w2 & H2 & ->).
    exists w, (# "{" :: e ++ w2 ++ [# "}"]). split; [done|]. split; [apply object_text; by apply He|]. by rewrite <- app_assoc.
Qed.
Lemma styled_text v : writable v -> writes any any (styled v) (value_text v).
Proof using ws_indentation writes_indent.
  induction v as [|n|b|s|l IH|l IH|d] using json_forall; intros Hp.
  5: destruct (decide (l = [])) as [->|Hne].
  7: destruct (decide (l = [])) as [->|Hne].
  all: try (rewrite leaf_write by done; eapply writes_text; [apply writes_push|]; intros u <-; apply value_text_self, leaf_json; done).
  - apply writable_array in Hp. apply styled_array; [done| |done]. rewrite Forall_forall in IH, Hp. apply Forall_forall. auto.
  - apply writable_object in Hp as [_ Hp]. apply styled_object; [done|]. rewrite Forall_forall in IH, Hp. apply Forall_forall.
    intros p Hin. destruct (Hp p Hin). auto.
Qed.
Lemma layout_write v : writable v -> exists w t, write writeIndent indentation print_double v = Ok (w ++ t ++ [10]) /\ ws w /\ json_text v t.
Proof using ws_indentation writes_indent.
  intros Hp. destruct (styled_text v Hp (mk [] [] false [])) as (s' & u & E & D & _ & _ & _ & w & t & Hw & Ht & ->);
    [split; [done|apply List.Forall_nil]|done|].
  exists w, t. unfold write. rewrite E. cbn [obind]. rewrite D. cbn [document_ app]. by rewrite <- app_assoc.
Qed.
End Styled.
(** an indentation of spaces, behind a new line unless one is there *)
Lemma styled_indent A : writes A A StyledWriter.writeIndent ws.
Proof.
  intros [d i b c] [Hs Hi] Ha. cbn in Hs, Hi. subst b. unfold StyledWriter.writeIndent, bind, get. cbn [obind Layout.document_].
  destruct (last d) as [x|]; [destruct (x =? # " "); [|destruct (x =? 10)]|]; cbn; eexists _, _; (split; [reflexivity|]); cbn.
  - rewrite app_nil_r. split; [done|]. split; [done|]. split; [done|]. split; [done|apply List.Forall_nil].
  - by split.
  - rewrite <- app_assoc. split; [done|]. split; [done|]. split; [done|]. split; [done|]. by apply List.Forall_cons.
  - by split.
Qed.
(** the stream's writer starts every line with a new line *)
Lemma stream_indent A : writes A A StyledStreamWriter.writeIndent ws.
Proof.
  intros [d i b c] [Hs Hi] Ha. cbn in Hs, Hi. subst b. eexists _, (10 :: i). split; [reflexivity|]. repeat (split; [done|]).
  by apply List.Forall_cons.
Qed.
Lemma spaces_ws n : ws (replicate n (# " ")).
Proof. by apply Forall_replicate. Qed.
Lemma styled_write print_double v : writable v -> exists w t, StyledWriter.write print_double v = Ok (w ++ t ++ [10]) /\ ws w /\ json_text v t.
Proof. apply layout_write; [exact styled_indent|apply spaces_ws]. Qed.
(** a text of the writers, read *)
Lemma styled_parse print_double scan_double past cur writeIndent indentation v :
  (forall A, writes A A writeIndent ws) -> ws indentation -> plain v ->
  exists text, Layout.write writeIndent indentation print_double v = Ok text /\ parse scan_double past cur text = Ok (true, v).
Proof.
  intros Hw Hi Hp.
  destruct (layout_write print_double writeIndent indentation Hw Hi v (plain_writable v Hp)) as (w & t & E & Hws & Ht).
  eexists. split; [exact E|]. apply parse_text; [done|done|done|by apply List.Forall_cons].
Qed.
(** the stream's writer, with any indentation of white space *)
Theorem stream_roundtrip (print_double : real -> list Z) (scan_double : list Z -> option real) (indentation : list Z) (past : Z)
  (cur v : json) : ws indentation -> plain v ->
  exists text, StyledStreamWriter.write indentation print_double v = Ok text /\ parse scan_double past cur text = Ok (true, v).
Proof. apply styled_parse. exact stream_indent. Qed.

(** [C15] What either writer makes of a value, the reader reads back as the value:
    a value whose integers are those the reader keeps as integers, whose strings have
    no NUL and whose members are in order, doubles apart. *)
Theorem json_roundtrip (print_double : real -> list Z) (scan_double : list Z -> option real) (past : Z) (cur v : json) :
  plain v ->
  parse scan_double past cur (FastWriter.writeValue print_double v) = Ok (true, v) /\
  exists text, StyledWriter.write print_double v = Ok text /\ parse scan_double past cur text = Ok (true, v).
Proof.
  intros Hp. split.
  - rewrite <- (app_nil_r (FastWriter.writeValue print_double v)).
    exact (parse_text _ _ _ v _ [] [] (fast_text print_double v (plain_writable v Hp)) Hp (List.Forall_nil _) (List.Forall_nil _)).
  - apply styled_parse; [exact styled_indent|apply spaces_ws|done].
Qed.
Definition sample_value : json :=
  JObject [("name", JString "disk 1"); ("sizes", JArray [JInt 0; JInt (-7); JInt 4294967289]); ("tags", JArray []); ("used", JBool true)]%string.
Lemma sample_plain : plain sample_value.
Proof.
  apply plain_object. split; [by repeat split; repeat constructor|].
  repeat (apply List.Forall_cons || apply List.Forall_nil || split); cbn; try (intros H; intuition discriminate); lia || done.
Qed.
Lemma json_roundtrip_witness :
  parse (fun _ => None) 0 JNull (FastWriter.writeValue (fun _ => []) sample_value) = Ok (true, sample_value) /\
  exists text, StyledWriter.write (fun _ => []) sample_value = Ok text /\ parse (fun _ => None) 0 JNull text = Ok (true, sample_value).
Proof. exact (json_roundtrip (fun _ => []) (fun _ => None) 0 JNull sample_value sample_plain). Defined.

(** ** Texts that are no JSON and are read *)
(** the test for a comma is never true, so that any value between two counts as one *)
Lemma comma_not_checked scan_double past cur :
  parse scan_double past cur (bytes_of_string "[1 2 3]") = Ok (true, JArray [JInt 1; JInt 3]).
Proof. reflexivity. Qed.
Lemma minus_is_zero scan_double past cur : parse scan_double past cur (bytes_of_string "-") = Ok (true, JInt 0).
Proof. reflexivity. Qed.
