(* ===== verification/JsonCodec.v ===== *)
(** * The reader and the writers as their callers use them

    [Json::Reader] on a string into a fresh value, [toStyledString] and
    [FastWriter::write]; strings in quotes; and the integers that do not survive. *)

From Stdlib Require Import ZArith Lia Bool Ascii String.
From stdpp Require Import base list strings.
From S2P Require Import Prelude StdMap Json JsonReader JsonReaderFacts JsonText JsonWriter JsonFacts.
Set Default Goal Selector "!".
Local Open Scope Z_scope.
Local Open Scope drive_scope.

Section Codec.
Context (print_double : real -> list Z) (scan_double : list Z -> option real).
(** [reader.parse(str.c_str(), str.size(), json, false)]; where the reader has no
    defined behaviour (a double of 32 characters) the text counts as unreadable *)
Definition json_reader (text : list Z) : bool * json :=
  match parse scan_double 0 JNull text with Ok r => r | _ => (false, JNull) end.
Definition toStyledString (v : json) : string :=
  match StyledWriter.write print_double v with Ok text => string_of_bytes text | _ => EmptyString end.
Definition fastString (v : json) : string := FastWriter.write print_double v.
(** a string argument into JSON, and a parameter that is a JSON string out of it *)
Definition quote_json (s : string) : string := fastString (JString s).
Definition unquote_json (s : string) : option string :=
  match json_reader (bytes_of_string s) with (true, JString t) => Some t | _ => None end.

(** ** Texts are bytes *)
Lemma in_number_bytes t : Forall (fun c => is_digit c = true) t -> Forall is_byte t.
Proof using.
  intros Ht. eapply Forall_impl; [exact Ht|]. intros c Hc%is_digit_above. unfold is_byte. lia.
Qed.
Lemma ws_bytes w : ws w -> Forall is_byte w.
Proof using.
  intros Hw. eapply Forall_impl; [exact Hw|]. intros c Hc. unfold is_space in Hc. change (# " ") with 32 in Hc. unfold is_byte.
  repeat (apply orb_true_iff in Hc as [Hc|Hc]); apply Z.eqb_eq in Hc; lia.
Qed.
Lemma hex_digit_byte c n : hex_digit c = Some n -> is_byte c.
Proof using.
  unfold hex_digit, is_digit, is_byte. change (# "0") with 48. change (# "9") with 57. change (# "a") with 97.
  change (# "f") with 102. change (# "A") with 65. change (# "F") with 70.
  destruct (Z.leb_spec 48 c), (Z.leb_spec c 57), (Z.leb_spec 97 c), (Z.leb_spec c 102), (Z.leb_spec 65 c), (Z.leb_spec c 70); cbn; try done; lia.
Qed.
Lemma char_text_bytes c t : is_byte c -> char_text c t -> Forall is_byte t.
Proof using.
  intros Hb Ht. destruct Ht as [c Hq Hs|c e Hu He|c a b d e Hd _].
  - by apply Forall_singleton.
  - assert (is_byte e) as Hbe.
    { unfold simple_escape in He. repeat match type of He with (if ?x =? ?y then _ else _) = _ =>
        destruct (Z.eqb_spec x y) as [->|_]; [done|] end. done. }
    by repeat apply List.Forall_cons.
  - unfold decodeUnicodeEscapeSequence in Hd.
    destruct (hex_digit a) eqn:Ea, (hex_digit b) eqn:Eb, (hex_digit d) eqn:Ed, (hex_digit e) eqn:Ee; try done.
    repeat (apply List.Forall_cons; [done || by eapply hex_digit_byte|]). apply List.Forall_nil.
Qed.
Lemma string_text_bytes s t : Forall is_byte s -> string_text s t -> Forall is_byte t.
Proof using.
  intros Hs (r & Hr & ->). apply List.Forall_cons; [done|]. apply Forall_app. split; [|by apply Forall_singleton].
  induction Hr as [|c t s r Ht _ IH]; [done|]. apply Forall_cons in Hs as [Hc Hs]. apply Forall_app. split; [by eapply char_text_bytes|auto].
Qed.
Lemma texts_bytes : (forall v t, json_text v t -> Forall is_byte t) /\ (forall l t, elements_text l t -> Forall is_byte t) /\
  (forall l t, members_text l t -> Forall is_byte t).
Proof using.
  assert (forall a, is_byte (ascii_byte a)) as Ha by apply ascii_byte_range.
  apply texts_ind; intros; repeat (apply Forall_app; split); repeat (apply List.Forall_cons; [apply Ha|]); repeat (apply Forall_app; split);
    repeat (apply List.Forall_cons; [apply Ha|]); repeat (apply Forall_app; split); repeat (apply List.Forall_cons; [apply Ha|]);
    try apply List.Forall_nil; try done; try (by apply ws_bytes); try apply bytes_of_string_bytes;
    try (by eapply string_text_bytes; [apply bytes_of_string_bytes|]).
  - destruct d as (_ & Hd & _). by apply in_number_bytes.
  - destruct d as (_ & Hd & _). by apply in_number_bytes.
Qed.

(** ** Round trips *)
Lemma reader_nonempty s v : json_reader (bytes_of_string s) = (true, v) -> s <> EmptyString.
Proof using. by intros H ->. Qed.
Lemma styled_reader v : plain v -> json_reader (bytes_of_string (toStyledString v)) = (true, v).
Proof using.
  intros Hp. destruct (styled_write print_double v (plain_writable v Hp)) as (w & t & E & Hw & Ht).
  unfold toStyledString, json_reader. rewrite E, bytes_of_string_of_bytes.
  - assert (ws [10]) as Hn by by apply List.Forall_cons. by rewrite (parse_text _ _ _ v t w [10] Ht Hp Hw Hn).
  - repeat (apply Forall_app; split); [by apply ws_bytes|by eapply (proj1 texts_bytes)|by apply List.Forall_cons].
Qed.
(** a value of any Ints and UInts, for a library that reads the numbers it prints *)
Lemma styled_seen to_double v : scans scan_double to_double -> printable machine v ->
  json_reader (bytes_of_string (toStyledString v)) = (true, seen to_double v).
Proof using.
  intros Hscan Hp. assert (writable v) as Hw by (eapply printable_weaken; [|exact Hp]; unfold machine; lia).
  destruct (styled_write print_double v Hw) as (w & t & E & Hws & Ht).
  unfold toStyledString, json_reader. rewrite E, bytes_of_string_of_bytes.
  - assert (ws [10]) as Hn by by apply List.Forall_cons. by rewrite (parse_seen _ _ to_double _ v t w [10] Hscan Ht Hp Hws Hn).
  - repeat (apply Forall_app; split); [by apply ws_bytes|by eapply (proj1 texts_bytes)|by apply List.Forall_cons].
Qed.
Lemma fast_bytes v : plain v -> bytes_of_string (fastString v) = FastWriter.writeValue print_double v.
Proof using. intros Hp. apply bytes_of_string_of_bytes. eapply (proj1 texts_bytes), fast_text, plain_writable, Hp. Qed.
Lemma fast_reader v : plain v -> json_reader (bytes_of_string (fastString v)) = (true, v).
Proof using.
  intros Hp. rewrite fast_bytes by done. pose proof (fast_text print_double v (plain_writable v Hp)) as Ht.
  unfold json_reader. rewrite <- (app_nil_r (FastWriter.writeValue print_double v)).
  by rewrite (parse_text _ _ _ v _ [] [] Ht Hp (List.Forall_nil _) (List.Forall_nil _)).
Qed.

(** ** Strings *)
Lemma quote_unquote s : ~ In 0 (bytes_of_string s) -> unquote_json (quote_json s) = Some s.
Proof using. intros Hs. unfold unquote_json, quote_json. by rewrite fast_reader by done. Qed.
Lemma quote_starts s : exists t, quote_json s = String (byte_ascii quote_char) t.
Proof using.
  unfold quote_json, fastString, FastWriter.write, FastWriter.writeValue, valueToQuotedString. destruct (_ && _); by eexists.
Qed.
Lemma quote_no_nul s : ~ In 0 (bytes_of_string s) -> ~ In 0 (bytes_of_string (quote_json s)).
Proof using.
  intros Hs. unfold quote_json. rewrite fast_bytes by done. destruct (quoted_text _ Hs) as (r & Hr & E). cbn [FastWriter.writeValue].
  rewrite E. intros [H|[H|H]%in_app_or]; [done| |by destruct H]. clear E. revert H. remember (bytes_of_string s) as b eqn:Eb. clear Eb.
  induction Hr as [|c t b r Ht _ IH]; [done|]. intros [H|H]%in_app_or; [|apply IH; [intros Hb; by apply Hs; right|done]].
  destruct Ht as [c _ _|c e Hu He|c x y z u Hd _].
  - destruct H as [->|[]]. apply Hs. by left.
  - destruct H as [H|[->|[]]]; [done|]. done.
  - unfold decodeUnicodeEscapeSequence in Hd. pose proof (eq_refl : hex_digit 0 = None) as H0.
    destruct H as [H|[H|[->|[->|[->|[->|[]]]]]]]; try done; repeat case_match; congruence.
Qed.
(** only a text with a quotation mark is read as a string *)
Definition never_string (v : json) : Prop := match v with JString _ => False | _ => True end.
Lemma containers_read fuel : (forall ms name l r, readObject scan_double 0 fuel ms name l = Ok r -> never_string r.1.2) /\ (forall vs l r, readArray scan_double 0 fuel vs l = Ok r -> never_string r.1.2).
Proof using.
  assert (forall skip v l r, never_string v -> failed skip v l = Ok r -> never_string r.1.2) as Hfail.
  { intros skip v l r Hv. destruct (failed_ok skip v l) as (l' & -> & _). by intros [= <-]. }
  induction fuel as [|fuel [IHo IHa]]; [done|]. split.
  - intros ms name l r. rewrite readObject_unfold. unfold object_body.
    destruct (next_token_ok l) as (t & l1 & -> & _). cbn [obind].
    destruct (type_ t); try (by apply Hfail); [destruct name; [by intros [= <-]|by apply Hfail]|].
    destruct (decodeString t) as [nm|]; [|by apply Hfail]. destruct (readToken l1) as [colon l2]. destruct (negb _); [by apply Hfail|].
    destruct (readValue scan_double 0 fuel (member (JObject ms) (c_string nm)) l2) as [[[ok v] l3]| |]; [|done..]. cbn [obind].
    destruct (negb ok); [by apply Hfail|]. destruct (readToken l3) as [comma l4]. destruct (type_ comma); try (by apply Hfail); [by intros [= <-]|apply IHo|].
    destruct (next_token_ok l4) as (t5 & l5 & -> & _). cbn [obind]. destruct (decide _); [by intros [= <-]|apply IHo].
  - intros vs l r. rewrite readArray_unfold. unfold array_body.
    destruct (readValue scan_double 0 fuel JNull l) as [[[ok v] l3]| |]; [|done..]. cbn [obind]. destruct (negb ok); [by apply Hfail|].
    destruct (next_token_ok l3) as (t5 & l5 & -> & _). cbn [obind]. destruct (decide _); [by intros [= <-]|apply IHa].
Qed.
Lemma token_string_quote l t l' : next_token l = Ok (t, l') -> type_ t = tokenString -> In quote_char l.
Proof using.
  unfold next_token. generalize (S (length l)). intros fuel. revert l. induction fuel as [|fuel IH]; [done|]. intros l. cbn [skipCommentTokens].
  destruct (readToken l) as [t1 l1] eqn:E. destruct (decide _).
  - intros H1 H2. destruct (readToken_suffix l) as [k Hk]. rewrite E in Hk. cbn in Hk. rewrite Hk. apply in_or_app. right. by apply IH.
  - intros [= <- <-] Ht. destruct (skipSpaces_suffix l) as [k Hk]. unfold readToken in E.
    destruct (skipSpaces l) as [|c l2]; [by injection E as <- _|]. cbn [getNextChar] in E.
    destruct (read_token c l2) as [ty l3] eqn:Er. injection E as <- _. cbn in Ht. subst ty. rewrite Hk. apply in_or_app. right. left.
    unfold read_token in Er.
    repeat match type of Er with (if ?x =? ?y then _ else _) = _ => destruct (Z.eqb_spec x y) as [->|_]; [try done|] end.
    all: cbn in Er; repeat case_match; congruence.
Qed.
Lemma reader_string text s : json_reader text = (true, JString s) -> In quote_char text.
Proof using.
  unfold json_reader, parse. destruct (readValue _ _ _ _ _) as [[[ok v] l]| |] eqn:E; cbn [obind]; [|done..].
  destruct (next_token_ok l) as (t & l' & -> & _). cbn [obind]. intros [= -> ->].
  replace (2 * length text + 2)%nat with (S (2 * length text + 1)) in E by lia. rewrite readValue_unfold in E. unfold value_body in E.
  destruct (next_token text) as [[t1 l1]| |] eqn:E1; cbn [obind] in E; [|done..].
  destruct (type_ t1) eqn:Et; try done.
  - by apply (proj1 (containers_read _)) in E.
  - destruct (match skipSpaces l1 with [] => _ | _ => _ end); [done|]. by apply (proj2 (containers_read _)) in E.
  - by eapply token_string_quote.
  - unfold decodeNumber, decodeDouble in E. cbn zeta in E. repeat case_match; cbn in E; congruence.
Qed.
End Codec.

(** ** Stand-ins for the C library in concrete instances *)
Definition no_print (d : real) : list Z := [].
(** a [sscanf] that finds the same double in every text *)
Definition some_double (text : list Z) : option real := Some (SpecFloat.S754_zero false).
