(* ===== verification/HostJson.v ===== *)
(** * The records of reserved space as JSON (src/src/bdhost/Util.cpp)

    What GetReservedSpace reads of what ReserveSpace and UnreserveSpace write, with
    jsoncpp's writer and reader: sizes below 4294967290 are read back; the reader
    makes doubles of the six greatest 32-bit sizes, which count as no record. *)

From Stdlib Require Import ZArith Lia Bool Ascii String.
From stdpp Require Import base list strings.
From S2P Require Import Prelude StdMap Json JsonReader JsonReaderFacts JsonText JsonWriter JsonFacts JsonCodec.
Set Default Goal Selector "!".
Local Open Scope Z_scope.
Local Open Scope drive_scope.

Section HostJson.
Context (print_double : real -> list Z) (scan_double : list Z -> option real).
(** [json\["size"\] = n; json.toStyledString()] *)
Definition reserved_json (n : Z) : json := JObject [("size"%string, JInt n)].
Definition reserved_text (n : Z) : list Z := bytes_of_string (toStyledString print_double (reserved_json n)).
(** the size a text holds; None unless it parses to an object with an integral size *)
Definition reserved_size (text : list Z) : option Z :=
  match json_reader scan_double text with
  | (true, v) =>
      if isObject v && isIntegral (member v "size")
      then match asUInt (member v "size") with Ok n => Some n | _ => None end
      else None
  | (false, _) => None
  end.
(** sizes the reader keeps as integers *)
Definition kept_size (n : Z) : Prop := 0 <= n < 4294967290.

Lemma size_key : ~ In 0 (bytes_of_string "size").
Proof using. by intros [|[|[|[|[]]]]]. Qed.
Lemma reserved_roundtrip n : kept_size n -> reserved_size (reserved_text n) = Some n.
Proof using.
  unfold kept_size. intros Hn. unfold reserved_size, reserved_text. rewrite styled_reader.
  - cbn. by destruct (Z.ltb_spec n 0); [lia|].
  - apply plain_object. split; [by split; [apply List.Forall_nil|]|]. apply Forall_singleton. split; [apply size_key|]. cbn. lia.
Qed.

Lemma reserved_forgotten to_double n : scans scan_double to_double -> 4294967290 <= n < 2 ^ 32 -> reserved_size (reserved_text n) = None.
Proof using.
  intros Hscan Hn. unfold reserved_size, reserved_text. rewrite (styled_seen _ _ to_double).
  - unfold seen. cbn. unfold kept. destruct (Z.ltb_spec n 4294967290); [lia|]. by rewrite andb_false_r.
  - done.
  - apply printable_object. split; [by split; [apply List.Forall_nil|]|]. apply Forall_singleton. split; [apply size_key|]. cbn. unfold machine. lia.
Qed.
(** the records are short *)
Definition reserved_head : list Z := # "{" :: [10; 32; 32; 32; quote_char] ++ bytes_of_string "size" ++ [quote_char; 32; # ":"; 32].
Lemma writeWithIndent_after doc c x : last doc = Some c -> is_digit c = true ->
  StyledWriter.writeWithIndent x (Layout.mk doc [] false []) = Ok (tt, Layout.mk (doc ++ 10 :: x) [] false []).
Proof using.
  intros Hl Hc%is_digit_above. unfold StyledWriter.writeWithIndent, Layout.writeWithIndent.
  assert (StyledWriter.writeIndent (Layout.mk doc [] false []) = Ok (tt, Layout.mk (doc ++ [10]) [] false [])) as E.
  { unfold StyledWriter.writeIndent. erewrite bind_ok by reflexivity. cbn [Layout.document_]. rewrite Hl. change (# " ") with 32.
    rewrite (proj2 (Z.eqb_neq c 32)), (proj2 (Z.eqb_neq c 10)) by lia.
    erewrite bind_ok by reflexivity. unfold Layout.add, modify. cbn. by rewrite app_nil_r. }
  erewrite bind_ok by exact E. unfold Layout.add, modify. cbn. by rewrite <- app_assoc.
Qed.
Lemma reserved_document n : in_u32 n -> reserved_text n = reserved_head ++ intToString n ++ [10; # "}"; 10].
Proof using.
  unfold in_u32. intros Hn. assert (decimal (intToString n) n) as (Hne & Hd & _).
  { unfold intToString. destruct (Z.ltb_spec n 0); [lia|]. apply uint_text. lia. }
  destruct (exists_last Hne) as (k & c & E). assert (is_digit c = true) as Hc.
  { rewrite E in Hd. apply Forall_app in Hd as [_ Hd]. by rewrite Forall_singleton in Hd. }
  assert (StyledWriter.writeValue print_double (reserved_json n) (Layout.mk [] [] false []) =
    StyledWriter.writeWithIndent [# "}"] (Layout.mk (reserved_head ++ intToString n) [] false [])) as Ew by reflexivity.
  assert (last (reserved_head ++ intToString n) = Some c) as Hl by by rewrite E, app_assoc, last_snoc.
  rewrite (writeWithIndent_after _ c _ Hl Hc) in Ew.
  unfold StyledWriter.writeValue in Ew. unfold reserved_text, toStyledString, StyledWriter.write, Layout.write. rewrite Ew. cbn [obind Layout.document_].
  rewrite bytes_of_string_of_bytes; [by rewrite <- !app_assoc|]. rewrite !Forall_app. split; [split; [split|]|].
  - by repeat apply List.Forall_cons.
  - by apply in_number_bytes.
  - by repeat apply List.Forall_cons.
  - by apply Forall_singleton.
Qed.
Lemma reserved_text_short n : in_u32 n -> zlen (reserved_text n) <= 64.
Proof using.
  intros Hn. rewrite reserved_document by done. rewrite !zlen_app. change (zlen reserved_head) with 14. change (zlen [10; _; 10]) with 3.
  unfold in_u32 in Hn. unfold intToString. destruct (Z.ltb_spec n 0); [lia|].
  pose proof (uint_text n ltac:(lia)) as Hd. destruct (Z.eq_dec n 0) as [->|Hz]; [by vm_compute|].
  pose proof (decimal_length _ n Hd ltac:(lia)). lia.
Qed.
End HostJson.
