(* ===== verification/Metadata.v ===== *)
(** * Blob metadata (src/src/bdblob/BlobMetadata.cpp, .h)

    The record the blob map stores for a blob and every folder entry embeds,
    with its wire format.  The [Codec] class is the contract between a
    serializable type and the code that stores it: an abstract encoding that
    [Serialize] appends, [Deserialize] recovers and [GetSerializedSize]
    measures.  The folder code is proved against the class. *)

From Stdlib Require Import ZArith Lia Bool Ascii String.
From stdpp Require Import base list gmap strings.
From S2P Require Import Prelude Streams.
Set Default Goal Selector "!".
Local Open Scope Z_scope.
Local Open Scope drive_scope.

(** [return_false_if(!write)] *)
Definition and_then {St} (r : bool * St) (k : St -> bool * St) : bool * St :=
  let '(ok, s) := r in if ok then k s else (false, s).
Notation "r >>? k" := (and_then r k) (at level 55, right associativity) : drive_scope.

Record PartitionInfo := { name : string; provider : string }.
Record BlobMetadata := {
  size : Z;
  blockSize : Z;
  partitions : list PartitionInfo
}.

Module Metadata.
(** a default-constructed [BlobMetadata] *)
Definition empty : BlobMetadata := {| size := 0; blockSize := 0; partitions := [] |}.

Definition SetSize (val : Z) (m : BlobMetadata) : BlobMetadata :=
  {| size := val; blockSize := blockSize m; partitions := partitions m |}.
Definition SetBlockSize (val : Z) (m : BlobMetadata) : BlobMetadata :=
  {| size := size m; blockSize := val; partitions := partitions m |}.
Definition AddPartition (name provider : string) (m : BlobMetadata) : BlobMetadata :=
  {| size := size m; blockSize := blockSize m;
     partitions := partitions m ++ [{| name := name; provider := provider |}] |}.

Section Serialize.
Context {St : Type} `{OutputStream St}.
Fixpoint write_partitions (ps : list PartitionInfo) (s : St) : bool * St :=
  match ps with
  | [] => (true, s)
  | p :: ps' =>
      WriteString (name p) s >>? fun s =>
      WriteString (provider p) s >>? write_partitions ps'
  end.
Definition Serialize (m : BlobMetadata) (s : St) : bool * St :=
  WriteUInt64 (size m) s >>? fun s =>
  WriteUInt64 (blockSize m) s >>? fun s =>
  WriteUInt32 (u32 (zlen (partitions m))) s >>?
  write_partitions (partitions m).
End Serialize.

Section Deserialize.
Context {St : Type} `{InputStream St}.
(** the loop appends to [partitions] as it goes: a failure keeps what was read *)
Fixpoint read_partitions (count : nat) (acc : list PartitionInfo) (s : St)
  : bool * list PartitionInfo * St :=
  match count with
  | O => (true, acc, s)
  | S count' =>
      if Remainder s <? 4 then (false, acc, s) else
      let '(_, nm, s1) := ReadString EmptyString s in
      if Remainder s1 <? 4 then (false, acc, s1) else
      let '(_, pr, s2) := ReadString EmptyString s1 in
      read_partitions count' (acc ++ [{| name := nm; provider := pr |}]) s2
  end.
(** [m] is the object before the call *)
Definition Deserialize (m : BlobMetadata) (s : St) : bool * BlobMetadata * St :=
  if Remainder s <? 8 + 8 + 4 then (false, m, s) else
  let '(sz, s1) := ReadUInt64 s in
  let '(bs, s2) := ReadUInt64 s1 in
  let '(count, s3) := ReadUInt32 s2 in
  let '(ok, ps, s4) := read_partitions (Z.to_nat count) (partitions m) s3 in
  (ok, {| size := sz; blockSize := bs; partitions := ps |}, s4).
End Deserialize.

Definition GetSerializedSize (m : BlobMetadata) : Z :=
  fold_left (fun r p => u64 (u64 (r + 4 + str_size (name p)) + 4 + str_size (provider p)))
    (partitions m) (8 + 8 + 4).

(** the wire format *)
Definition partition_bytes (p : PartitionInfo) : list Z :=
  OStreamFacts.string_bytes (name p) ++ OStreamFacts.string_bytes (provider p).
Definition encode (m : BlobMetadata) : list Z :=
  be_bytes 8 (size m) ++ be_bytes 8 (blockSize m)
    ++ be_bytes 4 (zlen (partitions m)) ++ concat (map partition_bytes (partitions m)).

Definition partition_wf (p : PartitionInfo) : Prop :=
  in_u32 (str_size (name p)) /\ in_u32 (str_size (provider p)).
(** the fields fit their C++ types and the counts fit the 32 bits they are
    written with *)
Definition wf (m : BlobMetadata) : Prop :=
  in_u64 (size m) /\ in_u64 (blockSize m) /\ in_u32 (zlen (partitions m)) /\
  Forall partition_wf (partitions m).
End Metadata.

(** ** The contract of a serializable type *)
Class Codec (A : Type) := {
  codec_encode : A -> list Z;
  codec_wf : A -> Prop;
  codec_fresh : A;
  codec_serialize : A -> ostream -> bool * ostream;
  codec_deserialize : A -> istream -> bool * A * istream;
  codec_size : A -> Z
}.

Class CodecLaws (A : Type) `{Codec A} : Prop := {
  codec_serialize_ok (a : A) (s : ostream) :
    codec_wf a -> BufferedOutputStream.ok s ->
    BufferedOutputStream.offset s + zlen (codec_encode a) < BufferedOutputStream.limit ->
    exists s', codec_serialize a s = (true, s') /\
               OStreamFacts.appends s (codec_encode a) s';
  codec_deserialize_ok (a : A) (s : istream) (r : list Z) :
    codec_wf a -> BufferedInputStream.ok s -> BufferedInputStream.isValid s = true ->
    BufferedInputStream.rest s = codec_encode a ++ r ->
    let s' := BufferedInputStream.advance (zlen (codec_encode a)) s in
    codec_deserialize codec_fresh s = (true, a, s') /\
    BufferedInputStream.ok s' /\ BufferedInputStream.rest s' = r;
  codec_size_ok (a : A) :
    codec_wf a -> zlen (codec_encode a) < 2 ^ 64 -> codec_size a = zlen (codec_encode a)
}.

#[export] Instance Metadata_Codec : Codec BlobMetadata := {
  codec_encode := Metadata.encode;
  codec_wf := Metadata.wf;
  codec_fresh := Metadata.empty;
  codec_serialize := Metadata.Serialize;
  codec_deserialize := Metadata.Deserialize;
  codec_size := Metadata.GetSerializedSize
}.

(** ** Chaining writes and reads *)
Lemma and_then_appends (m : ostream -> bool * ostream) k s d1 d2 :
  (exists s1, m s = (true, s1) /\ OStreamFacts.appends s d1 s1) ->
  (forall s1, OStreamFacts.appends s d1 s1 ->
     exists s2, k s1 = (true, s2) /\ OStreamFacts.appends s1 d2 s2) ->
  exists s2, (m s >>? k) = (true, s2) /\ OStreamFacts.appends s (d1 ++ d2) s2.
Proof.
  intros (s1 & E & H1) Hk. destruct (Hk s1 H1) as (s2 & E2 & H2).
  exists s2. unfold and_then. rewrite E. split; [done|].
  by eapply OStreamFacts.appends_trans.
Qed.

Lemma appends_room s d s' : OStreamFacts.appends s d s' ->
  BufferedOutputStream.ok s' /\
  BufferedOutputStream.offset s' = BufferedOutputStream.offset s + zlen d.
Proof. intros (H1 & H2 & _). done. Qed.

Lemma str_size_nonneg s : 0 <= str_size s.
Proof. unfold str_size. lia. Qed.
#[export] Hint Resolve str_size_nonneg : drive.

Module MetadataFacts.
Import Metadata.

Lemma zlen_partition_bytes p :
  zlen (partition_bytes p) = 8 + str_size (name p) + str_size (provider p).
Proof.
  unfold partition_bytes. rewrite zlen_app, !OStreamFacts.zlen_string_bytes. lia.
Qed.

Lemma write_partitions_appends ps s :
  Forall partition_wf ps -> BufferedOutputStream.ok s ->
  BufferedOutputStream.offset s + zlen (concat (map partition_bytes ps))
    < BufferedOutputStream.limit ->
  exists s', write_partitions ps s = (true, s') /\
             OStreamFacts.appends s (concat (map partition_bytes ps)) s'.
Proof.
  revert s. induction ps as [|p ps IH]; intros s Hps Hok Hlim; cbn [map concat] in *.
  { exists s. split; [done|]. by apply OStreamFacts.appends_refl. }
  apply Forall_cons in Hps as [[Hn Hp] Hps].
  rewrite zlen_app, zlen_partition_bytes in Hlim.
  pose proof (zlen_nonneg (concat (map partition_bytes ps))).
  pose proof (str_size_nonneg (name p)). pose proof (str_size_nonneg (provider p)).
  cbn [write_partitions]. unfold partition_bytes at 1. rewrite <- app_assoc.
  apply and_then_appends.
  - apply OStreamFacts.WriteString_appends; [done|done|lia].
  - intros s1 A1. apply appends_room in A1 as [Hok1 Ho1].
    rewrite OStreamFacts.zlen_string_bytes in Ho1. apply and_then_appends.
    + apply OStreamFacts.WriteString_appends; [done|done|lia].
    + intros s2 A2. apply appends_room in A2 as [Hok2 Ho2].
      rewrite OStreamFacts.zlen_string_bytes in Ho2. apply IH; [done|done|lia].
Qed.

Lemma Serialize_appends m s :
  wf m -> BufferedOutputStream.ok s ->
  BufferedOutputStream.offset s + zlen (encode m) < BufferedOutputStream.limit ->
  exists s', Serialize m s = (true, s') /\ OStreamFacts.appends s (encode m) s'.
Proof.
  intros (Hsz & Hbs & Hc & Hps) Hok Hlim. unfold encode, Serialize in *.
  len_simpl. pose proof (zlen_nonneg (concat (map partition_bytes (partitions m)))).
  apply and_then_appends; [apply OStreamFacts.write_int_appends; [lia|done|lia]|].
  intros s1 A1. apply appends_room in A1 as [Hok1 Ho1]. len_simpl.
  apply and_then_appends; [apply OStreamFacts.write_int_appends; [lia|done|lia]|].
  intros s2 A2. apply appends_room in A2 as [Hok2 Ho2]. len_simpl.
  rewrite u32_small by done.
  apply and_then_appends; [apply OStreamFacts.write_int_appends; [lia|done|lia]|].
  intros s3 A3. apply appends_room in A3 as [Hok3 Ho3]. len_simpl.
  apply write_partitions_appends; [done|done|lia].
Qed.

Lemma read_string_app str s r :
  in_u32 (str_size str) -> BufferedInputStream.ok s ->
  BufferedInputStream.isValid s = true ->
  BufferedInputStream.rest s = OStreamFacts.string_bytes str ++ r ->
  (Remainder s <? 4) = false /\
  ReadString EmptyString s
    = (4 + str_size str, str, BufferedInputStream.advance (4 + str_size str) s) /\
  BufferedInputStream.ok (BufferedInputStream.advance (4 + str_size str) s) /\
  BufferedInputStream.rest (BufferedInputStream.advance (4 + str_size str) s) = r.
Proof.
  intros Hs Hok Hv Hr.
  destruct (IStreamFacts.ReadString_app EmptyString str s r)
    as (s' & E & -> & Hok' & Hr'); [done|done|done|done|done|by destruct Hs|].
  split_and_all; [|done|done|done].
  cbn [Remainder BufferedInputStream_InputStream].
  rewrite IStreamFacts.Remainder_rest, Hr, zlen_app, OStreamFacts.zlen_string_bytes by done.
  pose proof (zlen_nonneg r). destruct Hs. apply Z.ltb_ge. lia.
Qed.

Lemma read_partitions_app ps acc s r :
  Forall partition_wf ps -> BufferedInputStream.ok s ->
  BufferedInputStream.isValid s = true ->
  BufferedInputStream.rest s = concat (map partition_bytes ps) ++ r ->
  let s' := BufferedInputStream.advance (zlen (concat (map partition_bytes ps))) s in
  read_partitions (length ps) acc s = (true, acc ++ ps, s') /\
  BufferedInputStream.ok s' /\ BufferedInputStream.rest s' = r.
Proof.
  revert acc s. induction ps as [|p ps IH]; intros acc s Hps Hok Hv Hr;
    cbn [map concat length] in *.
  { change (zlen (@nil Z)) with 0. cbv zeta. rewrite IStreamFacts.advance_0, app_nil_r.
    done. }
  apply Forall_cons in Hps as [[Hn Hp] Hps]. unfold partition_bytes at 1 in Hr.
  rewrite <- !app_assoc in Hr.
  destruct (read_string_app _ _ _ Hn Hok Hv Hr) as (G1 & E1 & Hok1 & Hr1).
  destruct (read_string_app _ _ _ Hp Hok1 Hv Hr1) as (G2 & E2 & Hok2 & Hr2).
  cbn [read_partitions]. rewrite G1, E1, G2, E2.
  destruct (IH (acc ++ [{| name := name p; provider := provider p |}]) _ Hps Hok2 Hv Hr2)
    as (E3 & Hok3 & Hr3).
  cbv zeta in *. rewrite !IStreamFacts.advance_advance in *.
  rewrite zlen_app, zlen_partition_bytes.
  replace (8 + str_size (name p) + str_size (provider p) +
           zlen (concat (map partition_bytes ps)))
    with (4 + str_size (name p) + (4 + str_size (provider p) +
           zlen (concat (map partition_bytes ps)))) by lia.
  rewrite E3, <- app_assoc. rewrite !Z.add_assoc in *. by destruct p.
Qed.

Lemma Deserialize_app m s r :
  wf m -> BufferedInputStream.ok s -> BufferedInputStream.isValid s = true ->
  BufferedInputStream.rest s = encode m ++ r ->
  let s' := BufferedInputStream.advance (zlen (encode m)) s in
  Deserialize empty s = (true, m, s') /\
  BufferedInputStream.ok s' /\ BufferedInputStream.rest s' = r.
Proof.
  intros (Hsz & Hbs & Hc & Hps) Hok Hv Hr.
  assert (HR : (Remainder s <? 8 + 8 + 4) = false).
  { cbn [Remainder BufferedInputStream_InputStream].
    rewrite IStreamFacts.Remainder_rest, Hr by done. unfold encode. len_simpl.
    pose proof (zlen_nonneg (concat (map partition_bytes (partitions m)))).
    pose proof (zlen_nonneg r). apply Z.ltb_ge. lia. }
  unfold encode in Hr. rewrite <- !app_assoc in Hr.
  destruct (IStreamFacts.read_uint_app 8 _ _ _ Hok Hr Hsz) as (E1 & Hok1 & Hr1).
  destruct (IStreamFacts.read_uint_app 8 _ _ _ Hok1 Hr1 Hbs) as (E2 & Hok2 & Hr2).
  destruct (IStreamFacts.read_uint_app 4 _ _ _ Hok2 Hr2 Hc) as (E3 & Hok3 & Hr3).
  destruct (read_partitions_app _ [] _ _ Hps Hok3 Hv Hr3) as (E4 & Hok4 & Hr4).
  unfold Deserialize. rewrite HR. unfold ReadUInt64, ReadUInt32.
  rewrite E1, E2, E3. unfold zlen at 1. rewrite Nat2Z.id. cbn [empty partitions].
  rewrite E4. cbv zeta in *. rewrite !IStreamFacts.advance_advance in *.
  unfold encode. len_simpl. rewrite <- !Z.add_assoc in *. destruct m. done.
Qed.

Lemma GetSerializedSize_spec m :
  zlen (encode m) < 2 ^ 64 -> GetSerializedSize m = zlen (encode m).
Proof.
  unfold GetSerializedSize, encode. len_simpl.
  rewrite !Z.add_assoc. change (Z.of_nat 8 + Z.of_nat 8 + Z.of_nat 4) with 20.
  change (8 + 8 + 4) with 20. assert (0 <= 20) as Hr by lia. revert Hr.
  generalize 20 as r. induction (partitions m) as [|p ps IH]; intros r Hr Hlim;
    cbn [map concat fold_left] in *.
  { change (zlen (@nil Z)) with 0. lia. }
  rewrite zlen_app, zlen_partition_bytes in *.
  pose proof (zlen_nonneg (concat (map partition_bytes ps))).
  pose proof (str_size_nonneg (name p)). pose proof (str_size_nonneg (provider p)).
  rewrite !u64_small by (unfold in_u64; rewrite ?u64_small; unfold in_u64; lia).
  rewrite IH by lia. lia.
Qed.
End MetadataFacts.

#[export] Instance Metadata_CodecLaws : CodecLaws BlobMetadata.
Proof.
  split.
  - apply MetadataFacts.Serialize_appends.
  - apply MetadataFacts.Deserialize_app.
  - intros m _. apply MetadataFacts.GetSerializedSize_spec.
Qed.

(** ** Whole-buffer round trip, for any codec *)
Section CodecRoundtrip.
Context {A : Type} `{CodecLaws A}.

Lemma codec_roundtrip (a : A) :
  codec_wf a -> zlen (codec_encode a) < BufferedOutputStream.limit ->
  exists out, codec_serialize a BufferedOutputStream.init = (true, out) /\
    BufferedOutputStream.bytes out = codec_encode a /\
    exists s', codec_deserialize codec_fresh
        (BufferedInputStream.make (BufferedOutputStream.bytes out)
           (zlen (BufferedOutputStream.bytes out))) = (true, a, s') /\
      BufferedInputStream.ok s' /\ BufferedInputStream.isValid s' = true /\
      BufferedInputStream.rest s' = [].
Proof.
  intros Hwf Hlim.
  destruct (codec_serialize_ok a BufferedOutputStream.init) as (out & E & _ & _ & Hb);
    [done|apply OStreamFacts.init_ok|exact Hlim|].
  rewrite OStreamFacts.bytes_init in Hb. cbn in Hb.
  exists out. rewrite Hb. split_and_all; [done|done|].
  destruct (codec_deserialize_ok a
    (BufferedInputStream.make (codec_encode a) (zlen (codec_encode a))) [])
    as (E2 & Hok & Hr); [done| |done|by rewrite IStreamFacts.rest_make, app_nil_r|].
  - apply IStreamFacts.make_ok. unfold BufferedOutputStream.limit in Hlim. lia.
  - eexists. by split_and_all.
Qed.
End CodecRoundtrip.

(** BlobMetadata: what [Serialize] writes is exactly [GetSerializedSize]
    bytes long, and [Deserialize] into a default-constructed object returns the
    same metadata and leaves nothing unread. *)
Theorem metadata_roundtrip (m : BlobMetadata) :
  Metadata.wf m -> zlen (Metadata.encode m) < BufferedOutputStream.limit ->
  exists out, Metadata.Serialize m BufferedOutputStream.init = (true, out) /\
    let buf := BufferedOutputStream.bytes out in
    zlen buf = Metadata.GetSerializedSize m /\
    exists s', Metadata.Deserialize Metadata.empty
                 (BufferedInputStream.make buf (zlen buf)) = (true, m, s') /\
      BufferedInputStream.Remainder s' = 0.
Proof.
  intros Hwf Hlim. destruct (@codec_roundtrip _ _ Metadata_CodecLaws m Hwf Hlim) as (out & E & Hb & s' & E2 & Hok & _ & Hr).
  exists out. split; [exact E|]. cbv zeta. split.
  - rewrite Hb. symmetry. apply MetadataFacts.GetSerializedSize_spec.
    change (codec_encode m) with (Metadata.encode m).
    unfold BufferedOutputStream.limit in Hlim. lia.
  - exists s'. split; [exact E2|]. rewrite IStreamFacts.Remainder_rest, Hr by done. done.
Qed.

Definition sample_metadata : BlobMetadata :=
  Metadata.AddPartition "p0" "host:1" (Metadata.SetSize 700 Metadata.empty).

Lemma metadata_roundtrip_witness :
  exists out, Metadata.Serialize sample_metadata BufferedOutputStream.init = (true, out) /\
    let buf := BufferedOutputStream.bytes out in
    zlen buf = Metadata.GetSerializedSize sample_metadata /\
    exists s', Metadata.Deserialize Metadata.empty
                 (BufferedInputStream.make buf (zlen buf)) = (true, sample_metadata, s') /\
      BufferedInputStream.Remainder s' = 0.
Proof.
  apply (metadata_roundtrip sample_metadata).
  - unfold Metadata.wf; split_and_all; [closed_range..|closed_forall].
  - reflexivity.
Defined.

(** The reader checks that a length field is present but not that the
    string it announces is: metadata cut inside its last provider name still
    deserializes with [true], the missing bytes replaced by zeros. *)
Theorem metadata_truncated_accepted :
  let full := Metadata.encode sample_metadata in
  let cut := take (length full - 3) full in
  exists m' s', Metadata.Deserialize Metadata.empty
                  (BufferedInputStream.make cut (zlen cut)) = (true, m', s') /\
    map provider (partitions m') <> map provider (partitions sample_metadata).
Proof. eexists _, _. split; [vm_compute; reflexivity|vm_compute; congruence]. Qed.
