(* ===== verification/Stdio.v ===== *)
(** * Files as the program uses them

    The part of C stdio and POSIX the blob store calls.  A file is a byte list,
    a [FILE *] is the path it was opened on: no code path unlinks or renames a
    file while a stream on it is still used.  [deny] are the paths [fopen]
    refuses, [limit] is the size at which a file stops growing ([fwrite] then
    stores a prefix and returns its length).  Every operation of the program
    seeks first and writers end with [fflush] or [fclose], so stream buffers
    are not modelled. *)

From Stdlib Require Import ZArith Lia Bool Ascii String.
From stdpp Require Import base list gmap strings.
From S2P Require Import Prelude.
Set Default Goal Selector "!".
Local Open Scope Z_scope.
Local Open Scope drive_scope.

Record filesystem := mkfs {
  files : gmap string (list Z);
  dirs : gset string;
  deny : string -> bool;
  limit : Z
}.

Module Fs.
Definition set_files (f : gmap string (list Z)) (s : filesystem) : filesystem :=
  mkfs f (dirs s) (deny s) (limit s).
Definition store (path : string) (data : list Z) (s : filesystem) : filesystem :=
  set_files (<[path := data]> (files s)) s.
(** contents of the file a stream is open on *)
Definition content (path : string) (s : filesystem) : list Z :=
  default [] (files s !! path).

(** [fopen(path, "r"/"rb"/"rb+")] *)
Definition fopen_existing (path : string) (s : filesystem) : option string :=
  if deny s path then None
  else match files s !! path with Some _ => Some path | None => None end.
(** [fopen(path, "w"/"wb"/"wb+")]: creates or truncates *)
Definition fopen_trunc (path : string) (s : filesystem) : option string * filesystem :=
  if deny s path then (None, s) else (Some path, store path [] s).
(** [fseek(fp, 0, SEEK_END); ftell(fp)] *)
Definition fsize (fp : string) (s : filesystem) : Z := zlen (content fp s).
(** [fread(buf, 1, n, fp)] at position [off] *)
Definition fread (fp : string) (off n : Z) (s : filesystem) : list Z :=
  read_at (content fp s) (Z.to_nat off) (Z.to_nat n).
(** [fwrite(data, 1, n, fp)] at position [off]: reading [n] bytes past the end
    of [data] is undefined; a file that was unlinked takes no data *)
Definition fwrite (fp : string) (off : Z) (data : list Z) (n : Z) (s : filesystem)
  : outcome (Z * filesystem) :=
  if zlen data <? n then Fault OutOfBounds
  else
    let room := Z.max 0 (limit s - off) in
    let d := take (Z.to_nat (Z.min n room)) data in
    match files s !! fp with
    | Some old => Ok (zlen d, store fp (write_at old (Z.to_nat off) d) s)
    | None => Ok (zlen d, s)
    end.
(** [unlink(path)] *)
Definition unlink (path : string) (s : filesystem) : filesystem :=
  set_files (delete path (files s)) s.
(** [stat(path)] succeeds on a regular file or a directory *)
Definition exists_ (path : string) (s : filesystem) : bool :=
  bool_decide (is_Some (files s !! path)) || bool_decide (path ∈ dirs s).
Definition mkdir (path : string) (s : filesystem) : filesystem :=
  mkfs (files s) ({[ path ]} ∪ dirs s) (deny s) (limit s).
End Fs.

Module FsFacts.
Import Fs.

Lemma content_store_eq p d s : content p (store p d s) = d.
Proof. unfold content, store; cbn. by rewrite lookup_insert_eq. Qed.
Lemma content_store_ne p q d s : q <> p -> content q (store p d s) = content q s.
Proof. intros H. unfold content, store; cbn. by rewrite lookup_insert_ne. Qed.
Lemma limit_store p d s : limit (store p d s) = limit s.
Proof. done. Qed.
Lemma deny_store p d s : deny (store p d s) = deny s.
Proof. done. Qed.
Lemma fsize_nonneg fp s : 0 <= fsize fp s.
Proof. unfold fsize. apply zlen_nonneg. Qed.

Lemma fopen_trunc_ok p s : deny s p = false -> fopen_trunc p s = (Some p, store p [] s).
Proof. unfold fopen_trunc. by intros ->. Qed.

Lemma fopen_existing_ok p s d :
  deny s p = false -> files s !! p = Some d -> fopen_existing p s = Some p.
Proof. unfold fopen_existing. by intros -> ->. Qed.

(** a write that fits *)
Lemma fwrite_ok fp off data s old :
  files s !! fp = Some old -> 0 <= off -> off + zlen data <= limit s ->
  fwrite fp off data (zlen data) s
    = Ok (zlen data, store fp (write_at old (Z.to_nat off) data) s).
Proof.
  intros Hf Ho Hl. pose proof (zlen_nonneg data). unfold fwrite.
  rewrite Z.ltb_irrefl, Hf, take_ge; [done|].
  rewrite Z.min_l by lia. unfold zlen. lia.
Qed.

Lemma fwrite_prefix fp off data n s old :
  files s !! fp = Some old -> 0 <= off -> 0 <= n <= zlen data -> off + n <= limit s ->
  fwrite fp off data n s
    = Ok (n, store fp (write_at old (Z.to_nat off) (take (Z.to_nat n) data)) s).
Proof.
  intros Hf Ho Hn Hl. unfold fwrite.
  destruct (Z.ltb_spec (zlen data) n); [lia|]. rewrite Hf, Z.min_l by lia.
  do 2 f_equal. unfold zlen in *. rewrite length_take. lia.
Qed.

(** whatever fits or not, what was stored is a prefix and the file name is the
    only thing that changes *)
Lemma fwrite_cases fp off data n s r :
  fwrite fp off data n s = Ok r -> 0 <= n ->
  exists m, 0 <= m <= n /\ m <= zlen data /\ r.1 = m /\
    (n <= limit s - off -> m = n) /\
    (forall old, files s !! fp = Some old ->
       r.2 = store fp (write_at old (Z.to_nat off) (take (Z.to_nat m) data)) s) /\
    (files s !! fp = None -> r.2 = s).
Proof.
  unfold fwrite. intros H Hn. destruct (zlen data <? n) eqn:E; [done|]. zbool.
  set (k := Z.min n (Z.max 0 (limit s - off))) in *.
  assert (Hk : zlen (take (Z.to_nat k) data) = k).
  { unfold zlen in *. rewrite length_take. lia. }
  exists k. destruct (files s !! fp) as [old|] eqn:F; invc H; cbn; rewrite Hk.
  - split_and_all; try lia; [|done]. by intros ? [= ->].
  - split_and_all; try lia; done.
Qed.
End FsFacts.
