(* ===== verification/BlobMap.v ===== *)
(** * The blob map (src/src/bdblob/BlobMap.cpp, Buffer.cpp)

    [BlobMap] remembers, for every blob id, the serialized metadata of the blob.
    Values are appended to one file and an in-memory index holds the offset and
    size of the latest value of each key.  The theorems show that this is an
    implementation of a finite map, also when the disk is full. *)

From Stdlib Require Import ZArith Lia Bool Ascii String.
From stdpp Require Import base list gmap strings.
From S2P Require Import Prelude Streams Metadata Stdio.
Set Default Goal Selector "!".
Local Open Scope Z_scope.
Local Open Scope drive_scope.

(** ** Buffer.cpp *)
Module Buffer.
(** [mem] is the allocation of [memsize] bytes; [realloc] is taken to succeed *)
Record t := mk { mem : list Z; size : Z; memsize : Z }.
Definition empty : t := mk [] 0 0.
Definition BUFSIZ : Z := 8192.
Definition Resize (n : Z) (b : t) : bool * t :=
  if n <=? memsize b then (true, mk (mem b) n (memsize b))
  else
    let newsize := u64 ((u64 (n - 1) / BUFSIZ + 1) * BUFSIZ) in
    (true, mk (Streams.resize (mem b) (Z.to_nat newsize)) n newsize).
(** [Buf()] up to [Size()] *)
Definition bytes (b : t) : list Z := take (Z.to_nat (size b)) (mem b).
(** bytes stored at the start of the allocation, as [fread(Buf(), ...)] does *)
Definition fill (d : list Z) (b : t) : t := mk (write_at (mem b) 0 d) (size b) (memsize b).
Definition ok (b : t) : Prop := zlen (mem b) = memsize b /\ 0 <= size b <= memsize b.
End Buffer.

Module BlobMap.
Record Index := mkIndex { offset : Z; isize : Z }.
(** [file] is the stream, [filename] the path it was opened on *)
Record t := mk { indexes : gmap string Index; file : option string; filename : string }.

Definition init : t := mk ∅ None EmptyString.

Definition Initialize (path : string) (m : t) (s : filesystem) : bool * t * filesystem :=
  match file m with
  | Some _ => (false, m, s)
  | None =>
      if empty_str path then (false, m, s)
      else match Fs.fopen_trunc path s with
           | (None, s') => (false, m, s')
           | (Some fp, s') => (true, mk (indexes m) (Some fp) path, s')
           end
  end.

Definition GetValue (key : string) (m : t) (s : filesystem) : Buffer.t :=
  match file m with
  | None => Buffer.empty
  | Some fp =>
      if empty_str key then Buffer.empty
      else match indexes m !! key with
           | None => Buffer.empty
           | Some ix =>
               if isize ix =? 0 then Buffer.empty
               else
                 let '(ok, result) := Buffer.Resize (isize ix) Buffer.empty in
                 if negb ok then Buffer.empty
                 else
                   let d := Fs.fread fp (offset ix) (isize ix) s in
                   if zlen d <? isize ix then Buffer.empty
                   else Buffer.fill d result
           end
  end.

(** [data] and [len]; a null pointer is [None] *)
Definition SetValue (key : string) (data : option (list Z)) (len : Z) (m : t)
  (s : filesystem) : outcome (t * filesystem) :=
  match file m, data with
  | Some fp, Some d =>
      if empty_str key || (len =? 0) then Ok (m, s)
      else
        let buffer := GetValue key m s in
        if (Buffer.size buffer =? len)
           && bool_decide (Buffer.bytes buffer = take (Z.to_nat len) d)
        then Ok (m, s)
        else
          let off := Fs.fsize fp s in
          obind (Fs.fwrite fp off d len s) (fun '(n, s') =>
            if n <? len then Ok (m, s')
            else Ok (mk (<[key := mkIndex off n]> (indexes m)) (file m) (filename m), s'))
  | _, _ => Ok (m, s)
  end.

(** a stream that was never written to has a null [Buffer()] *)
Definition stream_data (out : ostream) : option (list Z) :=
  match BufferedOutputStream.buffer out with [] => None | b => Some b end.

Definition SetMetadata (key : string) (md : BlobMetadata) (m : t) (s : filesystem)
  : outcome (t * filesystem) :=
  let '(ok, out) := Metadata.Serialize md BufferedOutputStream.init in
  if ok then SetValue key (stream_data out) (BufferedOutputStream.offset out) m s
  else Ok (m, s).

(** [md] is the caller's object: a failed read may leave it partly filled *)
Definition GetMetadata (key : string) (md : BlobMetadata) (m : t) (s : filesystem)
  : bool * BlobMetadata :=
  let buffer := GetValue key m s in
  if Buffer.size buffer =? 0 then (false, md)
  else
    let '(ok, md', _) := Metadata.Deserialize md
      (BufferedInputStream.make (Buffer.bytes buffer) (Buffer.size buffer)) in
    (ok, md').

Definition HasKey (key : string) (m : t) : bool := bool_decide (is_Some (indexes m !! key)).

(** the destructor closes and removes the file *)
Definition destroy (m : t) (s : filesystem) : t * filesystem :=
  match file m with
  | Some _ => (mk (indexes m) None (filename m), Fs.unlink (filename m) s)
  | None => (m, s)
  end.

(** ** Specification: a finite map from keys to values *)
Definition value (m : t) (s : filesystem) (key : string) : option (list Z) :=
  match file m with
  | Some fp => match indexes m !! key with
               | Some ix => Some (Fs.fread fp (offset ix) (isize ix) s)
               | None => None
               end
  | None => None
  end.

Definition index_ok (len : Z) (ix : Index) : Prop :=
  0 <= offset ix /\ 0 < isize ix /\ offset ix + isize ix <= len /\ isize ix < 2 ^ 61.
(** the file is there and every index lies inside it *)
Definition inv (m : t) (s : filesystem) : Prop :=
  exists fp, file m = Some fp /\ is_Some (files s !! fp) /\
    (forall key ix, indexes m !! key = Some ix ->
       key <> EmptyString /\ index_ok (Fs.fsize fp s) ix).
(** the map file has room for [n] more bytes *)
Definition room (m : t) (s : filesystem) (n : Z) : Prop :=
  forall fp, file m = Some fp -> Fs.fsize fp s + n <= limit s.
End BlobMap.

Module BufferFacts.
Import Buffer.
Lemma Resize_ok n b :
  ok b -> 0 <= n < 2 ^ 63 -> let '(r, b') := Resize n b in
  r = true /\ ok b' /\ size b' = n /\
  take (Z.to_nat (Z.min (size b) n)) (mem b') = take (Z.to_nat (Z.min (size b) n)) (mem b).
Proof.
  unfold ok, Resize, BUFSIZ. intros (Hm & Hs) Hn.
  destruct (n <=? memsize b) eqn:E; zbool; cbn; [split_and_all; done || lia|].
  rewrite (u64_small (n - 1)) by (unfold in_u64; lia).
  pose proof (Z.mul_div_le (n - 1) 8192). pose proof (Z.mul_succ_div_gt (n - 1) 8192).
  rewrite u64_small by (unfold in_u64; lia).
  set (k := (n - 1) / 8192 + 1) in *. unfold resize, zlen in *.
  split_and_all; try lia.
  - len_simpl. lia.
  - rewrite take_app_le by (len_simpl; lia). rewrite take_take. f_equal. lia.
Qed.

Lemma fill_bytes d b :
  ok b -> zlen d = size b -> bytes (fill d b) = d /\ size (fill d b) = zlen d.
Proof.
  unfold ok, bytes, fill; cbn. intros (Hm & Hs) <-. split; [|done].
  unfold write_at; cbn. rewrite take_0; cbn. unfold zlen. rewrite Nat2Z.id.
  by rewrite take_app_length.
Qed.

Lemma empty_ok : ok empty.
Proof. unfold ok, empty, zlen; cbn. lia. Qed.
End BufferFacts.

Module BlobMapFacts.
Import BlobMap.

Lemma empty_str_false k : k <> EmptyString -> empty_str k = false.
Proof. by destruct k. Qed.

Lemma zlen_fread fp o n s :
  0 <= o -> 0 <= n -> o + n <= Fs.fsize fp s -> zlen (Fs.fread fp o n s) = n.
Proof.
  unfold Fs.fread, Fs.fsize, zlen. intros. rewrite length_read_at. lia.
Qed.

Lemma value_ok m s key d :
  inv m s -> value m s key = Some d -> key <> EmptyString /\ 0 < zlen d < 2 ^ 61.
Proof.
  intros (fp & Hf & _ & Hix). unfold value. rewrite Hf.
  destruct (indexes m !! key) as [ix|] eqn:E; [|done]. intros [= <-].
  destruct (Hix _ _ E) as (Hk & Ho & Hs & Hl & Hb). rewrite zlen_fread by lia. auto.
Qed.

Lemma GetValue_spec key m s :
  inv m s ->
  Buffer.bytes (GetValue key m s) = default [] (value m s key) /\
  Buffer.size (GetValue key m s) = zlen (default [] (value m s key)).
Proof.
  intros (fp & Hf & _ & Hix). unfold value, GetValue. rewrite Hf.
  destruct (empty_str key) eqn:Ek.
  { destruct key; [|done]. destruct (indexes m !! "") as [ix|] eqn:E; [|done].
    by destruct (Hix _ _ E). }
  destruct (indexes m !! key) as [ix|] eqn:E; [|done].
  destruct (Hix _ _ E) as (_ & Ho & Hs & Hl & Hb). cbn [default].
  destruct (isize ix =? 0) eqn:E0; zbool; [lia|].
  pose proof (BufferFacts.Resize_ok (isize ix) Buffer.empty BufferFacts.empty_ok) as HR.
  destruct (Buffer.Resize (isize ix) Buffer.empty) as [r b].
  destruct HR as (-> & Hok & Hsz & _); [lia|]. cbn [negb].
  rewrite zlen_fread, Z.ltb_irrefl by lia.
  rewrite <- (zlen_fread fp (offset ix) (isize ix) s) in Hsz by lia.
  by apply BufferFacts.fill_bytes.
Qed.

Lemma fread_grow fp o n old data s :
  files s !! fp = Some old -> 0 <= o -> 0 <= n -> o + n <= zlen old ->
  Fs.fread fp o n (Fs.store fp (write_at old (length old) data) s) = Fs.fread fp o n s.
Proof.
  intros Hf Ho Hn Hl. unfold Fs.fread. rewrite FsFacts.content_store_eq.
  unfold Fs.content. rewrite Hf. cbn. unfold zlen in Hl. apply read_write_before; lia.
Qed.

(** appending to the file moves no value *)
Lemma grow_inv m s fp old data :
  inv m s -> file m = Some fp -> files s !! fp = Some old ->
  let s' := Fs.store fp (write_at old (length old) data) s in
  inv m s' /\ (forall key, value m s' key = value m s key) /\
  Fs.fsize fp s' = Fs.fsize fp s + zlen data.
Proof.
  intros (fp' & Hf & _ & Hix) Hf' Hold s'. assert (fp' = fp) as -> by congruence.
  assert (Hsz : Fs.fsize fp s' = Fs.fsize fp s + zlen data).
  { unfold Fs.fsize, s'. rewrite FsFacts.content_store_eq. unfold Fs.content. rewrite Hold.
    cbn. rewrite write_at_end, zlen_app. done. }
  assert (Hlen : Fs.fsize fp s = zlen old).
  { unfold Fs.fsize, Fs.content. by rewrite Hold. }
  split_and_all; [| |done].
  - exists fp. split_and_all; [done| |].
    + unfold s'; cbn. rewrite lookup_insert_eq. eauto.
    + intros key ix E. destruct (Hix _ _ E) as (Hk & Ho & Hs & Hl & Hb).
      unfold index_ok. rewrite Hsz. pose proof (zlen_nonneg data). split; [done|lia].
  - intros key. unfold value. rewrite Hf. destruct (indexes m !! key) as [ix|] eqn:E; [|done].
    destruct (Hix _ _ E) as (Hk & Ho & Hs & Hl & Hb). f_equal.
    apply fread_grow; [done|lia..].
Qed.

Lemma SetValue_cases key d len m s :
  inv m s -> key <> EmptyString -> 0 < len <= zlen d -> len < 2 ^ 61 ->
  exists m' s' fp old, SetValue key (Some d) len m s = Ok (m', s') /\
    file m = Some fp /\ file m' = Some fp /\ files s !! fp = Some old /\ inv m' s' /\
    (s' = s \/ exists ext, s' = Fs.store fp (old ++ ext) s /\ zlen ext <= len) /\
    ((forall k, value m' s' k = if String.eqb k key then Some (take (Z.to_nat len) d)
                                else value m s k)
     \/ (~ room m s len /\ m' = m /\ forall k, value m' s' k = value m s k)).
Proof.
  intros Hinv Hk Hlen Hmax. pose proof Hinv as (fp & Hf & [old Hold] & Hix).
  assert (Hsz : Fs.fsize fp s = zlen old) by (unfold Fs.fsize, Fs.content; by rewrite Hold).
  destruct (GetValue_spec key m s Hinv) as [Hgb Hgs].
  unfold SetValue. rewrite Hf, empty_str_false by done. cbn [orb].
  destruct (len =? 0) eqn:E0; zbool; [lia|].
  destruct (_ && _) eqn:Esame.
  { apply andb_true_iff in Esame as [E1 E2]. zbool. apply bool_decide_eq_true in E2.
    exists m, s, fp, old. split_and_all; auto. left. intros k.
    destruct (String.eqb_spec k key) as [->|]; [|done]. rewrite <- E2, Hgb.
    destruct (value m s key); [done|]. cbn in Hgs. unfold zlen in Hgs; cbn in Hgs. lia. }
  clear Esame Hgb Hgs. set (w := Fs.fwrite _ _ _ _ _).
  assert (exists r, w = Ok r) as [[n s'] Hw].
  { unfold w, Fs.fwrite. destruct (Z.ltb_spec (zlen d) len); [lia|]. rewrite Hold. eauto. }
  pose proof (FsFacts.fwrite_cases _ _ _ _ _ _ Hw) as (n' & Hn & Hnd & E & Hroom & Hst & _);
    [lia|]. cbn in E. subst n'. rewrite Hw. cbn [obind].
  specialize (Hst _ Hold). cbn in Hst. rewrite Hsz in Hst. unfold zlen in Hst.
  rewrite Nat2Z.id in Hst.
  destruct (grow_inv m s fp old (take (Z.to_nat n) d) Hinv Hf Hold) as (Hinv' & Hval & Hsz').
  rewrite <- Hst in Hinv', Hval, Hsz'.
  assert (Hext : zlen (take (Z.to_nat n) d) = n).
  { unfold zlen in *. rewrite length_take. lia. }
  assert (Hs' : s' = Fs.store fp (old ++ take (Z.to_nat n) d) s)
    by (by rewrite Hst, write_at_end).
  destruct (Z.ltb_spec n len) as [Hlt|Hge].
  { exists m, s', fp, old. split_and_all; auto.
    - right. eexists. split; [exact Hs'|lia].
    - right. split_and_all; auto. intros Hr. specialize (Hr fp Hf).
      assert (n = len) by (apply Hroom; rewrite Hsz in *; lia). lia. }
  assert (n = len) as -> by lia.
  exists (mk (<[key:=mkIndex (Fs.fsize fp s) len]> (indexes m)) (Some fp) (filename m)), s', fp, old.
  split_and_all; auto.
  - exists fp. split_and_all; [done|by destruct Hinv' as (? & ? & ? & _); simplify_eq|].
    intros k ix. cbn. rewrite lookup_insert_Some. intros [[<- <-]|[Hne E]].
    + split; [done|]. unfold index_ok; cbn. pose proof (FsFacts.fsize_nonneg fp s). lia.
    + destruct Hinv' as (fp' & Hf' & _ & Hix'). assert (fp' = fp) as -> by congruence.
      by apply Hix'.
  - right. eexists. split; [exact Hs'|lia].
  - left. intros k. rewrite <- Hval. unfold value; cbn. rewrite Hf.
    destruct (String.eqb_spec k key) as [->|Hne].
    + rewrite lookup_insert_eq. f_equal. cbn. unfold Fs.fread. rewrite Hs'.
      rewrite FsFacts.content_store_eq, Hsz. unfold zlen, read_at. rewrite Nat2Z.id.
      rewrite drop_app_length. rewrite take_take. f_equal. lia.
    + by rewrite lookup_insert_ne by done.
Qed.

(** metadata as stored values *)
Lemma stream_data_bytes out d :
  OStreamFacts.appends BufferedOutputStream.init d out -> d <> [] ->
  stream_data out = Some (BufferedOutputStream.buffer out) /\
  BufferedOutputStream.offset out = zlen d /\
  zlen d <= zlen (BufferedOutputStream.buffer out) /\
  take (Z.to_nat (zlen d)) (BufferedOutputStream.buffer out) = d.
Proof.
  intros ((Hb & Ho & _) & Hoff & Hby) Hne. cbn in Hoff.
  rewrite OStreamFacts.bytes_init in Hby. cbn in Hby.
  unfold BufferedOutputStream.bytes in Hby. rewrite Hoff in Hby, Ho.
  unfold stream_data. destruct (BufferedOutputStream.buffer out) as [|b l] eqn:E.
  { rewrite take_nil in Hby. by subst. }
  split_and_all; [done|lia|lia|done].
Qed.

Lemma encode_nonempty md : Metadata.encode md <> [].
Proof.
  intros E. apply (f_equal zlen) in E. unfold Metadata.encode in E. len_simpl.
  pose proof (zlen_nonneg (concat (map Metadata.partition_bytes (partitions md)))).
  change (zlen []) with 0 in E. lia.
Qed.

Lemma SetMetadata_cases key md m s :
  inv m s -> key <> EmptyString -> Metadata.wf md ->
  zlen (Metadata.encode md) < 2 ^ 61 ->
  exists m' s' fp old, SetMetadata key md m s = Ok (m', s') /\
    file m = Some fp /\ file m' = Some fp /\ files s !! fp = Some old /\ inv m' s' /\
    (s' = s \/ exists ext, s' = Fs.store fp (old ++ ext) s /\
                           zlen ext <= zlen (Metadata.encode md)) /\
    ((forall k, value m' s' k = if String.eqb k key then Some (Metadata.encode md)
                                else value m s k)
     \/ (~ room m s (zlen (Metadata.encode md)) /\ m' = m /\
         forall k, value m' s' k = value m s k)).
Proof.
  intros Hinv Hk Hwf Hlen. unfold SetMetadata.
  destruct (MetadataFacts.Serialize_appends md BufferedOutputStream.init)
    as (out & -> & Hout); [done|apply OStreamFacts.init_ok|exact Hlen|].
  destruct (stream_data_bytes out _ Hout (encode_nonempty md)) as (-> & -> & Hle & Htake).
  assert (0 < zlen (Metadata.encode md)).
  { pose proof (encode_nonempty md). destruct (Metadata.encode md); [done|].
    unfold zlen; cbn. lia. }
  assert (Hv := SetValue_cases key (BufferedOutputStream.buffer out)
    (zlen (Metadata.encode md)) m s Hinv Hk ltac:(lia) Hlen).
  rewrite Htake in Hv. exact Hv.
Qed.

Lemma GetMetadata_stored key md m s :
  inv m s -> Metadata.wf md -> value m s key = Some (Metadata.encode md) ->
  GetMetadata key Metadata.empty m s = (true, md).
Proof.
  intros Hinv Hwf Hv. destruct (GetValue_spec key m s Hinv) as [Hb Hs].
  destruct (value_ok _ _ _ _ Hinv Hv) as [_ Hlen]. rewrite Hv in Hb, Hs. cbn [default id] in Hb, Hs.
  unfold GetMetadata. rewrite Hb, Hs. destruct (Z.eqb_spec (zlen (Metadata.encode md)) 0); [lia|].
  set (st := BufferedInputStream.make _ _).
  destruct (MetadataFacts.Deserialize_app md st []) as (E & _); [done| |done| |by rewrite E].
  - apply IStreamFacts.make_ok. lia.
  - by rewrite app_nil_r.
Qed.

Lemma GetMetadata_absent key md m s :
  inv m s -> value m s key = None -> GetMetadata key md m s = (false, md).
Proof.
  intros Hinv Hv. destruct (GetValue_spec key m s Hinv) as [_ Hs].
  rewrite Hv in Hs. unfold GetMetadata. by rewrite Hs.
Qed.

Lemma Initialize_ok path s :
  path <> EmptyString -> deny s path = false ->
  exists m s', Initialize path init s = (true, m, s') /\ inv m s' /\
    s' = Fs.store path [] s /\ file m = Some path /\ filename m = path /\
    forall k, value m s' k = None.
Proof.
  intros Hp Hd. unfold Initialize; cbn. rewrite empty_str_false by done.
  rewrite FsFacts.fopen_trunc_ok by done. do 2 eexists. split; [reflexivity|].
  split_and_all; try done.
  - exists path. split_and_all; [done| |].
    + cbn. rewrite lookup_insert_eq. eauto.
    + intros key ix. cbn. by rewrite lookup_empty.
Qed.
End BlobMapFacts.

(** ** Properties *)
Fixpoint set_values (ops : list (string * list Z)) (m : BlobMap.t) (s : filesystem)
  : outcome (BlobMap.t * filesystem) :=
  match ops with
  | [] => Ok (m, s)
  | (k, d) :: ops' =>
      obind (BlobMap.SetValue k (Some d) (zlen d) m s) (fun '(m', s') => set_values ops' m' s')
  end.
(** the finite map the same insertions produce *)
Definition map_after (ops : list (string * list Z)) (g : gmap string (list Z)) :=
  fold_left (fun g op => <[op.1 := op.2]> g) ops g.
Definition op_ok (op : string * list Z) : Prop :=
  op.1 <> EmptyString /\ 0 < zlen op.2 < 2 ^ 61.

Lemma set_values_refines ops m s g :
  Forall op_ok ops -> BlobMap.inv m s ->
  BlobMap.room m s (zlen (concat (map snd ops))) ->
  (forall k, BlobMap.value m s k = g !! k) ->
  exists m' s', set_values ops m s = Ok (m', s') /\ BlobMap.inv m' s' /\
    forall k, BlobMap.value m' s' k = map_after ops g !! k.
Proof.
  revert m s g. induction ops as [|[k d] ops IH]; intros m s g Hops Hinv Hroom Hg.
  { exists m, s. auto. }
  apply Forall_cons in Hops as [[Hk Hd] Hops]. cbn in Hk, Hd.
  cbn [map concat snd] in Hroom. rewrite zlen_app in Hroom.
  pose proof (zlen_nonneg (concat (map snd ops))) as Hc.
  destruct (BlobMapFacts.SetValue_cases k d (zlen d) m s) as
    (m1 & s1 & fp & old & E & Hf & Hf1 & Hold & Hinv1 & Hs1 & Hv); [done|done|lia|lia|].
  cbn [set_values]. rewrite E. cbn [obind].
  destruct Hv as [Hv|[Hn _]].
  2:{ exfalso. apply Hn. intros fp' Hf'. specialize (Hroom fp' Hf'). lia. }
  unfold zlen in Hv. rewrite Nat2Z.id, take_ge in Hv by lia.
  destruct (IH m1 s1 (<[k:=d]> g)) as (m' & s' & E' & Hinv' & Hv'); [done|done| | |].
  - intros fp' Hf'. assert (fp' = fp) as -> by congruence. specialize (Hroom fp Hf).
    destruct Hs1 as [->|(ext & -> & He)]; [lia|]. rewrite FsFacts.limit_store.
    unfold Fs.fsize in *. rewrite FsFacts.content_store_eq.
    unfold Fs.content in Hroom. rewrite Hold in Hroom. cbn in Hroom.
    rewrite zlen_app. lia.
  - intros k'. rewrite Hv. destruct (String.eqb_spec k' k) as [->|Hne].
    + by rewrite lookup_insert_eq.
    + by rewrite lookup_insert_ne.
  - exists m', s'. auto.
Qed.

(** [C29] The blob map refines a finite map: after [Initialize] and any sequence
    of [SetValue] calls that fits on the disk, [GetValue] returns for every key
    the last value set for it, and an empty buffer for the others. *)
Theorem blob_map_refines_finite_map (path : string) (ops : list (string * list Z))
  (s : filesystem) :
  path <> EmptyString -> deny s path = false -> Forall op_ok ops ->
  zlen (concat (map snd ops)) <= limit s ->
  exists m0 s0 m s', BlobMap.Initialize path BlobMap.init s = (true, m0, s0) /\
    set_values ops m0 s0 = Ok (m, s') /\
    forall k, Buffer.bytes (BlobMap.GetValue k m s')
              = default [] (map_after ops ∅ !! k).
Proof.
  intros Hp Hd Hops Hl.
  destruct (BlobMapFacts.Initialize_ok path s Hp Hd) as (m0 & s0 & E0 & Hinv & -> & Hf & _ & Hv).
  destruct (set_values_refines ops m0 (Fs.store path [] s) ∅) as (m & s' & E & Hinv' & Hg);
    [done|done| |intros k; by rewrite Hv|].
  - intros fp Hfp. assert (fp = path) as -> by congruence.
    unfold Fs.fsize. rewrite FsFacts.content_store_eq. exact Hl.
  - exists m0, (Fs.store path [] s), m, s'. split_and_all; [done|done|]. intros k.
    by rewrite (proj1 (BlobMapFacts.GetValue_spec k m s' Hinv')), Hg.
Qed.

Definition empty_disk (lim : Z) : filesystem := mkfs ∅ ∅ (fun _ => false) lim.

Lemma blob_map_refines_finite_map_witness :
  exists m0 s0 m s', BlobMap.Initialize "map" BlobMap.init (empty_disk 100) = (true, m0, s0) /\
    set_values [("a", [1; 2]); ("b", [3]); ("a", [4])]%string m0 s0 = Ok (m, s') /\
    forall k, Buffer.bytes (BlobMap.GetValue k m s')
              = default [] (map_after [("a", [1; 2]); ("b", [3]); ("a", [4])]%string ∅ !! k).
Proof.
  apply (blob_map_refines_finite_map "map" [("a", [1; 2]); ("b", [3]); ("a", [4])]%string).
  - discriminate.
  - reflexivity.
  - repeat (apply Forall_cons_2; [split; [discriminate|closed_range]|]). apply Forall_nil_2.
  - vm_compute. discriminate.
Defined.

(** On a full disk [SetValue] loses nothing: whether or not the new value
    was stored, every other key keeps its value and the key itself has either
    the new value or the one it had. *)
Theorem blob_map_full_disk (key : string) (d : list Z) (m : BlobMap.t) (s : filesystem) :
  BlobMap.inv m s -> key <> EmptyString -> 0 < zlen d < 2 ^ 61 ->
  exists m' s', BlobMap.SetValue key (Some d) (zlen d) m s = Ok (m', s') /\
    BlobMap.inv m' s' /\
    (forall k, k <> key -> BlobMap.value m' s' k = BlobMap.value m s k) /\
    (BlobMap.value m' s' key = Some d \/ BlobMap.value m' s' key = BlobMap.value m s key) /\
    (BlobMap.room m s (zlen d) -> BlobMap.value m' s' key = Some d).
Proof.
  intros Hinv Hk Hd.
  destruct (BlobMapFacts.SetValue_cases key d (zlen d) m s) as
    (m1 & s1 & fp & old & E & _ & _ & _ & Hinv1 & _ & Hv); [done|done|lia|lia|].
  unfold zlen in Hv. rewrite Nat2Z.id, take_ge in Hv by lia.
  exists m1, s1. split_and_all; [done|done| | |].
  - intros k Hne. destruct Hv as [Hv|(_ & _ & Hv)]; rewrite Hv; [|done].
    apply String.eqb_neq in Hne. by rewrite Hne.
  - destruct Hv as [Hv|(_ & _ & Hv)]; rewrite Hv; [|auto].
    rewrite String.eqb_refl. auto.
  - intros Hr. destruct Hv as [Hv|(Hn & _ & _)]; [|done].
    by rewrite Hv, String.eqb_refl.
Qed.

Definition sample_map : BlobMap.t :=
  (BlobMap.Initialize "map" BlobMap.init (empty_disk 2)).1.2.
Definition sample_disk : filesystem :=
  (BlobMap.Initialize "map" BlobMap.init (empty_disk 2)).2.

Lemma blob_map_full_disk_witness :
  exists m' s', BlobMap.SetValue "a" (Some [1; 2; 3]) 3 sample_map sample_disk = Ok (m', s') /\
    BlobMap.inv m' s' /\
    (forall k, k <> "a"%string -> BlobMap.value m' s' k
                                  = BlobMap.value sample_map sample_disk k) /\
    (BlobMap.value m' s' "a" = Some [1; 2; 3]
     \/ BlobMap.value m' s' "a" = BlobMap.value sample_map sample_disk "a") /\
    (BlobMap.room sample_map sample_disk 3 -> BlobMap.value m' s' "a" = Some [1; 2; 3]).
Proof.
  apply (blob_map_full_disk "a" [1; 2; 3]).
  - exists "map"%string. split_and_all; [done|cbn; by rewrite lookup_insert_eq|].
    intros key ix. cbn. by rewrite lookup_empty.
  - discriminate.
  - closed_range.
Defined.
