(* ===== verification/BlobStore.v ===== *)
(** * Blobs and blob providers (src/src/bdblob: IBlob.h, BlobProvider.h,
      FileBlob.cpp, FileBlobProvider.cpp, BlobConfig.cpp)

    The state of a bdblob process, the provider interface as a type class, and
    its file-system implementation.  A blob id maps to a file [rootPath/id] of
    preallocated zeros; the size of the blob is not in the file but in the blob
    map.  The laws of the interface, [BlobProviderLaws], are what the folder
    code relies on; FileStore.v proves them for [FileBlobProvider].

    libuuid is not part of the repository: the ids it hands out are the stream
    [uuids] of the state.  [uuidgen] unparses into a 36-byte array although
    [uuid_unparse] also writes a terminator; the model takes that byte to be
    harmless. *)

From Stdlib Require Import ZArith Lia Bool Ascii String.
From stdpp Require Import base list gmap strings.
From S2P Require Import Prelude Streams Metadata Stdio BlobMap.
Set Default Goal Selector "!".
Local Open Scope Z_scope.
Local Open Scope drive_scope.

Module BlobConfig.
(** the static members; [rootId] is a pointer, null before [Initialize] *)
Record t := mk { blockSize : Z; codeBlocks : Z; dataBlocks : Z; rootId : option string }.
Definition init : t := mk (64 * 1024) 2 2 None.
Definition MinBlobSize (c : t) : Z := u64 (blockSize c * dataBlocks c).
End BlobConfig.

(** ** The process *)
Record world := mkworld {
  fs : filesystem;
  blobMap : option BlobMap.t;
  config : BlobConfig.t;
  clock : nat -> Z;
  ticks : nat;
  uuids : nat -> string;
  fresh : nat
}.
Definition set_fs (f : filesystem) (w : world) : world :=
  mkworld f (blobMap w) (config w) (clock w) (ticks w) (uuids w) (fresh w).
Definition set_blobMap (m : BlobMap.t) (f : filesystem) (w : world) : world :=
  mkworld f (Some m) (config w) (clock w) (ticks w) (uuids w) (fresh w).
Definition set_config (c : BlobConfig.t) (w : world) : world :=
  mkworld (fs w) (blobMap w) c (clock w) (ticks w) (uuids w) (fresh w).

(** an operation on the file system alone *)
Definition on_fs {A} (f : filesystem -> outcome (A * filesystem)) : M world A :=
  fun w => obind (f (fs w)) (fun '(a, s) => Ok (a, set_fs s w)).

(** [static_cast<uint32_t>(time(nullptr))]: successive calls read successive
    values of the clock *)
Definition now : M world Z := fun w =>
  Ok (u32 (clock w (ticks w)),
      mkworld (fs w) (blobMap w) (config w) (clock w) (Datatypes.S (ticks w)) (uuids w) (fresh w)).
Definition uuidgen : M world string := fun w =>
  Ok (uuids w (fresh w),
      mkworld (fs w) (blobMap w) (config w) (clock w) (ticks w) (uuids w) (Datatypes.S (fresh w))).

(** BlobProvider.h: the blob map is owned by the provider; the assignment of a
    new one destroys the one before *)
Definition InitializeBlobMap (path : string) : M world bool := fun w =>
  let s0 := match blobMap w with
            | Some m => (BlobMap.destroy m (fs w)).2
            | None => fs w
            end in
  let '(ok, m, s) := BlobMap.Initialize path BlobMap.init s0 in
  Ok (ok, set_blobMap m s w).
Definition GetBlobMap : M world (option BlobMap.t) := gets blobMap.

(** calls through the pointer [GetBlobMap()] returned *)
Definition SetMetadata (key : string) (md : BlobMetadata) : M world unit := fun w =>
  match blobMap w with
  | None => Fault NullDeref
  | Some m => obind (BlobMap.SetMetadata key md m (fs w))
                (fun '(m', s') => Ok (tt, set_blobMap m' s' w))
  end.
Definition GetMetadata (key : string) (md : BlobMetadata) : M world (bool * BlobMetadata) :=
  fun w => match blobMap w with
           | None => Fault NullDeref
           | Some m => Ok (BlobMap.GetMetadata key md m (fs w), w)
           end.
Definition GetValue (key : string) : M world Buffer.t := fun w =>
  match blobMap w with
  | None => Fault NullDeref
  | Some m => Ok (BlobMap.GetValue key m (fs w), w)
  end.

(** ** The interface.  [Read] returns the bytes it stored in the caller's
    buffer; its return value in the code is their number. *)
Class BlobProvider (P B : Type) := {
  NewBlob : P -> Z -> M world (option B);
  OpenBlob : P -> string -> M world (option B);
  DeleteBlob : P -> string -> M world unit;
  blob_Id : B -> string;
  blob_Size : B -> Z;
  blob_Read : B -> Z -> Z -> M world (list Z);
  blob_Write : B -> Z -> list Z -> Z -> M world Z;
  blob_IsOpened : B -> bool
}.

(** ** FileBlob.cpp *)
Module FileBlob.
Record t := mk { fp : option string; Id : string; Size : Z }.

Definition FileBlob (path id : string) (size : Z) : M world t :=
  existing <- gets (fun w => Fs.fopen_existing path (fs w)) ;;
  f <- match existing with
       | Some f => ret (Some f)
       | None => on_fs (fun s => Ok (Fs.fopen_trunc path s))
       end ;;
  ret (mk f id size).

Definition Close (b : t) : t := mk None (Id b) (Size b).
Definition IsOpened (b : t) : bool := match fp b with Some _ => true | None => false end.

Definition Read (b : t) (offset len : Z) : M world (list Z) :=
  match fp b with
  | None => ret []
  | Some f =>
      if Size b <? offset then ret []
      else
        let len := Z.min len (Size b - offset) in
        d <- gets (fun w => Fs.fread f offset len (fs w)) ;;
        ret (d ++ replicate (Z.to_nat (len - zlen d)) 0)
  end.

Definition Write (b : t) (offset : Z) (data : list Z) (len : Z) : M world Z :=
  match fp b with
  | None => ret 0
  | Some f =>
      if Size b <? offset then ret 0
      else
        fileSize <- gets (fun w => Fs.fsize f (fs w)) ;;
        position <-
          (if fileSize <? offset then
             n <- on_fs (Fs.fwrite f fileSize [0] (u64 (fileSize - offset))) ;;
             ret (fileSize + n)
           else ret offset) ;;
        on_fs (Fs.fwrite f position data (Z.min len (Size b - offset)))
  end.
End FileBlob.

(** ** FileBlobProvider.cpp *)
Module FileBlobProvider.
Record t := mk { rootPath : string }.
Definition BUFSIZ : Z := 8192.
Definition PATH_MAX : Z := 4096.

Definition isFolderExist (path : string) (s : filesystem) : bool := bool_decide (path ∈ dirs s).

Definition FileBlobProvider (path : option string) : M world t :=
  let rootPath := default "."%string path in
  (if String.eqb rootPath "." then ret tt
   else on_fs (fun s => Ok (tt, Fs.mkdir rootPath s))) ;;;
  ret (mk rootPath).

Definition path (p : t) (id : string) : string := (rootPath p ++ "/" ++ id)%string.
(** [sprintf] into [char path[PATH_MAX]] *)
Definition path_buffer (p : t) (id : string) : M world string :=
  if str_size (path p id) <? PATH_MAX then ret (path p id) else fail OutOfBounds.

(** the loop that writes [size] zeros through a buffer of [BUFSIZ] *)
Fixpoint zero_fill (fuel : nat) (f : string) (position remaining : Z) : M world unit :=
  match fuel with
  | O => nofuel
  | Datatypes.S fuel =>
      if BUFSIZ <=? remaining then
        n <- on_fs (Fs.fwrite f position (replicate (Z.to_nat BUFSIZ) 0) BUFSIZ) ;;
        zero_fill fuel f (position + n) (remaining - BUFSIZ)
      else if 0 <? remaining then
        on_fs (Fs.fwrite f position (replicate (Z.to_nat BUFSIZ) 0) remaining) ;;; ret tt
      else ret tt
  end.

Definition NewBlob (p : t) (size : Z) : M world (option FileBlob.t) :=
  id <- uuidgen ;;
  ok <- gets (fun w => isFolderExist (rootPath p) (fs w)) ;;
  if negb ok then ret None else
  bm <- GetBlobMap ;;
  match bm with
  | None => ret None
  | Some _ =>
      SetMetadata id (Metadata.SetSize size Metadata.empty) ;;;
      blobFile <- on_fs (fun s => Ok (Fs.fopen_trunc (path p id) s)) ;;
      match blobFile with
      | None => ret tt
      | Some f => zero_fill (Datatypes.S (Z.to_nat (size / BUFSIZ))) f 0 size
      end ;;;
      b <- FileBlob.FileBlob (path p id) id size ;;
      ret (Some b)
  end.

Definition OpenBlob (p : t) (id : string) : M world (option FileBlob.t) :=
  bm <- GetBlobMap ;;
  match bm with
  | None => ret None
  | Some _ =>
      pat! (ok, metadata) <- GetMetadata id Metadata.empty ;;
      if negb ok then ret None else
      fname <- path_buffer p id ;;
      b <- FileBlob.FileBlob fname id (size metadata) ;;
      ret (if FileBlob.IsOpened b then Some b else None)
  end.

Definition DeleteBlob (p : t) (id : string) : M world unit :=
  fname <- path_buffer p id ;;
  on_fs (fun s => Ok (tt, Fs.unlink fname s)).
End FileBlobProvider.

#[export] Instance FileBlobProvider_BlobProvider
  : BlobProvider FileBlobProvider.t FileBlob.t := {
  NewBlob := FileBlobProvider.NewBlob;
  OpenBlob := FileBlobProvider.OpenBlob;
  DeleteBlob := FileBlobProvider.DeleteBlob;
  blob_Id := FileBlob.Id;
  blob_Size := FileBlob.Size;
  blob_Read := FileBlob.Read;
  blob_Write := FileBlob.Write;
  blob_IsOpened := FileBlob.IsOpened
}.

(** ** BlobConfig.cpp *)
Module BlobConfigOps.
Import BlobConfig.

Definition root_file : string := "blob_root".
Definition root_metadata_file : string := "blob_root.metadata".

(** [fopen(path, "w"); if (file) { fwrite(data); fclose }] *)
Definition write_file (path : string) (data : list Z) : M world unit :=
  file <- on_fs (fun s => Ok (Fs.fopen_trunc path s)) ;;
  match file with
  | None => ret tt
  | Some f => on_fs (Fs.fwrite f 0 data (zlen data)) ;;; ret tt
  end.

Definition RootId : M world string := fun w =>
  match rootId (config w) with None => Fault NullDeref | Some r => Ok (r, w) end.
Definition set_rootId (val : string) (w : world) : world :=
  set_config (mk (blockSize (config w)) (codeBlocks (config w)) (dataBlocks (config w))
                 (Some val)) w.

Definition SetRootId (val : string) : M world unit :=
  bm <- GetBlobMap ;;
  assertM (match bm with Some _ => true | None => false end) ;;;
  old <- RootId ;;
  if String.eqb old val then ret tt else
  write_file root_file (bytes_of_string val) ;;;
  file <- on_fs (fun s => Ok (Fs.fopen_trunc root_metadata_file s)) ;;
  match file with
  | None => ret tt
  | Some f =>
      pat! (found, metadata) <- GetMetadata val Metadata.empty ;;
      if found then
        let '(ok, stream) := Metadata.Serialize metadata BufferedOutputStream.init in
        if ok then
          on_fs (Fs.fwrite f 0 (BufferedOutputStream.buffer stream)
                   (BufferedOutputStream.offset stream)) ;;; ret tt
        else ret tt
      else ret tt
  end ;;;
  modify (set_rootId val).

Definition readFile (path : string) : M world Buffer.t :=
  file <- gets (fun w => Fs.fopen_existing path (fs w)) ;;
  match file with
  | None => ret Buffer.empty
  | Some f =>
      n <- gets (fun w => Fs.fsize f (fs w)) ;;
      let '(ok, buffer) := Buffer.Resize n Buffer.empty in
      if ok then
        d <- gets (fun w => Fs.fread f 0 n (fs w)) ;;
        ret (Buffer.fill d buffer)
      else ret buffer
  end.

Definition Initialize : M world unit :=
  bm <- GetBlobMap ;;
  assertM (match bm with Some _ => true | None => false end) ;;;
  buffer <- readFile root_file ;;
  let root := string_of_bytes (Buffer.bytes buffer) in
  modify (set_rootId root) ;;;
  buffer <- readFile root_metadata_file ;;
  if 0 <? Buffer.size buffer then
    let '(ok, metadata, _) := Metadata.Deserialize Metadata.empty
      (BufferedInputStream.make (Buffer.bytes buffer) (Buffer.size buffer)) in
    if ok then SetMetadata root metadata else ret tt
  else ret tt.
End BlobConfigOps.

(** ** The contract of a blob provider *)

(** the bytes the blob map holds for [id] *)
Definition map_value (w : world) (id : string) : option (list Z) :=
  match blobMap w with Some m => BlobMap.value m (fs w) id | None => None end.
(** uuids are distinct up to this many *)
Definition uuid_limit : Z := 2 ^ 62.
(** the blob map can take [n] more bytes and [n] more uuids can be drawn: every
    [NewBlob] also writes metadata to the map, so one measure counts both *)
Definition map_room (w : world) (n : Z) : Prop :=
  (exists m, blobMap w = Some m /\ BlobMap.room m (fs w) n) /\
  Z.of_nat (fresh w) + n <= uuid_limit.
(** [id] will not be handed out by [uuidgen] any more *)
Definition old (w : world) (id : string) : Prop :=
  forall n, (fresh w <= n)%nat -> Z.of_nat n < uuid_limit -> uuids w n <> id.
(** a new blob takes its metadata, without partitions, and one uuid *)
Definition NewBlob_cost : Z := 8 + 8 + 4 + 1.
Definition metadata_ok (md : BlobMetadata) : Prop :=
  Metadata.wf md /\ zlen (Metadata.encode md) < 2 ^ 61.

(** What an operation may do to the store: it only touches the ids in [T], and
    writes at most [cost] bytes to the blob map. *)
Section Step.
Context {P : Type} (inv : P -> world -> Prop)
  (stored : P -> world -> string -> list Z -> Prop) (private : P -> world -> string -> Prop).
Record store_core (p : P) (w w' : world) (T : string -> Prop) (cost : Z) : Prop := {
  step_inv : inv p w';
  step_stored id d : ~ T id -> stored p w id d -> stored p w' id d;
  step_value id : ~ T id -> map_value w' id = map_value w id;
  step_room n : map_room w (n + cost) -> map_room w' n;
  step_limit : limit (fs w') = limit (fs w);
  step_old id : old w id -> old w' id;
  step_config : config w' = config w
}.
(** the files outside the store are as they were *)
Record quiet (p : P) (w w' : world) : Prop := {
  quiet_files q : ~ private p w q -> files (fs w') !! q = files (fs w) !! q;
  quiet_private q : private p w' q -> private p w q;
  quiet_deny : deny (fs w') = deny (fs w);
  quiet_dirs : dirs (fs w') = dirs (fs w)
}.
Record store_step (p : P) (w w' : world) (T : string -> Prop) (cost : Z) : Prop := {
  step_core :> store_core p w w' T cost;
  step_quiet : quiet p w w'
}.
End Step.
Arguments step_inv {P inv stored p w w' T cost}.
Arguments step_stored {P inv stored p w w' T cost}.
Arguments step_value {P inv stored p w w' T cost}.
Arguments step_room {P inv stored p w w' T cost}.
Arguments step_limit {P inv stored p w w' T cost}.
Arguments step_old {P inv stored p w w' T cost}.
Arguments step_config {P inv stored p w w' T cost}.
Arguments step_core {P inv stored private p w w' T cost}.
Arguments step_quiet {P inv stored private p w w' T cost}.
Arguments quiet_files {P private p w w'}.
Arguments quiet_private {P private p w w'}.
Arguments quiet_deny {P private p w w'}.
Arguments quiet_dirs {P private p w w'}.

Class BlobProviderLaws (P B : Type) `{BlobProvider P B} := {
  bp_inv : P -> world -> Prop;
  (** blob [id] exists and its bytes, as many as its size, are [d] *)
  bp_stored : P -> world -> string -> list Z -> Prop;
  (** the handle is open on the blob of its id *)
  bp_opened : P -> B -> Prop;
  (** files that belong to the store *)
  bp_private : P -> world -> string -> Prop;

  bp_map p w : bp_inv p w ->
    exists m, blobMap w = Some m /\ BlobMap.inv m (fs w);
  bp_stored_meta p w id d : bp_stored p w id d ->
    old w id /\ id <> EmptyString /\
    exists md, map_value w id = Some (Metadata.encode md) /\ Metadata.wf md /\
               size md = zlen d;
  bp_ext p w w' : fs w' = fs w -> blobMap w' = blobMap w -> uuids w' = uuids w ->
    fresh w' = fresh w ->
    (bp_inv p w -> bp_inv p w') /\
    (forall id d, bp_stored p w id d -> bp_stored p w' id d) /\
    (forall q, bp_private p w' q -> bp_private p w q);
  bp_other_file p w q d : bp_inv p w -> ~ bp_private p w q ->
    store_core bp_inv bp_stored p w (set_fs (Fs.store q d (fs w)) w) (fun _ => False) 0;
  bp_SetMetadata p w id md : bp_inv p w -> old w id -> id <> EmptyString ->
    metadata_ok md -> map_room w (zlen (Metadata.encode md)) ->
    exists w', SetMetadata id md w = Ok (tt, w') /\
      store_step bp_inv bp_stored bp_private p w w' (eq id) (zlen (Metadata.encode md)) /\
      map_value w' id = Some (Metadata.encode md) /\
      (forall d, bp_stored p w id d -> size md = zlen d -> bp_stored p w' id d);
  bp_NewBlob p w n : bp_inv p w -> 0 <= n <= limit (fs w) -> n < 2 ^ 63 ->
    map_room w NewBlob_cost ->
    exists b w', NewBlob p n w = Ok (Some b, w') /\
      store_step bp_inv bp_stored bp_private p w w' (eq (blob_Id b)) NewBlob_cost /\
      ~ old w (blob_Id b) /\ blob_Size b = n /\ bp_opened p b /\
      bp_stored p w' (blob_Id b) (replicate (Z.to_nat n) 0) /\
      map_value w' (blob_Id b)
        = Some (Metadata.encode (Metadata.SetSize n Metadata.empty)) /\
      str_size (blob_Id b) <= 4096;
  bp_OpenBlob p w id d : bp_inv p w -> bp_stored p w id d ->
    exists b, OpenBlob p id w = Ok (Some b, w) /\
      blob_Id b = id /\ blob_Size b = zlen d /\ bp_opened p b;
  bp_OpenBlob_unknown p w id : bp_inv p w -> map_value w id = None ->
    OpenBlob p id w = Ok (None, w);
  bp_Read p w b d off len : bp_inv p w -> bp_opened p b -> bp_stored p w (blob_Id b) d ->
    blob_Size b = zlen d -> 0 <= off -> 0 <= len ->
    blob_Read b off len w = Ok (read_at d (Z.to_nat off) (Z.to_nat len), w);
  bp_Write p w b d off data len : bp_inv p w -> bp_opened p b ->
    bp_stored p w (blob_Id b) d -> blob_Size b = zlen d -> 0 <= off ->
    0 <= len <= zlen data -> off + len <= zlen d <= limit (fs w) ->
    exists w', blob_Write b off data len w = Ok (len, w') /\
      store_step bp_inv bp_stored bp_private p w w' (eq (blob_Id b)) 0 /\
      bp_stored p w' (blob_Id b) (write_at d (Z.to_nat off) (take (Z.to_nat len) data)) /\
      (forall id, map_value w' id = map_value w id);
  bp_DeleteBlob p w id d : bp_inv p w -> bp_stored p w id d ->
    exists w', DeleteBlob p id w = Ok (tt, w') /\
      store_step bp_inv bp_stored bp_private p w w' (eq id) 0 /\
      (forall id', map_value w' id' = map_value w id')
}.
Abbreviation step := (store_step bp_inv bp_stored bp_private).

Section StepFacts.
Context {P : Type} {inv : P -> world -> Prop}
  {stored : P -> world -> string -> list Z -> Prop} {private : P -> world -> string -> Prop}.
Implicit Types (p : P).

Lemma map_room_mono w n m : map_room w n -> m <= n -> map_room w m.
Proof.
  intros [(bm & E & Hr) Hu] Hle. split; [|lia].
  exists bm. split; [done|]. intros fp Hf. specialize (Hr fp Hf). lia.
Qed.

Lemma core_refl p w : inv p w -> store_core inv stored p w w (fun _ => False) 0.
Proof. intros H. split; auto. intros n. by rewrite Z.add_0_r. Qed.

Lemma core_weaken p w w' (T T' : string -> Prop) c c' :
  store_core inv stored p w w' T c -> (forall id, T id -> T' id) -> c <= c' ->
  store_core inv stored p w w' T' c'.
Proof.
  intros [H1 H2 H3 H4 H5 H6 H7] HT Hc. split; auto.
  intros n Hn. apply H4. eapply map_room_mono; [exact Hn|lia].
Qed.

Lemma core_trans p w1 w2 w3 T c1 c2 :
  store_core inv stored p w1 w2 T c1 -> store_core inv stored p w2 w3 T c2 ->
  store_core inv stored p w1 w3 T (c1 + c2).
Proof.
  intros [A1 A2 A3 A4 A5 A6 A7] [B1 B2 B3 B4 B5 B6 B7]. split; auto.
  - intros id HT. by rewrite B3, A3.
  - intros n Hn. apply B4, A4. eapply map_room_mono; [exact Hn|lia].
  - congruence.
  - congruence.
Qed.

Lemma quiet_refl p w : quiet private p w w.
Proof. by split. Qed.
Lemma quiet_trans p w1 w2 w3 :
  quiet private p w1 w2 -> quiet private p w2 w3 -> quiet private p w1 w3.
Proof.
  intros [A1 A2 A3 A4] [B1 B2 B3 B4]. split; [|auto|congruence|congruence].
  intros q Hq. rewrite B1 by auto. by apply A1.
Qed.

Lemma step_refl p w : inv p w -> store_step inv stored private p w w (fun _ => False) 0.
Proof. intros H. split; [by apply core_refl|apply quiet_refl]. Qed.

Lemma step_weaken p w w' (T T' : string -> Prop) c c' :
  store_step inv stored private p w w' T c -> (forall id, T id -> T' id) -> c <= c' ->
  store_step inv stored private p w w' T' c'.
Proof. intros [H1 H2] HT Hc. split; [by eapply core_weaken|done]. Qed.

Lemma step_trans p w1 w2 w3 T c1 c2 :
  store_step inv stored private p w1 w2 T c1 -> store_step inv stored private p w2 w3 T c2 ->
  store_step inv stored private p w1 w3 T (c1 + c2).
Proof. intros [A1 A2] [B1 B2]. split; [by eapply core_trans|by eapply quiet_trans]. Qed.
End StepFacts.

Lemma tick_step `{BlobProviderLaws P B} (p : P) w w' :
  fs w' = fs w -> blobMap w' = blobMap w -> uuids w' = uuids w -> fresh w' = fresh w ->
  config w' = config w -> bp_inv p w -> step p w w' (fun _ => False) 0.
Proof.
  intros E1 E2 E3 E4 E5 Hinv. destruct (bp_ext p w w' E1 E2 E3 E4) as (Hi & Hs & Hp).
  split; split; auto.
  - intros id _. unfold map_value. by rewrite E1, E2.
  - intros n [(m & Em & Hr) Hu]. rewrite Z.add_0_r in Hr, Hu. split; [|by rewrite E4].
    exists m. by rewrite E1, E2.
  - by rewrite E1.
  - intros id. unfold old. by rewrite E3, E4.
  - intros q _. by rewrite E1.
  - by rewrite E1.
  - by rewrite E1.
Qed.
