(* ===== verification/FileStore.v ===== *)
(** * The file-system blob provider meets the provider contract

    [BlobProviderLaws] for FileBlobProvider.cpp/FileBlob.cpp: fresh blobs are
    zeros of the requested size, reads return what was written, no operation
    disturbs another blob, and no access leaves its buffer.  The invariant
    collects what the deployment provides: the root directory exists and may be
    written, uuids do not repeat, and the blob map lives outside it. *)

From Stdlib Require Import ZArith Lia Bool Ascii String.
From stdpp Require Import base list gmap strings.
From S2P Require Import Prelude Streams Metadata Stdio BlobMap BlobStore.
Set Default Goal Selector "!".
Local Open Scope Z_scope.
Local Open Scope drive_scope.
Import FileBlobProvider.

Lemma path_inj p id id' : path p id = path p id' -> id = id'.
Proof. unfold path. intros H. apply string_app_inj in H. by injection H. Qed.

(** ** Files other than the blob map's own *)
Lemma value_store_ne m s fp q d k :
  BlobMap.file m = Some fp -> q <> fp ->
  BlobMap.value m (Fs.store q d s) k = BlobMap.value m s k.
Proof.
  intros Hf Hq. unfold BlobMap.value. rewrite Hf.
  destruct (BlobMap.indexes m !! k); [|done].
  unfold Fs.fread. by rewrite FsFacts.content_store_ne.
Qed.

Definition path_of (q : string) (s s' : filesystem) : Prop :=
  limit s' = limit s /\ deny s' = deny s /\ dirs s' = dirs s /\
  forall q', q' <> q -> files s' !! q' = files s !! q'.

Lemma path_of_store q d s : path_of q s (Fs.store q d s).
Proof. repeat split. intros q' Hne. cbn. by rewrite lookup_insert_ne. Qed.
Lemma path_of_unlink q s : path_of q s (Fs.unlink q s).
Proof. repeat split. intros q' Hne. cbn. by rewrite lookup_delete_ne. Qed.

Section Outside.
Context (m : BlobMap.t) (fp q : string) (s s' : filesystem).
Hypotheses (Hf : BlobMap.file m = Some fp) (Hq : q <> fp) (Hs : path_of q s s').

Lemma outside_content : Fs.content fp s' = Fs.content fp s.
Proof. unfold Fs.content. destruct Hs as (_ & _ & _ & ->); done. Qed.
Lemma outside_value k : BlobMap.value m s' k = BlobMap.value m s k.
Proof.
  unfold BlobMap.value, Fs.fread. rewrite Hf.
  destruct (BlobMap.indexes m !! k); [|done]. by rewrite outside_content.
Qed.
Lemma outside_inv : BlobMap.inv m s -> BlobMap.inv m s'.
Proof.
  intros (fp' & Hf' & Hfile & Hix). assert (fp' = fp) as -> by congruence.
  exists fp. split_and_all; [done| |].
  - destruct Hs as (_ & _ & _ & ->); done.
  - intros k ix E. unfold Fs.fsize. rewrite outside_content. by apply Hix.
Qed.
Lemma outside_room n : BlobMap.room m s n -> BlobMap.room m s' n.
Proof.
  intros Hr fp' Hf'. assert (fp' = fp) as -> by congruence. specialize (Hr fp Hf).
  unfold Fs.fsize in *. rewrite outside_content. by destruct Hs as (-> & _).
Qed.
End Outside.

(** ** Invariant and contents *)
Record inv (p : t) (w : world) : Prop := {
  inv_map : exists m fp, blobMap w = Some m /\ BlobMap.file m = Some fp /\
              BlobMap.inv m (fs w) /\ (forall id, path p id <> fp) /\
              (forall n, (fresh w <= n)%nat -> Z.of_nat n < uuid_limit ->
                 BlobMap.value m (fs w) (uuids w n) = None);
  inv_root : rootPath p ∈ dirs (fs w);
  inv_deny : forall id, deny (fs w) (path p id) = false;
  inv_inj : forall i j, Z.of_nat i < uuid_limit -> Z.of_nat j < uuid_limit ->
              uuids w i = uuids w j -> i = j;
  inv_uuid : forall n, uuids w n <> EmptyString /\
               str_size (path p (uuids w n)) < PATH_MAX
}.

Record stored (p : t) (w : world) (id : string) (d : list Z) : Prop := {
  stored_old : old w id;
  stored_id : id <> EmptyString;
  stored_path : str_size (path p id) < PATH_MAX;
  stored_meta : exists md, map_value w id = Some (Metadata.encode md) /\ Metadata.wf md /\
                           size md = zlen d;
  stored_file : exists c, files (fs w) !! path p id = Some (d ++ c)
}.

Definition opened (p : t) (b : FileBlob.t) : Prop :=
  FileBlob.fp b = Some (path p (FileBlob.Id b)).
Definition private (p : t) (w : world) (q : string) : Prop :=
  (exists id, q = path p id) \/ (exists m, blobMap w = Some m /\ BlobMap.file m = Some q).

(** a change to one file that is not the blob map's *)
Lemma file_step p w q s' :
  inv p w -> path_of q (fs w) s' ->
  (forall m, blobMap w = Some m -> BlobMap.file m <> Some q) ->
  store_core inv stored p w (set_fs s' w) (fun id => q = path p id) 0.
Proof.
  intros [(m & fp & Hm & Hf & Hmi & Hfp & Hfr) Hroot Hdeny Hinj Huu] Hp Hq.
  assert (Hne : q <> fp) by (intros ->; by apply (Hq m Hm)).
  assert (Hv : forall k, BlobMap.value m s' k = BlobMap.value m (fs w) k)
    by (intros k; by eapply outside_value).
  assert (Hmv : forall k, map_value (set_fs s' w) k = map_value w k).
  { intros k. unfold map_value; cbn. rewrite Hm. apply Hv. }
  pose proof Hp as (Hl & Hd & Hdir & Hfiles).
  split; [split|..]; cbn; try done.
  - exists m, fp. split_and_all; [done|done|by apply (outside_inv m fp q (fs w) s')|done|].
    intros n Hn Hl'. rewrite Hv. auto.
  - by rewrite Hdir.
  - by rewrite Hd.
  - intros id d HT [S1 S2 S3 (md & S4) (c & S5)]. split; try done.
    + exists md. by rewrite Hmv.
    + exists c. cbn. rewrite Hfiles; [done|]. by intros <-.
  - intros n [(m' & Hm' & Hr) Hu]. rewrite Z.add_0_r in Hr, Hu. split; [|done].
    exists m'. split; [done|].
    assert (m' = m) as -> by congruence. cbn. by eapply outside_room.
Qed.

Lemma private_ne p w id m :
  inv p w -> blobMap w = Some m -> BlobMap.file m <> Some (path p id).
Proof.
  intros [(m' & fp & Hm & Hf & _ & Hfp & _) _ _ _ _] Hm' E.
  assert (m' = m) as -> by congruence. rewrite E in Hf. injection Hf as <-. by apply (Hfp id).
Qed.

(** a change to the file of one blob *)
Lemma blob_file_step p w id s' :
  inv p w -> path_of (path p id) (fs w) s' ->
  store_step inv stored private p w (set_fs s' w) (eq id) 0 /\
  forall k, map_value (set_fs s' w) k = map_value w k.
Proof.
  intros Hinv Hp. split; [split|].
  - eapply core_weaken; [apply file_step; [done|exact Hp|]| |lia].
    + intros m Hm. by eapply private_ne.
    + intros id' H. exact (path_inj _ _ _ H).
  - destruct Hp as (_ & Hd & Hdir & Hf). split; [|done|done|done].
    intros q Hq. apply Hf. intros ->. apply Hq. left. eauto.
  - intros k. destruct (inv_map _ _ Hinv) as (m & fp & Hm & Hf & _ & Hfp & _).
    unfold map_value; cbn. rewrite Hm. by eapply outside_value.
Qed.

Lemma SetMetadata_step p w id md :
  inv p w -> old w id -> id <> EmptyString -> metadata_ok md ->
  map_room w (zlen (Metadata.encode md)) ->
  exists w', SetMetadata id md w = Ok (tt, w') /\
    store_step inv stored private p w w' (eq id) (zlen (Metadata.encode md)) /\
    map_value w' id = Some (Metadata.encode md) /\
    (forall d, stored p w id d -> size md = zlen d -> stored p w' id d) /\
    uuids w' = uuids w /\ fresh w' = fresh w /\
    (forall q, files (fs w') !! path p q = files (fs w) !! path p q).
Proof.
  intros [(m & fp & Hm & Hf & Hmi & Hfp & Hfr) Hroot Hdeny Hinj Huu] Hold Hid [Hwf Hlen] Hroom.
  destruct (BlobMapFacts.SetMetadata_cases id md m (fs w) Hmi Hid Hwf Hlen)
    as (m' & s' & fp' & c & E & Hf1 & Hf' & Hc & Hmi' & Hs' & Hv).
  assert (fp' = fp) as -> by congruence. clear Hf1.
  unfold SetMetadata. rewrite Hm, E. cbn [obind]. eexists. split; [reflexivity|].
  destruct Hv as [Hv|(Hn & _)].
  2:{ exfalso. apply Hn. destruct Hroom as [(m2 & ? & ?) _]. congruence. }
  assert (Hp : path_of fp (fs w) s').
  { destruct Hs' as [->|(ext & -> & _)]; [done|apply path_of_store]. }
  pose proof Hp as (Hl & Hd & Hdir & Hfiles).
  assert (Hmv : forall k, map_value (set_blobMap m' s' w) k
            = if String.eqb k id then Some (Metadata.encode md) else map_value w k).
  { intros k. unfold map_value; cbn. rewrite Hm. apply Hv. }
  assert (Hpf : forall q, files s' !! path p q = files (fs w) !! path p q) by auto.
  assert (Hst : forall k d, stored p w k d -> (k = id -> size md = zlen d) ->
                            stored p (set_blobMap m' s' w) k d).
  { intros k d [S1 S2 S3 (md0 & S4) (c0 & S5)] Hsz. split; try done.
    - destruct (String.eqb_spec k id) as [->|Hne].
      + exists md. rewrite Hmv, String.eqb_refl. auto.
      + exists md0. rewrite Hmv. apply String.eqb_neq in Hne. by rewrite Hne.
    - exists c0. cbn. by rewrite Hpf. }
  split_and_all; try done.
  - split; [split; [split|..]; try done|].
    7:{ split; [|intros q [Hq|(m2 & Hm2 & Hq)]|done|done].
        - intros q Hq. apply Hfiles. intros ->. apply Hq. right. eauto.
        - by left.
        - injection Hm2 as <-. right. exists m. split; [done|congruence]. }
    + exists m', fp. split_and_all; try done. intros n Hn Hu. rewrite Hv. cbn [uuids fresh set_blobMap] in *.
      destruct (String.eqb_spec (uuids w n) id) as [Heq|]; [by apply (Hold n) in Heq|auto].
    + cbn. by rewrite Hdir.
    + cbn. by rewrite Hd.
    + intros k d Hk Hs. apply Hst; [done|]. by intros ->.
    + intros k Hk. rewrite Hmv. destruct (String.eqb_spec k id) as [->|]; done.
    + intros n [(m2 & Hm2 & Hr) Hu].
      split; [|pose proof (zlen_nonneg (Metadata.encode md)); cbn; lia].
      exists m'. split; [done|]. assert (m2 = m) as -> by congruence.
      intros fp2 Hf2. assert (fp2 = fp) as -> by congruence. specialize (Hr fp Hf).
      cbn. rewrite Hl. destruct Hs' as [->|(ext & -> & He)]; [pose proof (zlen_nonneg (Metadata.encode md)); lia|].
      unfold Fs.fsize in *. rewrite FsFacts.content_store_eq, zlen_app.
      unfold Fs.content in Hr. rewrite Hc in Hr. change (default [] (Some c)) with c in Hr. lia.
  - by rewrite Hmv, String.eqb_refl.
  - intros d Hs Hsz. by apply Hst.
Qed.

(** ** NewBlob *)
Lemma quiet_from p w w1 w2 :
  fs w1 = fs w -> blobMap w1 = blobMap w -> quiet private p w1 w2 -> quiet private p w w2.
Proof.
  intros E1 E2 [Q1 Q2 Q3 Q4]. unfold private in *. rewrite E1, E2 in *. by split.
Qed.

Lemma path_of_trans q s1 s2 s3 : path_of q s1 s2 -> path_of q s2 s3 -> path_of q s1 s3.
Proof.
  intros (A1 & A2 & A3 & A4) (B1 & B2 & B3 & B4). repeat split; try congruence.
  intros q' Hne. by rewrite B4, A4.
Qed.

Lemma fwrite_append f c data n w :
  files (fs w) !! f = Some c -> 0 <= n <= zlen data -> zlen c + n <= limit (fs w) ->
  on_fs (Fs.fwrite f (zlen c) data n) w
    = Ok (n, set_fs (Fs.store f (c ++ take (Z.to_nat n) data) (fs w)) w).
Proof.
  intros Hf Hn Hl. unfold on_fs.
  rewrite (FsFacts.fwrite_prefix _ _ _ _ _ c) by (done || apply zlen_nonneg || lia).
  cbn [obind]. unfold zlen. by rewrite Nat2Z.id, write_at_end.
Qed.

Lemma zero_fill_spec fuel f c remaining w :
  files (fs w) !! f = Some c -> 0 <= remaining ->
  zlen c + remaining <= limit (fs w) -> (Z.to_nat (remaining / BUFSIZ) < fuel)%nat ->
  exists s', zero_fill fuel f (zlen c) remaining w = Ok (tt, set_fs s' w) /\
    path_of f (fs w) s' /\
    files s' !! f = Some (c ++ replicate (Z.to_nat remaining) 0).
Proof.
  revert c remaining w. induction fuel as [|fuel IH]; intros c r w Hc Hr Hl Hfuel; [lia|].
  unfold BUFSIZ in *. cbn [zero_fill]. unfold BUFSIZ.
  assert (Hbuf : zlen (replicate (Z.to_nat 8192) 0) = 8192)
    by (unfold zlen; rewrite length_replicate; lia).
  destruct (Z.leb_spec 8192 r) as [Hle|Hlt].
  - rewrite (bind_ok _ _ _ _ _ (fwrite_append f c _ 8192 w Hc ltac:(rewrite Hbuf; lia)
      ltac:(lia))).
    rewrite take_ge by (rewrite length_replicate; lia).
    set (c1 := c ++ _). set (w1 := set_fs _ w).
    assert (Hz : zlen c + 8192 = zlen c1) by (unfold c1; rewrite zlen_app, Hbuf; lia).
    rewrite Hz. destruct (IH c1 (r - 8192) w1) as (s' & E & Hp & Hf); [|lia| | |].
    + unfold w1; cbn. by rewrite lookup_insert_eq.
    + unfold w1; cbn. lia.
    + replace (r - 8192) with (r + (-1) * 8192) by lia. rewrite Z_div_plus_full by lia.
      assert (1 <= r / 8192) by (apply Z.div_le_lower_bound; lia). lia.
    + exists s'. split_and_all.
      * rewrite E. done.
      * eapply path_of_trans; [|exact Hp]. apply path_of_store.
      * rewrite Hf. unfold c1. rewrite <- app_assoc, <- replicate_add. do 2 f_equal.
        f_equal. lia.
  - destruct (Z.ltb_spec 0 r) as [Hpos|Hzero].
    + rewrite (bind_ok _ _ _ _ _ (fwrite_append f c _ r w Hc ltac:(rewrite Hbuf; lia)
        ltac:(lia))).
      eexists. split_and_all; [reflexivity|apply path_of_store|].
      cbn. rewrite lookup_insert_eq, take_replicate. do 3 f_equal. lia.
    + exists (fs w). assert (r = 0) as -> by lia. cbn. rewrite app_nil_r.
      split_and_all; [|repeat split|done]. by destruct w.
Qed.

Lemma uuidgen_step p w :
  inv p w -> Z.of_nat (fresh w) < uuid_limit ->
  exists w1, uuidgen w = Ok (uuids w (fresh w), w1) /\ fs w1 = fs w /\
    blobMap w1 = blobMap w /\ inv p w1 /\ old w1 (uuids w (fresh w)) /\
    ~ old w (uuids w (fresh w)) /\ (forall id, old w id -> old w1 id) /\
    (forall id d, stored p w id d -> stored p w1 id d) /\
    config w1 = config w /\ map_value w (uuids w (fresh w)) = None /\
    fresh w1 = Datatypes.S (fresh w).
Proof.
  intros [(m & fp & Hm & Hf & Hmi & Hfp & Hfr) Hroot Hdeny Hinj Huu] Hu.
  eexists. split; [reflexivity|]. cbn.
  assert (Ho : forall id, old w id -> old (mkworld (fs w) (blobMap w) (config w) (clock w)
    (ticks w) (uuids w) (Datatypes.S (fresh w))) id).
  { intros id H n Hn Hl. cbn in *. apply H; lia. }
  split_and_all; try done.
  - split; cbn; try done. exists m, fp. split_and_all; try done.
    intros n Hn Hl. apply Hfr; lia.
  - intros n Hn Hl E. cbn in *. apply Hinj in E; lia.
  - intros H. by apply (H (fresh w)).
  - intros id d [S1 S2 S3 S4 S5]. split; auto.
  - unfold map_value. rewrite Hm. auto.
Qed.

Lemma zlen_metadata_sized n :
  zlen (Metadata.encode (Metadata.SetSize n Metadata.empty)) = 20.
Proof. unfold Metadata.encode. len_simpl. reflexivity. Qed.

Lemma metadata_sized_ok n : 0 <= n < 2 ^ 63 -> metadata_ok (Metadata.SetSize n Metadata.empty).
Proof.
  intros Hn. split; [|by rewrite zlen_metadata_sized].
  unfold Metadata.wf, in_u64. cbn [size blockSize partitions Metadata.SetSize Metadata.empty].
  split_and_all; [lia..|closed_range|apply Forall_nil_2].
Qed.

Lemma FileBlob_existing f id n w c :
  deny (fs w) f = false -> files (fs w) !! f = Some c ->
  FileBlob.FileBlob f id n w = Ok (FileBlob.mk (Some f) id n, w).
Proof.
  intros Hd Hc. unfold FileBlob.FileBlob, bind, gets, obind.
  by rewrite (FsFacts.fopen_existing_ok f (fs w) c Hd Hc).
Qed.

Lemma NewBlob_step p w n :
  inv p w -> 0 <= n <= limit (fs w) -> n < 2 ^ 63 -> map_room w NewBlob_cost ->
  exists b w', NewBlob p n w = Ok (Some b, w') /\
    store_step inv stored private p w w' (eq (FileBlob.Id b)) NewBlob_cost /\
    ~ old w (FileBlob.Id b) /\ FileBlob.Size b = n /\ opened p b /\
    stored p w' (FileBlob.Id b) (replicate (Z.to_nat n) 0) /\
    map_value w' (FileBlob.Id b)
      = Some (Metadata.encode (Metadata.SetSize n Metadata.empty)).
Proof.
  intros Hinv Hn Hn63 Hroom. set (id := uuids w (fresh w)).
  assert (Hu0 : Z.of_nat (fresh w) < uuid_limit)
    by (destruct Hroom as [_ Hu]; unfold NewBlob_cost in Hu; lia).
  destruct (uuidgen_step p w Hinv Hu0) as
    (w1 & E1 & Hfs1 & Hbm1 & Hinv1 & Hold1 & Hnold & Holds & Hst1 & Hcfg1 & Hnone & Hfr1).
  fold id in E1, Hold1, Hnold, Hnone.
  assert (Hid : id <> EmptyString) by apply (inv_uuid p w Hinv).
  assert (Hroom1 : forall k, map_room w (k + NewBlob_cost) -> map_room w1 (k + 20)).
  { intros k [(m & Em & Hr) Hu]. unfold NewBlob_cost in *.
    split; [|rewrite Hfr1; lia]. exists m. rewrite Hfs1, Hbm1. split; [done|].
    intros fp Hf. specialize (Hr fp Hf). lia. }
  assert (Hroom2 : map_room w1 (zlen (Metadata.encode (Metadata.SetSize n Metadata.empty)))).
  { rewrite zlen_metadata_sized. by apply (Hroom1 0). }
  destruct (SetMetadata_step p w1 id (Metadata.SetSize n Metadata.empty) Hinv1 Hold1 Hid
              (metadata_sized_ok n ltac:(lia)) Hroom2)
    as (w2 & E2 & Hs2 & Hv2 & _ & _ & _ & Hfiles2).
  rewrite zlen_metadata_sized in Hs2.
  pose proof (step_inv Hs2) as Hinv2.
  pose proof (step_limit Hs2) as Hlim2. rewrite Hfs1 in Hlim2.
  set (f := path p id) in *. set (w3 := set_fs (Fs.store f [] (fs w2)) w2).
  destruct (zero_fill_spec (Datatypes.S (Z.to_nat (n / BUFSIZ))) f [] n w3)
    as (s4 & E4 & Hp4 & Hc4); [cbn; by rewrite lookup_insert_eq|lia| |lia|].
  { change (zlen []) with 0. change (limit (fs w3)) with (limit (fs w2)). lia. }
  assert (Hp : path_of f (fs w2) s4)
    by (eapply path_of_trans; [apply path_of_store|exact Hp4]).
  destruct (blob_file_step p w2 id s4 Hinv2 Hp) as [Hs4 Hv4].
  exists (FileBlob.mk (Some f) id n), (set_fs s4 w2).
  split.
  - unfold NewBlob. rewrite (bind_ok _ _ _ _ _ E1). unfold bind at 1, gets at 1, obind at 1.
    unfold isFolderExist. rewrite Hfs1, bool_decide_eq_true_2 by apply Hinv. cbn [negb].
    destruct (inv_map _ _ Hinv) as (m & fp & Hm & _).
    unfold bind at 1, GetBlobMap, gets at 1, obind at 1. rewrite Hbm1, Hm.
    rewrite (bind_ok _ _ _ _ _ E2). unfold on_fs at 1, bind at 2, bind at 1.
    rewrite FsFacts.fopen_trunc_ok by apply Hinv2. cbn [obind]. fold f w3.
    change (zlen []) with 0 in E4. rewrite E4. cbn [obind].
    change (set_fs s4 w3) with (set_fs s4 w2).
    erewrite bind_ok; [reflexivity|].
    eapply FileBlob_existing; [|exact Hc4]. cbn. destruct Hp as (_ & -> & _). apply Hinv2.
  - assert (Hold4 : old (set_fs s4 w2) id).
    { apply (step_old Hs4), (step_old Hs2), Hold1. }
    pose proof (step_trans _ _ _ _ _ _ _ Hs2 Hs4) as [[A1 A2 A3 A4 A5 A6 A7] HQ].
    split_and_all; cbn [FileBlob.Id FileBlob.Size]; try done.
    + split; [split; auto|by eapply quiet_from].
      * intros k Hk. rewrite A3 by done. unfold map_value. by rewrite Hbm1, Hfs1.
      * congruence.
      * congruence.
    + split; [done|done|apply (inv_uuid p w Hinv)| |].
      * exists (Metadata.SetSize n Metadata.empty). rewrite Hv4, Hv2.
        split_and_all; [done|apply metadata_sized_ok; lia|].
        unfold zlen; cbn. rewrite length_replicate. lia.
      * exists []. cbn. by rewrite app_nil_r.
    + by rewrite Hv4.
Qed.

(** ** The other operations *)
Lemma GetMetadata_ok w id md m :
  blobMap w = Some m -> BlobMap.inv m (fs w) -> Metadata.wf md ->
  map_value w id = Some (Metadata.encode md) ->
  GetMetadata id Metadata.empty w = Ok ((true, md), w).
Proof.
  intros Hm Hmi Hwf Hv. unfold GetMetadata, map_value in *. rewrite Hm in *.
  by rewrite (BlobMapFacts.GetMetadata_stored id md m (fs w)).
Qed.

Lemma OpenBlob_ok p w id d :
  inv p w -> stored p w id d ->
  OpenBlob p id w = Ok (Some (FileBlob.mk (Some (path p id)) id (zlen d)), w).
Proof.
  intros Hinv [_ _ Hp (md & Hv & Hwf & Hsz) (c & Hc)].
  destruct (inv_map _ _ Hinv) as (m & fp & Hm & _ & Hmi & _).
  unfold OpenBlob. unfold bind at 1, GetBlobMap, gets, obind at 1. rewrite Hm.
  erewrite bind_ok by by eapply GetMetadata_ok. cbn [negb].
  unfold path_buffer. destruct (Z.ltb_spec (str_size (path p id)) PATH_MAX); [|lia].
  rewrite (bind_ok _ _ _ _ _ (eq_refl : ret (path p id) w = _)), Hsz.
  by rewrite (bind_ok _ _ _ _ _ (FileBlob_existing _ id (zlen d) w _ (inv_deny _ _ Hinv id) Hc)).
Qed.

Lemma OpenBlob_unknown p w id :
  inv p w -> map_value w id = None -> OpenBlob p id w = Ok (None, w).
Proof.
  intros Hinv Hv. destruct (inv_map _ _ Hinv) as (m & fp & Hm & _ & Hmi & _).
  unfold OpenBlob. unfold bind at 1, GetBlobMap, gets, obind at 1. rewrite Hm.
  unfold map_value in Hv. rewrite Hm in Hv.
  unfold GetMetadata, bind. rewrite Hm.
  by rewrite (BlobMapFacts.GetMetadata_absent id _ m (fs w) Hmi Hv).
Qed.

Lemma Read_ok p w b d off len :
  opened p b -> stored p w (FileBlob.Id b) d -> FileBlob.Size b = zlen d ->
  0 <= off -> 0 <= len ->
  FileBlob.Read b off len w = Ok (read_at d (Z.to_nat off) (Z.to_nat len), w).
Proof.
  intros Hop [_ _ _ _ (c & Hc)] Hsz Ho Hl. unfold FileBlob.Read. rewrite Hop, Hsz.
  destruct (Z.ltb_spec (zlen d) off) as [Hlt|Hle].
  { unfold ret. do 2 f_equal. unfold read_at, zlen in *. by rewrite drop_ge, take_nil by lia. }
  unfold bind, gets, ret, obind. do 2 f_equal. unfold Fs.fread, Fs.content. rewrite Hc.
  cbn [default id].
  assert (E : read_at (d ++ c) (Z.to_nat off) (Z.to_nat (Z.min len (zlen d - off)))
              = read_at d (Z.to_nat off) (Z.to_nat len)).
  { unfold read_at, zlen in *. rewrite drop_app_le by lia.
    rewrite take_app_le by (rewrite length_drop; lia).
    destruct (Z.le_ge_cases len (Z.of_nat (length d) - off)).
    - f_equal. lia.
    - rewrite !take_ge; rewrite ?length_drop; [done|lia..]. }
  change (default [] (Some (d ++ c))) with (d ++ c). rewrite E.
  unfold zlen. rewrite length_read_at. unfold zlen in Hle.
  match goal with |- _ ++ replicate ?k _ = _ => replace k with 0%nat by lia end. apply app_nil_r.
Qed.

Lemma write_at_prefix d c off data :
  (off + length data <= length d)%nat ->
  write_at (d ++ c) off data = write_at d off data ++ c.
Proof.
  intros H. unfold write_at. rewrite length_app.
  replace (off - (length d + length c))%nat with 0%nat by lia.
  replace (off - length d)%nat with 0%nat by lia. cbn. rewrite !app_nil_r.
  rewrite take_app_le, drop_app_le by lia. by rewrite <- !app_assoc.
Qed.

Lemma Write_ok p w b d off data len :
  inv p w -> opened p b -> stored p w (FileBlob.Id b) d -> FileBlob.Size b = zlen d ->
  0 <= off -> 0 <= len <= zlen data -> off + len <= zlen d <= limit (fs w) ->
  exists w', FileBlob.Write b off data len w = Ok (len, w') /\
    store_step inv stored private p w w' (eq (FileBlob.Id b)) 0 /\
    stored p w' (FileBlob.Id b) (write_at d (Z.to_nat off) (take (Z.to_nat len) data)) /\
    (forall id, map_value w' id = map_value w id).
Proof.
  intros Hinv Hop [S1 S2 S3 (md & S4) (c & Hc)] Hsz Ho Hlen Hl.
  pose proof (zlen_nonneg c).
  set (f := path p (FileBlob.Id b)) in *. set (data' := take (Z.to_nat len) data).
  assert (Hd' : zlen data' = len).
  { unfold data', zlen in *. rewrite length_take. lia. }
  set (s' := Fs.store f (write_at d (Z.to_nat off) data' ++ c) (fs w)).
  destruct (blob_file_step p w (FileBlob.Id b) s' Hinv (path_of_store _ _ _)) as [Hs Hv].
  exists (set_fs s' w). split_and_all; [|done| |done].
  - unfold FileBlob.Write. rewrite Hop. fold f. destruct (Z.ltb_spec (FileBlob.Size b) off); [lia|].
    unfold bind at 1, gets at 1, obind at 1.
    assert (Hfs : Fs.fsize f (fs w) = zlen d + zlen c).
    { unfold Fs.fsize, Fs.content. rewrite Hc.
      change (default [] (Some (d ++ c))) with (d ++ c). by rewrite zlen_app. }
    rewrite Hfs. destruct (Z.ltb_spec (zlen d + zlen c) off); [lia|].
    rewrite (bind_ok _ _ _ _ _ (eq_refl : ret off w = _)).
    rewrite Z.min_l by lia. unfold on_fs.
    rewrite (FsFacts.fwrite_prefix _ _ _ _ _ (d ++ c)) by (done || lia). cbn [obind].
    unfold s'. rewrite <- write_at_prefix; [done|]. unfold zlen in *. lia.
  - split; [done|done|done| |].
    + exists md. rewrite Hv. destruct S4 as (? & ? & Hm). split_and_all; [done|done|].
      rewrite Hm. unfold zlen in *. rewrite length_write_at. lia.
    + exists c. unfold s'; cbn. by rewrite lookup_insert_eq.
Qed.

Lemma DeleteBlob_ok p w id d :
  inv p w -> stored p w id d ->
  exists w', DeleteBlob p id w = Ok (tt, w') /\
    store_step inv stored private p w w' (eq id) 0 /\
    (forall id', map_value w' id' = map_value w id').
Proof.
  intros Hinv [_ _ Hp _ _].
  destruct (blob_file_step p w id _ Hinv (path_of_unlink _ _)) as [Hs Hv].
  eexists. split_and_all; [|exact Hs|exact Hv].
  unfold DeleteBlob, path_buffer. destruct (Z.ltb_spec (str_size (path p id)) PATH_MAX); [|lia].
  done.
Qed.

#[export] Instance FileBlobProvider_Laws : BlobProviderLaws FileBlobProvider.t FileBlob.t.
Proof.
  unshelve econstructor; [exact inv|exact stored|exact opened|exact private|..].
  - intros p w [(m & fp & Hm & _ & Hmi & _) _ _ _ _]. eauto.
  - intros p w id d [S1 S2 S3 S4 S5]. auto.
  - intros p w w' E1 E2 E3 E4. split_and_all.
    + intros [H1 H2 H3 H4 H5]. split; rewrite ?E1, ?E2, ?E3, ?E4; done.
    + intros id d [S1 S2 S3 S4 S5]. split; [|done|done| |].
      * unfold old in *. by rewrite E3, E4.
      * unfold map_value in *. by rewrite E1, E2.
      * by rewrite E1.
    + intros q. unfold private. by rewrite E2.
  - intros p w q d Hinv Hq. eapply core_weaken; [apply file_step| |lia].
    + done.
    + apply path_of_store.
    + intros m Hm E. apply Hq. right. eauto.
    + cbn. intros id ->. apply Hq. left. eauto.
  - intros p w id md H1 H2 H3 H4 H5.
    destruct (SetMetadata_step p w id md) as (w' & E & A & B & C & _); eauto 10.
  - intros p w n H1 H2 H3 H4.
    destruct (NewBlob_step p w n) as (b & w' & E & A & B & C & D & F & G); [done..|].
    exists b, w'. split_and_all; try done. destruct F as [_ _ F _ _].
    unfold path, PATH_MAX in F. rewrite !str_size_app in F.
    pose proof (str_size_nonneg (rootPath p)). cbn [blob_Id FileBlobProvider_BlobProvider].
    pose proof (str_size_nonneg (FileBlob.Id b)). change (str_size "/") with 1 in F. lia.
  - intros p w id d H1 H2. eexists. split; [by apply OpenBlob_ok|]. done.
  - apply OpenBlob_unknown.
  - intros p w b d off len _ H2 H3 H4 H5 H6. by eapply Read_ok.
  - apply Write_ok.
  - apply DeleteBlob_ok.
Defined.

(** ** Start-up establishes the invariant *)
Record uuid_source (p : t) (w : world) : Prop := {
  uuid_distinct i j : Z.of_nat i < uuid_limit -> Z.of_nat j < uuid_limit ->
    uuids w i = uuids w j -> i = j;
  uuid_path n : uuids w n <> EmptyString /\ str_size (path p (uuids w n)) < PATH_MAX
}.
Definition startup (root map : string) : M world (t * bool) :=
  p <- FileBlobProvider (Some root) ;;
  ok <- InitializeBlobMap map ;;
  ret (p, ok).

Lemma startup_inv root map w :
  root <> "."%string -> map <> EmptyString -> deny (fs w) map = false ->
  (forall id, path (mk root) id <> map) ->
  (forall id, deny (fs w) (path (mk root) id) = false) ->
  uuid_source (mk root) w -> blobMap w = None ->
  exists w', startup root map w = Ok ((mk root, true), w') /\ inv (mk root) w' /\
    limit (fs w') = limit (fs w) /\ config w' = config w /\
    (forall n, n <= limit (fs w) -> Z.of_nat (fresh w) + n <= uuid_limit -> map_room w' n).
Proof.
  intros Hroot Hmap Hd Hpath Hden [Hinj Huu] Hbm.
  set (s1 := Fs.mkdir root (fs w)).
  destruct (BlobMapFacts.Initialize_ok map s1 Hmap Hd)
    as (m & s2 & E & Hinv & -> & Hf & _ & Hnone).
  exists (set_blobMap m (Fs.store map [] s1) (set_fs s1 w)). split_and_all; try done.
  - unfold startup, FileBlobProvider, bind; cbn [default id obind].
    change (default "."%string (Some root)) with root.
    apply String.eqb_neq in Hroot. rewrite Hroot. cbn [on_fs obind ret].
    unfold InitializeBlobMap. cbn [fs set_fs blobMap]. fold s1. by rewrite Hbm, E.
  - split; try done.
    + exists m, map. split_and_all; try done.
    + cbn. by apply elem_of_union_l, elem_of_singleton.
  - intros n Hn Hun. split; [|done]. exists m. split; [done|]. intros fp Hfp.
    assert (fp = map) as -> by congruence. cbn.
    unfold Fs.fsize. rewrite FsFacts.content_store_eq. exact Hn.
Qed.

(** a concrete process, for the examples *)
Definition sample_uuid (n : nat) : string :=
  string_of_bytes (117 :: le_split 8 (Z.of_nat n)).
Definition sample_start : world :=
  mkworld (mkfs ∅ ∅ (fun _ => false) (2 ^ 40)) None
    (BlobConfig.mk 64 2 2 (Some EmptyString)) (fun n => 1000 + Z.of_nat n) 0 sample_uuid 0.
Definition sample_provider : t := mk "blobs".
Definition run {W A} (m : M W A) (w : W) : W :=
  match m w with Ok (_, w') => w' | _ => w end.
Definition sample_world : world := run (startup "blobs" "map") sample_start.

Lemma sample_uuid_source : uuid_source sample_provider sample_start.
Proof.
  split.
  - intros i j Hi Hj E. apply (f_equal bytes_of_string) in E. cbn [uuids sample_start] in E.
    unfold sample_uuid, uuid_limit in *.
    rewrite !bytes_of_string_of_bytes in E
      by (apply Forall_cons_2; [closed_range|apply le_split_bytes]).
    apply (f_equal (fun l => le_combine (tl l))) in E. cbn [tl] in E.
    rewrite !le_combine_split in E. rewrite !Z.mod_small in E; lia.
  - intros n. split; [discriminate|].
    unfold path. rewrite !str_size_app. cbn [uuids sample_start]. unfold sample_uuid.
    rewrite <- (zlen_bytes_of_string (string_of_bytes _)), bytes_of_string_of_bytes
      by (apply Forall_cons_2; [closed_range|apply le_split_bytes]).
    reflexivity.
Qed.

Lemma sample_inv :
  inv sample_provider sample_world /\
  forall n, n <= 2 ^ 40 -> map_room sample_world n.
Proof.
  destruct (startup_inv "blobs" "map" sample_start) as (w' & E & Hinv & _ & _ & Hroom).
  - discriminate.
  - discriminate.
  - reflexivity.
  - discriminate.
  - reflexivity.
  - apply sample_uuid_source.
  - reflexivity.
  - assert (sample_world = w') as ->.
    { unfold sample_world, run. by rewrite E. }
    split; [exact Hinv|]. intros n Hn. apply Hroom; cbn; unfold uuid_limit; lia.
Qed.

(** ** Properties *)
Definition write_then_reopen (p : t) (n off : Z) (data : list Z) : M world (option (Z * list Z)) :=
  b <- NewBlob p n ;;
  match b with
  | None => ret None
  | Some b =>
      k <- FileBlob.Write b off data (zlen data) ;;
      c <- OpenBlob p (FileBlob.Id b) ;;
      match c with
      | None => ret None
      | Some c => r <- FileBlob.Read c 0 n ;; ret (Some (k, r))
      end
  end.

(** File-system blob store: a new blob of [n] bytes can be written inside
    its size and read back after reopening it by id; the bytes outside the
    written range are zeros, all the data was written, and every blob that was
    stored before still has the contents it had. *)
Theorem file_store_read_after_write (p : t) (w : world) (n off : Z) (data : list Z) :
  inv p w -> 0 <= off -> off + zlen data <= n -> n <= limit (fs w) -> n < 2 ^ 63 ->
  map_room w NewBlob_cost ->
  exists w', write_then_reopen p n off data w
      = Ok (Some (zlen data, write_at (replicate (Z.to_nat n) 0) (Z.to_nat off) data), w') /\
    inv p w' /\ forall id d, stored p w id d -> stored p w' id d.
Proof.
  intros Hinv Ho Hn Hl H63 Hroom. pose proof (zlen_nonneg data) as Hdz.
  destruct (NewBlob_step p w n Hinv ltac:(lia) H63 Hroom)
    as (b & w1 & E1 & Hs1 & Hnew & Hsz & Hop & Hst & Hv1).
  pose proof (step_inv Hs1) as Hinv1.
  pose proof (step_limit Hs1) as Hl1.
  assert (Hz : zlen (replicate (Z.to_nat n) 0) = n)
    by (unfold zlen; rewrite length_replicate; lia).
  destruct (Write_ok p w1 b _ off data (zlen data) Hinv1 Hop Hst)
    as (w2 & E2 & Hs2 & Hst2 & Hv2); [by rewrite Hz|done|lia|rewrite Hz, Hl1; lia|].
  unfold zlen in Hst2 at 1. rewrite Nat2Z.id, take_ge in Hst2 by lia.
  pose proof (step_inv Hs2) as Hinv2.
  assert (Hz2 : zlen (write_at (replicate (Z.to_nat n) 0) (Z.to_nat off) data) = n).
  { unfold zlen in *. rewrite length_write_at. rewrite length_replicate in *. lia. }
  exists w2. split_and_all; [|done|].
  - unfold write_then_reopen. rewrite (bind_ok _ _ _ _ _ E1), (bind_ok _ _ _ _ _ E2).
    rewrite (bind_ok _ _ _ _ _ (OpenBlob_ok _ _ _ _ Hinv2 Hst2)).
    erewrite bind_ok; [|eapply (Read_ok p); [done|exact Hst2|done|lia|lia]].
    rewrite read_at_all; [done|]. unfold zlen in Hz2. lia.
  - intros id d Hid. assert (FileBlob.Id b <> id) as Hne.
    { intros <-. by apply Hnew, Hid. }
    apply (step_stored Hs2); [done|].
    by apply (step_stored Hs1).
Qed.

Lemma file_store_read_after_write_witness :
  exists w', write_then_reopen sample_provider 10 3 [7; 8] sample_world
      = Ok (Some (2, [0; 0; 0; 7; 8; 0; 0; 0; 0; 0]), w') /\
    inv sample_provider w' /\
    forall id d, stored sample_provider sample_world id d -> stored sample_provider w' id d.
Proof.
  apply (file_store_read_after_write sample_provider sample_world 10 3 [7; 8]).
  - apply sample_inv.
  - lia.
  - reflexivity || (vm_compute; discriminate).
  - vm_compute. discriminate.
  - reflexivity.
  - apply sample_inv. vm_compute. discriminate.
Defined.

(** [FileBlob::Read] never returns bytes past the blob's size, whatever the
    file holds: inside the size it returns exactly [min(len, Size - offset)]
    bytes, the file's bytes followed by zeros where the file is shorter. *)
Theorem file_blob_read_clipped (b : FileBlob.t) (f : string) (off len : Z) (w : world) :
  FileBlob.fp b = Some f -> 0 <= off <= FileBlob.Size b -> 0 <= len ->
  let n := Z.to_nat (Z.min len (FileBlob.Size b - off)) in
  let d := read_at (Fs.content f (fs w)) (Z.to_nat off) n in
  FileBlob.Read b off len w = Ok (d ++ replicate (n - length d) 0, w) /\
  length (d ++ replicate (n - length d) 0) = n.
Proof.
  intros Hf Ho Hl n d. split.
  - unfold FileBlob.Read. rewrite Hf. destruct (Z.ltb_spec (FileBlob.Size b) off); [lia|].
    unfold bind, gets, ret, obind, Fs.fread. fold n d. do 3 f_equal.
    unfold zlen, n. f_equal. lia.
  - rewrite length_app, length_replicate. unfold d. rewrite length_read_at. lia.
Qed.

Lemma file_blob_read_clipped_witness :
  let b := FileBlob.mk (Some "f"%string) "f" 4 in
  FileBlob.Read b 1 9 sample_world = Ok ([0; 0; 0], sample_world) /\ length [0; 0; 0] = 3%nat.
Proof.
  cbv zeta. apply (file_blob_read_clipped (FileBlob.mk (Some "f"%string) "f" 4) "f" 1 9 sample_world).
  - reflexivity.
  - cbn. lia.
  - lia.
Defined.

(** [FileBlob::Write] at an offset beyond the end of the file is undefined
    behaviour: the gap is filled with one [fwrite] of [fileSize - offset] bytes, a
    negative number taken as unsigned, from a one-byte variable. *)
Theorem file_blob_gap_write_faults (b : FileBlob.t) (f : string) (off len : Z)
  (data : list Z) (w : world) :
  FileBlob.fp b = Some f -> Fs.fsize f (fs w) < off <= FileBlob.Size b ->
  off < 2 ^ 63 -> FileBlob.Write b off data len w = Fault OutOfBounds.
Proof.
  intros Hf Ho H63. unfold FileBlob.Write. rewrite Hf.
  destruct (Z.ltb_spec (FileBlob.Size b) off); [lia|].
  unfold bind at 1, gets at 1, obind at 1. destruct (Z.ltb_spec (Fs.fsize f (fs w)) off); [|lia].
  unfold bind, on_fs, Fs.fwrite. pose proof (FsFacts.fsize_nonneg f (fs w)).
  assert (E : u64 (Fs.fsize f (fs w) - off) = 2 ^ 64 + (Fs.fsize f (fs w) - off)).
  { unfold u64. rewrite <- (Z_mod_plus_full _ 1), Z.mod_small; lia. }
  rewrite E. change (zlen [0]) with 1.
  destruct (Z.ltb_spec 1 (2 ^ 64 + (Fs.fsize f (fs w) - off))); [done|lia].
Qed.

(** such a handle is what [OpenBlob] returns after [DeleteBlob] *)
Definition deleted_then_opened : M world (option FileBlob.t) :=
  b <- NewBlob sample_provider 10 ;;
  match b with
  | None => ret None
  | Some b =>
      DeleteBlob sample_provider (FileBlob.Id b) ;;; OpenBlob sample_provider (FileBlob.Id b)
  end.
Lemma file_blob_gap_write_faults_witness :
  exists b w, deleted_then_opened sample_world = Ok (Some b, w) /\
    FileBlob.Write b 5 [1] 1 w = Fault OutOfBounds.
Proof.
  eexists _, _. split; [vm_compute; reflexivity|].
  apply (file_blob_gap_write_faults _ (path sample_provider (sample_uuid 0))).
  - reflexivity.
  - vm_compute. split; [reflexivity|discriminate].
  - reflexivity.
Defined.
