(* ===== verification/Paths.v ===== *)
(** * Paths and patterns (src/src/bdblob/BlobApi.cpp: SplitPath, JoinPaths,
      BaseName, matchPattern)

    The scanners of the file API, with a declarative reading of each: a path is
    the fold of its components, a pattern is the usual glob relation. *)

From Stdlib Require Import ZArith Lia Bool Ascii String.
From stdpp Require Import base list gmap strings.
From S2P Require Import Prelude.
Set Default Goal Selector "!".
Local Open Scope drive_scope.

(** ** The code *)
Definition is_delim (c : ascii) : bool := Ascii.eqb c "/" || Ascii.eqb c "\".

(** [path.find_first_of("/\\", offset)] with [npos] replaced by the size *)
Fixpoint find_first_delim (s : string) : nat :=
  match s with
  | EmptyString => O
  | String c s' => if is_delim c then O else Datatypes.S (find_first_delim s')
  end.
Definition str_drop (n : nat) (s : string) : string := substring n (String.length s - n) s.

Definition starts_with_delim (path : string) : bool :=
  match path with String c _ => is_delim c | EmptyString => false end.

(** one component, as the loop body of [SplitPath] adds it *)
Definition push (result : list string) (name : string) : list string :=
  if String.eqb name ".." && (0 <? length result)%nat then removelast result
  else if negb (String.eqb name ".") then result ++ [name]
  else result.

Fixpoint split_loop (fuel : nat) (path : string) (offset : nat) (result : list string)
  : outcome (list string) :=
  match fuel with
  | O => OutOfFuel
  | Datatypes.S fuel =>
      if (offset <? String.length path)%nat then
        let end_ := (offset + find_first_delim (str_drop offset path))%nat in
        let result' :=
          if (offset <? end_)%nat then push result (substring offset (end_ - offset) path)
          else result in
        split_loop fuel path (end_ + 1) result'
      else Ok result
  end.
Definition SplitPath (path : string) : outcome (list string) :=
  if empty_str path then Ok []
  else split_loop (Datatypes.S (String.length path)) path
         (if starts_with_delim path then 1 else 0) [].

(** [len] defaults to the largest [size_t] *)
Definition JoinPaths_range (parts : list string) (offset len : nat) : string :=
  fold_left (fun ss i => (ss ++ "/" ++ nth i parts "")%string)
    (seq offset (Nat.min len (length parts) - offset)) EmptyString.
Definition JoinPaths (parts : list string) : string :=
  JoinPaths_range parts 0 (length parts).

(** [path.find_last_of("/\\")] *)
Fixpoint find_last_delim (s : string) : option nat :=
  match s with
  | EmptyString => None
  | String c s' =>
      match find_last_delim s' with
      | Some n => Some (Datatypes.S n)
      | None => if is_delim c then Some O else None
      end
  end.
Definition BaseName (path : string) : string :=
  match find_last_delim path with
  | Some offset =>
      if (offset =? String.length path - 1)%nat then EmptyString
      else str_drop (offset + 1) path
  | None => path
  end.

(** [path.find_first_of("*?") != npos] *)
Fixpoint has_wildcard (s : string) : bool :=
  match s with
  | EmptyString => false
  | String c s' => Ascii.eqb c "*" || Ascii.eqb c "?" || has_wildcard s'
  end.

(** [haystack + i] for [i < strlen(haystack)] *)
Fixpoint nonempty_suffixes (h : list ascii) : list (list ascii) :=
  match h with
  | [] => []
  | _ :: h' => h :: nonempty_suffixes h'
  end.
Fixpoint matchPattern (needle haystack : list ascii) : bool :=
  match needle with
  | [] => match haystack with [] => true | _ => false end
  | c :: needle' =>
      if Ascii.eqb c "?" then
        match haystack with [] => false | _ :: h' => matchPattern needle' h' end
      else if Ascii.eqb c "*" then
        match needle' with
        | [] => true
        | _ => existsb (matchPattern needle') (nonempty_suffixes haystack)
        end
      else
        match haystack with
        | [] => false
        | d :: h' => Ascii.eqb d c && matchPattern needle' h'
        end
  end.
(** [c_str()]: up to the first NUL *)
Fixpoint c_str (s : string) : list ascii :=
  match s with
  | EmptyString => []
  | String c s' => if Ascii.eqb c "000" then [] else c :: c_str s'
  end.
Definition PatternMatch (pattern target : string) : bool :=
  matchPattern (c_str pattern) (c_str target).

(** ** Declarative readings *)
(** the text between delimiters, in order *)
Fixpoint tokens (s : string) : string * list string :=
  match s with
  | EmptyString => (EmptyString, [])
  | String c s' =>
      let '(t, ts) := tokens s' in
      if is_delim c then (EmptyString, t :: ts) else (String c t, ts)
  end.
Definition nonempty (s : string) : bool := negb (empty_str s).
Definition components (s : string) : list string :=
  let '(t, ts) := tokens s in List.filter nonempty (t :: ts).

Fixpoint no_delim (s : string) : bool :=
  match s with
  | EmptyString => true
  | String c s' => negb (is_delim c) && no_delim s'
  end.
Definition component_ok (name : string) : Prop :=
  name <> EmptyString /\ name <> "."%string /\ no_delim name = true.
(** what [SplitPath] returns: [..] can only be the first component *)
Definition normal (parts : list string) : Prop :=
  Forall component_ok parts /\ ~ In ".."%string (tail parts).

(** the glob relation *)
Inductive glob : list ascii -> list ascii -> Prop :=
| glob_nil : glob [] []
| glob_any n d h : glob n h -> glob ("?"%char :: n) (d :: h)
| glob_star n pre h : glob n h -> glob ("*"%char :: n) (pre ++ h)
| glob_char c n h : c <> "?"%char -> c <> "*"%char -> glob n h -> glob (c :: n) (c :: h).
Fixpoint no_double_star (n : list ascii) : bool :=
  match n with
  | [] => true
  | c :: n' =>
      match n' with
      | d :: _ => negb (Ascii.eqb c "*" && Ascii.eqb d "*") && no_double_star n'
      | [] => true
      end
  end.

(** ** Strings *)
Lemma str_drop_0 s : str_drop 0 s = s.
Proof.
  unfold str_drop. rewrite Nat.sub_0_r. induction s as [|c s IH]; cbn; [done|]. by rewrite IH.
Qed.
Lemma str_drop_S n c s : str_drop (S n) (String c s) = str_drop n s.
Proof. done. Qed.
Lemma str_drop_all s n : String.length s <= n -> str_drop n s = EmptyString.
Proof.
  unfold str_drop. intros H. replace (String.length s - n) with 0 by lia.
  revert n H. induction s as [|c s IH]; intros [|n] H; cbn in *; try done.
  apply IH. lia.
Qed.
Lemma length_str_drop n s : String.length (str_drop n s) = String.length s - n.
Proof.
  revert n. induction s as [|c s IH]; intros [|n]; try done.
  - by rewrite str_drop_0, Nat.sub_0_r.
  - rewrite str_drop_S, IH. done.
Qed.
Lemma str_drop_drop n m s : str_drop m (str_drop n s) = str_drop (n + m) s.
Proof.
  revert n. induction s as [|c s IH]; intros [|n]; try (by rewrite str_drop_0).
  - by rewrite !str_drop_all by (cbn; lia).
  - rewrite str_drop_S. apply IH.
Qed.
Lemma substring_drop n m s : substring n m s = substring 0 m (str_drop n s).
Proof.
  revert n. induction s as [|c s IH]; intros [|n].
  - by rewrite str_drop_0.
  - destruct m; by rewrite str_drop_all by (cbn; lia).
  - by rewrite str_drop_0.
  - rewrite str_drop_S. apply IH.
Qed.

Lemma tokens_drop s :
  tokens s = (substring 0 (find_first_delim s) s,
    if (find_first_delim s <? String.length s)%nat
    then let '(t, ts) := tokens (str_drop (find_first_delim s + 1) s) in t :: ts
    else []).
Proof.
  induction s as [|c s IH]; [done|]. cbn [tokens find_first_delim].
  destruct (is_delim c) eqn:E.
  - change (0 + 1) with 1. rewrite str_drop_S, str_drop_0. cbn.
    destruct (tokens s). done.
  - rewrite IH. cbn [String.length]. change (S (find_first_delim s) + 1)
      with (S (find_first_delim s + 1)). rewrite str_drop_S. done.
Qed.

Lemma find_first_delim_le s : find_first_delim s <= String.length s.
Proof. induction s as [|c s IH]; cbn; [lia|]. destruct (is_delim c); lia. Qed.

Lemma empty_str_length s : empty_str s = (String.length s =? 0)%nat.
Proof. by destruct s. Qed.
Lemma length_substring0 n s : n <= String.length s -> String.length (substring 0 n s) = n.
Proof.
  revert n. induction s as [|c s IH]; intros [|n] H; cbn in *; try lia.
  rewrite IH; lia.
Qed.

(** ** [SplitPath] is the fold of the components *)
Lemma split_loop_spec fuel path offset result :
  String.length path - offset < fuel ->
  split_loop fuel path offset result
    = Ok (fold_left push (components (str_drop offset path)) result).
Proof.
  revert offset result. induction fuel as [|fuel IH]; intros offset result Hf; [lia|].
  cbn [split_loop]. destruct (Nat.ltb_spec offset (String.length path)) as [Hlt|Hge].
  2:{ by rewrite str_drop_all by lia. }
  set (r := str_drop offset path) in *.
  assert (Hr : String.length r = String.length path - offset) by apply length_str_drop.
  rewrite IH by lia. f_equal. unfold components at 2. rewrite (tokens_drop r).
  pose proof (find_first_delim_le r) as Hle. set (k := find_first_delim r) in *.
  assert (Hsub : substring offset (offset + k - offset) path = substring 0 k r).
  { replace (offset + k - offset) with k by lia. apply substring_drop. }
  rewrite Hsub.
  assert (Hfst : forall l, fold_left push (List.filter nonempty (substring 0 k r :: l)) result
     = fold_left push (List.filter nonempty l)
         (if offset <? offset + k then push result (substring 0 k r) else result)).
  { intros l. cbn [List.filter]. unfold nonempty at 1. rewrite empty_str_length.
    rewrite length_substring0 by done.
    destruct (Nat.ltb_spec offset (offset + k)), (Nat.eqb_spec k 0); try lia; done. }
  rewrite Hfst. f_equal.
  replace (offset + k + 1) with (offset + (k + 1)) by lia. rewrite <- str_drop_drop.
  fold r. destruct (Nat.ltb_spec k (String.length r)) as [Hk|Hk].
  - unfold components. by destruct (tokens (str_drop (k + 1) r)).
  - by rewrite str_drop_all by lia.
Qed.

Lemma components_delim c s : is_delim c = true -> components (String c s) = components s.
Proof.
  intros H. unfold components. cbn [tokens]. destruct (tokens s) as [t ts]. rewrite H. done.
Qed.

Lemma SplitPath_components path :
  SplitPath path = Ok (fold_left push (components path) []).
Proof.
  unfold SplitPath. destruct path as [|c s]; [done|]. cbn [empty_str starts_with_delim].
  rewrite split_loop_spec by (destruct (is_delim c); cbn; lia).
  destruct (is_delim c) eqn:E; [|by rewrite str_drop_0].
  change 1 with (S 0). by rewrite str_drop_S, str_drop_0, components_delim.
Qed.

(** ** Normal form *)
Lemma tokens_no_delim s :
  let '(t, ts) := tokens s in Forall (fun x => no_delim x = true) (t :: ts).
Proof.
  induction s as [|c s IH]; cbn [tokens]; [by repeat constructor|].
  destruct (tokens s) as [t ts]. destruct (is_delim c) eqn:E.
  - by apply Forall_cons_2.
  - apply Forall_cons in IH as [Ht Hts]. apply Forall_cons_2; [|done].
    cbn. by rewrite E.
Qed.

Lemma components_ok s :
  Forall (fun x => x <> EmptyString /\ no_delim x = true) (components s).
Proof.
  unfold components. pose proof (tokens_no_delim s) as H. destruct (tokens s) as [t ts].
  rewrite Forall_forall in H |- *. intros x Hx. apply list_elem_of_In in Hx.
  apply filter_In in Hx as [Hin Hne].
  split; [by intros ->|]. apply H. by apply list_elem_of_In.
Qed.

Lemma in_removelast {A} (x : A) l : In x (removelast l) -> In x l.
Proof.
  induction l as [|a l IH]; [done|]. destruct l as [|b l]; [done|].
  change (removelast (a :: b :: l)) with (a :: removelast (b :: l)).
  intros [->|H]; [by left|right; auto].
Qed.

Lemma normal_push r name :
  normal r -> name <> EmptyString -> no_delim name = true -> normal (push r name).
Proof.
  intros [Hr Ht] Hne Hnd. unfold push.
  destruct (String.eqb_spec name "..") as [->|Hdd]; cbn [andb].
  - destruct r as [|a r].
    { cbn. split; [by repeat constructor|]. auto. }
    cbn [length Nat.ltb Nat.leb]. split.
    + rewrite Forall_forall in *. intros x Hx. apply Hr.
      apply list_elem_of_In, in_removelast. by apply list_elem_of_In.
    + destruct r as [|b r]; [auto|].
      change (removelast (a :: b :: r)) with (a :: removelast (b :: r)). cbn [tail].
      intros Hx. by apply in_removelast in Hx.
  - destruct (String.eqb_spec name ".") as [->|Hd]; [done|]. cbn [negb]. split.
    + apply Forall_app. split; [done|]. by repeat constructor.
    + destruct r as [|a r]; [auto|]. cbn [tail app]. rewrite in_app_iff.
      intros [H|[H|[]]]; [done|]. by subst.
Qed.

Lemma normal_fold cs r :
  Forall (fun x => x <> EmptyString /\ no_delim x = true) cs -> normal r ->
  normal (fold_left push cs r).
Proof.
  revert r. induction cs as [|c cs IH]; intros r Hcs Hr; [done|].
  apply Forall_cons in Hcs as [[H1 H2] Hcs]. apply IH; [done|]. by apply normal_push.
Qed.

Lemma fold_push_normal ps r :
  normal (r ++ ps) -> fold_left push ps r = r ++ ps.
Proof.
  revert r. induction ps as [|x ps IH]; intros r Hn; [by rewrite app_nil_r|].
  cbn [fold_left]. assert (E : push r x = r ++ [x]).
  { destruct Hn as [Ha Ht]. apply Forall_app in Ha as [_ Ha].
    apply Forall_cons in Ha as [(H1 & H2 & H3) _]. unfold push.
    destruct (String.eqb_spec x "..") as [->|Hdd]; cbn [andb].
    - destruct r as [|a r]; [done|]. exfalso. apply Ht. cbn [tail app].
      apply in_app_iff. right. by left.
    - apply String.eqb_neq in H2. by rewrite H2. }
  rewrite E. replace (r ++ x :: ps) with ((r ++ [x]) ++ ps) in * by (by rewrite <- app_assoc).
  by apply IH.
Qed.

(** ** [JoinPaths] *)
Fixpoint join (parts : list string) : string :=
  match parts with
  | [] => EmptyString
  | x :: ps => String "/" (x +:+ join ps)
  end.

Lemma JoinPaths_join parts : JoinPaths parts = join parts.
Proof.
  unfold JoinPaths, JoinPaths_range. rewrite Nat.min_id, Nat.sub_0_r.
  enough (H : forall pre acc,
    fold_left (fun ss i => ss +:+ ("/" +:+ nth i (pre ++ parts) "")) (seq (length pre) (length parts))
      acc = acc +:+ join parts) by apply (H [] EmptyString).
  induction parts as [|x ps IH]; intros pre acc; [by rewrite append_nil_r|].
  cbn [length seq fold_left]. rewrite app_nth2, Nat.sub_diag by lia. cbn [nth].
  specialize (IH (pre ++ [x]) (acc +:+ ("/" +:+ x))).
  rewrite length_app, Nat.add_comm in IH. cbn [length Nat.add] in IH.
  rewrite <- app_assoc in IH. cbn [app] in IH. rewrite IH.
  rewrite append_assoc. done.
Qed.

Lemma tokens_append x s :
  no_delim x = true ->
  tokens (x +:+ String "/" s) = (x, let '(t, ts) := tokens s in t :: ts).
Proof.
  induction x as [|c x IH]; intros H.
  - change ("" +:+ String "/" s) with (String "/" s). cbn. by destruct (tokens s).
  - cbn in H. apply andb_true_iff in H as [H1 H2]. apply negb_true_iff in H1.
    change (String c x +:+ String "/" s) with (String c (x +:+ String "/" s)).
    cbn [tokens]. rewrite IH by done. by rewrite H1.
Qed.
Lemma tokens_plain x : no_delim x = true -> tokens x = (x, []).
Proof.
  induction x as [|c x IH]; [done|]. cbn. intros H. apply andb_true_iff in H as [H1 H2].
  apply negb_true_iff in H1. by rewrite IH, H1.
Qed.

Lemma components_join ps : Forall component_ok ps -> components (join ps) = ps.
Proof.
  destruct ps as [|x ps]; intros H; [done|].
  cbn [join]. rewrite components_delim by done. revert x H.
  induction ps as [|y ps IH]; intros x H; apply Forall_cons in H as [(H1 & _ & H3) Hps].
  - cbn [join]. rewrite append_nil_r. unfold components. rewrite tokens_plain by done.
    cbn. by destruct x.
  - cbn [join]. specialize (IH y Hps). unfold components in *.
    rewrite tokens_append by done. destruct (tokens (y +:+ join ps)) as [t ts].
    cbn [List.filter] in *. unfold nonempty at 1. destruct x; [done|]. cbn [empty_str negb].
    f_equal. exact IH.
Qed.

(** ** Patterns *)
Lemma nonempty_suffixes_in x h :
  In x (nonempty_suffixes h) <-> x <> [] /\ exists pre, h = pre ++ x.
Proof.
  induction h as [|c h IH]; cbn.
  - split; [done|]. intros (Hx & pre & E). symmetry in E. apply app_nil in E. by destruct E.
  - rewrite IH. split.
    + intros [<-|(Hx & pre & ->)]; [split; [done|by exists []]|].
      split; [done|]. by exists (c :: pre).
    + intros (Hx & [|d pre] & E).
      * left. done.
      * right. injection E as -> ->. eauto.
Qed.

Lemma matchPattern_sound n h : matchPattern n h = true -> glob n h.
Proof.
  revert h. induction n as [|c n IH]; intros h; cbn [matchPattern].
  - destruct h; [constructor|done].
  - destruct (Ascii.eqb_spec c "?") as [->|Hq].
    { destruct h as [|d h]; [done|]. intros H. constructor. auto. }
    destruct (Ascii.eqb_spec c "*") as [->|Hs].
    + destruct n as [|c' n].
      * intros _. rewrite <- (app_nil_r h). constructor. constructor.
      * rewrite existsb_exists. intros (x & Hx & Hm).
        apply nonempty_suffixes_in in Hx as (_ & pre & ->). constructor. auto.
    + destruct h as [|d h]; [done|]. rewrite andb_true_iff. intros [Hd Hm].
      apply Ascii.eqb_eq in Hd as ->. constructor; auto.
Qed.

Lemma glob_nil_inv n : glob n [] -> match n with [] => True | c :: _ => c = "*"%char end.
Proof. intros H. inversion H; subst; done. Qed.

Lemma no_double_star_tail c n : no_double_star (c :: n) = true -> no_double_star n = true.
Proof. destruct n; [done|]. cbn. rewrite andb_true_iff. by intros [_ H]. Qed.

Lemma matchPattern_complete n h :
  no_double_star n = true -> glob n h -> matchPattern n h = true.
Proof.
  intros Hn H. revert Hn. induction H as [|n d h H IH|n pre h H IH|c n h Hq Hs H IH];
    intros Hn; cbn [matchPattern].
  - done.
  - apply IH. by eapply no_double_star_tail.
  - assert (Ascii.eqb "*" "?" = false) as -> by done.
    assert (Ascii.eqb "*" "*" = true) as -> by done.
    destruct n as [|c n]; [done|]. rewrite existsb_exists. exists h. split.
    + apply nonempty_suffixes_in. split; [|by eauto]. intros ->.
      apply glob_nil_inv in H as ->. done.
    + apply IH. by eapply no_double_star_tail.
  - apply Ascii.eqb_neq in Hq, Hs. rewrite Hq, Hs, Ascii.eqb_refl. cbn [andb].
    apply IH. by eapply no_double_star_tail.
Qed.

(** ** Properties *)

(** [SplitPath] terminates on every path and computes its normal form: the
    left-to-right fold of the components between delimiters, where [..] removes
    the component before it; no result component is empty, [.] or contains a
    delimiter, and [..] can only come first. *)
Theorem split_path_normalises (path : string) :
  exists parts, SplitPath path = Ok parts /\
    parts = fold_left push (components path) [] /\ normal parts.
Proof.
  eexists. split; [apply SplitPath_components|]. split; [done|].
  apply normal_fold; [apply components_ok|]. split; [constructor|]. by intros [].
Qed.

(** [JoinPaths] inverts [SplitPath] on normal component lists; in
    particular splitting a path, joining and splitting again changes nothing. *)
Theorem split_join_roundtrip (parts : list string) :
  normal parts -> SplitPath (JoinPaths parts) = Ok parts.
Proof.
  intros Hn. rewrite SplitPath_components, JoinPaths_join, components_join by apply Hn.
  f_equal. by apply (fold_push_normal parts []).
Qed.

Lemma split_join_roundtrip_witness :
  SplitPath (JoinPaths [".."; "a"; "b"]) = Ok [".."; "a"; "b"]%string.
Proof.
  apply (split_join_roundtrip [".."; "a"; "b"]%string). split.
  - repeat (apply Forall_cons_2; [split; [discriminate|split; [discriminate|reflexivity]]|]).
    apply Forall_nil_2.
  - cbn. intros [H|[H|[]]]; discriminate.
Defined.

(** [C39] [PatternMatch] implements glob matching ([?] one character, [*] any
    run) for patterns without two adjacent stars; for every pattern, a match it
    reports is a glob match. *)
Theorem pattern_match_is_glob (pattern target : string) :
  (PatternMatch pattern target = true -> glob (c_str pattern) (c_str target)) /\
  (no_double_star (c_str pattern) = true ->
   (PatternMatch pattern target = true <-> glob (c_str pattern) (c_str target))).
Proof.
  split; [apply matchPattern_sound|]. intros Hn. split.
  - apply matchPattern_sound.
  - by apply matchPattern_complete.
Qed.

Lemma pattern_match_is_glob_witness :
  PatternMatch "a*c?" "abbcd" = true /\
  (PatternMatch "a*c?" "abbcd" = true -> glob (c_str "a*c?") (c_str "abbcd")) /\
  (no_double_star (c_str "a*c?") = true ->
   (PatternMatch "a*c?" "abbcd" = true <-> glob (c_str "a*c?") (c_str "abbcd"))).
Proof.
  split; [reflexivity|]. apply (pattern_match_is_glob "a*c?" "abbcd").
Defined.

(** Two adjacent stars do not mean the same as one: after a star the
    matcher never tries the empty rest, so [a**] misses [a]. *)
Theorem double_star_incomplete :
  PatternMatch "a**" "a" = false /\ PatternMatch "a*" "a" = true /\
  glob (c_str "a**") (c_str "a").
Proof.
  split; [done|]. split; [done|]. cbn. apply glob_char; [done|done|].
  apply (glob_star _ []), (glob_star _ []). constructor.
Qed.

(** what follows the last delimiter *)
Definition after_last (s : string) : string :=
  match find_last_delim s with Some n => str_drop (n + 1) s | None => s end.

Lemma find_last_delim_none s : find_last_delim s = None -> no_delim s = true.
Proof.
  induction s as [|c s IH]; [done|]. cbn. destruct (find_last_delim s); [done|].
  destruct (is_delim c) eqn:E; [done|]. intros _. by rewrite IH.
Qed.

Lemma find_last_delim_some s n : find_last_delim s = Some n -> (tokens s).2 <> [].
Proof.
  revert n. induction s as [|c s IH]; intros n; [done|]. cbn [find_last_delim tokens].
  destruct (tokens s) as [t ts]. destruct (find_last_delim s) as [m|].
  - specialize (IH m eq_refl). by destruct (is_delim c).
  - by destruct (is_delim c).
Qed.

Lemma after_last_token s :
  after_last s = List.last ((tokens s).1 :: (tokens s).2) EmptyString.
Proof.
  induction s as [|c s IH]; [done|]. unfold after_last in *.
  pose proof (find_last_delim_none s) as Hn. pose proof (tokens_plain s) as Hp.
  pose proof (find_last_delim_some s) as Hs.
  cbn [find_last_delim tokens]. destruct (tokens s) as [t ts]. cbn [fst snd] in *.
  destruct (find_last_delim s) as [n|].
  - specialize (Hs n eq_refl). change (S n + 1) with (S (n + 1)). rewrite str_drop_S, IH.
    by destruct (is_delim c), ts.
  - destruct (is_delim c) eqn:E; cbn [fst snd].
    + change (0 + 1) with 1. rewrite str_drop_S, str_drop_0, IH. done.
    + injection (Hp (Hn eq_refl)) as -> ->. done.
Qed.

(** [BaseName] returns the text after the last delimiter (the whole path
    when there is none, the empty string when the path ends with one). *)
Theorem base_name_last_component (path : string) :
  let '(t, ts) := tokens path in BaseName path = List.last (t :: ts) EmptyString.
Proof.
  pose proof (after_last_token path) as H. unfold after_last in H. unfold BaseName.
  destruct (tokens path) as [t ts]. cbn [fst snd] in H. rewrite <- H.
  destruct (find_last_delim path) as [n|]; [|done].
  destruct (Nat.eqb_spec n (String.length path - 1)) as [->|]; [|done].
  by rewrite str_drop_all by lia.
Qed.
