(* ===== verification/Folder.v ===== *)
(** * Folders (src/src/bdblob/Folder.cpp, Folder.h)

    A folder is a sorted map of named entries that lives in a blob: ["."] holds
    the folder's own properties, [".."] a copy of the parent's.  This file has
    the data, the wire format (an instance of the codec contract) and the
    operations, which thread the object ([this]) and the state of the process
    explicitly.  Updating an entry may move the folder to a bigger blob, which
    updates the parent, which may move in turn: the mutual recursion is on fuel.
    FolderFacts.v has the theorems about the operations. *)

From Stdlib Require Import ZArith Lia Bool Ascii String.
From stdpp Require Import base list gmap strings.
From S2P Require Import Prelude Streams StdMap Metadata Stdio BlobMap BlobStore Paths.
Set Default Goal Selector "!".
Local Open Scope Z_scope.
Local Open Scope drive_scope.

Inductive EntryType := FOLDER | FILE.
(** the number of values before [__MAX__] *)
Definition EntryType_MAX : Z := 2.
Definition entry_type_value (t : EntryType) : Z :=
  match t with FOLDER => 0 | FILE => 1 end.
Definition entry_type_of (v : Z) : EntryType := if v =? 0 then FOLDER else FILE.

Module Entry.
Record t := mk {
  id : string;
  type : EntryType;
  createTime : Z;
  modifyTime : Z;
  size : Z;
  metadata : BlobMetadata
}.
(** [Entry()], what [entries[key]] creates *)
Definition default : t := mk EmptyString FOLDER 0 0 0 Metadata.empty.
Definition set_id (i : string) (e : t) : t :=
  mk i (type e) (createTime e) (modifyTime e) (size e) (metadata e).
(** [size += delta; modifyTime = now] *)
Definition resized (delta time : Z) (e : t) : t :=
  mk (id e) (type e) (createTime e) time (u64 (size e + delta)) (metadata e).
End Entry.

Definition MAGIC_HEADER : Z := 168496141. (* 0x0a0b0c0d *)
Definition FOLDER_BLOB_UNIT_SIZE : Z := 64 * 1024.

Module Folder.
Record t := mk { entries : list (string * Entry.t); name : string; modified : bool }.

Definition set_entries (es : list (string * Entry.t)) (f : t) : t := mk es (name f) (modified f).
Definition set_modified (b : bool) (f : t) : t := mk (entries f) (name f) b.
(** the object [LoadFolder] starts from *)
Definition blank : t := mk [] EmptyString false.

(** ** Wire format *)
Section Serialize.
Context {St : Type} `{OutputStream St}.
Definition SerializeEntry (e : Entry.t) (s : St) : bool * St :=
  WriteString (Entry.id e) s >>? fun s =>
  WriteUInt8 (u8 (entry_type_value (Entry.type e))) s >>? fun s =>
  WriteUInt32 (Entry.createTime e) s >>? fun s =>
  WriteUInt32 (Entry.modifyTime e) s >>? fun s =>
  WriteUInt64 (Entry.size e) s >>?
  Metadata.Serialize (Entry.metadata e).
Fixpoint write_entries (es : list (string * Entry.t)) (s : St) : bool * St :=
  match es with
  | [] => (true, s)
  | (k, e) :: es' => WriteString k s >>? fun s => SerializeEntry e s >>? write_entries es'
  end.
Definition Serialize (f : t) (s : St) : bool * St :=
  WriteUInt32 MAGIC_HEADER s >>? fun s =>
  WriteString (name f) s >>? fun s =>
  WriteUInt32 (u32 (zlen (entries f))) s >>?
  write_entries (entries f).
End Serialize.

Section Deserialize.
Context {St : Type} `{InputStream St}.
Definition DeserializeEntry (e : Entry.t) (s : St) : bool * Entry.t * St :=
  if Remainder s <? 4 then (false, e, s) else
  let '(_, id, s1) := ReadString (Entry.id e) s in
  let e1 := Entry.set_id id e in
  if Remainder s1 <? 1 + 4 * 2 + 8 then (false, e1, s1) else
  let '(type, s2) := ReadUInt8 s1 in
  if EntryType_MAX <=? type then (false, e1, s2) else
  let '(createTime, s3) := ReadUInt32 s2 in
  let '(modifyTime, s4) := ReadUInt32 s3 in
  let '(size, s5) := ReadUInt64 s4 in
  let '(ok, metadata, s6) := Metadata.Deserialize (Entry.metadata e) s5 in
  (ok, Entry.mk id (entry_type_of type) createTime modifyTime size metadata, s6).
(** a failure keeps the entries read so far *)
Fixpoint read_entries (count : nat) (acc : list (string * Entry.t)) (s : St)
  : bool * list (string * Entry.t) * St :=
  match count with
  | O => (true, acc, s)
  | Datatypes.S count' =>
      if Remainder s <? 4 then (false, acc, s) else
      let '(_, key, s1) := ReadString EmptyString s in
      let '(ok, e, s2) := DeserializeEntry Entry.default s1 in
      if ok then read_entries count' (SMap.emplace key e acc) s2 else (false, acc, s2)
  end.
Definition Deserialize (f : t) (s : St) : bool * t * St :=
  if Remainder s <? 4 then (false, f, s) else
  let '(magic, s1) := ReadUInt32 s in
  if negb (magic =? MAGIC_HEADER) then (false, f, s1) else
  if Remainder s1 <? 4 then (false, f, s1) else
  let '(_, nm, s2) := ReadString (name f) s1 in
  if Remainder s2 <? 4 then (false, mk (entries f) nm (modified f), s2) else
  let '(count, s3) := ReadUInt32 s2 in
  let '(ok, es, s4) := read_entries (Z.to_nat count) (entries f) s3 in
  (ok, mk es nm (modified f), s4).
End Deserialize.

Definition GetEntrySerializedSize (e : Entry.t) : Z :=
  u64 (4 + str_size (Entry.id e) + 1 + 4 + 4 + 8 + Metadata.GetSerializedSize (Entry.metadata e)).
Definition GetSerializedSize (f : t) : Z :=
  fold_left (fun r p => u64 (u64 (r + 4 + str_size (fst p)) + GetEntrySerializedSize (snd p)))
    (entries f) (u64 (4 + (4 + str_size (name f)) + 4)).

(** ** Queries *)
(** [entries.at(".")] throws when there is no entry *)
Definition Properties (f : t) : outcome Entry.t :=
  match SMap.find "." (entries f) with
  | Some e => Ok e
  | None => Fault UncaughtException
  end.
Definition Parent (f : t) : option Entry.t := SMap.find ".." (entries f).
Definition IsRootFolder (f : t) : bool :=
  match Parent f with
  | None => true
  | Some parent =>
      match SMap.find "." (entries f) with
      | None => true
      | Some self => String.eqb (Entry.id self) (Entry.id parent)
      end
  end.
Definition Find (pattern : string) (f : t) : list string :=
  List.filter (PatternMatch pattern)
    (List.filter (fun k => negb (String.eqb k "." || String.eqb k ".."))
       (map fst (entries f))).

(** ** Operations *)
Section Operations.
Context {P B : Type} `{BlobProvider P B} (provider : P).

Fixpoint set_metadata_all (es : list (string * Entry.t)) (includeThis : bool) : M world unit :=
  match es with
  | [] => ret tt
  | (k, e) :: es' =>
      (if (String.eqb k "." && negb includeThis) || String.eqb k ".." then ret tt
       else SetMetadata (Entry.id e) (Entry.metadata e)) ;;;
      set_metadata_all es' includeThis
  end.
Definition UpdateMetadataCache (includeThis : bool) (this : t) : M world bool :=
  bm <- GetBlobMap ;;
  match bm with
  | None => ret false
  | Some _ => set_metadata_all (entries this) includeThis ;;; ret true
  end.

(** a failed [Deserialize] drops the new object: nothing to flush, it is not
    modified *)
Definition LoadFolder (id : string) : M world (option t) :=
  if empty_str id then ret None else
  blob <- OpenBlob provider id ;;
  match blob with
  | None => ret None
  | Some blob =>
      if blob_Size blob =? 0 then ret None else
      buffer <- blob_Read blob 0 (blob_Size blob) ;;
      if 0 <? zlen buffer then
        let '(success, folder, _) := Deserialize blank
          (BufferedInputStream.make buffer (zlen buffer)) in
        if success : bool then UpdateMetadataCache false folder ;;; ret (Some folder)
        else ret None
      else ret None
  end.

Definition GetParentFolder (this : t) : M world (option t) :=
  if IsRootFolder this then ret None
  else match Parent this with
       | None => fail AssertFailed
       | Some parentEntry => LoadFolder (Entry.id parentEntry)
       end.

(** [this->entries["."]] as a reference: creates the entry when it is absent *)
Definition self (f : t) : Entry.t * t :=
  let '(props, es) := SMap.get_or_insert Entry.default "." (entries f) in (props, set_entries es f).
Definition set_self (props : Entry.t) (f : t) : t :=
  set_entries (SMap.insert "." props (entries f)) f.

(** the size [Flush] asks for: whole units, at least one *)
Definition round_up (sizeNeeded : Z) : Z :=
  u64 (((u64 (sizeNeeded - 1)) / FOLDER_BLOB_UNIT_SIZE + 1) * FOLDER_BLOB_UNIT_SIZE).

(** serialize into the blob; the last part of [Flush] *)
Definition write_out (blob : option B) (this : t) : M world (bool * t) :=
  match blob with
  | None => ret (false, this)
  | Some blob =>
      let '(ok, stream) := Serialize this BufferedOutputStream.init in
      if negb ok then ret (false, this) else
      n <- blob_Write blob 0 (BufferedOutputStream.buffer stream)
             (BufferedOutputStream.offset stream) ;;
      if n <? BufferedOutputStream.offset stream then ret (false, this) else
      let this := set_modified false this in
      UpdateMetadataCache true this ;;;
      ret (true, this)
  end.

Fixpoint UpdateEntry (fuel : nat) (nm : string) (entry : Entry.t) (this : t) : M world t :=
  match fuel with
  | O => nofuel
  | Datatypes.S fuel =>
      let '(properties, this) := self this in
      this <-
        match SMap.find nm (entries this) with
        | Some _ => ret this
        | None =>
            time <- now ;;
            let properties := Entry.resized 1 time properties in
            let this := set_self properties this in
            parent <- GetParentFolder this ;;
            match parent with
            | None => ret tt
            | Some parent =>
                parent <- UpdateEntry fuel (name this) properties parent ;;
                Flush fuel parent ;;; (* ~Folder *)
                ret tt
            end ;;;
            ret this
        end ;;
      let this := mk (SMap.insert nm entry (entries this)) (name this) true in
      pat! (_, this) <- Flush fuel this ;;
      UpdateMetadataCache false this ;;;
      ret this
  end
with Flush (fuel : nat) (this : t) : M world (bool * t) :=
  match fuel with
  | O => nofuel
  | Datatypes.S fuel =>
      if negb (modified this) then ret (true, this) else
      let sizeNeeded := GetSerializedSize this in
      let '(properties, this) := self this in
      blob <- OpenBlob provider (Entry.id properties) ;;
      let fits := match blob with Some b => sizeNeeded <=? blob_Size b | None => false end in
      pat! (blob, this) <-
        (if fits then ret (blob, this)
         else
           blob <- NewBlob provider (round_up sizeNeeded) ;;
           match blob with
           | None => ret (None, this)
           | Some b =>
               let oldId := Entry.id properties in
               let properties := Entry.set_id (blob_Id b) properties in
               let this := set_self properties this in
               parent <- GetParentFolder this ;;
               parent <-
                 match parent with
                 | None => ret None
                 | Some parent =>
                     parent <- UpdateEntry fuel (name this) properties parent ;;
                     pat! (_, parent) <- Flush fuel parent ;;
                     ret (Some parent)
                 end ;;
               DeleteBlob provider oldId ;;;
               match parent with
               | None => ret tt
               | Some parent => Flush fuel parent ;;; ret tt (* ~Folder *)
               end ;;;
               ret (blob, this)
           end) ;;
      write_out blob this
  end.

(** the destructor *)
Definition destroy (fuel : nat) (this : t) : M world unit :=
  Flush fuel this ;;; ret tt.
Definition destroy_opt (fuel : nat) (this : option t) : M world unit :=
  match this with None => ret tt | Some f => destroy fuel f end.

Definition RemoveEntry (fuel : nat) (nm : string) (this : t) : M world t :=
  let '(properties, this) := self this in
  this <-
    match SMap.find nm (entries this) with
    | None => ret this
    | Some _ =>
        time <- now ;;
        let properties := Entry.resized (-1) time properties in
        let this := set_self properties this in
        parent <- GetParentFolder this ;;
        match parent with
        | None => ret tt
        | Some parent =>
            parent <- UpdateEntry fuel (name this) properties parent ;;
            destroy fuel parent
        end ;;;
        ret (mk (SMap.erase nm (entries this)) (name this) true)
    end ;;
  pat! (_, this) <- Flush fuel this ;;
  ret this.

(** the public constructor; [parent] is the object the pointer refers to *)
Definition make (fuel : nat) (nm id : string) (parent : option t) : M world (t * option t) :=
  assertM (negb (empty_str id)) ;;;
  bm <- GetBlobMap ;;
  assertM (match bm with Some _ => true | None => false end) ;;;
  time <- now ;;
  buffer <- GetValue id ;;
  let '(_, md, _) := Metadata.Deserialize Metadata.empty
    (BufferedInputStream.make (Buffer.bytes buffer) (Buffer.size buffer)) in
  let properties := Entry.mk id FOLDER time time 0 md in
  pat! (es, parent) <-
    match parent with
    | None => ret ([], None)
    | Some parent =>
        parent <- UpdateEntry fuel nm properties parent ;;
        pp <- lift (Properties parent) ;;
        pat! (_, parent) <- Flush fuel parent ;;
        ret (SMap.insert ".." pp [], Some parent)
    end ;;
  let this := mk (SMap.emplace "." properties es) nm true in
  pat! (_, this) <- Flush fuel this ;;
  ret (this, parent).
End Operations.
End Folder.

(** ** The wire format meets the codec contract *)
Definition entry_encode (e : Entry.t) : list Z :=
  OStreamFacts.string_bytes (Entry.id e) ++ [entry_type_value (Entry.type e)]
    ++ be_bytes 4 (Entry.createTime e) ++ be_bytes 4 (Entry.modifyTime e)
    ++ be_bytes 8 (Entry.size e) ++ codec_encode (Entry.metadata e).
Definition entry_wf (e : Entry.t) : Prop :=
  in_u32 (str_size (Entry.id e)) /\ in_u32 (Entry.createTime e) /\
  in_u32 (Entry.modifyTime e) /\ in_u64 (Entry.size e) /\ codec_wf (Entry.metadata e).

#[export] Instance Entry_Codec : Codec Entry.t := {
  codec_encode := entry_encode;
  codec_wf := entry_wf;
  codec_fresh := Entry.default;
  codec_serialize := Folder.SerializeEntry;
  codec_deserialize := Folder.DeserializeEntry;
  codec_size := Folder.GetEntrySerializedSize
}.

Definition item_encode (p : string * Entry.t) : list Z :=
  OStreamFacts.string_bytes (fst p) ++ entry_encode (snd p).
Definition folder_encode (f : Folder.t) : list Z :=
  be_bytes 4 MAGIC_HEADER ++ OStreamFacts.string_bytes (Folder.name f)
    ++ be_bytes 4 (zlen (Folder.entries f)) ++ concat (map item_encode (Folder.entries f)).
Definition item_wf (p : string * Entry.t) : Prop :=
  in_u32 (str_size (fst p)) /\ entry_wf (snd p).
(** what every folder the program builds satisfies, up to the size limits of the
    wire format *)
Definition folder_wf (f : Folder.t) : Prop :=
  in_u32 (str_size (Folder.name f)) /\ in_u32 (zlen (Folder.entries f)) /\
  Forall item_wf (Folder.entries f) /\ SMap.sorted (Folder.entries f).

Lemma zlen_cons {A} (x : A) l : zlen (x :: l) = 1 + zlen l.
Proof. unfold zlen. cbn [length]. lia. Qed.
Lemma zlen_entry_encode e :
  zlen (entry_encode e) = 21 + str_size (Entry.id e) + zlen (codec_encode (Entry.metadata e)).
Proof.
  unfold entry_encode. rewrite zlen_app, OStreamFacts.zlen_string_bytes. cbn [app].
  rewrite zlen_cons. len_simpl. lia.
Qed.
Lemma entry_type_range t : 0 <= entry_type_value t < 2.
Proof. destruct t; cbn; lia. Qed.
Lemma entry_type_of_value t : entry_type_of (entry_type_value t) = t.
Proof. by destruct t. Qed.
Lemma u8_entry_type t : u8 (entry_type_value t) = entry_type_value t.
Proof. by destruct t. Qed.

Lemma SerializeEntry_appends (e : Entry.t) (s : ostream) :
  entry_wf e -> BufferedOutputStream.ok s ->
  BufferedOutputStream.offset s + zlen (entry_encode e) < BufferedOutputStream.limit ->
  exists s', Folder.SerializeEntry e s = (true, s') /\
             OStreamFacts.appends s (entry_encode e) s'.
Proof.
  intros (H1 & H2 & H3 & H4 & H5) Hok Hl. rewrite zlen_entry_encode in Hl.
  pose proof (zlen_nonneg (codec_encode (Entry.metadata e))) as Hm.
  pose proof (str_size_nonneg (Entry.id e)) as Hi.
  unfold Folder.SerializeEntry, entry_encode.
  apply and_then_appends; [apply OStreamFacts.WriteString_appends; [done|done|lia]|].
  intros s1 A1. apply appends_room in A1 as [Hok1 A1].
  rewrite OStreamFacts.zlen_string_bytes in A1.
  rewrite u8_entry_type. pose proof (entry_type_range (Entry.type e)) as Ht.
  apply and_then_appends.
  { destruct (OStreamFacts.write_int8_appends (entry_type_value (Entry.type e)) s1)
      as (s2 & E & A); [done|lia|].
    exists s2. split; [exact E|]. by rewrite Z.mod_small in A by lia. }
  intros s2 A2. apply appends_room in A2 as [Hok2 A2]. change (zlen [_]) with 1 in A2.
  apply and_then_appends; [apply OStreamFacts.write_int_appends; [lia|done|lia]|].
  intros s3 A3. apply appends_room in A3 as [Hok3 A3]. len_simpl.
  apply and_then_appends; [apply OStreamFacts.write_int_appends; [lia|done|lia]|].
  intros s4 A4. apply appends_room in A4 as [Hok4 A4]. len_simpl.
  apply and_then_appends; [apply OStreamFacts.write_int_appends; [lia|done|lia]|].
  intros s5 A5. apply appends_room in A5 as [Hok5 A5]. len_simpl.
  exact (codec_serialize_ok (Entry.metadata e) s5 H5 Hok5 ltac:(lia)).
Qed.

Lemma DeserializeEntry_app (e : Entry.t) (s : istream) (r : list Z) :
  entry_wf e -> BufferedInputStream.ok s -> BufferedInputStream.isValid s = true ->
  BufferedInputStream.rest s = entry_encode e ++ r ->
  let s' := BufferedInputStream.advance (zlen (entry_encode e)) s in
  Folder.DeserializeEntry Entry.default s = (true, e, s') /\
  BufferedInputStream.ok s' /\ BufferedInputStream.rest s' = r.
Proof.
  intros (H1 & H2 & H3 & H4 & H5) Hok Hv Hr. rewrite zlen_entry_encode.
  unfold entry_encode in Hr. rewrite <- !app_assoc in Hr.
  destruct (MetadataFacts.read_string_app _ _ _ H1 Hok Hv Hr) as (G1 & E1 & Hok1 & Hr1).
  unfold Folder.DeserializeEntry. rewrite G1. cbn [Entry.id Entry.default]. rewrite E1.
  assert (G2 : (Remainder (BufferedInputStream.advance (4 + str_size (Entry.id e)) s)
                <? 1 + 4 * 2 + 8) = false).
  { cbn [Remainder BufferedInputStream_InputStream].
    rewrite IStreamFacts.Remainder_rest, Hr1 by done. cbn [app]. rewrite zlen_cons.
    len_simpl. pose proof (zlen_nonneg (codec_encode (Entry.metadata e))).
    pose proof (zlen_nonneg r). apply Z.ltb_ge. lia. }
  rewrite G2. pose proof (entry_type_range (Entry.type e)) as Ht. cbn [app] in Hr1.
  rewrite <- (Z.mod_small (entry_type_value (Entry.type e)) 256) in Hr1 by lia.
  destruct (IStreamFacts.read_uint8_app _ _ _ Hok1 Hr1) as (E2 & Hok2 & Hr2); [lia|].
  rewrite E2. destruct (Z.leb_spec EntryType_MAX (entry_type_value (Entry.type e)));
    [unfold EntryType_MAX in *; lia|].
  destruct (IStreamFacts.read_uint_app 4 _ _ _ Hok2 Hr2 H2) as (E3 & Hok3 & Hr3).
  destruct (IStreamFacts.read_uint_app 4 _ _ _ Hok3 Hr3 H3) as (E4 & Hok4 & Hr4).
  destruct (IStreamFacts.read_uint_app 8 _ _ _ Hok4 Hr4 H4) as (E5 & Hok5 & Hr5).
  unfold ReadUInt32, ReadUInt64. rewrite E3, E4, E5.
  destruct (codec_deserialize_ok (Entry.metadata e) _ r H5 Hok5) as (E6 & Hok6 & Hr6);
    [done|exact Hr5|].
  cbn [Entry.metadata Entry.default].
  change Metadata.empty with (@codec_fresh BlobMetadata _).
  change (@Metadata.Deserialize istream _)
    with (@codec_deserialize BlobMetadata _). rewrite E6.
  rewrite !IStreamFacts.advance_advance in *.
  match goal with |- context [BufferedInputStream.advance ?a s] =>
    match type of Hok6 with context [BufferedInputStream.advance ?b s] =>
      replace b with (21 + str_size (Entry.id e) + zlen (codec_encode (Entry.metadata e)))
        in * by lia end end.
  rewrite entry_type_of_value. by destruct e.
Qed.

Lemma GetEntrySerializedSize_spec e :
  entry_wf e -> zlen (entry_encode e) < 2 ^ 64 ->
  Folder.GetEntrySerializedSize e = zlen (entry_encode e).
Proof.
  intros (_ & _ & _ & _ & Hm). rewrite zlen_entry_encode. intros Hl.
  pose proof (zlen_nonneg (codec_encode (Entry.metadata e))).
  pose proof (str_size_nonneg (Entry.id e)). unfold Folder.GetEntrySerializedSize.
  change (Metadata.GetSerializedSize (Entry.metadata e)) with (codec_size (Entry.metadata e)).
  rewrite codec_size_ok by (done || lia). rewrite u64_small; [lia|unfold in_u64; lia].
Qed.

#[export] Instance Entry_CodecLaws : CodecLaws Entry.t.
Proof.
  split.
  - apply SerializeEntry_appends.
  - apply DeserializeEntry_app.
  - apply GetEntrySerializedSize_spec.
Qed.

Module FolderCodec.
Import Folder.

Lemma zlen_item_encode it :
  zlen (item_encode it) = 4 + str_size (fst it) + zlen (entry_encode (snd it)).
Proof. unfold item_encode. by rewrite zlen_app, OStreamFacts.zlen_string_bytes. Qed.

Lemma write_entries_appends es s :
  Forall item_wf es -> BufferedOutputStream.ok s ->
  BufferedOutputStream.offset s + zlen (concat (map item_encode es))
    < BufferedOutputStream.limit ->
  exists s', write_entries es s = (true, s') /\
             OStreamFacts.appends s (concat (map item_encode es)) s'.
Proof.
  revert s. induction es as [|[k e] es IH]; intros s Hes Hok Hl; cbn [map concat] in *.
  { exists s. split; [done|]. by apply OStreamFacts.appends_refl. }
  apply Forall_cons in Hes as [[Hk He] Hes]. cbn [fst snd] in *.
  rewrite zlen_app, zlen_item_encode in Hl. cbn [fst snd] in Hl.
  pose proof (zlen_nonneg (concat (map item_encode es))).
  pose proof (zlen_nonneg (entry_encode e)). pose proof (str_size_nonneg k).
  cbn [write_entries]. unfold item_encode at 1. cbn [fst snd]. rewrite <- app_assoc.
  apply and_then_appends; [apply OStreamFacts.WriteString_appends; [done|done|lia]|].
  intros s1 A1. apply appends_room in A1 as [Hok1 A1].
  rewrite OStreamFacts.zlen_string_bytes in A1.
  apply and_then_appends; [apply SerializeEntry_appends; [done|done|lia]|].
  intros s2 A2. apply appends_room in A2 as [Hok2 A2]. apply IH; [done|done|lia].
Qed.

Lemma folder_Serialize_appends f s :
  folder_wf f -> BufferedOutputStream.ok s ->
  BufferedOutputStream.offset s + zlen (folder_encode f) < BufferedOutputStream.limit ->
  exists s', Serialize f s = (true, s') /\ OStreamFacts.appends s (folder_encode f) s'.
Proof.
  intros (Hn & Hc & Hes & _) Hok Hl. unfold folder_encode in *.
  rewrite !zlen_app, !zlen_be_bytes, OStreamFacts.zlen_string_bytes in Hl.
  pose proof (zlen_nonneg (concat (map item_encode (entries f)))).
  pose proof (str_size_nonneg (name f)). unfold Serialize.
  apply and_then_appends; [apply OStreamFacts.write_int_appends; [lia|done|lia]|].
  intros s1 A1. apply appends_room in A1 as [Hok1 A1]. len_simpl.
  apply and_then_appends; [apply OStreamFacts.WriteString_appends; [done|done|lia]|].
  intros s2 A2. apply appends_room in A2 as [Hok2 A2].
  rewrite OStreamFacts.zlen_string_bytes in A2. rewrite u32_small by done.
  apply and_then_appends; [apply OStreamFacts.write_int_appends; [lia|done|lia]|].
  intros s3 A3. apply appends_room in A3 as [Hok3 A3]. len_simpl.
  apply write_entries_appends; [done|done|lia].
Qed.

Lemma read_entries_app es acc s r :
  Forall item_wf es -> SMap.sorted (acc ++ es) -> BufferedInputStream.ok s ->
  BufferedInputStream.isValid s = true ->
  BufferedInputStream.rest s = concat (map item_encode es) ++ r ->
  let s' := BufferedInputStream.advance (zlen (concat (map item_encode es))) s in
  read_entries (length es) acc s = (true, acc ++ es, s') /\
  BufferedInputStream.ok s' /\ BufferedInputStream.rest s' = r.
Proof.
  revert acc s. induction es as [|[k e] es IH]; intros acc s Hes Hso Hok Hv Hr;
    cbn [map concat length] in *.
  { change (zlen (@nil Z)) with 0. cbv zeta. rewrite IStreamFacts.advance_0, app_nil_r. done. }
  apply Forall_cons in Hes as [[Hk He] Hes]. cbn [fst snd] in *.
  unfold item_encode at 1 in Hr. cbn [fst snd] in Hr. rewrite <- !app_assoc in Hr.
  destruct (MetadataFacts.read_string_app _ _ _ Hk Hok Hv Hr) as (G1 & E1 & Hok1 & Hr1).
  destruct (DeserializeEntry_app _ _ _ He Hok1 Hv Hr1) as (E2 & Hok2 & Hr2).
  cbn [read_entries]. rewrite G1, E1, E2.
  pose proof (SMapFacts.sorted_app_below _ _ _ _ Hso) as Hbelow.
  assert (Hem : SMap.emplace k e acc = acc ++ [(k, e)]).
  { unfold SMap.emplace. by rewrite SMapFacts.find_below, SMapFacts.insert_last. }
  assert (Hso' : SMap.sorted ((acc ++ [(k, e)]) ++ es)) by (by rewrite <- app_assoc).
  rewrite Hem. destruct (IH (acc ++ [(k, e)]) _ Hes Hso' Hok2 Hv Hr2) as (E3 & Hok3 & Hr3).
  cbv zeta in *. rewrite !IStreamFacts.advance_advance in *.
  rewrite zlen_app, zlen_item_encode, E3, <- app_assoc. cbn [fst snd app].
  by rewrite !Z.add_assoc in *.
Qed.

Lemma folder_Deserialize_app f s r :
  folder_wf f -> BufferedInputStream.ok s -> BufferedInputStream.isValid s = true ->
  BufferedInputStream.rest s = folder_encode f ++ r ->
  exists s', Deserialize blank s = (true, set_modified false f, s') /\
    BufferedInputStream.ok s' /\ BufferedInputStream.isValid s' = true /\
    BufferedInputStream.rest s' = r.
Proof.
  intros (Hn & Hc & Hes & Hso) Hok Hv Hr. unfold folder_encode in Hr. rewrite <- !app_assoc in Hr.
  assert (Hrem : forall st v y, BufferedInputStream.ok st ->
    BufferedInputStream.rest st = be_bytes 4 v ++ y -> (Remainder st <? 4) = false).
  { intros st v y Hst E. cbn [Remainder BufferedInputStream_InputStream].
    rewrite IStreamFacts.Remainder_rest, E, zlen_app, zlen_be_bytes by done.
    pose proof (zlen_nonneg y). apply Z.ltb_ge. lia. }
  assert (Hm : in_u32 MAGIC_HEADER) by closed_range.
  destruct (IStreamFacts.read_uint_app 4 _ _ _ Hok Hr Hm) as (E1 & Hok1 & Hr1).
  destruct (MetadataFacts.read_string_app _ _ _ Hn Hok1 Hv Hr1) as (G2 & E2 & Hok2 & Hr2).
  destruct (IStreamFacts.read_uint_app 4 _ _ _ Hok2 Hr2 Hc) as (E3 & Hok3 & Hr3).
  destruct (read_entries_app _ [] _ _ Hes Hso Hok3 Hv Hr3) as (E4 & Hok4 & Hr4).
  eexists. split; [|split_and_all; [exact Hok4|exact Hv|exact Hr4]].
  unfold Deserialize. rewrite (Hrem _ _ _ Hok Hr).
  unfold ReadUInt32. rewrite E1, Z.eqb_refl. cbn [negb]. rewrite G2. cbn [name blank].
  rewrite E2. rewrite (Hrem _ _ _ Hok2 Hr2), E3.
  unfold zlen at 1. rewrite Nat2Z.id. cbn [entries blank]. by rewrite E4.
Qed.

Lemma zlen_folder_encode f :
  zlen (folder_encode f)
    = 12 + str_size (name f) + zlen (concat (map item_encode (entries f))).
Proof.
  unfold folder_encode. rewrite !zlen_app, !zlen_be_bytes, OStreamFacts.zlen_string_bytes. lia.
Qed.

Lemma GetSerializedSize_folder f :
  folder_wf f -> zlen (folder_encode f) < 2 ^ 64 ->
  GetSerializedSize f = zlen (folder_encode f).
Proof.
  intros (_ & _ & Hes & _). rewrite zlen_folder_encode. intros Hl. unfold GetSerializedSize.
  pose proof (zlen_nonneg (concat (map item_encode (entries f)))).
  pose proof (str_size_nonneg (name f)).
  rewrite u64_small by (unfold in_u64; lia).
  replace (4 + (4 + str_size (name f)) + 4) with (12 + str_size (name f)) by lia.
  assert (H12 : 0 <= 12 + str_size (name f)) by lia. revert H12 Hl. clear H H0.
  generalize (12 + str_size (name f)) as r.
  induction Hes as [|[k e] es [Hk He] Hes IH]; intros r Hr Hl; cbn [map concat fold_left] in *.
  { change (zlen (@nil Z)) with 0. lia. }
  rewrite zlen_app, zlen_item_encode in *. cbn [fst snd] in *.
  pose proof (zlen_nonneg (concat (map item_encode es))).
  pose proof (zlen_nonneg (entry_encode e)). pose proof (str_size_nonneg k).
  rewrite GetEntrySerializedSize_spec by (done || lia).
  rewrite !u64_small by (unfold in_u64; rewrite ?u64_small; unfold in_u64; lia).
  rewrite IH by lia. lia.
Qed.
End FolderCodec.
