(* ===== verification/FolderFacts.v ===== *)
(** * Theorems about folders

    Wire format; the invariant that a folder's recorded size is its number of
    children; what each operation does to the entries, for every provider and on
    every path that returns; and, for providers that satisfy
    [BlobProviderLaws], that a flushed folder is what [LoadFolder] returns. *)

From Stdlib Require Import ZArith Lia Bool Ascii String.
From stdpp Require Import base list gmap strings.
From S2P Require Import Prelude Streams StdMap Metadata Stdio BlobMap BlobStore FileStore.
From S2P Require Import Paths Folder.
Set Default Goal Selector "!".
Local Open Scope Z_scope.
Local Open Scope drive_scope.
Import Folder.

(** one [bind] of a successful run *)
Ltac minv H :=
  lazymatch type of H with
  | bind _ _ _ = Ok _ =>
      let a := fresh "a" in let w := fresh "w" in let E := fresh "E" in
      apply bind_inv in H; destruct H as (a & w & E & H)
  | ret _ _ = Ok _ => injection H; clear H; intros; subst
  | gets _ _ = Ok _ => injection H; clear H; intros; subst
  | fail _ _ = Ok _ => discriminate H
  | nofuel _ = Ok _ => discriminate H
  end.

(** ** The invariant *)
Definition child (k : string) : bool := negb (String.eqb k "." || String.eqb k "..").
(** sorted, with a ["."] entry whose size is the number of children *)
Definition consistent (f : Folder.t) : Prop :=
  SMap.sorted (entries f) /\
  exists props, SMap.find "." (entries f) = Some props /\
    Entry.size props = u64 (Z.of_nat (SMapFacts.count child (entries f))).
(** the entries under names other than ["."] *)
Definition named (k : string) (f : Folder.t) : option Entry.t :=
  if String.eqb k "." then None else SMap.find k (entries f).

Lemma named_self k e f : named k (set_entries (SMap.insert "." e (entries f)) f) = named k f.
Proof.
  unfold named. destruct (String.eqb_spec k "."); [done|]. cbn.
  by rewrite SMapFacts.find_insert_ne.
Qed.

Lemma u64_add x y : u64 (u64 x + y) = u64 (x + y).
Proof. unfold u64. by rewrite Zplus_mod_idemp_l. Qed.

Section Frame.
Context {P B : Type} `{BlobProvider P B} (p : P).

Lemma write_out_frame (blob : option B) this w r this' w' :
  write_out blob this w = Ok ((r, this'), w') ->
  entries this' = entries this /\ name this' = name this /\
  (r = true -> modified this' = false) /\ (r = false -> modified this' = modified this).
Proof.
  unfold write_out. destruct blob as [b|]; intros E; [|by minv E].
  destruct (Serialize _ _) as [ok stream]. destruct ok; cbn [negb] in E; [|by minv E].
  minv E. destruct (_ <? _); [by minv E|]. minv E. by minv E.
Qed.

Lemma self_found props f :
  SMap.find "." (entries f) = Some props -> self f = (props, f).
Proof.
  intros E. unfold self. rewrite (SMapFacts.get_or_insert_found _ _ _ _ E). by destruct f.
Qed.

Lemma Flush_frame fuel this w r this' w' props :
  Flush p fuel this w = Ok ((r, this'), w') ->
  SMap.sorted (entries this) -> SMap.find "." (entries this) = Some props ->
  name this' = name this /\
  exists i, entries this' = SMap.insert "." (Entry.set_id i props) (entries this).
Proof.
  intros E Hs Hf.
  assert (Hid : entries this = SMap.insert "." (Entry.set_id (Entry.id props) props) (entries this)).
  { replace (Entry.set_id (Entry.id props) props) with props by (by destruct props).
    by rewrite SMapFacts.insert_same. }
  destruct fuel as [|fuel]; [done|]. cbn [Flush] in E.
  destruct (modified this); cbn [negb] in E.
  2:{ minv E. split; [done|]. eauto. }
  rewrite (self_found _ _ Hf) in E. minv E. minv E. destruct a0 as [blob f1].
  assert (Hf1 : name f1 = name this /\
    exists i, entries f1 = SMap.insert "." (Entry.set_id i props) (entries this)).
  { destruct (match a with Some b => _ | None => false end); [minv E1; eauto|].
    minv E1. destruct a0 as [b|]; [|minv E1; eauto].
    minv E1. minv E1. minv E1. minv E1. minv E1. cbn. eauto. }
  destruct Hf1 as [Hn (i & Hi)]. apply write_out_frame in E as (E & En & _).
  split; [congruence|]. exists i. congruence.
Qed.

Lemma set_id_size i e : Entry.size (Entry.set_id i e) = Entry.size e.
Proof. done. Qed.

Lemma Flush_consistent fuel this w r this' w' :
  Flush p fuel this w = Ok ((r, this'), w') -> consistent this ->
  consistent this' /\ name this' = name this /\ forall k, named k this' = named k this.
Proof.
  intros E [Hs (props & Hf & Hsz)].
  destruct (Flush_frame _ _ _ _ _ _ _ E Hs Hf) as [Hn (i & Hi)]. split_and_all; [|done|].
  - split; [rewrite Hi; by apply SMapFacts.sorted_insert|].
    exists (Entry.set_id i props). rewrite Hi, SMapFacts.find_insert_eq. split; [done|].
    by rewrite set_id_size, SMapFacts.count_insert, Hf, Hsz.
  - intros k. unfold named. destruct (String.eqb_spec k "."); [done|].
    by rewrite Hi, SMapFacts.find_insert_ne.
Qed.

(** the object handed to [Flush] by [UpdateEntry] *)
Definition with_entry (nm : string) (e : Entry.t) (time : Z) (f : Folder.t) : Folder.t :=
  let '(properties, f1) := self f in
  let f2 := match SMap.find nm (entries f1) with
            | Some _ => f1
            | None => set_self (Entry.resized 1 time properties) f1
            end in
  mk (SMap.insert nm e (entries f2)) (name f2) true.

Lemma UpdateEntry_frame fuel nm e this w this' w' :
  UpdateEntry p fuel nm e this w = Ok (this', w') ->
  exists fuel' time w1 r w2,
    Flush p fuel' (with_entry nm e time this) w1 = Ok ((r, this'), w2).
Proof.
  intros E. destruct fuel as [|fuel]; [done|]. cbn [UpdateEntry] in E. unfold with_entry.
  destruct (self this) as [properties f1].
  minv E. minv E. destruct a0 as [r f3]. minv E. minv E.
  destruct (SMap.find nm (entries f1)) as [old|].
  - minv E0. eexists _, 0, _, _, _. eassumption.
  - minv E0. minv E0. minv E0. minv E0. eexists _, _, _, _, _. eassumption.
Qed.

Lemma with_entry_consistent nm e time f :
  consistent f -> child nm = true ->
  consistent (with_entry nm e time f) /\ name (with_entry nm e time f) = name f /\
  forall k, named k (with_entry nm e time f) = if String.eqb k nm then Some e else named k f.
Proof.
  intros [Hs (props & Hf & Hsz)] Hc. unfold with_entry. rewrite (self_found _ _ Hf).
  unfold child in Hc. apply negb_true_iff, orb_false_iff in Hc as [Hd Hdd].
  assert (Hne : "."%string <> nm) by (intros <-; by rewrite String.eqb_refl in Hd).
  destruct (SMap.find nm (entries f)) as [old|] eqn:Eo; cbn [entries name set_self set_entries].
  - split_and_all; [|done|].
    + split; cbn [entries]; [by apply SMapFacts.sorted_insert|]. exists props.
      rewrite SMapFacts.find_insert_ne, Hf, SMapFacts.count_insert, Eo by done. done.
    + intros k. unfold named; cbn [entries]. rewrite SMapFacts.find_insert.
      destruct (String.eqb_spec k nm) as [->|]; [by rewrite Hd|done].
  - split_and_all; [|done|].
    + split; cbn [entries]; [by repeat apply SMapFacts.sorted_insert|].
      exists (Entry.resized 1 time props).
      rewrite SMapFacts.find_insert_ne, SMapFacts.find_insert_eq by done. split; [done|].
      rewrite !SMapFacts.count_insert, SMapFacts.find_insert_ne, Eo, Hf
        by (done || by apply SMapFacts.sorted_insert).
      unfold child at 1. rewrite Hd, Hdd. cbn [orb negb Entry.resized Entry.size].
      rewrite Hsz, u64_add. f_equal. lia.
    + intros k. unfold named; cbn [entries]. rewrite !SMapFacts.find_insert.
      destruct (String.eqb_spec k nm) as [->|]; [by rewrite Hd|].
      by destruct (String.eqb k ".").
Qed.

Lemma RemoveEntry_frame fuel nm this w this' w' props :
  RemoveEntry p fuel nm this w = Ok (this', w') ->
  SMap.find "." (entries this) = Some props ->
  exists fuel' time w1 r w2,
    Flush p fuel'
      (match SMap.find nm (entries this) with
       | None => this
       | Some _ => mk (SMap.erase nm (SMap.insert "." (Entry.resized (-1) time props)
                                       (entries this))) (name this) true
       end) w1 = Ok ((r, this'), w2).
Proof.
  intros E Hf. unfold RemoveEntry in E. rewrite (self_found _ _ Hf) in E.
  minv E. minv E. destruct a0 as [r f3]. minv E.
  destruct (SMap.find nm (entries this)) as [old|].
  - minv E0. minv E0. minv E0. minv E0. eexists _, _, _, _, _. eassumption.
  - minv E0. eexists _, 0, _, _, _. eassumption.
Qed.
End Frame.

(** [C30] Folder invariant: whatever the provider does, when [UpdateEntry] or
    [RemoveEntry] of a child name returns, the folder still has sorted entries and
    a ["."] entry whose size is the number of children; the named entries are
    exactly updated (resp. removed) at that name and the folder's name is kept. *)
Theorem folder_invariant {P B} `{BlobProvider P B} (p : P) (fuel : nat) (nm : string)
  (e : Entry.t) (this : Folder.t) (w : world) :
  consistent this -> child nm = true ->
  (forall this' w', UpdateEntry p fuel nm e this w = Ok (this', w') ->
     consistent this' /\ name this' = name this /\
     forall k, named k this' = if String.eqb k nm then Some e else named k this) /\
  (forall this' w', RemoveEntry p fuel nm this w = Ok (this', w') ->
     consistent this' /\ name this' = name this /\
     forall k, named k this' = if String.eqb k nm then None else named k this).
Proof.
  intros Hc Hch. split; intros this' w' E.
  - destruct (UpdateEntry_frame p _ _ _ _ _ _ _ E) as (fu & time & w1 & r & w2 & F).
    destruct (with_entry_consistent nm e time this Hc Hch) as (C1 & C2 & C3).
    destruct (Flush_consistent p _ _ _ _ _ _ F C1) as (D1 & D2 & D3).
    split_and_all; [done|congruence|]. intros k. by rewrite D3.
  - pose proof Hc as [Hs (props & Hf & Hsz)].
    destruct (RemoveEntry_frame p _ _ _ _ _ _ _ E Hf) as (fu & time & w1 & r & w2 & F).
    unfold child in Hch. apply negb_true_iff, orb_false_iff in Hch as [Hd Hdd].
    assert (Hne : "."%string <> nm) by (intros <-; by rewrite String.eqb_refl in Hd).
    destruct (SMap.find nm (entries this)) as [old|] eqn:Eo.
    + set (f2 := mk _ _ _) in F.
      assert (C : consistent f2 /\ forall k, named k f2
                    = if String.eqb k nm then None else named k this).
      { assert (Hs2 : SMap.sorted (SMap.insert "." (Entry.resized (-1) time props)
                                    (entries this))) by by apply SMapFacts.sorted_insert.
        split; [split; cbn [f2 entries]; [by apply SMapFacts.sorted_erase|]|].
        - exists (Entry.resized (-1) time props).
          rewrite SMapFacts.find_erase, SMapFacts.find_insert_eq by done.
          destruct (String.eqb_spec "." nm); [done|]. split; [done|].
          pose proof (SMapFacts.count_erase child nm
            (SMap.insert "." (Entry.resized (-1) time props) (entries this))) as Hcnt.
          rewrite SMapFacts.find_insert_ne, Eo in Hcnt by done.
          rewrite SMapFacts.count_insert, Hf in Hcnt by done.
          unfold child at 2 in Hcnt. rewrite Hd, Hdd in Hcnt. cbn [orb negb] in Hcnt.
          cbn [Entry.resized Entry.size]. rewrite Hsz, u64_add, Hcnt. f_equal. lia.
        - intros k. unfold named; cbn [f2 entries]. rewrite SMapFacts.find_erase by done.
          rewrite SMapFacts.find_insert.
          destruct (String.eqb_spec k "."), (String.eqb_spec k nm); done. }
      destruct C as [C1 C2]. destruct (Flush_consistent p _ _ _ _ _ _ F C1) as (D1 & D2 & D3).
      split_and_all; [done|done|]. intros k. by rewrite D3.
    + destruct (Flush_consistent p _ _ _ _ _ _ F Hc) as (D1 & D2 & D3).
      split_and_all; [done|done|]. intros k. rewrite D3. unfold named.
      destruct (String.eqb_spec k nm) as [->|]; [by rewrite Hd, Eo|done].
Qed.

(** ** Persistence, for any provider that meets the contract *)
Lemma encode_size_inj m1 m2 :
  Metadata.wf m1 -> Metadata.wf m2 -> Metadata.encode m1 = Metadata.encode m2 ->
  size m1 = size m2.
Proof.
  intros (H1 & _) (H2 & _) E. apply (f_equal (fun l => be_value (take 8 l))) in E.
  unfold Metadata.encode in E. rewrite !take_app_length' in E by (by rewrite length_be_bytes).
  rewrite !be_value_bytes in E. unfold in_u64 in *.
  rewrite !Z.mod_small in E by (change (8 * Z.of_nat 8) with 64; lia). done.
Qed.

Definition metadata_cost (es : list (string * Entry.t)) : Z :=
  fold_right (fun it c => zlen (Metadata.encode (Entry.metadata (snd it))) + c) 0 es.

Lemma metadata_cost_nonneg es : 0 <= metadata_cost es.
Proof.
  induction es as [|it es IH]; cbn [metadata_cost fold_right]; [lia|].
  pose proof (zlen_nonneg (Metadata.encode (Entry.metadata it.2))).
  unfold metadata_cost in IH. lia.
Qed.

Section Persistence.
Context {P B : Type} `{BlobProviderLaws P B} (p : P).

Definition keeps (w w' : world) : Prop :=
  forall id d, bp_stored p w id d -> bp_stored p w' id d.
(** the entry's blob exists and has the size its metadata says *)
Definition entry_live (w : world) (e : Entry.t) : Prop :=
  metadata_ok (Entry.metadata e) /\
  exists d, bp_stored p w (Entry.id e) d /\ size (Entry.metadata e) = zlen d.
Definition entries_live (w : world) (es : list (string * Entry.t)) : Prop :=
  Forall (fun it => fst it <> ".."%string -> entry_live w (snd it)) es.
(** any effect on values, but every stored blob is kept *)
Definition gentle (w w' : world) (cost : Z) : Prop :=
  step p w w' (fun _ => True) cost /\ keeps w w'.

Lemma stored_size_eq w id d d' :
  bp_stored p w id d -> bp_stored p w id d' -> zlen d = zlen d'.
Proof.
  intros S1 S2. apply bp_stored_meta in S1 as (_ & _ & md & V1 & W1 & <-).
  apply bp_stored_meta in S2 as (_ & _ & md' & V2 & W2 & <-).
  assert (E : Metadata.encode md = Metadata.encode md') by congruence.
  by apply encode_size_inj.
Qed.

Lemma stored_small w id d : bp_stored p w id d -> zlen d < 2 ^ 64.
Proof.
  intros S1. apply bp_stored_meta in S1 as (_ & _ & md & _ & (W & _) & <-). apply W.
Qed.

Lemma entry_live_keeps w w' e : keeps w w' -> entry_live w e -> entry_live w' e.
Proof. intros Hk [Hm (d & Hd & Hs)]. split; [done|]. eauto. Qed.

Lemma entries_live_keeps w w' es : keeps w w' -> entries_live w es -> entries_live w' es.
Proof.
  intros Hk He. eapply Forall_impl; [exact He|]. intros it Hit Hne.
  eapply entry_live_keeps; eauto.
Qed.

(** rewriting one blob without changing its size keeps every entry live *)
Lemma entries_live_write w w1 id d d1 cost es :
  step p w w1 (eq id) cost -> bp_stored p w id d -> bp_stored p w1 id d1 ->
  zlen d1 = zlen d -> entries_live w es -> entries_live w1 es.
Proof.
  intros Hst Hd Hd1 Hz He. eapply Forall_impl; [exact He|]. intros it Hit Hne.
  destruct (Hit Hne) as [Hm (d' & Hd' & Hs')]. split; [done|].
  destruct (decide (id = Entry.id it.2)) as [Eq|Hn].
  - exists d1. rewrite <- Eq in *. split; [done|]. rewrite Hz, Hs'. by eapply stored_size_eq.
  - exists d'. split; [|done]. by apply (step_stored Hst).
Qed.

Lemma gentle_refl w : bp_inv p w -> gentle w w 0.
Proof.
  intros Hi. split; [|by intros id d]. eapply step_weaken; [by apply step_refl|done|lia].
Qed.

Lemma gentle_trans w1 w2 w3 c1 c2 :
  gentle w1 w2 c1 -> gentle w2 w3 c2 -> gentle w1 w3 (c1 + c2).
Proof.
  intros [A1 A2] [B1 B2]. split; [by eapply step_trans|]. intros id d Hd. auto.
Qed.

Lemma gentle_weaken w w' c c' : gentle w w' c -> c <= c' -> gentle w w' c'.
Proof. intros [A1 A2] Hc. split; [|done]. by eapply step_weaken. Qed.

Lemma gentle_inv w w' c : gentle w w' c -> bp_inv p w'.
Proof. intros [A _]. apply A. Qed.

Lemma SetMetadata_gentle w e :
  bp_inv p w -> entry_live w e -> map_room w (zlen (Metadata.encode (Entry.metadata e))) ->
  exists w', SetMetadata (Entry.id e) (Entry.metadata e) w = Ok (tt, w') /\
    gentle w w' (zlen (Metadata.encode (Entry.metadata e))).
Proof.
  intros Hi [Hm (d & Hd & Hs)] Hr.
  destruct (bp_stored_meta _ _ _ _ Hd) as (Hold & Hne & _).
  destruct (bp_SetMetadata p w (Entry.id e) (Entry.metadata e) Hi Hold Hne Hm Hr)
    as (w' & E & Hst & _ & Hk).
  exists w'. split; [done|]. split; [eapply step_weaken; [exact Hst|done|lia]|].
  intros id d' Hd'. destruct (decide (Entry.id e = id)) as [<-|Hn].
  - apply Hk; [done|]. rewrite Hs. by eapply stored_size_eq.
  - by apply (step_stored Hst).
Qed.

Lemma set_metadata_all_gentle es inc w :
  bp_inv p w -> entries_live w es -> map_room w (metadata_cost es) ->
  exists w', set_metadata_all es inc w = Ok (tt, w') /\ gentle w w' (metadata_cost es).
Proof.
  revert w. induction es as [|[k e] es IH]; intros w Hi Hl Hr.
  { exists w. split; [done|]. by apply gentle_refl. }
  apply Forall_cons in Hl as [He Hl]. cbn [metadata_cost fold_right snd] in *.
  fold (metadata_cost es) in *. pose proof (metadata_cost_nonneg es) as Hc.
  pose proof (zlen_nonneg (Metadata.encode (Entry.metadata e))) as Hz.
  cbn [set_metadata_all].
  assert (Hfirst : exists w1,
    (if (String.eqb k "." && negb inc) || String.eqb k ".." then ret tt
     else SetMetadata (Entry.id e) (Entry.metadata e)) w = Ok (tt, w1) /\
    gentle w w1 (zlen (Metadata.encode (Entry.metadata e)))).
  { destruct ((_ && _) || _) eqn:Eb.
    - exists w. split; [done|]. eapply gentle_weaken; [by apply gentle_refl|lia].
    - apply orb_false_iff in Eb as [_ Eb]. apply String.eqb_neq in Eb.
      apply SetMetadata_gentle; [done|by apply He|]. eapply map_room_mono; [exact Hr|lia]. }
  destruct Hfirst as (w1 & E1 & Hg1). rewrite (bind_ok _ _ _ _ _ E1).
  destruct (IH w1) as (w2 & E2 & Hg2).
  - by eapply gentle_inv.
  - eapply entries_live_keeps; [apply Hg1|done].
  - apply (step_room (proj1 Hg1)). by rewrite Z.add_comm.
  - exists w2. split; [done|]. by eapply gentle_trans.
Qed.

Lemma UpdateMetadataCache_gentle inc f w :
  bp_inv p w -> entries_live w (entries f) -> map_room w (metadata_cost (entries f)) ->
  exists w', UpdateMetadataCache inc f w = Ok (true, w') /\
    gentle w w' (metadata_cost (entries f)).
Proof.
  intros Hi Hl Hr. destruct (set_metadata_all_gentle (entries f) inc w Hi Hl Hr) as (w' & E & Hg).
  exists w'. split; [|done]. unfold UpdateMetadataCache, bind, GetBlobMap, gets; cbn [obind].
  destruct (bp_map _ _ Hi) as (m & -> & _). by rewrite E.
Qed.

(** the blob of [i], of size [n], holds the encoding of [f], then anything *)
Definition holds_folder (w : world) (i : string) (f : Folder.t) (n : Z) : Prop :=
  exists r, bp_stored p w i (folder_encode f ++ r) /\ zlen (folder_encode f ++ r) = n.

Lemma LoadFolder_gentle i f w n :
  bp_inv p w -> folder_wf f -> holds_folder w i f n -> entries_live w (entries f) ->
  map_room w (metadata_cost (entries f)) ->
  exists w', LoadFolder p i w = Ok (Some (set_modified false f), w') /\
    gentle w w' (metadata_cost (entries f)).
Proof.
  intros Hi Hwf (r & Hs & _) Hl Hr. set (d := folder_encode f ++ r) in *.
  destruct (bp_stored_meta _ _ _ _ Hs) as (_ & Hne & _).
  destruct (bp_OpenBlob p w i d Hi Hs) as (b & E1 & <- & Hsz & Hop).
  assert (Hpos : 0 < zlen d).
  { unfold d. rewrite zlen_app, FolderCodec.zlen_folder_encode.
    pose proof (zlen_nonneg (concat (map item_encode (entries f)))).
    pose proof (str_size_nonneg (name f)). pose proof (zlen_nonneg r). lia. }
  destruct (UpdateMetadataCache_gentle false (set_modified false f) w Hi Hl Hr)
    as (w' & E3 & Hg).
  exists w'. split; [|done]. unfold LoadFolder. rewrite BlobMapFacts.empty_str_false by done.
  rewrite (bind_ok _ _ _ _ _ E1), Hsz. destruct (Z.eqb_spec (zlen d) 0); [lia|].
  rewrite (bind_ok _ _ _ _ _ (bp_Read p w b d 0 (zlen d) Hi Hop Hs Hsz ltac:(lia) ltac:(lia))).
  rewrite read_at_all by (unfold zlen; lia). destruct (Z.ltb_spec 0 (zlen d)); [|lia].
  destruct (FolderCodec.folder_Deserialize_app f (BufferedInputStream.make d (zlen d)) r)
    as (s' & -> & _); [done| |done|done|].
  - apply IStreamFacts.make_ok. by eapply stored_small.
  - by rewrite (bind_ok _ _ _ _ _ E3).
Qed.

Lemma Flush_fits n f props w d :
  bp_inv p w -> folder_wf f -> modified f = true ->
  SMap.find "." (entries f) = Some props ->
  bp_stored p w (Entry.id props) d -> zlen d <= limit (fs w) ->
  zlen (folder_encode f) <= zlen d -> zlen (folder_encode f) < BufferedOutputStream.limit ->
  entries_live w (entries f) -> map_room w (metadata_cost (entries f)) ->
  exists w', Flush p (Datatypes.S n) f w = Ok ((true, set_modified false f), w') /\
    step p w w' (fun _ => True) (metadata_cost (entries f)) /\
    holds_folder w' (Entry.id props) f (zlen d) /\
    (forall id d', Entry.id props <> id -> bp_stored p w id d' -> bp_stored p w' id d') /\
    entries_live w' (entries f).
Proof.
  intros Hi Hwf Hmod Hf Hs Hlim Hfit Hsmall Hl Hr.
  destruct (bp_OpenBlob p w _ d Hi Hs) as (b & E1 & Hid & Hsz & Hop).
  destruct (FolderCodec.folder_Serialize_appends f BufferedOutputStream.init)
    as (out & E2 & Hout); [done|apply OStreamFacts.init_ok|exact Hsmall|].
  assert (Hne : folder_encode f <> []).
  { intros E. apply (f_equal zlen) in E. rewrite FolderCodec.zlen_folder_encode in E.
    pose proof (zlen_nonneg (concat (map item_encode (entries f)))).
    pose proof (str_size_nonneg (name f)). change (zlen []) with 0 in E. lia. }
  destruct (BlobMapFacts.stream_data_bytes out _ Hout Hne) as (_ & Hoff & Hle & Htake).
  rewrite <- Hid in Hs.
  destruct (bp_Write p w b d 0 (BufferedOutputStream.buffer out) (zlen (folder_encode f))
    Hi Hop Hs Hsz ltac:(lia) (conj (zlen_nonneg _) Hle) ltac:(lia))
    as (w1 & E3 & Hst1 & Hs1 & _).
  change (Z.to_nat 0) with 0%nat in Hs1. rewrite Htake in Hs1.
  set (d1 := write_at d 0 (folder_encode f)) in *.
  assert (Hd1 : zlen d1 = zlen d).
  { unfold d1, zlen in *. rewrite length_write_at. lia. }
  pose proof (step_inv Hst1) as Hi1.
  assert (Hl1 : entries_live w1 (entries f)) by (by eapply entries_live_write).
  assert (Hr1 : map_room w1 (metadata_cost (entries f)))
    by (apply (step_room Hst1); by rewrite Z.add_0_r).
  destruct (UpdateMetadataCache_gentle true (set_modified false f) w1 Hi1 Hl1 Hr1)
    as (w2 & E4 & Hg).
  exists w2. split_and_all.
  - cbn [Flush]. rewrite Hmod. cbn [negb]. rewrite (self_found _ _ Hf).
    rewrite FolderCodec.GetSerializedSize_folder
      by (done || (unfold BufferedOutputStream.limit in *; lia)).
    rewrite (bind_ok _ _ _ _ _ E1), Hsz.
    destruct (Z.leb_spec (zlen (folder_encode f)) (zlen d)); [|lia].
    rewrite (bind_ok _ _ _ _ _ (eq_refl : ret (Some b, f) w = _)).
    unfold write_out. rewrite E2. cbn [negb]. rewrite Hoff, (bind_ok _ _ _ _ _ E3).
    rewrite Z.ltb_irrefl. by rewrite (bind_ok _ _ _ _ _ E4).
  - change (metadata_cost (entries f)) with (0 + metadata_cost (entries f)).
    eapply step_trans; [|apply Hg]. eapply step_weaken; [exact Hst1|done|lia].
  - exists (drop (length (folder_encode f)) d). rewrite <- Hid.
    assert (Ed1 : d1 = folder_encode f ++ drop (length (folder_encode f)) d) by done.
    rewrite <- Ed1. split; [by apply Hg|done].
  - intros id d' Hn Hd'. apply Hg. apply (step_stored Hst1); [|done].
    by rewrite Hid.
  - eapply entries_live_keeps; [apply Hg|done].
Qed.
End Persistence.

(** ** Updating a root folder: termination and effect *)
Lemma IsRootFolder_self e e0 f :
  SMap.find "." (entries f) = Some e0 -> Entry.id e = Entry.id e0 ->
  IsRootFolder (set_self e f) = IsRootFolder f.
Proof.
  intros Hf Hid. unfold IsRootFolder, Parent, set_self, set_entries; cbn [entries].
  rewrite SMapFacts.find_insert_ne, SMapFacts.find_insert_eq by done.
  by rewrite Hf, Hid.
Qed.

Lemma with_entry_props nm e time f props :
  SMap.find "." (entries f) = Some props -> nm <> "."%string ->
  exists props', SMap.find "." (entries (with_entry nm e time f)) = Some props' /\
    Entry.id props' = Entry.id props.
Proof.
  intros Hf Hne. unfold with_entry. rewrite (self_found _ _ Hf).
  destruct (SMap.find nm (entries f)); cbn [entries set_self set_entries];
    rewrite SMapFacts.find_insert_ne by done.
  - eauto.
  - rewrite SMapFacts.find_insert_eq. eauto.
Qed.

Section RootUpdate.
Context {P B : Type} `{BlobProviderLaws P B} (p : P).

(** [f] can be written to the blob of [i], which has [size] bytes *)
Record writable (w : world) (i : string) (f : Folder.t) (size : Z) : Prop := {
  writable_wf : folder_wf f;
  writable_blob : exists d, bp_stored p w i d /\ zlen d = size;
  writable_fits : zlen (folder_encode f) <= size <= limit (fs w);
  writable_small : zlen (folder_encode f) < BufferedOutputStream.limit;
  writable_live : entries_live p w (entries f)
}.

Lemma writable_ext w w' i f size :
  fs w' = fs w -> blobMap w' = blobMap w -> uuids w' = uuids w -> fresh w' = fresh w ->
  writable w i f size -> writable w' i f size.
Proof.
  intros E1 E2 E3 E4 [W1 (d & D1 & D2) W5 W3 W4].
  destruct (bp_ext p w w' E1 E2 E3 E4) as (_ & Hk & _). split; [done| |by rewrite E1|done|].
  - exists d. auto.
  - by eapply entries_live_keeps.
Qed.

Lemma Flush_writable n f props w size :
  bp_inv p w -> writable w (Entry.id props) f size -> modified f = true ->
  SMap.find "." (entries f) = Some props -> map_room w (metadata_cost (entries f)) ->
  exists w', Flush p (Datatypes.S n) f w = Ok ((true, set_modified false f), w') /\
    step p w w' (fun _ => True) (metadata_cost (entries f)) /\
    holds_folder p w' (Entry.id props) f size /\
    (forall id d', Entry.id props <> id -> bp_stored p w id d' -> bp_stored p w' id d') /\
    entries_live p w' (entries f).
Proof.
  intros Hi [W1 (d & D1 & <-) [D3 D2] W3 W4] Hm Hf Hr. by eapply Flush_fits.
Qed.

(** the tail of [UpdateEntry]: flush, then refresh the blob map *)
Lemma Flush_refresh n f props w size :
  bp_inv p w -> writable w (Entry.id props) f size -> modified f = true ->
  SMap.find "." (entries f) = Some props -> map_room w (2 * metadata_cost (entries f)) ->
  exists w', (pat! (_, this) <- Flush p (Datatypes.S n) f ;;
              UpdateMetadataCache false this ;;; ret this) w
               = Ok (set_modified false f, w') /\
    step p w w' (fun _ => True) (2 * metadata_cost (entries f)) /\
    holds_folder p w' (Entry.id props) f size /\
    (forall id d', Entry.id props <> id -> bp_stored p w id d' -> bp_stored p w' id d') /\
    entries_live p w' (entries f).
Proof.
  intros Hi Hw Hm Hf Hr. pose proof (metadata_cost_nonneg (entries f)) as Hc.
  destruct (Flush_writable n f props w size Hi Hw Hm Hf) as (w1 & E1 & S1 & H1 & K1 & L1);
    [eapply map_room_mono; [exact Hr|lia]|].
  destruct (UpdateMetadataCache_gentle p false (set_modified false f) w1)
    as (w2 & E2 & G2); [apply S1|done| |].
  { apply (step_room S1). eapply map_room_mono; [exact Hr|]. cbn [entries set_modified]. lia. }
  exists w2. split_and_all.
  - rewrite (bind_ok _ _ _ _ _ E1), (bind_ok _ _ _ _ _ E2). done.
  - replace (2 * metadata_cost (entries f))
      with (metadata_cost (entries f) + metadata_cost (entries f)) by lia.
    eapply step_trans; [exact S1|apply G2].
  - destruct H1 as (r & Hs & Hl). exists r. split; [by apply G2|done].
  - intros id d Hn Hd. by apply G2, K1.
  - eapply entries_live_keeps; [apply G2|done].
Qed.

Lemma GetParentFolder_root f w : IsRootFolder f = true -> GetParentFolder p f w = Ok (None, w).
Proof. unfold GetParentFolder. by intros ->. Qed.

Lemma now_step w :
  bp_inv p w ->
  exists w', now w = Ok (u32 (clock w (ticks w)), w') /\
    step p w w' (fun _ => False) 0 /\ fs w' = fs w /\ blobMap w' = blobMap w /\
    uuids w' = uuids w /\ fresh w' = fresh w.
Proof.
  intros Hi. eexists. split; [reflexivity|]. split; [by apply tick_step|done].
Qed.

Lemma UpdateEntry_root n nm e f props w size :
  bp_inv p w -> SMap.find "." (entries f) = Some props -> IsRootFolder f = true ->
  nm <> "."%string ->
  let f' := with_entry nm e (u32 (clock w (ticks w))) f in
  writable w (Entry.id props) f' size -> map_room w (2 * metadata_cost (entries f')) ->
  exists w', UpdateEntry p (Datatypes.S (Datatypes.S n)) nm e f w = Ok (set_modified false f', w') /\
    step p w w' (fun _ => True) (2 * metadata_cost (entries f')) /\
    holds_folder p w' (Entry.id props) f' size /\
    (forall id d', Entry.id props <> id -> bp_stored p w id d' -> bp_stored p w' id d') /\
    entries_live p w' (entries f').
Proof.
  intros Hi Hf Hroot Hne f' Hw Hr.
  destruct (with_entry_props nm e (u32 (clock w (ticks w))) f props Hf Hne) as (pr & Hpr & Hid).
  rewrite <- Hid in *. fold f' in Hpr.
  remember (Datatypes.S n) as m eqn:Em. cbn [UpdateEntry]. rewrite (self_found _ _ Hf).
  assert (Hm : modified f' = true).
  { unfold f', with_entry. by rewrite (self_found _ _ Hf). }
  destruct (SMap.find nm (entries f)) as [old|] eqn:Eo.
  - rewrite (bind_ok _ _ _ _ _ (eq_refl : ret f w = _)).
    assert (Ef : f' = mk (SMap.insert nm e (entries f)) (name f) true).
    { unfold f', with_entry. by rewrite (self_found _ _ Hf), Eo. }
    rewrite <- Ef, Em. by apply Flush_refresh.
  - destruct (now_step w Hi) as (w1 & E1 & S1 & F1 & F2 & F3 & F4).
    set (f1 := set_self (Entry.resized 1 (u32 (clock w (ticks w))) props) f).
    assert (Hroot1 : IsRootFolder f1 = true)
      by (unfold f1; by rewrite (IsRootFolder_self _ props)).
    assert (Ef : f' = mk (SMap.insert nm e (entries f1)) (name f1) true).
    { unfold f', with_entry. by rewrite (self_found _ _ Hf), Eo. }
    erewrite bind_ok.
    2:{ rewrite (bind_ok _ _ _ _ _ E1). fold f1.
        rewrite (bind_ok _ _ _ _ _ (GetParentFolder_root f1 w1 Hroot1)). reflexivity. }
    rewrite <- Ef, Em.
    destruct (Flush_refresh n f' pr w1 size) as (w2 & E2 & S2 & H2 & K2 & L2).
    + apply S1.
    + by eapply writable_ext.
    + done.
    + done.
    + apply (step_room S1). by rewrite Z.add_0_r.
    + exists w2. split_and_all; [exact E2| |done| |done].
      * change (2 * metadata_cost (entries f')) with (0 + 2 * metadata_cost (entries f')).
        eapply step_trans; [|exact S2]. eapply step_weaken; [exact S1|done|lia].
      * intros id d Hn Hd. apply K2; [done|].
        apply (step_stored S1); [tauto|done].
Qed.

(** the folder [RemoveEntry] writes *)
Definition without_entry (nm : string) (time : Z) (f : Folder.t) : Folder.t :=
  let '(properties, f1) := self f in
  mk (SMap.erase nm (SMap.insert "." (Entry.resized (-1) time properties) (entries f1)))
     (name f1) true.

Lemma RemoveEntry_root n nm e f props w size :
  bp_inv p w -> SMap.sorted (entries f) ->
  SMap.find "." (entries f) = Some props -> IsRootFolder f = true ->
  nm <> "."%string -> SMap.find nm (entries f) = Some e ->
  let f' := without_entry nm (u32 (clock w (ticks w))) f in
  writable w (Entry.id props) f' size -> map_room w (metadata_cost (entries f')) ->
  exists w', RemoveEntry p (Datatypes.S n) nm f w = Ok (set_modified false f', w') /\
    step p w w' (fun _ => True) (metadata_cost (entries f')) /\
    holds_folder p w' (Entry.id props) f' size /\
    (forall id d', Entry.id props <> id -> bp_stored p w id d' -> bp_stored p w' id d') /\
    entries_live p w' (entries f').
Proof.
  intros Hi Hso Hf Hroot Hne He f' Hw Hr.
  destruct (now_step w Hi) as (w1 & E1 & S1 & F1 & F2 & F3 & F4).
  set (props' := Entry.resized (-1) (u32 (clock w (ticks w))) props).
  set (f1 := set_self props' f).
  assert (Hroot1 : IsRootFolder f1 = true)
    by (unfold f1; by rewrite (IsRootFolder_self _ props)).
  assert (Ef : f' = mk (SMap.erase nm (entries f1)) (name f1) true).
  { unfold f', without_entry. by rewrite (self_found _ _ Hf). }
  assert (Hpr : SMap.find "." (entries f') = Some props').
  { rewrite Ef; cbn [entries f1 set_self set_entries].
    rewrite SMapFacts.find_erase by (by apply SMapFacts.sorted_insert).
    destruct (String.eqb_spec "." nm); [congruence|]. apply SMapFacts.find_insert_eq. }
  destruct (Flush_writable n f' props' w1 size) as (w2 & E2 & S2 & H2 & K2 & L2).
  - apply S1.
  - by eapply writable_ext.
  - by rewrite Ef.
  - done.
  - apply (step_room S1). by rewrite Z.add_0_r.
  - exists w2. split_and_all; [| |done| |done].
    + unfold RemoveEntry. rewrite (self_found _ _ Hf), He.
      erewrite bind_ok.
      2:{ rewrite (bind_ok _ _ _ _ _ E1). fold props' f1.
          rewrite (bind_ok _ _ _ _ _ (GetParentFolder_root f1 w1 Hroot1)). reflexivity. }
      rewrite <- Ef. by rewrite (bind_ok _ _ _ _ _ E2).
    + change (metadata_cost (entries f')) with (0 + metadata_cost (entries f')).
      eapply step_trans; [|exact S2]. eapply step_weaken; [exact S1|done|lia].
    + intros id d Hn Hd. apply K2; [done|].
      apply (step_stored S1); [tauto|done].
Qed.
End RootUpdate.

(** ** A concrete folder *)
Definition sample_blob : option FileBlob.t * world :=
  match FileBlobProvider.NewBlob sample_provider 8192 sample_world with
  | Ok r => r
  | _ => (None, sample_world)
  end.
Definition folder_world : world := sample_blob.2.
Definition sample_props : Entry.t :=
  Entry.mk (sample_uuid 0) FOLDER 1000 1000 0 (Metadata.SetSize 8192 Metadata.empty).
Definition sample_folder : Folder.t := mk [("."%string, sample_props)] "root" true.

Lemma sample_folder_wf : folder_wf sample_folder.
Proof.
  unfold folder_wf. split_and_all; [closed_range|closed_range| |by repeat constructor].
  apply Forall_cons_2; [|apply Forall_nil_2]. unfold item_wf, entry_wf. cbn [fst snd].
  split_and_all; [closed_range..|]. apply metadata_sized_ok. lia.
Qed.

Lemma folder_world_ready :
  bp_inv sample_provider folder_world /\
  bp_stored sample_provider folder_world (sample_uuid 0) (replicate (Z.to_nat 8192) 0) /\
  limit (fs folder_world) = 2 ^ 40 /\
  forall n, n <= 2 ^ 30 -> map_room folder_world n.
Proof.
  destruct sample_inv as [Hi Hr].
  destruct (NewBlob_step sample_provider sample_world 8192 Hi)
    as (b & w' & E & S & _ & _ & _ & St & _); [vm_compute; split; discriminate|lia| |].
  { apply Hr. unfold NewBlob_cost. lia. }
  assert (Ew : folder_world = w') by (unfold folder_world, sample_blob; by rewrite E).
  assert (Eb : option_map FileBlob.Id sample_blob.1 = Some (sample_uuid 0))
    by (vm_compute; reflexivity).
  unfold sample_blob in Eb. rewrite E in Eb. injection Eb as Eb.
  rewrite Ew. split_and_all.
  - apply S.
  - rewrite <- Eb. exact St.
  - apply (step_limit S).
  - intros n Hn. apply (step_room S), Hr. unfold NewBlob_cost. lia.
Qed.

Lemma sample_folder_live : entries_live sample_provider folder_world (entries sample_folder).
Proof.
  apply Forall_cons_2; [|apply Forall_nil_2]. intros _. cbn [snd]. split.
  - apply metadata_sized_ok. lia.
  - exists (replicate (Z.to_nat 8192) 0).
    split; [apply folder_world_ready|vm_compute; reflexivity].
Qed.

(** ** Properties *)

(** Folder wire format: [Serialize] writes exactly [GetSerializedSize]
    bytes, and [Deserialize] on a new object, from a buffer that starts with them
    and may go on with anything, returns the same name and entries. *)
Theorem folder_roundtrip (f : Folder.t) (r : list Z) :
  folder_wf f -> zlen (folder_encode f) < BufferedOutputStream.limit ->
  zlen (folder_encode f ++ r) < 2 ^ 64 ->
  exists out, Serialize f BufferedOutputStream.init = (true, out) /\
    zlen (BufferedOutputStream.bytes out) = GetSerializedSize f /\
    let buf := BufferedOutputStream.bytes out ++ r in
    exists s', Deserialize blank (BufferedInputStream.make buf (zlen buf))
                 = (true, set_modified false f, s').
Proof.
  intros Hwf Hl Hr.
  destruct (FolderCodec.folder_Serialize_appends f BufferedOutputStream.init)
    as (out & E & _ & _ & Hb); [done|apply OStreamFacts.init_ok|exact Hl|].
  rewrite OStreamFacts.bytes_init in Hb. cbn [app] in Hb.
  exists out. rewrite Hb. split_and_all; [done| |].
  - rewrite FolderCodec.GetSerializedSize_folder; [done|done|].
    unfold BufferedOutputStream.limit in Hl. lia.
  - cbv zeta. destruct (FolderCodec.folder_Deserialize_app f
      (BufferedInputStream.make (folder_encode f ++ r) (zlen (folder_encode f ++ r))) r)
      as (s' & Es & _); [done|by apply IStreamFacts.make_ok|done|done|]. eauto.
Qed.

Lemma folder_roundtrip_witness :
  exists out, Serialize sample_folder BufferedOutputStream.init = (true, out) /\
    zlen (BufferedOutputStream.bytes out) = GetSerializedSize sample_folder /\
    let buf := BufferedOutputStream.bytes out ++ [9; 9] in
    exists s', Deserialize blank (BufferedInputStream.make buf (zlen buf))
                 = (true, set_modified false sample_folder, s').
Proof.
  apply (folder_roundtrip sample_folder [9; 9]).
  - apply sample_folder_wf.
  - vm_compute. reflexivity.
  - vm_compute. reflexivity.
Defined.

Lemma folder_invariant_witness :
  (forall this' w', UpdateEntry sample_provider 3 "x" Entry.default sample_folder folder_world
       = Ok (this', w') ->
     consistent this' /\ name this' = "root"%string /\
     forall k, named k this'
       = if String.eqb k "x" then Some Entry.default else named k sample_folder) /\
  (forall this' w', RemoveEntry sample_provider 3 "x" sample_folder folder_world
       = Ok (this', w') ->
     consistent this' /\ name this' = "root"%string /\
     forall k, named k this' = if String.eqb k "x" then None else named k sample_folder).
Proof.
  apply (folder_invariant sample_provider 3 "x" Entry.default sample_folder folder_world).
  - split; [by repeat constructor|]. exists sample_props. done.
  - reflexivity.
Defined.

(** Persistence: for a blob provider that keeps its contract, flushing a
    modified folder that fits in its blob succeeds and clears the modified flag;
    [LoadFolder] of the folder's id then returns the same folder, and every other
    stored blob is unchanged. *)
Theorem folder_flush_then_load {P B} `{BlobProviderLaws P B} (p : P) (n : nat)
  (f : Folder.t) (props : Entry.t) (w : world) (size : Z) :
  bp_inv p w -> modified f = true -> SMap.find "." (entries f) = Some props ->
  writable p w (Entry.id props) f size -> map_room w (2 * metadata_cost (entries f)) ->
  exists w1 w2, Flush p (Datatypes.S n) f w = Ok ((true, set_modified false f), w1) /\
    LoadFolder p (Entry.id props) w1 = Ok (Some (set_modified false f), w2) /\
    bp_inv p w2 /\
    forall id d, Entry.id props <> id -> bp_stored p w id d -> bp_stored p w2 id d.
Proof.
  intros Hi Hm Hf Hw Hr. pose proof (metadata_cost_nonneg (entries f)) as Hc.
  destruct (Flush_writable p n f props w size Hi Hw Hm Hf) as (w1 & E1 & S1 & H1 & K1 & L1);
    [eapply map_room_mono; [exact Hr|lia]|].
  destruct (LoadFolder_gentle p (Entry.id props) f w1 size) as (w2 & E2 & G2).
  - apply S1.
  - apply Hw.
  - exact H1.
  - exact L1.
  - apply (step_room S1). eapply map_room_mono; [exact Hr|lia].
  - exists w1, w2. split_and_all; [done|done|by eapply gentle_inv|].
    intros id d Hn Hd. by apply G2, K1.
Qed.

Lemma sample_writable : writable sample_provider folder_world (sample_uuid 0) sample_folder 8192.
Proof.
  split; [apply sample_folder_wf| | |reflexivity|apply sample_folder_live].
  - exists (replicate (Z.to_nat 8192) 0).
    split; [apply folder_world_ready|vm_compute; reflexivity].
  - split; vm_compute; discriminate.
Qed.

Lemma folder_flush_then_load_witness :
  exists w1 w2, Flush sample_provider 1 sample_folder folder_world
      = Ok ((true, set_modified false sample_folder), w1) /\
    LoadFolder sample_provider (sample_uuid 0) w1
      = Ok (Some (set_modified false sample_folder), w2) /\
    bp_inv sample_provider w2 /\
    forall id d, sample_uuid 0 <> id ->
      bp_stored sample_provider folder_world id d -> bp_stored sample_provider w2 id d.
Proof.
  apply (folder_flush_then_load sample_provider 0 sample_folder sample_props folder_world 8192).
  - apply folder_world_ready.
  - reflexivity.
  - reflexivity.
  - apply sample_writable.
  - apply folder_world_ready. vm_compute. discriminate.
Defined.
