(* ===== verification/FileHandle.v ===== *)
(** * File handles (src/src/bdblob/File.cpp)

    A file is a window of [size] bytes at the start of a blob, over any provider that
    keeps its contract.  It can grow to the end of its last block. *)

From Stdlib Require Import ZArith Lia Bool Ascii String.
From stdpp Require Import base list gmap strings.
From S2P Require Import Prelude Streams Metadata Stdio BlobMap BlobStore FileStore.
Set Default Goal Selector "!".
Local Open Scope Z_scope.
Local Open Scope drive_scope.

Module File.
Section File.
Context {P B : Type} `{BlobProvider P B}.
Record t := mk { provider : P; id : string; blob : option B; size : Z }.
Definition make (p : P) : t := mk p EmptyString None 0.
Definition IsOpened (f : t) : bool := match blob f with Some _ => true | None => false end.

Definition BlockSize : M world Z := gets (fun w => BlobConfig.blockSize (config w)).
(** [size] rounded up to whole blocks, at least one *)
Definition capacity (size : Z) : M world Z :=
  bs <- BlockSize ;;
  if bs =? 0 then fail DivByZero else
  let capacity := if size =? 0 then 1 else size in
  ret (u64 (((capacity - 1) / bs + 1) * bs)).

(** [Open(size)]: the capacity is that of [this->size] *)
Definition Open_new (n : Z) (f : t) : M world (bool * t) :=
  if IsOpened f then ret (false, f) else
  c <- capacity (size f) ;;
  b <- NewBlob (provider f) c ;;
  match b with
  | None => ret (false, mk (provider f) (id f) None (size f))
  | Some b => ret (true, mk (provider f) (blob_Id b) (Some b) n)
  end.
(** [Open(id, size)] *)
Definition Open (name : string) (n : Z) (f : t) : M world (bool * t) :=
  if IsOpened f then ret (false, f) else
  b <- OpenBlob (provider f) name ;;
  match b with
  | Some b => if blob_Size b <? n then ret (false, f) else ret (true, mk (provider f) name (Some b) n)
  | None => ret (false, f)
  end.

Definition Read (f : t) (offset len : Z) : M world (list Z) :=
  match blob f with
  | None => ret []
  | Some b =>
      let start := Z.min offset (size f) in
      let stop := Z.min (u64 (offset + len)) (size f) in
      if stop <=? start then ret [] else blob_Read b start (stop - start)
  end.
Definition Write (f : t) (offset : Z) (data : list Z) (len : Z) : M world (Z * t) :=
  match blob f with
  | None => ret (0, f)
  | Some b =>
      c <- capacity (size f) ;;
      let start := Z.min offset c in
      let stop := Z.min (u64 (offset + len)) c in
      if stop <=? start then ret (0, f) else
      result <- blob_Write b start data (stop - start) ;;
      ret (result, if size f <? u64 (start + result) then mk (provider f) (id f) (blob f) (u64 (start + result)) else f)
  end.
Definition Close (f : t) : t := mk (provider f) (id f) None (size f).
End File.
Arguments t : clear implicits.
End File.

(** ** A file over a provider that keeps its contract *)
Section Facts.
Context {P B : Type} `{BlobProviderLaws P B}.
Import File.

(** the file is open on a blob of whole blocks that holds [d] *)
Record opened (f : File.t P B) (w : world) (b : B) (d : list Z) : Prop := {
  op_inv : bp_inv (provider f) w;
  op_blob : blob f = Some b;
  op_open : bp_opened (provider f) b;
  op_stored : bp_stored (provider f) w (blob_Id b) d;
  op_bytes : blob_Size b = zlen d;
  op_limit : zlen d <= limit (fs w);
  op_size : 0 <= size f <= zlen d
}.
(** the end of the last block of [n] bytes *)
Definition round_up (bs n : Z) : Z := ((Z.max 1 n - 1) / bs + 1) * bs.

Lemma capacity_ok w n : 0 < BlobConfig.blockSize (config w) -> 0 <= n -> round_up (BlobConfig.blockSize (config w)) n < 2 ^ 64 ->
  capacity n w = Ok (round_up (BlobConfig.blockSize (config w)) n, w).
Proof using.
  intros Hbs Hn Hr. unfold capacity, BlockSize, bind, gets, ret, obind, round_up in *.
  destruct (Z.eqb_spec (BlobConfig.blockSize (config w)) 0); [lia|].
  destruct (Z.eqb_spec n 0) as [->|Hne]; [change (Z.max 1 0) with 1 in *|rewrite (Z.max_r 1 n) in * by lia];
    rewrite u64_small; try done; unfold in_u64; split; try done;
    apply Z.mul_nonneg_nonneg; try lia; apply Z.add_nonneg_nonneg; try lia; apply Z.div_pos; lia.
Qed.
Lemma round_up_bound bs n : 0 < bs -> 0 <= n -> n <= round_up bs n /\ bs <= round_up bs n.
Proof using.
  intros Hbs Hn. unfold round_up. pose proof (Z.mul_succ_div_gt (Z.max 1 n - 1) bs Hbs) as Hg.
  assert (0 <= (Z.max 1 n - 1) / bs) by (apply Z.div_pos; lia). nia.
Qed.
(** a blob of whole blocks has room for the last block of what is in it *)
Lemma round_up_inside bs n m : 0 < bs -> 0 <= n <= m -> 0 < m -> (bs | m) -> round_up bs n <= m.
Proof using.
  intros Hbs Hn Hm [q ->]. unfold round_up. assert ((Z.max 1 n - 1) / bs < q); [|nia].
  apply Z.div_lt_upper_bound; [done|]. lia.
Qed.

(** reading gives the bytes of the window *)
Lemma file_read f w b d offset len : opened f w b d -> in_u64 offset -> 0 <= len -> offset + len < 2 ^ 64 ->
  Read f offset len w = Ok (read_at (take (Z.to_nat (size f)) d) (Z.to_nat offset) (Z.to_nat len), w).
Proof.
  intros [Hi Hb Ho Hs Hz _ Hsz] Hof Hl Hov. unfold Read. rewrite Hb. unfold in_u64 in Hof.
  rewrite u64_small by (unfold in_u64; lia). unfold read_at.
  destruct (Z.leb_spec (Z.min (offset + len) (size f)) (Z.min offset (size f))) as [Hle|Hgt].
  - unfold ret. do 2 f_equal. unfold zlen in *. destruct (decide (offset < size f)).
    + assert (len = 0) as -> by lia. done.
    + by rewrite drop_ge, take_nil by (rewrite length_take; lia).
  - rewrite (bp_Read _ _ _ d) by (try done; lia). do 2 f_equal. unfold read_at.
    replace (Z.min offset (size f)) with offset by lia. rewrite skipn_firstn_comm, take_take. f_equal. lia.
Qed.

(** writing changes the blob up to the end of the file's last block, and the file
    grows over what was written *)
Lemma file_write f w b d offset data : let bs := BlobConfig.blockSize (config w) in
  opened f w b d -> 0 < bs -> (bs | zlen d) -> 0 < zlen d -> zlen d < 2 ^ 64 -> in_u64 offset -> offset + zlen data < 2 ^ 64 ->
  let n := Z.max 0 (Z.min (zlen data) (round_up bs (size f) - offset)) in
  exists f' w', Write f offset data (zlen data) w = Ok ((n, f'), w') /\
    opened f' w' b (if 0 <? n then write_at d (Z.to_nat offset) (take (Z.to_nat n) data) else d) /\
    size f' = (if 0 <? n then Z.max (size f) (offset + n) else size f).
Proof.
  intros bs Hop Hbs Hdiv Hd Hd64 Hof Hov n. pose proof Hop as [Hi Hb Ho Hs Hz Hlim Hsz]. unfold in_u64 in Hof.
  pose proof (round_up_inside bs (size f) (zlen d) Hbs Hsz Hd Hdiv) as Hr. pose proof (zlen_nonneg data).
  assert (capacity (size f) w = Ok (round_up bs (size f), w)) as Ec by (apply capacity_ok; subst bs; lia).
  unfold Write. rewrite Hb, (bind_ok _ _ _ _ _ Ec), u64_small by (unfold in_u64; lia).
  destruct (Z.leb_spec (Z.min (offset + zlen data) (round_up bs (size f))) (Z.min offset (round_up bs (size f)))) as [Hle|Hgt].
  - exists f, w. destruct (Z.ltb_spec 0 n); [lia|]. split; [|by split]. unfold ret. do 3 f_equal. lia.
  - replace (Z.min offset (round_up bs (size f))) with offset in * by lia.
    replace (Z.min (offset + zlen data) (round_up bs (size f)) - offset) with n by lia.
    destruct (bp_Write (provider f) w b d offset data n Hi Ho Hs Hz ltac:(lia) ltac:(lia) ltac:(lia)) as (w' & Ew & Hst & Hs' & _).
    assert (zlen (write_at d (Z.to_nat offset) (take (Z.to_nat n) data)) = zlen d) as El.
    { unfold zlen in *. rewrite length_write_at, length_take. lia. }
    rewrite (bind_ok _ _ _ _ _ Ew), u64_small by (unfold in_u64; lia). destruct (Z.ltb_spec 0 n); [|lia].
    eexists _, w'. split; [reflexivity|]. pose proof (step_inv (step_core Hst)). pose proof (step_limit (step_core Hst)).
    destruct (Z.ltb_spec (size f) (offset + n)); (split; [split|]; cbn; try done; try congruence; lia).
Qed.

(** a new file has one block, whatever size it is given: what lies beyond cannot be
    written *)
Lemma new_file_one_block p n w f w' : 0 < BlobConfig.blockSize (config w) < 2 ^ 63 -> BlobConfig.blockSize (config w) <= limit (fs w) ->
  bp_inv p w -> map_room w NewBlob_cost -> Open_new n (make p) w = Ok ((true, f), w') ->
  size f = n /\ exists b, blob f = Some b /\ blob_Size b = BlobConfig.blockSize (config w).
Proof.
  intros Hbs Hlim Hi Hroom E. unfold Open_new in E. cbn [IsOpened make blob size provider] in E.
  assert (round_up (BlobConfig.blockSize (config w)) 0 = BlobConfig.blockSize (config w)) as Er by (unfold round_up; change (Z.max 1 0 - 1) with 0; rewrite Z.div_0_l; lia).
  pose proof (capacity_ok w 0) as Ec. rewrite Er in Ec. rewrite (bind_ok _ _ _ _ _ (Ec ltac:(lia) ltac:(lia) ltac:(lia))) in E.
  destruct (bp_NewBlob p w (BlobConfig.blockSize (config w)) Hi ltac:(lia) ltac:(lia) Hroom) as (b & w1 & En & _ & _ & Hsz & _).
  rewrite (bind_ok _ _ _ _ _ En) in E. injection E as <- _. split; [done|]. by exists b.
Qed.
End Facts.
