(* ===== verification/BlobApi.v ===== *)
(** * The file API (src/src/bdblob/BlobApi.cpp, BlobApi.h, BlobError.h)

    [List], [Mkdir], [Put], [Get], [Delete], [Move] and [Info] on paths.  The
    object keeps the root folder in memory; every other folder is loaded from its
    blob for the duration of a call.  A [shared_ptr<Folder>] is therefore either
    the root object or a private copy ([fptr]): mutating the one is visible to
    later calls, mutating the other only through the blob it flushes to.
    Destructors of the copies run where the code's scopes end. *)

From Stdlib Require Import ZArith Lia Bool Ascii String.
From stdpp Require Import base list gmap strings.
From S2P Require Import Prelude Streams StdMap Metadata Stdio BlobMap BlobStore Paths Folder.
Set Default Goal Selector "!".
Local Open Scope Z_scope.
Local Open Scope drive_scope.

Inductive BlobError :=
| SUCCESS | GENERIC_FAILURE | NOT_FOUND | IO_ERROR | ALREADY_EXIST | NOT_SUPPORTED
| FOLDER_NOT_EMPTY | INVALID_NAME | REJECT_DELETE_FOLDER.

(** BlobError.cpp *)
Definition BlobErrorToString (v : BlobError) : string :=
  match v with
  | SUCCESS => "Success."
  | GENERIC_FAILURE => "Some error occurred."
  | NOT_FOUND => "File or folder not found."
  | IO_ERROR => "I/O error."
  | ALREADY_EXIST => "File or folder already exists."
  | NOT_SUPPORTED => "Operation not supported."
  | FOLDER_NOT_EMPTY => "Folder is not empty."
  | INVALID_NAME => "Invalid file or directory name."
  | REJECT_DELETE_FOLDER => "Cannot delete the target as it is a folder."
  end.

Module BlobApi.
(** [initialized] stands for the provider pointer, which is only ever null or the
    provider the section is about *)
Record t := mk { initialized : bool; root : option Folder.t; error : BlobError }.
Definition init : t := mk false None SUCCESS.

Inductive fptr :=
| PRoot
| PLocal (f : Folder.t).

Section Api.
Context {P B : Type} `{BlobProvider P B} (provider : P).

(** the object and the process *)
Abbreviation state := (t * world)%type.
Definition liftW {A} (m : M world A) : M state A := fun '(a, w) =>
  obind (m w) (fun '(r, w') => Ok (r, (a, w'))).
Definition SetError (e : BlobError) : M state unit :=
  fun '(a, w) => Ok (tt, (mk (initialized a) (root a) e, w)).
Definition ClearError : M state unit := SetError SUCCESS.
Definition set_root (r : option Folder.t) : M state unit :=
  fun '(a, w) => Ok (tt, (mk (initialized a) r (error a), w)).
Definition get_root : M state (option Folder.t) := gets (fun s => root (fst s)).
Definition get_config : M state BlobConfig.t := gets (fun s => config (snd s)).

(** ** The two kinds of folder pointers *)
Definition deref (ptr : fptr) : M state Folder.t :=
  match ptr with
  | PLocal f => ret f
  | PRoot => r <- get_root ;; match r with Some f => ret f | None => fail NullDeref end
  end.
Definition assign (ptr : fptr) (f : Folder.t) : M state fptr :=
  match ptr with
  | PLocal _ => ret (PLocal f)
  | PRoot => set_root (Some f) ;;; ret PRoot
  end.
(** a method call that mutates the object *)
Definition call (ptr : fptr) (method : Folder.t -> M world Folder.t) : M state fptr :=
  f <- deref ptr ;;
  f' <- liftW (method f) ;;
  assign ptr f'.
(** a [shared_ptr] goes out of scope: only a private copy is destroyed *)
Definition release (fuel : nat) (ptr : fptr) : M state unit :=
  match ptr with
  | PLocal f => liftW (Folder.destroy provider fuel f)
  | PRoot => ret tt
  end.
Definition release_opt (fuel : nat) (ptr : option fptr) : M state unit :=
  match ptr with None => ret tt | Some ptr => release fuel ptr end.
Definition root_ptr : M state (option fptr) :=
  r <- get_root ;; ret (match r with Some _ => Some PRoot | None => None end).
Definition load (id : string) : M state (option fptr) :=
  f <- liftW (Folder.LoadFolder provider id) ;;
  ret (match f with Some f => Some (PLocal f) | None => None end).
Definition Entries (ptr : fptr) : M state (list (string * Entry.t)) :=
  f <- deref ptr ;; ret (Folder.entries f).

Definition last_part (parts : list string) : string := List.last parts EmptyString.

(** [this->root ? this->root->Properties().id : ""] *)
Definition RootId : M state string :=
  r <- get_root ;;
  match r with
  | None => ret EmptyString
  | Some f => e <- lift (Folder.Properties f) ;; ret (Entry.id e)
  end.
(** [if (BlobConfig::RootId() != this->RootId()) BlobConfig::SetRootId(...)] *)
Definition save_root_id : M state unit :=
  configured <- liftW BlobConfigOps.RootId ;;
  current <- RootId ;;
  if String.eqb configured current then ret tt
  else liftW (BlobConfigOps.SetRootId current).

(** ** GetParentFolder *)
Fixpoint descend (fuel : nat) (parts : list string) (parent : fptr) : M state (option fptr) :=
  match parts with
  | [] | [_] => ret (Some parent)
  | part :: parts' =>
      entries <- Entries parent ;;
      match SMap.find part entries with
      | None => release fuel parent ;;; ret None
      | Some e =>
          next <- load (Entry.id e) ;;
          release fuel parent ;;;
          match next with
          | None => ret None
          | Some parent => descend fuel parts' parent
          end
      end
  end.
Definition GetParentFolder (fuel : nat) (parts : list string) : M state (option fptr) :=
  match parts with
  | [] => ret None
  | [_] => root_ptr
  | _ =>
      (* a null root is dereferenced by the loop *)
      descend fuel parts PRoot
  end.

(** ** Initialize *)
Definition Initialize (fuel : nat) (rootId : string) : M state bool :=
  a <- gets fst ;;
  assertM (negb (initialized a) && match root a with None => true | Some _ => false end) ;;;
  ClearError ;;;
  modify (fun '(a, w) => (mk true (root a) (error a), w)) ;;;
  if negb (empty_str rootId) then
    r <- liftW (Folder.LoadFolder provider rootId) ;;
    set_root r ;;;
    match r with
    | None => SetError NOT_FOUND ;;; ret false
    | Some _ => ret true
    end
  else
    c <- get_config ;;
    blob <- liftW (NewBlob provider (BlobConfig.MinBlobSize c)) ;;
    match blob with
    | None => SetError IO_ERROR ;;; ret false
    | Some blob =>
        pat! (f, _) <- liftW (Folder.make provider fuel EmptyString (blob_Id blob) None) ;;
        set_root (Some f) ;;;
        liftW (BlobConfigOps.SetRootId (blob_Id blob)) ;;;
        ret true
    end.

(** ** List *)
Definition List_ (fuel : nat) (path : string) : M state (list (string * Entry.t)) :=
  ClearError ;;;
  parts <- lift (SplitPath path) ;;
  folder <- match parts with [] => root_ptr | _ => GetParentFolder fuel parts end ;;
  match folder with
  | None => SetError NOT_FOUND ;;; ret []
  | Some folder =>
      entries <- Entries folder ;;
      match parts with
      | [] => release fuel folder ;;; ret entries
      | _ =>
          match SMap.find (last_part parts) entries with
          | None => SetError NOT_FOUND ;;; release fuel folder ;;; ret []
          | Some e =>
              match Entry.type e with
              | FILE => release fuel folder ;;; ret [(last_part parts, e)]
              | FOLDER =>
                  next <- load (Entry.id e) ;;
                  release fuel folder ;;;
                  match next with
                  | None => SetError IO_ERROR ;;; ret []
                  | Some folder =>
                      entries <- Entries folder ;;
                      release fuel folder ;;;
                      ret entries
                  end
              end
          end
      end
  end.

(** ** Mkdir *)
Definition Mkdir (fuel : nat) (path : string) : M state bool :=
  ClearError ;;;
  if has_wildcard path then SetError INVALID_NAME ;;; ret false else
  parts <- lift (SplitPath path) ;;
  match parts with
  | [] => SetError ALREADY_EXIST ;;; ret false
  | _ =>
      folder <- GetParentFolder fuel parts ;;
      match folder with
      | None => SetError NOT_FOUND ;;; ret false
      | Some folder =>
          entries <- Entries folder ;;
          match SMap.find (last_part parts) entries with
          | Some _ => SetError ALREADY_EXIST ;;; release fuel folder ;;; ret false
          | None =>
              c <- get_config ;;
              blob <- liftW (NewBlob provider (BlobConfig.MinBlobSize c)) ;;
              match blob with
              | None => SetError IO_ERROR ;;; release fuel folder ;;; ret false
              | Some blob =>
                  parent <- deref folder ;;
                  pat! (target, parent) <-
                    liftW (Folder.make provider fuel (last_part parts) (blob_Id blob)
                             (Some parent)) ;;
                  folder <- match parent with
                            | Some parent => assign folder parent
                            | None => ret folder
                            end ;;
                  pat! (_, target) <- liftW (Folder.Flush provider fuel target) ;;
                  save_root_id ;;;
                  liftW (Folder.destroy provider fuel target) ;;;
                  release fuel folder ;;;
                  ret true
              end
          end
      end
  end.

(** ** Put *)
(** the result, and the out parameters [folder] and [filename] *)
Definition ParsePutTarget (fuel : nat) (path localPath : string)
  : M state (bool * option fptr * string) :=
  parts <- lift (SplitPath path) ;;
  match parts with
  | [] => folder <- root_ptr ;; ret (true, folder, BaseName localPath)
  | _ =>
      folder <- GetParentFolder fuel parts ;;
      let filename := last_part parts in
      match folder with
      | None => SetError NOT_FOUND ;;; ret (false, None, filename)
      | Some folder =>
          entries <- Entries folder ;;
          match SMap.find filename entries with
          | None => ret (true, Some folder, filename)
          | Some e =>
              match Entry.type e with
              | FILE => SetError ALREADY_EXIST ;;; ret (false, Some folder, filename)
              | FOLDER =>
                  next <- load (Entry.id e) ;;
                  release fuel folder ;;;
                  match next with
                  | None => SetError IO_ERROR ;;; ret (false, None, filename)
                  | Some folder => ret (true, Some folder, BaseName localPath)
                  end
              end
          end
      end
  end.

(** [fread] the local file from [offset] in blocks and write them to the blob;
    the result is [totalBytes] *)
Fixpoint copy_in (fuel : nat) (blockSize : Z) (file : string) (blob : B) (offset : Z)
  : M world Z :=
  match fuel with
  | O => nofuel
  | Datatypes.S fuel =>
      buffer <- gets (fun w => Fs.fread file offset blockSize (fs w)) ;;
      let bytes := zlen buffer in
      if bytes <=? 0 then ret offset else
      n <- blob_Write blob offset buffer bytes ;;
      if n <? bytes then ret offset
      else copy_in fuel blockSize file blob (offset + bytes)
  end.

Definition Put_target (fuel : nat) (path localPath : string) (force : bool)
  : M state (option (option fptr * string * string * Z) * option fptr) :=
  pat! (ok, folder, filename) <- ParsePutTarget fuel path localPath ;;
  if ok : bool then ret (Some (folder, filename, EmptyString, 0), folder) else
  a <- gets fst ;;
  match error a, force, folder with
  | ALREADY_EXIST, true, Some ptr =>
      entries <- Entries ptr ;;
      match SMap.find filename entries with
      | None => fail UncaughtException
      | Some e =>
          ClearError ;;;
          ret (Some (folder, filename, Entry.id e, Entry.createTime e), folder)
      end
  | _, _, _ => ret (None, folder)
  end.

Definition blob_size_for (c : BlobConfig.t) (fileSize : Z) : Z :=
  if 0 <? fileSize
  then u64 (((fileSize - 1) / BlobConfig.blockSize c + 1) * BlobConfig.blockSize c)
  else BlobConfig.MinBlobSize c.

Definition Put (fuel : nat) (path localPath : string) (force : bool) : M state bool :=
  ClearError ;;;
  if has_wildcard path then SetError INVALID_NAME ;;; ret false else
  pat! (target, folder) <- Put_target fuel path localPath force ;;
  match target with
  | None => release_opt fuel folder ;;; ret false
  | Some (_, filename, oldBlobId, createTime) =>
      file <- gets (fun s => Fs.fopen_existing localPath (fs (snd s))) ;;
      match file with
      | None => release_opt fuel folder ;;; ret false
      | Some file =>
          fileSize <- gets (fun s => Fs.fsize file (fs (snd s))) ;;
          c <- get_config ;;
          blob <- liftW (NewBlob provider (blob_size_for c fileSize)) ;;
          match blob with
          | None => SetError IO_ERROR ;;; release_opt fuel folder ;;; ret false
          | Some blob =>
              time <- liftW now ;;
              bm <- liftW GetBlobMap ;;
              metadata <- match bm with
                          | None => ret Metadata.empty
                          | Some _ =>
                              pat! (_, md) <- liftW (GetMetadata (blob_Id blob) Metadata.empty) ;;
                              ret md
                          end ;;
              let entry := Entry.mk (blob_Id blob) FILE
                (if 0 <? createTime then createTime else time) time fileSize metadata in
              folder <- match folder with
                        | None => fail NullDeref
                        | Some ptr =>
                            call ptr (Folder.UpdateEntry provider fuel filename entry)
                        end ;;
              save_root_id ;;;
              (if empty_str oldBlobId then ret tt
               else liftW (DeleteBlob provider oldBlobId)) ;;;
              totalBytes <- liftW (copy_in (Datatypes.S (Z.to_nat fileSize))
                                     (BlobConfig.blockSize c) file blob 0) ;;
              ok <- (if totalBytes <? fileSize then SetError IO_ERROR ;;; ret false
                     else ret true) ;;
              release fuel folder ;;;
              ret ok
          end
      end
  end.

(** ** Info *)
Definition Info (fuel : nat) (path : string) : M state (option Entry.t) :=
  ClearError ;;;
  parts <- lift (SplitPath path) ;;
  folder <- match parts with [] => root_ptr | _ => GetParentFolder fuel parts end ;;
  let filename := match parts with [] => "."%string | _ => last_part parts end in
  match folder with
  | None => SetError NOT_FOUND ;;; ret None
  | Some folder =>
      entries <- Entries folder ;;
      match SMap.find filename entries with
      | None => SetError NOT_FOUND ;;; release fuel folder ;;; ret None
      | Some e => release fuel folder ;;; ret (Some e)
      end
  end.

(** ** Get *)
(** blocks from the blob to the local file; [offset] is also [totalBytes] *)
Fixpoint copy_out (fuel : nat) (blockSize : Z) (blob : B) (file : string)
  (offset remaining : Z) : M world Z :=
  match fuel with
  | O => nofuel
  | Datatypes.S fuel =>
      if remaining <=? 0 then ret offset else
      buffer <- blob_Read blob offset blockSize ;;
      if zlen buffer <=? 0 then ret offset else
      let bytes := Z.min (zlen buffer) remaining in
      n <- on_fs (Fs.fwrite file offset buffer bytes) ;;
      if n <? bytes then ret offset
      else copy_out fuel blockSize blob file (offset + bytes) (remaining - bytes)
  end.

Definition Get (fuel : nat) (path localPath : string) (force : bool) : M state bool :=
  ClearError ;;;
  present <- gets (fun s => Fs.exists_ localPath (fs (snd s))) ;;
  if negb force && present then SetError ALREADY_EXIST ;;; ret false else
  entry <- Info fuel path ;;
  match entry with
  | None => ret false
  | Some entry =>
      match Entry.type entry with
      | FOLDER => SetError NOT_SUPPORTED ;;; ret false
      | FILE =>
          blob <- liftW (OpenBlob provider (Entry.id entry)) ;;
          match blob with
          | None => SetError IO_ERROR ;;; ret false
          | Some blob =>
              file <- liftW (on_fs (fun s => Ok (Fs.fopen_trunc localPath s))) ;;
              match file with
              | None => SetError IO_ERROR ;;; ret false
              | Some file =>
                  c <- get_config ;;
                  totalBytes <- liftW (copy_out (Datatypes.S (Z.to_nat (Entry.size entry)))
                                (BlobConfig.blockSize c) blob file 0 (Entry.size entry)) ;;
                  if totalBytes <? Entry.size entry then SetError IO_ERROR ;;; ret false
                  else ret true
              end
          end
      end
  end.

(** the overload that reads into memory: the result, the bytes stored in
    [output], and [*size] *)
Definition Get_range (fuel : nat) (path : string) (offset : Z) (size : Z)
  : M state (bool * list Z * Z) :=
  ClearError ;;;
  if size =? 0 then ret (true, [], size) else
  entry <- Info fuel path ;;
  match entry with
  | None => ret (false, [], size)
  | Some entry =>
      match Entry.type entry with
      | FOLDER => SetError NOT_SUPPORTED ;;; ret (false, [], size)
      | FILE =>
          blob <- liftW (OpenBlob provider (Entry.id entry)) ;;
          match blob with
          | None => SetError IO_ERROR ;;; ret (false, [], size)
          | Some blob =>
              if Entry.size entry <=? offset then ret (true, [], 0) else
              let remaining := Z.min size (Entry.size entry - offset) in
              output <- liftW (blob_Read blob offset remaining) ;;
              if zlen output <? remaining
              then SetError IO_ERROR ;;; ret (false, output, zlen output)
              else ret (true, output, zlen output)
          end
      end
  end.

(** ** Delete *)
Definition Delete (fuel : nat) (path : string) : M state bool :=
  ClearError ;;;
  parts <- lift (SplitPath path) ;;
  match parts with
  | [] => SetError NOT_SUPPORTED ;;; ret false
  | _ =>
      folder <- GetParentFolder fuel parts ;;
      match folder with
      | None => fail NullDeref
      | Some folder =>
          entries <- Entries folder ;;
          match SMap.find (last_part parts) entries with
          | None => release fuel folder ;;; ret true
          | Some e =>
              full <- match Entry.type e with
                      | FILE => ret false
                      | FOLDER =>
                          target <- load (Entry.id e) ;;
                          match target with
                          | None => ret false
                          | Some target =>
                              es <- Entries target ;;
                              release fuel target ;;;
                              ret (2 <? zlen es)
                          end
                      end ;;
              if full : bool then SetError FOLDER_NOT_EMPTY ;;; release fuel folder ;;; ret false
              else
                liftW (DeleteBlob provider (Entry.id e)) ;;;
                folder <- call folder (Folder.RemoveEntry provider fuel (last_part parts)) ;;
                release fuel folder ;;;
                ret true
          end
      end
  end.

(** ** Move *)
(** the rest of [Move], from [destParent->UpdateEntry] on; [srcEntry] is an
    iterator into the source folder and is read here *)
Definition move_entry (fuel : nat) (srcParent : fptr) (srcName : string)
  (destParent : fptr) (destName : string) : M state bool :=
  es <- Entries srcParent ;;
  match SMap.find srcName es with
  | None => fail OutOfBounds
  | Some srcEntry =>
      destParent <- call destParent (Folder.UpdateEntry provider fuel destName srcEntry) ;;
      srcParent <- call srcParent (Folder.RemoveEntry provider fuel srcName) ;;
      release fuel destParent ;;;
      release fuel srcParent ;;;
      ret true
  end.

Definition Move (fuel : nat) (src dest : string) (overwrite : bool) : M state bool :=
  ClearError ;;;
  srcParts <- lift (SplitPath src) ;;
  srcParent <- GetParentFolder fuel srcParts ;;
  match srcParent with
  | None => SetError NOT_FOUND ;;; ret false
  | Some srcParent =>
      let srcName := last_part srcParts in
      es <- Entries srcParent ;;
      match SMap.find srcName es with
      | None => SetError IO_ERROR ;;; release fuel srcParent ;;; ret false
      | Some _ =>
          destParts <- lift (SplitPath dest) ;;
          destParent <- GetParentFolder fuel destParts ;;
          match destParent with
          | None => SetError NOT_FOUND ;;; release fuel srcParent ;;; ret false
          | Some destParent =>
              if String.eqb (JoinPaths srcParts) (JoinPaths destParts) then
                release fuel destParent ;;; release fuel srcParent ;;; ret true
              else
              let destName := last_part destParts in
              des <- Entries destParent ;;
              match SMap.find destName des with
              | None => move_entry fuel srcParent srcName destParent destName
              | Some destEntry =>
                  match Entry.type destEntry with
                  | FILE =>
                      if negb overwrite then
                        SetError ALREADY_EXIST ;;; release fuel destParent ;;;
                        release fuel srcParent ;;; ret false
                      else
                        liftW (DeleteBlob provider (Entry.id destEntry)) ;;;
                        destParent <- call destParent
                                        (Folder.RemoveEntry provider fuel destName) ;;
                        move_entry fuel srcParent srcName destParent destName
                  | FOLDER =>
                      next <- load (Entry.id destEntry) ;;
                      release fuel destParent ;;;
                      match next with
                      | None => SetError IO_ERROR ;;; release fuel srcParent ;;; ret false
                      | Some destParent =>
                          if String.eqb (JoinPaths srcParts) (JoinPaths (destParts ++ [srcName]))
                          then release fuel destParent ;;; release fuel srcParent ;;; ret true
                          else move_entry fuel srcParent srcName destParent srcName
                      end
                  end
              end
          end
      end
  end.
End Api.
End BlobApi.
