(* ===== verification/BlobApiFacts.v ===== *)
(** * Theorems about the file API

    The main theorem runs a whole [Put] and a whole [Get] against any blob
    provider that keeps its contract: the file comes back byte for byte.  The
    lemmas before it run the steps of [Put] and [Get] one by one. *)

From Stdlib Require Import ZArith Lia Bool Ascii String.
From stdpp Require Import base list gmap strings.
From S2P Require Import Prelude Streams StdMap Metadata Stdio BlobMap BlobStore FileStore.
From S2P Require Import Paths Folder FolderFacts BlobApi.
Set Default Goal Selector "!".
Local Open Scope Z_scope.
Local Open Scope drive_scope.
Import Folder BlobApi.

(** ** Adding a new entry to a folder *)
Definition item_size (it : string * Entry.t) : Z := zlen (item_encode it).

Lemma zlen_items es : zlen (concat (map item_encode es)) = SMapFacts.total item_size es.
Proof.
  unfold SMapFacts.total. induction es as [|it es IH]; cbn [map concat fold_right]; [done|].
  rewrite zlen_app, IH. done.
Qed.
Lemma metadata_cost_total es :
  metadata_cost es
    = SMapFacts.total (fun it => zlen (Metadata.encode (Entry.metadata it.2))) es.
Proof. done. Qed.

Lemma item_size_resized k delta time props :
  item_size (k, Entry.resized delta time props) = item_size (k, props).
Proof. unfold item_size. by rewrite !FolderCodec.zlen_item_encode; cbn [fst snd]; rewrite !zlen_entry_encode. Qed.

Lemma entry_wf_resized delta time props :
  entry_wf props -> in_u32 time -> entry_wf (Entry.resized delta time props).
Proof.
  intros (H1 & H2 & H3 & H4 & H5) Ht. unfold entry_wf. cbn [Entry.resized Entry.id
    Entry.createTime Entry.modifyTime Entry.size Entry.metadata].
  split_and_all; try done; apply u64_range.
Qed.

(** the ["."] entry after a change of the number of children *)
Lemma resized_entries delta time f props :
  folder_wf f -> SMap.find "." (entries f) = Some props -> in_u32 time ->
  let es := SMap.insert "." (Entry.resized delta time props) (entries f) in
  SMap.sorted es /\ Forall item_wf es /\ zlen es = zlen (entries f) /\
  SMapFacts.total item_size es = SMapFacts.total item_size (entries f) /\
  metadata_cost es = metadata_cost (entries f).
Proof.
  intros (_ & _ & Hes & Hso) Hf Ht es.
  assert (Hp : item_wf (".", props)).
  { apply SMapFacts.find_in in Hf. rewrite Forall_forall in Hes.
    apply Hes. by apply list_elem_of_In. }
  split_and_all.
  - by apply SMapFacts.sorted_insert.
  - apply SMapFacts.Forall_insert; [|done]. destruct Hp as [Hp1 Hp2].
    split; [done|]. by apply entry_wf_resized.
  - unfold zlen, es. by rewrite (SMapFacts.length_insert_old _ _ _ props).
  - pose proof (SMapFacts.total_insert item_size "." (Entry.resized delta time props) _ Hso) as T.
    rewrite Hf, item_size_resized in T. cbn beta iota in T. fold es in T. lia.
  - rewrite !metadata_cost_total.
    match goal with |- SMapFacts.total ?g _ = _ =>
      pose proof (SMapFacts.total_insert g "." (Entry.resized delta time props) _ Hso) as T end.
    rewrite Hf in T. cbn beta iota in T. cbn [snd Entry.resized Entry.metadata] in T. fold es in T.
    rewrite (metadata_cost_total (entries f)). lia.
Qed.

Section NewEntry.
Context (f : Folder.t) (props e : Entry.t) (nm : string) (time : Z).
Hypotheses (Hwf : folder_wf f) (Hf : SMap.find "." (entries f) = Some props)
  (Hnew : SMap.find nm (entries f) = None) (He : item_wf (nm, e)) (Ht : in_u32 time)
  (Hcount : zlen (entries f) + 1 < 2 ^ 32).

Let f1 := set_self (Entry.resized 1 time props) f.

Lemma nm_not_self : nm <> "."%string.
Proof. intros ->. congruence. Qed.

Lemma with_entry_new : with_entry nm e time f = Folder.mk (SMap.insert nm e (entries f1)) (name f) true.
Proof. unfold with_entry. by rewrite (self_found _ _ Hf), Hnew. Qed.

Lemma find_new_f1 : SMap.find nm (entries f1) = None.
Proof.
  cbn [f1 set_self set_entries entries]. rewrite SMapFacts.find_insert_ne; [done|].
  apply nm_not_self.
Qed.


Lemma with_entry_new_wf :
  folder_wf (with_entry nm e time f) /\
  zlen (folder_encode (with_entry nm e time f))
    = zlen (folder_encode f) + zlen (item_encode (nm, e)) /\
  metadata_cost (entries (with_entry nm e time f))
    = metadata_cost (entries f) + zlen (Metadata.encode (Entry.metadata e)).
Proof.
  rewrite with_entry_new. destruct (resized_entries 1 time f props Hwf Hf Ht) as (Hso & Hes & Hlen & Htot & Hcost).
  change (SMap.insert "." (Entry.resized 1 time props) (entries f)) with (entries f1) in *.
  pose proof find_new_f1 as Hn. destruct Hwf as (Hnm & _).
  split_and_all; cbn [entries name].
  - split; [done|]. split; [|split].
    + unfold in_u32, zlen in *. cbn [entries]. rewrite SMapFacts.length_insert_new by done. lia.
    + by apply SMapFacts.Forall_insert.
    + by apply SMapFacts.sorted_insert.
  - rewrite !FolderCodec.zlen_folder_encode. cbn [entries name]. rewrite !zlen_items.
    pose proof (SMapFacts.total_insert item_size nm e _ Hso) as T. rewrite Hn in T.
    change (item_size (nm, e)) with (zlen (item_encode (nm, e))) in T. lia.
  - rewrite <- Hcost, !metadata_cost_total.
    match goal with |- SMapFacts.total ?g _ = _ =>
      pose proof (SMapFacts.total_insert g nm e _ Hso) as T end.
    rewrite Hn in T. cbn [snd] in T. rewrite (metadata_cost_total (entries f1)). lia.
Qed.

Lemma with_entry_new_find k :
  SMap.find k (entries (with_entry nm e time f))
    = if String.eqb k nm then Some e
      else if String.eqb k "." then Some (Entry.resized 1 time props)
      else SMap.find k (entries f).
Proof.
  rewrite with_entry_new; cbn [entries f1 set_self set_entries]. by rewrite !SMapFacts.find_insert.
Qed.

Lemma IsRootFolder_with :
  child nm = true -> IsRootFolder (with_entry nm e time f) = IsRootFolder f.
Proof.
  intros Hc. unfold child in Hc. apply negb_true_iff, orb_false_iff in Hc as [_ Hdd].
  unfold IsRootFolder, Parent. rewrite !with_entry_new_find, Hf.
  pose proof nm_not_self as Hd. rewrite String.eqb_sym in Hdd. rewrite Hdd.
  change (String.eqb ".." ".") with false. change (String.eqb "." ".") with true.
  destruct (String.eqb_spec "." nm); [congruence|]. done.
Qed.

Lemma with_entry_new_live {P B} `{BlobProviderLaws P B} (p : P) w :
  entries_live p w (entries f) -> entry_live p w e ->
  entries_live p w (entries (with_entry nm e time f)).
Proof.
  intros Hl Hle. rewrite with_entry_new. cbn [entries f1 set_self set_entries].
  apply SMapFacts.Forall_insert; [done|]. apply SMapFacts.Forall_insert; [|done].
  intros Hne. cbn [snd]. apply SMapFacts.find_in in Hf. unfold entries_live in Hl.
  rewrite Forall_forall in Hl. apply list_elem_of_In in Hf. by apply (Hl _ Hf).
Qed.
End NewEntry.

(** ** The copy loops *)
Lemma read_at_drop {l off n} : read_at l off n = take n (drop off l).
Proof. done. Qed.

Lemma write_at_chunk (data d0 : list Z) (o n : nat) :
  (o <= length data <= length d0)%nat ->
  let k := length (read_at data o n) in
  write_at (take o data ++ drop o d0) o (read_at data o n)
    = take (o + k) data ++ drop (o + k) d0.
Proof.
  intros Ho k. unfold write_at.
  assert (Hl : length (take o data ++ drop o d0) = length d0).
  { rewrite length_app, length_take, length_drop. lia. }
  rewrite Hl. replace (o - length d0)%nat with 0%nat by lia. cbn [replicate].
  rewrite app_nil_r, take_app_length' by (rewrite length_take; lia).
  rewrite app_assoc. f_equal.
  - unfold read_at. rewrite <- (take_drop o data) at 3.
    rewrite take_app_ge by (rewrite length_take; lia). f_equal.
    rewrite length_take. unfold k, read_at. rewrite length_take, length_drop.
    destruct (Nat.le_ge_cases n (length data - o)).
    + f_equal. lia.
    + rewrite !take_ge; rewrite ?length_drop; [done|lia..].
  - rewrite drop_app_ge by (rewrite length_take; unfold k; lia).
    rewrite drop_drop, length_take. f_equal. unfold k. lia.
Qed.

Section Copy.
Context {P B : Type} `{BlobProviderLaws P B} (p : P).

Lemma copy_in_ok fuel bs file b data d0 (o : nat) w :
  bp_inv p w -> bp_opened p b -> blob_Size b = zlen d0 -> 0 < bs ->
  zlen d0 <= limit (fs w) ->
  ~ bp_private p w file -> files (fs w) !! file = Some data ->
  (o <= length data <= length d0)%nat -> (length data - o < fuel)%nat ->
  bp_stored p w (blob_Id b) (take o data ++ drop o d0) ->
  exists w', copy_in fuel bs file b (Z.of_nat o) w = Ok (zlen data, w') /\
    step p w w' (eq (blob_Id b)) 0 /\
    bp_stored p w' (blob_Id b) (data ++ drop (length data) d0) /\
    forall id, map_value w' id = map_value w id.
Proof.
  revert o w. induction fuel as [|fuel IH]; intros o w Hi Hop Hsz Hbs Hlim Hpr Hfile Ho Hfu Hst;
    [lia|].
  cbn [copy_in]. unfold bind at 1, gets at 1, obind at 1. unfold Fs.fread, Fs.content.
  rewrite Hfile. change (default [] (Some data)) with data. rewrite Nat2Z.id.
  set (chunk := read_at data o (Z.to_nat bs)).
  assert (Hc : length chunk = Nat.min (Z.to_nat bs) (length data - o))
    by apply length_read_at.
  destruct (Z.leb_spec (zlen chunk) 0) as [Hz|Hz]; unfold zlen in Hz.
  { assert (o = length data) as -> by lia. exists w.
    rewrite take_ge in Hst by lia. split_and_all; [done| |done|done].
    eapply step_weaken; [by apply step_refl|done|lia]. }
  pose proof (write_at_chunk data d0 o (Z.to_nat bs) Ho) as Hw. cbv zeta in Hw. fold chunk in Hw.
  assert (Hlen : zlen (take o data ++ drop o d0) = zlen d0).
  { unfold zlen. rewrite length_app, length_take, length_drop. lia. }
  destruct (bp_Write p w b _ (Z.of_nat o) chunk (zlen chunk) Hi Hop Hst)
    as (w1 & E1 & S1 & St1 & V1); [congruence|lia|unfold zlen; lia|unfold zlen in *; lia|].
  rewrite Nat2Z.id in St1. unfold zlen in St1 at 1.
  rewrite Nat2Z.id, (take_ge chunk), Hw in St1 by lia.
  rewrite (bind_ok _ _ _ _ _ E1), Z.ltb_irrefl.
  replace (Z.of_nat o + zlen chunk) with (Z.of_nat (o + length chunk)) by (unfold zlen; lia).
  destruct (IH (o + length chunk)%nat w1) as (w2 & E2 & S2 & St2 & V2); try done.
  - apply S1.
  - by rewrite (step_limit S1).
  - intros Hp. by apply (quiet_private (step_quiet S1)) in Hp.
  - by rewrite (quiet_files (step_quiet S1)).
  - lia.
  - lia.
  - exists w2. split_and_all; [done| |done|].
    + change 0 with (0 + 0). by eapply step_trans.
    + intros id. by rewrite V2.
Qed.

(** writing to a local file over and over is writing it once *)
Lemma store_store q d d' s : Fs.store q d (Fs.store q d' s) = Fs.store q d s.
Proof. unfold Fs.store, Fs.set_files; cbn. by rewrite insert_insert_eq. Qed.

Lemma copy_out_ok fuel bs b file data r (o : nat) w :
  bp_inv p w -> bp_opened p b -> blob_Size b = zlen (data ++ r) -> 0 < bs ->
  zlen data <= limit (fs w) -> ~ bp_private p w file ->
  bp_stored p w (blob_Id b) (data ++ r) ->
  (o <= length data)%nat -> (length data - o < fuel)%nat ->
  copy_out fuel bs b file (Z.of_nat o) (zlen data - Z.of_nat o)
    (set_fs (Fs.store file (take o data) (fs w)) w)
  = Ok (zlen data, set_fs (Fs.store file data (fs w)) w).
Proof.
  revert o. induction fuel as [|fuel IH]; intros o Hi Hop Hsz Hbs Hlim Hpr Hst Ho Hfu; [lia|].
  cbn [copy_out]. destruct (Z.leb_spec (zlen data - Z.of_nat o) 0) as [Hz|Hz]; unfold zlen in Hz.
  { assert (o = length data) as -> by lia. by rewrite take_ge by lia. }
  set (w1 := set_fs (Fs.store file (take o data) (fs w)) w).
  pose proof (bp_other_file p w file (take o data) Hi Hpr) as Hcore. fold w1 in Hcore.
  assert (Hst1 : bp_stored p w1 (blob_Id b) (data ++ r))
    by (apply (step_stored Hcore); [tauto|done]).
  rewrite (bind_ok _ _ _ _ _ (bp_Read p w1 b (data ++ r) (Z.of_nat o) bs
    (step_inv Hcore) Hop Hst1 Hsz ltac:(lia) ltac:(lia))).
  rewrite Nat2Z.id. set (chunk := read_at (data ++ r) o (Z.to_nat bs)).
  assert (Hc : length chunk = Nat.min (Z.to_nat bs) (length data + length r - o)).
  { unfold chunk. by rewrite length_read_at, length_app. }
  destruct (Z.leb_spec (zlen chunk) 0); [unfold zlen in *; lia|].
  set (k := Z.min (zlen chunk) (zlen data - Z.of_nat o)).
  assert (Hk : 0 < k /\ k <= zlen chunk /\ Z.of_nat o + k <= zlen data)
    by (unfold k, zlen in *; lia).
  assert (Htake : take o data ++ take (Z.to_nat k) chunk = take (o + Z.to_nat k) data).
  { unfold chunk, read_at. rewrite take_take.
    rewrite <- (take_drop o data) at 3. rewrite take_app_ge by (rewrite length_take; lia).
    f_equal. rewrite drop_app_le by lia. rewrite take_app_le
      by (rewrite length_drop; unfold k, zlen in *; lia).
    f_equal. rewrite length_take. unfold k, zlen in *. lia. }
  unfold bind at 1, on_fs at 1.
  rewrite (FsFacts.fwrite_prefix file (Z.of_nat o) chunk k (fs w1) (take o data)).
  2:{ cbn. by rewrite lookup_insert_eq. }
  2:{ lia. }
  2:{ lia. }
  2:{ cbn. lia. }
  cbn [obind]. rewrite Z.ltb_irrefl, Nat2Z.id.
  assert (Hwr : write_at (take o data) o (take (Z.to_nat k) chunk)
                = take (o + Z.to_nat k) data).
  { rewrite <- Htake. replace o with (length (take o data)) at 2 by (rewrite length_take; lia).
    apply write_at_end. }
  rewrite Hwr. unfold w1 at 1. cbn [fs set_fs]. rewrite store_store.
  change (set_fs ?s w1) with (set_fs s w).
  replace (Z.of_nat o + k) with (Z.of_nat (o + Z.to_nat k)) by lia.
  replace (zlen data - Z.of_nat o - k) with (zlen data - Z.of_nat (o + Z.to_nat k)) by lia.
  apply IH; try done; unfold zlen in *; lia.
Qed.
End Copy.

(** ** Running the API on a root folder in memory *)
Lemma liftW_ok {A} (m : M world A) a w r w' :
  m w = Ok (r, w') -> liftW m (a, w) = Ok (r, (a, w')).
Proof. unfold liftW. by intros ->. Qed.
Lemma lift_ok {W A} (o : outcome A) (x : A) (s : W) : o = Ok x -> lift o s = Ok (x, s).
Proof. by intros ->. Qed.
Lemma gets_ok {W A} (g : W -> A) s : gets g s = Ok (g s, s).
Proof. done. Qed.

Section RootRuns.
Context {P B : Type} `{BlobProviderLaws P B} (p : P).

Definition with_error (e : BlobError) (a : BlobApi.t) : BlobApi.t :=
  BlobApi.mk (initialized a) (root a) e.
Definition with_root (f : Folder.t) (a : BlobApi.t) : BlobApi.t :=
  BlobApi.mk (initialized a) (Some f) (error a).

(** the root is in memory, agrees with the saved root id, and its blob has
    [spare] bytes left *)
Record ready (a : BlobApi.t) (w : world) (f : Folder.t) (props : Entry.t) (spare : Z) : Prop := {
  ready_root : root a = Some f;
  ready_inv : bp_inv p w;
  ready_wf : folder_wf f;
  ready_self : SMap.find "." (entries f) = Some props;
  ready_top : IsRootFolder f = true;
  ready_blob : exists d, bp_stored p w (Entry.id props) d /\ zlen d <= limit (fs w) /\
                 zlen (folder_encode f) + spare <= zlen d < BufferedOutputStream.limit;
  ready_live : entries_live p w (entries f);
  ready_saved : BlobConfig.rootId (config w) = Some (Entry.id props)
}.

Lemma root_ptr_ok a w f : root a = Some f -> root_ptr (a, w) = Ok (Some PRoot, (a, w)).
Proof. intros E. unfold root_ptr, get_root, bind, gets; cbn. by rewrite E. Qed.
Lemma deref_root a w f : root a = Some f -> deref PRoot (a, w) = Ok (f, (a, w)).
Proof. intros E. unfold deref, get_root, bind, gets; cbn. by rewrite E. Qed.
Lemma Entries_root a w f :
  root a = Some f -> Entries PRoot (a, w) = Ok (entries f, (a, w)).
Proof. intros E. unfold Entries. by rewrite (bind_ok _ _ _ _ _ (deref_root a w f E)). Qed.

(** a path with one component names an entry of the root *)
Lemma GetParentFolder_one fuel nm a w f :
  root a = Some f ->
  BlobApi.GetParentFolder p fuel [nm] (a, w) = Ok (Some PRoot, (a, w)).
Proof. apply root_ptr_ok. Qed.

Lemma Put_target_new fuel path nm local force a w f :
  root a = Some f -> SplitPath path = Ok [nm] -> SMap.find nm (entries f) = None ->
  Put_target p fuel path local force (a, w)
    = Ok ((Some (Some PRoot, nm, EmptyString, 0), Some PRoot), (a, w)).
Proof.
  intros Hr Hs Hn. unfold Put_target, ParsePutTarget. unfold bind at 1.
  rewrite (bind_ok _ _ _ _ _ (lift_ok _ _ (a, w) Hs)).
  rewrite (bind_ok _ _ _ _ _ (GetParentFolder_one fuel nm a w f Hr)).
  rewrite (bind_ok _ _ _ _ _ (Entries_root a w f Hr)).
  cbn [last_part List.last]. by rewrite Hn.
Qed.

Lemma save_root_id_same a w f props :
  root a = Some f -> SMap.find "." (entries f) = Some props ->
  BlobConfig.rootId (config w) = Some (Entry.id props) ->
  save_root_id (a, w) = Ok (tt, (a, w)).
Proof.
  intros Hr Hf Hc. unfold save_root_id.
  rewrite (bind_ok _ _ (a, w) (Entry.id props) (a, w)).
  2:{ apply liftW_ok. unfold BlobConfigOps.RootId. by rewrite Hc. }
  rewrite (bind_ok _ _ (a, w) (Entry.id props) (a, w)); [by rewrite String.eqb_refl|].
  unfold RootId, get_root, bind, gets; cbn [obind fst]. rewrite Hr.
  unfold lift, Folder.Properties. by rewrite Hf.
Qed.

Lemma stored_metadata w id md :
  bp_inv p w -> map_value w id = Some (Metadata.encode md) -> Metadata.wf md ->
  GetMetadata id Metadata.empty w = Ok ((true, md), w).
Proof.
  intros Hi Hv Hwf. destruct (bp_map _ _ Hi) as (m & Hm & Hmi).
  unfold GetMetadata, map_value in *. rewrite Hm in *.
  by rewrite (BlobMapFacts.GetMetadata_stored id md m (fs w)).
Qed.

Lemma blob_size_for_ok c n :
  0 < BlobConfig.blockSize c -> 0 <= n -> n + BlobConfig.blockSize c < 2 ^ 64 ->
  0 <= blob_size_for c n /\ n <= blob_size_for c n.
Proof.
  intros Hb Hn Hl. unfold blob_size_for. destruct (Z.ltb_spec 0 n).
  - set (bs := BlobConfig.blockSize c) in *.
    pose proof (Z.mul_div_le (n - 1) bs Hb). pose proof (Z.mul_succ_div_gt (n - 1) bs Hb).
    rewrite u64_small by (unfold in_u64; nia). nia.
  - unfold BlobConfig.MinBlobSize. pose proof (u64_range (BlobConfig.blockSize c * BlobConfig.dataBlocks c)) as R.
    destruct R. lia.
Qed.
End RootRuns.

Section PutGet.
Context {P B : Type} `{BlobProviderLaws P B} (p : P).

(** bytes a new file entry [nm] can take in the folder's blob: four bytes of
    length for each string, the id, the fixed fields and the metadata *)
Definition entry_room (nm : string) : Z := 4 + str_size nm + (21 + 4096) + 20.

Definition new_entry (id : string) (time fileSize n : Z) : Entry.t :=
  Entry.mk id FILE time time fileSize (Metadata.SetSize n Metadata.empty).

Lemma new_entry_wf nm id time fileSize n :
  in_u32 (str_size nm) -> str_size id <= 4096 -> in_u64 fileSize -> 0 <= n < 2 ^ 63 ->
  item_wf (nm, new_entry id (u32 time) fileSize n) /\
  zlen (item_encode (nm, new_entry id (u32 time) fileSize n)) <= entry_room nm.
Proof.
  intros Hnm Hid Hsz Hn. pose proof (str_size_nonneg id) as Hp. split.
  - split; [done|]. unfold entry_wf. cbn [snd new_entry Entry.id Entry.createTime
      Entry.modifyTime Entry.size Entry.metadata].
    split_and_all; [unfold in_u32; lia|apply u32_range|apply u32_range|apply Hsz..|].
    apply metadata_sized_ok. lia.
  - rewrite FolderCodec.zlen_item_encode. cbn [fst snd]. rewrite zlen_entry_encode.
    cbn [new_entry Entry.id Entry.metadata].
    change (codec_encode ?m) with (Metadata.encode m). rewrite zlen_metadata_sized.
    unfold entry_room. lia.
Qed.

(** what a successful [Put] of a new root file leaves *)
Record put_done (a a' : BlobApi.t) (w w' : world) (f f' : Folder.t) (props props' : Entry.t)
  (nm : string) (e : Entry.t) (data : list Z) : Prop := {
  put_ready : ready p a' w' f' props' 0;
  put_error : error a' = SUCCESS;
  put_entry k : SMap.find k (entries f')
    = if String.eqb k nm then Some e
      else if String.eqb k "." then Some props' else SMap.find k (entries f);
  put_file : Entry.type e = FILE /\ Entry.size e = zlen data;
  put_blob : exists r, bp_stored p w' (Entry.id e) (data ++ r);
  put_others id d : id <> Entry.id props -> bp_stored p w id d -> bp_stored p w' id d;
  put_config : config w' = config w;
  put_limit : limit (fs w') = limit (fs w);
  put_fresh : Entry.id e <> Entry.id props' /\ Entry.id props' = Entry.id props;
  put_clean : set_modified false f' = f';
  put_cost : metadata_cost (entries f') = metadata_cost (entries f) + 20;
  put_holds : exists n, holds_folder p w' (Entry.id props') f' n;
  put_room n : map_room w (NewBlob_cost + 2 * (metadata_cost (entries f) + 20) + n) ->
               map_room w' n;
  put_quiet : quiet bp_private p w w'
}.

(** the state between [UpdateEntry] and the copy of the data *)
Record put_middle (w w3 : world) (f f' : Folder.t) (props : Entry.t) (b : B) (N : Z) : Prop := {
  mid_inv : bp_inv p w3;
  mid_opened : bp_opened p b;
  mid_size : blob_Size b = N;
  mid_blob : bp_stored p w3 (blob_Id b) (replicate (Z.to_nat N) 0);
  mid_root : exists n, holds_folder p w3 (Entry.id props) f' n /\
               n <= limit (fs w) /\ n < BufferedOutputStream.limit;
  mid_live : entries_live p w3 (entries f');
  mid_fresh : blob_Id b <> Entry.id props;
  mid_keep id x : id <> Entry.id props -> bp_stored p w id x ->
                  id <> blob_Id b /\ bp_stored p w3 id x;
  mid_config : config w3 = config w;
  mid_limit : limit (fs w3) = limit (fs w);
  mid_room n : map_room w (NewBlob_cost + 2 * (metadata_cost (entries f) + 20) + n) ->
               map_room w3 n;
  mid_quiet : quiet bp_private p w w3
}.

Section Put.
Context (nm path local : string) (a : BlobApi.t) (w : world) (f : Folder.t) (props : Entry.t)
  (data : list Z).
Let N : Z := blob_size_for (config w) (zlen data).
Let md : BlobMetadata := Metadata.SetSize N Metadata.empty.
Hypotheses (Hready : ready p a w f props (entry_room nm)) (Hchild : child nm = true)
  (Hnm : in_u32 (str_size nm)) (Hnew : SMap.find nm (entries f) = None)
  (Hcount : zlen (entries f) + 1 < 2 ^ 32)
  (Hloc : files (fs w) !! local = Some data) (Hpriv : ~ bp_private p w local)
  (Hbs : 0 < BlobConfig.blockSize (config w))
  (Hsum : zlen data + BlobConfig.blockSize (config w) < 2 ^ 63)
  (Hnl : N <= limit (fs w)) (Hn63 : N < 2 ^ 63)
  (Hroom : map_room w (NewBlob_cost + 2 * (metadata_cost (entries f) + 20))).

Lemma put_size : 0 <= N /\ zlen data <= N.
Proof. apply blob_size_for_ok; [done|apply zlen_nonneg|lia]. Qed.

(** the folder with the new entry, and what it costs *)
Lemma put_folder b t1 time :
  str_size (blob_Id b) <= 4096 -> in_u32 time ->
  let e := new_entry (blob_Id b) (u32 t1) (zlen data) N in
  let f' := with_entry nm e time f in
  folder_wf f' /\ zlen (folder_encode f') <= zlen (folder_encode f) + entry_room nm /\
  metadata_cost (entries f') = metadata_cost (entries f) + 20 /\
  IsRootFolder f' = true /\
  forall k, SMap.find k (entries f')
    = if String.eqb k nm then Some e
      else if String.eqb k "." then Some (Entry.resized 1 time props)
      else SMap.find k (entries f).
Proof.
  intros Hidl Ht e f'. destruct Hready as [Hr Hi Hwf Hself Htop _ _ _].
  pose proof (zlen_nonneg data) as Hdn. pose proof put_size as HN.
  destruct (new_entry_wf nm (blob_Id b) t1 (zlen data) N) as [Hitem Hisz];
    [done|done|unfold in_u64; lia|lia|]. fold e in Hitem, Hisz.
  pose proof (with_entry_new_wf f props e nm time Hwf Hself Hnew Hitem Ht Hcount)
    as (Hwf' & Hlen' & Hcost').
  split_and_all; [done|unfold f'; rewrite Hlen'; lia| | |].
  - unfold f'. rewrite Hcost'. cbn [e new_entry Entry.metadata]. by rewrite zlen_metadata_sized.
  - rewrite <- Htop. by apply (IsRootFolder_with f props).
  - by apply with_entry_new_find.
Qed.

(** the new entry and the old ones are live once the blob exists *)
Lemma put_live b w1 t1 time :
  step p w w1 (eq (blob_Id b)) NewBlob_cost -> ~ old w (blob_Id b) ->
  bp_stored p w1 (blob_Id b) (replicate (Z.to_nat N) 0) ->
  entries_live p w1
    (entries (with_entry nm (new_entry (blob_Id b) (u32 t1) (zlen data) N) time f)).
Proof.
  intros S1 Hfresh Hst. destruct Hready as [Hr Hi Hwf Hself Htop _ Hlive _].
  pose proof put_size as HN. eapply with_entry_new_live; [exact Hself|exact Hnew| |].
  - unfold entries_live in *. rewrite Forall_forall in *. intros it Hit Hne.
    destruct (Hlive it Hit Hne) as [Hm (x & Hx & Hs)]. split; [done|]. exists x.
    split; [|done]. apply (step_stored S1); [|done]. intros E. apply Hfresh. rewrite E.
    by apply (bp_stored_meta _ _ _ _ Hx).
  - split; [apply metadata_sized_ok; lia|]. exists (replicate (Z.to_nat N) 0).
    split; [done|]. unfold zlen; cbn. rewrite length_replicate. lia.
Qed.

Lemma Put_middle n :
  exists b w1 w2 w3 t1 time,
    let e := new_entry (blob_Id b) (u32 t1) (zlen data) N in
    let f' := with_entry nm e time f in
    NewBlob p N w = Ok (Some b, w1) /\ now w1 = Ok (u32 t1, w2) /\
    GetMetadata (blob_Id b) Metadata.empty w2 = Ok ((true, md), w2) /\
    (exists m, blobMap w2 = Some m) /\
    UpdateEntry p (Datatypes.S (Datatypes.S n)) nm e f w2 = Ok (set_modified false f', w3) /\
    str_size (blob_Id b) <= 4096 /\ in_u32 time /\ put_middle w w3 f f' props b N.
Proof.
  pose proof Hready as [Hr Hi Hwf Hself Htop (d & Hd & Hdl & Hsp) Hlive Hsaved].
  pose proof put_size as HN. pose proof (metadata_cost_nonneg (entries f)) as Hcost.
  destruct (bp_NewBlob p w N Hi ltac:(lia) Hn63) as
    (b & w1 & E1 & S1 & Hfresh & Hbsz & Hop & Hst1 & Hv1 & Hidl);
    [eapply map_room_mono; [exact Hroom|lia]|].
  destruct (now_step p w1 (step_inv S1)) as (w2 & E2 & S2 & F21 & F22 & F23 & F24).
  set (t1 := clock w1 (ticks w1)) in *. set (time := u32 (clock w2 (ticks w2))).
  destruct (put_folder b t1 time Hidl (u32_range _)) as (Hwf' & Hlen' & Hcost' & Htop' & _).
  pose proof (put_live b w1 t1 time S1 Hfresh Hst1) as Hlive1.
  set (e := new_entry (blob_Id b) (u32 t1) (zlen data) N) in *.
  set (f' := with_entry nm e time f) in *.
  assert (Hold : forall id x, bp_stored p w id x -> id <> blob_Id b).
  { intros id x Hx ->. by apply Hfresh, (bp_stored_meta _ _ _ _ Hx). }
  assert (Hk2 : forall id x, bp_stored p w id x -> bp_stored p w2 id x).
  { intros id x Hx. apply (step_stored S2); [tauto|]. apply (step_stored S1); [|done].
    specialize (Hold id x Hx). congruence. }
  assert (Hl2 : limit (fs w2) = limit (fs w)) by (by rewrite (step_limit S2), (step_limit S1)).
  assert (Hw2 : writable p w2 (Entry.id props) f' (zlen d)).
  { split; [done| |lia|lia|].
    - exists d. split; [by apply Hk2|done].
    - eapply entries_live_keeps; [|exact Hlive1]. intros id x Hx.
      apply (step_stored S2); [tauto|done]. }
  assert (Hnmd : nm <> "."%string) by (intros E; rewrite E in Hchild; done).
  destruct (UpdateEntry_root p n nm e f props w2 (zlen d) (step_inv S2) Hself Htop Hnmd Hw2)
    as (w3 & E3 & S3 & H3 & K3 & L3).
  { apply (step_room S2). rewrite Z.add_0_r. apply (step_room S1). fold time f'.
    rewrite Hcost'. eapply map_room_mono; [exact Hroom|lia]. }
  fold time f' in E3, H3, L3.
  assert (Hidp : Entry.id props <> blob_Id b) by (by eapply Hold).
  destruct (bp_map _ _ (step_inv S2)) as (m & Hm & _).
  exists b, w1, w2, w3, t1, time. cbv zeta. fold e f'.
  split_and_all; [done|exact E2| |by eauto|exact E3|done|apply u32_range|].
  { apply (stored_metadata p); [apply S2| |by apply metadata_sized_ok; lia].
    rewrite (step_value S2) by tauto. exact Hv1. }
  split; [apply S3|done|done| | |done|congruence| |..].
  - apply K3; [done|]. apply (step_stored S2); [tauto|done].
  - exists (zlen d). split; [done|lia].
  - intros id x Hne Hx. split; [by eapply Hold|]. apply K3; [congruence|]. by apply Hk2.
  - by rewrite (step_config S3), (step_config S2), (step_config S1).
  - by rewrite (step_limit S3).
  - intros k Hk. apply (step_room S3), (step_room S2). rewrite Z.add_0_r.
    apply (step_room S1). fold time f'. rewrite Hcost'.
    eapply map_room_mono; [exact Hk|lia].
  - eapply quiet_trans; [exact (step_quiet S1)|].
    eapply quiet_trans; [exact (step_quiet S2)|exact (step_quiet S3)].
Qed.

(** the run of [Put], given the runs of its parts *)
Lemma Put_run n force b w1 w2 w3 w4 t1 m f3 props3 :
  let a3 := with_root f3 (with_error SUCCESS a) in
  has_wildcard path = false -> SplitPath path = Ok [nm] -> deny (fs w) local = false ->
  NewBlob p N w = Ok (Some b, w1) -> now w1 = Ok (u32 t1, w2) -> blobMap w2 = Some m ->
  GetMetadata (blob_Id b) Metadata.empty w2 = Ok ((true, md), w2) ->
  UpdateEntry p n nm (new_entry (blob_Id b) (u32 t1) (zlen data) N) f w2 = Ok (f3, w3) ->
  SMap.find "." (entries f3) = Some props3 ->
  BlobConfig.rootId (config w3) = Some (Entry.id props3) ->
  copy_in (Datatypes.S (Z.to_nat (zlen data))) (BlobConfig.blockSize (config w)) local b 0 w3
    = Ok (zlen data, w4) ->
  Put p n path local force (a, w) = Ok (true, (a3, w4)).
Proof.
  intros a3 Hwild Hsplit Hden E1 E2 Hm E2' E3 Hself3 Hsaved E4.
  destruct Hready as [Hr _ _ _ _ _ _ _]. set (a0 := with_error SUCCESS a) in *.
  unfold Put. rewrite (bind_ok _ _ (a, w) tt (a0, w) eq_refl), Hwild.
  rewrite (bind_ok _ _ _ _ _ (Put_target_new p _ path nm local force a0 w f Hr Hsplit Hnew)).
  rewrite (bind_ok _ _ _ _ _ (gets_ok _ (a0, w))). cbn [snd].
  rewrite (FsFacts.fopen_existing_ok local (fs w) data Hden Hloc).
  rewrite (bind_ok _ _ _ _ _ (gets_ok _ (a0, w))). cbn [snd].
  assert (Efs : Fs.fsize local (fs w) = zlen data).
  { unfold Fs.fsize, Fs.content. by rewrite Hloc. }
  rewrite Efs. unfold get_config. rewrite (bind_ok _ _ _ _ _ (gets_ok _ (a0, w))). cbn [snd].
  fold N. rewrite (bind_ok _ _ _ _ _ (liftW_ok _ a0 _ _ _ E1)).
  rewrite (bind_ok _ _ _ _ _ (liftW_ok _ a0 _ _ _ E2)).
  rewrite (bind_ok _ _ (a0, w2) (Some m) (a0, w2))
    by (apply liftW_ok; unfold GetBlobMap, gets; by rewrite Hm).
  rewrite (bind_ok _ _ (a0, w2) md (a0, w2)).
  2:{ rewrite (bind_ok _ _ (a0, w2) (true, md) (a0, w2)); [reflexivity|]. by apply liftW_ok. }
  change (0 <? 0) with false. cbv iota.
  rewrite (bind_ok _ _ (a0, w2) PRoot (a3, w3)).
  2:{ unfold call. rewrite (bind_ok _ _ _ _ _ (deref_root a0 w2 f Hr)).
      rewrite (bind_ok _ _ _ _ _ (liftW_ok _ a0 _ _ _ E3)). reflexivity. }
  rewrite (bind_ok _ _ _ _ _ (save_root_id_same a3 w3 f3 props3 eq_refl Hself3 Hsaved)).
  rewrite (bind_ok _ _ (a3, w3) tt (a3, w3) eq_refl).
  rewrite (bind_ok _ _ _ _ _ (liftW_ok _ a3 _ _ _ E4)), Z.ltb_irrefl.
  reflexivity.
Qed.

Lemma Put_root n force :
  has_wildcard path = false -> SplitPath path = Ok [nm] -> deny (fs w) local = false ->
  exists a' w' f' props' e,
    Put p (Datatypes.S (Datatypes.S n)) path local force (a, w) = Ok (true, (a', w')) /\
    put_done a a' w w' f f' props props' nm e data.
Proof.
  intros Hwild Hsplit Hden.
  destruct (Put_middle n) as
    (b & w1 & w2 & w3 & t1 & time & E1 & E2 & E2' & (m & Hm) & E3 & Hidl & Ht & Hmid).
  destruct (put_folder b t1 time Hidl Ht) as (Hwf' & Hlen' & Hcost' & Htop' & Hfind').
  set (e := new_entry (blob_Id b) (u32 t1) (zlen data) N) in *.
  set (f' := with_entry nm e time f) in *. set (f3 := set_modified false f') in *.
  set (props' := Entry.resized 1 time props) in *. pose proof put_size as HN.
  destruct Hmid as [Hi3 Hop Hsz Hst3 (k & H3 & Hk1 & Hk2) L3 Hne K3 Hcfg Hlim Hrm Hq].
  assert (HlN : zlen (replicate (Z.to_nat N) 0) = N).
  { unfold zlen. rewrite length_replicate. lia. }
  destruct (copy_in_ok p (Datatypes.S (Z.to_nat (zlen data))) (BlobConfig.blockSize (config w))
    local b data (replicate (Z.to_nat N) 0) 0 w3) as (w4 & E4 & S4 & Hst4 & _); try done.
  { by rewrite HlN. }
  { by rewrite HlN, Hlim. }
  { intros Hq'. by apply (quiet_private Hq) in Hq'. }
  { by rewrite (quiet_files Hq). }
  { rewrite length_replicate. unfold zlen in *. lia. }
  { unfold zlen. lia. }
  assert (Hself3 : SMap.find "." (entries f3) = Some props').
  { cbn [f3 set_modified entries]. rewrite Hfind'.
    destruct (String.eqb_spec "." nm) as [E|]; [by rewrite <- E in Hchild|done]. }
  pose proof (ready_saved _ _ _ _ _ _ Hready) as Hsv.
  exists (with_root f3 (with_error SUCCESS a)), w4, f3, props', e. split.
  { apply (Put_run _ force b w1 w2 w3 w4 t1 m f3 props'); try done. by rewrite Hcfg. }
  assert (Hk4 : forall id x, id <> blob_Id b -> bp_stored p w3 id x -> bp_stored p w4 id x).
  { intros id x Hn Hx. apply (step_stored S4); [congruence|done]. }
  split; try done.
  - destruct H3 as (r & Hr & Hrk). split; try done.
    + apply S4.
    + exists (folder_encode f' ++ r). rewrite Hrk, (step_limit S4), Hlim.
      split_and_all; [apply Hk4; [done|exact Hr]|done| |done].
      rewrite <- Hrk, zlen_app. pose proof (zlen_nonneg r).
      change (folder_encode f3) with (folder_encode f'). lia.
    + eapply (entries_live_write p w3); [exact S4|exact Hst3|exact Hst4| |exact L3].
      rewrite HlN. unfold zlen in *. len_simpl. lia.
    + rewrite (step_config S4), Hcfg. exact Hsv.
  - exists (drop (length data) (replicate (Z.to_nat N) 0)). exact Hst4.
  - intros id x Hn Hx. destruct (K3 id x Hn Hx) as [Hb Hx3]. by apply Hk4.
  - by rewrite (step_config S4).
  - by rewrite (step_limit S4).
  - exists k. destruct H3 as (r & Hr & Hrk). exists r. split; [|done]. apply Hk4; [done|exact Hr].
  - intros n' Hn'. apply (step_room S4), Hrm. by rewrite Z.add_0_r.
  - eapply quiet_trans; [exact Hq|exact (step_quiet S4)].
Qed.
End Put.

Lemma Info_root fuel path nm a w f e :
  root a = Some f -> SplitPath path = Ok [nm] -> SMap.find nm (entries f) = Some e ->
  Info p fuel path (a, w) = Ok (Some e, (with_error SUCCESS a, w)).
Proof.
  intros Hr Hsplit He. set (a0 := with_error SUCCESS a). unfold Info.
  rewrite (bind_ok _ _ (a, w) tt (a0, w) eq_refl).
  rewrite (bind_ok _ _ _ _ _ (lift_ok _ _ (a0, w) Hsplit)).
  rewrite (bind_ok _ _ _ _ _ (GetParentFolder_one p fuel nm a0 w f Hr)).
  rewrite (bind_ok _ _ _ _ _ (Entries_root a0 w f Hr)).
  cbn [last_part List.last]. by rewrite He.
Qed.

Lemma Get_root fuel path nm out a w f e data r :
  bp_inv p w -> root a = Some f -> SplitPath path = Ok [nm] ->
  SMap.find nm (entries f) = Some e -> Entry.type e = FILE -> Entry.size e = zlen data ->
  bp_stored p w (Entry.id e) (data ++ r) -> 0 < BlobConfig.blockSize (config w) ->
  zlen data <= limit (fs w) -> deny (fs w) out = false -> ~ bp_private p w out ->
  files (fs w) !! out = None -> out ∉ dirs (fs w) ->
  Get p fuel path out false (a, w)
    = Ok (true, (with_error SUCCESS a, set_fs (Fs.store out data (fs w)) w)).
Proof.
  intros Hi Hr Hsplit He Hty Hsz Hst Hbs Hlim Hden Hpriv Hno Hnod.
  set (a0 := with_error SUCCESS a). unfold Get.
  rewrite (bind_ok _ _ (a, w) tt (a0, w) eq_refl).
  rewrite (bind_ok _ _ _ _ _ (gets_ok _ (a0, w))). cbn [snd negb andb].
  unfold Fs.exists_. rewrite Hno, !bool_decide_eq_false_2
    by (done || (intros [x Hx]; done)). cbn [orb].
  rewrite (bind_ok _ _ _ _ _ (Info_root fuel path nm a0 w f e Hr Hsplit He)).
  change (with_error SUCCESS a0) with a0. rewrite Hty.
  destruct (bp_OpenBlob p w (Entry.id e) _ Hi Hst) as (b & E1 & Hid & Hbsz & Hop).
  rewrite (bind_ok _ _ _ _ _ (liftW_ok _ a0 _ _ _ E1)).
  set (w1 := set_fs (Fs.store out [] (fs w)) w).
  rewrite (bind_ok _ _ (a0, w) (Some out) (a0, w1)).
  2:{ apply liftW_ok. unfold on_fs. by rewrite FsFacts.fopen_trunc_ok. }
  unfold get_config. rewrite (bind_ok _ _ _ _ _ (gets_ok _ (a0, w1))). cbn [snd].
  rewrite <- Hid in Hst.
  pose proof (copy_out_ok p (Datatypes.S (Z.to_nat (zlen data)))
    (BlobConfig.blockSize (config w)) b out data r 0 w Hi Hop Hbsz Hbs Hlim Hpriv Hst
    ltac:(lia) ltac:(unfold zlen; lia)) as E2.
  rewrite take_0 in E2. change (Z.of_nat 0) with 0 in E2. rewrite Z.sub_0_r in E2.
  rewrite Hsz. change (config w1) with (config w). unfold w1.
  rewrite (bind_ok _ _ _ _ _ (liftW_ok _ a0 _ _ _ E2)), Z.ltb_irrefl. done.
Qed.
End PutGet.

(** ** Properties *)

(** Put then Get: for any blob provider that keeps its contract, putting a
    local file under a new name of the root folder succeeds, and getting it back
    to a new local path succeeds and produces exactly the bytes of the original;
    the root keeps every other entry and no other blob changes. *)
Theorem put_get_roundtrip {P B} `{BlobProviderLaws P B} (p : P) (n m : nat)
  (path nm local out : string) (force : bool) (a : BlobApi.t) (w : world)
  (f : Folder.t) (props : Entry.t) (data : list Z) :
  ready p a w f props (entry_room nm) -> child nm = true ->
  has_wildcard path = false -> SplitPath path = Ok [nm] -> in_u32 (str_size nm) ->
  SMap.find nm (entries f) = None -> zlen (entries f) + 1 < 2 ^ 32 ->
  deny (fs w) local = false -> files (fs w) !! local = Some data -> ~ bp_private p w local ->
  deny (fs w) out = false -> files (fs w) !! out = None -> out ∉ dirs (fs w) ->
  ~ bp_private p w out ->
  0 < BlobConfig.blockSize (config w) ->
  zlen data + BlobConfig.blockSize (config w) < 2 ^ 63 ->
  blob_size_for (config w) (zlen data) <= limit (fs w) ->
  blob_size_for (config w) (zlen data) < 2 ^ 63 ->
  map_room w (NewBlob_cost + 2 * (metadata_cost (entries f) + 20)) ->
  exists a1 w1 f1 a2 w2,
    Put p (Datatypes.S (Datatypes.S n)) path local force (a, w) = Ok (true, (a1, w1)) /\
    error a1 = SUCCESS /\ root a1 = Some f1 /\
    (forall k, k <> nm -> named k f1 = named k f) /\
    Get p m path out false (a1, w1) = Ok (true, (a2, w2)) /\
    error a2 = SUCCESS /\ files (fs w2) !! out = Some data /\
    (forall id d, id <> Entry.id props -> bp_stored p w id d -> bp_stored p w2 id d).
Proof.
  intros Hready Hchild Hwild Hsplit Hnm Hnew Hcount Hden Hloc Hpriv Hdo Hno Hnod Hpo Hbs Hsum
    Hnl Hn63 Hroom.
  destruct (Put_root p nm path local a w f props data Hready Hchild Hnm Hnew Hcount Hloc Hpriv
    Hbs Hsum Hnl Hn63 Hroom n force Hwild Hsplit Hden) as (a1 & w1 & f1 & props1 & e & E1 & D).
  destruct D as [[Hr Hi _ _ _ _ _ _] Herr Hent [Hty Hsz] (r & Hst) Hoth Hcfg Hlim _ _ _ _ _ Hq].
  assert (Hpo1 : ~ bp_private p w1 out) by (intros X; by apply (quiet_private Hq) in X).
  assert (He : SMap.find nm (entries f1) = Some e) by (by rewrite Hent, String.eqb_refl).
  destruct (blob_size_for_ok (config w) (zlen data) Hbs (zlen_nonneg _) ltac:(lia)) as [_ Hle].
  pose proof (Get_root p m path nm out a1 w1 f1 e data r Hi Hr Hsplit He Hty Hsz Hst) as E2.
  exists a1, w1, f1, (with_error SUCCESS a1), (set_fs (Fs.store out data (fs w1)) w1).
  split_and_all; [done|done|done| | |done| |].
  - intros k Hk. unfold named. destruct (String.eqb_spec k "."); [done|].
    rewrite Hent. apply String.eqb_neq in Hk, n0. by rewrite Hk, n0.
  - apply E2; [by rewrite Hcfg|rewrite Hlim; lia|by rewrite (quiet_deny Hq)|done| |].
    + by rewrite (quiet_files Hq).
    + by rewrite (quiet_dirs Hq).
  - cbn. by rewrite lookup_insert_eq.
  - intros id d Hid Hd. apply (step_stored (bp_other_file p w1 out data Hi Hpo1)); [tauto|].
    by apply Hoth.
Qed.

(** a process with an in-memory root and a local file *)
Definition api_config : BlobConfig.t := BlobConfig.mk 64 2 2 (Some (sample_uuid 0)).
Definition api_world : world :=
  set_config api_config
    (set_fs (Fs.store "local" [1; 2; 3] (fs folder_world)) folder_world).
Definition sample_api : BlobApi.t := BlobApi.mk true (Some sample_folder) SUCCESS.

Lemma sample_private q :
  bp_private sample_provider folder_world q ->
  q = "map"%string \/ exists id, q = String "b" ("lobs/" +:+ id).
Proof.
  intros [(id & ->)|(m & Hm & Hf)]; [right; by exists id|left].
  assert (E : option_map BlobMap.file (blobMap folder_world) = Some (Some "map"%string))
    by (vm_compute; reflexivity).
  rewrite Hm in E. cbn [option_map] in E. congruence.
Qed.

Lemma api_world_core :
  store_core bp_inv bp_stored sample_provider folder_world
    (set_fs (Fs.store "local" [1; 2; 3] (fs folder_world)) folder_world) (fun _ => False) 0.
Proof.
  apply bp_other_file; [apply folder_world_ready|].
  intros Hp. apply sample_private in Hp as [Hp|[id Hp]]; discriminate.
Qed.

Lemma api_world_kept :
  bp_inv sample_provider api_world /\ keeps sample_provider folder_world api_world /\
  forall q, bp_private sample_provider api_world q ->
            q = "map"%string \/ exists id, q = String "b" ("lobs/" +:+ id).
Proof.
  destruct (bp_ext sample_provider
    (set_fs (Fs.store "local" [1; 2; 3] (fs folder_world)) folder_world) api_world)
    as (Hi & Hs & Hp); [reflexivity..|].
  split_and_all.
  - apply Hi, api_world_core.
  - intros id d Hd. apply Hs. apply (step_stored api_world_core); [tauto|done].
  - intros q Hq. apply Hp in Hq. apply sample_private. exact Hq.
Qed.

Lemma sample_ready :
  ready sample_provider sample_api api_world sample_folder sample_props (entry_room "f").
Proof.
  destruct api_world_kept as (Hi & Hk & _).
  split; [done|done|apply sample_folder_wf|done|done| | |done].
  - exists (replicate (Z.to_nat 8192) 0). split; [apply Hk, folder_world_ready|].
    split; [|split]; vm_compute; congruence.
  - eapply entries_live_keeps; [exact Hk|apply sample_folder_live].
Qed.

Lemma put_get_roundtrip_witness :
  exists a1 w1 f1 a2 w2,
    Put sample_provider 2 "/f" "local" false (sample_api, api_world) = Ok (true, (a1, w1)) /\
    error a1 = SUCCESS /\ root a1 = Some f1 /\
    (forall k, k <> "f"%string -> named k f1 = named k sample_folder) /\
    Get sample_provider 1 "/f" "out" false (a1, w1) = Ok (true, (a2, w2)) /\
    error a2 = SUCCESS /\ files (fs w2) !! "out"%string = Some [1; 2; 3] /\
    (forall id d, id <> sample_uuid 0 -> bp_stored sample_provider api_world id d ->
                  bp_stored sample_provider w2 id d).
Proof.
  apply (put_get_roundtrip sample_provider 0 1 "/f" "f" "local" "out" false sample_api
           api_world sample_folder sample_props [1; 2; 3]).
  - apply sample_ready.
  - reflexivity.
  - reflexivity.
  - reflexivity.
  - closed_range.
  - reflexivity.
  - reflexivity.
  - reflexivity.
  - vm_compute. reflexivity.
  - intros Hp. apply api_world_kept in Hp as [Hp|[id Hp]]; discriminate.
  - reflexivity.
  - vm_compute. reflexivity.
  - vm_compute. intros E. discriminate.
  - intros Hp. apply api_world_kept in Hp as [Hp|[id Hp]]; discriminate.
  - reflexivity.
  - reflexivity.
  - vm_compute. discriminate.
  - reflexivity.
  - refine (step_room api_world_core _ _).
    eapply map_room_mono; [apply folder_world_ready, Z.le_refl|vm_compute; discriminate].
Defined.
