(* ===== verification/BlobApiErrors.v ===== *)
(** * The branches of the file API that end early

    Every test that makes [List], [Mkdir], [Put], [Get], [Delete], [Move] and
    [Info] return before they change anything, for every blob provider: which
    error they report and that the object and the world stay as they were.  The
    last section holds runs on the file-system store that lose data. *)

From Stdlib Require Import ZArith Lia Bool Ascii String.
From stdpp Require Import base list gmap strings.
From S2P Require Import Prelude Streams StdMap Metadata Stdio BlobMap BlobStore FileStore.
From S2P Require Import Paths Folder FolderFacts BlobApi BlobApiFacts.
Set Default Goal Selector "!".
Local Open Scope Z_scope.
Local Open Scope drive_scope.
Import Folder BlobApi.

(** the object with only its error replaced, the world untouched *)
Abbreviation fails e a w := (with_error e a, w).

Section Early.
Context {P B : Type} `{BlobProvider P B} (p : P) (fuel : nat).
Context (path : string) (parts : list string) (a : BlobApi.t) (w : world) (f : Folder.t).
Hypotheses (Hroot : root a = Some f) (Hsplit : SplitPath path = Ok parts).

(** after [ClearError] and [SplitPath] *)
Lemma clear_ok {A} (k : unit -> M (BlobApi.t * world) A) s :
  bind ClearError k s = k tt (with_error SUCCESS s.1, s.2).
Proof. by destruct s. Qed.
Lemma set_error_ok {A} e (k : unit -> M (BlobApi.t * world) A) s :
  bind (SetError e) k s = k tt (with_error e s.1, s.2).
Proof. by destruct s. Qed.
Lemma split_ok {A} (k : list string -> M (BlobApi.t * world) A) s :
  bind (lift (SplitPath path)) k s = k parts s.
Proof. by apply bind_ok, lift_ok. Qed.
Lemma parent_one {A} nm (k : option fptr -> M (BlobApi.t * world) A) e :
  bind (BlobApi.GetParentFolder p fuel [nm]) k (fails e a w) = k (Some PRoot) (fails e a w).
Proof. by eapply bind_ok, GetParentFolder_one. Qed.
Lemma root_ptr_bind {A} (k : option fptr -> M (BlobApi.t * world) A) e :
  bind root_ptr k (fails e a w) = k (Some PRoot) (fails e a w).
Proof. by eapply bind_ok, root_ptr_ok. Qed.
Lemma entries_bind {A} (k : list (string * Entry.t) -> M (BlobApi.t * world) A) e :
  bind (Entries PRoot) k (fails e a w) = k (entries f) (fails e a w).
Proof. by eapply bind_ok, Entries_root. Qed.
Lemma release_root {A} (k : unit -> M (BlobApi.t * world) A) s :
  bind (release p fuel PRoot) k s = k tt s.
Proof. done. Qed.

(** an inner folder of the path does not exist *)
Lemma parent_missing {A} d nm rest (k : option fptr -> M (BlobApi.t * world) A) e :
  parts = d :: nm :: rest -> SMap.find d (entries f) = None ->
  bind (BlobApi.GetParentFolder p fuel parts) k (fails e a w) = k None (fails e a w).
Proof.
  intros Hparts Hd. rewrite Hparts. apply bind_ok. cbn [BlobApi.GetParentFolder descend].
  by rewrite entries_bind, Hd, release_root.
Qed.
End Early.

Ltac api_step := first
  [ rewrite clear_ok | rewrite set_error_ok | erewrite split_ok by eassumption
  | erewrite parent_one by eassumption | erewrite root_ptr_bind by eassumption
  | erewrite entries_bind by eassumption | rewrite release_root
  | erewrite parent_missing by eauto | rewrite (bind_ok _ _ _ _ _ (gets_ok _ _)) ];
  cbn [fst snd last_part List.last negb andb].
Ltac api_run := repeat api_step; try reflexivity.

Section Rejections.
Context {P B : Type} `{BlobProvider P B} (p : P) (fuel : nat).

Lemma Info_missing path nm a w f :
  root a = Some f -> SplitPath path = Ok [nm] -> SMap.find nm (entries f) = None ->
  Info p fuel path (a, w) = Ok (None, fails NOT_FOUND a w).
Proof. intros Hr Hs Hn. unfold Info. api_run. rewrite Hn. api_run. Qed.

Lemma Info_found path nm e a w f :
  root a = Some f -> SplitPath path = Ok [nm] -> SMap.find nm (entries f) = Some e ->
  Info p fuel path (a, w) = Ok (Some e, fails SUCCESS a w).
Proof. intros Hr Hs Hn. unfold Info. api_run. rewrite Hn. api_run. Qed.


(** The root folder itself: the path [/] cannot be made, deleted or fetched;
    [List] gives its entries and [Info] its own record. *)
Theorem blob_api_root_path (path local : string) (a : BlobApi.t) (w : world) (f : Folder.t)
  (props : Entry.t) :
  root a = Some f -> SplitPath path = Ok [] -> SMap.find "." (entries f) = Some props ->
  Entry.type props = FOLDER ->
  List_ p fuel path (a, w) = Ok (entries f, fails SUCCESS a w) /\
  Info p fuel path (a, w) = Ok (Some props, fails SUCCESS a w) /\
  Delete p fuel path (a, w) = Ok (false, fails NOT_SUPPORTED a w) /\
  Get p fuel path local true (a, w) = Ok (false, fails NOT_SUPPORTED a w) /\
  (has_wildcard path = false ->
     Mkdir p fuel path (a, w) = Ok (false, fails ALREADY_EXIST a w)).
Proof.
  intros Hr Hs Hp Ht.
  assert (Hi : forall e, Info p fuel path (fails e a w) = Ok (Some props, fails SUCCESS a w)).
  { intros e. unfold Info. api_run. by rewrite Hp. }
  split_and_all.
  - unfold List_. api_run.
  - unfold Info. api_run. by rewrite Hp.
  - unfold Delete. api_run.
  - unfold Get. api_run. by rewrite (bind_ok _ _ _ _ _ (Hi SUCCESS)), Ht.
  - intros Hw. unfold Mkdir. rewrite clear_ok, Hw. api_run.
Qed.

(** A path through a missing folder: [List], [Info], [Get] and [Mkdir] report
    NOT_FOUND, but [Delete] goes on with the null parent pointer. *)
Theorem delete_missing_parent_faults (path local d nm : string) (rest : list string)
  (a : BlobApi.t) (w : world) (f : Folder.t) :
  root a = Some f -> SplitPath path = Ok (d :: nm :: rest) ->
  SMap.find d (entries f) = None ->
  List_ p fuel path (a, w) = Ok ([], fails NOT_FOUND a w) /\
  Info p fuel path (a, w) = Ok (None, fails NOT_FOUND a w) /\
  Get p fuel path local true (a, w) = Ok (false, fails NOT_FOUND a w) /\
  (has_wildcard path = false ->
     Mkdir p fuel path (a, w) = Ok (false, fails NOT_FOUND a w)) /\
  Delete p fuel path (a, w) = Fault NullDeref.
Proof.
  intros Hr Hs Hd. split_and_all.
  - unfold List_. api_run.
  - unfold Info. api_run.
  - unfold Get. api_run. rewrite (bind_ok _ _ _ None (fails NOT_FOUND a w)); [done|].
    unfold Info. api_run.
  - intros Hw. unfold Mkdir. rewrite clear_ok, Hw. api_run.
  - unfold Delete. api_run.
Qed.

(** [Put] of a local file that cannot be opened returns false while
    [GetError] still says SUCCESS. *)
Theorem put_missing_local_reports_success (path nm local : string) (force : bool)
  (a : BlobApi.t) (w : world) (f : Folder.t) :
  root a = Some f -> SplitPath path = Ok [nm] -> has_wildcard path = false ->
  SMap.find nm (entries f) = None -> Fs.fopen_existing local (fs w) = None ->
  Put p fuel path local force (a, w) = Ok (false, fails SUCCESS a w).
Proof.
  intros Hr Hs Hw Hn Hl. unfold Put. rewrite clear_ok, Hw. cbn [fst snd].
  rewrite (bind_ok _ _ _ _ _ (Put_target_new p fuel path nm local force (with_error SUCCESS a) w f Hr Hs Hn)).
  api_run. by rewrite Hl.
Qed.
End Rejections.

(** ** Concrete runs on the file-system store *)
(** the same process with another block size and one local file *)
Definition run_config (blockSize : Z) : BlobConfig.t :=
  BlobConfig.mk blockSize 2 2 (Some EmptyString).
Definition run_start (blockSize : Z) : world :=
  mkworld (mkfs {["local" := [1; 2; 3; 4; 5]]} ∅ (fun _ => false) (2 ^ 40)) None
    (run_config blockSize) (fun n => 1000 + Z.of_nat n) 0 sample_uuid 0.
Definition api_outcome {A} (blockSize : Z) (m : M (BlobApi.t * world) A) : outcome A :=
  match m (BlobApi.init, run (startup "blobs" "map") (run_start blockSize)) with
  | Ok (r, _) => Ok r
  | Fault k => Fault k
  | OutOfFuel => OutOfFuel
  end.
Definition names (es : list (string * Entry.t)) : list string := map fst es.
Definition api_error : M (BlobApi.t * world) BlobError := gets (fun s => error s.1).

(** move a file inside a folder that is not the root, with the listing before and after *)
Definition move_inside : M (BlobApi.t * world) (list string * (bool * BlobError) * list string) :=
  Initialize sample_provider 9 "" ;;;
  Mkdir sample_provider 9 "/d" ;;;
  Put sample_provider 9 "/d/f" "local" false ;;;
  before <- List_ sample_provider 9 "/d" ;;
  moved <- Move sample_provider 9 "/d/f" "/d/g" false ;;
  e <- api_error ;;
  after <- List_ sample_provider 9 "/d" ;;
  ret (names before, (moved, e), names after).

Fixpoint each {W A B} (f : A -> M W B) (l : list A) : M W (list B) :=
  match l with
  | [] => ret []
  | x :: l => y <- f x ;; ys <- each f l ;; ret (y :: ys)
  end.
(** a folder whose encoding outgrows its blob *)
Definition grow_root (paths : list string)
  : M (BlobApi.t * world) (list bool * bool) :=
  Initialize sample_provider 9 "" ;;;
  made <- each (Mkdir sample_provider 9) paths ;;
  id <- RootId ;;
  again <- liftW (Folder.LoadFolder sample_provider id) ;;
  ret (made, match again with Some _ => true | None => false end).
(** a directory named [..] in the root, then another entry *)
Definition dotdot_root : M (BlobApi.t * world) (bool * list string * (bool * BlobError)) :=
  Initialize sample_provider 9 "" ;;;
  made <- Mkdir sample_provider 9 "/.." ;;
  es <- List_ sample_provider 9 "/" ;;
  ok <- Put sample_provider 9 "/f" "local" false ;;
  e <- api_error ;;
  ret (made, names es, (ok, e)).

(** [Move] of a file to a new name in the same folder, when that folder is
    not the root, reports success and loses the file: both parents are separate
    copies of the folder, and the second flush, which removes the old name, writes
    a copy that never had the new one. *)
Theorem move_within_subfolder_loses_file :
  api_outcome 256 move_inside
    = Ok (["."; ".."; "f"]%string, (true, SUCCESS), ["."; ".."]%string).
Proof. vm_compute. reflexivity. Qed.

(** A folder that outgrows its blob is moved to a larger one, whose metadata
    is then overwritten with the old blob's size: [Mkdir] reports success and the
    root folder can no longer be loaded.  The same calls are fine as long as the
    folder fits. *)
Theorem folder_growth_loses_folder :
  api_outcome 32 (grow_root ["/a"%string]) = Ok ([true], false) /\
  api_outcome 64 (grow_root ["/a"%string]) = Ok ([true], true).
Proof. split; vm_compute; reflexivity. Qed.

(** [Mkdir] takes a leading [..] as a name: the root gets an entry that marks it
    as not being the root *)
Lemma dotdot_in_root :
  api_outcome 256 dotdot_root = Ok (true, ["."; ".."]%string, (true, SUCCESS)).
Proof. vm_compute. reflexivity. Qed.

(** ** The rejections on a process with an empty root *)
Abbreviation sample_state e := (fails e sample_api api_world).


Lemma blob_api_root_path_witness :
  List_ sample_provider 3 "/" (sample_api, api_world)
    = Ok (entries sample_folder, sample_state SUCCESS) /\
  Delete sample_provider 3 "/" (sample_api, api_world)
    = Ok (false, sample_state NOT_SUPPORTED).
Proof.
  destruct (blob_api_root_path sample_provider 3 "/" "out" sample_api api_world sample_folder
    sample_props eq_refl eq_refl eq_refl eq_refl) as (R1 & _ & R2 & _).
  split; [exact R1|exact R2].
Defined.

Lemma delete_missing_parent_faults_witness :
  Delete sample_provider 3 "/d/f" (sample_api, api_world) = Fault NullDeref.
Proof.
  apply (delete_missing_parent_faults sample_provider 3 "/d/f" "out" "d" "f" [] sample_api
    api_world sample_folder); reflexivity.
Defined.

Lemma put_missing_local_reports_success_witness :
  Put sample_provider 3 "/f" "absent" false (sample_api, api_world)
    = Ok (false, sample_state SUCCESS).
Proof.
  apply (put_missing_local_reports_success sample_provider 3 "/f" "f" "absent" false sample_api
    api_world sample_folder); reflexivity.
Defined.
