(* ===== verification/BlobApiLife.v ===== *)
(** * Files over the life of a store

    What [Delete] leaves behind, and what a second [BlobApi] that is initialised
    with the saved root id finds: the entries and the bytes that were put. *)

From Stdlib Require Import ZArith Lia Bool Ascii String.
From stdpp Require Import base list gmap strings.
From S2P Require Import Prelude Streams StdMap Metadata Stdio BlobMap BlobStore FileStore.
From S2P Require Import Paths Folder FolderFacts BlobApi BlobApiFacts BlobApiErrors.
Set Default Goal Selector "!".
Local Open Scope Z_scope.
Local Open Scope drive_scope.
Import Folder BlobApi.

(** ** Removing an entry from a folder *)
Section OldEntry.
Context (f : Folder.t) (props e : Entry.t) (nm : string) (time : Z).
Hypotheses (Hwf : folder_wf f) (Hf : SMap.find "." (entries f) = Some props)
  (He : SMap.find nm (entries f) = Some e) (Hnd : nm <> "."%string) (Ht : in_u32 time).

Let props' := Entry.resized (-1) time props.
Let es1 := SMap.insert "." props' (entries f).

Lemma without_entry_old : without_entry nm time f = Folder.mk (SMap.erase nm es1) (name f) true.
Proof. unfold without_entry. by rewrite (self_found _ _ Hf). Qed.

Lemma without_entry_find k :
  SMap.find k (entries (without_entry nm time f))
    = if String.eqb k nm then None
      else if String.eqb k "." then Some props' else SMap.find k (entries f).
Proof.
  destruct Hwf as (_ & _ & _ & Hso). rewrite without_entry_old; cbn [entries].
  rewrite SMapFacts.find_erase by (by apply SMapFacts.sorted_insert).
  unfold es1. by rewrite SMapFacts.find_insert.
Qed.

Lemma find_es1 : SMap.find nm es1 = Some e.
Proof. unfold es1. rewrite SMapFacts.find_insert_ne; [done|congruence]. Qed.

Lemma without_entry_wf :
  folder_wf (without_entry nm time f) /\
  zlen (folder_encode (without_entry nm time f)) + zlen (item_encode (nm, e))
    = zlen (folder_encode f) /\
  metadata_cost (entries (without_entry nm time f)) <= metadata_cost (entries f).
Proof.
  destruct (resized_entries (-1) time f props Hwf Hf Ht) as (Hso & Hes & Hlen & Htot & Hcost).
  fold props' in Hso, Hes, Hlen, Htot, Hcost. fold es1 in Hso, Hes, Hlen, Htot, Hcost.
  pose proof find_es1 as Hn. destruct Hwf as (Hnm & Hc & _). rewrite without_entry_old.
  split_and_all; cbn [entries name].
  - split; [done|]. split; [|split].
    + pose proof (SMapFacts.length_erase nm es1 e Hn). unfold in_u32, zlen in *.
      cbn [entries]. lia.
    + by apply SMapFacts.Forall_erase.
    + by apply SMapFacts.sorted_erase.
  - rewrite !FolderCodec.zlen_folder_encode. cbn [entries name]. rewrite !zlen_items.
    pose proof (SMapFacts.total_erase item_size nm e es1 Hn) as T.
    change (item_size (nm, e)) with (zlen (item_encode (nm, e))) in T. lia.
  - rewrite <- Hcost, (metadata_cost_total es1), (metadata_cost_total (SMap.erase _ _)).
    match goal with |- SMapFacts.total ?g _ <= _ =>
      pose proof (SMapFacts.total_erase g nm e es1 Hn) as T end.
    cbn [snd] in T. pose proof (zlen_nonneg (Metadata.encode (Entry.metadata e))). lia.
Qed.

Lemma without_entry_top : child nm = true -> IsRootFolder f = true ->
  IsRootFolder (without_entry nm time f) = true.
Proof.
  intros Hc Hroot. rewrite <- Hroot. unfold child in Hc.
  apply negb_true_iff, orb_false_iff in Hc as [_ Hdd]. rewrite String.eqb_sym in Hdd.
  unfold IsRootFolder, Parent. rewrite !without_entry_find, Hf, Hdd.
  change (String.eqb ".." ".") with false. change (String.eqb "." ".") with true.
  destruct (String.eqb_spec "." nm); [congruence|]. done.
Qed.

(** what stays is live after the removed entry's blob is gone *)
Lemma without_entry_live {P B} `{BlobProviderLaws P B} (p : P) w w' :
  entries_live p w (entries f) ->
  (forall k e', SMap.find k (entries f) = Some e' -> k <> nm -> Entry.id e' <> Entry.id e) ->
  (forall id x, id <> Entry.id e -> bp_stored p w id x -> bp_stored p w' id x) ->
  entries_live p w' (entries (without_entry nm time f)).
Proof.
  intros Hl Hu Hk. unfold entries_live in *. rewrite Forall_forall in *. intros [k x] Hin Hne.
  apply list_elem_of_In in Hin. destruct without_entry_wf as ((_ & _ & _ & Hso) & _).
  apply (SMapFacts.in_find _ _ _ Hso) in Hin. rewrite without_entry_find in Hin. cbn [fst snd] in *.
  assert (Hold : forall k y, SMap.find k (entries f) = Some y -> k <> nm -> k <> ".."%string ->
                   entry_live p w' y).
  { intros k0 y Hy Hnk Hkd. pose proof (SMapFacts.find_in _ _ _ Hy) as Hin0.
    destruct (Hl (k0, y)) as [Hm (d & Hd & Hs)]; [by apply list_elem_of_In|done|].
    split; [done|]. exists d. split; [|done]. apply Hk; [by eapply Hu|done]. }
  destruct (String.eqb_spec k nm) as [|Hkn]; [done|].
  destruct (String.eqb_spec k ".") as [->|Hkd]; [|by eapply Hold].
  injection Hin as <-. apply (Hold "."%string props); done.
Qed.
End OldEntry.

(** ** Delete *)
Section Delete.
Context {P B : Type} `{BlobProviderLaws P B} (p : P).

(** no other entry of the folder shares the blob of [nm] *)
Definition sole_owner (nm : string) (e : Entry.t) (f : Folder.t) : Prop :=
  forall k e', SMap.find k (entries f) = Some e' -> k <> nm -> Entry.id e' <> Entry.id e.

Lemma Delete_root n path nm a w f props e d :
  ready p a w f props 0 -> child nm = true -> SplitPath path = Ok [nm] ->
  SMap.find nm (entries f) = Some e -> Entry.type e = FILE -> sole_owner nm e f ->
  bp_stored p w (Entry.id e) d -> map_room w (metadata_cost (entries f)) ->
  exists a' w' f' props',
    Delete p (Datatypes.S n) path (a, w) = Ok (true, (a', w')) /\
    ready p a' w' f' props' 0 /\ error a' = SUCCESS /\
    (forall k, SMap.find k (entries f')
       = if String.eqb k nm then None
         else if String.eqb k "." then Some props' else SMap.find k (entries f)) /\
    (forall id x, id <> Entry.id e -> id <> Entry.id props ->
       bp_stored p w id x -> bp_stored p w' id x).
Proof.
  intros [Hr Hi Hwf Hself Htop (dr & Hdr & Hdl & Hsp) Hlive Hsaved] Hchild Hsplit He Hty Hsole
    Hd Hroom.
  assert (Hnd : nm <> "."%string) by (intros ->; done).
  assert (Hnid : Entry.id props <> Entry.id e) by (eapply (Hsole "."%string); [done|congruence]).
  destruct (bp_DeleteBlob p w (Entry.id e) d Hi Hd) as (w1 & E1 & S1 & V1).
  set (time := u32 (clock w1 (ticks w1))). set (f' := without_entry nm time f).
  assert (Ht : in_u32 time) by apply u32_range.
  destruct (without_entry_wf f props e nm time Hwf Hself He Hnd Ht)
    as (Hwf' & Hlen' & Hcost').
  pose proof (zlen_nonneg (item_encode (nm, e))) as Hni.
  assert (Hk1 : forall id x, id <> Entry.id e -> bp_stored p w id x -> bp_stored p w1 id x).
  { intros id x Hn Hx. apply (step_stored S1); [congruence|done]. }
  assert (Hw1 : writable p w1 (Entry.id props) f' (zlen dr)).
  { split; [done| | | |].
    - exists dr. split; [by apply Hk1|done].
    - rewrite (step_limit S1). unfold f'. lia.
    - unfold f'. lia.
    - by apply (without_entry_live f props e nm time Hwf Hself He Hnd Ht p w w1). }
  destruct (RemoveEntry_root p n nm e f props w1 (zlen dr) (step_inv S1)
    ltac:(apply Hwf) Hself Htop Hnd He Hw1) as (w2 & E2 & S2 & H2 & K2 & L2).
  { apply (step_room S1). eapply map_room_mono; [exact Hroom|]. fold time f'. unfold f'. lia. }
  fold time f' in E2, S2, H2, L2. set (f2 := set_modified false f') in *.
  set (a0 := with_error SUCCESS a). set (a2 := with_root f2 a0).
  exists a2, w2, f2, (Entry.resized (-1) time props). split_and_all; [| |done| |].
  - unfold Delete. rewrite clear_ok. cbn [fst snd]. fold a0.
    rewrite (bind_ok _ _ _ _ _ (lift_ok _ _ (a0, w) Hsplit)).
    rewrite (bind_ok _ _ _ _ _ (GetParentFolder_one p _ nm a0 w f Hr)).
    rewrite (bind_ok _ _ _ _ _ (Entries_root a0 w f Hr)). cbn [last_part List.last].
    rewrite He, Hty. rewrite (bind_ok _ _ (a0, w) false (a0, w) eq_refl).
    rewrite (bind_ok _ _ _ _ _ (liftW_ok _ a0 _ _ _ E1)).
    rewrite (bind_ok _ _ (a0, w1) PRoot (a2, w2)); [done|].
    unfold call. rewrite (bind_ok _ _ _ _ _ (deref_root a0 w1 f Hr)).
    rewrite (bind_ok _ _ _ _ _ (liftW_ok _ a0 _ _ _ E2)). reflexivity.
  - destruct H2 as (r & Hr2 & Hrl). split; try done.
    + apply S2.
    + change (entries f2) with (entries f'). unfold f'.
      rewrite (without_entry_find f props nm time Hwf Hself).
      destruct (String.eqb_spec "." nm); [congruence|]. done.
    + change (IsRootFolder f' = true). by apply (without_entry_top f props).
    + exists (folder_encode f' ++ r). rewrite Hrl, (step_limit S2), (step_limit S1).
      split; [exact Hr2|]. change (folder_encode f2) with (folder_encode f').
      unfold f'. unfold f' in Hlen'. lia.
    + by rewrite (step_config S2), (step_config S1).
  - intros k. change (entries f2) with (entries f').
    apply (without_entry_find f props nm time Hwf Hself).
  - intros id x Hn1 Hn2 Hx. apply K2; [congruence|]. by apply Hk1.
Qed.
End Delete.

(** ** A second client of the store *)
Section Reopen.
Context {P B : Type} `{BlobProviderLaws P B} (p : P).

Lemma Initialize_saved fuel id f w n :
  bp_inv p w -> folder_wf f -> holds_folder p w id f n -> entries_live p w (entries f) ->
  map_room w (metadata_cost (entries f)) ->
  exists w', Initialize p fuel id (BlobApi.init, w)
      = Ok (true, (BlobApi.mk true (Some (set_modified false f)) SUCCESS, w')) /\
    gentle p w w' (metadata_cost (entries f)).
Proof.
  intros Hi Hwf Hh Hl Hroom.
  destruct (LoadFolder_gentle p id f w n Hi Hwf Hh Hl Hroom) as (w' & E & G).
  exists w'. split; [|exact G]. destruct Hh as (r & Hs & _).
  destruct (bp_stored_meta _ _ _ _ Hs) as (_ & Hne & _).
  unfold Initialize. rewrite (bind_ok _ _ _ _ _ (gets_ok _ (BlobApi.init, w))).
  cbn [fst BlobApi.init initialized root negb andb assertM].
  rewrite (bind_ok _ _ (BlobApi.init, w) tt (BlobApi.init, w) eq_refl), clear_ok. cbn [fst snd].
  set (a1 := BlobApi.mk true None SUCCESS).
  rewrite (bind_ok _ _ (with_error SUCCESS BlobApi.init, w) tt (a1, w) eq_refl).
  destruct id as [|c id]; [done|]. cbn [empty_str negb].
  rewrite (bind_ok _ _ _ _ _ (liftW_ok _ a1 _ _ _ E)). reflexivity.
Qed.
End Reopen.

(** ** Properties *)

(** Delete: deleting a file of the root succeeds, [Info] then reports
    NOT_FOUND, every other entry of the root is what it was, and the blobs of all
    other files keep their contents. *)
Theorem delete_removes_file {P B} `{BlobProviderLaws P B} (p : P) (n m : nat)
  (path nm : string) (a : BlobApi.t) (w : world) (f : Folder.t) (props e : Entry.t)
  (d : list Z) :
  ready p a w f props 0 -> child nm = true -> SplitPath path = Ok [nm] ->
  SMap.find nm (entries f) = Some e -> Entry.type e = FILE -> sole_owner nm e f ->
  bp_stored p w (Entry.id e) d -> map_room w (metadata_cost (entries f)) ->
  exists a' w' f',
    Delete p (Datatypes.S n) path (a, w) = Ok (true, (a', w')) /\
    error a' = SUCCESS /\ root a' = Some f' /\
    Info p m path (a', w') = Ok (None, fails NOT_FOUND a' w') /\
    (forall k, named k f' = if String.eqb k nm then None else named k f) /\
    (forall k e', named k f = Some e' -> k <> nm -> Entry.id e' <> Entry.id props ->
       forall x, bp_stored p w (Entry.id e') x -> bp_stored p w' (Entry.id e') x).
Proof.
  intros Hready Hchild Hsplit He Hty Hsole Hd Hroom.
  destruct (Delete_root p n path nm a w f props e d Hready Hchild Hsplit He Hty Hsole Hd Hroom)
    as (a' & w' & f' & props' & E & Hready' & Herr & Hent & Hk).
  pose proof (ready_root _ _ _ _ _ _ Hready') as Hr'.
  exists a', w', f'. split_and_all; try done.
  - apply (Info_missing p m path nm a' w' f' Hr' Hsplit). by rewrite Hent, String.eqb_refl.
  - intros k. unfold named. destruct (String.eqb_spec k ".") as [->|Hkd].
    + by destruct (String.eqb "." nm).
    + rewrite Hent. apply String.eqb_neq in Hkd. by rewrite Hkd.
  - intros k e' Hk' Hne Hp x Hx. apply Hk; try done. unfold named in Hk'.
    destruct (String.eqb k "."); [done|]. by eapply Hsole.
Qed.


(** ** The same runs on the sample store *)
Lemma sample_room n : n <= 2 ^ 30 -> map_room api_world n.
Proof.
  intros Hn. refine (step_room api_world_core _ _).
  eapply map_room_mono; [by apply (proj2 (proj2 (proj2 folder_world_ready)))|].
  rewrite Z.add_0_r. apply Z.le_refl.
Qed.

Lemma sample_public q : String.eqb q "map" = false ->
  match q with String "b" _ => False | _ => True end -> ~ bp_private sample_provider api_world q.
Proof.
  intros Hm Hb Hp. apply api_world_kept in Hp as [->|[id ->]]; done.
Qed.


(** put a file, with what holds of it then *)
Lemma sample_put : exists a1 w1 f1 props1 e r,
  Put sample_provider 2 "/f" "local" false (sample_api, api_world) = Ok (true, (a1, w1)) /\
  ready sample_provider a1 w1 f1 props1 0 /\ SMap.find "f" (entries f1) = Some e /\ Entry.type e = FILE /\
  sole_owner "f" e f1 /\ bp_stored sample_provider w1 (Entry.id e) ([1; 2; 3] ++ r) /\
  map_room w1 (metadata_cost (entries f1)) /\ map fst (entries f1) = ["."; "f"]%string.
Proof.
  destruct (Put_root sample_provider "f" "/f" "local" sample_api api_world sample_folder
    sample_props [1; 2; 3] sample_ready) with (n := 0%nat) (force := false)
    as (a1 & w1 & f1 & props1 & e & E1 & D).
  - reflexivity.
  - closed_range.
  - reflexivity.
  - reflexivity.
  - vm_compute. reflexivity.
  - by apply sample_public.
  - reflexivity.
  - reflexivity.
  - vm_compute. discriminate.
  - reflexivity.
  - apply sample_room. vm_compute. discriminate.
  - reflexivity.
  - reflexivity.
  - reflexivity.
  - destruct D as [Hready _ Hent [Hty _] (r & Hst) _ _ _ [Hfr _] _ Hcost _ Hrm _].
    exists a1, w1, f1, props1, e, r. split_and_all; [exact E1|exact Hready| |exact Hty| |exact Hst| |].
    + by rewrite Hent.
    + intros k e' Hk Hne. rewrite Hent in Hk. apply String.eqb_neq in Hne. rewrite Hne in Hk.
      cbn [sample_folder entries SMap.find] in Hk.
      destruct (String.eqb k "."); [by injection Hk as <-; congruence|done].
    + apply Hrm. rewrite Hcost. apply sample_room. vm_compute. discriminate.
    + assert (option_map (fun f => map fst (entries f)) (root a1) = Some ["."; "f"]%string) as Ek.
      { transitivity (match Put sample_provider 2 "/f" "local" false (sample_api, api_world) with
          | Ok (_, (a, _)) => option_map (fun f => map fst (entries f)) (root a) | _ => None end); [by rewrite E1|].
        vm_compute. reflexivity. }
      rewrite (ready_root _ _ _ _ _ _ Hready) in Ek. by injection Ek.
Qed.

(** put a file, then delete it *)
Lemma delete_removes_file_witness :
  exists a1 w1 a2 w2,
    Put sample_provider 2 "/f" "local" false (sample_api, api_world) = Ok (true, (a1, w1)) /\
    Delete sample_provider 1 "/f" (a1, w1) = Ok (true, (a2, w2)) /\
    error a2 = SUCCESS /\
    Info sample_provider 1 "/f" (a2, w2) = Ok (None, fails NOT_FOUND a2 w2).
Proof.
  destruct sample_put as (a1 & w1 & f1 & props1 & e & r & E1 & Hready & He & Hty & Hso & Hst & Hroom & _).
  destruct (delete_removes_file sample_provider 0 1 "/f" "f" a1 w1 f1 props1 e ([1; 2; 3] ++ r) Hready eq_refl eq_refl
    He Hty Hso Hst Hroom) as (a2 & w2 & f2 & E2 & Herr & _ & E3 & _).
  exists a1, w1, a2, w2. split_and_all; assumption.
Defined.
