(* ===== verification/BitSet.v ===== *)
(** * The bit set of a partition map (src/src/bdhost/BitSet.cpp, BitSet.h)

    A vector of bits packed into 64-bit words, most significant bit first, with
    [operator[]] returning a reference object: a pointer to a word, or to the
    static [trash_bits] word when the index is out of range.  bdfsclient-lib has
    the same class.  The file format is the words in network order, of the last
    one only the bytes that hold bits. *)

From Stdlib Require Import ZArith Lia Bool.
From stdpp Require Import base list.
From S2P Require Import Prelude Streams.
Set Default Goal Selector "!".
Local Open Scope Z_scope.
Local Open Scope drive_scope.

(** ** Byte order (src/src/bdhost/Util.cpp); [htonl] swaps four bytes *)
Definition htonl (val : Z) : Z := bswap 4 val.
Definition htonll (val : Z) : Z := u64 (u64 (Z.shiftl (htonl (u32 val)) 32) + htonl (u32 (Z.shiftr val 32))).
Definition ntohll (val : Z) : Z := u64 (u64 (Z.shiftl (htonl (u32 val)) 32) + htonl (u32 (Z.shiftr val 32))).

Module BitSet.
Record t := mk { buffer : list Z; size : Z }.

(** [(uint64_t)0x1 << (63 - bit)] *)
Definition mask (bit : Z) : Z := Z.shiftl 1 (63 - bit).
(** [~x] on 64 bits *)
Definition bnot (x : Z) : Z := u64 (Z.lnot x).
Definition set_bit (w bit : Z) (value : bool) : Z :=
  if value then Z.lor w (mask bit) else Z.land w (bnot (mask bit)).
Definition test_bit (w bit : Z) : bool := negb (Z.land w (mask bit) =? 0).

Definition word_count (size : Z) : Z :=
  if Z.land size 63 =? 0 then Z.shiftr size 6 else Z.shiftr size 6 + 1.
Definition make (size : Z) : t := mk (replicate (Z.to_nat (word_count size)) 0) size.

(** ** References: the words of the set and the static [trash_bits] *)
Record Reference := mkref { ptr : option nat; bit : Z }.
Abbreviation mem := (t * Z)%type.

Definition load (p : option nat) (m : mem) : Z :=
  match p with
  | Some i => nth i (buffer m.1) 0
  | None => m.2
  end.
Definition store (p : option nat) (w : Z) (m : mem) : mem :=
  match p with
  | Some i => (mk (<[i := w]> (buffer m.1)) (size m.1), m.2)
  | None => (m.1, w)
  end.

(** [operator[]] *)
Definition at_ (index : Z) (m : mem) : Reference :=
  mkref (if index <? size m.1 then Some (Z.to_nat (Z.shiftr index 6)) else None)
        (Z.land index 63).
Definition assign (r : Reference) (value : bool) (m : mem) : mem :=
  store (ptr r) (set_bit (load (ptr r) m) (bit r) value) m.
(** [r = other]: the test shifts the [int] 1, which has 32 bits *)
Definition assign_ref (r other : Reference) (m : mem) : outcome mem :=
  let k := 63 - bit other in
  if 31 <? k then Fault BadShift
  else
    let probe := if k =? 31 then 2 ^ 64 - 2 ^ 31 else Z.shiftl 1 k in
    Ok (assign r (negb (Z.land (load (ptr other) m) probe =? 0)) m).
Definition not_ (r : Reference) (m : mem) : bool :=
  Z.land (load (ptr r) m) (mask (bit r)) =? 0.
Definition value (r : Reference) (m : mem) : bool := test_bit (load (ptr r) m) (bit r).
Definition flip (r : Reference) (m : mem) : mem :=
  store (ptr r) (Z.lxor (load (ptr r) m) (mask (bit r))) m.

(** ** Direct access *)
Definition Get (index : Z) (s : t) : bool :=
  if size s <=? index then false
  else test_bit (nth (Z.to_nat (Z.shiftr index 6)) (buffer s) 0) (Z.land index 63).
Definition Set_ (index : Z) (value : bool) (s : t) : t :=
  if size s <=? index then s
  else
    let word := Z.to_nat (Z.shiftr index 6) in
    mk (<[word := set_bit (nth word (buffer s) 0) (Z.land index 63) value]> (buffer s)) (size s).

(** what [Print] writes before the newline *)
Definition Print (s : t) : list bool := map (fun i => Get (Z.of_nat i) s) (seq 0 (Z.to_nat (size s))).

(** ** Files *)
(** [fread(&netBytes, n, 1, file)] at the start of [rest]: bytes the file does not
    have stay as they were *)
Definition fread_into (netBytes : Z) (n : nat) (rest : list Z) : Z * list Z :=
  (le_combine (take n rest ++ drop (length (take n rest)) (le_split 8 netBytes)),
   drop n rest).

Fixpoint read_words (count : nat) (i : nat) (netBytes : Z) (rest : list Z) (buf : list Z)
  : list Z * list Z :=
  match count with
  | O => (buf, rest)
  | S count =>
      let '(netBytes, rest) := fread_into netBytes 8 rest in
      read_words count (S i) netBytes rest (<[i := ntohll netBytes]> buf)
  end.

Definition rem_bytes (size : Z) : Z :=
  let remBits := Z.land 63 size in
  if Z.land 7 remBits =? 0 then Z.shiftr remBits 3 else Z.shiftr remBits 3 + 1.

(** [junk] is the uninitialised [netBytes] *)
Definition ReadFrom (junk : Z) (file : list Z) (s : t) : t :=
  let words := Z.to_nat (Z.shiftr (size s) 6) in
  let '(buf, rest) := read_words words 0 junk file (buffer s) in
  if Z.land 63 (size s) =? 0 then mk buf (size s)
  else
    let '(netBytes, _) := fread_into 0 (Z.to_nat (rem_bytes (size s))) rest in
    mk (<[words := ntohll netBytes]> buf) (size s).

(** the data of the successive [fwrite]s *)
Definition WriteTo (s : t) : list (list Z) :=
  let words := Z.to_nat (Z.shiftr (size s) 6) in
  map (fun w => le_split 8 (htonll w)) (take words (buffer s)) ++
  (if Z.land 63 (size s) =? 0 then []
   else [take (Z.to_nat (rem_bytes (size s))) (le_split 8 (htonll (nth words (buffer s) 0)))]).
End BitSet.

(** ** Bits of words *)
Module BitSetFacts.
Import BitSet.

Lemma mask_pow bit : bit <= 63 -> mask bit = 2 ^ (63 - bit).
Proof. intros H. unfold mask. by rewrite Z.shiftl_1_l. Qed.

Lemma test_bit_spec w bit : bit <= 63 -> test_bit w bit = Z.testbit w (63 - bit).
Proof.
  intros H. unfold test_bit. rewrite mask_pow by done. set (k := 63 - bit).
  assert (Hk : 0 <= k) by (unfold k; lia).
  destruct (Z.testbit w k) eqn:E.
  - apply negb_true_iff, Z.eqb_neq. intros E0.
    assert (C : Z.testbit (Z.land w (2 ^ k)) k = true)
      by (by rewrite Z.land_spec, E, Z.pow2_bits_true).
    by rewrite E0, Z.bits_0 in C.
  - apply negb_false_iff, Z.eqb_eq. apply Z.bits_inj'. intros n Hn.
    rewrite Z.land_spec, Z.bits_0, Z.pow2_bits_eqb by done.
    destruct (Z.eqb_spec k n) as [<-|]; [by rewrite E|by rewrite andb_false_r].
Qed.

Lemma u64_bits x n : 0 <= n -> Z.testbit (u64 x) n = (n <? 64) && Z.testbit x n.
Proof.
  intros Hn. unfold u64. destruct (Z.ltb_spec n 64).
  - by rewrite Z.mod_pow2_bits_low.
  - by rewrite Z.mod_pow2_bits_high by lia.
Qed.

Lemma in_u64_bits x : in_u64 x <-> u64 x = x.
Proof.
  split; [apply u64_small|]. intros <-. apply u64_range.
Qed.

Lemma high_bits x n : in_u64 x -> 64 <= n -> Z.testbit x n = false.
Proof.
  intros Hx Hn. apply in_u64_bits in Hx. rewrite <- Hx, u64_bits by lia.
  by destruct (Z.ltb_spec n 64); [lia|].
Qed.

Lemma set_bit_testbit w bit v n :
  0 <= bit <= 63 -> 0 <= n < 64 ->
  Z.testbit (set_bit w bit v) n = if 63 - bit =? n then v else Z.testbit w n.
Proof.
  intros Hb Hn. unfold set_bit. rewrite mask_pow by lia. destruct v.
  - rewrite Z.lor_spec, Z.pow2_bits_eqb by lia.
    destruct (Z.eqb_spec (63 - bit) n); [by rewrite orb_true_r|by rewrite orb_false_r].
  - rewrite Z.land_spec. unfold bnot. rewrite u64_bits by lia.
    rewrite Z.lnot_spec, Z.pow2_bits_eqb by lia.
    destruct (Z.ltb_spec n 64); [|lia].
    destruct (Z.eqb_spec (63 - bit) n); cbn; [by rewrite andb_false_r|by rewrite andb_true_r].
Qed.

Lemma set_bit_range w bit v : in_u64 w -> 0 <= bit <= 63 -> in_u64 (set_bit w bit v).
Proof.
  intros Hw Hb. apply in_u64_bits. apply Z.bits_inj'. intros n Hn.
  rewrite u64_bits by done. destruct (Z.ltb_spec n 64); [done|]. cbn [andb].
  unfold set_bit. rewrite mask_pow by lia. destruct v.
  - rewrite Z.lor_spec, Z.pow2_bits_eqb, high_bits by (done || lia).
    by destruct (Z.eqb_spec (63 - bit) n); [lia|].
  - by rewrite Z.land_spec, high_bits by (done || lia).
Qed.

(** ** Indices *)
Definition word (i : Z) : nat := Z.to_nat (Z.shiftr i 6).
Definition off (i : Z) : Z := Z.land i 63.

Lemma off_mod i : off i = i mod 64.
Proof. unfold off. change 63 with (Z.ones 6). by rewrite Z.land_ones. Qed.
Lemma shiftr_div i : Z.shiftr i 6 = i / 64.
Proof. by rewrite Z.shiftr_div_pow2. Qed.
Lemma off_range i : 0 <= off i <= 63.
Proof. rewrite off_mod. pose proof (Z.mod_pos_bound i 64). lia. Qed.
Lemma word_off_inj i j : 0 <= i -> 0 <= j -> word i = word j -> off i = off j -> i = j.
Proof.
  intros Hi Hj. unfold word. rewrite !off_mod, !shiftr_div. intros Hw Ho.
  pose proof (Z.div_mod i 64). pose proof (Z.div_mod j 64).
  pose proof (Z.div_pos i 64). pose proof (Z.div_pos j 64). lia.
Qed.

Lemma word_count_spec n : 0 <= n -> word_count n = (n + 63) / 64.
Proof.
  intros Hn. unfold word_count. fold (off n). rewrite off_mod, shiftr_div.
  pose proof (Z.div_mod n 64 ltac:(lia)) as D. pose proof (Z.mod_pos_bound n 64 ltac:(lia)) as M.
  destruct (Z.eqb_spec (n mod 64) 0).
  - apply Z.div_unique with 63; lia.
  - apply Z.div_unique with (n mod 64 - 1); lia.
Qed.

Lemma word_lt i n : 0 <= i < n -> (word i < Z.to_nat (word_count n))%nat.
Proof.
  intros Hi. unfold word. rewrite word_count_spec, shiftr_div by lia.
  assert (i / 64 < (n + 63) / 64); [|pose proof (Z.div_pos i 64); lia].
  apply Z.div_lt_upper_bound; [lia|].
  pose proof (Z.mul_succ_div_gt (n + 63) 64). lia.
Qed.

(** ** Well-formed sets: enough words, and no bit past the size *)
Record wf (s : t) : Prop := {
  wf_size : 0 <= size s;
  wf_length : length (buffer s) = Z.to_nat (word_count (size s));
  wf_words : Forall in_u64 (buffer s);
  wf_tail k : off (size s) <= k <= 63 -> off (size s) <> 0 ->
    Z.testbit (nth (word (size s)) (buffer s) 0) (63 - k) = false
}.

Lemma make_wf n : 0 <= n -> wf (make n).
Proof.
  intros Hn. split; cbn [make size buffer]; [done|apply length_replicate| |].
  - apply Forall_replicate. unfold in_u64. lia.
  - intros k _ _. rewrite nth_lookup. destruct (_ !! _) eqn:E; [|apply Z.bits_0].
    apply lookup_replicate in E as [-> _]. apply Z.bits_0.
Qed.

Lemma nth_words s w : wf s -> in_u64 (nth w (buffer s) 0).
Proof.
  intros Hwf. rewrite nth_lookup. destruct (buffer s !! w) as [x|] eqn:E; cbn.
  - eapply Forall_lookup_1; [apply Hwf|done].
  - unfold in_u64. lia.
Qed.

Lemma nth_insert (l : list Z) i j x :
  (i < length l)%nat -> nth j (<[i := x]> l) 0 = if decide (j = i) then x else nth j l 0.
Proof.
  intros Hi. rewrite !nth_lookup. destruct (decide (j = i)) as [->|Hne].
  - by rewrite list_lookup_insert_eq.
  - by rewrite list_lookup_insert_ne.
Qed.

Lemma Get_spec s i : 0 <= i ->
  Get i s = (i <? size s) && Z.testbit (nth (word i) (buffer s) 0) (63 - off i).
Proof.
  intros Hi. unfold Get. fold (word i) (off i). pose proof (off_range i).
  rewrite test_bit_spec by lia.
  destruct (Z.leb_spec (size s) i), (Z.ltb_spec i (size s)); [lia|done|done|lia].
Qed.

Lemma Get_make n i : 0 <= i -> Get i (make n) = false.
Proof.
  intros Hi. rewrite Get_spec by done. cbn [make buffer]. rewrite nth_lookup.
  destruct (replicate _ _ !! _) eqn:E; cbn; rewrite ?Z.bits_0, ?andb_false_r; [|done].
  apply lookup_replicate in E as [-> _]. by rewrite Z.bits_0, andb_false_r.
Qed.

Lemma Set_inside s i v : i < size s ->
  Set_ i v s = mk (<[word i := set_bit (nth (word i) (buffer s) 0) (off i) v]> (buffer s)) (size s).
Proof.
  intros Hi. unfold Set_. destruct (Z.leb_spec (size s) i); [lia|]. done.
Qed.

Lemma Set_wf s i v : wf s -> 0 <= i -> wf (Set_ i v s).
Proof.
  intros Hwf Hi. destruct (Z.le_gt_cases (size s) i) as [Ho|Ho].
  { unfold Set_. by destruct (Z.leb_spec (size s) i); [|lia]. }
  pose proof (off_range i) as Hoff. pose proof Hwf as [Hn Hl Hw Ht].
  pose proof (word_lt i (size s) ltac:(lia)) as Hlt.
  rewrite Set_inside by done. split; cbn [size buffer]; [done| | |].
  - by rewrite length_insert.
  - apply Forall_insert; [done|]. apply set_bit_range; [by apply nth_words|done].
  - intros k Hk H0. rewrite nth_insert by lia. destruct (decide _) as [E|]; [|by apply Ht].
    pose proof (off_range (size s)). rewrite set_bit_testbit, <- E by lia.
    destruct (Z.eqb_spec (63 - off i) (63 - k)) as [Ek|]; [|by apply Ht].
    exfalso. rewrite !off_mod in *. unfold word in E. rewrite !shiftr_div in E.
    pose proof (Z.div_mod i 64). pose proof (Z.div_mod (size s) 64).
    pose proof (Z.div_pos i 64). pose proof (Z.div_pos (size s) 64). lia.
Qed.

Lemma Get_Set s i j v : wf s -> 0 <= i -> 0 <= j ->
  Get j (Set_ i v s) = if (j =? i) && (i <? size s) then v else Get j s.
Proof.
  intros Hwf Hi Hj. destruct (Z.ltb_spec i (size s)) as [Ho|Ho].
  2:{ unfold Set_. destruct (Z.leb_spec (size s) i); [|lia]. by rewrite andb_false_r. }
  rewrite andb_true_r. pose proof (off_range i). pose proof (off_range j).
  pose proof (word_lt i (size s) ltac:(lia)) as Hlt.
  rewrite !Get_spec, Set_inside by done. cbn [size buffer].
  rewrite nth_insert by (rewrite (wf_length _ Hwf); done).
  destruct (Z.eqb_spec j i) as [->|Hne].
  - destruct (Z.ltb_spec i (size s)); [|lia]. rewrite decide_True by done.
    rewrite set_bit_testbit by lia. by rewrite Z.eqb_refl.
  - destruct (decide _) as [E|]; [|done]. rewrite set_bit_testbit by lia.
    destruct (Z.eqb_spec (63 - off i) (63 - off j)); [|by rewrite E].
    exfalso. apply Hne. apply word_off_inj; [done|done|done|lia].
Qed.
End BitSetFacts.

(** ** References against direct access *)
Module BitSetRefs.
Import BitSet BitSetFacts.

Lemma at_inside i s tr : 0 <= i < size s -> at_ i (s, tr) = mkref (Some (word i)) (off i).
Proof. intros Hi. unfold at_; cbn. by destruct (Z.ltb_spec i (size s)); [|lia]. Qed.
Lemma at_outside i s tr : size s <= i -> at_ i (s, tr) = mkref None (off i).
Proof. intros Hi. unfold at_; cbn. by destruct (Z.ltb_spec i (size s)); [lia|]. Qed.

Lemma value_at i s tr : 0 <= i ->
  value (at_ i (s, tr)) (s, tr)
    = if i <? size s then Get i s else Z.testbit tr (63 - off i).
Proof.
  intros Hi. pose proof (off_range i). destruct (Z.ltb_spec i (size s)).
  - rewrite at_inside by lia. unfold value; cbn. rewrite test_bit_spec, Get_spec by lia.
    by destruct (Z.ltb_spec i (size s)); [|lia].
  - rewrite at_outside by lia. unfold value; cbn. by rewrite test_bit_spec by lia.
Qed.

Lemma assign_at i v s tr : 0 <= i ->
  assign (at_ i (s, tr)) v (s, tr)
    = (Set_ i v s, if i <? size s then tr else set_bit tr (off i) v).
Proof.
  intros Hi. destruct (Z.ltb_spec i (size s)).
  - rewrite at_inside, Set_inside by lia. done.
  - rewrite at_outside by lia. unfold Set_. by destruct (Z.leb_spec (size s) i); [|lia].
Qed.

Lemma set_flip w bit : in_u64 w -> 0 <= bit <= 63 ->
  Z.lxor w (mask bit) = set_bit w bit (negb (test_bit w bit)).
Proof.
  intros Hw Hb. apply Z.bits_inj'. intros n Hn. rewrite Z.lxor_spec.
  rewrite mask_pow, Z.pow2_bits_eqb, test_bit_spec by lia.
  destruct (Z.lt_ge_cases n 64).
  - rewrite set_bit_testbit by lia. destruct (Z.eqb_spec (63 - bit) n) as [<-|].
    + by destruct (Z.testbit w _).
    + by rewrite xorb_false_r.
  - rewrite (high_bits (set_bit _ _ _)), (high_bits w) by (done || by apply set_bit_range).
    by destruct (Z.eqb_spec (63 - bit) n); [lia|].
Qed.
End BitSetRefs.

(** ** The file format *)
Module BitSetCodec.
Import BitSet BitSetFacts.

Lemma le_split_app n m v : le_split (n + m) v = le_split n v ++ le_split m (v / 2 ^ (8 * Z.of_nat n)).
Proof.
  revert v. induction n as [|n IH]; intros v; cbn [le_split Nat.add app].
  - by rewrite Z.div_1_r.
  - rewrite IH, Z.div_div by lia. do 3 f_equal.
    replace (8 * Z.of_nat (S n)) with (8 + 8 * Z.of_nat n) by lia. by rewrite Z.pow_add_r by lia.
Qed.

Lemma le_combine_app l k : le_combine (l ++ k) = le_combine l + 2 ^ (8 * zlen l) * le_combine k.
Proof.
  unfold zlen. induction l as [|b l IH]; cbn [le_combine app length].
  - by rewrite Z.mul_1_l.
  - rewrite IH. replace (8 * Z.of_nat (S (length l))) with (8 + 8 * Z.of_nat (length l)) by lia.
    rewrite Z.pow_add_r by lia. change (2 ^ 8) with 256. lia.
Qed.

Lemma le_split_mod n v : le_split n (v mod 2 ^ (8 * Z.of_nat n)) = le_split n v.
Proof.
  rewrite <- le_combine_split. rewrite <- (length_le_split n v) at 1.
  apply le_split_combine, le_split_bytes.
Qed.

Lemma htonll_bswap v : in_u64 v -> htonll v = bswap 8 v.
Proof.
  intros Hv. unfold htonll, htonl, bswap. change 8%nat with (4 + 4)%nat.
  rewrite le_split_app, rev_app_distr, le_combine_app.
  change (8 * Z.of_nat 4) with 32. change (u32 ?x) with (x mod 2 ^ (8 * Z.of_nat 4)).
  rewrite !le_split_mod, Z.shiftr_div_pow2, Z.shiftl_mul_pow2 by lia.
  set (lo := le_combine (rev (le_split 4 v))).
  set (hi := le_combine (rev (le_split 4 (v / 2 ^ 32)))).
  assert (R : forall x, 0 <= le_combine (rev (le_split 4 x)) < 2 ^ 32).
  { intros x. pose proof (le_combine_range (rev (le_split 4 x))) as R.
    unfold zlen in R. rewrite length_rev, length_le_split in R. apply R.
    apply Forall_rev, le_split_bytes. }
  pose proof (R v) as Rlo. pose proof (R (v / 2 ^ 32)) as Rhi. fold lo in Rlo. fold hi in Rhi.
  assert (Hz : zlen (rev (le_split 4 (v / 2 ^ 32))) = 4) by reflexivity.
  rewrite Hz. change (8 * 4) with 32.
  rewrite (u64_small (lo * 2 ^ 32)) by (unfold in_u64; lia).
  rewrite u64_small by (unfold in_u64; lia). lia.
Qed.

Lemma mem_htonll v : in_u64 v -> le_split 8 (htonll v) = be_bytes 8 v.
Proof. intros Hv. rewrite htonll_bswap by done. apply le_split_bswap. Qed.

Lemma ntohll_mem v : in_u64 v -> ntohll (le_combine (be_bytes 8 v)) = v.
Proof.
  intros Hv. change ntohll with htonll. rewrite htonll_bswap.
  - apply (bswap_involutive 8). exact Hv.
  - pose proof (le_combine_range (be_bytes 8 v) (be_bytes_bytes 8 v)) as R.
    unfold zlen in R. by rewrite length_be_bytes in R.
Qed.

Lemma fread_full junk v rest :
  in_u64 v -> fread_into junk 8 (be_bytes 8 v ++ rest) = (le_combine (be_bytes 8 v), rest).
Proof.
  intros Hv. unfold fread_into. rewrite take_app_length' by (by rewrite length_be_bytes).
  rewrite drop_app_length' by (by rewrite length_be_bytes).
  rewrite drop_ge by (rewrite length_le_split, length_be_bytes; done). by rewrite app_nil_r.
Qed.

Lemma read_words_spec ws i junk rest buf :
  Forall in_u64 ws -> (i + length ws <= length buf)%nat ->
  read_words (length ws) i junk (concat (map (be_bytes 8) ws) ++ rest) buf
    = (take i buf ++ ws ++ drop (i + length ws) buf, rest).
Proof.
  revert i junk buf. induction ws as [|w ws IH]; intros i junk buf Hws Hl;
    cbn [length map concat read_words] in *.
  - by rewrite Nat.add_0_r, !app_nil_l, take_drop.
  - apply Forall_cons_1 in Hws as [Hw Hws]. rewrite <- app_assoc.
    rewrite fread_full by done. rewrite ntohll_mem by done.
    rewrite IH by (done || rewrite length_insert; lia). f_equal.
    rewrite insert_take_drop by lia.
    rewrite take_app_ge by (rewrite length_take; lia).
    rewrite length_take, Nat.min_l by lia.
    replace (S i - i)%nat with 1%nat by lia. cbn [take app].
    rewrite drop_app_ge by (rewrite length_take; lia).
    rewrite length_take, Nat.min_l by lia.
    replace (S i + length ws - i)%nat with (S (length ws)) by lia. cbn [drop].
    rewrite drop_drop. rewrite <- app_assoc. cbn [app].
    rewrite take_0, app_nil_l. by replace (i + S (length ws))%nat with (S i + length ws)%nat by lia.
Qed.

(** the last word's bytes past the size are zero *)
Lemma tail_bytes w r :
  in_u64 w -> 0 < r <= 64 -> (forall k, r <= k <= 63 -> Z.testbit w (63 - k) = false) ->
  forall n : nat, r <= 8 * Z.of_nat n <= 64 -> drop n (be_bytes 8 w) = drop n (le_split 8 0).
Proof.
  intros Hw Hr Hbits n Hn. unfold be_bytes.
  rewrite <- (take_drop (8 - n) (le_split 8 w)), rev_app_distr.
  rewrite drop_app_length' by (rewrite length_rev, length_drop, length_le_split; lia).
  replace (take (8 - n) (le_split 8 w)) with (le_split (8 - n) w).
  2:{ pose proof (le_split_app (8 - n) n w) as E.
      replace ((8 - n) + n)%nat with 8%nat in E by lia. rewrite E.
      by rewrite take_app_length' by (by rewrite length_le_split). }
  rewrite <- le_split_mod.
  replace (w mod _) with 0.
  - change (le_split 8 0) with (replicate 8 0). rewrite drop_replicate.
    assert (E : forall m, le_split m 0 = replicate m 0).
    { induction m as [|m IHm]; [done|]. cbn [le_split replicate].
      by rewrite Z.div_0_l, IHm. }
    rewrite E. rewrite rev_alt. apply reverse_replicate.
  - symmetry. apply Z.bits_inj'. intros k Hk. rewrite Z.bits_0.
    destruct (Z.lt_ge_cases k (8 * Z.of_nat (8 - n))).
    + rewrite Z.mod_pow2_bits_low by lia.
      replace k with (63 - (63 - k)) by lia. apply Hbits. lia.
    + apply Z.mod_pow2_bits_high. lia.
Qed.

Lemma rem_bytes_spec n : 0 <= n ->
  off n <> 0 -> 0 < off n <= 64 /\ off n <= 8 * rem_bytes n <= 64 /\ rem_bytes n = (off n + 7) / 8.
Proof.
  intros Hn H0. pose proof (off_range n) as R. unfold rem_bytes.
  rewrite (Z.land_comm 63). fold (off n). set (r := off n) in *.
  rewrite (Z.land_comm 7). change 7 with (Z.ones 3). rewrite Z.land_ones, Z.shiftr_div_pow2 by lia.
  change (Z.ones 3) with 7. change (2 ^ 3) with 8.
  pose proof (Z.div_mod r 8 ltac:(lia)) as D. pose proof (Z.mod_pos_bound r 8 ltac:(lia)).
  destruct (Z.eqb_spec (r mod 8) 0).
  - replace ((r + 7) / 8) with (r / 8); [lia|]. apply Z.div_unique with 7; lia.
  - replace ((r + 7) / 8) with (r / 8 + 1); [lia|]. apply Z.div_unique with (r mod 8 - 1); lia.
Qed.

Lemma word_count_cases s : wf s ->
  (off (size s) = 0 -> length (buffer s) = word (size s)) /\
  (off (size s) <> 0 -> length (buffer s) = S (word (size s))).
Proof.
  intros [Hn Hl _ _]. rewrite Hl. unfold word_count, word. fold (off (size s)).
  pose proof (Z.shiftr_nonneg (size s) 6) as Hs.
  split; intros H0; destruct (Z.eqb_spec (off (size s)) 0); lia.
Qed.

Lemma WriteTo_bytes s : wf s ->
  concat (WriteTo s) = concat (map (be_bytes 8) (take (word (size s)) (buffer s))) ++
    if decide (off (size s) = 0) then []
    else take (Z.to_nat (rem_bytes (size s))) (be_bytes 8 (nth (word (size s)) (buffer s) 0)).
Proof.
  intros Hwf. unfold WriteTo. fold (word (size s)). rewrite (Z.land_comm 63). fold (off (size s)).
  rewrite concat_app. f_equal.
  - f_equal. apply map_ext_in. intros w Hw. apply mem_htonll.
    pose proof (wf_words _ Hwf) as Hws. rewrite Forall_forall in Hws. apply Hws.
    rewrite <- (take_drop (word (size s)) (buffer s)). apply elem_of_app. left.
    by apply list_elem_of_In.
  - destruct (decide _) as [E|E]; [by rewrite E|].
    destruct (Z.eqb_spec (off (size s)) 0); [done|].
    cbn [concat]. rewrite app_nil_r. by rewrite mem_htonll by (by apply nth_words).
Qed.

Lemma zlen_WriteTo s : wf s -> zlen (concat (WriteTo s)) = (size s + 7) / 8.
Proof.
  intros Hwf. rewrite WriteTo_bytes by done. rewrite zlen_app. unfold zlen at 1.
  rewrite (length_concat_const _ 8) by apply length_be_bytes. rewrite length_take.
  destruct (word_count_cases s Hwf) as [H0 H1]. pose proof (wf_size _ Hwf) as Hn.
  assert (Hw : Z.of_nat (word (size s)) = size s / 64).
  { unfold word. rewrite shiftr_div. pose proof (Z.div_pos (size s) 64). lia. }
  pose proof (Z.div_mod (size s) 64 ltac:(lia)) as D. rewrite <- off_mod in D.
  destruct (decide _) as [E|E].
  - rewrite H0 by done. unfold zlen; cbn [length].
    apply Z.div_unique with 7; lia.
  - destruct (rem_bytes_spec (size s) Hn E) as (Hr & Hb & Eb). rewrite H1 by done.
    unfold zlen. rewrite length_take, length_be_bytes.
    pose proof (Z.div_mod (off (size s) + 7) 8 ltac:(lia)) as D8.
    pose proof (Z.mod_pos_bound (off (size s) + 7) 8 ltac:(lia)).
    apply Z.div_unique with ((off (size s) + 7) mod 8); lia.
Qed.

Lemma ReadFrom_WriteTo s s0 junk rest :
  wf s -> size s0 = size s -> length (buffer s0) = length (buffer s) ->
  ReadFrom junk (concat (WriteTo s) ++ rest) s0 = s.
Proof.
  intros Hwf Hsz Hlen. rewrite WriteTo_bytes by done.
  destruct (word_count_cases s Hwf) as [H0 H1]. pose proof (wf_size _ Hwf) as Hn.
  unfold ReadFrom. rewrite Hsz. fold (word (size s)). rewrite (Z.land_comm 63).
  fold (off (size s)). set (n := word (size s)) in *.
  assert (Hle : (n <= length (buffer s))%nat)
    by (destruct (decide (off (size s) = 0)); [rewrite H0|rewrite H1]; lia).
  pose proof (read_words_spec (take n (buffer s)) 0 junk) as R.
  rewrite length_take, Nat.min_l in R by lia. rewrite <- app_assoc, R.
  2:{ apply Forall_take, wf_words, Hwf. }
  2:{ lia. }
  rewrite take_0, app_nil_l, Nat.add_0_l. destruct (decide _) as [E|E].
  - rewrite E. cbn [Z.eqb]. destruct s as [buf sz]. cbn [buffer size] in *. f_equal.
    rewrite drop_ge, app_nil_r by (rewrite Hlen, H0 by done; lia).
    apply take_ge. rewrite H0 by done. lia.
  - destruct (Z.eqb_spec (off (size s)) 0); [done|].
    destruct (rem_bytes_spec (size s) Hn E) as (Hr & Hb & _).
    set (rb := Z.to_nat (rem_bytes (size s))). set (w := nth n (buffer s) 0).
    assert (Hw : in_u64 w) by (by apply nth_words).
    assert (Hlb : length (take rb (be_bytes 8 w)) = rb)
      by (rewrite length_take, length_be_bytes; unfold rb; lia).
    unfold fread_into. rewrite take_app_length' by done. rewrite Hlb.
    rewrite <- (tail_bytes w (off (size s)) Hw ltac:(lia) (fun k Hk => wf_tail _ Hwf k Hk E))
      by (unfold rb; lia).
    rewrite take_drop, ntohll_mem by done.
    destruct s as [buf sz]. cbn [buffer size] in *. f_equal. specialize (H1 E).
    apply nth_ext with 0 0.
    + rewrite length_insert, length_app, length_take, length_drop. lia.
    + intros i Hi. rewrite length_insert, length_app, length_take, length_drop in Hi.
      rewrite nth_insert by (rewrite length_app, length_take, length_drop; lia).
      destruct (decide (i = n)) as [->|Hne]; [done|].
      rewrite app_nth1 by (rewrite length_take; lia).
      rewrite !nth_lookup, lookup_take_lt by lia. done.
Qed.
End BitSetCodec.

(** ** Properties *)
Import BitSet BitSetFacts.

(** Bit set: [make] is all false; [b\[i\] = v] inside the size changes the
    bit [i] and no other, through [operator\[\]] and through [__Set] alike;
    outside it the set and what [__Get] reports stay the same and only the shared
    [trash_bits] word changes; [flip] negates. *)
Theorem bitset_refines_bits (s : t) (tr i j : Z) (v : bool) :
  wf s -> in_u64 tr -> 0 <= i -> 0 <= j ->
  Get j (make (size s)) = false /\
  Get j (Set_ i v s) = (if (j =? i) && (i <? size s) then v else Get j s) /\
  wf (Set_ i v s) /\
  assign (at_ i (s, tr)) v (s, tr)
    = (Set_ i v s, if i <? size s then tr else set_bit tr (off i) v) /\
  value (at_ i (s, tr)) (s, tr)
    = (if i <? size s then Get i s else Z.testbit tr (63 - off i)) /\
  flip (at_ i (s, tr)) (s, tr)
    = assign (at_ i (s, tr)) (negb (value (at_ i (s, tr)) (s, tr))) (s, tr) /\
  not_ (at_ i (s, tr)) (s, tr) = negb (value (at_ i (s, tr)) (s, tr)).
Proof.
  intros Hwf Htr Hi Hj. pose proof (off_range i) as Ho. split_and_all.
  - by apply Get_make.
  - by apply Get_Set.
  - by apply Set_wf.
  - by apply BitSetRefs.assign_at.
  - by apply BitSetRefs.value_at.
  - unfold flip, assign, value. f_equal. apply BitSetRefs.set_flip.
    + unfold at_. cbn [fst]. destruct (i <? size s); [by apply nth_words|done].
    + exact Ho.
  - unfold not_, value, test_bit. by rewrite negb_involutive.
Qed.

Lemma bitset_refines_bits_witness :
  Get 70 (Set_ 70 true (make 100)) = true /\ Get 6 (Set_ 70 true (make 100)) = false.
Proof.
  pose proof (make_wf 100 ltac:(lia)) as W.
  pose proof (bitset_refines_bits (make 100) 0 70 70 true W ltac:(closed_range) ltac:(lia) ltac:(lia))
    as (_ & E1 & _).
  pose proof (bitset_refines_bits (make 100) 0 70 6 true W ltac:(closed_range) ltac:(lia) ltac:(lia))
    as (_ & E2 & _).
  split; [rewrite E1|rewrite E2]; reflexivity.
Defined.

(** The partition map on disk: [WriteTo] writes one byte for every eight bits
    and [ReadFrom] into a set of the same size gives the same set back, whatever
    the uninitialised variable held and whatever follows in the file. *)
Theorem bitset_file_roundtrip (s s0 : t) (junk : Z) (rest : list Z) :
  wf s -> wf s0 -> size s0 = size s ->
  zlen (concat (WriteTo s)) = (size s + 7) / 8 /\
  ReadFrom junk (concat (WriteTo s) ++ rest) s0 = s.
Proof.
  intros Hwf Hwf0 Hsz. split; [by apply BitSetCodec.zlen_WriteTo|].
  apply BitSetCodec.ReadFrom_WriteTo; [done|done|].
  by rewrite (wf_length _ Hwf), (wf_length _ Hwf0), Hsz.
Qed.

Lemma bitset_file_roundtrip_witness :
  let s := Set_ 3 true (Set_ 69 true (make 70)) in
  concat (WriteTo s) = [16; 0; 0; 0; 0; 0; 0; 0; 4] /\
  ReadFrom 7 (concat (WriteTo s) ++ [1]) (make 70) = s.
Proof.
  cbv zeta. split; [reflexivity|].
  apply (bitset_file_roundtrip (Set_ 3 true (Set_ 69 true (make 70))) (make 70) 7 [1]).
  - apply Set_wf; [apply Set_wf; [apply make_wf|]|]; lia.
  - apply make_wf. lia.
  - reflexivity.
Defined.

(** copying a bit from one reference to another shifts an [int] by up to 63: for
    the first 32 bits of a word this is undefined *)
Lemma reference_copy_shift r i m : 0 <= i -> off i < 32 -> assign_ref r (at_ i m) m = Fault BadShift.
Proof.
  intros Hi Ho. unfold assign_ref. cbn [at_ bit]. fold (off i).
  destruct (Z.ltb_spec 31 (63 - off i)); [done|lia].
Qed.
