(* ===== verification/HostPartition.v ===== *)
(** * Partitions of a storage host (src/src/bdhost/Partition.cpp, Partition.h)

    A partition is a directory of block files, [block-<hex index>], and a
    [.partmap] file with one bit for every block that has been written.  The
    object is built anew for every request, so all that lasts is on disk.  The
    [trash_bits] word of [BitSet] is a static: it is part of the host's state. *)

From Stdlib Require Import ZArith Lia Bool Ascii String.
From stdpp Require Import base list gmap strings.
From S2P Require Import Prelude Streams Stdio BitSet.
Set Default Goal Selector "!".
Local Open Scope Z_scope.
Local Open Scope drive_scope.

(** ** [%lx] and [snprintf] *)
Definition hex_digit (d : Z) : ascii :=
  ascii_of_N (Z.to_N (if d <? 10 then 48 + d else 87 + d)).
Fixpoint to_hex (fuel : nat) (n : Z) (acc : string) : string :=
  match fuel with
  | O => acc
  | S fuel =>
      let acc := String (hex_digit (n mod 16)) acc in
      if n / 16 =? 0 then acc else to_hex fuel (n / 16) acc
  end.
(** a 64-bit value has at most 16 digits *)
Definition hex (n : Z) : string := to_hex 16 n EmptyString.
(** [snprintf(buf, n, ...)] keeps [n - 1] characters *)
Definition snprintf (n : nat) (s : string) : string := substring 0 (n - 1) s.

(** the part of the host's state that partitions use *)
Record host := mkhost { hfs : filesystem; trash : Z }.
Definition set_hfs (s : filesystem) (h : host) : host := mkhost s (trash h).
Definition set_trash (w : Z) (h : host) : host := mkhost (hfs h) w.
Definition hfs_do {A} (op : filesystem -> outcome (A * filesystem)) : M host A :=
  fun h => obind (op (hfs h)) (fun '(r, s) => Ok (r, set_hfs s h)).

Module Partition.
Record t := mk {
  partitionPath : string;
  blockCount : Z;
  blockSize : Z;
  partitionMapFile : string;
  partitionMap : BitSet.t
}.
Definition set_map (m : BitSet.t) (p : t) : t :=
  mk (partitionPath p) (blockCount p) (blockSize p) (partitionMapFile p) m.

Definition block_file (p : t) (index : Z) : string :=
  snprintf 1024 (partitionPath p +:+ "/block-" +:+ hex index).

(** the constructor; [junk] is an uninitialised variable of [BitSet::ReadFrom] *)
Definition Partition (workDir : string) (junk : Z) (partitionId : string)
  (blockCount blockSize : Z) : M host t :=
  let path := workDir +:+ partitionId in
  hfs_do (fun s => Ok (tt, Fs.mkdir path s)) ;;;
  let mapFile := path +:+ "/.partmap" in
  fr <- gets (fun h => Fs.fopen_existing mapFile (hfs h)) ;;
  content <- gets (fun h => Fs.content mapFile (hfs h)) ;;
  let map := BitSet.make blockCount in
  ret (mk path blockCount blockSize mapFile
         (match fr with Some _ => BitSet.ReadFrom junk content map | None => map end)).

(** [partitionMap\[index\]] *)
Definition test (p : t) (index : Z) : M host bool :=
  gets (fun h => let m := (partitionMap p, trash h) in BitSet.value (BitSet.at_ index m) m).
Definition mark (p : t) (index : Z) : M host t :=
  fun h =>
    let m := (partitionMap p, trash h) in
    let '(map, tr) := BitSet.assign (BitSet.at_ index m) true m in
    Ok (set_map map p, set_trash tr h).

(** successive [fwrite]s from position [off] *)
Fixpoint write_chunks (file : string) (off : Z) (chunks : list (list Z)) : M host unit :=
  match chunks with
  | [] => ret tt
  | c :: chunks =>
      n <- hfs_do (Fs.fwrite file off c (zlen c)) ;;
      write_chunks file (off + n) chunks
  end.

Definition FlushMap (p : t) : M host bool :=
  fw <- hfs_do (fun s => Ok (Fs.fopen_trunc (partitionMapFile p) s)) ;;
  match fw with
  | None => ret true
  | Some file => write_chunks file 0 (BitSet.WriteTo (partitionMap p)) ;;; ret true
  end.

Definition VerifyBlock (p : t) (index : Z) : M host bool :=
  if blockCount p <=? index then ret false else
  present <- test p index ;;
  if present : bool then
    gets (fun h => match files (hfs h) !! block_file p index with
                   | Some d => zlen d =? blockSize p
                   | None => false
                   end)
  else ret true.

(** [fopen(.., "r+")], or else [fopen(.., "w+")] *)
Definition open_rw (file : string) : M host (option string) :=
  fp <- gets (fun h => Fs.fopen_existing file (hfs h)) ;;
  match fp with
  | Some fp => ret (Some fp)
  | None => hfs_do (fun s => Ok (Fs.fopen_trunc file s))
  end.

(** the loop of [InitBlock]: zeros, at most 4096 at a time *)
Fixpoint zero_chunks (fuel : nat) (remaining : Z) : list (list Z) :=
  match fuel with
  | O => []
  | S fuel =>
      if 0 <? remaining then
        let toWrite := if 4096 <? remaining then 4096 else remaining in
        replicate (Z.to_nat toWrite) 0 :: zero_chunks fuel (remaining - toWrite)
      else []
  end.

Definition InitBlock (p : t) (index : Z) : M host (bool * t) :=
  file <- open_rw (block_file p index) ;;
  match file with
  | None => ret (false, p)
  | Some file =>
      write_chunks file 0 (zero_chunks (S (Z.to_nat (blockSize p / 4096))) (blockSize p)) ;;;
      p <- mark p index ;;
      FlushMap p ;;;
      ret (true, p)
  end.

(** the four range checks of [ReadBlock] and [WriteBlock] *)
Definition out_of_range (p : t) (index size offset : Z) : bool :=
  (blockCount p <? index) || (blockSize p <? offset) || (blockSize p <? size) ||
  (blockSize p <? u64 (offset + size)).

(** the result and what [buffer] holds afterwards *)
Definition ReadBlock (p : t) (index : Z) (buffer : list Z) (size offset : Z)
  : M host (bool * list Z) :=
  if out_of_range p index size offset then ret (false, buffer) else
  if zlen buffer <? size then fail OutOfBounds else
  present <- test p index ;;
  if present : bool then
    file <- gets (fun h => Fs.fopen_existing (block_file p index) (hfs h)) ;;
    match file with
    | None => ret (false, buffer)
    | Some file =>
        d <- gets (fun h => Fs.fread file offset size (hfs h)) ;;
        ret (true, d ++ drop (length d) buffer)
    end
  else ret (true, replicate (Z.to_nat size) 0 ++ drop (Z.to_nat size) buffer).

Definition WriteBlock (p : t) (index : Z) (buffer : list Z) (size offset : Z)
  : M host (bool * t) :=
  if out_of_range p index size offset then ret (false, p) else
  present <- test p index ;;
  p <- (if present : bool then ret p
        else r <- InitBlock p index ;; ret r.2) ;;
  file <- open_rw (block_file p index) ;;
  match file with
  | None => ret (false, p)
  | Some file =>
      hfs_do (Fs.fwrite file offset buffer size) ;;;
      ret (true, p)
  end.
End Partition.

(** ** Lemmas *)
Lemma fopen_missing q s : files s !! q = None -> Fs.fopen_existing q s = None.
Proof. intros H. unfold Fs.fopen_existing. rewrite H. by destruct (deny s q). Qed.

Fixpoint hex_value (v : Z) (s : string) : Z :=
  match s with
  | EmptyString => v
  | String c s =>
      let b := ascii_byte c in
      hex_value (16 * v + (if b <? 58 then b - 48 else b - 87)) s
  end.

Lemma hex_digit_value d v s : 0 <= d < 16 -> hex_value v (String (hex_digit d) s) = hex_value (16 * v + d) s.
Proof.
  intros Hd. cbn [hex_value]. unfold hex_digit, ascii_byte.
  rewrite N_ascii_embedding by (destruct (d <? 10) eqn:E; zbool; lia).
  f_equal. destruct (Z.ltb_spec d 10); rewrite Z2N.id by lia;
    [destruct (Z.ltb_spec (48 + d) 58)|destruct (Z.ltb_spec (87 + d) 58)]; lia.
Qed.

Lemma to_hex_value fuel n acc :
  0 <= n < 16 ^ Z.of_nat fuel -> hex_value 0 (to_hex fuel n acc) = hex_value n acc.
Proof.
  revert n acc. induction fuel as [|fuel IH]; intros n acc Hn; cbn [to_hex].
  - change (16 ^ Z.of_nat 0) with 1 in Hn. by replace n with 0 by lia.
  - pose proof (Z.div_mod n 16 ltac:(lia)) as D. pose proof (Z.mod_pos_bound n 16 ltac:(lia)).
    destruct (Z.eqb_spec (n / 16) 0) as [E|E].
    + rewrite hex_digit_value by lia. f_equal. lia.
    + rewrite IH.
      * rewrite hex_digit_value by lia. f_equal. lia.
      * split; [apply Z.div_pos; lia|]. apply Z.div_lt_upper_bound; [lia|].
        rewrite <- Z.pow_succ_r, <- Nat2Z.inj_succ by lia. apply Hn.
Qed.

Lemma hex_inj i j : in_u64 i -> in_u64 j -> hex i = hex j -> i = j.
Proof.
  intros Hi Hj E. apply (f_equal (hex_value 0)) in E. unfold hex in E.
  rewrite !to_hex_value in E by (change (16 ^ Z.of_nat 16) with (2 ^ 64); done). done.
Qed.

Lemma length_to_hex fuel n acc : (String.length (to_hex fuel n acc) <= fuel + String.length acc)%nat.
Proof.
  revert n acc. induction fuel as [|fuel IH]; intros n acc; cbn [to_hex]; [lia|].
  destruct (n / 16 =? 0); [cbn [String.length]; lia|].
  pose proof (IH (n / 16) (String (hex_digit (n mod 16)) acc)) as L. cbn [String.length] in L. lia.
Qed.

(** ** Writing chunks *)
Lemma hfs_do_ok {A} (op : filesystem -> outcome (A * filesystem)) h r s :
  op (hfs h) = Ok (r, s) -> hfs_do op h = Ok (r, set_hfs s h).
Proof. unfold hfs_do. by intros ->. Qed.

Lemma write_chunks_ok file off chunks h old :
  files (hfs h) !! file = Some old -> 0 <= off ->
  off + zlen (concat chunks) <= limit (hfs h) ->
  Partition.write_chunks file off chunks h
    = Ok (tt, set_hfs (Fs.store file
                        (match chunks with [] => old | _ => write_at old (Z.to_nat off) (concat chunks) end)
                        (hfs h)) h).
Proof.
  revert off h old. induction chunks as [|c chunks IH]; intros off h old Hf Ho Hl;
    cbn [Partition.write_chunks concat] in *.
  - unfold ret. do 2 f_equal. destruct h as [s tr]. unfold set_hfs, Fs.store, Fs.set_files; cbn in *.
    destruct s; cbn in *. by rewrite insert_id.
  - rewrite zlen_app in Hl. pose proof (zlen_nonneg c). pose proof (zlen_nonneg (concat chunks)).
    rewrite (bind_ok _ _ _ _ _ (hfs_do_ok _ _ _ _ (FsFacts.fwrite_ok file off c (hfs h) old Hf Ho ltac:(lia)))).
    rewrite (IH _ _ (write_at old (Z.to_nat off) c)).
    + do 2 f_equal. unfold set_hfs; cbn [hfs trash]. f_equal.
      unfold Fs.store, Fs.set_files; cbn [files dirs deny limit]. rewrite insert_insert_eq.
      do 2 f_equal. destruct chunks as [|c2 chunks].
      * cbn [concat]. by rewrite app_nil_r.
      * rewrite <- write_at_app. f_equal. unfold zlen. lia.
    + cbn. by rewrite lookup_insert_eq.
    + lia.
    + cbn. lia.
Qed.

Lemma zero_chunks_concat fuel n :
  0 <= n -> n / 4096 < Z.of_nat fuel ->
  concat (Partition.zero_chunks fuel n) = replicate (Z.to_nat n) 0.
Proof.
  revert n. induction fuel as [|fuel IH]; intros n Hn Hf.
  - pose proof (Z.div_pos n 4096). lia.
  - cbn [Partition.zero_chunks]. destruct (Z.ltb_spec 0 n).
    2:{ by replace n with 0 by lia. }
    cbn [concat]. destruct (Z.ltb_spec 4096 n).
    + rewrite IH.
      * rewrite <- replicate_add. f_equal. lia.
      * lia.
      * replace n with (n - 4096 + 1 * 4096) in Hf by lia. rewrite Z.div_add in Hf by lia. lia.
    + rewrite Z.sub_diag. destruct fuel; cbn; by rewrite app_nil_r.
Qed.

(** ** A partition on disk as a disk of blocks *)
Section Disk.
Import Partition.
Context (workDir id : string) (count bsize junk : Z).
Hypotheses (Hcount : 0 < count < 2 ^ 63) (Hbsize : 0 < bsize < 2 ^ 63)
  (Hshort : (String.length (workDir +:+ id) <= 1000)%nat).

Definition dir : string := workDir +:+ id.
Definition map_path : string := dir +:+ "/.partmap".
Definition block_path (i : Z) : string := dir +:+ "/block-" +:+ hex i.
Definition zeros : list Z := replicate (Z.to_nat bsize) 0.
Definition obj (s : BitSet.t) : t := mk dir count bsize map_path s.

(** the files of the partition hold the disk [d] *)
Record represents (h : host) (d : Z -> list Z) (s : BitSet.t) : Prop := {
  rep_wf : BitSetFacts.wf s;
  rep_size : BitSet.size s = count;
  rep_map : files (hfs h) !! map_path = Some (concat (BitSet.WriteTo s)) \/
            (files (hfs h) !! map_path = None /\ s = BitSet.make count);
  rep_length i : 0 <= i < count -> zlen (d i) = bsize;
  rep_used i : 0 <= i < count -> BitSet.Get i s = true ->
               files (hfs h) !! block_path i = Some (d i);
  rep_fresh i : 0 <= i < count -> BitSet.Get i s = false ->
                d i = zeros /\ forall old, files (hfs h) !! block_path i = Some old -> zlen old <= bsize;
  rep_open : deny (hfs h) map_path = false /\ forall i, deny (hfs h) (block_path i) = false;
  rep_room : bsize <= limit (hfs h) /\ (count + 7) / 8 <= limit (hfs h)
}.
Definition stores (h : host) (d : Z -> list Z) : Prop := exists s, represents h d s.
(** files that are not the partition's *)
Definition foreign (q : string) : Prop := q <> map_path /\ forall i, q <> block_path i.

(** what a request may change: the partition's own files, and new directories *)
Record frame (h h' : host) : Prop := {
  frame_files q : foreign q -> files (hfs h') !! q = files (hfs h) !! q;
  frame_deny : deny (hfs h') = deny (hfs h);
  frame_limit : limit (hfs h') = limit (hfs h);
  frame_dirs : dirs (hfs h) ⊆ dirs (hfs h');
  frame_trash : trash h' = trash h
}.
Lemma frame_refl h : frame h h.
Proof. by split. Qed.
Lemma frame_trans h1 h2 h3 : frame h1 h2 -> frame h2 h3 -> frame h1 h3.
Proof.
  intros [A1 A2 A3 A4 A5] [B1 B2 B3 B4 B5].
  split; [|congruence|congruence|by etrans|congruence]. intros q Hq. by rewrite B1, A1.
Qed.

Lemma block_file_obj s i : block_file (obj s) i = block_path i.
Proof.
  unfold block_file, snprintf, block_path; cbn [partitionPath obj]. fold dir in Hshort.
  apply substring_all. rewrite !length_append. pose proof (length_to_hex 16 i EmptyString) as L.
  cbn [String.length] in L. fold (hex i) in L.
  change (String.length "/block-") with 7%nat. lia.
Qed.

Lemma block_not_map i : block_path i <> map_path.
Proof.
  unfold block_path, map_path. intros E. apply string_app_inj in E.
  change (String "/" (String "b" ("lock-" +:+ hex i)) = "/.partmap"%string) in E. congruence.
Qed.

Lemma block_path_inj i j : in_u64 i -> in_u64 j -> block_path i = block_path j -> i = j.
Proof.
  intros Hi Hj E. unfold block_path in E. do 2 apply string_app_inj in E. by apply hex_inj.
Qed.

(** the representation depends on the partition's files only *)
Lemma represents_ext h h' d s :
  (forall q, ~ foreign q -> files (hfs h') !! q = files (hfs h) !! q) ->
  deny (hfs h') = deny (hfs h) -> limit (hfs h') = limit (hfs h) ->
  represents h d s -> represents h' d s.
Proof.
  intros Hq Hd Hl [H1 H2 H3 H4 H5 H6 H7 H8].
  assert (Em : files (hfs h') !! map_path = files (hfs h) !! map_path) by (apply Hq; intros [? _]; done).
  assert (Eb : forall i, files (hfs h') !! block_path i = files (hfs h) !! block_path i)
    by (intros i; apply Hq; intros [_ X]; by apply (X i)).
  split; rewrite ?Em, ?Hd, ?Hl; try done.
  - intros i. rewrite Eb. apply H5.
  - intros i. rewrite Eb. apply H6.
Qed.

Lemma open_partition h d s :
  represents h d s ->
  exists h', Partition workDir junk id count bsize h = Ok (obj s, h') /\
    represents h' d s /\ frame h h' /\ files (hfs h') = files (hfs h).
Proof.
  intros R. exists (set_hfs (Fs.mkdir dir (hfs h)) h).
  split_and_all; [|by apply (represents_ext h)|split; try done; apply union_subseteq_r|done].
  pose proof R as [Hwf Hsz Hmap _ _ _ [Hdm _] _].
  unfold Partition. fold dir. fold map_path.
  rewrite (bind_ok _ _ h tt (set_hfs (Fs.mkdir dir (hfs h)) h)) by (by apply hfs_do_ok).
  set (h1 := set_hfs _ h). unfold bind, gets, obind, ret.
  change (Fs.content map_path (hfs h1)) with (Fs.content map_path (hfs h)).
  change (Fs.fopen_existing map_path (hfs h1)) with (Fs.fopen_existing map_path (hfs h)).
  unfold obj. do 3 f_equal. destruct Hmap as [Hm|[Hm ->]].
  - rewrite (FsFacts.fopen_existing_ok _ _ _ Hdm Hm). unfold Fs.content. rewrite Hm.
    change (default [] (Some ?x)) with x. rewrite <- (app_nil_r (concat _)).
    pose proof (BitSetFacts.make_wf count ltac:(lia)) as Hw0.
    apply BitSetCodec.ReadFrom_WriteTo; [done|done|].
    rewrite (BitSetFacts.wf_length _ Hw0), (BitSetFacts.wf_length _ Hwf). cbn [BitSet.make BitSet.size].
    by rewrite Hsz.
  - by rewrite fopen_missing.
Qed.

Lemma test_obj s i h : 0 <= i < count -> BitSet.size s = count ->
  test (obj s) i h = Ok (BitSet.Get i s, h).
Proof.
  intros Hi Hs. unfold test, gets; cbn [partitionMap obj]. do 2 f_equal.
  rewrite BitSetRefs.value_at by lia. by destruct (Z.ltb_spec i (BitSet.size s)); [|lia].
Qed.

Lemma mark_obj s i h : 0 <= i < count -> BitSet.size s = count ->
  mark (obj s) i h = Ok (obj (BitSet.Set_ i true s), h).
Proof.
  intros Hi Hs. unfold mark; cbn [partitionMap obj]. rewrite BitSetRefs.assign_at by lia.
  destruct (Z.ltb_spec i (BitSet.size s)); [|lia]. unfold set_trash. by destruct h.
Qed.

Lemma in_range s i size off :
  0 <= i < count -> 0 <= off -> 0 <= size -> off + size <= bsize ->
  out_of_range (obj s) i size off = false.
Proof.
  intros Hi Ho Hs Hb. unfold out_of_range; cbn [blockCount blockSize obj].
  rewrite u64_small by (unfold in_u64; lia).
  repeat (apply orb_false_iff; split); apply Z.ltb_ge; lia.
Qed.

(** ** Reading *)
Lemma ReadBlock_ok h d s i buffer size off :
  represents h d s -> 0 <= i < count -> 0 <= off -> 0 <= size -> off + size <= bsize ->
  zlen buffer = size ->
  ReadBlock (obj s) i buffer size off h
    = Ok ((true, read_at (d i) (Z.to_nat off) (Z.to_nat size)), h).
Proof.
  intros R Hi Ho Hs Hb Hbuf. pose proof (rep_length _ _ _ R i Hi) as Hlen.
  unfold ReadBlock. rewrite in_range by done.
  destruct (Z.ltb_spec (zlen buffer) size); [lia|].
  rewrite (bind_ok _ _ _ _ _ (test_obj s i h Hi (rep_size _ _ _ R))), block_file_obj.
  assert (Hrl : length (read_at (d i) (Z.to_nat off) (Z.to_nat size)) = Z.to_nat size).
  { rewrite length_read_at. unfold zlen in *. lia. }
  destruct (BitSet.Get i s) eqn:E.
  - pose proof (rep_used _ _ _ R i Hi E) as Hf.
    unfold bind, gets, obind.
    rewrite (FsFacts.fopen_existing_ok _ _ _ (proj2 (rep_open _ _ _ R) i) Hf).
    unfold Fs.fread, Fs.content. rewrite Hf. change (default [] (Some ?x)) with x.
    unfold ret. rewrite Hrl, drop_ge, app_nil_r by (unfold zlen in *; lia). done.
  - destruct (rep_fresh _ _ _ R i Hi E) as [-> _]. unfold ret.
    rewrite drop_ge, app_nil_r by (unfold zlen in *; lia). do 3 f_equal.
    unfold read_at, zeros. rewrite drop_replicate, take_replicate. f_equal. lia.
Qed.

(** ** Writing *)
Definition put_file (q : string) (d : list Z) (h : host) : host := set_hfs (Fs.store q d (hfs h)) h.

Lemma put_file_same q d h : files (hfs h) !! q = Some d -> put_file q d h = h.
Proof.
  intros H. destruct h as [[f di de l] tr]. unfold put_file, set_hfs, Fs.store, Fs.set_files; cbn in *.
  by rewrite insert_id.
Qed.
Lemma put_put q d d' h : put_file q d (put_file q d' h) = put_file q d h.
Proof. unfold put_file, set_hfs, Fs.store, Fs.set_files; cbn. by rewrite insert_insert_eq. Qed.
Lemma files_put q d h q' :
  files (hfs (put_file q d h)) !! q' = if decide (q' = q) then Some d else files (hfs h) !! q'.
Proof.
  cbn. destruct (decide (q' = q)) as [->|]; [by rewrite lookup_insert_eq|by rewrite lookup_insert_ne].
Qed.

Lemma frame_put q d h : q = map_path \/ (exists i, q = block_path i) -> frame h (put_file q d h).
Proof.
  intros Hq. split; try done. intros q' [H1 H2]. rewrite files_put, decide_False; [done|].
  destruct Hq as [->|[i ->]]; [done|apply H2].
Qed.

Lemma open_rw_ok q h :
  deny (hfs h) q = false ->
  open_rw q h = Ok (Some q, put_file q (Fs.content q (hfs h)) h).
Proof.
  intros Hd. unfold open_rw, bind, gets, obind. unfold Fs.content.
  destruct (files (hfs h) !! q) as [d|] eqn:E.
  - rewrite (FsFacts.fopen_existing_ok _ _ _ Hd E).
    change (default [] (Some d)) with d. by rewrite put_file_same.
  - rewrite fopen_missing by done.
    rewrite (hfs_do_ok _ h (Some q) (Fs.store q [] (hfs h)))
      by (by rewrite FsFacts.fopen_trunc_ok). done.
Qed.

Lemma write_all file chunks h :
  files (hfs h) !! file = Some [] -> zlen (concat chunks) <= limit (hfs h) ->
  write_chunks file 0 chunks h = Ok (tt, put_file file (concat chunks) h).
Proof.
  intros Hf Hl. rewrite (write_chunks_ok file 0 chunks h [] Hf) by lia.
  unfold put_file. do 4 f_equal. destruct chunks as [|c chunks]; [done|].
  change (Z.to_nat 0) with 0%nat. by rewrite (write_at_end []).
Qed.

Lemma FlushMap_ok s h :
  BitSetFacts.wf s -> BitSet.size s = count ->
  deny (hfs h) map_path = false -> (count + 7) / 8 <= limit (hfs h) ->
  FlushMap (obj s) h = Ok (true, put_file map_path (concat (BitSet.WriteTo s)) h).
Proof.
  intros Hwf Hsz Hd Hl. unfold FlushMap; cbn [partitionMapFile partitionMap obj].
  rewrite (bind_ok _ _ h (Some map_path) (put_file map_path [] h))
    by (apply hfs_do_ok; by rewrite FsFacts.fopen_trunc_ok).
  rewrite (bind_ok _ _ _ tt (put_file map_path (concat (BitSet.WriteTo s)) h)); [done|].
  rewrite write_all, put_put; [done|by rewrite files_put, decide_True|].
  rewrite BitSetCodec.zlen_WriteTo, Hsz by done. exact Hl.
Qed.

(** a block that gets its file and its bit *)
Lemma represents_init h d s i :
  represents h d s -> 0 <= i < count -> BitSet.Get i s = false ->
  let s' := BitSet.Set_ i true s in
  represents (put_file map_path (concat (BitSet.WriteTo s')) (put_file (block_path i) zeros h)) d s'.
Proof.
  intros R Hi E s'. destruct (rep_fresh _ _ _ R i Hi E) as [Hz _].
  destruct R as [Hwf Hsz Hmap Hlen Hused Hfresh Hopen Hroom].
  assert (Hwf' : BitSetFacts.wf s') by (apply BitSetFacts.Set_wf; [done|lia]).
  assert (Hsz' : BitSet.size s' = count).
  { unfold s'. rewrite BitSetFacts.Set_inside by lia. exact Hsz. }
  assert (Hget : forall j, 0 <= j -> BitSet.Get j s' = if j =? i then true else BitSet.Get j s).
  { intros j Hj. unfold s'. rewrite BitSetFacts.Get_Set by (done || lia).
    destruct (Z.ltb_spec i (BitSet.size s)); [|lia]. by rewrite andb_true_r. }
  assert (Hb : forall j, 0 <= j < count -> j <> i -> block_path j <> block_path i).
  { intros j Hj Hne C. apply Hne, block_path_inj; [unfold in_u64; lia..|done]. }
  split; try done.
  - left. by rewrite files_put, decide_True.
  - intros j Hj Hg. rewrite Hget in Hg by lia.
    rewrite files_put, decide_False by apply block_not_map. rewrite files_put.
    destruct (Z.eqb_spec j i) as [->|Hne].
    + by rewrite decide_True, Hz.
    + rewrite decide_False by (by apply Hb). by apply Hused.
  - intros j Hj Hg. rewrite Hget in Hg by lia. destruct (Z.eqb_spec j i) as [|Hne]; [done|].
    destruct (Hfresh j Hj Hg) as [Hzj Hold]. split; [done|]. intros old.
    rewrite files_put, decide_False by apply block_not_map.
    rewrite files_put, decide_False by (by apply Hb). apply Hold.
Qed.

Lemma InitBlock_ok h d s i :
  represents h d s -> 0 <= i < count -> BitSet.Get i s = false ->
  let s' := BitSet.Set_ i true s in
  InitBlock (obj s) i h = Ok ((true, obj s'),
    put_file map_path (concat (BitSet.WriteTo s')) (put_file (block_path i) zeros h)).
Proof.
  intros R Hi E s'. pose proof (represents_init h d s i R Hi E) as R'. fold s' in R'.
  destruct (rep_open _ _ _ R) as [Hdm Hdb]. destruct (rep_room _ _ _ R) as [Hl1 Hl2].
  destruct (rep_fresh _ _ _ R i Hi E) as [_ Hold].
  unfold InitBlock. rewrite block_file_obj.
  rewrite (bind_ok _ _ _ _ _ (open_rw_ok (block_path i) h (Hdb i))).
  set (old := Fs.content (block_path i) (hfs h)).
  assert (Hol : zlen old <= bsize).
  { unfold old, Fs.content. destruct (files (hfs h) !! block_path i) as [x|] eqn:Ex; cbn.
    - by apply Hold.
    - unfold zlen; cbn. lia. }
  cbn [blockSize obj].
  assert (Hz : concat (zero_chunks (S (Z.to_nat (bsize / 4096))) bsize) = zeros).
  { apply zero_chunks_concat; [lia|]. pose proof (Z.div_pos bsize 4096). lia. }
  rewrite (bind_ok _ _ _ tt (put_file (block_path i) zeros h)).
  2:{ rewrite (write_chunks_ok _ 0 _ _ old).
      - assert (Hw : write_at old 0 zeros = zeros).
        { unfold write_at. rewrite drop_ge; [by rewrite take_0, app_nil_l, app_nil_r|].
          unfold zeros, zlen in *. rewrite length_replicate. lia. }
        rewrite Hz. change (Z.to_nat 0) with 0%nat. rewrite Hw.
        cbn [zero_chunks]. destruct (Z.ltb_spec 0 bsize); [|lia].
        fold (put_file (block_path i) zeros (put_file (block_path i) old h)).
        by rewrite put_put.
      - by rewrite files_put, decide_True.
      - done.
      - rewrite Hz. unfold zlen, zeros. rewrite length_replicate. cbn. lia. }
  rewrite (bind_ok _ _ _ _ _ (mark_obj s i _ Hi (rep_size _ _ _ R))). fold s'.
  rewrite (bind_ok _ _ _ _ _ (FlushMap_ok s' (put_file (block_path i) zeros h) (rep_wf _ _ _ R') (rep_size _ _ _ R') Hdm Hl2)).
  done.
Qed.

(** the disk with [data] stored in block [i] *)
Definition disk_write (d : Z -> list Z) (i off : Z) (data : list Z) : Z -> list Z :=
  fun j => if j =? i then write_at (d i) (Z.to_nat off) data else d j.

Lemma represents_write h d s i off data :
  represents h d s -> 0 <= i < count -> BitSet.Get i s = true ->
  0 <= off -> off + zlen data <= bsize ->
  represents (put_file (block_path i) (write_at (d i) (Z.to_nat off) data) h)
    (disk_write d i off data) s.
Proof.
  intros [Hwf Hsz Hmap Hlen Hused Hfresh Hopen Hroom] Hi E Ho Hd.
  pose proof (zlen_nonneg data).
  assert (Hb : forall j, 0 <= j < count -> j <> i -> block_path j <> block_path i).
  { intros j Hj Hne C. apply Hne, block_path_inj; [unfold in_u64; lia..|done]. }
  split; try done.
  - rewrite files_put, decide_False; [done|]. intros C. by apply (block_not_map i).
  - intros j Hj. unfold disk_write. destruct (Z.eqb_spec j i) as [->|]; [|by apply Hlen].
    pose proof (Hlen i Hi). unfold zlen in *. rewrite length_write_at. lia.
  - intros j Hj Hg. unfold disk_write. rewrite files_put. destruct (Z.eqb_spec j i) as [->|Hne].
    + by rewrite decide_True.
    + rewrite decide_False by (by apply Hb). by apply Hused.
  - intros j Hj Hg. unfold disk_write. destruct (Z.eqb_spec j i) as [->|Hne]; [congruence|].
    rewrite files_put, decide_False by (by apply Hb). by apply Hfresh.
Qed.

Lemma WriteBlock_ok h d s i data off :
  represents h d s -> 0 <= i < count -> 0 <= off -> off + zlen data <= bsize ->
  exists s' h', WriteBlock (obj s) i data (zlen data) off h = Ok ((true, obj s'), h') /\
    represents h' (disk_write d i off data) s' /\ frame h h'.
Proof.
  intros R Hi Ho Hb. pose proof (zlen_nonneg data) as Hdn.
  assert (Main : forall s1 h1, represents h1 d s1 -> BitSet.Get i s1 = true -> frame h h1 ->
    exists h', bind (open_rw (block_file (obj s1) i)) (fun file =>
        match file with
        | None => ret (false, obj s1)
        | Some file => hfs_do (Fs.fwrite file off data (zlen data)) ;;; ret (true, obj s1)
        end) h1 = Ok ((true, obj s1), h') /\
      represents h' (disk_write d i off data) s1 /\ frame h h').
  { intros s1 h1 R1 E1 Hfr.
    exists (put_file (block_path i) (write_at (d i) (Z.to_nat off) data) h1).
    pose proof (rep_used _ _ _ R1 i Hi E1) as Hf. destruct (rep_open _ _ _ R1) as [_ Hdb].
    split_and_all; [|by apply represents_write|].
    - rewrite block_file_obj.
      rewrite (bind_ok _ _ _ _ _ (open_rw_ok (block_path i) h1 (Hdb i))).
      unfold Fs.content. rewrite Hf. change (default [] (Some ?x)) with x.
      rewrite put_file_same by done.
      erewrite bind_ok; [|apply hfs_do_ok, (FsFacts.fwrite_ok _ _ _ _ (d i)); try done].
      + done.
      + pose proof (rep_room _ _ _ R1). lia.
    - eapply frame_trans; [exact Hfr|]. apply frame_put. by right; exists i. }
  unfold WriteBlock. rewrite in_range by done.
  rewrite (bind_ok _ _ _ _ _ (test_obj s i h Hi (rep_size _ _ _ R))).
  destruct (BitSet.Get i s) eqn:E.
  - destruct (Main s h R E (frame_refl h)) as (h' & E' & R' & Q').
    exists s, h'. split; [exact E'|done].
  - set (s' := BitSet.Set_ i true s).
    pose proof (represents_init h d s i R Hi E) as R'. cbv zeta in R'. fold s' in R'.
    set (h1 := put_file map_path _ _) in R'.
    destruct (Main s' h1 R') as (h' & E' & R2 & Q').
    + unfold s'. rewrite BitSetFacts.Get_Set by (lia || apply (rep_wf _ _ _ R)).
      pose proof (rep_size _ _ _ R). rewrite Z.eqb_refl.
      by destruct (Z.ltb_spec i (BitSet.size s)); [|lia].
    + eapply frame_trans; apply frame_put; [by right; exists i|by left].
    + exists s', h'. split; [|done].
      rewrite (bind_ok _ _ h (obj s') h1); [exact E'|].
      rewrite (bind_ok _ _ _ _ _ (InitBlock_ok h d s i R Hi E)). done.
Qed.
End Disk.

(** ** Properties *)
(** one request opens the partition and does one operation *)
Definition read_request (workDir id : string) (count bsize junk i size off : Z) : M host (bool * list Z) :=
  p <- Partition.Partition workDir junk id count bsize ;;
  Partition.ReadBlock p i (replicate (Z.to_nat size) 0) size off.
Definition write_request (workDir id : string) (count bsize junk i : Z) (data : list Z) (off : Z)
  : M host bool :=
  p <- Partition.Partition workDir junk id count bsize ;;
  r <- Partition.WriteBlock p i data (zlen data) off ;;
  ret r.1.

(** [C6] A partition is a disk of [count] blocks of [bsize] bytes: with no files yet
    it is all zeros; a read inside a block returns the bytes of the disk and
    changes no file; a write inside a block is that write on the disk, touches no
    file of anyone else, and the next request, which opens the partition anew from
    its map file, sees the disk so written. *)
Theorem partition_refines_disk (workDir id : string) (count bsize junk : Z) (h : host)
  (d : Z -> list Z) (i off size : Z) (data : list Z) :
  0 < count < 2 ^ 63 -> 0 < bsize < 2 ^ 63 ->
  (String.length (workDir +:+ id) <= 1000)%nat ->
  stores workDir id count bsize h d ->
  0 <= i < count -> 0 <= off -> 0 <= size -> off + size <= bsize -> off + zlen data <= bsize ->
  (exists h1, read_request workDir id count bsize junk i size off h
      = Ok ((true, read_at (d i) (Z.to_nat off) (Z.to_nat size)), h1) /\
    stores workDir id count bsize h1 d /\ files (hfs h1) = files (hfs h) /\
    frame workDir id h h1) /\
  (exists h2, write_request workDir id count bsize junk i data off h = Ok (true, h2) /\
    stores workDir id count bsize h2 (disk_write d i off data) /\ frame workDir id h h2).
Proof.
  intros Hc Hb Hsh [s R] Hi Ho Hs Hos Hod.
  destruct (open_partition workDir id count bsize junk Hc Hsh h d s R) as (h1 & E1 & R1 & T1 & F1).
  split.
  - exists h1. unfold read_request. rewrite (bind_ok _ _ _ _ _ E1).
    erewrite ReadBlock_ok; try done.
    + split_and_all; [done|by exists s|done|done].
    + unfold zlen. rewrite length_replicate. lia.
  - destruct (WriteBlock_ok workDir id count bsize Hc Hb Hsh h1 d s i data off R1 Hi Ho Hod)
      as (s2 & h2 & E2 & R2 & T2).
    exists h2. unfold write_request. rewrite (bind_ok _ _ _ _ _ E1), (bind_ok _ _ _ _ _ E2).
    split_and_all; [done|by exists s2|]. by eapply frame_trans.
Qed.

(** a partition without files is a disk of zeros *)
Lemma stores_new workDir id count bsize h :
  0 < count < 2 ^ 63 -> 0 < bsize ->
  files (hfs h) !! map_path workDir id = None ->
  (forall i, 0 <= i < count -> files (hfs h) !! block_path workDir id i = None) ->
  deny (hfs h) (map_path workDir id) = false ->
  (forall i, deny (hfs h) (block_path workDir id i) = false) ->
  bsize <= limit (hfs h) -> (count + 7) / 8 <= limit (hfs h) ->
  stores workDir id count bsize h (fun _ => zeros bsize).
Proof.
  intros Hc Hb Hm Hf Hdm Hdb Hl1 Hl2. exists (BitSet.make count).
  split; try done.
  - apply BitSetFacts.make_wf. lia.
  - by right.
  - intros i _. unfold zlen, zeros. rewrite length_replicate. lia.
  - intros i Hi E. by rewrite BitSetFacts.Get_make in E by lia.
  - intros i Hi _. split; [done|]. intros old. by rewrite Hf.
Qed.

Definition sample_host : host := mkhost (mkfs ∅ ∅ (fun _ => false) (2 ^ 40)) 0.

Lemma sample_stores : stores "/w/" "p" 3 5 sample_host (fun _ => zeros 5).
Proof. apply stores_new; try done; vm_compute; congruence. Qed.

Lemma partition_refines_disk_witness :
  exists h2 h3, write_request "/w/" "p" 3 5 77 1 [8; 9] 2 sample_host = Ok (true, h2) /\
    read_request "/w/" "p" 3 5 78 1 4 1 h2 = Ok ((true, [0; 8; 9; 0]), h3).
Proof.
  assert (Hc : 0 < 3 < 2 ^ 63) by closed_range. assert (Hb : 0 < 5 < 2 ^ 63) by closed_range.
  assert (Hl : (String.length ("/w/" +:+ "p") <= 1000)%nat) by (vm_compute; lia).
  destruct (partition_refines_disk "/w/" "p" 3 5 77 sample_host (fun _ => zeros 5) 1 2 0 [8; 9]
    Hc Hb Hl sample_stores) as (_ & h2 & E2 & S2 & _); [closed_range..|].
  destruct (partition_refines_disk "/w/" "p" 3 5 78 h2 _ 1 1 4 [] Hc Hb Hl S2)
    as ((h3 & E3 & _) & _); [closed_range..|].
  exists h2, h3. split; [exact E2|exact E3].
Defined.
