(* ===== verification/HostHandler.v ===== *)
(** * The storage host's HTTP interface (src/src/bdhost/PartitionHandler.cpp,
      ConfigHandler.cpp, Util.cpp, and PublishStorage of Main.cpp)

    Requests on [/api/host/Partitions]: reserving and releasing space, creating a
    partition, reading and writing its blocks, deleting it.  The JSON library, the
    shell and the answers of the Kademlia nodes are parameters. *)

From Stdlib Require Import ZArith Lia Bool Ascii String.
From stdpp Require Import base list gmap strings pretty.
From S2P Require Import Prelude Streams Stdio BitSet HostPartition.
Set Default Goal Selector "!".
Local Open Scope Z_scope.
Local Open Scope drive_scope.

(** ** [strtoull(s, nullptr, 10)]; [strtoul] is the same on this platform *)
Definition is_space (c : ascii) : bool :=
  let b := ascii_byte c in (b =? 32) || ((9 <=? b) && (b <=? 13)).
Definition is_digit (c : ascii) : bool :=
  let b := ascii_byte c in (48 <=? b) && (b <=? 57).
Fixpoint digits_value (v : Z) (s : string) : Z :=
  match s with
  | String c s => if is_digit c then digits_value (10 * v + (ascii_byte c - 48)) s else v
  | EmptyString => v
  end.
Fixpoint skip_spaces (s : string) : string :=
  match s with
  | String c s' => if is_space c then skip_spaces s' else s
  | EmptyString => s
  end.
Definition saturate (v : Z) : Z := if 2 ^ 64 <=? v then 2 ^ 64 - 1 else v.
Definition strtoull (s : string) : Z :=
  match skip_spaces s with
  | String "-" s => let v := digits_value 0 s in if 2 ^ 64 <=? v then 2 ^ 64 - 1 else u64 (- v)
  | String "+" s => saturate (digits_value 0 s)
  | s => saturate (digits_value 0 s)
  end.

(** ** HTTP *)
Inductive ErrorCode :=
| E_SUCCESS | GENERIC_ERROR | E_NOT_SUPPORTED | ARGUMENT_INVALID | OBJECT_NOT_FOUND
| CONTRACT_NOT_FOUND.
Definition error_value (e : ErrorCode) : Z :=
  match e with
  | E_SUCCESS => 0
  | GENERIC_ERROR => 1
  | E_NOT_SUPPORTED => 2
  | ARGUMENT_INVALID => 257
  | OBJECT_NOT_FOUND => 513
  | CONTRACT_NOT_FOUND => 514
  end.
(** [parameter] gives the empty string for a missing one; a body is there for an
    octet-stream POST with at least one byte *)
Record request := mkrequest {
  path : string;
  parameter : string -> string;
  body : option (list Z)
}.
Inductive reply :=
| Text (s : string)
| Octets (d : list Z)
| Error (details : string) (code : ErrorCode).
Record response := mkresponse { responseCode : Z; content : reply }.
Definition ok_text (s : string) : response := mkresponse 200 (Text s).
Definition failed (code : Z) (details : string) (e : ErrorCode) : response :=
  mkresponse code (Error details e).

(** ** The host *)
Record server := mkserver {
  shost : host;
  uuids : nat -> string;
  fresh : nat;
  published : list Z
}.
Definition on_host {A} (m : M host A) : M server A := fun s =>
  obind (m (shost s)) (fun '(a, h) => Ok (a, mkserver h (uuids s) (fresh s) (published s))).
Definition sfs (s : server) : filesystem := hfs (shost s).
Definition sfs_do {A} (op : filesystem -> outcome (A * filesystem)) : M server A := on_host (hfs_do op).

Definition RESERVED_FILE : string := "reserved.json".
Definition PATH : string := "/api/host/Partitions".
Definition CONFIG_PATH : string := "/api/host/Config".

Definition uuidgen : M server string := fun s =>
  Ok (uuids s (fresh s), mkserver (shost s) (uuids s) (Datatypes.S (fresh s)) (published s)).

Fixpoint find_char (c : ascii) (s : string) : option nat :=
  match s with
  | EmptyString => None
  | String x s => if Ascii.eqb x c then Some O else option_map Datatypes.S (find_char c s)
  end.
Definition substr_from (n : nat) (s : string) : string := substring n (String.length s - n) s.

(** the text of an error answer (src/src/httpserver/HttpContext.h) *)
Fixpoint encodeJsonStr (str : string) : string :=
  match str with
  | EmptyString => EmptyString
  | String c str =>
      let b := ascii_byte c in
      let esc x := String "\" (String x EmptyString) in
      (if b =? 34 then esc c
       else if b =? 92 then esc c
       else if b =? 47 then esc c
       else if b =? 8 then esc "b"%char
       else if b =? 12 then esc "f"%char
       else if b =? 10 then esc "n"%char
       else if b =? 13 then esc "r"%char
       else if b =? 9 then esc "t"%char
       else String c EmptyString) +:+ encodeJsonStr str
  end.
Definition quote (s : string) : string :=
  String (ascii_of_nat 34) (s +:+ String (ascii_of_nat 34) EmptyString).
(** the texts the handlers put together: string members, between them [sep] *)
Fixpoint json_members (members : list (string * string)) (sep : string) : string :=
  match members with
  | [] => EmptyString
  | [(k, v)] => quote k +:+ ":" +:+ quote v
  | (k, v) :: members => quote k +:+ ":" +:+ quote v +:+ sep +:+ json_members members sep
  end.
Definition json_object (members : list (string * string)) (sep : string) : string :=
  "{" +:+ json_members members sep +:+ "}".

Definition writeError (title details : string) (code : Z) : string :=
  "{" +:+ quote "Type" +:+ ":" +:+ quote "Error" +:+ "," +:+ quote "Title" +:+ ":" +:+
  quote (encodeJsonStr title) +:+ "," +:+ quote "Details" +:+ ":" +:+
  quote (encodeJsonStr details) +:+ "," +:+ quote "Code" +:+ ":" +:+ pretty (Z.to_N code) +:+ "}".
(** the bytes that are sent *)
Definition reply_bytes (r : reply) : list Z :=
  match r with
  | Text s => bytes_of_string s
  | Octets d => d
  | Error details code => bytes_of_string (writeError "Failed" details (error_value code))
  end.

Section Server.
(** the options, and for every Kademlia node whether its answer is [true] *)
Context (workDir : string) (hostSize : Z) (kademlia : list bool) (junk : Z).
(** [json] with [size] set to [n]; json.toStyledString()], and the size a text holds: None
    unless it parses to an object with an integral [size] *)
Context (json_text : Z -> list Z) (json_size : list Z -> option Z).
(** [system] *)
Context (shell : string -> filesystem -> filesystem).

(** [std::ofstream out(file); out << data] *)
Definition write_file (file : string) (data : list Z) : M server unit :=
  fp <- sfs_do (fun s => Ok (Fs.fopen_trunc file s)) ;;
  match fp with
  | None => ret tt
  | Some fp => sfs_do (Fs.fwrite fp 0 data (zlen data)) ;;; ret tt
  end.

(** ** Reserved space *)
Definition GetReservedSpace (reserve_id : string) : M server Z :=
  let file := workDir +:+ (if String.eqb reserve_id EmptyString then RESERVED_FILE
                           else reserve_id +:+ "/" +:+ RESERVED_FILE) in
  gets (fun s =>
    let str := match Fs.fopen_existing file (sfs s) with
               | Some f => Fs.content f (sfs s)
               | None => []
               end in
    match json_size str with Some n => n | None => 0 end).

Definition ReserveSpace (size : Z) : M server string :=
  reservedSpace <- GetReservedSpace EmptyString ;;
  if hostSize <? u64 (size + reservedSpace) then ret EmptyString else
  (* [Json::Value::UInt] has 32 bits *)
  let total := u32 (u64 (size + reservedSpace)) in
  write_file (workDir +:+ RESERVED_FILE) (json_text total) ;;;
  reserveId <- uuidgen ;;
  let reservePath := workDir +:+ reserveId in
  sfs_do (fun s => Ok (tt, Fs.mkdir reservePath s)) ;;;
  write_file (reservePath +:+ "/" +:+ RESERVED_FILE) (json_text total) ;;;
  ret reserveId.

Definition UnreserveSpace (reserve_id : string) : M server unit :=
  totalReservedSpace <- GetReservedSpace EmptyString ;;
  reservedSpace <- GetReservedSpace reserve_id ;;
  write_file (workDir +:+ RESERVED_FILE) (json_text (u32 (u64 (totalReservedSpace - reservedSpace)))) ;;;
  write_file (workDir +:+ reserve_id +:+ "/" +:+ RESERVED_FILE) (json_text 0).

(** tell the nodes the available size, until one takes it *)
Fixpoint publish (nodes : list bool) : M server unit :=
  match nodes with
  | [] => ret tt
  | accepted :: nodes =>
      reserved <- GetReservedSpace EmptyString ;;
      modify (fun s => mkserver (shost s) (uuids s) (fresh s)
                         (published s ++ [u64 (hostSize - reserved)])) ;;;
      if accepted : bool then ret tt else publish nodes
  end.
Definition PublishStorage : M server unit := publish kademlia.

(** ** Handlers *)
Definition OnReservePartition (context : request) : M server response :=
  let reserveSize := strtoull (parameter context "size") in
  if reserveSize =? 0 then ret (failed 500 "Reserve size should not be 0" ARGUMENT_INVALID) else
  response <- ReserveSpace reserveSize ;;
  (if String.eqb response EmptyString then ret tt else PublishStorage) ;;;
  ret (ok_text response).

Definition OnUnreservePartition (context : request) : M server response :=
  let uuid := parameter context "reserveId" in
  if String.eqb uuid EmptyString then ret (failed 500 "Invalid reserveId." ARGUMENT_INVALID) else
  UnreserveSpace uuid ;;;
  PublishStorage ;;;
  ret (ok_text "true").

Definition partition_json (name : string) : string :=
  json_object [("Name", name); ("Path", "host://Partitions/" +:+ name); ("Type", "Partition")] ",".

Definition OnCreatePartition (context : request) : M server response :=
  let uuid := parameter context "reserveId" in
  reservedSize <- (if String.eqb uuid EmptyString then ret 0 else GetReservedSpace uuid) ;;
  if reservedSize =? 0 then ret (failed 500 "Invalid reserveId." ARGUMENT_INVALID) else
  let blockSize := strtoull (parameter context "block") in
  if blockSize =? 0 then ret (failed 500 "Block size should not be 0" ARGUMENT_INVALID) else
  let blockCount := reservedSize / blockSize in
  if blockCount =? 0 then ret (failed 500 "Block size is too large" ARGUMENT_INVALID) else
  let uuidPath := workDir +:+ uuid in
  sfs_do (fun s => Ok (tt, Fs.mkdir uuidPath s)) ;;;
  config <- sfs_do (fun s => Ok (Fs.fopen_trunc (uuidPath +:+ "/.config") s)) ;;
  match config with
  | None => ret (failed 500 "Failed to initialize partition" GENERIC_ERROR)
  | Some config =>
      n <- sfs_do (Fs.fwrite config 0 (le_split 8 blockCount) 8) ;;
      sfs_do (Fs.fwrite config n (le_split 8 blockSize) 8) ;;;
      ret (ok_text (partition_json uuid))
  end.

Definition OnFolderRequest (context : request) (action : string) : M server response :=
  if String.eqb action "NewPartition" then OnCreatePartition context
  else if String.eqb action "Reserve" then OnReservePartition context
  else if String.eqb action "Unreserve" then OnUnreservePartition context
  else ret (failed 500 "Action not supported" E_NOT_SUPPORTED).

Definition OnReadBlock (context : request) (name : string) (blockCount blockSize : Z)
  : M server response :=
  let blockId := strtoull (parameter context "block") in
  let offset := u32 (strtoull (parameter context "offset")) in
  let size := u32 (strtoull (parameter context "size")) in
  if (blockCount <=? blockId) || (blockSize <=? offset) || (u64 (blockSize - offset) <? size)
  then ret (failed 500 "Invalid arguments" ARGUMENT_INVALID) else
  pat! (ok, buffer) <- on_host (
    partition <- Partition.Partition workDir junk name blockCount blockSize ;;
    Partition.ReadBlock partition blockId (replicate (Z.to_nat size) 0) size offset) ;;
  if ok : bool then ret (mkresponse 200 (Octets (take (Z.to_nat size) buffer)))
  else ret (failed 500 "Failed to read block" GENERIC_ERROR).

Definition OnWriteBlock (context : request) (name : string) (blockCount blockSize : Z)
  : M server response :=
  let blockId := strtoull (parameter context "block") in
  let offset := u32 (strtoull (parameter context "offset")) in
  let data := default [] (body context) in
  let size := zlen data in
  if (blockCount <=? blockId) || (blockSize <=? offset) || (size =? 0)
  then ret (failed 500 "Invalid arguments" ARGUMENT_INVALID) else
  pat! (ok, _) <- on_host (
    partition <- Partition.Partition workDir junk name blockCount blockSize ;;
    Partition.WriteBlock partition blockId data size offset) ;;
  if ok : bool then ret (ok_text (pretty (Z.to_N size)))
  else ret (failed 500 "Failed to write block" GENERIC_ERROR).

Definition OnDelete (name : string) : M server response :=
  UnreserveSpace name ;;;
  PublishStorage ;;;
  sfs_do (fun s => Ok (tt, shell ("rm -rf " +:+ workDir +:+ name) s)) ;;;
  ret (ok_text "true").

(** block count and size from the partition's [.config] *)
Definition find_partition (name : string) (s : filesystem) : option (Z * Z) :=
  if String.eqb name EmptyString || String.eqb name "." || String.eqb name ".." then None else
  let namePath := workDir +:+ name in
  if negb (bool_decide (namePath ∈ dirs s)) then None else
  match Fs.fopen_existing (namePath +:+ "/.config") s with
  | None => None
  | Some config =>
      let count := Fs.fread config 0 8 s in
      let size := Fs.fread config 8 8 s in
      if (zlen count =? 8) && (zlen size =? 8)
      then Some (le_combine count, le_combine size) else None
  end.

Definition OnPartitionRequest (context : request) (name action : string) : M server response :=
  found <- gets (fun s => find_partition name (sfs s)) ;;
  match found with
  | None => ret (failed 404 "Object not found" OBJECT_NOT_FOUND)
  | Some (blockCount, blockSize) =>
      if String.eqb action EmptyString then ret (ok_text (partition_json name))
      else if String.eqb action "ReadBlock" then OnReadBlock context name blockCount blockSize
      else if String.eqb action "WriteBlock" then OnWriteBlock context name blockCount blockSize
      else if String.eqb action "Delete" then OnDelete name
      else ret (failed 500 "Action not supported" E_NOT_SUPPORTED)
  end.

(** the tests both handlers start with: a request on the object itself, on
    something below it, or neither *)
Definition below (prefix path : string) : option (option string) :=
  let n := String.length prefix in
  if (String.length path <=? Datatypes.S n)%nat ||
     negb (match String.get n path with Some c => Ascii.eqb c "/" | None => false end)
  then (if String.eqb path (prefix +:+ "/") then Some None else None)
  else Some (Some (substr_from (Datatypes.S n) path)).

Definition ProcessRequest (context : request) : M server response :=
  match below PATH (path context) with
  | None => ret (failed 404 "Object not found" OBJECT_NOT_FOUND)
  | Some None => ret (ok_text (json_object
      [("Name", "Partitions"); ("Path", "host://Partitions"); ("Type", "PartitionFolder")] ","))
  | Some (Some rest) =>
      match find_char "/" rest with
      | None => OnFolderRequest context rest
      | Some pos => OnPartitionRequest context (substring 0 pos rest) (substr_from (Datatypes.S pos) rest)
      end
  end.

(** ** ConfigHandler *)
Definition OnGetStatistics : M server response :=
  reserved <- GetReservedSpace EmptyString ;;
  ret (ok_text ("{" +:+ quote "AvailableSize" +:+ ":" +:+ pretty (Z.to_N (u64 (hostSize - reserved)))
                +:+ "," +:+ quote "TotalSize" +:+ ":" +:+ pretty (Z.to_N hostSize) +:+ "}")).

Definition ConfigRequest (context : request) : M server response :=
  match below CONFIG_PATH (path context) with
  | None => ret (failed 404 "Object not found" OBJECT_NOT_FOUND)
  | Some None => ret (ok_text (json_object
      [("Name", "Config"); ("Path", "host://Config"); ("Type", "Config")] ", "))
  | Some (Some action) =>
      match find_char "/" action with
      | Some _ => ret (failed 404 "Object not found" OBJECT_NOT_FOUND)
      | None =>
          if String.eqb action "GetStatistics" then OnGetStatistics
          else ret (failed 500 "Action not supported" E_NOT_SUPPORTED)
      end
  end.
End Server.

(** ** Lemmas *)
Lemma string_app_cancel_r (a b c : string) : a +:+ c = b +:+ c -> a = b.
Proof.
  intros E. apply (f_equal list_ascii_of_string) in E.
  assert (L : forall x y, list_ascii_of_string (x +:+ y) = list_ascii_of_string x ++ list_ascii_of_string y).
  { induction x as [|k x IH]; intros y; [done|].
    change (String k x +:+ y) with (String k (x +:+ y)). cbn. by rewrite IH. }
  rewrite !L in E. apply app_inv_tail in E.
  rewrite <- (string_of_list_ascii_of_string a), <- (string_of_list_ascii_of_string b). by rewrite E.
Qed.

Lemma find_char_app c a b : find_char c a = None ->
  find_char c (a +:+ String c b) = Some (String.length a).
Proof.
  induction a as [|x a IH]; intros Hn.
  - change (EmptyString +:+ String c b) with (String c b). cbn. by rewrite Ascii.eqb_refl.
  - change (String x a +:+ String c b) with (String x (a +:+ String c b)). cbn in *.
    destruct (Ascii.eqb x c); [done|]. destruct (find_char c a); [done|]. by rewrite IH.
Qed.

Lemma substr_from_app a b : substr_from (String.length a) (a +:+ b) = b.
Proof.
  unfold substr_from. rewrite length_append.
  replace (String.length a + String.length b - String.length a)%nat with (String.length b) by lia.
  induction a as [|x a IH].
  - change (EmptyString +:+ b) with b. by apply substring_all.
  - change (String x a +:+ b) with (String x (a +:+ b)). cbn [String.length substring]. exact IH.
Qed.

Lemma get_app a c b : String.get (String.length a) (a +:+ String c b) = Some c.
Proof.
  induction a as [|x a IH]; [done|].
  change (String x a +:+ String c b) with (String x (a +:+ String c b)). cbn. exact IH.
Qed.

Lemma below_rest prefix rest : rest <> EmptyString ->
  below prefix (prefix +:+ String "/" rest) = Some (Some rest).
Proof.
  intros Hr. unfold below. rewrite get_app, length_append. cbn [String.length].
  destruct (Nat.leb_spec (String.length prefix + Datatypes.S (String.length rest))
    (Datatypes.S (String.length prefix))) as [Hl|_].
  { destruct rest; [done|cbn in Hl; lia]. }
  rewrite Ascii.eqb_refl. cbn [orb negb]. do 2 f_equal.
  assert (E : prefix +:+ String "/" rest = (prefix +:+ "/") +:+ rest).
  { induction prefix as [|x a IH]; [done|].
    change (String x (a +:+ String "/" rest) = String x ((a +:+ "/") +:+ rest)). by rewrite IH. }
  rewrite E. replace (Datatypes.S (String.length prefix)) with (String.length (prefix +:+ "/")).
  - apply substr_from_app.
  - rewrite length_append. cbn. lia.
Qed.

(** a request [<PATH>/<name>/<action>] reaches the partition *)
Lemma route_partition workDir hostSize kademlia junk jt js sh (r : request) name action s :
  path r = PATH +:+ String "/" (name +:+ String "/" action) -> name <> EmptyString ->
  find_char "/" name = None ->
  ProcessRequest workDir hostSize kademlia junk jt js sh r s
    = OnPartitionRequest workDir hostSize kademlia junk jt js sh r name action s.
Proof.
  intros Hp Hne Hn. unfold ProcessRequest. rewrite Hp, below_rest.
  2:{ destruct name; [done|]. intros C. discriminate C. }
  rewrite find_char_app by done. rewrite substring_prefix.
  assert (E : name +:+ String "/" action = (name +:+ "/") +:+ action).
  { clear. induction name as [|x a IH]; [done|].
    change (String x (a +:+ String "/" action) = String x ((a +:+ "/") +:+ action)). by rewrite IH. }
  rewrite E. replace (Datatypes.S (String.length name)) with (String.length (name +:+ "/")).
  - by rewrite substr_from_app.
  - rewrite length_append. cbn. lia.
Qed.

(** ** Reads and writes over HTTP *)
Section Blocks.
Context (workDir : string) (hostSize : Z) (kademlia : list bool) (junk : Z)
  (json_text : Z -> list Z) (json_size : list Z -> option Z)
  (shell : string -> filesystem -> filesystem).
Context (name : string) (count bsize : Z).
Hypotheses (Hcount : 0 < count < 2 ^ 63) (Hbsize : 0 < bsize < 2 ^ 63)
  (Hshort : (String.length (workDir +:+ name) <= 1000)%nat).
Abbreviation process := (ProcessRequest workDir hostSize kademlia junk json_text json_size shell).

(** the partition [name] exists, with this geometry, and holds the disk [d] *)
Definition serves (s : server) (d : Z -> list Z) : Prop :=
  name <> EmptyString /\ find_char "/" name = None /\
  find_partition workDir name (sfs s) = Some (count, bsize) /\
  stores workDir name count bsize (shost s) d.

Definition with_host (h : host) (s : server) : server :=
  mkserver h (uuids s) (fresh s) (published s).

Lemma on_host_ok {A} (m : M host A) s a h :
  m (shost s) = Ok (a, h) -> on_host m s = Ok (a, with_host h s).
Proof. unfold on_host. by intros ->. Qed.

Lemma config_foreign : foreign workDir name ((workDir +:+ name) +:+ "/.config").
Proof.
  split.
  - unfold map_path, dir. intros E. apply string_app_inj in E. discriminate.
  - intros i E. unfold block_path, dir in E. apply string_app_inj in E.
    change ("/.config"%string = String "/" (String "b" ("lock-" +:+ hex i))) in E. discriminate E.
Qed.

Lemma find_partition_frame h h' x :
  frame workDir name h h' -> find_partition workDir name (hfs h) = Some x ->
  find_partition workDir name (hfs h') = Some x.
Proof.
  intros Hf. unfold find_partition. destruct (_ || _); [done|].
  destruct (bool_decide (workDir +:+ name ∈ dirs (hfs h))) eqn:E; [|done].
  apply bool_decide_eq_true in E. rewrite (bool_decide_eq_true_2 (_ ∈ dirs (hfs h')))
    by (by apply (frame_dirs _ _ _ _ Hf)). cbn [negb].
  unfold Fs.fopen_existing, Fs.fread, Fs.content.
  rewrite (frame_deny _ _ _ _ Hf). destruct (deny _ _); [done|].
  rewrite (frame_files _ _ _ _ Hf _ config_foreign). destruct (_ !! _); [|done].
  by rewrite (frame_files _ _ _ _ Hf _ config_foreign).
Qed.

(** the partition's path of an action *)
Definition calls (r : request) (action : string) : Prop :=
  path r = PATH +:+ String "/" (name +:+ String "/" action).

Lemma http_write r s d i off data :
  serves s d -> calls r "WriteBlock" ->
  strtoull (parameter r "block") = i -> u32 (strtoull (parameter r "offset")) = off ->
  body r = Some data -> 0 < zlen data -> 0 <= i < count -> off + zlen data <= bsize ->
  exists s', process r s = Ok (ok_text (pretty (Z.to_N (zlen data))), s') /\
    serves s' (disk_write d i off data).
Proof.
  intros (Hne & Hns & Hfind & Hst) Hp Hi Hoff Hb Hd Hir Hob.
  assert (Ho : 0 <= off) by (rewrite <- Hoff; apply u32_range).
  destruct (partition_refines_disk workDir name count bsize junk (shost s) d i off 0 data
    Hcount Hbsize Hshort Hst Hir Ho ltac:(lia) ltac:(lia) Hob) as (_ & h2 & E2 & S2 & F2).
  exists (with_host h2 s). split.
  2:{ unfold serves. split_and_all; try done. by eapply find_partition_frame. }
  rewrite (route_partition _ _ _ _ _ _ _ r name "WriteBlock" s Hp Hne Hns).
  unfold OnPartitionRequest, bind at 1, gets, obind. rewrite Hfind.
  cbn [String.eqb Ascii.eqb Bool.eqb]. unfold OnWriteBlock. rewrite Hb, Hi, Hoff.
  change (default [] (Some data)) with data.
  destruct (Z.leb_spec count i); [lia|]. destruct (Z.leb_spec bsize off); [lia|].
  destruct (Z.eqb_spec (zlen data) 0); [lia|]. cbn [orb].
  unfold write_request in E2. apply bind_inv in E2 as (p1 & h1 & E1 & E2).
  apply bind_inv in E2 as ([ok p2] & h3 & E2 & E3). unfold ret in E3. injection E3 as -> ->.
  erewrite bind_ok; [|apply on_host_ok; rewrite (bind_ok _ _ _ _ _ E1); exact E2].
  reflexivity.
Qed.

Lemma http_read r s d i off size :
  serves s d -> calls r "ReadBlock" ->
  strtoull (parameter r "block") = i -> u32 (strtoull (parameter r "offset")) = off ->
  u32 (strtoull (parameter r "size")) = size ->
  0 <= i < count -> off < bsize -> off + size <= bsize ->
  exists s', process r s
      = Ok (mkresponse 200 (Octets (read_at (d i) (Z.to_nat off) (Z.to_nat size))), s') /\
    serves s' d.
Proof.
  intros (Hne & Hns & Hfind & Hst) Hp Hi Hoff Hsize Hir Hob Hos.
  assert (Ho : 0 <= off) by (rewrite <- Hoff; apply u32_range).
  assert (Hs : 0 <= size) by (rewrite <- Hsize; apply u32_range).
  destruct (partition_refines_disk workDir name count bsize junk (shost s) d i off size []
    Hcount Hbsize Hshort Hst Hir Ho Hs Hos ltac:(unfold zlen; cbn; lia))
    as ((h1 & E1 & S1 & _ & F1) & _).
  exists (with_host h1 s). split.
  2:{ unfold serves. split_and_all; try done. by eapply find_partition_frame. }
  rewrite (route_partition _ _ _ _ _ _ _ r name "ReadBlock" s Hp Hne Hns).
  unfold OnPartitionRequest, bind at 1, gets, obind. rewrite Hfind.
  cbn [String.eqb Ascii.eqb Bool.eqb]. unfold OnReadBlock. rewrite Hi, Hoff, Hsize.
  destruct (Z.leb_spec count i); [lia|]. destruct (Z.leb_spec bsize off); [lia|].
  rewrite u64_small by (unfold in_u64; lia).
  destruct (Z.ltb_spec (bsize - off) size); [lia|]. cbn [orb].
  erewrite bind_ok; [|apply on_host_ok; exact E1].
  unfold ret. do 4 f_equal. apply take_ge. rewrite length_read_at. lia.
Qed.
End Blocks.

(** ** Properties *)

(** [C4] The host over HTTP: on a partition that exists, [WriteBlock] and
    [ReadBlock] requests inside a block succeed, the write answering with the
    number of bytes, and whatever is read after a write, in any block at any
    offset, is what the disk with that write holds. *)
Theorem host_serves_disk (workDir : string) (hostSize : Z) (kademlia : list bool) (junk : Z)
  (json_text : Z -> list Z) (json_size : list Z -> option Z)
  (shell : string -> filesystem -> filesystem) (name : string) (count bsize : Z)
  (w r : request) (s : server) (d : Z -> list Z) (i off j o size : Z) (data : list Z) :
  0 < count < 2 ^ 63 -> 0 < bsize < 2 ^ 63 ->
  (String.length (workDir +:+ name) <= 1000)%nat ->
  serves workDir name count bsize s d ->
  calls name w "WriteBlock" -> strtoull (parameter w "block") = i ->
  u32 (strtoull (parameter w "offset")) = off -> body w = Some data ->
  0 < zlen data -> 0 <= i < count -> off + zlen data <= bsize ->
  calls name r "ReadBlock" -> strtoull (parameter r "block") = j ->
  u32 (strtoull (parameter r "offset")) = o -> u32 (strtoull (parameter r "size")) = size ->
  0 <= j < count -> o < bsize -> o + size <= bsize ->
  exists s1 s2,
    ProcessRequest workDir hostSize kademlia junk json_text json_size shell w s
      = Ok (ok_text (pretty (Z.to_N (zlen data))), s1) /\
    ProcessRequest workDir hostSize kademlia junk json_text json_size shell r s1
      = Ok (mkresponse 200 (Octets (read_at (disk_write d i off data j) (Z.to_nat o) (Z.to_nat size))), s2) /\
    serves workDir name count bsize s2 (disk_write d i off data).
Proof.
  intros Hc Hb Hsh Hs Hw Hi Hoff Hbody Hd Hir Hod Hr Hj Ho Hsz Hjr Hob Hos.
  destruct (http_write workDir hostSize kademlia junk json_text json_size shell name count bsize
    Hc Hb Hsh w s d i off data Hs Hw Hi Hoff Hbody Hd Hir Hod) as (s1 & E1 & S1).
  destruct (http_read workDir hostSize kademlia junk json_text json_size shell name count bsize
    Hc Hb Hsh r s1 _ j o size S1 Hr Hj Ho Hsz Hjr Hob Hos) as (s2 & E2 & S2).
  by exists s1, s2.
Qed.

(** ** A host with one partition of three blocks of five bytes *)
Definition no_json (n : Z) : list Z := le_split 8 n.
Definition no_json_size (l : list Z) : option Z :=
  if zlen l =? 8 then Some (le_combine l) else None.
Definition params (l : list (string * string)) : string -> string := fun k =>
  match find (fun p => String.eqb p.1 k) l with Some p => p.2 | None => EmptyString end.
Definition sample_server : server :=
  mkserver (mkhost (mkfs {["/w/p/.config" := le_split 8 3 ++ le_split 8 5]} {["/w/p"]}
                      (fun _ => false) (2 ^ 40)) 0)
    (fun n => hex (Z.of_nat n)) 0 [].

Lemma sample_serves : serves "/w/" "p" 3 5 sample_server (fun _ => zeros 5).
Proof.
  unfold serves. split_and_all; [done|done|vm_compute; reflexivity|].
  apply stores_new; [closed_range|done| | |done|done|vm_compute; congruence|vm_compute; congruence].
  - vm_compute. reflexivity.
  - intros i Hi. cbn [sample_server shost hfs files].
    rewrite lookup_singleton_ne; [done|]. intros E.
    change (String "/" (String "w" (String "/" (String "p" "/.config"))) =
            String "/" (String "w" (String "/" (String "p" (String "/" (String "b" ("lock-" +:+ hex i))))))) in E.
    discriminate E.
Qed.

Lemma host_serves_disk_witness :
  let put := mkrequest "/api/host/Partitions/p/WriteBlock"
               (params [("block", "1"); ("offset", "2")]) (Some [8; 9]) in
  let fetch := mkrequest "/api/host/Partitions/p/ReadBlock"
               (params [("block", "1"); ("offset", "1"); ("size", "4")]) None in
  exists s1 s2,
    ProcessRequest "/w/" 100 [] 7 no_json no_json_size (fun _ s => s) put sample_server
      = Ok (ok_text "2", s1) /\
    ProcessRequest "/w/" 100 [] 7 no_json no_json_size (fun _ s => s) fetch s1
      = Ok (mkresponse 200 (Octets [0; 8; 9; 0]), s2).
Proof.
  cbv zeta.
  destruct (host_serves_disk "/w/" 100 [] 7 no_json no_json_size (fun _ s => s) "p" 3 5
    (mkrequest "/api/host/Partitions/p/WriteBlock"
               (params [("block", "1"); ("offset", "2")]) (Some [8; 9]))
    (mkrequest "/api/host/Partitions/p/ReadBlock"
               (params [("block", "1"); ("offset", "1"); ("size", "4")]) None)
    sample_server (fun _ => zeros 5) 1 2 1 1 4 [8; 9]) as (s1 & s2 & E1 & E2 & _);
    [closed_range|closed_range|vm_compute; lia|apply sample_serves|reflexivity|reflexivity|
     reflexivity|reflexivity|closed_range|closed_range|closed_range|reflexivity|reflexivity|
     reflexivity|reflexivity|closed_range|closed_range|closed_range|].
  exists s1, s2. split; [exact E1|exact E2].
Defined.
