(* ===== verification/HttpModule.v ===== *)
(** * The HTTP server's table of handlers (src/src/httpserver: HttpModule.cpp,
      HttpServer.cpp, HttpHandlerRegister.h)

    A request goes to the handler of the longest prefix of its path that is
    registered.  mongoose, which reads requests from the network, is not part of the
    model: a request is a verb with what a handler sees of it. *)

From Stdlib Require Import ZArith Lia Bool Ascii String.
From stdpp Require Import base list gmap strings.
From S2P Require Import Prelude StdMap Stdio HostPartition HostHandler.
Set Default Goal Selector "!".
Local Open Scope Z_scope.
Local Open Scope drive_scope.

Section Module.
Context {H : Type}.
(** HandlerEntry *)
Record entry := mkentry { verb : string; handler : H }.
(** the static map; null until a handler is registered *)
Abbreviation table := (option (list (string * entry))).

(** [insert] keeps an entry that is there *)
Definition RegisterHandler (path v : string) (h : H) (handlers : table) : table :=
  Some (SMap.emplace path (mkentry v h) (default [] handlers)).

(** the iterator [find] gives, as what is left to iterate *)
Fixpoint from (key : string) (m : list (string * entry)) : list (string * entry) :=
  match m with
  | [] => []
  | (k, e) :: m' => if String.eqb key k then m else from key m'
  end.
Definition accepts (v : string) (e : entry) : bool := String.eqb (verb e) "*" || String.eqb v (verb e).
Fixpoint select (v : string) (m : list (string * entry)) : option H :=
  match m with
  | [] => None
  | (_, e) :: m => if accepts v e then Some (handler e) else select v m
  end.
(** [find_last_of('/')] *)
Fixpoint last_slash (s : string) : option nat :=
  match s with
  | EmptyString => None
  | String c s => match last_slash s with Some n => Some (S n) | None => if Ascii.eqb c "/" then Some O else None end
  end.
(** the do-while loop; [prefix] is [path.substr(0, pos)] *)
Fixpoint dispatch_loop (fuel : nat) (v prefix : string) (m : list (string * entry)) : outcome (option H) :=
  match fuel with
  | O => OutOfFuel
  | S fuel =>
      match select v (from prefix m) with
      | Some h => Ok (Some h)
      | None =>
          match last_slash prefix with
          | None | Some O => Ok None
          | Some pos => dispatch_loop fuel v (substring 0 pos prefix) m
          end
      end
  end.
Definition Dispatch (v path : string) (handlers : table) : outcome (option H) :=
  match handlers with
  | None => Fault NullDeref
  | Some m => dispatch_loop (S (String.length path)) v path m
  end.

(** Initialize and Stop call every handler, in the order of the paths *)
Definition Initialize (handlers : table) : outcome (list H) :=
  match handlers with None => Fault NullDeref | Some m => Ok (map (fun p => handler (snd p)) m) end.
Definition Stop (handlers : table) : outcome (list H) := Initialize handlers.

(** HttpServer::OnRequest *)
Definition OnRequest {W} (run : H -> request -> M W response) (handlers : table) (v : string) (context : request) : M W response :=
  h <- lift (Dispatch v (path context) handlers) ;;
  match h with
  | Some h => run h context
  | None => ret (mkresponse 404 (Text EmptyString))
  end.
End Module.
Arguments entry : clear implicits.

(** ** The longest prefix *)
(** [k] is the path, or what is before one of its slashes *)
Definition covers (k path : string) : Prop := k = path \/ (k <> EmptyString /\ exists rest, path = k +:+ "/" +:+ rest).
(** what a table without verbs sends a path to *)
Definition longest_prefix {H} (m : list (string * entry H)) (path : string) (r : option H) : Prop :=
  match r with
  | Some h => exists k e, SMap.find k m = Some e /\ handler e = h /\ covers k path /\
      forall k', covers k' path -> SMap.find k' m <> None -> (String.length k' <= String.length k)%nat
  | None => forall k, covers k path -> SMap.find k m = None
  end.

Lemma covers_refl path : covers path path.
Proof. by left. Qed.
Lemma string_app_nil_l (s : string) : EmptyString +:+ s = s.
Proof. done. Qed.
(** two texts that begin alike: one goes on after the other *)
Lemma app_split (a b c d : string) : a +:+ b = c +:+ d -> (String.length a <= String.length c)%nat ->
  exists x, c = a +:+ x /\ b = x +:+ d.
Proof.
  revert c. induction a as [|ch a IH]; intros c E Hl; [by exists c|].
  destruct c as [|ch' c]; [cbn in Hl; lia|]. change (String ch (a +:+ b) = String ch' (c +:+ d)) in E. injection E as -> E.
  destruct (IH c E) as (x & -> & ->); [cbn in Hl; lia|]. by exists x.
Qed.
Lemma last_slash_some s n : last_slash s = Some n -> exists b, s = substring 0 n s +:+ "/" +:+ b /\
  String.length (substring 0 n s) = n /\ last_slash b = None.
Proof.
  revert n. induction s as [|c s IH]; intros n; [done|]. cbn [last_slash]. destruct (last_slash s) as [m|] eqn:E.
  - intros [= <-]. destruct (IH m eq_refl) as (b & Es & Hl & Hb). exists b. cbn [substring String.length].
    split; [|split; [by rewrite Hl|done]].
    change (String c s = String c (substring 0 m s +:+ "/" +:+ b)). by rewrite <- Es.
  - destruct (Ascii.eqb_spec c "/") as [->|]; [|done]. intros [= <-]. exists s. by split; [|split].
Qed.
Lemma last_slash_none s a b : last_slash s = None -> s <> a +:+ "/" +:+ b.
Proof.
  revert a. induction s as [|c s IH]; intros a; cbn [last_slash]; [by destruct a|].
  destruct (last_slash s) eqn:E; [done|]. destruct (Ascii.eqb_spec c "/") as [->|Hc]; [done|].
  intros _. destruct a as [|c' a]; [intros C; change (String c s = String "/" b) in C; congruence|].
  intros C. change (String c s = String c' (a +:+ "/" +:+ b)) in C. injection C as -> C. by apply (IH a eq_refl).
Qed.

(** what covers the path covers the prefix that has not been tried yet *)
Lemma covers_prefix k p path : covers k path -> covers p path -> (String.length k <= String.length p)%nat -> covers k p.
Proof.
  intros [->|[Hk [r ->]]] Hp Hl.
  - destruct Hp as [->|[_ [r E]]]; [by left|]. exfalso. rewrite E, !length_append in Hl. cbn in Hl. lia.
  - destruct Hp as [->|[_ [r' E]]]; [right; split; [done|by exists r]|].
    destruct (app_split _ _ _ _ E Hl) as (x & -> & Ex). destruct x as [|c x]; [left; by rewrite append_nil_r|].
    right. split; [done|]. change (String "/" r = String c (x +:+ "/" +:+ r')) in Ex. injection Ex as <- _. by exists x.
Qed.
(** the next prefix to try, and what is no longer covered *)
Lemma covers_next k p n : covers k p -> k <> p -> last_slash p = Some n -> (String.length k <= n)%nat.
Proof.
  intros [->|[_ [r ->]]] Hne; [done|]. intros E. destruct (last_slash_some _ _ E) as (b & Ep & Hl & Hb).
  destruct (Nat.le_gt_cases (String.length k) n) as [|Hgt]; [done|]. exfalso.
  remember (substring 0 n (k +:+ "/" +:+ r)) as q eqn:Eq. clear Eq. symmetry in Ep.
  destruct (app_split q ("/" +:+ b) k ("/" +:+ r) Ep ltac:(lia)) as (x & -> & Ex).
  destruct x as [|c x]; [rewrite append_nil_r in Hgt; lia|].
  change (String "/" b = String c (x +:+ "/" +:+ r)) in Ex. injection Ex as <- ->. by apply (last_slash_none _ x r Hb).
Qed.
Lemma covers_last p n : last_slash p = Some (S n) -> covers (substring 0 (S n) p) p.
Proof.
  intros E. destruct (last_slash_some _ _ E) as (b & Ep & Hl & _). right. split; [by intros C; rewrite C in Hl|]. by exists b.
Qed.
Lemma covers_trans a b c : covers a b -> covers b c -> covers a c.
Proof.
  intros Ha [->|[Hb [r ->]]]; [done|]. right. destruct Ha as [->|[Hne [r' ->]]]; [split; [done|by exists r]|].
  split; [done|]. exists (r' +:+ "/" +:+ r). by rewrite !append_assoc.
Qed.

Section Facts.
Context {H : Type}.
Implicit Types (m : list (string * entry H)).
(** as all handlers are registered *)
Definition any_verb m : Prop := Forall (fun q => verb (snd q) = "*"%string) m.

Lemma select_from v key m : any_verb m -> select v (from key m) = option_map handler (SMap.find key m).
Proof.
  induction 1 as [|[k e] m Hv _ IH]; [done|]. cbn [from SMap.find]. destruct (String.eqb key k); [|done].
  cbn [select]. unfold accepts. cbn in Hv. by rewrite Hv.
Qed.
Lemma dispatch_loop_ok v path m : any_verb m -> forall fuel prefix, (String.length prefix < fuel)%nat -> covers prefix path ->
  (forall k, covers k path -> SMap.find k m <> None -> (String.length k <= String.length prefix)%nat) ->
  exists r, dispatch_loop fuel v prefix m = Ok r /\ longest_prefix m path r.
Proof.
  intros Hv. induction fuel as [|fuel IH]; intros prefix Hf Hc Hmax; [lia|]. cbn [dispatch_loop].
  rewrite (select_from v prefix m Hv). destruct (SMap.find prefix m) as [e|] eqn:E; cbn [option_map].
  - exists (Some (handler e)). split; [done|]. by exists prefix, e.
  - assert (forall k, covers k path -> SMap.find k m <> None -> covers k prefix /\ k <> prefix) as Hk.
    { intros k Hk Hn. split; [apply (covers_prefix _ _ path); auto|]. by intros ->. }
    destruct (last_slash prefix) as [[|n]|] eqn:Es.
    + exists None. split; [done|]. intros k Hck. destruct (SMap.find k m) eqn:Ek; [exfalso|done].
      destruct (Hk k Hck ltac:(congruence)) as [Hc1 Hne]. pose proof (covers_next _ _ _ Hc1 Hne Es) as Hl.
      destruct Hc1 as [|[Hk0 _]]; [done|]. destruct k; [done|cbn in Hl; lia].
    + destruct (last_slash_some _ _ Es) as (b & Ep & Hl & _). apply IH.
      * rewrite Hl. rewrite Ep, !length_append, Hl in Hf. cbn in Hf. lia.
      * by apply (covers_trans _ prefix); [apply covers_last|].
      * intros k Hck Hn. destruct (Hk k Hck Hn) as [Hc1 Hne]. rewrite Hl. by apply (covers_next _ prefix).
    + exists None. split; [done|]. intros k Hck. destruct (SMap.find k m) eqn:Ek; [exfalso|done].
      destruct (Hk k Hck ltac:(congruence)) as [[->|[_ [r Er]]] Hne]; [done|]. by apply (last_slash_none _ _ _ Es Er).
Qed.
Lemma Dispatch_ok v path m : any_verb m -> exists r, Dispatch v path (Some m) = Ok r /\ longest_prefix m path r.
Proof. intros Hv. apply dispatch_loop_ok; [done|lia|apply covers_refl|]. intros k [->|[_ [r ->]]] _; rewrite ?length_append; lia. Qed.

(** [C5] A request is dispatched, in at most as many rounds as its path has
    characters, to the handler of the longest prefix of its path, up to a slash, that
    is registered; it is not handled only when no prefix is.  This is so as long as
    every handler takes all verbs, as they do here. *)
Theorem dispatch_longest_prefix (v path : string) (m : list (string * entry H)) :
  any_verb m -> exists r, Dispatch v path (Some m) = Ok r /\ longest_prefix m path r.
Proof. apply Dispatch_ok. Qed.
End Facts.

(** a handler that is registered for another verb lets a request fall through to
    whatever comes next in the alphabet, although its path has nothing to do with it *)
Definition other_verb : option (list (string * entry nat)) :=
  RegisterHandler "/b" "*" 2%nat (RegisterHandler "/a" "POST" 1%nat None).
Lemma dispatch_falls_through : Dispatch "GET" "/a/x" other_verb = Ok (Some 2%nat) /\ Dispatch "GET" "/x" other_verb = Ok None.
Proof. by split. Qed.

(** ** The host's server *)
Inductive host_handler := PartitionHandler | ConfigHandler.
Definition host_table : option (list (string * entry host_handler)) :=
  RegisterHandler CONFIG_PATH "*" ConfigHandler (RegisterHandler PATH "*" PartitionHandler None).
Lemma dispatch_longest_prefix_witness : exists r, Dispatch "GET" "/api/host/Partitions/p/ReadBlock" host_table = Ok r /\
  longest_prefix [(CONFIG_PATH, mkentry "*" ConfigHandler); (PATH, mkentry "*" PartitionHandler)] "/api/host/Partitions/p/ReadBlock" r.
Proof.
  exact (dispatch_longest_prefix "GET" "/api/host/Partitions/p/ReadBlock"
    [(CONFIG_PATH, mkentry "*" ConfigHandler); (PATH, mkentry "*" PartitionHandler)]
    (@List.Forall_cons _ _ (CONFIG_PATH, mkentry "*" ConfigHandler) _ eq_refl (@List.Forall_cons _ _ (PATH, mkentry "*" PartitionHandler) _ eq_refl (@List.Forall_nil _ _)))).
Defined.
Section Host.
Context (workDir : string) (hostSize : Z) (kademlia : list bool) (junk : Z)
  (json_text : Z -> list Z) (json_size : list Z -> option Z) (shell : string -> filesystem -> filesystem).
Definition run_handler (h : host_handler) (context : request) : M server response :=
  match h with
  | PartitionHandler => ProcessRequest workDir hostSize kademlia junk json_text json_size shell context
  | ConfigHandler => ConfigRequest workDir hostSize json_size context
  end.
Definition HostRequest (v : string) (context : request) : M server response := OnRequest run_handler host_table v context.

(** a request below the partitions' path reaches their handler *)
Lemma host_partition_request v context rest s : path context = PATH +:+ "/" +:+ rest ->
  HostRequest v context s = ProcessRequest workDir hostSize kademlia junk json_text json_size shell context s.
Proof.
  intros E. unfold HostRequest, OnRequest.
  destruct (Dispatch_ok v (path context) [(CONFIG_PATH, mkentry "*" ConfigHandler); (PATH, mkentry "*" PartitionHandler)])
    as (r & Ed & Hr); [by repeat constructor|].
  change host_table with (Some [(CONFIG_PATH, mkentry "*" ConfigHandler); (PATH, mkentry "*" PartitionHandler)]).
  unfold bind, lift. rewrite Ed. cbn [obind].
  assert (covers PATH (path context)) as Hc by (right; split; [done|by exists rest]).
  destruct r as [h|]; [|by specialize (Hr _ Hc)]. destruct Hr as (k & e & Ek & <- & Hk & Hmax).
  specialize (Hmax _ Hc ltac:(done)). cbn [SMap.find] in Ek.
  destruct (String.eqb_spec k CONFIG_PATH) as [Ec|_]; [exfalso; rewrite Ec in Hmax; vm_compute in Hmax; lia|].
  destruct (String.eqb k PATH); [|done]. by injection Ek as <-.
Qed.
End Host.
