(* ===== verification/HostReserve.v ===== *)
(** * Theorems about the host's space accounting and its rejected requests *)

From Stdlib Require Import ZArith Lia Bool Ascii String.
From stdpp Require Import base list gmap strings pretty.
From S2P Require Import Prelude Json JsonText JsonCodec HostJson Streams Stdio BitSet HostPartition HostHandler.
Set Default Goal Selector "!".
Local Open Scope Z_scope.
Local Open Scope drive_scope.

Section Reserve.
Context (workDir : string) (hostSize : Z) (kademlia : list bool) (junk : Z)
  (json_text : Z -> list Z) (json_size : list Z -> option Z)
  (shell : string -> filesystem -> filesystem).
(** the sizes that are kept are read back *)
Definition json_roundtrip : Prop := forall n, kept_size n -> json_size (json_text n) = Some n.
Hypothesis Hjson : json_roundtrip.

(** every file can be written and the disk is not full *)
Definition writable_fs (s : filesystem) : Prop :=
  (forall q, deny s q = false) /\ forall n, in_u32 n -> zlen (json_text n) <= limit s.

Definition reserved_path (id : string) : string :=
  workDir +:+ (if String.eqb id EmptyString then RESERVED_FILE else id +:+ "/" +:+ RESERVED_FILE).
(** the size on record for a reservation, or, for the empty id, for the host *)
Definition recorded (id : string) (s : server) : Z :=
  let str := match Fs.fopen_existing (reserved_path id) (sfs s) with
             | Some f => Fs.content f (sfs s)
             | None => []
             end in
  match json_size str with Some n => n | None => 0 end.

Lemma GetReservedSpace_recorded id s :
  GetReservedSpace workDir json_size id s = Ok (recorded id s, s).
Proof. done. Qed.

Definition put_text (q : string) (d : list Z) (s : server) : server :=
  with_host (set_hfs (Fs.store q d (sfs s)) (shost s)) s.

Lemma write_file_ok q n s :
  writable_fs (sfs s) -> in_u32 n ->
  write_file q (json_text n) s = Ok (tt, put_text q (json_text n) s) /\
  writable_fs (sfs (put_text q (json_text n) s)).
Proof.
  intros [Hd Hl] Hn. split; [|done]. unfold write_file.
  rewrite (bind_ok _ _ s (Some q) (put_text q [] s)).
  2:{ apply on_host_ok, hfs_do_ok. by rewrite FsFacts.fopen_trunc_ok. }
  rewrite (bind_ok _ _ _ (zlen (json_text n)) (put_text q (json_text n) s)); [done|].
  unfold sfs_do. erewrite on_host_ok.
  2:{ apply hfs_do_ok, (FsFacts.fwrite_ok _ _ _ _ []); [|done|by rewrite Z.add_0_l; apply Hl].
      cbn. by rewrite lookup_insert_eq. }
  do 2 f_equal. unfold put_text, with_host, set_hfs; cbn. do 2 f_equal.
  unfold Fs.store, Fs.set_files; cbn. rewrite insert_insert_eq.
  change (Z.to_nat 0) with (@length Z []). by rewrite write_at_end.
Qed.

Lemma recorded_text id q n s :
  writable_fs (sfs s) ->
  recorded id (put_text q (json_text n) s) = if decide (q = reserved_path id) then default 0 (json_size (json_text n)) else recorded id s.
Proof using.
  clear Hjson. intros [Hd _]. unfold recorded, Fs.fopen_existing.
  change (deny (sfs (put_text q (json_text n) s))) with (deny (sfs s)). rewrite !Hd.
  change (files (sfs (put_text q (json_text n) s))) with (<[q := json_text n]> (files (sfs s))).
  destruct (decide (q = reserved_path id)) as [->|Hne].
  - rewrite lookup_insert_eq. unfold Fs.content.
    change (files (sfs (put_text (reserved_path id) (json_text n) s)))
      with (<[reserved_path id := json_text n]> (files (sfs s))).
    rewrite lookup_insert_eq. change (default [] (Some ?x)) with x. by destruct (json_size _).
  - rewrite lookup_insert_ne by done. destruct (files (sfs s) !! reserved_path id) eqn:E; [|done].
    unfold Fs.content.
    change (files (sfs (put_text q (json_text n) s))) with (<[q := json_text n]> (files (sfs s))).
    by rewrite lookup_insert_ne.
Qed.

Lemma recorded_put id q n s :
  writable_fs (sfs s) -> kept_size n ->
  recorded id (put_text q (json_text n) s) = if decide (q = reserved_path id) then n else recorded id s.
Proof using Hjson. intros Hw Hn. rewrite recorded_text by done. by rewrite Hjson. Qed.

(** ids are file names *)
Definition id_ok (id : string) : Prop := id <> EmptyString /\ find_char "/" id = None.

Lemma reserved_path_inj id id' :
  (id = EmptyString \/ id_ok id) -> (id' = EmptyString \/ id_ok id') ->
  reserved_path id = reserved_path id' -> id = id'.
Proof.
  intros H H' E. unfold reserved_path in E. apply string_app_inj in E.
  assert (X : forall i, id_ok i -> RESERVED_FILE <> i +:+ String "/" RESERVED_FILE).
  { intros i [_ Hi] C. apply (f_equal (find_char "/")) in C. rewrite find_char_app in C by done.
    discriminate C. }
  destruct H as [->|[Hn Hs]], H' as [->|[Hn' Hs']]; [done| | |].
  - exfalso. destruct (String.eqb_spec id' EmptyString); [done|].
    change (RESERVED_FILE = id' +:+ String "/" RESERVED_FILE) in E. by apply (X id').
  - exfalso. destruct (String.eqb_spec id EmptyString); [done|].
    change (id +:+ String "/" RESERVED_FILE = RESERVED_FILE) in E. by apply (X id).
  - destruct (String.eqb_spec id EmptyString), (String.eqb_spec id' EmptyString); try done.
    change (id +:+ "/" +:+ RESERVED_FILE = id' +:+ "/" +:+ RESERVED_FILE) in E.
    by apply string_app_cancel_r in E.
Qed.

Definition mkdir_server (q : string) (s : server) : server :=
  with_host (set_hfs (Fs.mkdir q (sfs s)) (shost s)) s.
Definition next_uuid (s : server) : server :=
  mkserver (shost s) (uuids s) (Datatypes.S (fresh s)) (published s).

(** the state after a successful reservation *)
Definition reserve_state (n : Z) (s : server) : server :=
  let total := u32 (u64 (n + recorded EmptyString s)) in
  let id := uuids s (fresh s) in
  put_text (reserved_path id) (json_text total)
    (mkdir_server (workDir +:+ id)
      (next_uuid (put_text (reserved_path EmptyString) (json_text total) s))).

Lemma ReserveSpace_ok n s :
  writable_fs (sfs s) -> id_ok (uuids s (fresh s)) ->
  u64 (n + recorded EmptyString s) <= hostSize ->
  ReserveSpace workDir hostSize json_text json_size n s
    = Ok (uuids s (fresh s), reserve_state n s) /\ writable_fs (sfs (reserve_state n s)).
Proof.
  intros Hw [Hid _] Hle. split; [|done]. unfold ReserveSpace.
  rewrite (bind_ok _ _ _ _ _ (GetReservedSpace_recorded EmptyString s)).
  destruct (Z.ltb_spec hostSize (u64 (n + recorded EmptyString s))); [lia|]. cbv zeta.
  set (total := u32 (u64 (n + recorded EmptyString s))).
  change (workDir +:+ RESERVED_FILE) with (reserved_path EmptyString).
  rewrite (bind_ok _ _ _ _ _ (proj1 (write_file_ok (reserved_path EmptyString) total s Hw (u32_range _)))).
  set (s1 := put_text _ _ s).
  rewrite (bind_ok _ _ s1 (uuids s (fresh s)) (next_uuid s1) eq_refl).
  set (id := uuids s (fresh s)) in *.
  rewrite (bind_ok _ _ (next_uuid s1) tt (mkdir_server (workDir +:+ id) (next_uuid s1))).
  2:{ by apply on_host_ok, hfs_do_ok. }
  assert (Ep : (workDir +:+ id) +:+ "/" +:+ RESERVED_FILE = reserved_path id).
  { unfold reserved_path. apply String.eqb_neq in Hid. rewrite Hid.
    clear. induction workDir as [|c d IH]; [done|].
    change (String c ((d +:+ id) +:+ "/" +:+ RESERVED_FILE) = String c (d +:+ (id +:+ "/" +:+ RESERVED_FILE))).
    by rewrite IH. }
  rewrite Ep. set (s2 := mkdir_server _ _).
  assert (Hw2 : writable_fs (sfs s2)) by done.
  rewrite (bind_ok _ _ _ _ _ (proj1 (write_file_ok (reserved_path id) total s2 Hw2 (u32_range _)))). done.
Qed.

Lemma recorded_reserve_text n s id :
  writable_fs (sfs s) -> id_ok (uuids s (fresh s)) -> (id = EmptyString \/ id_ok id) ->
  recorded id (reserve_state n s)
    = if decide (id = EmptyString \/ id = uuids s (fresh s))
      then default 0 (json_size (json_text (u32 (u64 (n + recorded EmptyString s))))) else recorded id s.
Proof using.
  clear Hjson. intros Hw Hu Hid. unfold reserve_state. cbv zeta.
  set (total := u32 _).
  rewrite recorded_text by done.
  change (recorded id (mkdir_server _ (next_uuid ?x))) with (recorded id x).
  rewrite recorded_text by done.
  destruct (decide (reserved_path (uuids s (fresh s)) = reserved_path id)) as [E|E].
  - apply reserved_path_inj in E; [|by right|done]. rewrite decide_True; [done|by right].
  - destruct (decide (reserved_path EmptyString = reserved_path id)) as [E2|E2].
    + apply reserved_path_inj in E2; [|by left|done]. rewrite decide_True; [done|by left].
    + rewrite decide_False; [done|]. intros [->| ->]; done.
Qed.

Lemma recorded_reserve n s id :
  writable_fs (sfs s) -> id_ok (uuids s (fresh s)) -> (id = EmptyString \/ id_ok id) ->
  kept_size (u32 (u64 (n + recorded EmptyString s))) ->
  recorded id (reserve_state n s)
    = if decide (id = EmptyString \/ id = uuids s (fresh s))
      then u32 (u64 (n + recorded EmptyString s)) else recorded id s.
Proof using Hjson. intros Hw Hu Hid Hk. rewrite recorded_reserve_text by done. by rewrite Hjson. Qed.

Lemma UnreserveSpace_ok id s :
  writable_fs (sfs s) ->
  UnreserveSpace workDir json_text json_size id s
    = Ok (tt, put_text (workDir +:+ id +:+ "/" +:+ RESERVED_FILE) (json_text 0)
           (put_text (reserved_path EmptyString)
             (json_text (u32 (u64 (recorded EmptyString s - recorded id s)))) s)).
Proof.
  intros Hw. unfold UnreserveSpace.
  rewrite (bind_ok _ _ _ _ _ (GetReservedSpace_recorded EmptyString s)).
  rewrite (bind_ok _ _ _ _ _ (GetReservedSpace_recorded id s)).
  change (workDir +:+ RESERVED_FILE) with (reserved_path EmptyString).
  destruct (write_file_ok (reserved_path EmptyString)
    (u32 (u64 (recorded EmptyString s - recorded id s))) s Hw (u32_range _)) as [E1 Hw1].
  rewrite (bind_ok _ _ _ _ _ E1). by rewrite (proj1 (write_file_ok _ 0 _ Hw1 ltac:(closed_range))).
Qed.
End Reserve.

(** two reservations on an empty host *)
Lemma two_reservations (workDir : string) (hostSize : Z) (json_text : Z -> list Z)
  (json_size : list Z -> option Z) (a b : Z) (s : server) :
  json_roundtrip json_text json_size -> writable_fs json_text (sfs s) ->
  id_ok (uuids s (fresh s)) -> id_ok (uuids s (Datatypes.S (fresh s))) ->
  uuids s (fresh s) <> uuids s (Datatypes.S (fresh s)) ->
  recorded workDir json_size EmptyString s = 0 ->
  0 < a -> 0 < b -> a + b <= hostSize < 4294967290 ->
  let s1 := reserve_state workDir json_text json_size a s in
  let s2 := reserve_state workDir json_text json_size b s1 in
  ReserveSpace workDir hostSize json_text json_size a s = Ok (uuids s (fresh s), s1) /\
  ReserveSpace workDir hostSize json_text json_size b s1 = Ok (uuids s (Datatypes.S (fresh s)), s2) /\
  writable_fs json_text (sfs s2) /\
  recorded workDir json_size EmptyString s2 = a + b /\
  recorded workDir json_size (uuids s (Datatypes.S (fresh s))) s2 = a + b /\
  recorded workDir json_size (uuids s (fresh s)) s2 = a.
Proof.
  intros Hj Hw Hu1 Hu2 Hne H0 Ha Hb Hle s1 s2.
  assert (X : forall z, 0 <= z < 4294967290 -> u32 (u64 z) = z /\ u64 z = z).
  { intros z Hz. rewrite u64_small by (unfold in_u64; lia). split; [|done].
    apply u32_small. unfold in_u32. lia. }
  destruct (X a ltac:(lia)) as [Xa Ya]. destruct (X (b + a) ltac:(lia)) as [Xb Yb].
  destruct (ReserveSpace_ok workDir hostSize json_text json_size a s Hw Hu1) as [E1 Hw1].
  { rewrite H0, Z.add_0_r, Ya. lia. }
  fold s1 in E1, Hw1.
  pose proof (recorded_reserve workDir json_text json_size Hj a s) as R1.
  rewrite H0, Z.add_0_r, Xa in R1. fold s1 in R1.
  assert (R1e : recorded workDir json_size EmptyString s1 = a).
  { rewrite R1 by (first [done|by left|unfold kept_size; lia]). by rewrite decide_True by (by left). }
  destruct (ReserveSpace_ok workDir hostSize json_text json_size b s1 Hw1 Hu2) as [E2 Hw2].
  { rewrite R1e, Yb. lia. }
  fold s2 in E2, Hw2.
  pose proof (recorded_reserve workDir json_text json_size Hj b s1) as R2.
  rewrite R1e, Xb in R2. fold s2 in R2.
  change (uuids s1 (fresh s1)) with (uuids s (Datatypes.S (fresh s))) in *.
  split_and_all; [done|done|done| | |]; rewrite R2 by (first [done|by left|by right|unfold kept_size; lia]).
  - rewrite decide_True by (by left). lia.
  - rewrite decide_True by (by right). lia.
  - rewrite decide_False by (intros [E|E]; [by destruct Hu1|done]).
    rewrite R1 by (first [done|by right|unfold kept_size; lia]). by rewrite decide_True by (by right).
Qed.

Lemma recorded_unreserve (workDir : string) (json_text : Z -> list Z)
  (json_size : list Z -> option Z) id s :
  json_roundtrip json_text json_size -> writable_fs json_text (sfs s) -> id_ok id ->
  kept_size (u32 (u64 (recorded workDir json_size EmptyString s - recorded workDir json_size id s))) ->
  exists s', UnreserveSpace workDir json_text json_size id s = Ok (tt, s') /\
    recorded workDir json_size EmptyString s'
      = u32 (u64 (recorded workDir json_size EmptyString s - recorded workDir json_size id s)) /\
    recorded workDir json_size id s' = 0 /\
    forall id', id_ok id' -> id' <> id ->
      recorded workDir json_size id' s' = recorded workDir json_size id' s.
Proof.
  intros Hj Hw Hid Ht. eexists. split; [by apply UnreserveSpace_ok|].
  set (total := u32 _) in *.
  assert (Ep : workDir +:+ (id +:+ "/" +:+ RESERVED_FILE) = reserved_path workDir id).
  { unfold reserved_path. destruct Hid as [Hn _]. apply String.eqb_neq in Hn. by rewrite Hn. }
  change (workDir +:+ id +:+ "/" +:+ RESERVED_FILE) with (workDir +:+ (id +:+ "/" +:+ RESERVED_FILE)).
  rewrite Ep. assert (H0 : kept_size 0) by closed_range. split_and_all.
  - rewrite !(recorded_put _ _ _ Hj) by done. rewrite decide_False, decide_True; [done|done|].
    intros E. apply reserved_path_inj in E; [by destruct Hid|by right|by left].
  - rewrite (recorded_put _ _ _ Hj) by done. by rewrite decide_True.
  - intros id' Hid' Hne. rewrite !(recorded_put _ _ _ Hj) by done. rewrite !decide_False; [done| |].
    + intros E. apply reserved_path_inj in E; [by destruct Hid'|by left|by right].
    + intros E. apply reserved_path_inj in E; [done|by right|by right].
Qed.

(** ** Properties: with jsoncpp's writer and reader *)
Section Accounting.
Context (print_double : real -> list Z) (scan_double : list Z -> option real).
Abbreviation json_text := (reserved_text print_double).
Abbreviation json_size := (reserved_size scan_double).
Lemma sizes_roundtrip : json_roundtrip json_text json_size.
Proof using. intros n. apply reserved_roundtrip. Qed.

(** [C37] Reserving space on a host of less than 4294967290 bytes: a request that fits
    gets the next id, the recorded total grows by exactly the requested size and stays
    within the host's size, and the new id's own record is the new TOTAL; the
    records of other ids stay.  A request that does not fit gets the empty id and
    changes nothing. *)
Theorem reserve_accounting (workDir : string) (hostSize : Z) (n : Z) (s : server) :
  writable_fs json_text (sfs s) ->
  id_ok (uuids s (fresh s)) -> hostSize < 4294967290 -> 0 <= n -> 0 <= recorded workDir json_size EmptyString s ->
  n + recorded workDir json_size EmptyString s < 2 ^ 64 ->
  let total := n + recorded workDir json_size EmptyString s in
  (total <= hostSize ->
   exists s', ReserveSpace workDir hostSize json_text json_size n s = Ok (uuids s (fresh s), s') /\
     recorded workDir json_size EmptyString s' = total /\
     recorded workDir json_size (uuids s (fresh s)) s' = total /\
     forall id, id_ok id -> id <> uuids s (fresh s) ->
       recorded workDir json_size id s' = recorded workDir json_size id s) /\
  (hostSize < total ->
   ReserveSpace workDir hostSize json_text json_size n s = Ok (EmptyString, s)).
Proof using.
  intros Hw Hu Hh Hn Hr Hsum total. fold total in Hsum. pose proof (u64_small total) as E64.
  rewrite <- E64 by (unfold in_u64, total in *; lia). clear E64. split.
  - intros Hle. pose proof Hle as Hle'. rewrite u64_small in Hle' |- * by (unfold in_u64, total in *; lia).
    destruct (ReserveSpace_ok workDir hostSize json_text json_size n s Hw Hu Hle) as [E _].
    exists (reserve_state workDir json_text json_size n s).
    assert (Et : u32 (u64 (n + recorded workDir json_size EmptyString s)) = total).
    { fold total. rewrite u64_small by (unfold in_u64, total in *; lia).
      apply u32_small. unfold in_u32, total in *. lia. }
    assert (Hk : kept_size (u32 (u64 (n + recorded workDir json_size EmptyString s)))).
    { rewrite Et. unfold kept_size, total in *. lia. }
    split_and_all; [done| | |].
    + rewrite (recorded_reserve _ _ _ sizes_roundtrip) by (done || by left). by rewrite decide_True by (by left).
    + rewrite (recorded_reserve _ _ _ sizes_roundtrip) by (done || by right). by rewrite decide_True by (by right).
    + intros id Hid Hne. rewrite (recorded_reserve _ _ _ sizes_roundtrip) by (done || by right).
      rewrite decide_False; [done|]. intros [->| ->]; [by destruct Hid|done].
  - intros Hgt. unfold ReserveSpace.
    rewrite (bind_ok _ _ _ _ _ (GetReservedSpace_recorded workDir json_size EmptyString s)).
    fold total. by destruct (Z.ltb_spec hostSize (u64 total)); [|lia].
Qed.

(** Releasing the second of two reservations releases both: after reserving
    [a] and then [b] bytes on an empty host, releasing the second id leaves a
    recorded total of zero although the first reservation still stands. *)
Theorem unreserve_releases_everything (workDir : string) (hostSize : Z) (a b : Z) (s : server) :
  writable_fs json_text (sfs s) ->
  id_ok (uuids s (fresh s)) -> id_ok (uuids s (Datatypes.S (fresh s))) ->
  uuids s (fresh s) <> uuids s (Datatypes.S (fresh s)) ->
  recorded workDir json_size EmptyString s = 0 ->
  0 < a -> 0 < b -> a + b <= hostSize < 4294967290 ->
  exists id1 id2 s1 s2 s3,
    ReserveSpace workDir hostSize json_text json_size a s = Ok (id1, s1) /\
    ReserveSpace workDir hostSize json_text json_size b s1 = Ok (id2, s2) /\
    recorded workDir json_size EmptyString s2 = a + b /\
    recorded workDir json_size id2 s2 = a + b /\
    UnreserveSpace workDir json_text json_size id2 s2 = Ok (tt, s3) /\
    recorded workDir json_size EmptyString s3 = 0 /\
    recorded workDir json_size id1 s3 = a.
Proof using.
  intros Hw Hu1 Hu2 Hne H0 Ha Hb Hle.
  destruct (two_reservations workDir hostSize json_text json_size a b s sizes_roundtrip Hw Hu1 Hu2 Hne H0 Ha Hb Hle)
    as (E1 & E2 & Hw2 & Re & R2 & R1).
  destruct (recorded_unreserve workDir json_text json_size _ _ sizes_roundtrip Hw2 Hu2) as (s3 & E3 & Te & _ & To).
  { rewrite Re, R2, Z.sub_diag. closed_range. }
  eexists _, _, _, _, s3. split_and_all; [exact E1|exact E2|exact Re|exact R2|exact E3| |].
  - by rewrite Te, Re, R2, Z.sub_diag.
  - by rewrite To.
Qed.

(** What is recorded of a total that its record does not bring back is nothing. *)
Lemma reservation_lost (workDir : string) (hostSize : Z) (n : Z) (s : server) :
  writable_fs json_text (sfs s) -> id_ok (uuids s (fresh s)) -> u64 n <= hostSize ->
  recorded workDir json_size EmptyString s = 0 -> default 0 (json_size (json_text (u32 (u64 n)))) = 0 ->
  exists s', ReserveSpace workDir hostSize json_text json_size n s = Ok (uuids s (fresh s), s') /\
    recorded workDir json_size EmptyString s' = 0 /\
    recorded workDir json_size (uuids s (fresh s)) s' = 0.
Proof using.
  intros Hw Hu Hh H0 Hn. exists (reserve_state workDir json_text json_size n s).
  split_and_all.
  - apply ReserveSpace_ok; [done|done|]. by rewrite H0, Z.add_0_r.
  - rewrite recorded_reserve_text by (done || by left).
    rewrite decide_True by (by left). by rewrite H0, Z.add_0_r.
  - rewrite recorded_reserve_text by (done || by right).
    rewrite decide_True by (by right). by rewrite H0, Z.add_0_r.
Qed.
(** A reservation of 4294967290 to 4294967295 bytes on an empty host that has
    them is accepted and recorded as nothing, so the same space can be reserved
    again: the reader makes a double of the number in the record, and a double is
    no record. *)
Theorem reservation_forgotten (to_double : Z -> real) (workDir : string) (hostSize : Z) (n : Z) (s : server) :
  scans scan_double to_double -> writable_fs json_text (sfs s) -> id_ok (uuids s (fresh s)) ->
  4294967290 <= n < 2 ^ 32 -> n <= hostSize -> recorded workDir json_size EmptyString s = 0 ->
  exists s', ReserveSpace workDir hostSize json_text json_size n s = Ok (uuids s (fresh s), s') /\
    recorded workDir json_size EmptyString s' = 0 /\
    recorded workDir json_size (uuids s (fresh s)) s' = 0.
Proof using.
  intros Hscan Hw Hu Hn Hh H0. assert (u64 n = n) as En by (apply u64_small; unfold in_u64; lia).
  apply reservation_lost; [done|done|by rewrite En|done|]. rewrite En, u32_small by (unfold in_u32; lia).
  by rewrite (reserved_forgotten _ _ to_double).
Qed.
(** Sizes of 4 GiB and more are recorded modulo 2^32, whatever the host's
    size: a reservation of exactly 4 GiB on an empty host is accepted and recorded
    as nothing. *)
Lemma reservation_truncated (workDir : string) (hostSize : Z) (s : server) :
  writable_fs json_text (sfs s) -> id_ok (uuids s (fresh s)) -> 2 ^ 32 <= hostSize ->
  recorded workDir json_size EmptyString s = 0 ->
  exists s', ReserveSpace workDir hostSize json_text json_size (2 ^ 32) s
      = Ok (uuids s (fresh s), s') /\
    recorded workDir json_size EmptyString s' = 0 /\
    recorded workDir json_size (uuids s (fresh s)) s' = 0.
Proof using.
  intros Hw Hu Hh H0. apply reservation_lost; [done|done|done|done|]. change (u32 (u64 (2 ^ 32))) with 0. by rewrite (sizes_roundtrip 0 ltac:(closed_range)).
Qed.
End Accounting.


(** ** The same on a concrete host *)
Abbreviation sample_text := (reserved_text no_print).
Abbreviation sample_size := (reserved_size some_double).
Definition empty_server : server :=
  mkserver (mkhost (mkfs ∅ ∅ (fun _ => false) (2 ^ 40)) 0) (fun n => hex (Z.of_nat n)) 0 [].
Lemma empty_writable : writable_fs sample_text (sfs empty_server).
Proof.
  split; [done|]. intros n Hn. etrans; [by apply reserved_text_short|]. vm_compute. congruence.
Qed.
Lemma empty_ids : id_ok "0" /\ id_ok "1".
Proof. by repeat split. Qed.

Lemma reserve_accounting_witness :
  (exists s', ReserveSpace "/w/" 1000 sample_text sample_size 600 empty_server = Ok ("0"%string, s') /\
     recorded "/w/" sample_size EmptyString s' = 600) /\
  ReserveSpace "/w/" 1000 sample_text sample_size 1001 empty_server = Ok (EmptyString, empty_server).
Proof.
  destruct (reserve_accounting no_print some_double "/w/" 1000 600 empty_server
    empty_writable (proj1 empty_ids) ltac:(closed_range) ltac:(closed_range) ltac:(closed_range)
    ltac:(closed_range)) as [H1 _].
  destruct (reserve_accounting no_print some_double "/w/" 1000 1001 empty_server
    empty_writable (proj1 empty_ids) ltac:(closed_range) ltac:(closed_range) ltac:(closed_range)
    ltac:(closed_range)) as [_ H2].
  destruct H1 as (s' & E & R & _); [closed_range|]. split.
  - exists s'. split; [exact E|exact R].
  - apply H2. closed_range.
Defined.
Lemma unreserve_releases_everything_witness :
  exists id1 id2 s1 s2 s3,
    ReserveSpace "/w/" 1000 sample_text sample_size 300 empty_server = Ok (id1, s1) /\
    ReserveSpace "/w/" 1000 sample_text sample_size 200 s1 = Ok (id2, s2) /\
    recorded "/w/" sample_size EmptyString s2 = 500 /\
    recorded "/w/" sample_size id2 s2 = 500 /\
    UnreserveSpace "/w/" sample_text sample_size id2 s2 = Ok (tt, s3) /\
    recorded "/w/" sample_size EmptyString s3 = 0 /\
    recorded "/w/" sample_size id1 s3 = 300.
Proof.
  apply (unreserve_releases_everything no_print some_double "/w/" 1000 300 200 empty_server
    empty_writable (proj1 empty_ids) (proj2 empty_ids)).
  - vm_compute. congruence.
  - vm_compute. reflexivity.
  - lia.
  - lia.
  - lia.
Defined.
Lemma reservation_forgotten_witness :
  exists s', ReserveSpace "/w/" (2 ^ 33) sample_text sample_size 4294967292 empty_server = Ok ("0"%string, s') /\
    recorded "/w/" sample_size EmptyString s' = 0 /\ recorded "/w/" sample_size "0" s' = 0.
Proof.
  apply (reservation_forgotten no_print some_double (fun _ => SpecFloat.S754_zero false) "/w/" (2 ^ 33) 4294967292 empty_server).
  - by split.
  - exact empty_writable.
  - exact (proj1 empty_ids).
  - lia.
  - lia.
  - vm_compute. reflexivity.
Defined.

