(* ===== verification/HttpParams.v ===== *)
(** * Request parameters on both ends (src/src/bdfs-lib/BdSession.cpp,
      HttpRequest.cpp; src/src/httpserver/MGHttpContext.cpp)

    The client writes the arguments of a call as JSON values, percent-encodes them
    and joins them with [&]; the server splits the text again.  The percent
    encoding (libcurl, mongoose) and the JSON text of a string (jsoncpp) are
    parameters. *)

From Stdlib Require Import ZArith Lia Bool Ascii String.
From stdpp Require Import base list gmap strings pretty.
From S2P Require Import Prelude Streams.
Set Default Goal Selector "!".
Local Open Scope Z_scope.
Local Open Scope drive_scope.

(** ** [strtok_r] *)
Fixpoint skip_delims (delims s : string) : string :=
  match s with
  | EmptyString => EmptyString
  | String c s' => if str_mem c delims then skip_delims delims s' else s
  end.
Fixpoint take_token (delims s : string) : string * string :=
  match s with
  | EmptyString => (EmptyString, EmptyString)
  | String c s' =>
      if str_mem c delims then (EmptyString, s')
      else let '(token, rest) := take_token delims s' in (String c token, rest)
  end.
(** the token, and where the next call starts *)
Definition strtok (delims s : string) : option (string * string) :=
  match skip_delims delims s with
  | EmptyString => None
  | s => Some (take_token delims s)
  end.

(** a C string ends at its first zero byte *)
Fixpoint cstr (s : string) : string :=
  match s with
  | EmptyString => EmptyString
  | String c s => if Ascii.eqb c "000" then EmptyString else String c (cstr s)
  end.

(** the argument values the callers use *)
Inductive arg := UInt (n : Z) | Str (s : string).

Section Codec.
Context (url_escape url_decode : string -> string).
Context (json_quote : string -> string) (json_unquote : string -> option string).

(** ** The server: MGHttpContext::ParseParameters *)
Definition json_text_value (buffer : string) : string :=
  match buffer with
  | String c _ =>
      if Ascii.eqb c (ascii_of_nat 34)
      then match json_unquote buffer with Some s => s | None => buffer end
      else buffer
  | EmptyString => buffer
  end.
Fixpoint parse_pairs (fuel : nat) (buf : string) (parameters : gmap string string) : gmap string string :=
  match fuel with
  | O => parameters
  | S fuel =>
      match strtok "&" buf with
      | None => parameters
      | Some (item, buf) =>
          match strtok "= " item with
          | None => parameters
          | Some (name, rest) =>
              match strtok "&" rest with
              | None => parse_pairs fuel buf parameters
              | Some (value, _) =>
                  parse_pairs fuel buf (<[name := json_text_value (cstr (url_decode value))]> parameters)
              end
          end
      end
  end.
Definition ParseParameters (buf : string) (parameters : gmap string string) : gmap string string :=
  parse_pairs (S (String.length buf)) buf parameters.
(** MGHttpContext::parameter: the query string, then a form body *)
Definition parameter_of (query body : string) (name : string) : string :=
  default EmptyString (ParseParameters body (ParseParameters query ∅) !! name).

(** ** The client: FastWriter, postImpl and BdSession::__EncodeArgs *)
Definition write_value (v : arg) : string :=
  match v with UInt n => pretty (Z.to_N n) | Str s => json_quote s end.
Definition encode_pair (p : string * arg) : string :=
  p.1 +:+ "=" +:+ url_escape (write_value p.2).
Fixpoint postImpl (args : list (string * arg)) : string :=
  match args with
  | [] => EmptyString
  | [p] => encode_pair p
  | p :: args => encode_pair p +:+ "&" +:+ postImpl args
  end.
(** with the question mark that starts a query *)
Definition EncodeArgs (args : list (string * arg)) : string :=
  match args with [] => EmptyString | _ => "?" +:+ postImpl args end.

(** ** Round trip *)
(** the codecs as documented: escaped text has none of the separators, is not empty
    unless the text is, and decodes to the text; a quoted string starts with a
    quotation mark and is read back *)
Record codec_ok : Prop := {
  codec_safe s c : str_mem c "&= " = true -> str_mem c (url_escape s) = false;
  codec_nonempty s : s <> EmptyString -> url_escape s <> EmptyString;
  codec_decode s : no_nul s -> url_decode (url_escape s) = s;
  codec_quote s : no_nul s -> no_nul (json_quote s) /\
    exists t, json_quote s = String (ascii_of_nat 34) t;
  codec_unquote s : no_nul s -> json_unquote (json_quote s) = Some s
}.
(** names without separators *)
Definition plain_name (s : string) : Prop :=
  s <> EmptyString /\ forall c, str_mem c "&= " = true -> str_mem c s = false.
Definition plain_value (v : arg) : Prop :=
  match v with UInt n => 0 <= n | Str s => no_nul s end.
(** the text that reaches the handler *)
Definition arg_text (v : arg) : string :=
  match v with UInt n => pretty (Z.to_N n) | Str s => s end.

Definition clean (delims s : string) : Prop := forall c, str_mem c delims = true -> str_mem c s = false.
Lemma clean_cons delims x s : clean delims (String x s) -> str_mem x delims = false /\ clean delims s.
Proof.
  intros Hc. split.
  - destruct (str_mem x delims) eqn:E; [|done]. apply Hc in E. cbn in E. by rewrite Ascii.eqb_refl in E.
  - intros c Hm. specialize (Hc c Hm). cbn in Hc. apply orb_false_iff in Hc as [_ Hc]. exact Hc.
Qed.

Lemma take_token_clean delims s : clean delims s -> take_token delims s = (s, EmptyString).
Proof.
  induction s as [|x s IH]; intros Hc; cbn; [done|]. apply clean_cons in Hc as [-> Hc]. by rewrite IH.
Qed.
Lemma take_token_stop delims s c t : clean delims s -> str_mem c delims = true ->
  take_token delims (s +:+ String c t) = (s, t).
Proof.
  intros Hc Hm. induction s as [|x s IH].
  - change (EmptyString +:+ String c t) with (String c t). cbn. by rewrite Hm.
  - change (String x s +:+ String c t) with (String x (s +:+ String c t)). cbn.
    apply clean_cons in Hc as [-> Hc]. by rewrite IH.
Qed.
Lemma strtok_clean delims s : s <> EmptyString -> clean delims s -> strtok delims s = Some (s, EmptyString).
Proof.
  intros Hne Hc. unfold strtok. destruct s as [|x s]; [done|]. cbn [skip_delims].
  destruct (clean_cons _ _ _ Hc) as [-> _]. cbv iota. by rewrite take_token_clean.
Qed.
Lemma strtok_stop delims s c t : s <> EmptyString -> clean delims s -> str_mem c delims = true ->
  strtok delims (s +:+ String c t) = Some (s, t).
Proof.
  intros Hne Hc Hm. unfold strtok. destruct s as [|x s]; [done|].
  change (String x s +:+ String c t) with (String x (s +:+ String c t)). cbn [skip_delims].
  destruct (clean_cons _ _ _ Hc) as [-> _]. cbv iota.
  change (String x (s +:+ String c t)) with (String x s +:+ String c t). by rewrite take_token_stop.
Qed.

(** no digit is a separator, a quotation mark or a zero byte *)
Lemma pretty_N_chars (P : ascii -> bool) n :
  (forall d, (d < 10)%N -> P (pretty_N_char d) = false) ->
  forall s, (forall c, str_mem c s = true -> P c = false) ->
  forall c, str_mem c (pretty_N_go n s) = true -> P c = false.
Proof.
  intros HP. induction (N.lt_wf_0 n) as [n _ IH]. intros s Hs.
  destruct (decide (n = 0)%N) as [->|Hn]; [by rewrite pretty_N_go_0|].
  rewrite pretty_N_go_step by lia. apply IH; [apply N.div_lt; lia|].
  intros c Hc. cbn in Hc. apply orb_true_iff in Hc as [Hc|Hc]; [|by apply Hs].
  apply Ascii.eqb_eq in Hc as <-. apply HP. apply N.mod_lt. lia.
Qed.

Lemma pretty_N_go_nonempty n s : s <> EmptyString -> pretty_N_go n s <> EmptyString.
Proof.
  revert s. induction (N.lt_wf_0 n) as [n _ IH]. intros s Hs.
  destruct (decide (n = 0)%N) as [->|Hn]; [by rewrite pretty_N_go_0|].
  rewrite pretty_N_go_step by lia. apply IH; [apply N.div_lt; lia|done].
Qed.

(** ** What is sent is what arrives *)
Lemma write_value_ok v : codec_ok -> plain_value v ->
  write_value v <> EmptyString /\ no_nul (write_value v) /\ json_text_value (write_value v) = arg_text v.
Proof.
  intros Hc Hv. destruct v as [n|t]; cbn [write_value arg_text].
  - assert (Hd : forall c, str_mem c (pretty (Z.to_N n)) = true ->
      (Ascii.eqb c "000" || Ascii.eqb c (ascii_of_nat 34)) = false).
    { unfold pretty, pretty_N. destruct (decide _).
      - intros c Hm. change (Ascii.eqb "0" c || false = true) in Hm. rewrite orb_false_r in Hm.
        by apply Ascii.eqb_eq in Hm as <-.
      - apply (pretty_N_chars (fun c => Ascii.eqb c "000" || Ascii.eqb c (ascii_of_nat 34))); [|done].
        intros d Hd. unfold pretty_N_char. by repeat case_match. }
    destruct (pretty (Z.to_N n)) as [|x r] eqn:E.
    + exfalso. revert E. unfold pretty, pretty_N. destruct (decide _) as [|Hn]; [done|].
      rewrite pretty_N_go_step by lia. by apply pretty_N_go_nonempty.
    + split; [done|]. split.
      * unfold no_nul. destruct (str_mem "000" (String x r)) eqn:Em; [|done]. by specialize (Hd _ Em).
      * unfold json_text_value. specialize (Hd x). cbn in Hd. rewrite Ascii.eqb_refl in Hd.
        specialize (Hd eq_refl). by apply orb_false_iff in Hd as [_ ->].
  - destruct (codec_quote Hc t Hv) as (Hn & q & Eq). rewrite Eq in *. split_and_all; [done|done|].
    unfold json_text_value. rewrite Ascii.eqb_refl, <- Eq. by rewrite (codec_unquote Hc).
Qed.

Lemma cstr_no_nul s : no_nul s -> cstr s = s.
Proof.
  induction s as [|c s IH]; [done|]. unfold no_nul. cbn. intros H. apply orb_false_iff in H as [-> H].
  by rewrite IH.
Qed.

Definition plain_arg (p : string * arg) : Prop := plain_name p.1 /\ plain_value p.2.
Definition store_args (args : list (string * arg)) (m : gmap string string) : gmap string string :=
  foldl (fun m p => <[p.1 := arg_text p.2]> m) m args.

Lemma clean_sub delims delims' s :
  (forall c, str_mem c delims' = true -> str_mem c delims = true) -> clean delims s -> clean delims' s.
Proof. intros Hs Hc c Hm. apply Hc, Hs, Hm. Qed.
Lemma amp_sub c : str_mem c "&" = true -> str_mem c "&= " = true.
Proof. cbn. rewrite orb_false_r. by intros ->. Qed.
Lemma eq_sub c : str_mem c "= " = true -> str_mem c "&= " = true.
Proof. intros H. change (Ascii.eqb "&" c || str_mem c "= " = true). by rewrite H, orb_true_r. Qed.

Lemma encode_pair_clean p : codec_ok -> plain_arg p -> encode_pair p <> EmptyString /\ clean "&" (encode_pair p).
Proof.
  intros Hc [[Hne Hn] Hv]. unfold encode_pair. split.
  - by destruct p.1.
  - intros c Hm. rewrite !str_mem_app.
    rewrite Hn, (codec_safe Hc) by by apply amp_sub. rewrite orb_false_r. cbn [orb].
    change (str_mem c "&") with (Ascii.eqb "&" c || false) in Hm. rewrite orb_false_r in Hm.
    by apply Ascii.eqb_eq in Hm as <-.
Qed.

Lemma parse_one fuel p rest buf m : codec_ok -> plain_arg p ->
  strtok "&" buf = Some (encode_pair p, rest) ->
  parse_pairs (S fuel) buf m = parse_pairs fuel rest (<[p.1 := arg_text p.2]> m).
Proof.
  intros Hc [[Hne Hn] Hv] Et. cbn [parse_pairs]. rewrite Et. unfold encode_pair.
  change ("=" +:+ url_escape (write_value p.2)) with (String "=" (url_escape (write_value p.2))).
  rewrite strtok_stop; [|done|apply (clean_sub "&= " "= "); [apply eq_sub|exact Hn]|done].
  destruct (write_value_ok p.2 Hc Hv) as (Hw & Hnn & Ht).
  rewrite strtok_clean; [|by apply (codec_nonempty Hc)|intros c Hm; by apply (codec_safe Hc), amp_sub].
  by rewrite (codec_decode Hc), cstr_no_nul, Ht.
Qed.

Lemma parse_postImpl args fuel m : codec_ok -> Forall plain_arg args -> (length args < fuel)%nat ->
  parse_pairs fuel (postImpl args) m = store_args args m.
Proof.
  intros Hc Ha. revert fuel m. induction Ha as [|p args Hp Ha IH]; intros [|fuel] m Hf; [lia| |cbn in Hf; lia|].
  - done.
  - destruct (encode_pair_clean p Hc Hp) as [Hne Hcl]. destruct args as [|q args].
    + cbn [postImpl]. rewrite (parse_one fuel p EmptyString) by (try done; by apply strtok_clean).
      by destruct fuel.
    + change (postImpl (p :: q :: args)) with (encode_pair p +:+ String "&" (postImpl (q :: args))).
      rewrite (parse_one fuel p (postImpl (q :: args))); [|done|done|by apply strtok_stop].
      rewrite IH by (cbn in *; lia). done.
Qed.

Lemma str_length_app a b : String.length (a +:+ b) = (String.length a + String.length b)%nat.
Proof. induction a as [|x a IH]; [done|]. change (String x a +:+ b) with (String x (a +:+ b)). cbn. by rewrite IH. Qed.
Lemma encode_pair_length p : plain_arg p -> (0 < String.length (encode_pair p))%nat.
Proof.
  intros [[Hne _] _]. unfold encode_pair. rewrite str_length_app. destruct p.1; [done|].
  cbn [String.length]. lia.
Qed.
Lemma postImpl_length args : Forall plain_arg args -> (length args <= String.length (postImpl args))%nat.
Proof.
  induction 1 as [|p args Hp Ha IH]; [done|]. pose proof (encode_pair_length p Hp).
  destruct args as [|q args]; [done|].
  change (postImpl (p :: q :: args)) with (encode_pair p +:+ "&" +:+ postImpl (q :: args)).
  rewrite !str_length_app. cbn [length] in *. lia.
Qed.

Lemma store_args_lookup args m name : store_args args m !! name
  = match list_find (fun p => p.1 = name) (rev args) with
    | Some (_, p) => Some (arg_text p.2)
    | None => m !! name
    end.
Proof.
  revert m. induction args as [|p args IH] using rev_ind; intros m; [done|].
  unfold store_args. rewrite foldl_snoc. fold (store_args args m).
  rewrite rev_app_distr. cbn [rev app list_find]. destruct (decide (p.1 = name)) as [<-|Hne].
  - by rewrite lookup_insert_eq.
  - rewrite lookup_insert_ne, IH by done.
    by destruct (list_find _ (rev args)) as [[i q]|].
Qed.

(** what a handler reads for [name] *)
Definition arg_of (args : list (string * arg)) (name : string) : string :=
  default EmptyString (store_args args ∅ !! name).
Lemma parameter_of_body args name : codec_ok -> Forall plain_arg args ->
  parameter_of EmptyString (postImpl args) name = arg_of args name.
Proof.
  intros Hc Ha. unfold parameter_of, arg_of.
  change (ParseParameters EmptyString ∅) with (∅ : gmap string string).
  unfold ParseParameters. rewrite parse_postImpl; [done|done|done|].
  pose proof (postImpl_length args Ha). lia.
Qed.
Lemma parameter_of_query args name : codec_ok -> Forall plain_arg args ->
  parameter_of (postImpl args) EmptyString name = arg_of args name.
Proof.
  intros Hc Ha. unfold parameter_of, arg_of. unfold ParseParameters at 2.
  rewrite parse_postImpl; [done|done|done|].
  pose proof (postImpl_length args Ha). lia.
Qed.
End Codec.

(** ** Codecs that keep the promise *)
Definition hex_char (n : nat) : ascii := nth n (list_ascii_of_string "0123456789ABCDEF") "0"%char.
Definition hex_read (c : ascii) : nat :=
  let n := nat_of_ascii c in if (n <? 58)%nat then (n - 48)%nat else (n - 55)%nat.
Fixpoint percent_escape (s : string) : string :=
  match s with
  | EmptyString => EmptyString
  | String c s =>
      let n := nat_of_ascii c in
      String "%" (String (hex_char (n / 16)) (String (hex_char (n mod 16)) (percent_escape s)))
  end.
Fixpoint percent_decode (s : string) : string :=
  match s with
  | String "%" (String h (String l s)) =>
      String (ascii_of_nat (hex_read h * 16 + hex_read l)) (percent_decode s)
  | String c s => String (if Ascii.eqb c "+" then " "%char else c) (percent_decode s)
  | EmptyString => EmptyString
  end.
Definition quoted (s : string) : string := String (ascii_of_nat 34) (s +:+ String (ascii_of_nat 34) EmptyString).
Definition unquoted (s : string) : option string :=
  match s with
  | String _ s => Some (substring 0 (String.length s - 1) s)
  | EmptyString => None
  end.

Lemma percent_char c :
  Forall (fun d => str_mem d "&= " = false)
    [hex_char (nat_of_ascii c / 16); hex_char (nat_of_ascii c mod 16)] /\
  ascii_of_nat (hex_read (hex_char (nat_of_ascii c / 16)) * 16 +
                hex_read (hex_char (nat_of_ascii c mod 16))) = c.
Proof.
  destruct c as [[] [] [] [] [] [] [] []];
    (split; [apply Forall_cons_2; [|apply Forall_cons_2; [|apply Forall_nil_2]]|]; vm_compute; reflexivity).
Qed.

Lemma sample_codec_ok : codec_ok percent_escape percent_decode quoted unquoted.
Proof.
  split.
  - intros s c Hc. induction s as [|x s IH]; [done|]. cbn [percent_escape str_mem]. rewrite IH.
    destruct (percent_char x) as [Hf _]. apply Forall_cons in Hf as [H1 Hf].
    apply Forall_cons in Hf as [H2 _]. rewrite orb_false_r.
    assert (Hne : forall d, str_mem d "&= " = false -> Ascii.eqb d c = false).
    { intros d Hd. destruct (Ascii.eqb_spec d c) as [->|]; [congruence|done]. }
    rewrite (Hne _ H1), (Hne _ H2), Hne; [done|done].
  - by intros [|c s] Hs.
  - intros s _. induction s as [|x s IH]; [done|]. cbn [percent_escape percent_decode].
    rewrite (proj2 (percent_char x)). by rewrite IH.
  - intros s Hs. split; [|by eexists]. unfold no_nul, quoted in *.
    change (str_mem "000" (s +:+ String (ascii_of_nat 34) EmptyString) = false).
    by rewrite str_mem_app, Hs.
  - intros s _. unfold unquoted, quoted. f_equal.
    rewrite str_length_app. cbn [String.length]. replace (_ + 1 - 1)%nat with (String.length s) by lia.
    induction s as [|x s IH]; [done|].
    change (String x s +:+ ?t) with (String x (s +:+ t)). cbn [String.length substring]. by rewrite IH.
Qed.
