(* ===== verification/HttpNumbers.v ===== *)
(** * Numbers in requests

    A number the client writes in decimal is the number the handler's strtoull
    reads. *)

From Stdlib Require Import ZArith Lia Bool Ascii String.
From stdpp Require Import base list gmap strings pretty.
From S2P Require Import Prelude HostHandler HttpParams.
Set Default Goal Selector "!".
Local Open Scope Z_scope.
Local Open Scope drive_scope.

Lemma digit_char d : (d < 10)%N ->
  is_digit (pretty_N_char d) = true /\ ascii_byte (pretty_N_char d) - 48 = Z.of_N d.
Proof.
  intros Hd. assert (d = 0 \/ d = 1 \/ d = 2 \/ d = 3 \/ d = 4 \/ d = 5 \/ d = 6 \/ d = 7 \/ d = 8 \/ d = 9)%N
    as H by lia. by repeat destruct H as [->|H]; [..|subst].
Qed.

Lemma digits_value_pretty n s v : exists k, 0 <= k /\
  digits_value v (pretty_N_go n s) = digits_value (v * k + Z.of_N n) s.
Proof.
  revert s v. induction (N.lt_wf_0 n) as [n _ IH]. intros s v.
  destruct (decide (n = 0)%N) as [->|Hn].
  - exists 1. rewrite pretty_N_go_0. split; [lia|f_equal; lia].
  - rewrite pretty_N_go_step by lia.
    destruct (IH (n / 10)%N ltac:(apply N.div_lt; lia) (String (pretty_N_char (n mod 10)) s) v) as (k & Hk & E).
    exists (10 * k). split; [lia|]. rewrite E. cbn [digits_value].
    destruct (digit_char (n mod 10) ltac:(apply N.mod_lt; lia)) as [-> Ed]. f_equal.
    rewrite Ed, N2Z.inj_mod, N2Z.inj_div. pose proof (Z.div_mod (Z.of_N n) 10 ltac:(lia)). lia.
Qed.

Lemma pretty_go_app n s t : pretty_N_go n s +:+ t = pretty_N_go n (s +:+ t).
Proof.
  revert s. induction (N.lt_wf_0 n) as [n _ IH]. intros s. destruct (decide (n = 0)%N) as [->|Hn]; [by rewrite !pretty_N_go_0|].
  rewrite (pretty_N_go_step n s), (pretty_N_go_step n (s +:+ t)) by lia. by rewrite IH by (apply N.div_lt; lia).
Qed.
(** the text does not go on with a digit *)
Definition no_digit (t : string) : Prop := match t with String c _ => is_digit c = false | EmptyString => True end.
Lemma digits_pretty n t : no_digit t -> digits_value 0 (pretty n +:+ t) = Z.of_N n.
Proof.
  intros Ht. assert (forall v, digits_value v t = v) as Hv by (destruct t; [done|]; cbn in *; by rewrite Ht).
  unfold pretty, pretty_N. destruct (decide _) as [->|E]; [change (digits_value 0 t = 0); apply Hv|].
  rewrite pretty_go_app. destruct (digits_value_pretty n t 0) as (k & _ & E'). etrans; [exact E'|]. rewrite Hv. lia.
Qed.
Lemma pretty_digits (n : N) c : str_mem c (pretty n) = true -> is_digit c = true.
Proof.
  intros Hc. apply negb_false_iff. revert c Hc. unfold pretty, pretty_N. destruct (decide _).
  - intros c Hc. change (Ascii.eqb "0" c || false = true) in Hc. rewrite orb_false_r in Hc.
    by apply Ascii.eqb_eq in Hc as <-.
  - apply (pretty_N_chars (fun c => negb (is_digit c))); [|done].
    intros d Hdd. by destruct (digit_char d Hdd) as [-> _].
Qed.
Lemma pretty_head (n : N) : exists c s, pretty n = String c s /\ is_digit c = true.
Proof.
  pose proof (pretty_digits n) as Hd.
  destruct (pretty n) as [|c s] eqn:E.
  - exfalso. unfold pretty, pretty_N in E. destruct (decide _) as [|Hn]; [done|]. rewrite pretty_N_go_step in E by lia.
    change (String (pretty_N_char (n mod 10)) EmptyString) with (EmptyString +:+ String (pretty_N_char (n mod 10)) EmptyString) in E.
    rewrite <- pretty_go_app in E. apply (f_equal String.length) in E. rewrite length_append in E. cbn in E. lia.
  - exists c, s. split; [done|]. specialize (Hd c). cbn [str_mem] in Hd. rewrite Ascii.eqb_refl in Hd. by apply Hd.
Qed.
(** a text that starts with a digit is read from there *)
Lemma number_start {A} (c : ascii) (s : string) (f g h : string -> A) : is_digit c = true ->
  match skip_spaces (String c s) with String "-" s => f s | String "+" s => g s | s => h s end = h (String c s).
Proof.
  cbn [skip_spaces]. unfold is_digit, is_space. intros Hd.
  destruct c as [[] [] [] [] [] [] [] []]; first [discriminate Hd|reflexivity].
Qed.
Lemma strtoull_pretty n : in_u64 n -> strtoull (pretty (Z.to_N n)) = n.
Proof.
  intros Hn. unfold in_u64 in Hn. pose proof (digits_pretty (Z.to_N n) EmptyString I) as Hv.
  destruct (pretty_head (Z.to_N n)) as (c & s & E & Hd). rewrite E, append_nil_r in Hv. rewrite E. unfold strtoull.
  etrans; [exact (number_start c s _ _ (fun s => saturate (digits_value 0 s)) Hd)|]. cbv beta. unfold saturate. rewrite Hv. destruct (Z.leb_spec (2 ^ 64) (Z.of_N (Z.to_N n))); lia.
Qed.

(** an integer argument, as the handler reads it *)
Lemma arg_number args k v n : in_u64 n ->
  store_args args ∅ !! k = Some (arg_text (UInt n)) -> v = arg_of args k -> strtoull v = n.
Proof. intros Hn Hs ->. unfold arg_of. rewrite Hs. by apply strtoull_pretty. Qed.

Lemma in_u64_u32 n : in_u64 (u32 n).
Proof. pose proof (u32_range n) as H. unfold in_u32, in_u64 in *. lia. Qed.

