(* ===== verification/JsonPath.v ===== *)
(** * Paths into values (src/src/jsoncpp/json_value.cpp, class Path)

    A path is parsed into arguments - indices and keys - that lead from a value to one
    inside it.  Errors in the text of a path and in its use are ignored, as the code
    ignores them. *)

From Stdlib Require Import ZArith Lia Bool Ascii String.
From stdpp Require Import base list strings pretty.
From S2P Require Import Prelude StdMap Json JsonValue JsonValueFacts HostHandler HttpNumbers.
Set Default Goal Selector "!".
Local Open Scope Z_scope.
Local Open Scope drive_scope.

Inductive PathArgument := kindNone | kindIndex (index : Z) | kindKey (key : string).
(** an argument of the kind that is asked for, the first of all each time: the iterator
    is never moved *)
Definition addPathInArg (args in_args : list PathArgument) (index : bool) : list PathArgument :=
  match in_args with
  | kindIndex i :: _ => if index then args ++ [kindIndex i] else args
  | kindKey k :: _ => if index then args else args ++ [kindKey k]
  | _ => args
  end.
Fixpoint read_index (index : Z) (current : string) : Z * string :=
  match current with
  | String c rest => if is_digit c then read_index (u32 (index * 10 + (ascii_byte c - 48))) rest else (index, current)
  | EmptyString => (index, current)
  end.
(** [strchr("\[.", c)], which finds the NUL at the end too *)
Definition ends_name (c : ascii) : bool := Ascii.eqb c "[" || Ascii.eqb c "." || Ascii.eqb c "000".
Fixpoint read_name (current : string) : string * string :=
  match current with
  | String c rest => if ends_name c then (EmptyString, current) else let (name, rest) := read_name rest in (String c name, rest)
  | EmptyString => (EmptyString, EmptyString)
  end.
Fixpoint makePath (fuel : nat) (current : string) (in_args args : list PathArgument) : outcome (list PathArgument) :=
  match fuel with
  | O => OutOfFuel
  | S fuel =>
      match current with
      | EmptyString => Ok args
      | String "[" rest =>
          let (args, rest) := match rest with
                              | String "%" _ => (addPathInArg args in_args true, rest)
                              | _ => let (index, rest) := read_index 0 rest in (args ++ [kindIndex index], rest)
                              end in
          makePath fuel (match rest with String _ rest => rest | EmptyString => EmptyString end) in_args args
      | String "%" rest => makePath fuel rest in_args (addPathInArg args in_args false)
      | String "." rest => makePath fuel rest in_args args
      | _ => let (name, rest) := read_name current in makePath fuel rest in_args (args ++ [kindKey name])
      end
  end.
(** Path::Path *)
Definition path_of (path : string) (in_args : list PathArgument) : outcome (list PathArgument) :=
  makePath (S (String.length path)) path in_args [].

Definition deref_null (r : outcome (option value)) : outcome value := obind r (fun r => Ok (default nullValue r)).
Fixpoint resolve (args : list PathArgument) (node : value) : outcome value :=
  match args with
  | [] => Ok node
  | kindNone :: args => resolve args node
  | kindIndex i :: args => obind (deref_null (at_index i node)) (resolve args)
  | kindKey k :: args => obind (deref_null (at_member k node)) (resolve args)
  end.
Fixpoint resolve_default (defaultValue : value) (args : list PathArgument) (node : value) : outcome value :=
  match args with
  | [] => Ok node
  | kindNone :: args => resolve_default defaultValue args node
  | kindIndex i :: args =>
      if negb (JsonValue.isArray node) then Ok defaultValue else
      obind (isValidIndex i node) (fun valid =>
      if valid : bool then Ok defaultValue
      else obind (deref_null (at_index i node)) (resolve_default defaultValue args))
  | kindKey k :: args =>
      if negb (JsonValue.isObject node) then Ok defaultValue else
      obind (at_member k node) (fun r => match r with None => Ok defaultValue | Some node => resolve_default defaultValue args node end)
  end.
(** the node at the end of the path, made where it is missing, given to [f] *)
Fixpoint make {A} (args : list PathArgument) (f : M value A) : M value A :=
  match args with
  | [] => f
  | kindNone :: args => make args f
  | kindIndex i :: args => ref_index i (make args f)
  | kindKey k :: args => ref_member k (make args f)
  end.

(** ** Making and resolving *)
(** values whose maps are in order, all the way down *)
Fixpoint stored (v : value) : Prop :=
  match v with
  | arrayValue m => array_ok m /\ (fix each m := match m with [] => True | (_, v) :: m => stored v /\ each m end) m
  | objectValue o => sorted str_ltb o /\ (fix each o := match o with [] => True | (_, v) :: o => stored v /\ each o end) o
  | _ => True
  end.
Lemma stored_array m : stored (arrayValue m) <-> array_ok m /\ Forall (fun p => stored p.2) m.
Proof. cbn. apply and_iff_compat_l. induction m as [|[k v] m IH]; [split; intros; [apply List.Forall_nil|done]|]. by rewrite Forall_cons, IH. Qed.
Lemma stored_object o : stored (objectValue o) <-> sorted str_ltb o /\ Forall (fun p => stored p.2) o.
Proof. cbn. apply and_iff_compat_l. induction o as [|[k v] o IH]; [split; intros; [apply List.Forall_nil|done]|]. by rewrite Forall_cons, IH. Qed.
Lemma stored_found {K} (ltb : K -> K -> bool) k (m : list (K * value)) : Forall (fun p => stored p.2) m -> stored (default nullValue (OMap.find ltb k m)).
Proof.
  induction 1 as [|[k' v] m Hv _ IH]; [done|]. cbn. destruct (ltb k' k); [done|]. by destruct (ltb k k').
Qed.
Definition arg_ok (a : PathArgument) : Prop := match a with kindIndex i => 0 <= i < maxInt | _ => True end.
Lemma ref_index_inv {A} i (f : M value A) v a v' : 0 <= i < maxInt -> stored v -> ref_index i f v = Ok (a, v') ->
  exists old new, stored old /\ f old = Ok (a, new) /\ at_index i v' = Ok (Some new).
Proof.
  intros Hi Hv Hr. assert (exists m, stored (arrayValue m) /\ obind (OMap.at_key Z.ltb nullValue (CZString i) f m) (fun '(a, m) => Ok (a, arrayValue m)) = Ok (a, v')) as (m & Hm & E).
  { destruct v as [|n|n|d|s|b|m|o]; try done; [exists []|by exists m]. split; [apply stored_array; split; [apply array_ok_nil|apply List.Forall_nil]|done]. }
  apply stored_array in Hm as [Hm Hs]. rewrite CZString_index, at_key_ok in E by lia. apply obind_inv in E as ([a1 m1] & E & Ev).
  apply obind_inv in E as ([a2 new] & E & Em). injection Em as <- <-. injection Ev as <- <-.
  exists (default nullValue (OMap.find Z.ltb i m)), new. split; [by apply stored_found|]. split; [exact E|]. unfold at_index. rewrite CZString_index by lia.
  rewrite key_find_insert by (apply Hm || apply _). by rewrite decide_True.
Qed.
Lemma ref_member_inv {A} k (f : M value A) v a v' : stored v -> ref_member k f v = Ok (a, v') ->
  exists old new, stored old /\ f old = Ok (a, new) /\ at_member k v' = Ok (Some new).
Proof.
  intros Hv Hr. assert (exists o, stored (objectValue o) /\ obind (OMap.at_key str_ltb nullValue k f o) (fun '(a, o) => Ok (a, objectValue o)) = Ok (a, v')) as (o & Ho & E).
  { destruct v as [|n|n|d|s|b|m|o]; try done; [exists []|by exists o]. split; [by apply stored_object|done]. }
  apply stored_object in Ho as [Ho Hs]. rewrite at_key_ok in E. apply obind_inv in E as ([a1 m1] & E & Ev).
  apply obind_inv in E as ([a2 new] & E & Em). injection Em as <- <-. injection Ev as <- <-.
  exists (default nullValue (OMap.find str_ltb k o)), new. split; [by apply stored_found|]. split; [exact E|]. unfold at_member. rewrite key_find_insert by (done || apply _). by rewrite decide_True.
Qed.
(** What is put at the end of a path is found there: when Path::make gives a
    reference in a value and it is assigned, Path::resolve of the same path in the
    changed value gives what was assigned. *)
Theorem path_make_resolve (args : list PathArgument) (root root' x : value) : stored root -> Forall arg_ok args ->
  make args (put x) root = Ok (tt, root') -> resolve args root' = Ok x.
Proof.
  intros Hs Ha. revert root root' Hs. induction Ha as [|a args Ha _ IH]; intros root root' Hs Hm; [by injection Hm as <-|].
  destruct a as [|i|k]; cbn [make resolve] in *.
  - by apply (IH root).
  - apply ref_index_inv in Hm as (old & new & Ho & Hf & ->); [|done|done]. by apply (IH old).
  - apply ref_member_inv in Hm as (old & new & Ho & Hf & ->); [|done]. by apply (IH old).
Qed.
(** in a null value every path can be made *)
Lemma make_in_null args x : exists root', make args (put x) nullValue = Ok (tt, root').
Proof.
  induction args as [|[|i|k] args [v E]]; [by exists x|by exists v|..]; cbn [make].
  - exists (arrayValue [(CZString i, v)]). unfold ref_index. cbn. by rewrite E.
  - exists (objectValue [(k, v)]). unfold ref_member. cbn. by rewrite E.
Qed.

(** ** Parsing *)
Definition arg_text (a : PathArgument) : string :=
  match a with kindNone => EmptyString | kindIndex i => "[" +:+ pretty (Z.to_N i) +:+ "]" | kindKey k => "." +:+ k end.
Fixpoint path_text (args : list PathArgument) : string :=
  match args with [] => EmptyString | a :: args => arg_text a +:+ path_text args end.
Fixpoint name_ok (k : string) : bool := match k with EmptyString => true | String c k => negb (ends_name c) && name_ok k end.
Definition writable_arg (a : PathArgument) : Prop :=
  match a with
  | kindNone => False
  | kindIndex i => in_u32 i
  | kindKey k => name_ok k = true /\ match k with EmptyString => False | String c _ => c <> "%"%char end
  end.
Lemma read_index_ok s : forall i, in_u32 i -> (read_index i s).1 = u32 (digits_value i s).
Proof.
  assert (forall s i j, u32 i = u32 j -> u32 (digits_value i s) = u32 (digits_value j s)) as Hc.
  { clear s. induction s as [|c s IH]; intros i j E; [done|]. cbn. destruct (is_digit c); [|done]. apply IH.
    unfold u32 in *. by rewrite Z.add_mod, Z.mul_mod, E, <- Z.mul_mod, <- Z.add_mod. }
  induction s as [|c s IH]; intros i Hi; [by rewrite u32_small|]. cbn. destruct (is_digit c); [|by rewrite u32_small].
  rewrite IH by apply u32_range. apply Hc. rewrite u32_small by apply u32_range. f_equal. lia.
Qed.
Lemma read_index_rest s t : (forall c, str_mem c s = true -> is_digit c = true) -> no_digit t -> forall i, (read_index i (s +:+ t)).2 = t.
Proof.
  intros Hs Ht. induction s as [|c s IH]; intros i.
  - change (EmptyString +:+ t) with t. destruct t as [|c t]; [done|]. cbn in *. by rewrite Ht.
  - change (String c s +:+ t) with (String c (s +:+ t)). cbn. rewrite (Hs c) by (cbn; by rewrite Ascii.eqb_refl). apply IH.
    intros c' Hc. apply Hs. cbn. by rewrite Hc, orb_true_r.
Qed.
Lemma read_index_pretty i t : in_u32 i -> no_digit t -> read_index 0 (pretty (Z.to_N i) +:+ t) = (i, t).
Proof.
  intros Hi Ht. rewrite (surjective_pairing (read_index _ _)). f_equal.
  - rewrite read_index_ok by done. rewrite digits_pretty by done. rewrite Z2N.id by (unfold in_u32 in Hi; lia). by apply u32_small.
  - apply read_index_rest; [apply pretty_digits|done].
Qed.
Definition ends_or_empty (t : string) : Prop := match t with String c _ => ends_name c = true | EmptyString => True end.
Lemma read_name_ok k t : name_ok k = true -> ends_or_empty t -> read_name (k +:+ t) = (k, t).
Proof.
  intros Hk Ht. induction k as [|c k IH].
  - change (EmptyString +:+ t) with t. destruct t as [|c t]; [done|]. cbn in *. by rewrite Ht.
  - cbn in Hk. apply andb_true_iff in Hk as [Hc Hk]. apply negb_true_iff in Hc.
    change (String c k +:+ t) with (String c (k +:+ t)). cbn [read_name]. by rewrite Hc, IH.
Qed.
Lemma path_text_ends args : Forall writable_arg args -> ends_or_empty (path_text args).
Proof. by intros [|[|i|k] l Ha Hl]. Qed.
(** a name is read as one when it does not start as something else *)
Lemma makePath_name fuel c k t ins acc : ends_name c = false -> c <> "%"%char -> name_ok k = true -> ends_or_empty t ->
  makePath (S fuel) (String c k +:+ t) ins acc = makePath fuel t ins (acc ++ [kindKey (String c k)]).
Proof.
  intros Hc Hp Hk Ht. assert (read_name (String c k +:+ t) = (String c k, t)) as E by (apply read_name_ok; [cbn; by rewrite Hc|done]).
  change (String c k +:+ t) with (String c (k +:+ t)) in *.
  transitivity (let (name, rest) := read_name (String c (k +:+ t)) in makePath fuel rest ins (acc ++ [kindKey name])); [|by rewrite E].
  clear E. destruct c as [[] [] [] [] [] [] [] []]; first [done|by cbn in Hc|by destruct (Hp eq_refl)].
Qed.
Lemma makePath_text args ins : Forall writable_arg args -> forall fuel acc, (String.length (path_text args) < fuel)%nat ->
  makePath fuel (path_text args) ins acc = Ok (acc ++ args).
Proof.
  induction 1 as [|a args Ha Hw IH]; intros fuel acc Hf; [destruct fuel; [cbn in Hf; lia|]; cbn; by rewrite app_nil_r|].
  pose proof (path_text_ends args Hw) as He. cbn [path_text] in *. rewrite length_append in Hf.
  replace (acc ++ a :: args) with ((acc ++ [a]) ++ args) by by rewrite <- app_assoc.
  destruct a as [|i|k]; [done|..]; cbn [arg_text writable_arg] in *.
  - rewrite !append_assoc. destruct fuel as [|fuel]; [lia|].
    destruct (pretty_head (Z.to_N i)) as (c & s & Ep & Hd).
    transitivity (let (index, rest) := read_index 0 (pretty (Z.to_N i) +:+ "]" +:+ path_text args) in
      makePath fuel (match rest with String _ rest => rest | EmptyString => EmptyString end) ins (acc ++ [kindIndex index])).
    + rewrite Ep. change ("[" +:+ String c s +:+ "]" +:+ path_text args) with (String "[" (String c (s +:+ "]" +:+ path_text args))).
      change (String c s +:+ "]" +:+ path_text args) with (String c (s +:+ "]" +:+ path_text args)). cbn [makePath].
      destruct c as [[] [] [] [] [] [] [] []]; first [by cbn in Hd|by destruct (read_index _ _)].
    + rewrite read_index_pretty by done. cbn. apply IH. rewrite !length_append in Hf. cbn in Hf. lia.
  - rewrite append_assoc. destruct k as [|c k]; [by destruct Ha|]. destruct Ha as [Hk Hp]. cbn in Hk. apply andb_true_iff in Hk as [Hc Hk]. apply negb_true_iff in Hc.
    rewrite !length_append in Hf. cbn in Hf. destruct fuel as [|[|fuel]]; [lia..|].
    change (makePath (S (S fuel)) ("." +:+ String c k +:+ path_text args) ins acc) with (makePath (S fuel) (String c k +:+ path_text args) ins acc).
    rewrite makePath_name by done. apply IH. lia.
Qed.
(** A path that is written from its arguments, each index in brackets and each key after
    a dot, is parsed into these arguments. *)
Theorem path_roundtrip (args ins : list PathArgument) : Forall writable_arg args -> path_of (path_text args) ins = Ok args.
Proof. intros Hw. unfold path_of. by rewrite makePath_text by (done || lia). Qed.

(** ** Every text without NUL is parsed *)
Lemma read_name_shorter s : (String.length (read_name s).2 <= String.length s)%nat.
Proof.
  induction s as [|c s IH]; [done|]. cbn. destruct (ends_name c); [done|]. destruct (read_name s). cbn in *. lia.
Qed.
Lemma read_index_shorter s : forall i, (String.length (read_index i s).2 <= String.length s)%nat.
Proof. induction s as [|c s IH]; intros i; [done|]. cbn. destruct (is_digit c); [|done]. etrans; [apply IH|]. lia. Qed.
Lemma read_index_no_nul s : forall i, no_nul s -> no_nul (read_index i s).2.
Proof.
  induction s as [|c s IH]; intros i Hs; [done|]. cbn. destruct (is_digit c); [|done]. apply IH. unfold no_nul in *. cbn in Hs.
  by apply orb_false_iff in Hs as [_ Hs].
Qed.
Lemma read_name_no_nul s : no_nul s -> no_nul (read_name s).2.
Proof.
  induction s as [|c s IH]; intros Hs; [done|]. cbn. destruct (ends_name c); [done|]. destruct (read_name s). cbn in *. apply IH.
  unfold no_nul in *. cbn in Hs. by apply orb_false_iff in Hs as [_ Hs].
Qed.
Lemma makePath_step fuel c rest ins acc :
  makePath (S fuel) (String c rest) ins acc =
  if Ascii.eqb c "[" then
    let (acc, rest) := match rest with
                       | String "%" _ => (addPathInArg acc ins true, rest)
                       | _ => let (index, rest) := read_index 0 rest in (acc ++ [kindIndex index], rest)
                       end in
    makePath fuel (match rest with String _ rest => rest | EmptyString => EmptyString end) ins acc
  else if Ascii.eqb c "%" then makePath fuel rest ins (addPathInArg acc ins false)
  else if Ascii.eqb c "." then makePath fuel rest ins acc
  else let (name, rest) := read_name (String c rest) in makePath fuel rest ins (acc ++ [kindKey name]).
Proof. destruct c as [[] [] [] [] [] [] [] []]; reflexivity. Qed.
Lemma no_nul_tail c s : no_nul (String c s) -> c <> "000"%char /\ no_nul s.
Proof.
  unfold no_nul. cbn. intros [H1 H2]%orb_false_iff. split; [|done]. intros ->. by rewrite Ascii.eqb_refl in H1.
Qed.
Lemma tail_shorter s : (String.length (match s with String _ rest => rest | EmptyString => EmptyString end) <= String.length s)%nat.
Proof. destruct s; cbn; lia. Qed.
Lemma makePath_ends fuel : forall s ins acc, no_nul s -> (String.length s < fuel)%nat -> exists args, makePath fuel s ins acc = Ok args.
Proof.
  induction fuel as [|fuel IH]; intros s ins acc Hz Hf; [lia|]. destruct s as [|c s]; [by exists acc|]. apply no_nul_tail in Hz as [Hc Hz].
  cbn in Hf. rewrite makePath_step. destruct (Ascii.eqb c "[") eqn:E1; [|destruct (Ascii.eqb c "%") eqn:E2; [|destruct (Ascii.eqb c ".") eqn:E3]].
  - assert (exists acc' rest, (match s with
        | String "%" _ => (addPathInArg acc ins true, s)
        | _ => let (index, rest) := read_index 0 s in (acc ++ [kindIndex index], rest) end) = (acc', rest) /\
        no_nul rest /\ (String.length rest <= String.length s)%nat) as (acc' & rest & -> & Hr & Hl).
    { destruct s as [|c' s]; [by eexists _, _|]. pose proof (read_index_shorter (String c' s) 0) as Hs. pose proof (read_index_no_nul (String c' s) 0 Hz) as Hn.
      destruct (read_index 0 (String c' s)) as [i rest]. cbn [snd] in *.
      destruct c' as [[] [] [] [] [] [] [] []]; first [by eexists _, _; split; [reflexivity|]|by eexists _, (String _ s); split; [reflexivity|]]. }
    pose proof (tail_shorter rest). apply IH; [|lia]. destruct rest as [|c' rest]; [done|]. by apply no_nul_tail in Hr as [_ Hr].
  - apply IH; [done|lia].
  - apply IH; [done|lia].
  - assert (ends_name c = false) as En.
    { unfold ends_name. rewrite E1, E3. cbn. destruct (Ascii.eqb_spec c "000"); done. }
    pose proof (read_name_shorter s) as Hs. pose proof (read_name_no_nul s Hz) as Hn. cbn [read_name]. rewrite En.
    destruct (read_name s) as [name rest]. cbn [snd] in *. apply IH; [done|lia].
Qed.
(** Parsing ends on every text that has no NUL, whatever else is wrong with it, *)
Lemma path_parsed (path : string) (ins : list PathArgument) : no_nul path -> exists args, path_of path ins = Ok args.
Proof. intros Hz. apply makePath_ends; [done|lia]. Qed.
(** and never on one that comes to a NUL: an empty name is pushed again and again *)
Lemma nul_never_ends fuel : forall rest ins acc, makePath fuel (String "000" rest) ins acc = OutOfFuel.
Proof. induction fuel as [|fuel IH]; intros rest ins acc; [done|]. rewrite makePath_step. apply IH. Qed.

(** ** What the class does not do *)
(** resolve with a default gives the default for the elements that are there *)
Lemma default_for_valid_index d m i args : array_ok m -> 0 <= i < zlen (items m) ->
  resolve_default d (kindIndex i :: args) (arrayValue m) = Ok d.
Proof.
  intros Hm Hi. cbn [resolve_default]. change (JsonValue.isArray (arrayValue m)) with true. cbn [negb].
  unfold isValidIndex. rewrite stored_size by done. cbn [obind]. by rewrite (proj2 (Z.ltb_lt _ _)) by lia.
Qed.
(** an index given as a parameter leaves its bracket behind, as a key *)
Lemma bracket_left_behind i : path_of "[%]" [kindIndex i] = Ok [kindIndex i; kindKey "]"].
Proof. reflexivity. Qed.
(** and only the first parameter is ever used *)
Lemma first_parameter_only a b : path_of ".%.%" [kindKey a; kindKey b] = Ok [kindKey a; kindKey a].
Proof. reflexivity. Qed.

Definition sample_args : list PathArgument := [kindKey "list"; kindIndex 2; kindKey "name"]%string.
Lemma path_roundtrip_witness : path_of ".list[2].name" [] = Ok sample_args.
Proof. apply (path_roundtrip sample_args []). by repeat (split || apply List.Forall_cons || apply List.Forall_nil). Defined.
Lemma path_make_resolve_witness : exists root',
  make sample_args (put (intValue 1)) (objectValue [("list", arrayValue gap_array)]%string) = Ok (tt, root') /\ resolve sample_args root' = Ok (intValue 1).
Proof.
  eexists. split; [vm_compute; reflexivity|].
  apply (path_make_resolve sample_args (objectValue [("list", arrayValue gap_array)]%string)); [..|vm_compute; reflexivity];
    by repeat (split || apply List.Forall_cons || apply List.Forall_nil).
Defined.
