(* ===== verification/JsonParams.v ===== *)
(** * jsoncpp at both ends of a request

    The JSON codecs that [HttpParams], [HostClient] and the Kademlia calls take as
    parameters, discharged with jsoncpp's writer and reader: only libcurl's percent
    encoding is left. *)

From Stdlib Require Import ZArith Lia Bool Ascii String SpecFloat.
From stdpp Require Import base list gmap strings pretty.
From S2P Require Import Prelude Json JsonReader JsonReaderFacts JsonText JsonWriter JsonFacts JsonCodec.
From S2P Require Import HostHandler HttpParams HttpNumbers.
Set Default Goal Selector "!".
Local Open Scope Z_scope.
Local Open Scope drive_scope.

(** percent encoding as documented: no separators in it, and decoded to the text *)
Record url_ok (url_escape url_decode : string -> string) : Prop := {
  url_safe s c : str_mem c "&= " = true -> str_mem c (url_escape s) = false;
  url_nonempty s : s <> EmptyString -> url_escape s <> EmptyString;
  url_decoded s : no_nul s -> url_decode (url_escape s) = s
}.

Section Params.
Context (print_double : real -> list Z) (scan_double : list Z -> option real).
(** the answer of a request, read *)
Definition json_value (text : list Z) : option json :=
  match json_reader scan_double text with (true, v) => Some v | (false, _) => None end.
Lemma json_codec_ok url_escape url_decode : url_ok url_escape url_decode ->
  codec_ok url_escape url_decode (quote_json print_double) (unquote_json scan_double).
Proof using.
  intros [H1 H2 H3]. split; [done|done|done| |].
  - intros s Hs%no_nul_In. split; [by apply no_nul_In, quote_no_nul|]. apply quote_starts.
  - intros s Hs%no_nul_In. by apply quote_unquote.
Qed.

(** a number in decimal is a text of the grammar *)
Lemma pretty_N_go_app n : forall s, pretty_N_go n s = pretty_N_go n EmptyString +:+ s.
Proof using.
  induction (N.lt_wf_0 n) as [n _ IH]. intros s. destruct (decide (n = 0)%N) as [->|Hn]; [done|].
  rewrite (pretty_N_go_step n s), (pretty_N_go_step n EmptyString) by lia. set (c := pretty_N_char (n mod 10)). assert (n / 10 < n)%N as Hl by (apply N.div_lt; lia).
  rewrite (IH _ Hl (String c s)), (IH _ Hl (String c EmptyString)). clear.
  generalize (pretty_N_go (n / 10) EmptyString). intros a. induction a as [|x a IH]; [done|].
  change (String x (a +:+ String c s) = String x ((a +:+ String c EmptyString) +:+ s)). by rewrite IH.
Qed.
Lemma pretty_char_byte d : (d < 10)%N -> ascii_byte (pretty_N_char d) = # "0" + Z.of_N d.
Proof using. intros Hd. destruct (digit_char d Hd) as [_ E]. change (# "0") with 48. lia. Qed.
Lemma pretty_go_decimal n : (0 < n)%N -> decimal (bytes_of_string (pretty_N_go n EmptyString)) (Z.of_N n).
Proof using.
  induction (N.lt_wf_0 n) as [n _ IH]. intros Hn. rewrite pretty_N_go_step by done. rewrite pretty_N_go_app, bytes_of_app.
  pose proof (N.mod_lt n 10 ltac:(lia)) as Hm. pose proof (pretty_char_byte _ Hm) as Eb.
  change (bytes_of_string (String ?c EmptyString)) with [ascii_byte c]. rewrite Eb.
  assert (JsonReader.is_digit (# "0" + Z.of_N (n mod 10)) = true) as Hdig.
  { unfold JsonReader.is_digit. change (# "0") with 48. change (# "9") with 57. apply andb_true_iff. rewrite !Z.leb_le. clear -Hm. set (m := (n mod 10)%N) in *. lia. }
  pose proof (N.div_mod n 10 ltac:(lia)) as Hd. destruct (decide (n / 10 = 0)%N) as [E|E].
  - rewrite E. rewrite pretty_N_go_0. cbn [bytes_of_string list_ascii_of_string map app].
    split; [done|]. split; [by apply Forall_singleton|]. split; [|by cbn; intros ->].
    rewrite dec_value_cons. change (zlen []) with 0. rewrite Z.pow_0_r. unfold dec_value. cbn [fold_left]. lia.
  - destruct (IH (n / 10)%N) as (Hne & Hf & Hv & Hz); [apply N.div_lt; lia|lia|].
    split; [by destruct (bytes_of_string _)|]. split; [apply Forall_app; split; [done|by apply Forall_singleton]|].
    rewrite dec_value_app, Hv. split; [lia|]. intros H0. destruct (bytes_of_string (pretty_N_go (n / 10) "")) as [|c t]; [done|].
    rewrite (Hz H0) in Hv. unfold dec_value in Hv. cbn in Hv. lia.
Qed.
Lemma pretty_decimal n : 0 <= n -> decimal (bytes_of_string (pretty (Z.to_N n))) n.
Proof using.
  intros Hn. unfold pretty, pretty_N. destruct (decide _) as [E|E].
  - assert (n = 0) as -> by lia. split; [done|]. by split; [apply Forall_singleton|].
  - rewrite <- (Z2N.id n) at 2 by done. apply pretty_go_decimal. lia.
Qed.
Lemma json_value_number n : 0 <= n < 4294967290 -> json_value (bytes_of_string (pretty (Z.to_N n))) = Some (JInt n).
Proof using.
  intros Hn. unfold json_value, json_reader. pose proof (pretty_decimal n ltac:(lia)) as Hd. rewrite <- (app_nil_r (bytes_of_string _)).
  rewrite (parse_text _ _ _ (JInt n) _ [] [] (int_text _ _ Hd)); [done|cbn; lia|apply List.Forall_nil..].
Qed.
End Params.

(** ** Percent encoding of every character *)
Lemma sample_url_ok : url_ok percent_escape percent_decode.
Proof. destruct sample_codec_ok as [H1 H2 H3 _ _]. by split. Qed.
