(* ===== verification/Contracts.v ===== *)
(** * Contracts (src/src/bdcontract-lib)

    A contract as JSON text and a directory of contracts, a file for each by its
    name.  Contract::ToString and FromString, ContractRepository's operations over
    the files of [Stdio].  Every directory exists that the constructor asks for,
    unless its name is refused, and a failure to allocate is not modelled. *)

From Stdlib Require Import ZArith Lia Bool Ascii String.
From stdpp Require Import base list gmap strings.
From S2P Require Import Prelude StdMap Json JsonReader JsonText JsonCodec Stdio.
Set Default Goal Selector "!".
Local Open Scope Z_scope.
Local Open Scope drive_scope.

(** class Contract *)
Record contract := mkcontract { cname : string; provider : string; csize : Z; creputation : Z }.
(** the path a C function sees of a [std::string] *)
Definition c_path (s : string) : string := c_string (bytes_of_string s).

Section Contract.
Context (print_double : real -> list Z) (scan_double : list Z -> option real).
Definition contract_json (c : contract) : json :=
  JObject [("name", JString (cname c)); ("provider", JString (provider c));
           ("reputation", JInt (creputation c)); ("size", JInt (u32 (csize c)))]%string.
Definition ToString (c : contract) : string := toStyledString print_double (contract_json c).
(** Contract::FromString: [None] is a null pointer *)
Definition FromString (str : list Z) : outcome (option contract) :=
  let (ok, v) := json_reader scan_double str in
  if negb ok || negb (isObject v) then Ok None
  else if negb (isString (member v "name")) || negb (isString (member v "provider")) ||
          negb (isIntegral (member v "size")) || negb (isIntegral (member v "reputation")) then Ok None
  else
    obind (asString (member v "name")) (fun name =>
    obind (asString (member v "provider")) (fun provider =>
    obind (asUInt (member v "size")) (fun size =>
    obind (asUInt (member v "reputation")) (fun reputation =>
      Ok (Some (mkcontract name provider size reputation)))))).

(** ** ContractRepository *)
(** mkdir of every prefix of the path that ends before a slash, and of the path;
    the first that fails ends it *)
Fixpoint mkpath (done rest : string) (s : filesystem) : bool * filesystem :=
  match rest with
  | EmptyString => if deny s done then (false, s) else (true, Fs.mkdir done s)
  | String c rest =>
      if Ascii.eqb c "/" && negb (empty_str done) then
        if deny s done then (false, s) else mkpath (done +:+ String c EmptyString) rest (Fs.mkdir done s)
      else mkpath (done +:+ String c EmptyString) rest s
  end.
Fixpoint drop_last_slash (s : string) : string :=
  match s with
  | EmptyString => EmptyString
  | String c EmptyString => if Ascii.eqb c "/" then EmptyString else s
  | String c s => String c (drop_last_slash s)
  end.
(** ContractRepository::ContractRepository: the root *)
Definition make (rootPath : option string) : M filesystem string := fun s =>
  match default EmptyString rootPath with
  | EmptyString => Ok ("."%string, s)
  | root =>
      match drop_last_slash root with
      | EmptyString => Fault OutOfBounds (* strchr starts behind the NUL *)
      | root => Ok (root, snd (mkpath EmptyString root s))
      end
  end.

Definition SaveContract (root : string) (c : contract) : M filesystem bool := fun s =>
  let filename := c_path (root +:+ "/" +:+ cname c) in
  match Fs.fopen_trunc filename s with
  | (None, s) => Ok (false, s)
  | (Some file, s) =>
      let str := bytes_of_string (ToString c) in
      obind (Fs.fwrite file 0 str (zlen str) s) (fun '(size, s) => Ok (zlen str <=? size, s))
  end.

Definition BUFSIZ : Z := 8192.
(** the loop of Load: [buffer] is what was read, [size] its room *)
Fixpoint read_loop (fuel : nat) (file : string) (size offset : Z) (buffer : list Z) (s : filesystem) : outcome (list Z) :=
  match fuel with
  | O => OutOfFuel
  | S fuel =>
      let data := Fs.fread file (zlen buffer) (size - offset) s in
      if zlen data =? size - offset
      then read_loop fuel file (size + BUFSIZ) size (buffer ++ data) s
      else Ok (take (Z.to_nat (offset + zlen data)) (buffer ++ data))
  end.
Definition Load (name : string) (s : filesystem) : outcome (option contract) :=
  if empty_str name then Ok None else
  match Fs.fopen_existing (c_path name) s with
  | None => Ok None
  | Some file => obind (read_loop (S (length (Fs.content file s))) file BUFSIZ 0 [] s) FromString
  end.
Definition LoadContract (root : string) (name : option string) (s : filesystem) : outcome (option contract) :=
  match name with
  | None | Some EmptyString => Ok None
  | Some name => Load (root +:+ "/" +:+ name) s
  end.
Definition DeleteContract (root : string) (name : option string) (s : filesystem) : filesystem :=
  match name with
  | None | Some EmptyString => s
  | Some name => Fs.unlink (c_path (root +:+ "/" +:+ name)) s
  end.
(** a regular file directly in the directory, by its name; not the hidden ones *)
Fixpoint strip_prefix (p s : string) : option string :=
  match p, s with
  | EmptyString, s => Some s
  | String c p, String d s => if Ascii.eqb c d then strip_prefix p s else None
  | _, _ => None
  end.
Definition entry_of (root path : string) : option string :=
  match strip_prefix (root +:+ "/") path with
  | Some (String c n) =>
      if str_mem "/" (String c n) || Ascii.eqb c "." then None else Some (String c n)
  | _ => None
  end.
(** in some order, as readdir's *)
Definition GetContractNames (root : string) (s : filesystem) : list string :=
  omap (fun p => entry_of root p.1) (map_to_list (files s)).
End Contract.

(** ** Reading a file to its end *)
Lemma fread_rest file s (buffer rest : list Z) n : Fs.content file s = buffer ++ rest ->
  Fs.fread file (zlen buffer) n s = take (Z.to_nat n) rest.
Proof.
  intros E. unfold Fs.fread, read_at. rewrite E. unfold zlen. rewrite Nat2Z.id. by rewrite drop_app_length.
Qed.
Lemma contract_loop_ok file s fuel : forall buffer rest, Fs.content file s = buffer ++ rest -> (length rest < fuel)%nat ->
  read_loop fuel file (zlen buffer + BUFSIZ) (zlen buffer) buffer s = Ok (Fs.content file s).
Proof.
  induction fuel as [|fuel IH]; intros buffer rest E Hf; [lia|]. cbn [read_loop].
  rewrite (fread_rest _ _ _ rest) by done. replace (zlen buffer + BUFSIZ - zlen buffer) with BUFSIZ by lia.
  destruct (Z.eqb_spec (zlen (take (Z.to_nat BUFSIZ) rest)) BUFSIZ) as [Hl|Hl].
  - set (data := take (Z.to_nat BUFSIZ) rest) in *.
    assert (zlen buffer + BUFSIZ = zlen (buffer ++ data)) as -> by (rewrite zlen_app; lia).
    apply (IH _ (drop (Z.to_nat BUFSIZ) rest)).
    + rewrite E, <- app_assoc. f_equal. symmetry. apply take_drop.
    + rewrite length_drop. assert (0 < length rest)%nat; [|unfold BUFSIZ; lia].
      destruct rest; [|cbn; lia]. by cbn in Hl.
  - assert (length rest < Z.to_nat BUFSIZ)%nat as Hs.
    { unfold zlen in Hl. rewrite length_take in Hl. unfold BUFSIZ in *. lia. }
    rewrite (take_ge rest) by lia. rewrite <- zlen_app, <- E. by rewrite take_ge by (unfold zlen; lia).
Qed.
Lemma read_file file s : read_loop (S (length (Fs.content file s))) file BUFSIZ 0 [] s = Ok (Fs.content file s).
Proof. apply (contract_loop_ok file s _ [] (Fs.content file s)); [done|lia]. Qed.
Lemma c_path_plain s : no_nul s -> c_path s = s.
Proof. intros Hs%no_nul_In. by apply c_string_plain. Qed.

(** ** The repository as a map from names to contracts *)
Definition valid_name (n : string) : Prop := n <> EmptyString /\ no_nul n.
(** contracts whose text gives them back: sizes below 4294967290 *)
Definition valid_contract (c : contract) : Prop :=
  valid_name (cname c) /\ no_nul (provider c) /\ 0 <= csize c < 4294967290 /\ 0 <= creputation c < 4294967290.

Section Repository.
Context (print_double : real -> list Z) (scan_double : list Z -> option real) (root : string).
Hypothesis (Hroot : no_nul root).
Abbreviation path_of n := (root +:+ "/" +:+ n).
Abbreviation text_of c := (bytes_of_string (ToString print_double c)).
Abbreviation load n s := (LoadContract scan_double root (Some n) s).

Lemma path_no_nul n : no_nul n -> no_nul (path_of n).
Proof using Hroot. intros Hn. apply no_nul_app. split; [done|]. by apply (no_nul_app "/" n). Qed.
Lemma path_of_inj n n' : path_of n = path_of n' -> n = n'.
Proof using. intros E%string_app_inj. by injection E. Qed.
Lemma load_ok n s : valid_name n -> deny s (path_of n) = false ->
  load n s = match files s !! path_of n with Some d => FromString scan_double d | None => Ok None end.
Proof using Hroot.
  intros [Hn Hz] Hd. unfold LoadContract. destruct n as [|c n]; [done|]. unfold Load.
  assert (empty_str (path_of (String c n)) = false) as -> by by destruct root.
  rewrite c_path_plain by by apply path_no_nul. unfold Fs.fopen_existing. rewrite Hd.
  destruct (files s !! path_of (String c n)) as [d|] eqn:E; [|done]. rewrite read_file. unfold Fs.content. by rewrite E.
Qed.
Lemma contract_plain c : valid_contract c -> plain (contract_json c).
Proof using.
  intros ((_ & Hn) & Hp & Hs & Hr). unfold contract_json. plain_json; try done; rewrite ?u32_small by (unfold in_u32; lia); lia.
Qed.
Lemma from_to_string c : valid_contract c -> FromString scan_double (text_of c) = Ok (Some c).
Proof using.
  intros Hc. unfold FromString, ToString. rewrite styled_reader by by apply contract_plain.
  destruct Hc as (_ & _ & Hs & Hr). cbn. rewrite u32_small by (unfold in_u32; lia).
  destruct (Z.ltb_spec (csize c) 0); [lia|]. destruct (Z.ltb_spec (creputation c) 0); [lia|]. by destruct c.
Qed.
Lemma write_new (d : list Z) : write_at [] (Z.to_nat 0) d = d.
Proof using. unfold write_at. cbn. by rewrite drop_nil, app_nil_r. Qed.
(** saving a contract that fits leaves its text under its name *)
Lemma save_ok c s : valid_name (cname c) -> deny s (path_of (cname c)) = false -> zlen (text_of c) <= limit s ->
  exists s', SaveContract print_double root c s = Ok (true, s') /\ deny s' = deny s /\
    files s' = <[path_of (cname c) := text_of c]> (files s).
Proof using Hroot.
  intros Hn Hd Hl. pose proof (path_no_nul _ (proj2 Hn)) as Hp.
  unfold SaveContract. rewrite c_path_plain, FsFacts.fopen_trunc_ok by done.
  rewrite (FsFacts.fwrite_ok _ 0 _ _ []) by (done || lia || by cbn; rewrite lookup_insert_eq).
  cbn [obind]. rewrite Z.leb_refl, write_new. eexists. split; [reflexivity|]. split; [done|]. cbn. by rewrite insert_insert_eq.
Qed.
Definition represents (m : gmap string contract) (s : filesystem) : Prop :=
  forall n, valid_name n -> deny s (path_of n) = false /\ load n s = Ok (m !! n).

(** [C19] A directory of contracts is a map from names to contracts: saving one whose
    text fits the disk replaces what was there under its name, deleting removes it,
    and loading finds what the map has. *)
Theorem repository_refines_map (m : gmap string contract) (c : contract) (s : filesystem) :
  represents m s -> valid_contract c -> zlen (text_of c) <= limit s ->
  (exists s', SaveContract print_double root c s = Ok (true, s') /\ represents (<[cname c := c]> m) s') /\
  (forall n, valid_name n -> represents (delete n m) (DeleteContract root (Some n) s)).
Proof using Hroot.
  intros Hm Hc Hl. split.
  - destruct (Hm (cname c) (proj1 Hc)) as [Hd _]. destruct (save_ok c s (proj1 Hc) Hd Hl) as (s' & E & Ed & Ef).
    exists s'. split; [done|]. intros n Hn. destruct (Hm n Hn) as [Hdn Hln]. rewrite <- Ed in Hdn.
    split; [done|]. rewrite load_ok by done. rewrite Ed in Hdn. rewrite load_ok in Hln by done. rewrite Ef.
    destruct (decide (n = cname c)) as [->|Hne].
    + rewrite !lookup_insert_eq. by apply from_to_string.
    + rewrite !lookup_insert_ne; [done|congruence|by intros E'%path_of_inj; congruence..].
  - intros n Hn. unfold DeleteContract. destruct n as [|x n]; [by destruct Hn|]. rewrite c_path_plain by by apply path_no_nul, Hn.
    intros k Hk. destruct (Hm k Hk) as [Hdk Hlk]. split; [done|]. rewrite load_ok by done. rewrite load_ok in Hlk by done.
    cbn [files Fs.unlink Fs.set_files]. destruct (decide (k = String x n)) as [->|Hne].
    + by rewrite !lookup_delete_eq.
    + rewrite !lookup_delete_ne; [done|congruence|by intros E%path_of_inj; congruence].
Qed.

(** A contract over 4294967290 bytes or more, up to 2^32, is saved as text that
    is no contract: saving succeeds and loading gives a null pointer, since the
    reader makes a double of the size. *)
Theorem contract_lost (to_double : Z -> real) (c : contract) (s : filesystem) :
  scans scan_double to_double -> valid_name (cname c) -> no_nul (provider c) -> 0 <= creputation c < 4294967290 ->
  4294967290 <= u32 (csize c) -> deny s (path_of (cname c)) = false -> zlen (text_of c) <= limit s ->
  exists s', SaveContract print_double root c s = Ok (true, s') /\ load (cname c) s' = Ok None.
Proof using Hroot.
  intros Hscan Hn Hp Hr Hs Hd Hl. destruct (save_ok c s Hn Hd Hl) as (s' & E & Ed & Ef). exists s'. split; [done|].
  rewrite load_ok by (done || by rewrite Ed). rewrite Ef, lookup_insert_eq.
  unfold FromString, ToString. rewrite (styled_seen _ _ to_double); [|done|].
  - unfold seen. cbn. unfold kept. destruct (Z.ltb_spec (u32 (csize c)) 4294967290); [lia|]. by rewrite andb_false_r.
  - assert (forall k : string, no_nul k -> ~ In 0 (bytes_of_string k)) as Hkey by by intros k Hk%no_nul_In.
    pose proof (u32_range (csize c)) as Hu. unfold in_u32 in Hu. apply printable_object. split; [by repeat constructor|].
    repeat (apply List.Forall_cons || apply List.Forall_nil); (split; [by apply Hkey|]); cbn; unfold machine; try (by apply Hkey, Hn); try (by apply Hkey); lia.
Qed.
End Repository.

(** GetContractNames lists the files of the directory whose names are plain *)
Lemma strip_prefix_app p s : strip_prefix p (p +:+ s) = Some s.
Proof. induction p as [|c p IH]; [by destruct s|]. change (strip_prefix (String c p) (String c (p +:+ s)) = Some s). cbn. by rewrite Ascii.eqb_refl. Qed.
Lemma strip_prefix_inv p : forall s n, strip_prefix p s = Some n -> s = p +:+ n.
Proof.
  induction p as [|c p IH]; intros s n; [by intros [= ->]|]. destruct s as [|d s]; [done|]. cbn.
  destruct (Ascii.eqb_spec c d) as [->|]; [|done]. intros H%IH. by rewrite H.
Qed.
Lemma contract_names root s n : In n (GetContractNames root s) <->
  is_Some (files s !! (root +:+ "/" +:+ n)) /\ n <> EmptyString /\ str_mem "/" n = false /\ strip_prefix "." n = None.
Proof.
  assert (forall m, (root +:+ "/") +:+ m = root +:+ "/" +:+ m) as Ea by by intros m; rewrite append_assoc.
  unfold GetContractNames. rewrite <- list_elem_of_In, list_elem_of_omap. split.
  - intros ([p d] & Hin & He). apply elem_of_map_to_list in Hin. unfold entry_of in He. cbn [fst] in He.
    destruct (strip_prefix _ p) as [[|c k]|] eqn:E; try done. apply strip_prefix_inv in E. rewrite Ea in E.
    destruct (str_mem "/" (String c k)) eqn:Es; [done|]. destruct (Ascii.eqb_spec c ".") as [->|Hc]; [done|]. cbn [orb] in He. injection He as <-.
    rewrite <- E. split; [by exists d|]. split; [done|]. split; [done|]. cbn [strip_prefix]. destruct (Ascii.eqb_spec "." c); [by subst|done].
  - intros ([d Hd] & Hn & Hs & Hh). exists (root +:+ "/" +:+ n, d). split; [by apply elem_of_map_to_list|].
    unfold entry_of. cbn [fst]. rewrite <- Ea, strip_prefix_app. destruct n as [|c n]; [done|]. rewrite Hs. cbn [orb].
    cbn [strip_prefix] in Hh. destruct (Ascii.eqb_spec c ".") as [->|_]; [by rewrite Ascii.eqb_refl in Hh; destruct n|]. done.
Qed.

(** ** A contract in an empty directory *)
Definition sample_contract (size : Z) : contract := mkcontract "c1" "host a" size 7.
Definition sample_fs : filesystem := mkfs ∅ ∅ (fun _ => false) 4096.
Lemma repository_refines_map_witness :
  (exists s', SaveContract no_print "/var/drive" (sample_contract 1000) sample_fs = Ok (true, s') /\
     represents some_double "/var/drive" {[ "c1"%string := sample_contract 1000 ]} s') /\
  (forall n, valid_name n -> represents some_double "/var/drive" (delete n ∅) (DeleteContract "/var/drive" (Some n) sample_fs)).
Proof.
  apply (repository_refines_map no_print some_double "/var/drive" eq_refl ∅ (sample_contract 1000) sample_fs).
  - intros n Hn. split; [done|]. by rewrite load_ok.
  - split; [by split|]. split; [done|]. cbn. lia.
  - vm_compute. discriminate.
Defined.
Lemma contract_lost_witness : exists s',
  SaveContract no_print "/var/drive" (sample_contract 4294967290) sample_fs = Ok (true, s') /\
  LoadContract some_double "/var/drive" (Some "c1"%string) s' = Ok None.
Proof.
  apply (contract_lost no_print some_double "/var/drive" eq_refl (fun _ => SpecFloat.S754_zero false) (sample_contract 4294967290) sample_fs);
    repeat first [done | split | (vm_compute; discriminate)].
Defined.
