(* ===== verification/ContractTool.v ===== *)
(** * The contract tool (src/src/bdcontract)

    The options and the actions of bdcontract over ContractRepository.  What is
    printed is the second part of a result, the exit code the first; the text of the
    usage message is not modelled. *)

From Stdlib Require Import ZArith Lia Bool Ascii String.
From stdpp Require Import base list gmap strings pretty.
From S2P Require Import Prelude StdMap Json JsonReader JsonText JsonCodec Stdio HostHandler HttpParams HttpNumbers Contracts.
Set Default Goal Selector "!".
Local Open Scope Z_scope.
Local Open Scope drive_scope.

(** ** Options *)
Record options := mkoptions {
  action : string; repo : string; name : string; oprovider : string; size : Z; reputation : Z
}.
Definition no_options : options := mkoptions EmptyString EmptyString EmptyString EmptyString 0 0.
(** strtoull sets errno *)
Definition range_error (s : string) : bool :=
  let digits := match skip_spaces s with String "-" s | String "+" s => s | s => s end in
  2 ^ 64 <=? digits_value 0 digits.
(** [inl]: the exit code after a usage message *)
Fixpoint Init (argv : list string) (o : options) : Z + options :=
  match argv with
  | [] => inr o
  | arg :: argv =>
      if String.eqb arg "-r" then
        match argv with
        | [] => inl 1
        | path :: argv => Init argv (mkoptions (action o) path (name o) (oprovider o) (size o) (reputation o))
        end
      else if String.eqb arg "list" then Init argv (mkoptions arg (repo o) (name o) (oprovider o) (size o) (reputation o))
      else
        match argv with
        | [] => inl 1
        | n :: argv =>
            if String.eqb arg "create" then
              match argv with
              | provider :: mb :: rep :: argv =>
                  if range_error mb || range_error rep then inl 1
                  else Init argv (mkoptions arg (repo o) n provider (u64 (strtoull mb * 1024 * 1024)) (u32 (strtoull rep)))
              | _ => inl 1
              end
            else if negb (String.eqb arg "show") && negb (String.eqb arg "delete") then inl 1
            else Init argv (mkoptions arg (repo o) n (oprovider o) (size o) (reputation o))
        end
  end.

(** ** Actions *)
Definition newline : string := String (ascii_of_nat 10) EmptyString.
Definition decimal_text (n : Z) : string := pretty (Z.to_N n).

Section Tool.
Context (print_double : real -> list Z) (scan_double : list Z -> option real).

Definition load_contract (root name : string) : M filesystem (option contract) :=
  fun s => obind (LoadContract scan_double root (Some (c_path name)) s) (fun c => Ok (c, s)).
Definition Create (root name provider : string) (size reputation : Z) : M filesystem (Z * string) :=
  c <- load_contract root name ;;
  match c with
  | Some _ => ret (-2, "Error: contract already exists." +:+ newline)
  | None =>
      ok <- SaveContract print_double root (mkcontract name provider size reputation) ;;
      if ok : bool then ret (0, EmptyString) else ret (-3, "Error: failed to save contract." +:+ newline)
  end.
Definition ListNames (root : string) : M filesystem (Z * string) := fun s =>
  Ok ((0, fold_right (fun n out => n +:+ newline +:+ out) EmptyString (GetContractNames root s)), s).
Definition shown (name provider : string) (mb reputation : Z) : string :=
  "Name:     " +:+ name +:+ newline +:+ "Provider: " +:+ provider +:+ newline +:+
  "Size:     " +:+ decimal_text mb +:+ " MB" +:+ newline +:+ "Reputation: " +:+ decimal_text reputation +:+ newline.
Definition Show (root name : string) : M filesystem (Z * string) :=
  c <- load_contract root name ;;
  match c with
  | None => ret (-2, "Error: contract not found." +:+ newline)
  | Some c => ret (0, shown (c_path (cname c)) (c_path (provider c)) (csize c / (1024 * 1024)) (creputation c))
  end.
Definition Delete (root name : string) : M filesystem (Z * string) := fun s =>
  Ok ((0, EmptyString), DeleteContract root (Some (c_path name)) s).
Definition main (argv : list string) : M filesystem (Z * string) :=
  match Init argv no_options with
  | inl code => ret (code, EmptyString)
  | inr o =>
      root <- make (Some (c_path (repo o))) ;;
      if String.eqb (action o) "create" then Create root (name o) (oprovider o) (size o) (reputation o)
      else if String.eqb (action o) "list" then ListNames root
      else if String.eqb (action o) "show" then Show root (name o)
      else if String.eqb (action o) "delete" then Delete root (name o)
      else ret (-1, EmptyString)
  end.

(** ** What is created is shown *)
Lemma mkpath_keeps rest : forall done s, let s' := (mkpath done rest s).2 in
  files s' = files s /\ deny s' = deny s /\ limit s' = limit s.
Proof using.
  induction rest as [|c rest IH]; intros done s; cbn.
  - by destruct (deny s done).
  - destruct (_ && _); [|apply IH]. destruct (deny s done); [done|]. by destruct (IH (done +:+ String c EmptyString) (Fs.mkdir done s)) as (-> & -> & ->).
Qed.
(** a root without a slash at its end *)
Definition plain_root (root : string) : Prop := root <> EmptyString /\ no_nul root /\ drop_last_slash root = root.
Lemma make_root_ok root s : plain_root root -> exists s', make (Some root) s = Ok (root, s') /\
  files s' = files s /\ deny s' = deny s /\ limit s' = limit s.
Proof using.
  intros (Hne & _ & Hd). unfold make. destruct root as [|c r]; [done|]. change (default EmptyString (Some (String c r))) with (String c r). cbv beta iota zeta. rewrite Hd.
  eexists. split; [reflexivity|]. apply mkpath_keeps.
Qed.
Lemma represents_files root m s s' : files s' = files s -> deny s' = deny s -> no_nul root ->
  represents scan_double root m s -> represents scan_double root m s'.
Proof using.
  intros Ef Ed Hr Hm n Hn. destruct (Hm n Hn) as [Hd Hl]. split; [by rewrite Ed|].
  rewrite load_ok in * by (done || by rewrite Ed). by rewrite Ef.
Qed.
Lemma size_written mb : u32 (u64 (mb * 1024 * 1024)) = mb mod 4096 * 1048576.
Proof using.
  unfold u32, u64. rewrite Z.mod_mod_divide by by exists (2 ^ 32). replace (mb * 1024 * 1024) with (mb * 1048576) by lia.
  change (2 ^ 32) with (4096 * 1048576). by rewrite Z.mul_mod_distr_r by lia.
Qed.
Lemma size_shown mb : u32 (u64 (mb * 1024 * 1024)) / (1024 * 1024) = mb mod 4096.
Proof using. rewrite size_written. change (1024 * 1024) with 1048576. by rewrite Z.div_mul. Qed.

(** bdcontract create, then show: the contract that was created is shown under
    its name with its provider and reputation, and with its size modulo 4096 MB,
    since only 32 bits of it are written. *)
Theorem created_contract_shown (root n prov mb rep : string) (m : gmap string contract) (s : filesystem) :
  plain_root root -> represents scan_double root m s -> valid_name n -> m !! n = None -> no_nul prov ->
  range_error mb = false -> range_error rep = false -> u32 (strtoull rep) < 4294967290 ->
  let c := mkcontract n prov (u64 (strtoull mb * 1024 * 1024)) (u32 (strtoull rep)) in
  zlen (bytes_of_string (ToString print_double c)) <= limit s ->
  exists s', main ["-r"; root; "create"; n; prov; mb; rep]%string s = Ok ((0, EmptyString), s') /\
    exists s'', main ["-r"; root; "show"; n]%string s' =
      Ok ((0, shown n prov (strtoull mb mod 4096) (u32 (strtoull rep))), s'').
Proof using.
  intros Hroot Hm Hn Hnone Hp Hmb Hrep Hr c Hl. pose proof Hroot as (Hne & Hz & _).
  assert (valid_contract (mkcontract n prov (u32 (csize c)) (u32 (strtoull rep)))) as Hc.
  { pose proof (u32_range (strtoull rep)) as Hu. unfold in_u32 in Hu. pose proof (Z.mod_pos_bound (strtoull mb) 4096 ltac:(lia)).
    split; [done|]. split; [done|]. cbn [csize creputation c]. rewrite size_written. lia. }
  assert (ToString print_double c = ToString print_double (mkcontract n prov (u32 (csize c)) (u32 (strtoull rep)))) as Et.
  { unfold ToString, contract_json. cbn [cname provider csize creputation c]. rewrite (u32_small (u32 _)) by apply u32_range. done. }
  destruct (make_root_ok root s Hroot) as (s1 & E1 & F1 & D1 & L1).
  pose proof (represents_files root m s s1 F1 D1 Hz Hm) as Hm1. destruct (Hm1 n Hn) as [Hd1 Hl1].
  destruct (save_ok print_double root Hz c s1 Hn Hd1 ltac:(by rewrite L1)) as (s2 & E2 & D2 & F2).
  exists s2. split.
  - unfold main. cbn [Init String.eqb Ascii.eqb Bool.eqb]. rewrite Hmb, Hrep. cbn [orb action repo name oprovider size reputation String.eqb Ascii.eqb Bool.eqb].
    rewrite c_path_plain by done. erewrite bind_ok by exact E1. unfold Create, load_contract. rewrite c_path_plain by apply Hn.
    erewrite bind_ok by by rewrite Hl1, Hnone. cbv iota. fold c. by erewrite bind_ok by exact E2.
  - destruct (make_root_ok root s2 Hroot) as (s3 & E3 & F3 & D3 & L3). exists s3.
    unfold main. cbn [Init String.eqb Ascii.eqb Bool.eqb negb andb action repo name oprovider size reputation no_options].
    rewrite c_path_plain by done. erewrite bind_ok by exact E3. unfold Show, load_contract. rewrite c_path_plain by apply Hn.
    erewrite bind_ok; [|rewrite load_ok by (done || by rewrite D3, D2); rewrite F3, F2, lookup_insert_eq, Et;
      by rewrite (from_to_string print_double scan_double _ Hc)].
    cbn [cname provider csize creputation]. rewrite !c_path_plain by (done || apply Hn). unfold ret. cbn [csize c]. by rewrite size_shown.
Qed.
End Tool.

Lemma created_contract_shown_witness : exists s',
  main no_print some_double ["-r"; "/var/drive"; "create"; "c1"; "host"; "5000"; "7"]%string sample_fs = Ok ((0, EmptyString), s') /\
  exists s'', main no_print some_double ["-r"; "/var/drive"; "show"; "c1"]%string s' = Ok ((0, shown "c1" "host" 904 7), s'').
Proof.
  apply (created_contract_shown no_print some_double "/var/drive" "c1" "host" "5000" "7" ∅ sample_fs); try done.
  intros n Hn. split; [done|]. by rewrite load_ok.
Defined.
