(* ===== verification/Cookies.v ===== *)
(** * Cookies (src/src/bdfs-lib/HttpCookies.cpp)

    The cookies of a session: parsing a Set-Cookie header, looking cookies up and
    writing a Cookie header.  [std::equal] needs a second range as long as the first;
    where it is not, the code has no defined behaviour.  The lock and the cookies that
    are never freed are not modelled; an iterator is an index. *)

From Stdlib Require Import ZArith Lia Bool Ascii String.
From stdpp Require Import base list strings.
From S2P Require Import Prelude.
Set Default Goal Selector "!".
Local Open Scope Z_scope.
Local Open Scope drive_scope.

Record cookie := mkcookie {
  name : string; value : string; domain : string; path : string;
  expires : Z; maxAge : Z; httpOnly : bool; secure : bool
}.
(** HttpCookies: the cookies in the order they were set *)
Abbreviation jar := (list cookie).

(** ** Strings *)
Fixpoint upto (c : ascii) (s : string) : string :=
  match s with
  | EmptyString => EmptyString
  | String x s => if Ascii.eqb x c then EmptyString else String x (upto c s)
  end.
(** [strchrnul] *)
Fixpoint from (c : ascii) (s : string) : string :=
  match s with
  | EmptyString => EmptyString
  | String x s' => if Ascii.eqb x c then s else from c s'
  end.
Fixpoint skip_blanks (s : string) : string :=
  match s with
  | String c s' => if Ascii.eqb c " " then skip_blanks s' else s
  | EmptyString => s
  end.
(** [while ( *(++str) == ' ')] *)
Definition after_next (s : string) : string := match s with String _ s => skip_blanks s | EmptyString => EmptyString end.
Definition tolower (c : ascii) : ascii :=
  let n := ascii_byte c in if (65 <=? n) && (n <=? 90) then byte_ascii (n + 32) else c.
Fixpoint lower (s : string) : string := match s with String c s => String (tolower c) (lower s) | EmptyString => EmptyString end.
(** [std::equal(a.begin(), a.end(), b.begin())] and [... b.end() - a.size()] *)
Definition equal_front (a b : string) : outcome bool :=
  if str_size b <? str_size a then Fault OutOfBounds else Ok (String.prefix a b).
Definition equal_back (a b : string) : outcome bool :=
  if str_size b <? str_size a then Fault OutOfBounds
  else Ok (String.eqb a (String.substring (String.length b - String.length a) (String.length a) b)).

(** ** HttpCookies *)
Definition same_key (n d p : string) (c : cookie) : bool := String.eqb (name c) n && String.eqb (domain c) d && String.eqb (path c) p.
(** __Delete *)
Definition Delete (n d p : string) (cookies : jar) : jar := List.filter (fun c => negb (same_key n d p c)) cookies.
(** the constructor takes httpOnly before secure *)
Definition Set_ (n v d p : string) (expires maxAge : Z) (secure httpOnly : bool) (cookies : jar) : jar :=
  Delete n d p cookies ++ [mkcookie n v d p expires maxAge secure httpOnly].
Definition with_domain (d : string) (c : cookie) := mkcookie (name c) (value c) d (path c) (expires c) (maxAge c) (httpOnly c) (secure c).
Definition with_path (p : string) (c : cookie) := mkcookie (name c) (value c) (domain c) p (expires c) (maxAge c) (httpOnly c) (secure c).
Definition set_option (optionName optionValue : string) (c : cookie) : outcome cookie :=
  if String.eqb optionName "domain" then
    obind (equal_back optionValue (domain c)) (fun e => Ok (if e : bool then with_domain optionValue c else c))
  else if String.eqb optionName "path" then
    obind (equal_front optionValue (path c)) (fun e => Ok (if e : bool then with_path optionValue c else c))
  else if String.eqb optionName "max-age" then Ok (mkcookie (name c) (value c) (domain c) (path c) (expires c) 0 (httpOnly c) (secure c))
  else if String.eqb optionName "expires" then Ok (mkcookie (name c) (value c) (domain c) (path c) 0 (maxAge c) (httpOnly c) (secure c))
  else Ok c.
Definition set_flag (option : string) (c : cookie) : cookie :=
  if String.eqb option "http-only" then mkcookie (name c) (value c) (domain c) (path c) (expires c) (maxAge c) true (secure c)
  else if String.eqb option "secure" then mkcookie (name c) (value c) (domain c) (path c) (expires c) (maxAge c) (httpOnly c) true
  else c.
(** the options; [str] starts at a semicolon or is at its end *)
Fixpoint set_options (fuel : nat) (str : string) (c : cookie) : outcome cookie :=
  match str with
  | EmptyString => Ok c
  | String _ _ =>
      match fuel with
      | O => OutOfFuel
      | S fuel =>
          let str := after_next str in
          let semi := from ";" str in
          obind (if (String.length semi <? String.length (from "=" str))%nat
                 then set_option (lower (upto "=" str)) (upto ";" (after_next (from "=" str))) c
                 else Ok (set_flag (lower (upto ";" str)) c))
            (set_options fuel semi)
      end
  end.
Definition Set_raw (str actualDomain actualPath : string) (cookies : jar) : outcome jar :=
  match from "=" str with
  | EmptyString => Ok cookies
  | equals =>
      let n := upto "=" str in
      let rest := after_next equals in
      obind (set_options (String.length str) (from ";" rest) (mkcookie n (upto ";" rest) actualDomain actualPath 0 0 false false))
        (fun c => Ok (Delete n (domain c) (path c) cookies ++ [c]))
  end.

(** the cookies of a request: [n] empty for any name *)
Definition matches (d p : string) (c : cookie) : outcome bool :=
  obind (if empty_str (domain c) then Ok true else equal_back (domain c) d) (fun e =>
  if negb e then Ok false else if empty_str (path c) then Ok true else equal_front (path c) p).
Definition wanted (n d p : string) (c : cookie) : outcome bool :=
  if empty_str n || String.eqb (name c) n then matches d p c else Ok false.
(** __Find: the index of the first cookie from [begin] on, or that of the end *)
Fixpoint Find_from (n d p : string) (i : nat) (cookies : jar) : outcome nat :=
  match cookies with
  | [] => Ok i
  | c :: cookies => obind (wanted n d p c) (fun w => if w : bool then Ok i else Find_from n d p (S i) cookies)
  end.
Definition FindFirst (n d p : string) (cookies : jar) : outcome nat := Find_from n d p 0 cookies.
Definition FindNext (it : nat) (n d p : string) (cookies : jar) : outcome nat :=
  if (length cookies <=? it)%nat then Fault OutOfBounds else Find_from n d p (S it) (drop (S it) cookies).
Definition shown (c : cookie) : string := name c +:+ "=" +:+ value c +:+ ";".
Fixpoint Format (d p : string) (cookies : jar) : outcome string :=
  match cookies with
  | [] => Ok EmptyString
  | c :: cookies =>
      obind (matches d p c) (fun m => obind (Format d p cookies) (fun rest => Ok (if m : bool then shown c +:+ rest else rest)))
  end.

(** ** One cookie for a name, domain and path *)
Definition key (c : cookie) : string * string * string := (name c, domain c, path c).
Definition one_per_key (cookies : jar) : Prop := NoDup (map key cookies).
Lemma same_key_spec n d p c : same_key n d p c = true <-> key c = (n, d, p).
Proof.
  unfold same_key, key. rewrite !andb_true_iff, !String.eqb_eq. split; [by intros [[-> ->] ->]|by intros [= -> -> ->]].
Qed.
Lemma delete_none n d p cookies : ~ In (n, d, p) (map key (Delete n d p cookies)).
Proof.
  unfold Delete. rewrite in_map_iff. intros (c & Hk & Hin). apply filter_In in Hin as [_ Hn].
  apply same_key_spec in Hk. by rewrite Hk in Hn.
Qed.
Lemma delete_keeps n d p cookies : one_per_key cookies -> one_per_key (Delete n d p cookies).
Proof.
  unfold one_per_key, Delete. induction cookies as [|c l IH]; [done|]. cbn. rewrite NoDup_cons. intros [Hc Hl].
  destruct (negb _); cbn; [|auto]. apply NoDup_cons. split; [|auto]. intros Hin. apply Hc.
  apply list_elem_of_In, in_map_iff in Hin as (c' & Hk & Hin). apply filter_In in Hin as [Hin _].
  apply list_elem_of_In, in_map_iff. by exists c'.
Qed.
Lemma added_keeps c cookies : one_per_key cookies -> one_per_key (Delete (name c) (domain c) (path c) cookies ++ [c]).
Proof.
  intros Hc. unfold one_per_key. rewrite map_app. apply NoDup_app. split; [by apply delete_keeps|].
  split; [|apply NoDup_singleton]. intros k Hk Hin%list_elem_of_singleton. subst k. apply (delete_none (name c) (domain c) (path c) cookies).
  by apply list_elem_of_In.
Qed.
Lemma option_keeps_name o v c c' : set_option o v c = Ok c' -> name c' = name c.
Proof.
  unfold set_option. repeat (destruct (String.eqb o _)); try (by intros [= <-]).
  - destruct (equal_back _ _) as [[]| |]; cbn; by intros [= <-].
  - destruct (equal_front _ _) as [[]| |]; cbn; by intros [= <-].
Qed.
Lemma flag_keeps_name o c : name (set_flag o c) = name c.
Proof. unfold set_flag. by repeat (destruct (String.eqb o _)). Qed.
Lemma options_keep_name fuel : forall str c c', set_options fuel str c = Ok c' -> name c' = name c.
Proof.
  induction fuel as [|fuel IH]; intros [|x str] c c'; cbn [set_options]; try done; try (by intros [= <-]).
  destruct (if (_ <? _)%nat then _ else _) as [c1| |] eqn:E; cbn [obind]; [|done..]. intros H%IH. rewrite H.
  destruct (_ <? _)%nat; [by apply option_keeps_name in E|]. injection E as <-. apply flag_keeps_name.
Qed.

(** The jar never has two cookies with the same name, domain and path: setting a
    cookie, from a header or from its parts, replaces the one there is, whatever the
    header says, and deleting keeps the rest. *)
Theorem jar_one_per_key (cookies : jar) : one_per_key cookies ->
  (forall str d p cookies', Set_raw str d p cookies = Ok cookies' -> one_per_key cookies') /\
  (forall n v d p e m s h, one_per_key (Set_ n v d p e m s h cookies)) /\
  (forall n d p, one_per_key (Delete n d p cookies)).
Proof.
  intros Hc. split; [|split].
  - intros str d p cookies'. unfold Set_raw. destruct (from "=" str) as [|x s]; [by intros [= <-]|].
    destruct (set_options _ _ _) as [c| |] eqn:E; cbn [obind]; [|done..]. intros [= <-].
    apply options_keep_name in E. cbn in E. rewrite <- E. by apply added_keeps.
  - intros n v d p e m s h. exact (added_keeps (mkcookie n v d p e m s h) cookies Hc).
  - intros n d p. by apply delete_keeps.
Qed.

(** ** A header that is set is sent back *)
Definition no_blank (s : string) : Prop := match s with String c _ => Ascii.eqb c " " = false | EmptyString => True end.
Definition clean (s : string) : Prop := str_mem ";" s = false /\ no_blank s.
Lemma upto_stop c s rest : str_mem c s = false -> upto c (s +:+ String c rest) = s.
Proof.
  induction s as [|x s IH]; cbn [str_mem]; [change ("" +:+ ?t) with t; cbn; by rewrite Ascii.eqb_refl|]. intros [Hx Hs]%orb_false_iff.
  change (upto c (String x (s +:+ String c rest)) = String x s). cbn. rewrite Hx. f_equal. auto.
Qed.
Lemma from_stop c s rest : str_mem c s = false -> from c (s +:+ String c rest) = String c rest.
Proof.
  induction s as [|x s IH]; cbn [str_mem]; [change ("" +:+ ?t) with t; cbn; by rewrite Ascii.eqb_refl|]. intros [Hx Hs]%orb_false_iff.
  change (from c (String x (s +:+ String c rest)) = String c rest). cbn. rewrite Hx. auto.
Qed.
Lemma upto_end c s : str_mem c s = false -> upto c s = s.
Proof. induction s as [|x s IH]; cbn; [done|]. intros [Hx Hs]%orb_false_iff. rewrite Hx. f_equal. auto. Qed.
Lemma from_end c s : str_mem c s = false -> from c s = EmptyString.
Proof. induction s as [|x s IH]; cbn; [done|]. intros [Hx Hs]%orb_false_iff. rewrite Hx. auto. Qed.
Lemma skip_no_blank s rest : no_blank s -> no_blank rest -> skip_blanks (s +:+ rest) = s +:+ rest.
Proof.
  destruct s as [|c s]; [intros _; change ("" +:+ rest) with rest; destruct rest; cbn; [done|by intros ->]|]. cbn [no_blank]. intros Hc _.
  change (skip_blanks (String c (s +:+ rest)) = String c (s +:+ rest)). cbn. by rewrite Hc.
Qed.
(** the options of a header: a semicolon and a blank before each *)
Fixpoint options_text (options : list (string * string)) : string :=
  match options with
  | [] => EmptyString
  | (k, v) :: options => "; " +:+ k +:+ "=" +:+ v +:+ options_text options
  end.
Fixpoint apply_options (options : list (string * string)) (c : cookie) : outcome cookie :=
  match options with
  | [] => Ok c
  | (k, v) :: options => obind (set_option (lower k) v c) (apply_options options)
  end.
Definition option_ok (o : string * string) : Prop := clean o.1 /\ str_mem "=" o.1 = false /\ clean o.2.
Lemma options_text_start options : match options_text options with String ";" _ | EmptyString => True | _ => False end.
Proof. destruct options as [|[k v] options]; done. Qed.
Lemma upto_semi s options : str_mem ";" s = false -> upto ";" (s +:+ options_text options) = s.
Proof.
  intros Hs. destruct options as [|[k v] options]; [cbn [options_text]; rewrite append_nil_r; by apply upto_end|].
  exact (upto_stop ";" s _ Hs).
Qed.
Lemma from_semi s options : str_mem ";" s = false -> from ";" (s +:+ options_text options) = options_text options.
Proof.
  intros Hs. destruct options as [|[k v] options]; [cbn [options_text]; rewrite append_nil_r; by apply from_end|].
  exact (from_stop ";" s _ Hs).
Qed.
Lemma no_blank_text options : no_blank (options_text options).
Proof. by destruct options as [|[k v] options]. Qed.
Lemma set_options_ok options : forall fuel c, Forall option_ok options -> (length options <= fuel)%nat ->
  set_options fuel (options_text options) c = apply_options options c.
Proof.
  induction options as [|[k v] options IH]; intros fuel c Hf Hl; [by destruct fuel|].
  apply Forall_cons in Hf as [([Hk1 Hk2] & Hk3 & [Hv1 Hv2]) Hf]. cbn in Hk1, Hk2, Hk3, Hv1, Hv2, Hl. destruct fuel as [|fuel]; [lia|].
  change (options_text ((k, v) :: options)) with (String ";" (String " " (k +:+ String "=" (v +:+ options_text options)))).
  set (rest := v +:+ options_text options). assert (forall c s, Ascii.eqb c " " = true -> after_next (String ";" (String c s)) = skip_blanks s) as En.
  { intros x s Hx. unfold after_next. cbn [skip_blanks]. by rewrite Hx. }
  assert (after_next (String ";" (String " " (k +:+ String "=" rest))) = k +:+ String "=" rest) as Ea by by rewrite En, skip_no_blank.
  cbn [set_options apply_options]. rewrite Ea. unfold rest in *. clear En Ea rest.
  assert (str_mem ";" (k +:+ "=" +:+ v) = false) as Hs.
  { rewrite str_mem_app, Hk1. change (str_mem ";" ("=" +:+ v)) with (str_mem ";" v). done. }
  assert (from ";" (k +:+ String "=" (v +:+ options_text options)) = options_text options) as ->.
  { rewrite <- (from_semi _ options Hs) at 2. by rewrite !append_assoc. }
  rewrite from_stop, upto_stop by done. unfold after_next at 1. cbn [String.length]. rewrite length_append.
  destruct (Nat.ltb_spec (String.length (options_text options)) (S (String.length v + String.length (options_text options)))); [|lia].
  rewrite skip_no_blank, upto_semi by (done || apply no_blank_text).
  destruct (set_option (lower k) v c) as [c'| |]; cbn [obind]; [|done..]. apply IH; [done|lia].
Qed.
Lemma Set_raw_ok n v options d p cookies : str_mem "=" n = false -> clean v -> Forall option_ok options ->
  Set_raw (n +:+ "=" +:+ v +:+ options_text options) d p cookies =
    obind (apply_options options (mkcookie n v d p 0 0 false false)) (fun c => Ok (Delete n (domain c) (path c) cookies ++ [c])).
Proof.
  intros Hn [Hv1 Hv2] Hf. unfold Set_raw. change ("=" +:+ v +:+ options_text options) with (String "=" (v +:+ options_text options)).
  rewrite from_stop, upto_stop by done. unfold after_next. rewrite skip_no_blank, upto_semi, from_semi by (done || apply no_blank_text).
  rewrite set_options_ok; [done|done|]. rewrite length_append. cbn [String.length]. rewrite length_append.
  clear. induction options as [|[k v'] options IH]; [cbn; lia|].
  change (options_text ((k, v') :: options)) with (String ";" (String " " (k +:+ String "=" (v' +:+ options_text options)))).
  cbn [String.length length]. rewrite length_append. cbn [String.length]. rewrite length_append. lia.
Qed.
Lemma substring_back x s : String.substring (String.length x) (String.length s) (x +:+ s) = s.
Proof. induction x as [|c x IH]; [by apply substring_all|]. exact IH. Qed.
Lemma equal_back_ok s x : equal_back s (x +:+ s) = Ok true.
Proof.
  unfold equal_back. rewrite str_size_app. destruct (Z.ltb_spec (str_size x + str_size s) (str_size s)); [unfold str_size in *; lia|].
  rewrite length_append. replace (String.length x + String.length s - String.length s)%nat with (String.length x) by lia.
  by rewrite substring_back, String.eqb_refl.
Qed.
Lemma prefix_app s y : String.prefix s (s +:+ y) = true.
Proof. induction s as [|c s IH]; [by destruct y|]. change (String.prefix (String c s) (String c (s +:+ y)) = true). cbn. by destruct (ascii_dec c c) as [_|[]]. Qed.
Lemma equal_front_ok s y : equal_front s (s +:+ y) = Ok true.
Proof.
  unfold equal_front. rewrite str_size_app. destruct (Z.ltb_spec (str_size s + str_size y) (str_size s)); [unfold str_size in *; lia|].
  by rewrite prefix_app.
Qed.
Lemma matches_ok c x y : matches (x +:+ domain c) (path c +:+ y) c = Ok true.
Proof.
  unfold matches. rewrite equal_back_ok, equal_front_ok. destruct (empty_str (domain c)), (empty_str (path c)); reflexivity.
Qed.
Lemma Format_last d p c l before : Format d p l = Ok before -> matches d p c = Ok true -> Format d p (l ++ [c]) = Ok (before +:+ shown c).
Proof.
  intros Hl Hc. revert before Hl. induction l as [|c' l IH]; cbn [Format app]; intros before.
  - intros [= <-]. rewrite Hc. cbn [obind]. change ("" +:+ shown c) with (shown c). by rewrite append_nil_r.
  - destruct (matches d p c') as [m| |]; cbn [obind]; [|done..]. destruct (Format d p l) as [b| |]; cbn [obind]; [|done..].
    intros [= <-]. rewrite (IH b) by done. cbn [obind]. destruct m; [|done]. by rewrite append_assoc.
Qed.

(** A cookie that a host sets with a domain and a path, which are a suffix of the
    host's and a prefix of the page's, goes into the jar under them, and every later
    request to that domain and path sends its name and value, after the other
    cookies that match. *)
Theorem set_cookie_sent_back (n v d p x y x' y' before : string) (cookies : jar) :
  str_mem "=" n = false -> clean v -> clean d -> clean p ->
  Format (x' +:+ d) (p +:+ y') (Delete n d p cookies) = Ok before ->
  exists cookies', Set_raw (n +:+ "=" +:+ v +:+ "; Domain=" +:+ d +:+ "; Path=" +:+ p) (x +:+ d) (p +:+ y) cookies = Ok cookies' /\
    Format (x' +:+ d) (p +:+ y') cookies' = Ok (before +:+ n +:+ "=" +:+ v +:+ ";").
Proof.
  intros Hn Hv Hd Hp Hb. set (c := mkcookie n v d p 0 0 false false).
  exists (Delete n d p cookies ++ [c]). split; [|exact (Format_last _ _ c _ _ Hb (matches_ok c x' y'))].
  pose proof (Set_raw_ok n v [("Domain", d); ("Path", p)]%string (x +:+ d) (p +:+ y) cookies Hn Hv) as E.
  cbn [options_text] in E. rewrite append_nil_r in E. etransitivity; [apply E|].
  - repeat (apply List.Forall_cons || apply List.Forall_nil); (split; [by split|by split]).
  - cbn [apply_options]. change (lower "Domain") with "domain"%string. change (lower "Path") with "path"%string.
    unfold set_option. cbn [String.eqb Ascii.eqb Bool.eqb domain path]. rewrite equal_back_ok. cbn [obind with_domain domain path].
    rewrite equal_front_ok. done.
Qed.
(** a cookie whose domain is longer than the request's is compared out of bounds *)
Lemma longer_domain_undefined d p c cookies : str_size d < str_size (domain c) -> Format d p (c :: cookies) = Fault OutOfBounds.
Proof.
  intros Hl. cbn [Format]. unfold matches, equal_back. destruct (empty_str (domain c)) eqn:E.
  - destruct (domain c); [|done]. unfold str_size in Hl. cbn in Hl. lia.
  - by rewrite (proj2 (Z.ltb_lt _ _) Hl).
Qed.
(** the arguments [secure] and [httpOnly] are swapped *)
Lemma set_swaps_flags n v d p : Set_ n v d p 0 0 true false [] = [mkcookie n v d p 0 0 true false] /\
  httpOnly (mkcookie n v d p 0 0 true false) = true.
Proof. done. Qed.

Definition sample_jar : jar := [mkcookie "id" "1" "drive.io" "/" 0 0 false false].
Lemma sample_one_per_key : one_per_key sample_jar.
Proof. apply NoDup_singleton. Qed.
Lemma jar_one_per_key_witness :
  (forall str d p cookies', Set_raw str d p sample_jar = Ok cookies' -> one_per_key cookies') /\
  (forall n v d p e m s h, one_per_key (Set_ n v d p e m s h sample_jar)) /\
  (forall n d p, one_per_key (Delete n d p sample_jar)).
Proof. exact (jar_one_per_key sample_jar sample_one_per_key). Defined.
Lemma set_cookie_sent_back_witness : exists cookies',
  Set_raw "sid=77; Domain=drive.io; Path=/api" "a.drive.io" "/api/host" sample_jar = Ok cookies' /\
  Format "b.drive.io" "/api/host/x" cookies' = Ok "id=1;sid=77;"%string.
Proof.
  apply (set_cookie_sent_back "sid" "77" "drive.io" "/api" "a." "/host" "b." "/host/x" "id=1;" sample_jar); by repeat split.
Defined.
