(* ===== verification/Protocol.v ===== *)
(** * Messages between bdfs and the client daemon
    (src/src/bdfsclient-lib/BdProtocol.h, src/src/bdfs-lib/UnixDomainSocket.cpp)

    A message is a packed header - its length, its type and a count of parameters in
    one byte - then for a response a status, then the parameters, each ended by a
    NUL.  A socket gives a message in pieces of any size. *)

From Stdlib Require Import ZArith Lia Bool Ascii String.
From stdpp Require Import base list strings.
From S2P Require Import Prelude Json JsonReader JsonText.
Set Default Goal Selector "!".
Local Open Scope Z_scope.
Local Open Scope drive_scope.

(** bdcp::T, any byte on the wire *)
Definition BIND : Z := 0.
Definition UNBIND : Z := 1.
Definition RESPONSE : Z := 2.
Definition QUERY_VOLUMEINFO : Z := 3.
(** sizeof(BdResponse) and sizeof(BdRequest) *)
Definition struct_size (type : Z) : Z := if type =? RESPONSE then 7 else 6.

(** stores into the buffer, at least one byte each *)
Definition store (pos : Z) (data buf : list Z) : outcome (list Z) :=
  if pos + zlen data <=? zlen buf then Ok (write_at buf (Z.to_nat pos) data) else Fault OutOfBounds.
(** [strncpy(p, arg.c_str(), n)]: the string and zeros up to [n] bytes *)
Definition strncpy (arg : string) (n : Z) : list Z :=
  let s := take (Z.to_nat n) (c_bytes (bytes_of_string arg)) in s ++ replicate (Z.to_nat n - length s) 0.

Definition total_size (type : Z) (args : list string) : Z :=
  fold_left (fun size arg => u32 (size + u64 (str_size arg + 1))) args (struct_size type).
Fixpoint store_args (pos : Z) (args : list string) (buf : list Z) : outcome (list Z) :=
  match args with
  | [] => Ok buf
  | arg :: args =>
      obind (store pos (strncpy arg (str_size arg + 1)) buf) (store_args (u32 (pos + (str_size arg + 1))) args)
  end.
Definition Create (type : Z) (args : list string) (status : Z) : outcome (list Z) :=
  let size := total_size type args in
  let buf := replicate (Z.to_nat size) 0 in
  obind (store 4 [type] buf) (fun buf =>
  obind (store 0 (le_split 4 size) buf) (fun buf =>
  obind (store 5 [u8 (zlen args)] buf) (fun buf =>
  obind (if type =? RESPONSE then store 6 [status] buf else Ok buf) (fun buf =>
    store_args (struct_size type) args buf)))).

(** reads of the buffer *)
Definition byte_at (i : Z) (buf : list Z) : outcome Z :=
  match buf !! Z.to_nat i with Some b => Ok b | None => Fault OutOfBounds end.
Definition length_of (buf : list Z) : Z := le_combine (take 4 buf).
(** [string(p + pos)]: up to the NUL, which must be in the buffer *)
Definition string_at (pos : Z) (buf : list Z) : outcome string :=
  let rest := drop (Z.to_nat pos) buf in
  if existsb (Z.eqb 0) rest then Ok (c_string rest) else Fault OutOfBounds.
Fixpoint parse_args (count : nat) (pos : Z) (buf : list Z) : outcome (list string) :=
  match count with
  | O => Ok []
  | S count =>
      obind (string_at pos buf) (fun str =>
      obind (parse_args count (u32 (pos + (str_size str + 1))) buf) (fun args => Ok (str :: args)))
  end.
Definition Parse (buf : list Z) : outcome (list string) :=
  obind (byte_at 4 buf) (fun type =>
  obind (byte_at 5 buf) (fun paramCount =>
    parse_args (Z.to_nat paramCount) (struct_size type) buf)).

(** ** Sockets *)
(** what the following calls of recv find: some bytes, or a failure or a timeout *)
Inductive arrival :=
| Data (bytes : list Z)
| Failed.
(** recv: its result, the bytes and what is left *)
Definition Recv (nbytes : nat) (incoming : list arrival) : Z * list Z * list arrival :=
  match incoming with
  | [] => (0, [], [])
  | Failed :: rest => (-1, [], rest)
  | Data l :: rest =>
      if (length l <=? nbytes)%nat then (zlen l, l, rest)
      else (Z.of_nat nbytes, take nbytes l, Data (drop nbytes l) :: rest)
  end.
(** UnixDomainSocket::RecvMessage; [recved] is what was read *)
Fixpoint recv_loop (fuel : nat) (recved : list Z) (messageLength : nat) (n : Z) (incoming : list arrival)
  : outcome (Z * list Z * list arrival) :=
  if (messageLength <=? length recved)%nat then Ok (if n <=? 0 then n else zlen recved, recved, incoming)
  else
    match fuel with
    | O => OutOfFuel
    | S fuel =>
        let '(n, bytes, incoming) := Recv (messageLength - length recved) incoming in
        if n <=? 0 then Ok (n, recved, incoming)
        else recv_loop fuel (recved ++ bytes) messageLength n incoming
    end.
Definition RecvMessage (messageLength : nat) (incoming : list arrival) : outcome (Z * list Z * list arrival) :=
  recv_loop messageLength [] messageLength 0 incoming.
(** UnixDomainSocket::SendMessage: the results of the calls of send are given *)
Fixpoint send_loop (results : list Z) (sent n : Z) (message : list Z) : option Z :=
  if zlen message <=? sent then Some (if n <=? 0 then n else sent)
  else
    match results with
    | [] => None
    | n :: results => if n <=? 0 then Some n else send_loop results (sent + n) n message
    end.
Definition SendMessage (results : list Z) (message : list Z) : option Z := send_loop results 0 0 message.

(** ** What is created is parsed *)
Definition body_of (args : list string) : list Z := concat (map (fun a => bytes_of_string a ++ [0]) args).
Definition message (type : Z) (args : list string) (status : Z) : list Z :=
  le_split 4 (struct_size type + zlen (body_of args)) ++ [type; u8 (zlen args)] ++
  (if type =? RESPONSE then [status] else []) ++ body_of args.
(** parameters without NULs that fit a message *)
Definition fits (type : Z) (args : list string) : Prop :=
  Forall no_nul args /\ struct_size type + zlen (body_of args) < 2 ^ 32.

Lemma c_bytes_plain s : no_nul s -> c_bytes (bytes_of_string s) = bytes_of_string s.
Proof.
  intros Hs%no_nul_In. apply c_bytes_no_nul, Forall_forall. intros c Hc%list_elem_of_In ->. done.
Qed.
Lemma body_cons a args : body_of (a :: args) = (bytes_of_string a ++ [0]) ++ body_of args.
Proof. done. Qed.
Lemma strncpy_plain a : no_nul a -> strncpy a (str_size a + 1) = bytes_of_string a ++ [0].
Proof.
  intros Ha. unfold strncpy. rewrite c_bytes_plain by done. pose proof (length_bytes_of_string a) as El.
  unfold str_size. rewrite take_ge by lia. replace (Z.to_nat _ - _)%nat with 1%nat by lia. done.
Qed.
Lemma store_here pre d k : store (zlen pre) d (pre ++ replicate (length d + k) 0) = Ok (pre ++ d ++ replicate k 0).
Proof.
  unfold store. rewrite zlen_app. unfold zlen at 4. rewrite length_replicate.
  destruct (Z.leb_spec (zlen pre + zlen d) (zlen pre + Z.of_nat (length d + k))); [|unfold zlen in *; lia].
  f_equal. unfold zlen. rewrite Nat2Z.id. unfold write_at. rewrite length_app, length_replicate.
  replace (length pre - (length pre + (length d + k)))%nat with 0%nat by lia. cbn [replicate]. rewrite app_nil_r, take_app_length.
  do 2 f_equal. rewrite drop_app_ge by lia. replace (length pre + length d - length pre)%nat with (length d) by lia.
  rewrite drop_replicate. f_equal. lia.
Qed.
Lemma size_ok args : forall size, Forall no_nul args -> 0 <= size -> size + zlen (body_of args) < 2 ^ 32 ->
  fold_left (fun size arg => u32 (size + u64 (str_size arg + 1))) args size = size + zlen (body_of args).
Proof.
  induction args as [|a args IH]; intros size Hf H0 Hs; [cbn; unfold zlen; cbn; lia|].
  apply Forall_cons in Hf as [Ha Hf]. cbn [fold_left]. rewrite body_cons, !zlen_app, zlen_bytes_of_string in *. change (zlen [0]) with 1 in *.
  pose proof (zlen_nonneg (body_of args)). unfold str_size in *.
  rewrite u64_small by (unfold in_u64; lia). rewrite u32_small by (unfold in_u32; lia).
  rewrite (IH (size + (Z.of_nat (String.length a) + 1))) by (done || lia). lia.
Qed.
Lemma store_args_ok args : forall pre, Forall no_nul args -> zlen pre + zlen (body_of args) < 2 ^ 32 ->
  store_args (zlen pre) args (pre ++ replicate (length (body_of args)) 0) = Ok (pre ++ body_of args).
Proof.
  induction args as [|a args IH]; intros pre Hf Hs; [done|]. apply Forall_cons in Hf as [Ha Hf]. cbn [store_args].
  rewrite strncpy_plain, body_cons by done. rewrite (length_app (bytes_of_string a ++ [0])), store_here. cbn [obind].
  rewrite body_cons, zlen_app in Hs. set (d := bytes_of_string a ++ [0]) in *.
  assert (str_size a + 1 = zlen d) as -> by (unfold d; by rewrite zlen_app, zlen_bytes_of_string).
  pose proof (zlen_nonneg pre). pose proof (zlen_nonneg d). pose proof (zlen_nonneg (body_of args)).
  rewrite u32_small by (unfold in_u32; lia). rewrite <- zlen_app, app_assoc, IH; [by rewrite <- app_assoc|done|rewrite zlen_app; lia].
Qed.
Lemma struct_size_pos type : struct_size type = 6 + (if type =? RESPONSE then 1 else 0).
Proof. unfold struct_size. by destruct (type =? RESPONSE). Qed.
Lemma Create_ok type args status : fits type args -> Create type args status = Ok (message type args status).
Proof.
  intros [Hf Hs]. pose proof (zlen_nonneg (body_of args)). pose proof (struct_size_pos type) as Ess.
  unfold Create, total_size. rewrite (size_ok args (struct_size type)) by (done || destruct (type =? RESPONSE); lia).
  set (size := struct_size type + zlen (body_of args)) in *. unfold message. fold size.
  set (tail := (if type =? RESPONSE then 1 else 0) + zlen (body_of args)).
  assert (replicate (Z.to_nat size) 0 = replicate 4 0 ++ replicate (1 + (1 + Z.to_nat tail)) 0) as ->.
  { rewrite <- replicate_add. f_equal. unfold tail, size. destruct (type =? RESPONSE); lia. }
  change 4 with (zlen (replicate 4 0)) at 1. rewrite (store_here (replicate 4 0) [type]). cbn [obind].
  assert (replicate 4 0 ++ [type] ++ replicate (1 + Z.to_nat tail) 0 = [] ++ replicate 4 0 ++ [type] ++ replicate (1 + Z.to_nat tail) 0) as -> by done.
  assert (store 0 (le_split 4 size) ([] ++ replicate 4 0 ++ [type] ++ replicate (1 + Z.to_nat tail) 0) =
    Ok (le_split 4 size ++ [type] ++ replicate (1 + Z.to_nat tail) 0)) as ->.
  { unfold store. rewrite app_nil_l. pose proof (length_le_split 4 size) as El.
    assert (zlen (le_split 4 size) = 4) as Ez by (unfold zlen; lia). rewrite Ez.
    rewrite zlen_app. change (zlen (replicate 4 0)) with 4. pose proof (zlen_nonneg ([type] ++ replicate (1 + Z.to_nat tail) 0)).
    destruct (Z.leb_spec (0 + 4) (4 + zlen ([type] ++ replicate (1 + Z.to_nat tail) 0))); [|lia]. done. }
  cbn [obind]. rewrite app_assoc. set (pre := le_split 4 size ++ [type]).
  assert (zlen pre = 5) as Ep by (unfold pre, zlen; rewrite length_app, length_le_split; done).
  rewrite <- Ep at 1. rewrite (store_here pre [u8 (zlen args)]). cbn [obind]. rewrite app_assoc.
  set (pre2 := pre ++ [u8 (zlen args)]). assert (zlen pre2 = 6) as Ep2 by (unfold pre2; rewrite zlen_app, Ep; done).
  assert (le_split 4 size ++ [type; u8 (zlen args)] ++ (if type =? RESPONSE then [status] else []) ++ body_of args =
    (pre2 ++ (if type =? RESPONSE then [status] else [])) ++ body_of args) as ->.
  { unfold pre2, pre. by rewrite <- !app_assoc. }
  unfold tail. destruct (type =? RESPONSE) eqn:Et.
  - replace (Z.to_nat (1 + zlen (body_of args))) with (1 + length (body_of args))%nat by (unfold zlen; lia).
    rewrite <- Ep2 at 1. rewrite (store_here pre2 [status]). cbn [obind]. rewrite app_assoc.
    replace (struct_size type) with (zlen (pre2 ++ [status])) by (rewrite zlen_app, Ep2, Ess; done).
    apply store_args_ok; [done|]. rewrite zlen_app, Ep2. unfold size in Hs. rewrite Ess in Hs. change (zlen [status]) with 1. lia.
  - replace (Z.to_nat (0 + zlen (body_of args))) with (length (body_of args)) by (unfold zlen; lia). cbn [obind]. rewrite app_nil_r.
    replace (struct_size type) with (zlen pre2) by lia. apply store_args_ok; [done|]. rewrite Ep2. unfold size in Hs. lia.
Qed.

Lemma string_at_ok pre a rest : no_nul a -> string_at (zlen pre) (pre ++ (bytes_of_string a ++ [0]) ++ rest) = Ok a.
Proof.
  intros Ha. unfold string_at. unfold zlen. rewrite Nat2Z.id, drop_app_length, <- app_assoc. cbn [app].
  assert (existsb (Z.eqb 0) (bytes_of_string a ++ 0 :: rest) = true) as ->.
  { apply existsb_exists. exists 0. split; [apply in_or_app; right; by left|done]. }
  f_equal. unfold c_string. rewrite <- (string_of_bytes_of_string a) at 2. f_equal.
  apply no_nul_In in Ha. induction (bytes_of_string a) as [|c l IH]; [done|]. cbn.
  destruct (Z.eqb_spec c 0) as [->|_]; [by destruct Ha; left|]. f_equal. apply IH. intros H. apply Ha. by right.
Qed.
Lemma parse_args_ok n : forall args pre, Forall no_nul args -> zlen pre + zlen (body_of args) < 2 ^ 32 -> (n <= length args)%nat ->
  parse_args n (zlen pre) (pre ++ body_of args) = Ok (take n args).
Proof.
  induction n as [|n IH]; [done|]. intros [|a args] pre Hf Hs Hn; [cbn in Hn; lia|]. apply Forall_cons in Hf as [Ha Hf].
  cbn [parse_args]. rewrite body_cons in *. rewrite string_at_ok by done. cbn [obind]. set (d := bytes_of_string a ++ [0]) in *.
  assert (str_size a + 1 = zlen d) as -> by (unfold d; by rewrite zlen_app, zlen_bytes_of_string). rewrite zlen_app in Hs.
  pose proof (zlen_nonneg pre). pose proof (zlen_nonneg d). pose proof (zlen_nonneg (body_of args)).
  rewrite u32_small by (unfold in_u32; lia). rewrite <- zlen_app, app_assoc. rewrite IH; [done|done|rewrite zlen_app; lia|cbn in Hn; lia].
Qed.
Lemma message_split type args status : exists pre, message type args status = pre ++ body_of args /\ zlen pre = struct_size type.
Proof.
  unfold message. eexists. rewrite !app_assoc. split; [reflexivity|]. rewrite !zlen_app.
  unfold zlen at 1. rewrite length_le_split. rewrite struct_size_pos. by destruct (type =? RESPONSE).
Qed.
Lemma message_type type args status : byte_at 4 (message type args status) = Ok type.
Proof.
  unfold byte_at, message. change (Z.to_nat 4) with 4%nat. rewrite lookup_app_r by (by rewrite length_le_split).
  by rewrite length_le_split.
Qed.
Lemma message_count type args status : byte_at 5 (message type args status) = Ok (u8 (zlen args)).
Proof.
  unfold byte_at, message. change (Z.to_nat 5) with 5%nat. rewrite lookup_app_r by (rewrite length_le_split; lia).
  by rewrite length_le_split.
Qed.
Lemma zlen_message type args status : zlen (message type args status) = struct_size type + zlen (body_of args).
Proof. destruct (message_split type args status) as (pre & -> & E). by rewrite zlen_app, E. Qed.
Lemma message_length type args status : fits type args -> length_of (message type args status) = zlen (message type args status).
Proof.
  intros [_ Hs]. rewrite zlen_message. unfold length_of, message. pose proof (zlen_nonneg (body_of args)). pose proof (struct_size_pos type) as E.
  rewrite take_app_le by (by rewrite length_le_split). rewrite take_ge by (by rewrite length_le_split).
  rewrite le_combine_split. apply Z.mod_small. change (2 ^ (8 * Z.of_nat 4)) with (2 ^ 32). destruct (type =? RESPONSE); lia.
Qed.
Lemma Parse_message type args status : fits type args -> Parse (message type args status) = Ok (take (Z.to_nat (u8 (zlen args))) args).
Proof.
  intros [Hf Hs]. unfold Parse. rewrite message_type. cbn [obind]. rewrite message_count. cbn [obind].
  destruct (message_split type args status) as (pre & -> & E). rewrite <- E. apply parse_args_ok; [done|lia|].
  unfold u8, zlen. pose proof (Z.mod_le (Z.of_nat (length args)) (2 ^ 8) ltac:(lia) ltac:(lia)). lia.
Qed.

(** What [Create] makes of a type and parameters without NULs, as long as the
    message stays below 4 GiB, is as long as its header says, keeps the type, and
    [Parse] gives the parameters back: all of them up to 255, and of more only as
    many as their number modulo 256. *)
Theorem message_roundtrip (type : Z) (args : list string) (status : Z) : fits type args ->
  exists buf, Create type args status = Ok buf /\ length_of buf = zlen buf /\ byte_at 4 buf = Ok type /\
    Parse buf = Ok (take (Z.to_nat (zlen args mod 256)) args).
Proof.
  intros Hf. exists (message type args status). split; [by apply Create_ok|]. split; [by apply message_length|].
  split; [apply message_type|by apply Parse_message].
Qed.
Lemma message_roundtrip_witness : exists buf, Create RESPONSE ["vol"; "/dev/nbd0"] 1 = Ok buf /\ length_of buf = zlen buf /\
  byte_at 4 buf = Ok RESPONSE /\ Parse buf = Ok ["vol"; "/dev/nbd0"]%string.
Proof. apply (message_roundtrip RESPONSE ["vol"; "/dev/nbd0"]%string 1). split; [by repeat constructor|done]. Defined.

(** ** Messages over a socket *)
Definition stream (incoming : list arrival) : list Z := concat (map (fun a => match a with Data l => l | Failed => [] end) incoming).
Definition flowing (a : arrival) : Prop := match a with Data [] | Failed => False | Data _ => True end.
Lemma recv_loop_ok fuel : forall recved len n incoming, Forall flowing incoming -> (len - length recved <= fuel)%nat ->
  (length recved <= len)%nat -> (len <= length recved + length (stream incoming))%nat -> (0 < n \/ (length recved < len)%nat) ->
  exists rest, recv_loop fuel recved len n incoming = Ok (Z.of_nat len, recved ++ take (len - length recved) (stream incoming), rest) /\
    Forall flowing rest /\ stream rest = drop (len - length recved) (stream incoming).
Proof.
  induction fuel as [|fuel IH]; intros recved len n incoming Hf Hfuel Hle Hs Hn.
  - assert (len = length recved) as -> by lia. cbn [recv_loop]. rewrite Nat.leb_refl, Nat.sub_diag. cbn [take drop]. rewrite app_nil_r.
    destruct (Z.leb_spec n 0); [lia|]. by exists incoming.
  - cbn [recv_loop]. destruct (Nat.leb_spec len (length recved)) as [Hd|Hd].
    { assert (len = length recved) as -> by lia. rewrite Nat.sub_diag. cbn [take drop]. rewrite app_nil_r.
      destruct (Z.leb_spec n 0); [lia|]. by exists incoming. }
    destruct incoming as [|[l|] incoming]; [cbn in Hs; lia| |by apply Forall_cons in Hf as [[] _]].
    apply Forall_cons in Hf as [Hl Hf]. cbn in Hl. assert (0 < length l)%nat by (destruct l; [done|cbn; lia]). unfold Recv.
    change (stream (Data l :: incoming)) with (l ++ stream incoming) in *. rewrite length_app in Hs.
    destruct (Nat.leb_spec (length l) (len - length recved)) as [Hc|Hc].
    + destruct (Z.leb_spec (zlen l) 0); [unfold zlen in *; lia|].
      destruct (IH (recved ++ l) len (zlen l) incoming) as (rest & -> & Hr & Es); [done|rewrite length_app; lia..|left; unfold zlen; lia|].
      exists rest. rewrite length_app, Nat.sub_add_distr in *. rewrite <- app_assoc, take_app_ge, drop_app_ge by lia. done.
    + destruct (Z.leb_spec (Z.of_nat (len - length recved)) 0); [lia|]. set (k := (len - length recved)%nat) in *.
      assert (length (take k l) = k) as Ek by (rewrite length_take; lia).
      destruct (IH (recved ++ take k l) len (Z.of_nat k) (Data (drop k l) :: incoming)) as (rest & -> & Hr & Es);
        [|rewrite length_app; lia..| |].
      * apply Forall_cons. split; [|done]. cbn. destruct (drop k l) eqn:E; [|done]. apply (f_equal length) in E. rewrite length_drop in E. cbn in E. lia.
      * rewrite length_app, Ek. unfold k. lia.
      * exists rest. change (stream (Data (drop k l) :: incoming)) with (drop k l ++ stream incoming) in *.
        rewrite length_app, Ek in *. replace (len - (length recved + k))%nat with 0%nat in * by lia. cbn [take drop] in *.
        rewrite app_nil_r. rewrite take_app_le, drop_app_le by lia. done.
Qed.
Lemma RecvMessage_ok len incoming : Forall flowing incoming -> (0 < len <= length (stream incoming))%nat ->
  exists rest, RecvMessage len incoming = Ok (Z.of_nat len, take len (stream incoming), rest) /\
    Forall flowing rest /\ stream rest = drop len (stream incoming).
Proof.
  intros Hf Hl. destruct (recv_loop_ok len [] len 0 incoming Hf) as (rest & E & Hr & Es); [cbn; lia..|right; cbn; lia|].
  cbn [app length] in *. rewrite Nat.sub_0_r in *. by exists rest.
Qed.
