(* ===== verification/UnixSocket.v ===== *)
(** * Sockets between bdfs and the daemon (src/src/bdfs-lib/UnixDomainSocket.cpp)

    Connecting, listening and accepting, and the descriptors that are open meanwhile.
    The system calls are parameters, with what they do to the table of descriptors as
    their laws.  Messages on a connected socket are those of [Protocol]. *)

From Stdlib Require Import ZArith Lia Bool Ascii String.
From stdpp Require Import base list gmap strings.
From S2P Require Import Prelude Json Protocol.
Set Default Goal Selector "!".
Local Open Scope Z_scope.
Local Open Scope drive_scope.

Definition AF_LOCAL : Z := 1.
Definition SOL_SOCKET : Z := 1.
Definition SCM_RIGHTS : Z := 1.
Definition O_NONBLOCK : Z := 2048.
Definition EAGAIN : Z := 11.
Definition EINPROGRESS : Z := 115.
(** FD_SETSIZE, and the size of sun_path *)
Definition FD_SETSIZE : Z := 1024.
Definition SUN_PATH_SIZE : nat := 108.
(** a control message: length, level, type and data *)
Record cmsghdr := mkcmsg { cmsg_len : Z; cmsg_level : Z; cmsg_type : Z; cmsg_data : list Z }.
(** CMSG_LEN(sizeof(int)) *)
Definition INT_CMSG_LEN : Z := 20.

(** ** System calls *)
(** -1 is a failure; [connect] comes with errno, [getsockopt] with SO_ERROR, and
    [recvmsg] with the first control message, if there is one *)
Class Kernel (E : Type) := {
  socket : M E Z;
  fcntl_getfl : Z -> M E Z;
  fcntl_setfl : Z -> Z -> M E Z;
  select_write : Z -> option Z -> M E Z;
  select_read : Z -> option Z -> M E Z;
  connect : Z -> list Z -> M E (Z * Z);
  getsockopt_error : Z -> M E (Z * Z);
  usleep : Z -> M E unit;
  unlink : list Z -> M E unit;
  bind_socket : Z -> list Z -> M E Z;
  listen : Z -> Z -> M E Z;
  accept4 : Z -> M E Z;
  shutdown : Z -> Z -> M E unit;
  close : Z -> M E unit;
  sendmsg : Z -> cmsghdr -> M E Z;
  recvmsg : Z -> M E (Z * option cmsghdr)
}.

(** ** UnixDomainSocket *)
(** the member, and the system *)
Record usock (E : Type) := mkusock { socketFd : Z; sys : E }.
Arguments mkusock {E}.
Arguments socketFd {E}.
Arguments sys {E}.

(** "\0/blocdrive/usp/" as an array, with the NUL that ends it *)
Definition UNIX_SOC_PREFIX : list Z := 0 :: bytes_of_string "/blocdrive/usp/" ++ [0].
(** [strcat] behind the first [off] bytes *)
Definition strcat (off : nat) (buf : list Z) (s : string) : outcome (list Z) :=
  let e := (off + length (c_bytes (drop off buf)))%nat in
  store (Z.of_nat e) (c_bytes (bytes_of_string s) ++ [0]) buf.
(** bzero, memcpy and strcat: the bytes of a sockaddr_un *)
Definition server_address (uuid : string) : outcome (list Z) :=
  obind (store 0 UNIX_SOC_PREFIX (replicate SUN_PATH_SIZE 0)) (fun path =>
  obind (strcat 1 path uuid) (fun path => Ok (le_split 2 AF_LOCAL ++ path))).
(** [size_t serverAddrLen = sizeof(serverAddrLen)], and what bind and connect read of
    an address of this length *)
Definition serverAddrLen : nat := 8.
Definition passed (addr : list Z) : list Z := take serverAddrLen addr.

Section Sockets.
Context {E : Type} `{Kernel E}.
Abbreviation U := (usock E).
Definition on_sys {A} (m : M E A) : M U A := fun u => obind (m (sys u)) (fun '(a, e) => Ok (a, mkusock (socketFd u) e)).
Definition set_fd (fd : Z) : M U unit := modify (fun u => mkusock fd (sys u)).

Definition SetNonBlock (fd : Z) (nonBlock : bool) : M E bool :=
  flags <- fcntl_getfl fd ;;
  if flags <? 0 then ret false else
  r <- fcntl_setfl fd (if nonBlock then Z.lor flags O_NONBLOCK else Z.land flags (Z.lnot O_NONBLOCK)) ;;
  ret (0 <=? r).
(** FD_SET: a bit of an array of FD_SETSIZE bits *)
Definition FD_SET (fd : Z) : M E unit := if (0 <=? fd) && (fd <? FD_SETSIZE) then ret tt else fail OutOfBounds.
Definition wait_time (timeout : Z) : option Z := if 0 <=? timeout then Some timeout else None.
Definition WaitSendReady (fd timeout : Z) : M E bool :=
  FD_SET fd ;;; r <- select_write fd (wait_time timeout) ;; ret (0 <? r).
Definition WaitRecvReady (fd timeout : Z) : M E bool :=
  FD_SET fd ;;; r <- select_read fd (wait_time timeout) ;; ret (0 <? r).

(** how the loop of Connect ends *)
Inductive attempt := Connected | InProgress | Refused.
Fixpoint connect_loop (fuel : nat) (fd : Z) (addr : list Z) (timeout retry : Z) : M E attempt :=
  match fuel with
  | O => nofuel
  | S fuel =>
      pat! (r, errno) <- connect fd addr ;;
      if negb (r =? -1) then ret Connected else
      let last := if errno =? EINPROGRESS then InProgress else Refused in
      if (0 <=? timeout) && (errno =? EAGAIN) then
        if 2 ^ 31 <=? timeout * 10 then fail IntegerOverflow
        else if retry + 1 <? timeout * 10 then usleep 100000 ;;; connect_loop fuel fd addr timeout (retry + 1)
        else ret last
      else ret last
  end.
(** from SetNonBlock to Cleanup: whether [fd] is connected *)
Definition connect_fd (fd : Z) (uuid : string) (timeout : Z) : M E bool :=
  nonBlock <- SetNonBlock fd true ;;
  if negb nonBlock then ret false else
  addr <- lift (server_address uuid) ;;
  a <- connect_loop (S (Z.to_nat (timeout * 10))) fd (passed addr) timeout 0 ;;
  match a with
  | Refused => ret false
  | _ =>
      ready <- WaitSendReady fd timeout ;;
      if negb ready then ret false else
      match a with
      | InProgress => pat! (r, err) <- getsockopt_error fd ;; ret ((r =? 0) && (err =? 0))
      | _ => ret true
      end
  end.
Definition Connect (uuid : option string) (timeout : Z) : M U bool :=
  match uuid with
  | None => ret false
  | Some uuid =>
      connectFd <- on_sys socket ;;
      if connectFd =? -1 then ret false else
      success <- on_sys (connect_fd connectFd uuid timeout) ;;
      if success : bool then set_fd connectFd ;;; ret true else on_sys (close connectFd) ;;; ret false
  end.

Definition Listen (uuid : option string) (listenLength : Z) : M U bool :=
  match uuid with
  | None => ret false
  | Some uuid =>
      listenFd <- on_sys socket ;;
      if listenFd =? -1 then ret false else
      addr <- lift (server_address uuid) ;;
      on_sys (unlink (c_bytes (drop 2 addr))) ;;;
      r <- on_sys (bind_socket listenFd (passed addr)) ;;
      if r =? -1 then on_sys (close listenFd) ;;; ret false else
      r <- on_sys (listen listenFd listenLength) ;;
      if r =? -1 then on_sys (close listenFd) ;;; ret false else
      set_fd listenFd ;;; ret true
  end.
(** the descriptor of the new socket *)
Definition Accept : M U (option Z) :=
  u <- get ;;
  clientFd <- on_sys (accept4 (socketFd u)) ;;
  if clientFd =? -1 then ret None else
  nonBlock <- on_sys (SetNonBlock clientFd true) ;;
  ret (if nonBlock : bool then Some clientFd else None).
Definition Shutdown (flag : Z) : M U unit :=
  u <- get ;; if socketFd u =? -1 then ret tt else on_sys (shutdown (socketFd u) flag).
Definition Close : M U unit :=
  u <- get ;; if socketFd u =? -1 then ret tt else on_sys (close (socketFd u)) ;;; set_fd (-1).

Definition SendFd (sendFd timeout : Z) : M U bool :=
  u <- get ;;
  ready <- on_sys (WaitSendReady (socketFd u) timeout) ;;
  if negb ready then ret false else
  r <- on_sys (sendmsg (socketFd u) (mkcmsg INT_CMSG_LEN SOL_SOCKET SCM_RIGHTS (le_split 4 sendFd))) ;;
  ret (r =? 1).
(** its result, and what is written to [*recvFd], if anything is *)
Definition RecvFd (timeout : Z) : M U (bool * option Z) :=
  u <- get ;;
  ready <- on_sys (WaitRecvReady (socketFd u) timeout) ;;
  if negb ready then ret (false, None) else
  pat! (readLength, cm) <- on_sys (recvmsg (socketFd u)) ;;
  if readLength <=? 0 then ret (false, None) else
  match cm with
  | Some cm =>
      if cmsg_len cm =? INT_CMSG_LEN then
        if negb (cmsg_level cm =? SOL_SOCKET) || negb (cmsg_type cm =? SCM_RIGHTS) then ret (false, None)
        else ret (true, Some (to_signed 4 (le_combine (take 4 (cmsg_data cm)))))
      else ret (false, Some (-1))
  | None => ret (false, Some (-1))
  end.

(** ClientManager::Start, the thread that listens: the sockets it sends to the loop *)
Fixpoint accept_loop (fuel : nat) : M U (list Z) :=
  match fuel with
  | O => nofuel
  | S fuel =>
      socket <- Accept ;;
      match socket with
      | None => ret []
      | Some fd => fds <- accept_loop fuel ;; ret (fd :: fds)
      end
  end.
End Sockets.

(** ** Names *)
Lemma prefix_stored : store 0 UNIX_SOC_PREFIX (replicate SUN_PATH_SIZE 0) = Ok (UNIX_SOC_PREFIX ++ replicate 91 (0:Z)).
Proof. vm_compute. reflexivity. Qed.
(** a name of up to 91 characters fits, a longer one is written past the address *)
Lemma server_address_ok uuid : server_address uuid =
  if (length (c_bytes (bytes_of_string uuid)) <=? 91)%nat
  then Ok (le_split 2 AF_LOCAL ++ take 16 UNIX_SOC_PREFIX ++ c_bytes (bytes_of_string uuid) ++
           replicate (92 - length (c_bytes (bytes_of_string uuid))) 0)
  else Fault OutOfBounds.
Proof.
  unfold server_address, strcat. rewrite prefix_stored. cbn [obind]. set (u := c_bytes (bytes_of_string uuid)).
  assert ((1 + length (c_bytes (drop 1 (UNIX_SOC_PREFIX ++ replicate 91 (0:Z)))))%nat = 16%nat) as -> by (vm_compute; reflexivity).
  assert (UNIX_SOC_PREFIX ++ replicate 91 (0:Z) = take 16 UNIX_SOC_PREFIX ++ replicate 92 (0:Z)) as -> by (vm_compute; reflexivity).
  set (pre := take 16 UNIX_SOC_PREFIX). assert (length pre = 16%nat) as Lp by done. assert (zlen pre = 16) as Zp by done.
  change (Z.of_nat 16) with 16. rewrite <- Zp. destruct (Nat.leb_spec (length u) 91) as [Hu|Hu].
  - replace 92%nat with (length (u ++ [0:Z]) + (91 - length u))%nat at 1 by (rewrite length_app; cbn; lia).
    rewrite store_here. cbn [obind]. do 3 f_equal. rewrite <- app_assoc. f_equal.
    replace (92 - length u)%nat with (S (91 - length u)) by lia. done.
  - unfold store. rewrite !zlen_app, Zp. unfold zlen. rewrite length_replicate. cbn [length]. rewrite (proj2 (Z.leb_gt _ _)) by lia. done.
Qed.
(** [sizeof(serverAddrLen)] is the size of the variable and not of the address: of the
    name only six bytes are passed, the same for every name *)
Lemma one_address (uuid : string) (addr : list Z) : server_address uuid = Ok addr ->
  passed addr = [1; 0] ++ 0 :: bytes_of_string "/bloc".
Proof.
  rewrite server_address_ok. destruct (_ <=? _)%nat; [|done]. intros [= <-]. unfold passed, serverAddrLen. reflexivity.
Qed.

(** ** Descriptors *)
Class KernelLaws (E : Type) `{Kernel E} := {
  opened : E -> gset Z;
  socket_opens e r e' : socket e = Ok (r, e') -> if r =? -1 then opened e' = opened e else r ∉ opened e /\ opened e' = {[r]} ∪ opened e;
  accept_opens fd e r e' : accept4 fd e = Ok (r, e') -> if r =? -1 then opened e' = opened e else r ∉ opened e /\ opened e' = {[r]} ∪ opened e;
  close_closes fd e u e' : close fd e = Ok (u, e') -> opened e' = opened e ∖ {[fd]};
  getfl_keeps fd e r e' : fcntl_getfl fd e = Ok (r, e') -> opened e' = opened e;
  setfl_keeps fd f e r e' : fcntl_setfl fd f e = Ok (r, e') -> opened e' = opened e;
  select_write_keeps fd t e r e' : select_write fd t e = Ok (r, e') -> opened e' = opened e;
  connect_keeps fd a e r e' : connect fd a e = Ok (r, e') -> opened e' = opened e;
  getsockopt_keeps fd e r e' : getsockopt_error fd e = Ok (r, e') -> opened e' = opened e;
  usleep_keeps n e r e' : usleep n e = Ok (r, e') -> opened e' = opened e;
  unlink_keeps p e r e' : unlink p e = Ok (r, e') -> opened e' = opened e;
  bind_keeps fd a e r e' : bind_socket fd a e = Ok (r, e') -> opened e' = opened e;
  listen_keeps fd n e r e' : listen fd n e = Ok (r, e') -> opened e' = opened e
}.
#[export] Hint Resolve getfl_keeps setfl_keeps select_write_keeps connect_keeps getsockopt_keeps usleep_keeps unlink_keeps bind_keeps listen_keeps : sockets.

Section Descriptors.
Context {E : Type} `{KernelLaws E}.
(** code that opens and closes nothing *)
Definition keeps {A} (m : M E A) : Prop := forall e r e', m e = Ok (r, e') -> opened e' = opened e.
Lemma keeps_ret {A} (a : A) : keeps (ret a).
Proof. by intros e r e' [= _ <-]. Qed.
Lemma keeps_fail {A} f : keeps (fail f : M E A).
Proof. done. Qed.
Lemma keeps_lift {A} (o : outcome A) : keeps (lift o).
Proof. by intros e r e' [_ ->]%lift_inv. Qed.
Lemma keeps_bind {A B} (m : M E A) (k : A -> M E B) : keeps m -> (forall a, keeps (k a)) -> keeps (bind m k).
Proof. intros Hm Hk e r e' (a & e1 & H1 & H2)%bind_inv. rewrite (Hk a e1 r e' H2). by eapply Hm. Qed.
Lemma keeps_call {A} (m : M E A) : (forall e r e', m e = Ok (r, e') -> opened e' = opened e) -> keeps m.
Proof. done. Qed.
#[local] Ltac keeps := repeat first
  [ apply keeps_ret | apply keeps_fail | apply keeps_lift | apply keeps_bind; [|intros ?]
  | match goal with |- keeps (if ?b then _ else _) => destruct b | |- keeps (match ?x with _ => _ end) => destruct x end
  | by apply keeps_call; eauto with sockets ].
Lemma keeps_nonblock fd b : keeps (SetNonBlock fd b).
Proof. unfold SetNonBlock. keeps. Qed.
Lemma keeps_wait fd t : keeps (WaitSendReady fd t).
Proof. unfold WaitSendReady, FD_SET. keeps. Qed.
Lemma keeps_connect_loop fuel fd addr timeout : forall retry, keeps (connect_loop fuel fd addr timeout retry).
Proof. induction fuel as [|fuel IH]; intros retry; [by intros e r e'|]. cbn [connect_loop]. keeps. apply IH. Qed.
Lemma keeps_connect_fd fd uuid timeout : keeps (connect_fd fd uuid timeout).
Proof.
  unfold connect_fd. apply keeps_bind; [apply keeps_nonblock|intros b]. destruct (negb b); [apply keeps_ret|].
  apply keeps_bind; [apply keeps_lift|intros a]. apply keeps_bind; [apply keeps_connect_loop|intros c].
  destruct c; [..|apply keeps_ret]; (apply keeps_bind; [apply keeps_wait|intros w]); keeps.
Qed.
Lemma on_sys_inv {A} (m : M E A) (u u' : usock E) a : on_sys m u = Ok (a, u') -> exists e, m (sys u) = Ok (a, e) /\ u' = mkusock (socketFd u) e.
Proof. unfold on_sys. destruct (m (sys u)) as [[a' e]| |]; [|done..]. intros [= <- <-]. by exists e. Qed.
(** a descriptor that was opened and is closed again *)
Lemma opened_again (X : gset Z) fd : fd ∉ X -> ({[fd]} ∪ X) ∖ {[fd]} = X.
Proof. set_solver. Qed.
(** what is open when a call that makes a socket is over *)
Definition descriptors (u u' : usock E) (r : bool) : Prop :=
  if r then socketFd u' ∉ opened (sys u) /\ opened (sys u') = {[socketFd u']} ∪ opened (sys u)
  else socketFd u' = socketFd u /\ opened (sys u') = opened (sys u).
Lemma closed_again (u u' : usock E) e fd a : fd ∉ opened (sys u) -> opened e = {[fd]} ∪ opened (sys u) ->
  (on_sys (close fd) ;;; ret false) (mkusock (socketFd u) e) = Ok (a, u') -> descriptors u u' a.
Proof.
  intros Hn Ho (x & u1 & H1 & H2)%bind_inv. injection H2 as <- <-. apply on_sys_inv in H1 as (e1 & H1 & ->). apply close_closes in H1.
  cbn in H1. split; [done|]. cbn. by rewrite H1, Ho, opened_again.
Qed.
Lemma Connect_descriptors uuid timeout u r u' : Connect uuid timeout u = Ok (r, u') -> descriptors u u' r.
Proof.
  unfold Connect. destruct uuid as [uuid|]; [|by intros [= <- <-]]. intros (fd & u1 & H1 & H2)%bind_inv.
  apply on_sys_inv in H1 as (e1 & H1 & ->). apply socket_opens in H1. destruct (fd =? -1); [by injection H2 as <- <-|].
  destruct H1 as [Hn Ho]. apply bind_inv in H2 as (b & u2 & H2 & H3). apply on_sys_inv in H2 as (e2 & H2 & ->).
  apply keeps_connect_fd in H2. cbn [sys socketFd] in *. rewrite Ho in H2. destruct b.
  - injection H3 as <- <-. by split.
  - by apply (closed_again u u' e2 fd r).
Qed.
Lemma Listen_descriptors uuid n u r u' : Listen uuid n u = Ok (r, u') -> descriptors u u' r.
Proof.
  unfold Listen. destruct uuid as [uuid|]; [|by intros [= <- <-]]. intros (fd & u1 & H1 & H2)%bind_inv.
  apply on_sys_inv in H1 as (e1 & H1 & ->). apply socket_opens in H1. destruct (fd =? -1); [by injection H2 as <- <-|].
  destruct H1 as [Hn Ho]. apply bind_inv in H2 as (addr & u2 & H2 & H3). apply lift_inv in H2 as [_ ->].
  apply bind_inv in H3 as ([] & u3 & H3 & H4). apply on_sys_inv in H3 as (e3 & H3 & ->). apply unlink_keeps in H3.
  apply bind_inv in H4 as (b & u4 & H4 & H5). apply on_sys_inv in H4 as (e4 & H4 & ->). apply bind_keeps in H4. cbn [sys socketFd] in *.
  destruct (b =? -1); [apply (closed_again u u' e4 fd r); [done|congruence|done]|].
  apply bind_inv in H5 as (l & u5 & H5 & H6). apply on_sys_inv in H5 as (e5 & H5 & ->). apply listen_keeps in H5. cbn [sys socketFd] in *.
  destruct (l =? -1); [apply (closed_again u u' e5 fd r); [done|congruence|done]|].
  injection H6 as <- <-. split; [done|]. cbn. congruence.
Qed.
Lemma Close_descriptors u u' : Close u = Ok (tt, u') -> socketFd u' = -1 /\
  opened (sys u') = if socketFd u =? -1 then opened (sys u) else opened (sys u) ∖ {[socketFd u]}.
Proof.
  unfold Close. cbn. destruct (Z.eqb_spec (socketFd u) (-1)) as [Ef|Hne]; [by intros [= <-]|].
  intros ([] & u1 & H1 & H2)%bind_inv. apply on_sys_inv in H1 as (e1 & H1 & ->). apply close_closes in H1. by injection H2 as <-.
Qed.

(** The socket that Connect makes is open when it succeeds, under the number the
    object keeps, and closed again when it fails, whatever failed: nothing else is
    opened or closed, and Close after it gives back the descriptors there were before.
    The same is so for Listen. *)
Theorem sockets_close (uuid : option string) (timeout listenLength : Z) (u u1 u2 : usock E) (r : bool) :
  Connect uuid timeout u = Ok (r, u1) \/ Listen uuid listenLength u = Ok (r, u1) ->
  descriptors u u1 r /\ (r = true -> socketFd u1 <> -1 -> Close u1 = Ok (tt, u2) -> opened (sys u2) = opened (sys u)).
Proof.
  intros Hc. assert (descriptors u u1 r) as Hd by (destruct Hc as [Hc|Hc]; [by eapply Connect_descriptors|by eapply Listen_descriptors]).
  split; [done|]. intros -> Hne (_ & ->)%Close_descriptors. destruct Hd as [Hn ->].
  rewrite (proj2 (Z.eqb_neq _ _)) by done. by apply opened_again.
Qed.

(** ** Connect returns *)
Definition returns {W A} (m : M W A) (P : A -> Prop) : Prop := forall e, exists r e', m e = Ok (r, e') /\ P r.
Lemma returns_bind {W A B} (m : M W A) (k : A -> M W B) P Q : returns m P -> (forall a, P a -> returns (k a) Q) -> returns (bind m k) Q.
Proof. intros Hm Hk e. destruct (Hm e) as (a & e1 & H1 & Ha). destruct (Hk a Ha e1) as (b & e2 & H2 & Hb). exists b, e2. unfold bind. by rewrite H1. Qed.
Lemma returns_ret {W A} (a : A) (P : A -> Prop) : P a -> returns (ret a : M W A) P.
Proof. intros Ha e. by exists a, e. Qed.
(** the system's calls return, and a descriptor is one that select can wait for *)
Record system_returns : Prop := {
  socket_returns : returns socket (fun fd => fd = -1 \/ 0 <= fd < FD_SETSIZE);
  getfl_returns fd : returns (fcntl_getfl fd) (fun _ => True);
  setfl_returns fd f : returns (fcntl_setfl fd f) (fun _ => True);
  select_returns fd t : returns (select_write fd t) (fun _ => True);
  connect_returns fd a : returns (connect fd a) (fun _ => True);
  getsockopt_returns fd : returns (getsockopt_error fd) (fun _ => True);
  usleep_returns n : returns (usleep n) (fun _ => True);
  close_returns fd : returns (close fd) (fun _ => True)
}.
Hypothesis Hret : system_returns.
Lemma connect_loop_returns fuel fd addr timeout : timeout * 10 < 2 ^ 31 -> forall retry, 0 <= retry -> (Z.to_nat (timeout * 10) <= Z.to_nat retry + fuel)%nat ->
  returns (connect_loop (S fuel) fd addr timeout retry) (fun _ => True).
Proof.
  intros Ht. induction fuel as [|fuel IH]; intros retry Hr Hf; [|remember (S fuel) as k eqn:Ek]; cbn [connect_loop];
    (eapply returns_bind; [apply connect_returns, Hret|]); intros [r errno] _;
    (destruct (negb _); [by apply returns_ret|]); (destruct (_ && _) eqn:Ea; [|by apply returns_ret]);
    apply andb_prop in Ea as [Ht0%Z.leb_le _]; rewrite (proj2 (Z.leb_gt _ _)) by lia.
  - rewrite (proj2 (Z.ltb_ge _ _)) by lia. by apply returns_ret.
  - destruct (retry + 1 <? timeout * 10); [|by apply returns_ret].
    eapply returns_bind; [apply usleep_returns, Hret|]. intros _ _. apply IH; lia.
Qed.
Lemma send_ready_returns fd timeout : 0 <= fd < FD_SETSIZE -> returns (WaitSendReady fd timeout) (fun _ => True).
Proof.
  intros Hfd. unfold WaitSendReady, FD_SET. rewrite (proj2 (Z.leb_le 0 fd)), (proj2 (Z.ltb_lt fd _)) by lia.
  eapply returns_bind; [by apply (returns_ret tt (fun _ => True))|]. intros _ _.
  eapply returns_bind; [apply select_returns, Hret|]. intros r _. by apply returns_ret.
Qed.
Lemma connect_fd_returns fd uuid timeout : 0 <= fd < FD_SETSIZE -> timeout * 10 < 2 ^ 31 -> (length (c_bytes (bytes_of_string uuid)) <= 91)%nat ->
  returns (connect_fd fd uuid timeout) (fun _ => True).
Proof.
  intros Hfd Ht Hu. unfold connect_fd. eapply returns_bind; [|intros b _; destruct (negb b); [by apply returns_ret|]].
  { unfold SetNonBlock. eapply returns_bind; [apply getfl_returns, Hret|]. intros f _. destruct (f <? 0); [by apply (returns_ret false (fun _ => True))|].
    eapply returns_bind; [apply setfl_returns, Hret|]. intros r _. by apply (returns_ret (0 <=? r) (fun _ => True)). }
  eapply (returns_bind _ _ (fun _ => True)).
  { intros e. rewrite server_address_ok, (proj2 (Nat.leb_le _ _)) by done. cbn. eauto. }
  intros addr _. eapply returns_bind; [apply connect_loop_returns; lia|]. intros a _. destruct a; [..|by apply returns_ret];
    (eapply returns_bind; [by apply send_ready_returns|]); intros w _; (destruct (negb w); [by apply returns_ret|]).
  - by apply returns_ret.
  - eapply returns_bind; [apply getsockopt_returns, Hret|]. intros [r err] _. by apply returns_ret.
Qed.
Lemma on_sys_returns {A} (m : M E A) P : returns m P -> returns (on_sys m) P.
Proof. intros Hm u. destruct (Hm (sys u)) as (r & e & Hr & HP). exists r, (mkusock (socketFd u) e). unfold on_sys. by rewrite Hr. Qed.
(** Connect returns: it tries at most ten times for each second of its timeout *)
Theorem Connect_returns (uuid : string) (timeout : Z) : timeout * 10 < 2 ^ 31 -> (length (c_bytes (bytes_of_string uuid)) <= 91)%nat ->
  returns (Connect (Some uuid) timeout) (fun _ => True).
Proof.
  intros Ht Hu. unfold Connect. eapply returns_bind; [apply on_sys_returns, socket_returns, Hret|]. cbv beta. intros fd Hfd.
  destruct (Z.eqb_spec fd (-1)) as [|Hne]; [by apply returns_ret|]. destruct Hfd as [|Hfd]; [done|].
  eapply returns_bind; [by apply on_sys_returns, connect_fd_returns|]. intros b _. destruct b.
  - eapply (returns_bind _ _ (fun _ => True)); [intros u; eauto|]. intros _ _. by apply returns_ret.
  - eapply returns_bind; [apply on_sys_returns, close_returns, Hret|]. intros _ _. by apply returns_ret.
Qed.
End Descriptors.

(** ** A system of sockets *)
(** its descriptors, the names that are bound, how often a connect is told to try
    again, and what was last sent *)
Record toy := mktoy { fds : list Z; bound : list (list Z); again : nat; sent : option cmsghdr }.
Definition next_fd (l : list Z) : Z := 1 + foldr Z.max 2 l.
Definition toy_socket : M toy Z := fun e =>
  let fd := next_fd (fds e) in
  if fd <? FD_SETSIZE then Ok (fd, mktoy (fd :: fds e) (bound e) (again e) (sent e)) else Ok (-1, e).
#[export] Instance toy_kernel (nonblock : bool) : Kernel toy := {
  socket := toy_socket;
  fcntl_getfl := fun fd => ret 2;
  fcntl_setfl := fun fd flags => ret (if nonblock then 0 else -1);
  select_write := fun fd t => ret 1;
  select_read := fun fd t => ret 1;
  connect := fun fd a e =>
    match again e with
    | S n => Ok ((-1, EAGAIN), mktoy (fds e) (bound e) n (sent e))
    | O => Ok (if bool_decide (a ∈ bound e) then (0, 0) else (-1, 111), e)
    end;
  getsockopt_error := fun fd => ret (0, 0);
  usleep := fun n => ret tt;
  unlink := fun p => ret tt;
  bind_socket := fun fd a e =>
    if bool_decide (a ∈ bound e) then Ok (-1, e) else Ok (0, mktoy (fds e) (a :: bound e) (again e) (sent e));
  listen := fun fd n => ret 0;
  accept4 := fun fd => toy_socket;
  shutdown := fun fd flag => ret tt;
  close := fun fd e => Ok (tt, mktoy (List.filter (fun x => negb (x =? fd)) (fds e)) (bound e) (again e) (sent e));
  sendmsg := fun fd cm e => Ok (1, mktoy (fds e) (bound e) (again e) (Some cm));
  recvmsg := fun fd e => Ok ((1, sent e), e)
}.
Lemma next_fd_fresh l : next_fd l ∉ l.
Proof.
  assert (forall x, x ∈ l -> x <= foldr Z.max 2 l) as Hm; [|intros Hin; specialize (Hm _ Hin); unfold next_fd in Hm; lia].
  induction l as [|y l IH]; intros x; [by intros ?%not_elem_of_nil|]. cbn. rewrite elem_of_cons. intros [->|Hx]; [lia|]. specialize (IH x Hx). lia.
Qed.
Lemma next_fd_pos l : 3 <= next_fd l.
Proof. unfold next_fd. induction l as [|y l IH]; cbn; lia. Qed.
Lemma toy_socket_opens e r e' : toy_socket e = Ok (r, e') ->
  if r =? -1 then list_to_set (C := gset Z) (fds e') = list_to_set (fds e)
  else r ∉ list_to_set (C := gset Z) (fds e) /\ list_to_set (fds e') = {[r]} ∪ list_to_set (C := gset Z) (fds e).
Proof.
  unfold toy_socket. pose proof (next_fd_pos (fds e)). destruct (_ <? _); intros [= <- <-]; [|done].
  destruct (Z.eqb_spec (next_fd (fds e)) (-1)); [lia|]. split; [|done]. rewrite elem_of_list_to_set. apply next_fd_fresh.
Qed.
#[export] Instance toy_laws b : KernelLaws toy (H := toy_kernel b).
Proof.
  refine {| opened := fun e => list_to_set (fds e) : gset Z |}; cbn.
  - apply toy_socket_opens.
  - intros _. apply toy_socket_opens.
  - intros fd e u e' [= _ <-]. cbn. induction (fds e) as [|x l IH]; [set_solver|]. cbn. destruct (Z.eqb_spec x fd); cbn; set_solver.
  - by intros fd e r e' [= _ <-].
  - by intros fd f e r e' [= _ <-].
  - by intros fd t e r e' [= _ <-].
  - intros fd a e r e'. destruct (again e); by intros [= _ <-].
  - by intros fd e r e' [= _ <-].
  - by intros n e r e' [= _ <-].
  - by intros p e r e' [= _ <-].
  - intros fd a e r e'. destruct (bool_decide _); by intros [= _ <-].
  - by intros fd n e r e' [= _ <-].
Defined.
Lemma toy_returns b : system_returns (H := toy_kernel b).
Proof.
  split; intros.
  - intros e. cbn. unfold toy_socket. pose proof (next_fd_pos (fds e)). destruct (Z.ltb_spec (next_fd (fds e)) FD_SETSIZE);
      eexists _, _; (split; [reflexivity|]); [right; lia|by left].
  - by apply returns_ret.
  - by apply returns_ret.
  - by apply returns_ret.
  - intros e. cbn. destruct (again e); eauto.
  - by apply (returns_ret (0, 0)).
  - by apply (returns_ret tt).
  - intros e. cbn. eauto.
Qed.
Definition toy_start (n : nat) : usock toy := mkusock (-1) (mktoy [0; 1; 2] [[1; 0] ++ 0 :: bytes_of_string "/bloc"] n None).
Definition toy_connected : usock toy := mkusock 3 (mktoy [3; 0; 1; 2] [[1; 0] ++ 0 :: bytes_of_string "/bloc"] 0 None).
(** a connection after 49 refusals, with a timeout of five seconds *)
Lemma sockets_close_witness :
  descriptors (H0 := toy_laws true) (toy_start 49) toy_connected true /\
  (true = true -> socketFd toy_connected <> -1 -> Close (H := toy_kernel true) toy_connected = Ok (tt, toy_start 0) ->
    opened (KernelLaws := toy_laws true) (sys (toy_start 0)) = opened (KernelLaws := toy_laws true) (sys (toy_start 49))).
Proof.
  apply (sockets_close (H0 := toy_laws true) (Some "bdfsclient"%string) 5 0 (toy_start 49) toy_connected (toy_start 0) true).
  left. vm_compute. reflexivity.
Defined.
Lemma Connect_returns_witness : returns (Connect (H := toy_kernel true) (Some "bdfsclient"%string) 5) (fun _ => True).
Proof. apply (Connect_returns (H := toy_kernel true) (toy_returns true) "bdfsclient" 5); [reflexivity|vm_compute; lia]. Defined.
(** a fiftieth refusal is a failure *)
Example connect_gives_up : option_map fst (ocode (Connect (H := toy_kernel true) (Some "bdfsclient"%string) 5 (toy_start 50))) = Some false.
Proof. vm_compute. reflexivity. Qed.

(** a socket listens under every name: a second one, of another name, cannot be bound,
    and who connects to another name reaches the first *)
Definition toy_empty : usock toy := mkusock (-1) (mktoy [0; 1; 2] [] 0 None).
Example names_are_one : obind (Listen (H := toy_kernel true) (Some "one"%string) 2 toy_empty) (fun '(one, u) =>
  obind (Listen (H := toy_kernel true) (Some "two"%string) 2 (mkusock (-1) (sys u))) (fun '(two, u) =>
  obind (Connect (H := toy_kernel true) (Some "three"%string) 5 u) (fun '(three, _) => Ok (one, two, three)))) = Ok (true, false, true).
Proof. vm_compute. reflexivity. Qed.
(** Accept leaves the descriptor of a client open that it cannot set up *)
Lemma accept_leaks : exists u', Accept (H := toy_kernel false) toy_connected = Ok (None, u') /\ fds (sys u') = 4 :: fds (sys toy_connected).
Proof. eexists. vm_compute. by split. Qed.
(** a Send on a socket that is not connected writes before the set of descriptors *)
Lemma send_unconnected {E} `{Kernel E} fd timeout (u : usock E) : socketFd u = -1 -> SendFd fd timeout u = Fault OutOfBounds.
Proof. intros Hu. unfold SendFd. cbn. by rewrite Hu. Qed.
(** a descriptor arrives as it was sent *)
Lemma descriptor_passed fd u : - 2 ^ 31 <= fd < 2 ^ 31 -> 0 <= socketFd u < FD_SETSIZE -> exists u',
  SendFd (H := toy_kernel true) fd 5 u = Ok (true, u') /\ RecvFd (H := toy_kernel true) 5 u' = Ok ((true, Some fd), u').
Proof.
  intros Hfd Hu. unfold SendFd, RecvFd, on_sys, WaitSendReady, WaitRecvReady, FD_SET, bind, get, ret. cbn -[le_split to_signed le_combine].
  rewrite (proj2 (Z.leb_le 0 (socketFd u))), (proj2 (Z.ltb_lt (socketFd u) FD_SETSIZE)) by lia. cbn -[le_split to_signed le_combine].
  eexists. split; [reflexivity|]. cbn -[le_split to_signed le_combine].
  rewrite (proj2 (Z.leb_le 0 (socketFd u))), (proj2 (Z.ltb_lt (socketFd u) FD_SETSIZE)) by lia. cbn -[le_split to_signed le_combine].
  rewrite take_ge by (by rewrite length_le_split). rewrite le_combine_split. unfold to_signed. change (2 ^ (8 * Z.of_nat 4)) with (2 ^ 32).
  rewrite Zmod_mod. do 4 f_equal. destruct (Z.ltb_spec (fd mod 2 ^ 32) (2 ^ 32 / 2)) as [Hlt|Hge]; change (2 ^ 32 / 2) with (2 ^ 31) in *.
  - destruct (Z.le_gt_cases 0 fd); [by rewrite Z.mod_small by lia|]. rewrite <- (Z_mod_plus_full fd 1), Z.mod_small in Hlt by lia. lia.
  - destruct (Z.le_gt_cases 0 fd); [rewrite Z.mod_small in Hge by lia; lia|]. rewrite <- (Z_mod_plus_full fd 1), Z.mod_small by lia. lia.
Qed.
