(* ===== verification/Daemon.v ===== *)
(** * The client daemon (src/src/bdfsclient/ActionHandler.cpp, ClientManager.cpp)

    The daemon binds volumes to network block devices: which devices there are and
    which are used, which volume is where.  Requests come as the messages of
    [Protocol].  Loading a volume, the ubd library, what nbd_ready reads from /sys,
    /proc/mounts and the umount command are parameters over a state of their own;
    the cache that a bound volume gets is that of [Cache]. *)

From Stdlib Require Import ZArith Lia Bool Ascii String.
From stdpp Require Import base list strings.
From S2P Require Import Prelude StdMap Json JsonReader Protocol.
Set Default Goal Selector "!".
Local Open Scope Z_scope.
Local Open Scope drive_scope.

Record VolumeMeta := mkmeta {
  volumeName : string; nbdPath : string; mountPath : string; isFormatted : bool; isMounted : bool
}.
(** the static members of ActionHandler, and everything outside *)
Record daemon (E : Type) := mkdaemon {
  volumeInfo : list (string * VolumeMeta);
  nbdInfo : list (string * bool);
  env : E
}.
Arguments mkdaemon {E}.
Arguments volumeInfo {E}.
Arguments nbdInfo {E}.
Arguments env {E}.

(** what the daemon calls: VolumeManager::LoadVolume (whether it gave a volume),
    ubd_register and ubd_disconnect, nbd_ready, the lines of /proc/mounts, system *)
Class Platform (E : Type) := {
  LoadVolume : string -> M E bool;
  ubd_register : string -> M E unit;
  ubd_disconnect : string -> M E unit;
  nbd_ready : string -> M E bool;
  proc_mounts : E -> list (string * string);
  system : string -> M E unit
}.

Section Daemon.
Context {E : Type} `{Platform E}.
Abbreviation D := (daemon E).
Definition on_env {A} (m : M E A) : M D A := fun d =>
  obind (m (env d)) (fun '(a, e) => Ok (a, mkdaemon (volumeInfo d) (nbdInfo d) e)).
Definition set_volumes (v : list (string * VolumeMeta)) : M D unit := modify (fun d => mkdaemon v (nbdInfo d) (env d)).
Definition set_nbd (n : list (string * bool)) : M D unit := modify (fun d => mkdaemon (volumeInfo d) n (env d)).

(** ** ActionHandler *)
Definition AddNbdPath (path : string) : M D unit := fun d => set_nbd (SMap.insert path false (nbdInfo d)) d.
Definition GetNextNBD (d : D) : string :=
  match find (fun p => negb p.2) (nbdInfo d) with Some p => p.1 | None => EmptyString end.
Definition GetNbdForVolume (name : string) (d : D) : string :=
  match SMap.find name (volumeInfo d) with Some meta => nbdPath meta | None => EmptyString end.
Definition GetMountPathForVolume (name : string) (d : D) : string :=
  match SMap.find name (volumeInfo d) with Some meta => mountPath meta | None => EmptyString end.
Fixpoint unmount_lines (nbdPath : string) (matchAll : bool) (lines : list (string * string)) : M E unit :=
  match lines with
  | [] => ret tt
  | (s1, s2) :: lines =>
      (if (String.prefix nbdPath s1 && matchAll) || String.eqb s1 nbdPath then system ("umount " +:+ s2) else ret tt) ;;;
      unmount_lines nbdPath matchAll lines
  end.
Definition Unmount (nbdPath : string) (matchAll : bool) : M D unit :=
  on_env (e <- get ;; unmount_lines nbdPath matchAll (proc_mounts e)).
Fixpoint cleanup_volumes (volumes : list (string * VolumeMeta)) : M D unit :=
  match volumes with
  | [] => ret tt
  | (_, meta) :: volumes => on_env (ubd_disconnect (nbdPath meta)) ;;; cleanup_volumes volumes
  end.
Definition Cleanup : M D unit :=
  Unmount "/dev/nbd" true ;;; d <- get ;; cleanup_volumes (volumeInfo d).

(** [while (!nbd_ready(..) && counter--)]: the counter afterwards *)
Fixpoint wait_ready (path : string) (counter : nat) : M E Z :=
  ready <- nbd_ready path ;;
  if ready : bool then ret (Z.of_nat counter)
  else match counter with O => ret (-1) | S counter => wait_ready path counter end.
Definition BindVolume (name path : string) : M D Z :=
  d <- get ;;
  let nbd := GetNextNBD d in
  if empty_str nbd then ret 0 else
  match SMap.find name (volumeInfo d) with
  | Some meta =>
      (if negb (empty_str path)
       then set_volumes (SMap.insert name (mkmeta (volumeName meta) (nbdPath meta) path (isFormatted meta) (isMounted meta)) (volumeInfo d))
       else ret tt) ;;;
      ret 2
  | None =>
      volume <- on_env (LoadVolume name) ;;
      if negb volume then ret 0 else
      on_env (ubd_register nbd) ;;;
      counter <- on_env (wait_ready nbd 10) ;;
      if counter =? 0 then ret 0 else
      d <- get ;;
      set_volumes (SMap.insert name (mkmeta name nbd path false false) (volumeInfo d)) ;;;
      set_nbd (SMap.insert nbd true (nbdInfo d)) ;;;
      ret 1
  end.
Definition UnbindVolume (name : string) : M D Z :=
  d <- get ;;
  match SMap.find name (volumeInfo d) with
  | None => ret 1
  | Some meta =>
      Unmount (nbdPath meta) false ;;;
      on_env (ubd_disconnect (nbdPath meta)) ;;;
      d <- get ;;
      set_nbd (SMap.insert (nbdPath meta) false (nbdInfo d)) ;;;
      set_volumes (SMap.erase name (volumeInfo d)) ;;;
      ret 1
  end.

(** ** ClientManager *)
(** the answers to QUERY_VOLUMEINFO: each has the parameters of those before *)
Fixpoint query_replies (volumes : list (string * VolumeMeta)) (args : list string) : outcome (list string * list (list Z)) :=
  match volumes with
  | [] => Ok (args, [])
  | (_, meta) :: volumes =>
      let args := args ++ [volumeName meta; nbdPath meta; mountPath meta] in
      obind (Create RESPONSE args 1) (fun p =>
      obind (query_replies volumes args) (fun '(args, ps) => Ok (args, p :: ps)))
  end.
(** the answer, whether it is to be sent, and the messages sent before *)
Definition ProcessRequest (buff : list Z) : M D (list Z * bool * list (list Z)) :=
  inArgs <- lift (Parse buff) ;;
  type <- lift (byte_at 4 buff) ;;
  if type =? BIND then
    pat! (status, args) <-
      match inArgs with
      | [] => ret (0, [])
      | name :: rest =>
          status <- BindVolume name (match rest with path :: _ => path | [] => EmptyString end) ;;
          d <- get ;;
          ret (u8 status, if u8 status =? 0 then [] else [GetNbdForVolume name d])
      end ;;
    p <- lift (Create RESPONSE args status) ;; ret (p, true, [])
  else if type =? UNBIND then
    pat! (status, args) <-
      match inArgs with
      | [name] =>
          d <- get ;;
          status <- UnbindVolume name ;;
          ret (u8 status, if u8 status =? 0 then [] else [GetMountPathForVolume name d])
      | _ => ret (0, [])
      end ;;
    p <- lift (Create RESPONSE args status) ;; ret (p, true, [])
  else if type =? QUERY_VOLUMEINFO then
    d <- get ;;
    pat! (args, sent) <- lift (query_replies (volumeInfo d) []) ;;
    p <- lift (Create RESPONSE args 1) ;; ret (p, false, sent)
  else p <- lift (Create RESPONSE [] 0) ;; ret (p, true, []).
(** its result, and what was sent on the socket *)
Definition HandleRequest (incoming : list arrival) : M D (bool * list (list Z)) :=
  pat! (r, head, incoming) <- lift (RecvMessage 4 incoming) ;;
  if r <=? 0 then ret (false, []) else
  let length := le_combine head in
  buff <- lift (store 0 (le_split 4 length) (replicate (Z.to_nat length) 0)) ;;
  pat! (r, bytes, _) <- lift (RecvMessage (Z.to_nat (u64 (length - 4))) incoming) ;;
  buff <- lift (if zlen bytes =? 0 then Ok buff else store 4 bytes buff) ;;
  if r <=? 0 then ret (true, []) else
  pat! (resp, shouldReply, sent) <- ProcessRequest buff ;;
  ret (true, sent ++ if shouldReply : bool then [resp] else []).
End Daemon.

(** ** The client's end (src/src/bdfs/Main.cpp) *)
(** ReceiveBdcp: [None] is a null pointer; with it what is left on the socket *)
Definition ReceiveBdcp (incoming : list arrival) : outcome (option (list Z) * list arrival) :=
  obind (RecvMessage 4 incoming) (fun '(r, head, incoming) =>
  if r <=? 0 then Ok (None, incoming) else
  let length := le_combine head in
  obind (store 0 (le_split 4 length) (replicate (Z.to_nat length) 0)) (fun buff =>
  obind (RecvMessage (Z.to_nat (u64 (length - 4))) incoming) (fun '(_, bytes, incoming) =>
  obind (if zlen bytes =? 0 then Ok buff else store 4 bytes buff) (fun buff => Ok (Some buff, incoming))))).
(** ListVolumes: the parameters of each response, to the end of the socket *)
Fixpoint list_responses (fuel : nat) (incoming : list arrival) : outcome (list (list string)) :=
  match fuel with
  | O => OutOfFuel
  | S fuel =>
      obind (ReceiveBdcp incoming) (fun '(resp, incoming) =>
      match resp with
      | None => Ok []
      | Some resp =>
          obind (byte_at 6 resp) (fun status =>
          if status =? 0 then Ok [] else
          obind (Parse resp) (fun args => obind (list_responses fuel incoming) (fun ls => Ok (args :: ls))))
      end)
  end.
