(* ===== verification/DaemonFacts.v ===== *)
(** * What the client daemon keeps to

    Every bound volume has a device of its own whatever requests come; a request
    arrives as it was sent, however the socket cuts it; and the wait for a device
    takes a timeout for success. *)

From Stdlib Require Import ZArith Lia Bool Ascii String.
From stdpp Require Import base list strings.
From S2P Require Import Prelude StdMap Json JsonReader Protocol EventLoop Daemon.
Set Default Goal Selector "!".
Local Open Scope Z_scope.
Local Open Scope drive_scope.

Section Facts.
Context {E : Type} `{Platform E}.
Abbreviation D := (daemon E).

(** ** Devices *)
Record devices_ok (d : D) : Prop := {
  volumes_sorted : SMap.sorted (volumeInfo d);
  nbd_sorted : SMap.sorted (nbdInfo d);
  volume_used n m : SMap.find n (volumeInfo d) = Some m ->
    volumeName m = n /\ nbdPath m <> EmptyString /\ SMap.find (nbdPath m) (nbdInfo d) = Some true;
  volume_own n1 n2 m1 m2 : SMap.find n1 (volumeInfo d) = Some m1 -> SMap.find n2 (volumeInfo d) = Some m2 ->
    nbdPath m1 = nbdPath m2 -> n1 = n2;
  used_volume p : SMap.find p (nbdInfo d) = Some true -> exists n m, SMap.find n (volumeInfo d) = Some m /\ nbdPath m = p
}.
(** a change of the environment only *)
Lemma devices_env d e : devices_ok d -> devices_ok (mkdaemon (volumeInfo d) (nbdInfo d) e).
Proof using. intros []. by split. Qed.
Lemma next_nbd_free d : devices_ok d -> GetNextNBD d <> EmptyString -> SMap.find (GetNextNBD d) (nbdInfo d) = Some false.
Proof using.
  intros Hd. unfold GetNextNBD. destruct (find _ _) as [[k b]|] eqn:F; [|done]. intros _. apply find_some in F as [F Hb].
  destruct b; [done|]. apply SMapFacts.in_find; [apply Hd|done].
Qed.
Lemma on_env_keeps {A} (m : M E A) d r : on_env m d = Ok r -> devices_ok d ->
  devices_ok r.2 /\ volumeInfo r.2 = volumeInfo d /\ nbdInfo r.2 = nbdInfo d.
Proof using.
  unfold on_env. destruct (m (env d)) as [[a e]| |]; cbn; [|done..]. intros [= <-] Hd. split; [by apply devices_env|done].
Qed.
(** binding a new volume to a free device *)
Lemma devices_bind d name nbd path e : devices_ok d -> nbd <> EmptyString -> SMap.find nbd (nbdInfo d) = Some false ->
  SMap.find name (volumeInfo d) = None ->
  devices_ok (mkdaemon (SMap.insert name (mkmeta name nbd path false false) (volumeInfo d)) (SMap.insert nbd true (nbdInfo d)) e).
Proof using.
  intros [Hvs Hns Hu Ho Huv] Hne Hf Hn. split; cbn.
  - by apply SMapFacts.sorted_insert.
  - by apply SMapFacts.sorted_insert.
  - intros n m. rewrite SMapFacts.find_insert. destruct (String.eqb_spec n name) as [->|Hnn].
    + intros [= <-]. cbn. by rewrite SMapFacts.find_insert_eq.
    + intros Hm. destruct (Hu n m Hm) as (H1 & H2 & H3). rewrite SMapFacts.find_insert. by destruct (String.eqb _ _).
  - intros n1 n2 m1 m2. rewrite !SMapFacts.find_insert.
    destruct (String.eqb_spec n1 name) as [->|], (String.eqb_spec n2 name) as [->|]; [done| | |apply Ho].
    + intros [= <-] H2 E2. cbn in E2. destruct (Hu _ _ H2) as (_ & _ & H3). congruence.
    + intros H1 [= <-] E2. cbn in E2. destruct (Hu _ _ H1) as (_ & _ & H3). congruence.
  - intros p. rewrite SMapFacts.find_insert. destruct (String.eqb_spec p nbd) as [->|Hp].
    + intros _. exists name. eexists. by rewrite SMapFacts.find_insert_eq.
    + intros Hpt. destruct (Huv p Hpt) as (n & m & Hm & <-). exists n, m. split; [|done].
      rewrite SMapFacts.find_insert_ne; [done|]. intros ->. congruence.
Qed.
(** a new mount path *)
Lemma devices_remount d name meta path : devices_ok d -> SMap.find name (volumeInfo d) = Some meta ->
  devices_ok (mkdaemon (SMap.insert name (mkmeta (volumeName meta) (nbdPath meta) path (isFormatted meta) (isMounted meta)) (volumeInfo d))
    (nbdInfo d) (env d)).
Proof using.
  intros [Hvs Hns Hu Ho Huv] Hm. split; cbn; [by apply SMapFacts.sorted_insert|done| | |].
  - intros n m. rewrite SMapFacts.find_insert. destruct (String.eqb_spec n name) as [->|]; [|apply Hu].
    intros [= <-]. cbn. by apply Hu.
  - intros n1 n2 m1 m2. rewrite !SMapFacts.find_insert.
    destruct (String.eqb_spec n1 name) as [->|], (String.eqb_spec n2 name) as [->|]; [done| | |apply Ho].
    + intros [= <-] H2. cbn. by apply Ho.
    + intros H1 [= <-]. cbn. by apply Ho.
  - intros p Hp. destruct (Huv p Hp) as (n & m & Hn & <-). destruct (String.eqb_spec n name) as [->|Hne].
    + exists name. eexists. rewrite SMapFacts.find_insert_eq. split; [done|]. cbn. congruence.
    + exists n, m. by rewrite SMapFacts.find_insert_ne.
Qed.
Lemma devices_unbind d name meta e : devices_ok d -> SMap.find name (volumeInfo d) = Some meta ->
  devices_ok (mkdaemon (SMap.erase name (volumeInfo d)) (SMap.insert (nbdPath meta) false (nbdInfo d)) e).
Proof using.
  intros [Hvs Hns Hu Ho Huv] Hm. split; cbn; [by apply SMapFacts.sorted_erase|by apply SMapFacts.sorted_insert| | |].
  - intros n m. rewrite SMapFacts.find_erase by done. destruct (String.eqb_spec n name) as [->|Hne]; [done|]. intros Hn.
    destruct (Hu n m Hn) as (H1 & H2 & H3). split; [done|]. split; [done|].
    rewrite SMapFacts.find_insert_ne; [done|]. intros Eq. apply Hne. by eapply Ho.
  - intros n1 n2 m1 m2. rewrite !SMapFacts.find_erase by done. destruct (String.eqb n1 name), (String.eqb n2 name); try done. apply Ho.
  - intros p. rewrite SMapFacts.find_insert. destruct (String.eqb_spec p (nbdPath meta)) as [->|Hp]; [done|].
    intros Hpt. destruct (Huv p Hpt) as (n & m & Hn & <-). exists n, m. split; [|done].
    rewrite SMapFacts.find_erase by done. destruct (String.eqb_spec n name) as [->|]; [|done]. congruence.
Qed.

Lemma BindVolume_keeps name path d r : BindVolume name path d = Ok r -> devices_ok d -> devices_ok r.2.
Proof using.
  intros Eb Hd. unfold BindVolume in Eb. cbn in Eb. destruct (empty_str (GetNextNBD d)) eqn:Ee; [by injection Eb as <-|].
  assert (GetNextNBD d <> EmptyString) as Hne by by intros E0; rewrite E0 in Ee.
  pose proof (next_nbd_free d Hd Hne) as Hfree. destruct (SMap.find name (volumeInfo d)) as [meta|] eqn:Em.
  { destruct (empty_str path); cbn in Eb; injection Eb as <-; [done|]. by apply devices_remount. }
  destruct r as [r d']. apply bind_inv in Eb as (v & d1 & E1 & Eb). apply on_env_keeps in E1 as (Hd1 & V1 & N1); [|done]. cbn in Hd1, V1, N1.
  destruct (negb v); [by injection Eb as <- <-|].
  apply bind_inv in Eb as (u & d2 & E2 & Eb). apply on_env_keeps in E2 as (Hd2 & V2 & N2); [|done]. cbn in Hd2, V2, N2.
  apply bind_inv in Eb as (c & d3 & E3 & Eb). apply on_env_keeps in E3 as (Hd3 & V3 & N3); [|done]. cbn in Hd3, V3, N3.
  destruct (c =? 0); [by injection Eb as <- <-|]. cbn in Eb. injection Eb as <- <-.
  apply devices_bind; [done|done|congruence|congruence].
Qed.
Lemma UnbindVolume_keeps name d r : UnbindVolume name d = Ok r -> devices_ok d -> devices_ok r.2.
Proof using.
  intros Eb Hd. unfold UnbindVolume in Eb. cbn in Eb. destruct (SMap.find name (volumeInfo d)) as [meta|] eqn:Em; [|by injection Eb as <-].
  destruct r as [r d']. apply bind_inv in Eb as (v & d1 & E1 & Eb). apply on_env_keeps in E1 as (Hd1 & V1 & N1); [|done]. cbn in Hd1, V1, N1.
  apply bind_inv in Eb as (u & d2 & E2 & Eb). apply on_env_keeps in E2 as (Hd2 & V2 & N2); [|done]. cbn in Hd2, V2, N2.
  cbn in Eb. injection Eb as <- <-. apply devices_unbind; [done|congruence].
Qed.
Lemma ProcessRequest_keeps buff d r d' : ProcessRequest buff d = Ok (r, d') -> devices_ok d -> devices_ok d'.
Proof using.
  intros Ep Hd. unfold ProcessRequest in Ep. apply bind_inv in Ep as (args & d0 & E0 & Ep). apply lift_inv in E0 as [_ ->].
  apply bind_inv in Ep as (type & d0 & E0 & Ep). apply lift_inv in E0 as [_ ->].
  destruct (type =? BIND); [|destruct (type =? UNBIND); [|destruct (type =? QUERY_VOLUMEINFO)]].
  - apply bind_inv in Ep as ([st l] & d1 & E1 & Ep). apply bind_inv in Ep as (p & d2 & E2 & Ep). apply lift_inv in E2 as [_ ->].
    injection Ep as _ <-. destruct args as [|n rest]; [by injection E1 as _ _ <-|].
    apply bind_inv in E1 as (s & d3 & E3 & E1). cbn in E1. injection E1 as _ _ <-. by apply BindVolume_keeps in E3.
  - apply bind_inv in Ep as ([st l] & d1 & E1 & Ep). apply bind_inv in Ep as (p & d2 & E2 & Ep). apply lift_inv in E2 as [_ ->].
    injection Ep as _ <-. destruct args as [|n [|]]; [by injection E1 as _ _ <-| |by injection E1 as _ _ <-].
    cbn in E1. apply bind_inv in E1 as (s & d3 & E3 & E1). injection E1 as _ _ <-. by apply UnbindVolume_keeps in E3.
  - cbn in Ep. apply bind_inv in Ep as ([l ps] & d1 & E1 & Ep). apply lift_inv in E1 as [_ ->].
    apply bind_inv in Ep as (p & d2 & E2 & Ep). apply lift_inv in E2 as [_ ->]. by injection Ep as _ <-.
  - apply bind_inv in Ep as (p & d2 & E2 & Ep). apply lift_inv in E2 as [_ ->]. by injection Ep as _ <-.
Qed.

(** Whatever comes on a socket, in whatever pieces, a request that the daemon
    answers leaves it in order: every bound volume is under its own name on a device
    that is marked used, no two volumes share a device, and a device is marked used
    only while a volume is on it. *)
Lemma HandleRequest_keeps (incoming : list arrival) (d d' : D) (ok : bool) (sent : list (list Z)) :
  devices_ok d -> HandleRequest incoming d = Ok ((ok, sent), d') -> devices_ok d'.
Proof using.
  intros Hd Eh. unfold HandleRequest in Eh. apply bind_inv in Eh as ([[r head] inc] & d0 & E0 & Eh). apply lift_inv in E0 as [_ ->].
  destruct (r <=? 0); [by injection Eh as _ _ <-|].
  apply bind_inv in Eh as (b & d0 & E0 & Eh). apply lift_inv in E0 as [_ ->].
  apply bind_inv in Eh as ([[r2 bytes] inc2] & d0 & E0 & Eh). apply lift_inv in E0 as [_ ->].
  apply bind_inv in Eh as (b2 & d0 & E0 & Eh). apply lift_inv in E0 as [_ ->].
  destruct (r2 <=? 0); [by injection Eh as _ _ <-|].
  apply bind_inv in Eh as ([[resp reply] s] & d0 & E0 & Eh). injection Eh as _ _ <-. by apply ProcessRequest_keeps in E0.
Qed.

(** ** The loop of requests (ClientManager) *)
(** HandleRequest as the event loop calls it; what is sent on each connection is kept *)
Definition handle_connection (c : list arrival) : M (D * list (list (list Z))) bool := fun '(d, answers) =>
  obind (HandleRequest c d) (fun '((r, sent), d) => Ok (r, (d, answers ++ [sent]))).
Lemma served_keeps conns : forall d answers b w, serve handle_connection conns (d, answers) = Ok (b, w) -> devices_ok d -> devices_ok (fst w).
Proof using.
  induction conns as [|c conns IH]; intros d answers b w; [by intros [= _ <-]|]. cbn.
  intros (r & [d1 a1] & H1 & H2)%bind_inv Hd. apply obind_inv in H1 as ([[r1 s1] d2] & H1 & [= -> -> <-]).
  apply HandleRequest_keeps in H1; [|done]. destruct r; [by eapply IH|by injection H2 as _ <-].
Qed.
Lemma served_answers conns : forall d answers b w, serve handle_connection conns (d, answers) = Ok (b, w) -> (length (snd w) <= length answers + length conns)%nat /\
  (b = true -> length (snd w) = length answers + length conns)%nat.
Proof using.
  induction conns as [|c conns IH]; intros d answers b w; [intros [= _ <-]; cbn; lia|]. cbn.
  intros (r & [d1 a1] & H1 & H2)%bind_inv. apply obind_inv in H1 as ([[r1 s1] d2] & H1 & [= -> -> <-]).
  destruct r; [|injection H2 as <- <-; cbn; rewrite length_app; cbn; split; [lia|done]].
  apply IH in H2 as [H2 H3]. rewrite length_app in H2, H3. cbn in H2, H3. split; [lia|]. intros Hb. specialize (H3 Hb). lia.
Qed.
(** a connection that ends before it has given a length *)
Definition silent (c : list arrival) : Prop := exists r head rest, RecvMessage 4 c = Ok (r, head, rest) /\ r <= 0.
Lemma silent_fails c d : silent c -> HandleRequest c d = Ok ((false, []), d).
Proof using. intros (r & head & rest & Hr & H0). unfold HandleRequest. rewrite Hr. cbn. by rewrite (proj2 (Z.leb_le _ _)). Qed.
Lemma served_silent conns : forall w b w', serve handle_connection conns w = Ok (b, w') -> (exists c, c ∈ conns /\ silent c) -> b = false.
Proof using.
  induction conns as [|c conns IH]; intros [d answers] b w'; [intros _ (c & Hc%not_elem_of_nil & _); done|]. cbn.
  intros (r & [d1 a1] & H1 & H2)%bind_inv (c' & [->|Hc]%elem_of_cons & Hs).
  - unfold handle_connection in H1. rewrite (silent_fails _ _ Hs) in H1. injection H1 as <- _ _. by injection H2 as <- _.
  - destruct r; [|by injection H2 as <- _]. eapply IH; [exact H2|]. by exists c'.
Qed.
(** a client that connects and says nothing ends the service: HandleRequest returns
    false, the thread of the loop ends, and whoever connects later waits in vain *)
Lemma silent_client_ends_service (todos : list (list (list arrival))) (w : D * list (list (list Z))) (es es' : list event) s s' :
  run handle_connection es (fresh todos w) = Ok s -> (exists c, c ∈ handled s /\ silent c) ->
  run handle_connection es' s = Ok s' -> handled s' = handled s /\ EventLoop.env s' = EventLoop.env s.
Proof using.
  intros Hrun Hc. pose proof (loop_run_inv _ todos w es s Hrun) as Hi. destruct (inv_serve _ _ _ Hi) as (b & Hb & Hd & _).
  apply (done_run handle_connection w); [done|]. apply Hd. by eapply served_silent.
Qed.

(** [C22] The devices of the daemon are in order at every moment of its service: however
    the connections come, whatever is sent on them and in whatever pieces, and however
    the steps of the thread that accepts them, of the loop and of its start and stop are
    interleaved, every bound volume is under its own name on a device that is marked
    used, no two volumes share a device, and a device is marked used only while a volume
    is on it.  Each connection has its own answers. *)
Theorem service_keeps_devices (todos : list (list (list arrival))) (d0 : D) (es : list event) s :
  devices_ok d0 -> run handle_connection es (fresh todos (d0, [])) = Ok s ->
  devices_ok (fst (EventLoop.env s)) /\ (length (snd (EventLoop.env s)) <= length (handled s))%nat /\
  (lpos s <> L_done -> length (snd (EventLoop.env s)) = length (handled s)).
Proof using.
  intros Hd Hrun. pose proof (loop_run_inv _ todos (d0, []) es s Hrun) as Hi. destruct (inv_serve _ _ _ Hi) as (b & Hb & Hf & _).
  split; [by eapply served_keeps|]. apply served_answers in Hb as [Hl He]. cbn in Hl, He. split; [done|].
  intros Hn. apply He. destruct b; [done|]. by destruct Hn; apply Hf.
Qed.

(** ** Requests arrive as they were sent *)
Lemma zlen_message_big type args status : 6 <= zlen (message type args status).
Proof using. rewrite zlen_message, struct_size_pos. pose proof (zlen_nonneg (body_of args)). destruct (type =? RESPONSE); lia. Qed.
Lemma store_head m (Hm : 4 <= zlen m < 2 ^ 32) : le_combine (take 4 m) = zlen m -> Forall is_byte (take 4 m) ->
  store 0 (le_split 4 (zlen m)) (replicate (Z.to_nat (zlen m)) 0) = Ok (take 4 m ++ replicate (length m - 4) 0).
Proof using.
  intros Ec Hb. unfold store. assert (zlen (le_split 4 (zlen m)) = 4) as El by (unfold zlen; by rewrite length_le_split).
  rewrite El. unfold zlen at 1. rewrite length_replicate. destruct (Z.leb_spec (0 + 4) (Z.of_nat (Z.to_nat (zlen m)))); [|lia]. f_equal.
  assert (length (take 4 m) = 4%nat) as L4 by (rewrite length_take; unfold zlen in *; lia).
  assert (le_split 4 (zlen m) = take 4 m) as -> by (pose proof (le_split_combine _ Hb) as Ex; by rewrite L4, Ec in Ex).
  unfold write_at. change (Z.to_nat 0) with 0%nat. rewrite L4. cbn [take app Nat.add]. rewrite length_replicate.
  replace (0 - Z.to_nat (zlen m))%nat with 0%nat by lia. rewrite drop_replicate, take_0. cbn [app]. do 2 f_equal. unfold zlen. lia.
Qed.
Lemma store_rest m n : (4 + n = length m)%nat -> (0 < n)%nat ->
  store 4 (drop 4 m) (take 4 m ++ replicate (length m - 4) 0) = Ok m.
Proof using.
  intros En Hn. unfold store. assert (length (take 4 m) = 4%nat) as L4 by (rewrite length_take; lia).
  rewrite zlen_app. unfold zlen. rewrite L4, length_drop, length_replicate.
  destruct (Z.leb_spec (4 + Z.of_nat (length m - 4)) (Z.of_nat 4 + Z.of_nat (length m - 4))); [|lia]. f_equal.
  unfold write_at. change (Z.to_nat 4) with 4%nat. rewrite length_app, L4, length_replicate, length_drop.
  replace (4 - (4 + (length m - 4)))%nat with 0%nat by lia. cbn [replicate]. rewrite app_nil_r.
  rewrite take_app_le by lia. rewrite (take_ge (take 4 m)) by lia.
  rewrite (drop_ge (take 4 m ++ _)) by (rewrite length_app, L4, length_replicate; lia). rewrite app_nil_r. apply take_drop.
Qed.
(** a whole message on the socket is received whole *)
Lemma message_received type args status incoming k : fits type args -> is_byte type -> Forall flowing incoming ->
  stream incoming = message type args status ++ k -> exists rest1 rest2,
  let m := message type args status in
  RecvMessage 4 incoming = Ok (4, take 4 m, rest1) /\ le_combine (take 4 m) = zlen m /\
  store 0 (le_split 4 (zlen m)) (replicate (Z.to_nat (zlen m)) 0) = Ok (take 4 m ++ replicate (length m - 4) 0) /\
  RecvMessage (Z.to_nat (u64 (zlen m - 4))) rest1 = Ok (zlen m - 4, drop 4 m, rest2) /\
  store 4 (drop 4 m) (take 4 m ++ replicate (length m - 4) 0) = Ok m /\ 0 < zlen (drop 4 m) /\
  Forall flowing rest2 /\ stream rest2 = k.
Proof using.
  intros Hf Hty Hin Es. set (m := message type args status) in *. pose proof (zlen_message_big type args status) as Hbig. fold m in Hbig.
  pose proof (message_length type args status Hf) as Hlen. fold m in Hlen. unfold length_of in Hlen.
  assert (zlen m < 2 ^ 32) as Hsmall by (unfold m; rewrite zlen_message; apply Hf).
  assert (Forall is_byte (take 4 m)) as Hb.
  { unfold m, message. rewrite take_app_le by by rewrite length_le_split. rewrite take_ge by by rewrite length_le_split. apply le_split_bytes. }
  destruct (RecvMessage_ok 4 incoming Hin) as (rest1 & E1 & F1 & S1); [rewrite Es, length_app; unfold zlen in Hbig; lia|].
  rewrite Es in E1, S1. rewrite take_app_le in E1 by (unfold zlen in Hbig; lia). rewrite drop_app_le in S1 by (unfold zlen in Hbig; lia).
  assert (Z.to_nat (u64 (zlen m - 4)) = length (drop 4 m)) as El.
  { rewrite u64_small by (unfold in_u64; lia). rewrite length_drop. unfold zlen. lia. }
  destruct (RecvMessage_ok (length (drop 4 m)) rest1 F1) as (rest2 & E2 & F2 & S2).
  { rewrite S1, length_app, length_drop. unfold zlen in Hbig. lia. }
  rewrite S1 in E2, S2. rewrite take_app_length in E2. rewrite drop_app_length in S2.
  exists rest1, rest2. cbv zeta. split; [done|]. split; [done|]. split; [by apply store_head; [lia|..]|].
  split; [rewrite El, E2, length_drop; do 3 f_equal; unfold zlen in *; lia|].
  split; [apply (store_rest _ (length m - 4)); unfold zlen in Hbig; lia|]. split; [unfold zlen in *; rewrite length_drop; lia|done].
Qed.
Lemma request_arrives type args incoming k d : fits type args -> is_byte type -> Forall flowing incoming ->
  stream incoming = message type args 0 ++ k ->
  HandleRequest incoming d = (pat! (resp, shouldReply, sent) <- ProcessRequest (message type args 0) ;;
    ret (true, sent ++ if shouldReply : bool then [resp] else [])) d.
Proof using.
  intros Hf Hty Hin Es. destruct (message_received type args 0 incoming k Hf Hty Hin Es) as (rest1 & rest2 & E1 & El & E2 & E3 & E4 & Hp & _ & _).
  unfold HandleRequest. rewrite E1. cbn [lift bind obind]. change (4 <=? 0) with false. cbv iota. rewrite El, E2. cbn [bind lift obind].
  rewrite E3. cbn [bind lift obind]. rewrite (proj2 (Z.eqb_neq _ 0)) by lia. rewrite E4. cbn [bind lift obind].
  pose proof (zlen_message_big type args 0) as Hbig. rewrite (proj2 (Z.leb_gt _ _)) by lia. done.
Qed.
Lemma response_received type args status incoming k : fits type args -> is_byte type -> Forall flowing incoming ->
  stream incoming = message type args status ++ k ->
  exists rest, ReceiveBdcp incoming = Ok (Some (message type args status), rest) /\ Forall flowing rest /\ stream rest = k.
Proof using.
  intros Hf Hty Hin Es. destruct (message_received type args status incoming k Hf Hty Hin Es) as (rest1 & rest2 & E1 & El & E2 & E3 & E4 & Hp & F & S).
  exists rest2. split; [|done]. unfold ReceiveBdcp. rewrite E1. cbn [obind]. change (4 <=? 0) with false. cbv iota. rewrite El, E2. cbn [obind].
  rewrite E3. cbn [obind]. rewrite (proj2 (Z.eqb_neq _ 0)) by lia. rewrite E4. done.
Qed.

(** ** Requests that the daemon serves *)
Lemma bind_served (args : list string) (request : list arrival) (d d' : D) (status : Z) (name : string) (rest : list string) :
  args = name :: rest -> (length args <= 2)%nat ->
  fits BIND args -> Forall flowing request -> stream request = message BIND args 0 ->
  BindVolume name (match rest with path :: _ => path | [] => EmptyString end) d = Ok (status, d') -> 0 <= status < 256 ->
  let params := if status =? 0 then [] else [GetNbdForVolume name d'] in
  fits RESPONSE params -> HandleRequest request d = Ok ((true, [message RESPONSE params status]), d').
Proof using.
  intros -> Hl Hf Hreq Hs Hb Hst params Hfr. assert (u8 status = status) as Eu by (unfold u8; apply Z.mod_small; lia).
  rewrite (request_arrives BIND (name :: rest) request [] d) by (done || by rewrite app_nil_r).
  rewrite (bind_ok _ _ _ (message RESPONSE params status, true, []) d'); [done|].
  unfold ProcessRequest. rewrite Parse_message, message_type by done.
  assert (take (Z.to_nat (u8 (zlen (name :: rest)))) (name :: rest) = name :: rest) as ->.
  { apply take_ge. unfold u8, zlen. rewrite Z.mod_small; [lia|]. cbn [length] in *. lia. }
  cbn [lift bind obind]. change (BIND =? BIND) with true. cbv iota.
  erewrite bind_ok; [|erewrite bind_ok by exact Hb; erewrite bind_ok by reflexivity; reflexivity].
  rewrite Eu. fold params. by rewrite Create_ok.
Qed.
Lemma unbind_served (request : list arrival) (d d' : D) (status : Z) (name : string) :
  fits UNBIND [name] -> Forall flowing request -> stream request = message UNBIND [name] 0 ->
  UnbindVolume name d = Ok (status, d') -> 0 <= status < 256 ->
  let params := if status =? 0 then [] else [GetMountPathForVolume name d] in
  fits RESPONSE params -> HandleRequest request d = Ok ((true, [message RESPONSE params status]), d').
Proof using.
  intros Hf Hreq Hs Hb Hst params Hfr. assert (u8 status = status) as Eu by (unfold u8; apply Z.mod_small; lia).
  rewrite (request_arrives UNBIND [name] request [] d) by (done || by rewrite app_nil_r).
  rewrite (bind_ok _ _ _ (message RESPONSE params status, true, []) d'); [done|].
  unfold ProcessRequest. rewrite Parse_message, message_type by done.
  change (take (Z.to_nat (u8 (zlen [name]))) [name]) with [name]. cbn [lift bind obind].
  change (UNBIND =? BIND) with false. change (UNBIND =? UNBIND) with true. cbv iota.
  erewrite bind_ok; [|erewrite bind_ok by reflexivity; erewrite bind_ok by exact Hb; reflexivity].
  rewrite Eu. fold params. by rewrite Create_ok.
Qed.
(** the daemon's answer to QUERY_VOLUMEINFO: one message for each volume *)
Definition listed (meta : VolumeMeta) : list string := [volumeName meta; nbdPath meta; mountPath meta].
Definition listed_all (volumes : list (string * VolumeMeta)) : list string := concat (map (fun p => listed p.2) volumes).

(** ** The wait for a device *)
Lemma wait_never nbd n : forall e, (forall e, nbd_ready nbd e = Ok (false, e)) -> wait_ready nbd n e = Ok (-1, e).
Proof using.
  induction n as [|n IH]; intros e Hn; cbn [wait_ready]; (erewrite bind_ok by apply Hn); [done|by apply IH].
Qed.
(** A device that never becomes ready counts as bound: the counter that the wait
    leaves behind is -1, and only 0 is taken for a timeout.  The volume is recorded
    on the device and the answer is success. *)
Theorem bind_timeout_succeeds (name path : string) (d : D) (e1 e2 : E) :
  GetNextNBD d <> EmptyString -> SMap.find name (volumeInfo d) = None ->
  LoadVolume name (env d) = Ok (true, e1) -> ubd_register (GetNextNBD d) e1 = Ok (tt, e2) ->
  (forall e, nbd_ready (GetNextNBD d) e = Ok (false, e)) ->
  exists d', BindVolume name path d = Ok (1, d') /\ GetNbdForVolume name d' = GetNextNBD d.
Proof using.
  intros Hne Hn Hl Hr Hw. assert (empty_str (GetNextNBD d) = false) as Ee by by destruct (GetNextNBD d).
  eexists. split.
  - unfold BindVolume. erewrite bind_ok by reflexivity. cbv zeta. rewrite Ee, Hn.
    erewrite bind_ok by by unfold on_env; rewrite Hl. cbn [negb].
    erewrite bind_ok by by unfold on_env; cbn [env]; rewrite Hr.
    erewrite bind_ok by by unfold on_env; cbn [env]; rewrite wait_never. change (-1 =? 0) with false. cbv iota. reflexivity.
  - unfold GetNbdForVolume. cbn. by rewrite SMapFacts.find_insert_eq.
Qed.

(** ** bdfs list *)
Lemma fits_app type args args' : fits type (args ++ args') -> fits type args.
Proof using.
  intros [Hf Hs]. apply Forall_app in Hf as [Hf _]. split; [done|]. unfold body_of in *. rewrite map_app, concat_app, zlen_app in Hs.
  pose proof (zlen_nonneg (concat (map (fun a => bytes_of_string a ++ [0]) args'))). lia.
Qed.
Lemma listed_all_app a b : listed_all (a ++ b) = listed_all a ++ listed_all b.
Proof using. unfold listed_all. by rewrite map_app, concat_app. Qed.
Lemma fits_take type n volumes : fits type (listed_all volumes) -> fits type (listed_all (take n volumes)).
Proof using. rewrite <- (take_drop n volumes) at 1. rewrite listed_all_app. apply fits_app. Qed.
Lemma length_listed volumes : length (listed_all volumes) = (3 * length volumes)%nat.
Proof using. induction volumes as [|p volumes IH]; [done|]. unfold listed_all in *. cbn. rewrite IH. lia. Qed.
(** the [n]th response has the parameters of the first [n] volumes *)
Lemma query_replies_ok volumes : forall args, fits RESPONSE (args ++ listed_all volumes) ->
  query_replies volumes args = Ok (args ++ listed_all volumes,
    map (fun n => message RESPONSE (args ++ listed_all (take n volumes)) 1) (seq 1 (length volumes))).
Proof using.
  unfold listed_all. induction volumes as [|[n meta] volumes IH]; intros args Hf; [by cbn; rewrite app_nil_r|]. cbn [query_replies map concat snd] in *.
  change [volumeName meta; nbdPath meta; mountPath meta] with (listed meta). rewrite app_assoc in Hf.
  rewrite Create_ok.
  - cbn [obind]. rewrite IH by done. cbn [obind length seq map take concat snd]. rewrite <- app_assoc. do 2 f_equal.
    rewrite app_nil_r. f_equal. rewrite <- (seq_shift _ 1), map_map. apply map_ext. intros k. cbn [take map concat snd]. by rewrite app_assoc.
  - by apply fits_app in Hf.
Qed.
Lemma query_served (request : list arrival) (d : D) :
  fits QUERY_VOLUMEINFO [] -> Forall flowing request -> stream request = message QUERY_VOLUMEINFO [] 0 ->
  fits RESPONSE (listed_all (volumeInfo d)) ->
  HandleRequest request d = Ok ((true, map (fun n => message RESPONSE (listed_all (take n (volumeInfo d))) 1) (seq 1 (length (volumeInfo d)))), d).
Proof using.
  intros Hf Hreq Hs Hfr. rewrite (request_arrives QUERY_VOLUMEINFO [] request [] d) by (done || by rewrite app_nil_r).
  rewrite (bind_ok _ _ _ (message RESPONSE (listed_all (volumeInfo d)) 1, false,
    map (fun n => message RESPONSE (listed_all (take n (volumeInfo d))) 1) (seq 1 (length (volumeInfo d)))) d); [unfold ret; by rewrite app_nil_r|].
  unfold ProcessRequest. rewrite Parse_message, message_type by done.
  cbn [lift bind obind]. change (QUERY_VOLUMEINFO =? BIND) with false. change (QUERY_VOLUMEINFO =? UNBIND) with false.
  change (QUERY_VOLUMEINFO =? QUERY_VOLUMEINFO) with true. cbv iota. erewrite bind_ok by reflexivity.
  rewrite (query_replies_ok _ []) by done. cbn [lift bind obind app]. by rewrite Create_ok.
Qed.
End Facts.

(** ** A daemon with one free device *)
(** the environment is the list of commands that were run *)
Definition sample_platform (ready : bool) : Platform (list string) := {|
  LoadVolume := fun name => ret true;
  ubd_register := fun path => modify (cons ("register " +:+ path));
  ubd_disconnect := fun path => modify (cons ("disconnect " +:+ path));
  nbd_ready := fun path => ret ready;
  proc_mounts := fun _ => [];
  system := fun cmd => modify (cons cmd)
|}.
Definition idle : daemon (list string) := mkdaemon [] [("/dev/nbd0"%string, false)] [].
Definition bound : daemon (list string) :=
  mkdaemon [("vol"%string, mkmeta "vol" "/dev/nbd0" "/mnt" false false)] [("/dev/nbd0"%string, true)] ["register /dev/nbd0"%string].
Definition sample_incoming : list arrival := [Data [15; 0; 0; 0; 0; 2; 118]; Data [111; 108; 0; 47; 109; 110; 116; 0]].
Definition sample_response : list arrival := [Data [17; 0; 0]; Data [0; 2; 1; 1; 47; 100; 101; 118; 47; 110; 98; 100; 48]; Data [0]].
Lemma idle_ok : devices_ok idle.
Proof.
  split; cbn; [done|by repeat constructor|done|done|]. intros p. destruct (String.eqb p "/dev/nbd0"); done.
Qed.
(** a request and a client that says nothing, on two connections *)
Definition sample_service : list event :=
  Start ++ [Send 0; Send 0; Send 0; Send 0; Send 0; Send 0; Send 0; Send 0] ++ replicate 7 Loop.
Definition served_state : loop (T := list arrival) :=
  mkloop [] (Live (AsyncResult.mkevent true 0)) true false L_done [mksender [] S_idle] (O_returned true)
    (bound, [[stream sample_response]; []]) [sample_incoming; []] [] [sample_incoming; []] [].
Lemma service_keeps_devices_witness : devices_ok (fst (EventLoop.env served_state)) /\
  (length (snd (EventLoop.env served_state)) <= length (handled served_state))%nat /\
  (lpos served_state <> L_done -> length (snd (EventLoop.env served_state)) = length (handled served_state)).
Proof.
  apply (service_keeps_devices (H := sample_platform true) [[sample_incoming; []]] idle sample_service served_state idle_ok). vm_compute. reflexivity.
Defined.
Lemma bind_timeout_succeeds_witness : exists d',
  BindVolume (H := sample_platform false) "vol" "/mnt" idle = Ok (1, d') /\ GetNbdForVolume "vol" d' = "/dev/nbd0"%string.
Proof.
  apply (bind_timeout_succeeds (H := sample_platform false) "vol" "/mnt" idle [] ["register /dev/nbd0"%string]); try done.
Defined.
