(* ===== verification/Volume.v ===== *)
(** * Erasure-coded volumes (src/src/bdfsclient-lib/Volume.cpp, VolumeRow.cpp,
      VolumeCell.cpp, Partition.cpp)

    A volume is a matrix of blocks: a row has [dataCount] data cells and
    [codeCount] code cells, column [i] of every row lives in partition [i].  Bytes
    are laid out along the data cells row after row.  A write re-encodes every row
    it touches.  The remote partition objects, the erasure code (cm256) and AES
    (OpenSSL) are parameters. *)

From Stdlib Require Import ZArith Lia Bool Ascii String.
From stdpp Require Import base list gmap strings.
From S2P Require Import Prelude Streams.
Set Default Goal Selector "!".
Local Open Scope Z_scope.
Local Open Scope drive_scope.

(** ** Remote partitions
    A call gives a null result object, an object whose wait times out, or an
    answer; [Write] answers with a byte count. *)
Class BdPartition (R S : Type) := {
  bd_Read (ref : R) (blockId offset size : Z) : M S (option (option (list Z)));
  bd_Write (ref : R) (blockId offset : Z) (data : list Z) (size : Z) : M S (option (option Z));
  bd_Delete (ref : R) : M S (option (option bool));
  bd_GetTimeout (ref : R) : Z
}.

Module Partition.
Section Partition.
Context {R S : Type} `{BdPartition R S}.
Record t := mk { blockCount : Z; blockSize : Z; ref : R }.

Definition VerifyBlock (p : t) (index : Z) : M S bool := ret true.
Definition InitBlock (p : t) (index : Z) : M S bool := ret true.

(** dereferencing the result and waiting for it *)
Definition wait {A} (result : option (option A)) : M S (option A) :=
  match result with None => fail NullDeref | Some answer => ret answer end.

(** [buffer] is where [size] bytes go: what it holds afterwards *)
Definition ReadBlock (p : t) (index : Z) (buffer : list Z) (offset : Z) : M S (bool * list Z) :=
  let size := zlen buffer in
  result <- bd_Read (ref p) index (u32 offset) (u32 size) ;;
  answer <- wait result ;;
  match answer with
  | Some buf => if zlen buf =? size then ret (true, buf) else ret (false, buffer)
  | None => ret (false, buffer)
  end.
Definition WriteBlock (p : t) (index : Z) (buffer : list Z) (offset : Z) : M S bool :=
  let size := zlen buffer in
  result <- bd_Write (ref p) index (u32 offset) buffer (u32 size) ;;
  answer <- wait result ;;
  match answer with
  | Some n => ret (n =? size)
  | None => ret false
  end.
Definition Delete (p : t) : M S bool :=
  result <- bd_Delete (ref p) ;;
  answer <- wait result ;;
  match answer with Some b => ret b | None => ret false end.
Definition GetTimeout (p : t) : Z := bd_GetTimeout (ref p).
End Partition.
Arguments t : clear implicits.
End Partition.

(** ** What a volume needs of its columns
    [ReadCached] and [WriteCached] go through the cache, or directly to the
    partition, of a column; a column that is not set has no partition. *)
Record CellOps (S : Type) := mkops {
  Columns : Z;
  is_set : Z -> bool;
  VerifyBlock : Z -> Z -> M S bool;
  ReadCached : Z -> Z -> list Z -> Z -> M S (bool * list Z);
  WriteCached : Z -> Z -> list Z -> Z -> M S bool
}.
Arguments Columns {S} c. Arguments is_set {S} c col. Arguments VerifyBlock {S} c col row.
Arguments ReadCached {S} c row col buffer offset. Arguments WriteCached {S} c row col buffer offset.

Module Volume.
Section Volume.
Context {R S : Type} `{BdPartition R S}.
Record t := mk {
  blockCount : Z; dataCount : Z; codeCount : Z; blockSize : Z;
  partitions : list (option (Partition.t R))
}.
Definition make (dataCount codeCount blockCount blockSize : Z) : t :=
  mk blockCount dataCount codeCount blockSize (replicate (Z.to_nat (dataCount + codeCount)) None).

Definition set_partitions (ps : list (option (Partition.t R))) (v : t) : t :=
  mk (blockCount v) (dataCount v) (codeCount v) (blockSize v) ps.

(** an index equal to the number of partitions passes the test *)
Definition SetPartition (index : Z) (partition : option (Partition.t R)) (v : t) : outcome (bool * t) :=
  match partition with
  | None => Ok (false, v)
  | Some p =>
      if (zlen (partitions v) <? index) || negb (Partition.blockSize p =? blockSize v) ||
         (Partition.blockCount p <? blockCount v)
      then Ok (false, v)
      else if zlen (partitions v) <=? index then Fault OutOfBounds
      else Ok (true, set_partitions (<[Z.to_nat index := Some p]> (partitions v)) v)
  end.

(** ** Direct access to the partitions *)
Definition partition_at (v : t) (column : Z) : M S (Partition.t R) :=
  match partitions v !! Z.to_nat column with
  | None => fail OutOfBounds
  | Some None => fail NullDeref
  | Some (Some p) => ret p
  end.
Definition ReadDirect (v : t) (row column : Z) (buffer : list Z) (offset : Z) : M S (bool * list Z) :=
  p <- partition_at v column ;; Partition.ReadBlock p row buffer offset.
Definition WriteDirect (v : t) (row column : Z) (buffer : list Z) (offset : Z) : M S bool :=
  p <- partition_at v column ;; Partition.WriteBlock p row buffer offset.
Definition direct (v : t) : CellOps S :=
  mkops S (zlen (partitions v))
    (fun column => match partitions v !! Z.to_nat column with Some (Some _) => true | _ => false end)
    (fun column row => p <- partition_at v column ;; Partition.VerifyBlock p row)
    (ReadDirect v) (WriteDirect v).

Fixpoint total_timeout (ps : list (option (Partition.t R))) : outcome Z :=
  match ps with
  | [] => Ok 0
  | None :: _ => Fault NullDeref
  | Some p :: ps => obind (total_timeout ps) (fun n => Ok (u32 (Partition.GetTimeout p + n)))
  end.
Definition GetTimeout (v : t) : outcome Z := total_timeout (partitions v).

(** every partition is told to delete, whatever the others say *)
Fixpoint delete_all (ps : list (option (Partition.t R))) (success : bool) : M S bool :=
  match ps with
  | [] => ret success
  | None :: _ => fail NullDeref
  | Some p :: ps => b <- Partition.Delete p ;; delete_all ps (success && b)
  end.
Definition Delete (v : t) : M S bool := delete_all (partitions v) true.
End Volume.
Arguments t : clear implicits.
End Volume.
