(* ===== verification/VolumeRow.v ===== *)
(** * Rows, reads and writes of a volume (src/src/bdfsclient-lib/VolumeRow.cpp,
      Volume.cpp, VolumeCell.cpp)

    Everything here works on the columns through [CellOps], so it is the same with
    and without the cache. *)

From Stdlib Require Import ZArith Lia Bool Ascii String.
From stdpp Require Import base list gmap strings.
From S2P Require Import Prelude Streams Volume.
Set Default Goal Selector "!".
Local Open Scope Z_scope.
Local Open Scope drive_scope.

(** the numbers of a volume *)
Record geometry := mkgeometry { rows : Z; dataCount : Z; codeCount : Z; blockSize : Z }.

(** the erasure code: [cm256_encode] on the original blocks gives the recovery
    blocks, [cm256_decode] works on (index, block) pairs in place; both fail with
    a nonzero code *)
Record erasure := mkerasure {
  cm256_encode : Z -> Z -> Z -> list (list Z) -> option (list (list Z));
  cm256_decode : Z -> Z -> Z -> list (Z * list Z) -> option (list (Z * list Z))
}.

(** [AES_cbc_encrypt] on a whole block with the volume's keys *)
Record cipher := mkcipher {
  aes_encrypt : list Z -> list Z -> list Z;
  aes_decrypt : list Z -> list Z -> list Z
}.
(** [memset(iv, row, AES_BLOCK_SIZE)] *)
Definition iv_of (row : Z) : list Z := replicate 16 (u8 row).

Section Rows.
Context {S : Type} (ops : CellOps S) (g : geometry) (code : erasure) (aes : cipher).

(** [cm256_block blocks\[256\]] is on the stack *)
Definition MAX_BLOCKS : Z := 256.

(** ** Row::Encode *)
Fixpoint read_data (cols : list Z) (row : Z) : M S (list (list Z)) :=
  match cols with
  | [] => ret []
  | i :: cols =>
      (* the result is not tested: the buffer was zeroed *)
      pat! (_, cell) <- ReadCached ops row i (replicate (Z.to_nat (blockSize g)) 0) 0 ;;
      cells <- read_data cols row ;;
      ret (cell :: cells)
  end.
Fixpoint write_codes (i : Z) (codes : list (list Z)) (row : Z) : M S unit :=
  match codes with
  | [] => ret tt
  | cell :: codes =>
      WriteCached ops row (i + dataCount g) cell 0 ;;;
      write_codes (i + 1) codes row
  end.
Definition columns (n : Z) : list Z := map Z.of_nat (seq 0 (Z.to_nat n)).

Definition Encode (row : Z) : M S bool :=
  if MAX_BLOCKS <? dataCount g then fail OutOfBounds else
  blocks <- read_data (columns (dataCount g)) row ;;
  match cm256_encode code (blockSize g) (dataCount g) (codeCount g) blocks with
  | None => ret false
  | Some codes => write_codes 0 codes row ;;; ret true
  end.

(** ** Row::Decode *)
Definition VerifyCell (row column : Z) : M S bool :=
  if Columns ops <=? column then ret false
  else if negb (is_set ops column) then ret false
  else VerifyBlock ops column row.

(** the first loop: the (index, block) pairs and the missing columns; None when a
    verified cell cannot be read *)
Fixpoint collect (cols : list Z) (row : Z) : M S (option (list (Z * list Z) * list Z)) :=
  match cols with
  | [] => ret (Some ([], []))
  | i :: cols =>
      let zeros := replicate (Z.to_nat (blockSize g)) 0 in
      good <- VerifyCell row i ;;
      pat! (ok, cell) <-
        (if good : bool then ReadCached ops row i zeros 0 else ret (true, zeros)) ;;
      if negb ok then ret None else
      rest <- collect cols row ;;
      ret (match rest with
           | None => None
           | Some (blocks, missing) =>
               if good then Some ((i, cell) :: blocks, missing)
               else Some ((0, cell) :: blocks, i :: missing)
           end)
  end.

Fixpoint write_back (missing : list Z) (blocks : list (Z * list Z)) (row : Z) : M S unit :=
  match missing with
  | [] => ret tt
  | oi :: missing =>
      WriteCached ops row oi (snd (nth (Z.to_nat oi) blocks (0, []))) 0 ;;;
      write_back missing blocks row
  end.

(** the second loop, over the code cells: [todo] are the missing columns that have
    no recovery block yet; the result is the blocks, or None for an early return of
    false *)
Fixpoint recover (cols : list Z) (row : Z) (missing todo : list Z) (blocks : list (Z * list Z))
  : M S (option (list (Z * list Z))) :=
  match cols, todo with
  | i :: cols, oi :: todo' =>
      good <- VerifyCell row (i + dataCount g) ;;
      if good : bool then
        let slot := Z.to_nat oi in
        pat! (ok, cell) <- ReadCached ops row (i + dataCount g) (snd (nth slot blocks (0, []))) 0 ;;
        if negb ok then ret None else
        let blocks := <[slot := (dataCount g + i, cell)]> blocks in
        match todo' with
        | [] =>
            match cm256_decode code (blockSize g) (dataCount g) (codeCount g) blocks with
            | None => ret None
            | Some blocks => write_back missing blocks row ;;; ret (Some blocks)
            end
        | _ => recover cols row missing todo' blocks
        end
      else recover cols row missing todo blocks
  | _, _ => ret (Some blocks)
  end.

Definition Decode (row : Z) : M S bool :=
  if MAX_BLOCKS <? dataCount g then fail OutOfBounds else
  found <- collect (columns (dataCount g)) row ;;
  match found with
  | None => ret false
  | Some (blocks, missing) =>
      recovered <- recover (columns (codeCount g)) row missing missing blocks ;;
      match recovered with
      | None => ret false
      | Some blocks =>
          match cm256_encode code (blockSize g) (dataCount g) (codeCount g) (map snd blocks) with
          | None => ret false
          | Some codes => write_codes 0 codes row ;;; ret true
          end
      end
  end.

(** ** Row::Verify *)
Fixpoint verify_columns (cols : list Z) (row : Z) : M S bool :=
  match cols with
  | [] => ret true
  | i :: cols =>
      if negb (is_set ops i) then ret false else
      good <- VerifyBlock ops i row ;;
      ok <- (if good : bool then ret true else Decode row) ;;
      if negb ok then ret false else verify_columns cols row
  end.
Definition Verify (row : Z) : M S bool := verify_columns (columns (Columns ops)) row.

(** ** Volume::Write and Volume::Read *)
Definition capacity : Z := u64 (u64 (rows g * dataCount g) * blockSize g).
Definition out_of_range (size offset : Z) : bool :=
  (capacity <=? offset) || (capacity <? size) || (capacity <? u64 (offset + size)).

(** the row and column after this one; a new row is verified first, and when
    [encode] is set the old one encoded *)
Definition next_cell (encode : bool) (row col : Z) : M S (option (Z * Z)) :=
  if col + 1 =? dataCount g then
    ok <- (if encode then Encode row else ret true) ;;
    if negb ok then ret None else
    ok <- Verify (row + 1) ;;
    ret (if ok : bool then Some (row + 1, 0) else None)
  else ret (Some (row, col + 1)).

Fixpoint write_loop (fuel : nat) (row col blockOffset : Z) (buffer : list Z) : M S bool :=
  match fuel with
  | O => nofuel
  | Datatypes.S fuel =>
      let toWrite := Z.min (zlen buffer) (blockSize g - blockOffset) in
      ok <- WriteCached ops row col (take (Z.to_nat toWrite) buffer) blockOffset ;;
      if negb ok then ret false else
      let buffer := drop (Z.to_nat toWrite) buffer in
      if zlen buffer =? 0 then Encode row else
      next <- next_cell true row col ;;
      match next with
      | None => ret false
      | Some (row, col) => write_loop fuel row col 0 buffer
      end
  end.

(** [dataBlock], [blockOffset], [row], [col] of an offset *)
Definition locate (offset : Z) : Z * Z * Z :=
  let dataBlock := offset / blockSize g in
  let row := dataBlock / dataCount g in
  (row, dataBlock - row * dataCount g, offset - dataBlock * blockSize g).
Definition divisible : bool := negb (blockSize g =? 0) && negb (dataCount g =? 0).

Definition Write (buffer : list Z) (offset : Z) : M S bool :=
  if zlen buffer =? 0 then ret true else
  if negb divisible then fail DivByZero else
  let '(row, col, blockOffset) := locate offset in
  if out_of_range (zlen buffer) offset then ret false else
  ok <- Verify row ;;
  if negb ok then ret false else
  write_loop (Datatypes.S (length buffer)) row col blockOffset buffer.

(** what has been read, then the rest of the caller's buffer *)
Fixpoint read_loop (fuel : nat) (row col blockOffset : Z) (done buffer : list Z)
  : M S (bool * list Z) :=
  match fuel with
  | O => nofuel
  | Datatypes.S fuel =>
      let toRead := Z.min (zlen buffer) (blockSize g - blockOffset) in
      pat! (ok, data) <- ReadCached ops row col (take (Z.to_nat toRead) buffer) blockOffset ;;
      let rest := drop (Z.to_nat toRead) buffer in
      let done := done ++ data in
      if negb ok then ret (false, done ++ rest) else
      if zlen rest =? 0 then ret (true, done) else
      next <- next_cell false row col ;;
      match next with
      | None => ret (false, done ++ rest)
      | Some (row, col) => read_loop fuel row col 0 done rest
      end
  end.

Definition Read (buffer : list Z) (offset : Z) : M S (bool * list Z) :=
  if zlen buffer =? 0 then ret (true, buffer) else
  if negb divisible then fail DivByZero else
  let '(row, col, blockOffset) := locate offset in
  if out_of_range (zlen buffer) offset then ret (false, buffer) else
  ok <- Verify row ;;
  if negb ok then ret (false, buffer) else
  read_loop (Datatypes.S (length buffer)) row col blockOffset [] buffer.

(** ** With encryption *)
Definition zero_block : list Z := replicate (Z.to_nat (blockSize g)) 0.

(** [clear] and [crypt] are the two block buffers, kept from one cell to the next *)
Fixpoint write_encrypt_loop (fuel : nat) (row col blockOffset : Z) (clear crypt buffer : list Z)
  : M S bool :=
  match fuel with
  | O => nofuel
  | Datatypes.S fuel =>
      let toWrite := Z.min (zlen buffer) (blockSize g - blockOffset) in
      loaded <-
        (if toWrite <? blockSize g then
           pat! (ok, crypt) <- ReadCached ops row col crypt 0 ;;
           ret (if ok : bool then Some (aes_decrypt aes (iv_of row) crypt) else None)
         else ret (Some clear)) ;;
      match loaded with
      | None => ret false
      | Some clear =>
          let clear := write_at clear (Z.to_nat blockOffset) (take (Z.to_nat toWrite) buffer) in
          let crypt := aes_encrypt aes (iv_of row) clear in
          ok <- WriteCached ops row col crypt 0 ;;
          if negb ok then ret false else
          let buffer := drop (Z.to_nat toWrite) buffer in
          if zlen buffer =? 0 then Encode row else
          next <- next_cell true row col ;;
          match next with
          | None => ret false
          | Some (row, col) => write_encrypt_loop fuel row col 0 clear crypt buffer
          end
      end
  end.
(** [junk1] and [junk2]: the two buffers are not initialised *)
Definition WriteEncrypt (junk1 junk2 : list Z) (buffer : list Z) (offset : Z) : M S bool :=
  if zlen buffer =? 0 then ret true else
  if negb divisible then fail DivByZero else
  let '(row, col, blockOffset) := locate offset in
  if out_of_range (zlen buffer) offset then ret false else
  ok <- Verify row ;;
  if negb ok then ret false else
  write_encrypt_loop (Datatypes.S (length buffer)) row col blockOffset junk1 junk2 buffer.

Fixpoint read_decrypt_loop (fuel : nat) (row col blockOffset : Z) (crypt done buffer : list Z)
  : M S (bool * list Z) :=
  match fuel with
  | O => nofuel
  | Datatypes.S fuel =>
      let toRead := Z.min (zlen buffer) (blockSize g - blockOffset) in
      pat! (ok, crypt) <- ReadCached ops row col crypt 0 ;;
      if negb ok then ret (false, done ++ buffer) else
      let clear := aes_decrypt aes (iv_of row) crypt in
      let rest := drop (Z.to_nat toRead) buffer in
      let done := done ++ read_at clear (Z.to_nat blockOffset) (Z.to_nat toRead) in
      if zlen rest =? 0 then ret (true, done) else
      next <- next_cell false row col ;;
      match next with
      | None => ret (false, done ++ rest)
      | Some (row, col) => read_decrypt_loop fuel row col 0 crypt done rest
      end
  end.
Definition ReadDecrypt (junk : list Z) (buffer : list Z) (offset : Z) : M S (bool * list Z) :=
  if zlen buffer =? 0 then ret (true, buffer) else
  if negb divisible then fail DivByZero else
  let '(row, col, blockOffset) := locate offset in
  if out_of_range (zlen buffer) offset then ret (false, buffer) else
  ok <- Verify row ;;
  if negb ok then ret (false, buffer) else
  read_decrypt_loop (Datatypes.S (length buffer)) row col blockOffset junk [] buffer.

(** ** Single cells *)
Definition WriteCell (row column : Z) (buffer : list Z) (offset : Z) : M S bool :=
  if Columns ops <=? column then ret false
  else if negb (is_set ops column) then ret false else
  ok <- (if column <? dataCount g then Verify row else ret true) ;;
  if negb ok then ret false else
  ok <- WriteCached ops row column buffer offset ;;
  if negb ok then ret false else
  if column <? dataCount g then Encode row else ret true.

Definition ReadCell (row column : Z) (buffer : list Z) (offset : Z) : M S (bool * list Z) :=
  if Columns ops <=? column then ret (false, buffer)
  else if negb (is_set ops column) then ret (false, buffer) else
  pat! (ok, buffer) <- ReadCached ops row column buffer offset ;;
  if ok : bool then ret (true, buffer) else
  ok <- Verify row ;;
  if negb ok then ret (false, buffer) else
  ReadCached ops row column buffer offset.
End Rows.
