(* ===== verification/VolumeFacts.v ===== *)
(** * A volume is an array of bytes

    Reads and writes of [VolumeRow] against columns that keep their contract are
    reads and writes of the byte array the data cells make up, and every row a
    write touches has its code cells recomputed. *)

From Stdlib Require Import ZArith Lia Bool Ascii String.
From stdpp Require Import base list gmap strings.
From S2P Require Import Prelude Streams Volume VolumeRow.
Set Default Goal Selector "!".
Local Open Scope Z_scope.
Local Open Scope drive_scope.

(** the contents of all cells, by row and column *)
Abbreviation grid := (Z -> Z -> list Z).
Definition set_cell (c : grid) (row col : Z) (d : list Z) : grid :=
  fun r j => if (r =? row) && (j =? col) then d else c r j.

Lemma set_cell_eq c row col d : set_cell c row col d row col = d.
Proof. unfold set_cell. by rewrite !Z.eqb_refl. Qed.
Lemma set_cell_ne c row col d r j : r <> row \/ j <> col -> set_cell c row col d r j = c r j.
Proof.
  intros H. unfold set_cell. destruct (Z.eqb_spec r row), (Z.eqb_spec j col); try done. lia.
Qed.

Lemma nth_read_at l off n i : (i < n)%nat -> nth i (read_at l off n) 0 = nth (off + i) l 0.
Proof.
  intros Hi. unfold read_at. rewrite !nth_lookup, lookup_take_lt by done. by rewrite lookup_drop.
Qed.

Lemma nth_write_at l off d i :
  (off + length d <= length l)%nat ->
  nth i (write_at l off d) 0
    = if ((off <=? i) && (i <? off + length d))%nat then nth (i - off) d 0 else nth i l 0.
Proof.
  intros Hl. unfold write_at. replace (off - length l)%nat with 0%nat by lia.
  cbn [replicate]. rewrite app_nil_r. rewrite !nth_lookup.
  assert (Ht : length (take off l) = off) by (rewrite length_take; lia).
  destruct (Nat.leb_spec off i); cbn [andb].
  - rewrite lookup_app_r by lia. rewrite Ht.
    destruct (Nat.ltb_spec i (off + length d)).
    + by rewrite lookup_app_l by lia.
    + rewrite lookup_app_r, lookup_drop by lia. do 2 f_equal. lia.
  - rewrite lookup_app_l, lookup_take_lt by lia. done.
Qed.

Section Laws.
Context {S : Type} (ops : CellOps S) (g : geometry) (code : erasure) (aes : cipher).
Abbreviation bs := (blockSize g).
Abbreviation k := (dataCount g).
Abbreviation m := (codeCount g).

(** sizes that do not wrap around, and fit cm256 *)
Record geometry_ok : Prop := {
  geo_rows : 0 < rows g;
  geo_data : 0 < k <= 256;
  geo_code : 0 <= m;
  geo_block : 0 < bs;
  geo_total : rows g * k * bs < 2 ^ 63
}.

(** the columns hold the grid [c] and can be read, written and verified *)
Record cell_laws (holds : S -> grid -> Prop) : Prop := {
  law_columns : Columns ops = k + m;
  law_set col : 0 <= col < k + m -> is_set ops col = true;
  law_length s c row col : holds s c -> 0 <= row < rows g -> 0 <= col < k + m ->
    zlen (c row col) = bs;
  law_verify s c row col : holds s c -> 0 <= row < rows g -> 0 <= col < k + m ->
    VerifyBlock ops col row s = Ok (true, s);
  law_read s c row col w off : holds s c -> 0 <= row < rows g -> 0 <= col < k + m ->
    0 <= off -> 0 < zlen w -> off + zlen w <= bs ->
    exists s', ReadCached ops row col w off s
        = Ok ((true, read_at (c row col) (Z.to_nat off) (length w)), s') /\ holds s' c;
  law_write s c row col d off : holds s c -> 0 <= row < rows g -> 0 <= col < k + m ->
    0 <= off -> 0 < zlen d -> off + zlen d <= bs ->
    exists s', WriteCached ops row col d off s = Ok (true, s') /\
      holds s' (set_cell c row col (write_at (c row col) (Z.to_nat off) d))
}.

(** the code works on this geometry *)
Definition encoder_total : Prop := forall blocks,
  zlen blocks = k -> Forall (fun b => zlen b = bs) blocks ->
  exists codes, cm256_encode code bs k m blocks = Some codes /\
    zlen codes = m /\ Forall (fun b => zlen b = bs) codes.
(** the code cells of a row are the encoding of its data cells *)
Definition coded (c : grid) (row : Z) : Prop :=
  cm256_encode code bs k m (map (c row) (columns k))
    = Some (map (fun i => c row (k + i)) (columns m)).

Context (holds : S -> grid -> Prop).
Hypotheses (Hgeo : geometry_ok) (Hlaws : cell_laws holds) (Hcode : encoder_total).

Lemma columns_range n i : In i (columns n) -> 0 <= i < n.
Proof.
  unfold columns. intros Hi. apply in_map_iff in Hi as (j & <- & Hj). apply in_seq in Hj. lia.
Qed.
Lemma length_columns n : length (columns n) = Z.to_nat n.
Proof. unfold columns. by rewrite length_map, length_seq. Qed.
Lemma nth_columns n i : (i < Z.to_nat n)%nat -> columns n !! i = Some (Z.of_nat i).
Proof.
  intros Hi. unfold columns. rewrite list_lookup_fmap, lookup_seq_lt by done. done.
Qed.

(** ** Encoding a row *)
Lemma read_data_ok cols row s c :
  holds s c -> 0 <= row < rows g -> (forall i, In i cols -> 0 <= i < k) ->
  exists s', read_data ops g cols row s = Ok (map (c row) cols, s') /\ holds s' c.
Proof.
  intros Hh Hr. revert s Hh. induction cols as [|i cols IH]; intros s Hh Hc; cbn [read_data map].
  - by exists s.
  - destruct Hgeo as [_ Hk Hm Hb _]. assert (Hi : 0 <= i < k) by (apply Hc; by left).
    destruct (law_read _ Hlaws s c row i (replicate (Z.to_nat bs) 0) 0 Hh Hr)
      as (s1 & E1 & H1); [lia|lia|unfold zlen; rewrite length_replicate; lia|unfold zlen; rewrite length_replicate; lia|].
    pose proof (law_length _ Hlaws s c row i Hh Hr ltac:(lia)) as Hl.
    rewrite length_replicate, read_at_all in E1 by (unfold zlen in Hl; lia).
    rewrite (bind_ok _ _ _ _ _ E1).
    destruct (IH s1 H1) as (s2 & E2 & H2); [intros j Hj; apply Hc; by right|].
    rewrite (bind_ok _ _ _ _ _ E2). by exists s2.
Qed.

Lemma write_codes_ok i codes row s c :
  holds s c -> 0 <= row < rows g -> 0 <= i -> i + zlen codes <= m ->
  Forall (fun b => zlen b = bs) codes ->
  exists s' c', write_codes ops g i codes row s = Ok (tt, s') /\ holds s' c' /\
    (forall r j, ~ (r = row /\ k + i <= j < k + i + zlen codes) -> c' r j = c r j) /\
    (forall n d, codes !! n = Some d -> c' row (k + i + Z.of_nat n) = d).
Proof.
  intros Hh Hr. revert i s c Hh. induction codes as [|d codes IH]; intros i s c Hh Hi Hl Hf;
    cbn [write_codes].
  - exists s, c. split_and_all; done.
  - apply Forall_cons_1 in Hf as [Hd Hf]. destruct Hgeo as [_ Hk Hm Hb _].
    assert (Hzl : zlen (d :: codes) = 1 + zlen codes) by (unfold zlen; cbn [length]; lia).
    pose proof (zlen_nonneg codes) as Hcn.
    destruct (law_write _ Hlaws s c row (i + k) d 0 Hh Hr) as (s1 & E1 & H1); [lia|lia|lia|lia|].
    rewrite (bind_ok _ _ _ _ _ E1).
    destruct (IH (i + 1) s1 _ H1) as (s2 & c2 & E2 & H2 & Ho & Hn); [lia|lia|done|].
    exists s2, c2. split_and_all; [exact E2|exact H2| |].
    + intros r j Hrj. rewrite Ho by lia. apply set_cell_ne.
      destruct (Z.eq_dec r row); [|by left]. right. lia.
    + intros [|n] x Hx; cbn in Hx.
      * injection Hx as <-. rewrite Ho by lia.
        replace (k + i + Z.of_nat 0) with (i + k) by lia. rewrite set_cell_eq.
        pose proof (law_length _ Hlaws s c row (i + k) Hh Hr ltac:(lia)) as Hlc.
        unfold write_at. change (Z.to_nat 0) with 0%nat.
        rewrite drop_ge by (unfold zlen in *; lia). by rewrite take_0, app_nil_l, app_nil_r.
      * rewrite <- (Hn n x Hx). f_equal. lia.
Qed.

(** the data cells are the same *)
Definition same_data (c c' : grid) : Prop := forall r j, 0 <= j < k -> c' r j = c r j.
(** the whole row is the same *)
Definition same_row (c c' : grid) (r : Z) : Prop := forall j, 0 <= j < k + m -> c' r j = c r j.

Lemma coded_same c c' r : same_row c c' r -> coded c r -> coded c' r.
Proof.
  intros Hs Hc. unfold coded in *. destruct Hgeo as [_ Hk Hm _ _].
  rewrite <- (map_ext_in (c r) (c' r)), Hc.
  - f_equal. apply map_ext_in. intros i Hi. apply columns_range in Hi. symmetry. apply Hs. lia.
  - intros i Hi. apply columns_range in Hi. symmetry. apply Hs. lia.
Qed.

Lemma Encode_ok row s c :
  holds s c -> 0 <= row < rows g ->
  exists s' c', Encode ops g code row s = Ok (true, s') /\ holds s' c' /\ same_data c c' /\
    coded c' row /\ forall r, r <> row -> same_row c c' r.
Proof.
  intros Hh Hr. pose proof Hgeo as [_ Hk Hm Hb _]. unfold Encode, MAX_BLOCKS.
  destruct (Z.ltb_spec 256 k); [lia|].
  destruct (read_data_ok (columns k) row s c Hh Hr (columns_range k)) as (s1 & E1 & H1).
  rewrite (bind_ok _ _ _ _ _ E1).
  destruct (Hcode (map (c row) (columns k))) as (codes & Ec & Hlc & Hfc).
  - unfold zlen. rewrite length_map, length_columns. lia.
  - apply Forall_map, Forall_forall. intros i Hi. apply list_elem_of_In, columns_range in Hi.
    apply (law_length _ Hlaws s); [done|done|lia].
  - rewrite Ec. destruct (write_codes_ok 0 codes row s1 c H1 Hr) as (s2 & c2 & E2 & H2 & Ho & Hn);
      [lia|lia|done|].
    rewrite (bind_ok _ _ _ _ _ E2). exists s2, c2. split_and_all; [done|done| | |].
    + intros r j Hj. apply Ho. lia.
    + unfold coded. rewrite <- (map_ext_in (c row) (c2 row)), Ec.
      * f_equal. apply list_eq. intros n.
        destruct (codes !! n) as [d|] eqn:En.
        -- pose proof (lookup_lt_Some _ _ _ En). unfold zlen in Hlc.
           rewrite list_lookup_fmap, nth_columns by lia. cbn. f_equal.
           rewrite <- (Hn n d En). f_equal. lia.
        -- apply lookup_ge_None in En. symmetry. apply lookup_ge_None.
           rewrite length_map, length_columns. unfold zlen in Hlc. lia.
      * intros i Hi. apply columns_range in Hi. symmetry. apply Ho. lia.
    + intros r Hne j Hj. apply Ho. lia.
Qed.

Lemma verify_columns_ok cols row s c :
  holds s c -> 0 <= row < rows g -> (forall i, In i cols -> 0 <= i < k + m) ->
  verify_columns ops g code cols row s = Ok (true, s).
Proof.
  intros Hh Hr. induction cols as [|i cols IH]; intros Hc; cbn [verify_columns]; [done|].
  assert (Hi : 0 <= i < k + m) by (apply Hc; by left).
  rewrite (law_set _ Hlaws i Hi). cbn [negb].
  rewrite (bind_ok _ _ _ _ _ (law_verify _ Hlaws s c row i Hh Hr Hi)).
  rewrite (bind_ok _ _ s true s eq_refl). cbn [negb]. apply IH. intros j Hj. apply Hc. by right.
Qed.

Lemma Verify_ok row s c : holds s c -> 0 <= row < rows g -> Verify ops g code row s = Ok (true, s).
Proof.
  intros Hh Hr. unfold Verify. eapply verify_columns_ok; [done|done|].
  intros i Hi. rewrite (law_columns _ Hlaws) in Hi. by apply columns_range.
Qed.

(** ** Addresses *)
Definition total : Z := rows g * k * bs.
Definition byte_at (v : grid) (a : Z) : Z :=
  nth (Z.to_nat (a mod bs)) (v (a / bs / k) (a / bs mod k)) 0.
Definition bytes_at (v : grid) (a : Z) (n : nat) : list Z :=
  map (fun i => byte_at v (a + Z.of_nat i)) (seq 0 n).
(** [v'] is [v] with [d] stored at [addr] *)
Definition patched (v v' : grid) (addr : Z) (d : list Z) : Prop :=
  forall a, 0 <= a < total ->
    byte_at v' a = if (addr <=? a) && (a <? addr + zlen d)
                   then nth (Z.to_nat (a - addr)) d 0 else byte_at v a.

Lemma addr_split row col bo : 0 <= row -> 0 <= col < k -> 0 <= bo < bs ->
  let a := (row * k + col) * bs + bo in
  a / bs / k = row /\ a / bs mod k = col /\ a mod bs = bo.
Proof.
  intros Hr Hc Hb a. destruct Hgeo as [_ Hk _ Hbs _].
  assert (E : a / bs = row * k + col) by (symmetry; apply Z.div_unique with bo; lia).
  rewrite E. split_and_all.
  - symmetry. apply Z.div_unique with col; lia.
  - symmetry. apply Z.mod_unique with row; lia.
  - symmetry. apply Z.mod_unique with (row * k + col); lia.
Qed.

Lemma addr_join a : 0 <= a < total ->
  let row := a / bs / k in let col := a / bs mod k in
  0 <= row < rows g /\ 0 <= col < k /\ 0 <= a mod bs < bs /\
  a = (row * k + col) * bs + a mod bs.
Proof.
  intros Ha. cbv zeta. destruct Hgeo as [_ Hk _ Hbs _]. unfold total in Ha.
  pose proof (Z.div_mod a bs ltac:(lia)). pose proof (Z.mod_pos_bound a bs ltac:(lia)).
  pose proof (Z.div_mod (a / bs) k ltac:(lia)). pose proof (Z.mod_pos_bound (a / bs) k ltac:(lia)).
  pose proof (Z.div_pos a bs ltac:(lia) ltac:(lia)).
  pose proof (Z.div_pos (a / bs) k ltac:(lia) ltac:(lia)).
  set (row := a / bs / k) in *. set (col := a / bs mod k) in *. split_and_all; try lia.
  assert (a / bs < rows g * k) by (apply Z.div_lt_upper_bound; lia). nia.
Qed.

Lemma cell_in_range row col bo : 0 <= row -> 0 <= col < k -> 0 <= bo < bs ->
  (row * k + col) * bs + bo < total -> row < rows g.
Proof.
  intros Hr Hc Hb Ht. destruct Hgeo as [_ Hk _ Hbs _]. unfold total in Ht.
  destruct (Z.lt_ge_cases row (rows g)) as [|C]; [done|]. exfalso.
  assert (rows g * k <= row * k + col) by nia. nia.
Qed.

Lemma bytes_at_app v a n p :
  bytes_at v a (n + p) = bytes_at v a n ++ bytes_at v (a + Z.of_nat n) p.
Proof.
  unfold bytes_at. rewrite seq_app, map_app. f_equal. rewrite Nat.add_0_l.
  rewrite <- (Nat.add_0_r n) at 1. rewrite <- fmap_add_seq. unfold fmap. rewrite map_map.
  apply map_ext. intros i. f_equal. lia.
Qed.

Lemma length_bytes_at v a n : length (bytes_at v a n) = n.
Proof. unfold bytes_at. by rewrite length_map, length_seq. Qed.
Lemma nth_bytes_at v a n i : (i < n)%nat -> nth i (bytes_at v a n) 0 = byte_at v (a + Z.of_nat i).
Proof.
  intros Hi. rewrite nth_lookup. unfold bytes_at.
  by rewrite list_lookup_fmap, lookup_seq_lt by done.
Qed.

Lemma chunk_bytes v row col bo n : 0 <= row -> 0 <= col < k -> 0 <= bo -> bo < bs ->
  bo + Z.of_nat n <= bs -> zlen (v row col) = bs ->
  read_at (v row col) (Z.to_nat bo) n = bytes_at v ((row * k + col) * bs + bo) n.
Proof.
  intros Hr Hc Hb0 Hb Hn Hl. unfold zlen in Hl. apply nth_ext with 0 0.
  - rewrite length_read_at, length_bytes_at. lia.
  - intros i Hi. rewrite length_read_at in Hi. rewrite nth_read_at by lia.
    rewrite nth_bytes_at by lia. unfold byte_at.
    destruct (addr_split row col (bo + Z.of_nat i) Hr Hc ltac:(lia)) as (E1 & E2 & E3).
    replace ((row * k + col) * bs + bo + Z.of_nat i)
      with ((row * k + col) * bs + (bo + Z.of_nat i)) by lia.
    rewrite E1, E2, E3. f_equal. lia.
Qed.

Lemma patched_cell (v v' : grid) row col bo d :
  0 <= row -> 0 <= col < k -> 0 <= bo < bs -> bo + zlen d <= bs -> zlen (v row col) = bs ->
  v' row col = write_at (v row col) (Z.to_nat bo) d ->
  (forall r j, 0 <= j < k -> r <> row \/ j <> col -> v' r j = v r j) ->
  patched v v' ((row * k + col) * bs + bo) d.
Proof.
  intros Hr Hc Hb Hd Hl He Ho a Ha. destruct (addr_join a Ha) as (Har & Hac & Hab & Ea).
  set (ar := a / bs / k) in *. set (ac := a / bs mod k) in *. set (ao := a mod bs) in *.
  unfold byte_at. fold ar ac ao. unfold zlen in *.
  destruct (Z.eq_dec ar row) as [E1|E1], (Z.eq_dec ac col) as [E2|E2].
  2-4: rewrite Ho by lia; destruct (Z.leb_spec ((row * k + col) * bs + bo) a); [|done];
    destruct (Z.ltb_spec a ((row * k + col) * bs + bo + Z.of_nat (length d))); [|done]; exfalso;
    assert (ar * k + ac = row * k + col) by nia; nia.
  rewrite E1, E2 in *. rewrite He, nth_write_at by lia.
  destruct (Nat.leb_spec (Z.to_nat bo) (Z.to_nat ao)), (Z.leb_spec ((row * k + col) * bs + bo) a);
    try lia; cbn [andb]; try done.
  destruct (Nat.ltb_spec (Z.to_nat ao) (Z.to_nat bo + length d)),
    (Z.ltb_spec a ((row * k + col) * bs + bo + Z.of_nat (length d))); try lia; try done.
  f_equal. lia.
Qed.

Lemma patched_trans v v1 v2 a d1 d2 :
  patched v v1 a d1 -> patched v1 v2 (a + zlen d1) d2 -> patched v v2 a (d1 ++ d2).
Proof.
  intros H1 H2 x Hx. rewrite H2, H1 by done. rewrite zlen_app.
  pose proof (zlen_nonneg d1). pose proof (zlen_nonneg d2). unfold zlen in *.
  destruct (Z.leb_spec (a + Z.of_nat (length d1)) x), (Z.leb_spec a x),
    (Z.ltb_spec x (a + Z.of_nat (length d1) + Z.of_nat (length d2))),
    (Z.ltb_spec x (a + Z.of_nat (length d1))),
    (Z.ltb_spec x (a + (Z.of_nat (length d1) + Z.of_nat (length d2)))); cbn [andb]; try lia; try done.
  - rewrite app_nth2 by lia. f_equal. lia.
  - by rewrite app_nth1 by lia.
Qed.

Lemma patched_nil v v' a : (forall r j, 0 <= j < k -> v' r j = v r j) -> patched v v' a [].
Proof.
  intros H x Hx. destruct (addr_join x Hx) as (_ & Hc & _). unfold byte_at.
  rewrite H by lia. destruct (_ && _) eqn:E; [|done].
  apply andb_true_iff in E as [E1 E2]. zbool. unfold zlen in E2. cbn in E2. lia.
Qed.

(** ** From one cell to the next *)
(** rows stay coded, and those from [row] up to [row'] are *)
Definition progress (row row' : Z) (c c' : grid) : Prop :=
  forall r, 0 <= r < rows g -> coded c r \/ row <= r < row' -> coded c' r.

Lemma next_cell_ok enc row col s c :
  holds s c -> 0 <= row -> 0 <= col < k -> (row * k + col + 1) * bs < total ->
  exists s' c' row' col',
    next_cell ops g code enc row col s = Ok (Some (row', col'), s') /\ holds s' c' /\
    0 <= row' < rows g /\ 0 <= col' < k /\ row' * k + col' = row * k + col + 1 /\
    row <= row' /\ same_data c c' /\ (enc = true -> progress row row' c c') /\
    (enc = false -> c' = c).
Proof.
  intros Hh Hr Hc Ht. pose proof Hgeo as [_ Hk Hm Hb _]. unfold next_cell, total in *.
  assert (Hlt : row * k + col + 1 < rows g * k).
  { destruct (Z.lt_ge_cases (row * k + col + 1) (rows g * k)) as [|C]; [done|]. exfalso. nia. }
  destruct (Z.eqb_spec (col + 1) k) as [E|E].
  - assert (Hr1 : row + 1 < rows g).
    { destruct (Z.lt_ge_cases (row + 1) (rows g)) as [|C]; [done|]. exfalso. nia. }
    assert (X : exists s' c', (if enc then Encode ops g code row else ret true) s = Ok (true, s') /\
      holds s' c' /\ same_data c c' /\ (enc = true -> progress row (row + 1) c c') /\
      (enc = false -> c' = c)).
    { destruct enc.
      - destruct (Encode_ok row s c Hh ltac:(lia)) as (s1 & c1 & E1 & H1 & Hs & Hcd & Ho).
        exists s1, c1. split_and_all; try done. intros _ r Hrr [Hcr|Hcr].
        + destruct (Z.eq_dec r row) as [->|]; [done|]. eapply coded_same; [by apply Ho|done].
        + by replace r with row by lia.
      - by exists s, c. }
    destruct X as (s1 & c1 & E1 & H1 & Hs & Hp & Hn). rewrite (bind_ok _ _ _ _ _ E1). cbn [negb].
    rewrite (bind_ok _ _ _ _ _ (Verify_ok (row + 1) s1 c1 H1 ltac:(lia))).
    exists s1, c1, (row + 1), 0. split_and_all; try done; lia.
  - assert (row < rows g).
    { destruct (Z.lt_ge_cases row (rows g)) as [|C]; [done|]. exfalso. nia. }
    exists s, c, row, (col + 1). split_and_all; try done; try lia.
    intros _ r Hrr [Hcr|Hcr]; [done|lia].
Qed.

(** ** The writing loops *)
(** cells seen through a function of the row, such as decryption *)
Definition view (f : Z -> list Z -> list Z) (c : grid) : grid := fun r j => f r (c r j).

Lemma view_same f c c' : same_data c c' -> forall r j, 0 <= j < k -> view f c' r j = view f c r j.
Proof. intros H r j Hj. unfold view. by rewrite H. Qed.

(** what both loops do after a cell has been written *)
Lemma write_tail f (K : Z -> Z -> M S bool) rest row col last s1 c1 :
  holds s1 c1 -> 0 <= row < rows g -> 0 <= col < k ->
  (row * k + col + 1) * bs + zlen rest <= total \/ rest = [] -> row <= last ->
  (rest = [] -> last = row) ->
  (forall row' col' s2 c2, holds s2 c2 -> 0 <= row' < rows g -> 0 <= col' < k ->
     row' * k + col' = row * k + col + 1 -> 0 < zlen rest ->
     exists s' c', K row' col' s2 = Ok (true, s') /\ holds s' c' /\
       patched (view f c2) (view f c') ((row' * k + col') * bs) rest /\
       progress row' (last + 1) c2 c') ->
  exists s' c',
    (if zlen rest =? 0 then Encode ops g code row
     else next <- next_cell ops g code true row col ;;
          match next with None => ret false | Some (row, col) => K row col end) s1 = Ok (true, s') /\
    holds s' c' /\ patched (view f c1) (view f c') ((row * k + col + 1) * bs) rest /\
    progress row (last + 1) c1 c'.
Proof.
  intros Hh Hr Hc Ht Hle Hlast HK. destruct (Z.eqb_spec (zlen rest) 0) as [E|E].
  - assert (rest = []) as -> by (destruct rest; [done|unfold zlen in E; cbn in E; lia]).
    destruct (Encode_ok row s1 c1 Hh Hr) as (s2 & c2 & E2 & H2 & Hs & Hcd & Ho).
    exists s2, c2. split_and_all; [done|done| |].
    + by apply patched_nil, view_same.
    + rewrite Hlast by done. intros r Hrr Hx. destruct (Z.eq_dec r row) as [->|]; [done|].
      destruct Hx as [Hx|Hx]; [|lia]. eapply coded_same; [by apply Ho|done].
  - pose proof (zlen_nonneg rest).
    destruct Ht as [Ht| ->]; [|by unfold zlen in E].
    destruct (next_cell_ok true row col s1 c1 Hh ltac:(lia) Hc ltac:(lia))
      as (s2 & c2 & row' & col' & E2 & H2 & Hr' & Hc' & Heq & Hrr & Hs & Hp & _).
    rewrite (bind_ok _ _ _ _ _ E2).
    destruct (HK row' col' s2 c2 H2 Hr' Hc' Heq ltac:(lia)) as (s3 & c3 & E3 & H3 & Hpa & Hpr).
    exists s3, c3. split_and_all; [done|done| |].
    + rewrite <- Heq. apply (patched_trans _ (view f c2) _ _ [] rest).
      * by apply patched_nil, view_same.
      * change (zlen (@nil Z)) with 0. by rewrite Z.add_0_r.
    + intros r Hx Hy. apply Hpr; [done|]. destruct (Z.lt_ge_cases r row').
      * left. apply Hp; [done|done|]. destruct Hy; [by left|right; lia].
      * destruct Hy as [Hy|Hy]; [left; apply Hp; [done|done|by left]|right; lia].
Qed.

(** joining the cell's change with the rest *)
Lemma progress_cell row last c c1 c' :
  (forall r j, r <> row -> c1 r j = c r j) -> row <= last ->
  progress row (last + 1) c1 c' -> progress row (last + 1) c c'.
Proof.
  intros Ho Hle Hp r Hr Hx. apply Hp; [done|]. destruct (Z.eq_dec r row) as [->|Hne]; [right; lia|].
  destruct Hx as [Hx|Hx]; [left|by right]. eapply coded_same; [|done]. intros j _. by apply Ho.
Qed.

Definition addr_of (row col bo : Z) : Z := (row * k + col) * bs + bo.
Definition last_row (addr len : Z) : Z := (addr + len - 1) / bs / k.

Lemma last_row_ge row col bo len : 0 <= row -> 0 <= col < k -> 0 <= bo < bs -> 0 < len ->
  row <= last_row (addr_of row col bo) len /\
  (bo + len <= bs -> last_row (addr_of row col bo) len = row).
Proof.
  intros Hr Hc Hb Hl. pose proof Hgeo as [_ Hk _ Hbs _]. unfold last_row, addr_of. split.
  - destruct (addr_split row col bo Hr Hc Hb) as (E & _). rewrite <- E at 1.
    apply Z.div_le_mono; [lia|]. apply Z.div_le_mono; lia.
  - intros Hle. destruct (addr_split row col (bo + len - 1) Hr Hc ltac:(lia)) as (E & _).
    rewrite <- E at 2. do 2 f_equal. lia.
Qed.

(** one chunk of a buffer, then the rest from the next cell on *)
Lemma patched_step v v1 v' row col bo buffer :
  0 <= bo < bs -> let n := Z.to_nat (Z.min (zlen buffer) (bs - bo)) in
  patched v v1 (addr_of row col bo) (take n buffer) ->
  patched v1 v' ((row * k + col + 1) * bs) (drop n buffer) ->
  patched v v' (addr_of row col bo) buffer.
Proof.
  intros Hb n H1 H2. rewrite <- (take_drop n buffer). eapply patched_trans; [exact H1|].
  intros x Hx. rewrite (H2 x Hx). pose proof (zlen_nonneg buffer).
  assert (Hn : zlen (take n buffer) = Z.min (zlen buffer) (bs - bo)
               /\ zlen (drop n buffer) = zlen buffer - Z.min (zlen buffer) (bs - bo)).
  { unfold n, zlen in *. rewrite length_take, length_drop. lia. }
  destruct Hn as [-> ->]. destruct (Z.le_gt_cases (zlen buffer) (bs - bo)).
  - rewrite Z.min_l, !Z.sub_diag, !Z.add_0_r by lia.
    destruct (Z.leb_spec (addr_of row col bo + zlen buffer) x),
      (Z.ltb_spec x (addr_of row col bo + zlen buffer)),
      (Z.leb_spec ((row * k + col + 1) * bs) x), (Z.ltb_spec x ((row * k + col + 1) * bs));
      cbn [andb]; try lia; done.
  - rewrite Z.min_r by lia.
    by replace (addr_of row col bo + (bs - bo)) with ((row * k + col + 1) * bs)
      by (unfold addr_of; lia).
Qed.

Lemma write_loop_ok fuel row col bo buffer s c :
  holds s c -> 0 <= row -> 0 <= col < k -> 0 <= bo < bs -> 0 < zlen buffer ->
  addr_of row col bo + zlen buffer <= total -> (length buffer < fuel)%nat ->
  exists s' c', write_loop ops g code fuel row col bo buffer s = Ok (true, s') /\ holds s' c' /\
    patched c c' (addr_of row col bo) buffer /\
    progress row (last_row (addr_of row col bo) (zlen buffer) + 1) c c'.
Proof.
  revert row col bo buffer s c. induction fuel as [|fuel IH]; intros row col bo buffer s c Hh Hr Hc
    Hb Hl Ht Hf; [lia|].
  pose proof Hgeo as [_ Hk Hm Hbs _]. cbn [write_loop].
  set (n := Z.min (zlen buffer) (bs - bo)). set (chunk := take (Z.to_nat n) buffer).
  set (rest := drop (Z.to_nat n) buffer).
  assert (Hn : zlen chunk = n /\ zlen rest = zlen buffer - n /\ 0 < n).
  { unfold chunk, rest, n, zlen in *. rewrite length_take, length_drop. lia. }
  assert (Hrow : 0 <= row < rows g).
  { split; [done|]. apply (cell_in_range row col bo); try done. unfold addr_of in Ht. lia. }
  destruct (law_write _ Hlaws s c row col chunk bo Hh Hrow) as (s1 & E1 & H1); [lia|lia|lia|lia|].
  rewrite (bind_ok _ _ _ _ _ E1). cbn [negb]. fold rest.
  pose proof (law_length _ Hlaws s c row col Hh Hrow ltac:(lia)) as Hlen.
  set (c1 := set_cell _ _ _ _) in H1.
  destruct (last_row_ge row col bo (zlen buffer) Hr Hc Hb Hl) as [Hla Hlb].
  set (last := last_row _ _) in *.
  destruct (write_tail (fun _ d => d) (fun row col => write_loop ops g code fuel row col 0 rest)
    rest row col last s1 c1 H1 Hrow Hc) as (s' & c' & E' & H' & Hpa & Hpr); [| done | | |].
  - destruct (Z.eq_dec (zlen rest) 0) as [E0|E0].
    + right. destruct rest; [done|unfold zlen in E0; cbn in E0; lia].
    + left. unfold addr_of in Ht. assert (n = bs - bo) by lia. lia.
  - intros E0. apply Hlb. rewrite E0 in Hn. unfold zlen in Hn at 2. cbn in Hn. lia.
  - intros row' col' s2 c2 H2 Hr' Hc' Heq Hpos. assert (n = bs - bo) by lia.
    destruct (IH row' col' 0 rest s2 c2 H2) as (s3 & c3 & E3 & H3 & Hp3 & Hg3); try done; try lia.
    + unfold addr_of in *. rewrite Heq. lia.
    + unfold zlen in Hn. lia.
    + exists s3, c3. unfold addr_of in Hp3. rewrite Z.add_0_r in Hp3.
      split_and_all; [done|done|exact Hp3|].
      replace last with (last_row (addr_of row' col' 0) (zlen rest)); [exact Hg3|].
      unfold last, last_row, addr_of. rewrite Heq. do 2 f_equal. lia.
  - exists s', c'. split_and_all; [exact E'|done| |].
    + apply (patched_step c c1); [done| |exact Hpa].
      assert (Hch : bo + zlen chunk <= bs) by lia.
      apply patched_cell; try done; [apply set_cell_eq|].
      intros r j _ Hne. by apply set_cell_ne.
    + apply (progress_cell row last c c1); [|done|exact Hpr].
      intros r j Hne. apply set_cell_ne. by left.
Qed.

(** ** The reading loops *)
Lemma bytes_at_step v row col bo (buffer : list Z) :
  0 <= bo < bs -> bs - bo < zlen buffer ->
  bytes_at v (addr_of row col bo) (length buffer)
    = bytes_at v (addr_of row col bo) (Z.to_nat (bs - bo)) ++
      bytes_at v ((row * k + col + 1) * bs) (length (drop (Z.to_nat (bs - bo)) buffer)).
Proof.
  intros Hb Hl. unfold zlen in Hl. rewrite length_drop.
  replace (length buffer) with (Z.to_nat (bs - bo) + (length buffer - Z.to_nat (bs - bo)))%nat at 1 by lia.
  rewrite bytes_at_app. do 2 f_equal. unfold addr_of. lia.
Qed.

Lemma read_loop_ok fuel row col bo done buffer s c :
  holds s c -> 0 <= row -> 0 <= col < k -> 0 <= bo < bs -> 0 < zlen buffer ->
  addr_of row col bo + zlen buffer <= total -> (length buffer < fuel)%nat ->
  exists s', read_loop ops g code fuel row col bo done buffer s
      = Ok ((true, done ++ bytes_at c (addr_of row col bo) (length buffer)), s') /\ holds s' c.
Proof.
  revert row col bo done buffer s. induction fuel as [|fuel IH];
    intros row col bo done buffer s Hh Hr Hc Hb Hl Ht Hf; [lia|].
  pose proof Hgeo as [_ Hk Hm Hbs _]. cbn [read_loop].
  set (n := Z.min (zlen buffer) (bs - bo)).
  assert (Hrow : 0 <= row < rows g).
  { split; [done|]. apply (cell_in_range row col bo); try done. unfold addr_of in Ht. lia. }
  assert (Hn : length (take (Z.to_nat n) buffer) = Z.to_nat n /\ 0 < n)
    by (unfold n, zlen in *; rewrite length_take; lia).
  destruct (law_read _ Hlaws s c row col (take (Z.to_nat n) buffer) bo Hh Hrow)
    as (s1 & E1 & H1); [lia|lia|unfold zlen; unfold n, zlen in *; lia|unfold zlen; unfold n, zlen in *; lia|].
  rewrite (proj1 Hn) in E1. rewrite (bind_ok _ _ _ _ _ E1). cbn [negb].
  pose proof (law_length _ Hlaws s c row col Hh Hrow ltac:(lia)) as Hlen.
  rewrite (chunk_bytes c row col bo) by (try done; unfold n; lia). fold (addr_of row col bo).
  set (rest := drop (Z.to_nat n) buffer).
  assert (Hrest : zlen rest = zlen buffer - n)
    by (unfold rest, n, zlen in *; rewrite length_drop; lia).
  destruct (Z.eqb_spec (zlen rest) 0) as [E|E].
  - exists s1. split; [|done]. assert (Z.to_nat n = length buffer) as ->
      by (unfold zlen in *; lia). done.
  - assert (Hnn : n = bs - bo) by lia.
    destruct (next_cell_ok false row col s1 c H1 Hr Hc)
      as (s2 & c2 & row' & col' & E2 & H2 & Hr' & Hc' & Heq & _ & _ & _ & Hc2).
    { unfold addr_of in Ht. pose proof (zlen_nonneg rest). lia. }
    rewrite Hc2 in H2 by done. rewrite (bind_ok _ _ _ _ _ E2).
    destruct (IH row' col' 0 (done ++ bytes_at c (addr_of row col bo) (Z.to_nat n)) rest s2 H2)
      as (s3 & E3 & H3); try done; try lia.
    { unfold addr_of in *. rewrite Heq. lia. }
    { unfold zlen in *. lia. }
    exists s3. split; [|done]. rewrite E3, <- app_assoc. do 4 f_equal.
    unfold rest. rewrite Hnn, (bytes_at_step c row col bo buffer) by lia.
    do 2 f_equal. unfold addr_of. rewrite Heq. lia.
Qed.

(** ** Encrypted cells *)
Definition cipher_ok : Prop := forall iv x, zlen x = bs ->
  zlen (aes_encrypt aes iv x) = bs /\ zlen (aes_decrypt aes iv x) = bs /\
  aes_decrypt aes iv (aes_encrypt aes iv x) = x.
(** the plain text of the cells *)
Definition plain (c : grid) : grid := view (fun r d => aes_decrypt aes (iv_of r) d) c.
Hypothesis Haes : cipher_ok.

Lemma write_at_whole (l d : list Z) : length d = length l -> write_at l 0 d = d.
Proof.
  intros Hl. unfold write_at. rewrite drop_ge by lia. by rewrite take_0, app_nil_l, app_nil_r.
Qed.

(** what is in the clear buffer when a cell is encrypted *)
Lemma load_clear row col bo len clear crypt s c :
  holds s c -> 0 <= row < rows g -> 0 <= col < k -> 0 <= bo < bs -> 0 < len ->
  zlen clear = bs -> zlen crypt = bs ->
  let n := Z.min len (bs - bo) in
  exists s1 clear1,
    (if n <? bs then
       pat! (ok, crypt) <- ReadCached ops row col crypt 0 ;;
       ret (if ok : bool then Some (aes_decrypt aes (iv_of row) crypt) else None)
     else ret (Some clear)) s = Ok (Some clear1, s1) /\ holds s1 c /\ zlen clear1 = bs /\
    forall chunk, zlen chunk = n ->
      write_at clear1 (Z.to_nat bo) chunk = write_at (plain c row col) (Z.to_nat bo) chunk.
Proof.
  intros Hh Hr Hc Hb Hl Hcl Hcr n. pose proof Hgeo as [_ Hk Hm Hbs _].
  pose proof (law_length _ Hlaws s c row col Hh Hr ltac:(lia)) as Hlen.
  destruct (Haes (iv_of row) (c row col) Hlen) as (_ & Hd & _).
  destruct (Z.ltb_spec n bs).
  - destruct (law_read _ Hlaws s c row col crypt 0 Hh Hr) as (s1 & E1 & H1); [lia|lia|lia|lia|].
    rewrite read_at_all in E1 by (unfold zlen in *; lia).
    rewrite (bind_ok _ _ _ _ _ E1). by eexists s1, _.
  - exists s, clear. split_and_all; [done|done|done|]. intros chunk Hch.
    assert (bo = 0) as -> by lia. change (Z.to_nat 0) with 0%nat. unfold zlen in *.
    rewrite !write_at_whole; [done| |]; unfold plain, view; lia.
Qed.

Lemma write_encrypt_loop_ok fuel row col bo clear crypt buffer s c :
  holds s c -> 0 <= row -> 0 <= col < k -> 0 <= bo < bs -> 0 < zlen buffer ->
  addr_of row col bo + zlen buffer <= total -> (length buffer < fuel)%nat ->
  zlen clear = bs -> zlen crypt = bs ->
  exists s' c',
    write_encrypt_loop ops g code aes fuel row col bo clear crypt buffer s = Ok (true, s') /\
    holds s' c' /\ patched (plain c) (plain c') (addr_of row col bo) buffer /\
    progress row (last_row (addr_of row col bo) (zlen buffer) + 1) c c'.
Proof.
  revert row col bo clear crypt buffer s c. induction fuel as [|fuel IH];
    intros row col bo clear crypt buffer s c Hh Hr Hc Hb Hl Ht Hf Hcl Hcr; [lia|].
  pose proof Hgeo as [_ Hk Hm Hbs _]. cbn [write_encrypt_loop].
  set (n := Z.min (zlen buffer) (bs - bo)). set (chunk := take (Z.to_nat n) buffer).
  set (rest := drop (Z.to_nat n) buffer).
  assert (Hn : zlen chunk = n /\ zlen rest = zlen buffer - n /\ 0 < n <= bs - bo).
  { unfold chunk, rest, n, zlen in *. rewrite length_take, length_drop. lia. }
  assert (Hrow : 0 <= row < rows g).
  { split; [done|]. apply (cell_in_range row col bo); try done. unfold addr_of in Ht. lia. }
  destruct (load_clear row col bo (zlen buffer) clear crypt s c Hh Hrow Hc Hb Hl Hcl Hcr)
    as (s0 & clear1 & E0 & H0 & Hcl1 & Hwr). fold n in E0, Hwr.
  rewrite (bind_ok _ _ _ _ _ E0), Hwr by apply Hn.
  pose proof (law_length _ Hlaws s c row col Hh Hrow ltac:(lia)) as Hlen.
  destruct (Haes (iv_of row) (c row col) Hlen) as (_ & Hpl & _).
  set (clear2 := write_at (plain c row col) (Z.to_nat bo) chunk).
  assert (Hc2 : zlen clear2 = bs).
  { unfold clear2, zlen in *. rewrite length_write_at. unfold plain, view. lia. }
  destruct (Haes (iv_of row) clear2 Hc2) as (Hel & _ & Hde).
  set (crypt2 := aes_encrypt aes (iv_of row) clear2) in *.
  destruct (law_write _ Hlaws s0 c row col crypt2 0 H0 Hrow) as (s1 & E1 & H1); [lia|lia|lia|lia|].
  rewrite (bind_ok _ _ _ _ _ E1). cbn [negb]. fold rest.
  change (Z.to_nat 0) with 0%nat in H1.
  rewrite write_at_whole in H1 by (unfold zlen in *; lia). set (c1 := set_cell _ _ _ _) in H1.
  destruct (last_row_ge row col bo (zlen buffer) Hr Hc Hb Hl) as [Hla Hlb].
  set (last := last_row _ _) in *.
  destruct (write_tail (fun r d => aes_decrypt aes (iv_of r) d)
    (fun row col => write_encrypt_loop ops g code aes fuel row col 0 clear2 crypt2 rest)
    rest row col last s1 c1 H1 Hrow Hc) as (s' & c' & E' & H' & Hpa & Hpr); [|done| | |].
  - destruct (Z.eq_dec (zlen rest) 0) as [Ez|Ez].
    + right. destruct rest; [done|unfold zlen in Ez; cbn in Ez; lia].
    + left. unfold addr_of in Ht. assert (n = bs - bo) by lia. lia.
  - intros Ez. apply Hlb. rewrite Ez in Hn. unfold zlen in Hn at 2. cbn in Hn. lia.
  - intros row' col' s2 c2 H2 Hr' Hc' Heq Hpos. assert (n = bs - bo) by lia.
    destruct (IH row' col' 0 clear2 crypt2 rest s2 c2 H2) as (s3 & c3 & E3 & H3 & Hp3 & Hg3);
      try done; try lia.
    + unfold addr_of in *. rewrite Heq. lia.
    + unfold zlen in Hn. lia.
    + exists s3, c3. unfold addr_of in Hp3. rewrite Z.add_0_r in Hp3.
      split_and_all; [done|done|exact Hp3|].
      replace last with (last_row (addr_of row' col' 0) (zlen rest)); [exact Hg3|].
      unfold last, last_row, addr_of. rewrite Heq. do 2 f_equal. lia.
  - exists s', c'. split_and_all; [exact E'|done| |].
    + apply (patched_step (plain c) (plain c1)); [done| |exact Hpa].
      assert (Hch : bo + zlen chunk <= bs) by lia.
      apply patched_cell; try done.
      * unfold plain at 1, view, c1. by rewrite set_cell_eq.
      * intros r j _ Hne. unfold plain, view, c1. by rewrite set_cell_ne.
    + apply (progress_cell row last c c1); [|done|exact Hpr].
      intros r j Hne. apply set_cell_ne. by left.
Qed.

Lemma read_decrypt_loop_ok fuel row col bo crypt done buffer s c :
  holds s c -> 0 <= row -> 0 <= col < k -> 0 <= bo < bs -> 0 < zlen buffer ->
  addr_of row col bo + zlen buffer <= total -> (length buffer < fuel)%nat -> zlen crypt = bs ->
  exists s', read_decrypt_loop ops g code aes fuel row col bo crypt done buffer s
      = Ok ((true, done ++ bytes_at (plain c) (addr_of row col bo) (length buffer)), s') /\ holds s' c.
Proof.
  revert row col bo crypt done buffer s. induction fuel as [|fuel IH];
    intros row col bo crypt done buffer s Hh Hr Hc Hb Hl Ht Hf Hcr; [lia|].
  pose proof Hgeo as [_ Hk Hm Hbs _]. cbn [read_decrypt_loop].
  set (n := Z.min (zlen buffer) (bs - bo)).
  assert (Hrow : 0 <= row < rows g).
  { split; [done|]. apply (cell_in_range row col bo); try done. unfold addr_of in Ht. lia. }
  destruct (law_read _ Hlaws s c row col crypt 0 Hh Hrow) as (s1 & E1 & H1); [lia|lia|lia|lia|].
  pose proof (law_length _ Hlaws s c row col Hh Hrow ltac:(lia)) as Hlen.
  destruct (Haes (iv_of row) (c row col) Hlen) as (_ & Hpl & _).
  rewrite read_at_all in E1 by (unfold zlen in *; lia).
  rewrite (bind_ok _ _ _ _ _ E1). cbn [negb]. change (aes_decrypt aes (iv_of row) (c row col)) with (plain c row col).
  rewrite (chunk_bytes (plain c) row col bo) by (try done; unfold n; lia). fold (addr_of row col bo).
  set (rest := drop (Z.to_nat n) buffer).
  assert (Hrest : zlen rest = zlen buffer - n)
    by (unfold rest, n, zlen in *; rewrite length_drop; lia).
  destruct (Z.eqb_spec (zlen rest) 0) as [E|E].
  - exists s1. split; [|done]. assert (Z.to_nat n = length buffer) as ->
      by (unfold zlen in *; lia). done.
  - assert (Hnn : n = bs - bo) by lia.
    destruct (next_cell_ok false row col s1 c H1 Hr Hc)
      as (s2 & c2 & row' & col' & E2 & H2 & Hr' & Hc' & Heq & _ & _ & _ & Hc2).
    { unfold addr_of in Ht. pose proof (zlen_nonneg rest). lia. }
    rewrite Hc2 in H2 by done. rewrite (bind_ok _ _ _ _ _ E2).
    destruct (IH row' col' 0 (c row col) (done ++ bytes_at (plain c) (addr_of row col bo) (Z.to_nat n)) rest s2 H2)
      as (s3 & E3 & H3); try done; try lia.
    { unfold addr_of in *. rewrite Heq. lia. }
    { unfold zlen in *. lia. }
    exists s3. split; [|done]. rewrite E3, <- app_assoc. do 4 f_equal.
    unfold rest. rewrite Hnn, (bytes_at_step (plain c) row col bo buffer) by lia.
    do 2 f_equal. unfold addr_of. rewrite Heq. lia.
Qed.
End Laws.
