(* ===== verification/VolumeRemote.v ===== *)
(** * A volume without cache over partition servers

    What a partition server promises, and the proof that the columns of a volume
    whose partitions are all set keep the contract of [VolumeFacts.cell_laws] when
    every server keeps it. *)

From Stdlib Require Import ZArith Lia Bool Ascii String.
From stdpp Require Import base list gmap strings.
From S2P Require Import Prelude Streams Volume VolumeRow VolumeFacts.
Set Default Goal Selector "!".
Local Open Scope Z_scope.
Local Open Scope drive_scope.

(** [stored s d]: in state [s] block [i] behind reference [r] holds [d r i]; blocks
    [0 .. count-1] of [bs] bytes behind every reference of [known] *)
Record remote_laws {R S : Type} `{BdPartition R S} (known : R -> Prop) (count bs : Z)
    (stored : S -> (R -> Z -> list Z) -> Prop) : Prop := {
  rl_length s d r i : stored s d -> known r -> 0 <= i < count -> zlen (d r i) = bs;
  rl_read s d r i off n : stored s d -> known r -> 0 <= i < count ->
    0 <= off -> 0 < n -> off + n <= bs ->
    exists s', bd_Read r i off n s
        = Ok (Some (Some (read_at (d r i) (Z.to_nat off) (Z.to_nat n))), s') /\ stored s' d;
  rl_write s d r i off data : stored s d -> known r -> 0 <= i < count ->
    0 <= off -> 0 < zlen data -> off + zlen data <= bs ->
    exists s' d', bd_Write r i off data (zlen data) s = Ok (Some (Some (zlen data)), s') /\
      stored s' d' /\ d' r i = write_at (d r i) (Z.to_nat off) data /\
      forall r' j, known r' -> 0 <= j < count -> r' <> r \/ j <> i -> d' r' j = d r' j
}.

Section Direct.
Context {R S : Type} `{BdPartition R S} (v : Volume.t R) (g : geometry) (refs : Z -> R).
Context (known : R -> Prop) (stored : S -> (R -> Z -> list Z) -> Prop).

(** partition [i] of the volume is set, to the [i]th of distinct references *)
Record assembled : Prop := {
  as_count : zlen (Volume.partitions v) = dataCount g + codeCount g;
  as_set i : 0 <= i < dataCount g + codeCount g -> exists bc bz,
    Volume.partitions v !! Z.to_nat i = Some (Some (Partition.mk bc bz (refs i)));
  as_known i : 0 <= i < dataCount g + codeCount g -> known (refs i);
  as_distinct i j : 0 <= i < dataCount g + codeCount g -> 0 <= j < dataCount g + codeCount g ->
    refs i = refs j -> i = j
}.
(** the cells the servers hold *)
Definition remote_cells (s : S) (c : grid) : Prop :=
  exists d, stored s d /\ forall row col, 0 <= row < rows g -> 0 <= col < dataCount g + codeCount g ->
    d (refs col) row = c row col.

Hypotheses (Hrem : remote_laws known (rows g) (blockSize g) stored) (Has : assembled).
Hypothesis Hsmall : blockSize g < 2 ^ 32.

Lemma partition_at_ok (s : S) i : 0 <= i < dataCount g + codeCount g -> exists bc bz,
  Volume.partition_at (S := S) v i s = Ok (Partition.mk bc bz (refs i), s).
Proof.
  intros Hi. destruct (as_set Has i Hi) as (bc & bz & E). exists bc, bz.
  unfold Volume.partition_at. by rewrite E.
Qed.

Lemma ReadDirect_ok s c row col w off :
  remote_cells s c -> 0 <= row < rows g -> 0 <= col < dataCount g + codeCount g ->
  0 <= off -> 0 < zlen w -> off + zlen w <= blockSize g ->
  exists s', Volume.ReadDirect v row col w off s
      = Ok ((true, read_at (c row col) (Z.to_nat off) (length w)), s') /\ remote_cells s' c.
Proof.
  intros (d0 & Hon & Hc) Hr Hi Ho Hw Hle. destruct (partition_at_ok s col Hi) as (bc & bz & Ep).
  unfold Volume.ReadDirect. rewrite (bind_ok _ _ _ _ _ Ep).
  pose proof (as_known Has col Hi) as Hk.
  destruct (rl_read _ _ _ _ Hrem s d0 (refs col) row off (zlen w) Hon Hk Hr Ho Hw Hle)
    as (s' & E & Hon').
  unfold Partition.ReadBlock. cbn [Partition.ref].
  rewrite !u32_small by (unfold in_u32; lia). rewrite (bind_ok _ _ _ _ _ E).
  unfold Partition.wait. rewrite bind_ret_l.
  pose proof (rl_length _ _ _ _ Hrem s d0 (refs col) row Hon Hk Hr) as Hl.
  rewrite Hc in Hl |- * by done.
  assert (El : zlen (read_at (c row col) (Z.to_nat off) (Z.to_nat (zlen w))) = zlen w)
    by (unfold zlen in *; rewrite length_read_at; lia).
  rewrite El, Z.eqb_refl. exists s'. split.
  - unfold zlen at 1. by rewrite Nat2Z.id.
  - by exists d0.
Qed.

Lemma WriteDirect_ok s c row col d off :
  remote_cells s c -> 0 <= row < rows g -> 0 <= col < dataCount g + codeCount g ->
  0 <= off -> 0 < zlen d -> off + zlen d <= blockSize g ->
  exists s', Volume.WriteDirect v row col d off s = Ok (true, s') /\
    remote_cells s' (set_cell c row col (write_at (c row col) (Z.to_nat off) d)).
Proof.
  intros (d0 & Hon & Hc) Hr Hi Ho Hw Hle. destruct (partition_at_ok s col Hi) as (bc & bz & Ep).
  unfold Volume.WriteDirect. rewrite (bind_ok _ _ _ _ _ Ep).
  pose proof (as_known Has col Hi) as Hk.
  destruct (rl_write _ _ _ _ Hrem s d0 (refs col) row off d Hon Hk Hr Ho Hw Hle)
    as (s' & d' & E & Hon' & Hnew & Hsame).
  unfold Partition.WriteBlock. cbn [Partition.ref].
  rewrite !u32_small by (unfold in_u32; lia). rewrite (bind_ok _ _ _ _ _ E).
  unfold Partition.wait. rewrite bind_ret_l, Z.eqb_refl. exists s'. split; [done|]. exists d'. split; [done|].
  intros r j Hrr Hj. destruct (Z.eq_dec r row) as [->|Hne].
  - destruct (Z.eq_dec j col) as [->|Hne].
    + by rewrite set_cell_eq, Hnew, Hc.
    + rewrite set_cell_ne by (by right). rewrite Hsame; [by apply Hc|by apply (as_known Has)|done|].
      left. intros Ee. by apply (as_distinct Has) in Ee.
  - rewrite set_cell_ne by (by left).
    rewrite Hsame; [by apply Hc|by apply (as_known Has)|done|by right].
Qed.

(** the volume's columns keep their contract *)
Lemma direct_cell_laws : 0 <= dataCount g -> 0 <= codeCount g ->
  cell_laws (Volume.direct v) g remote_cells.
Proof.
  intros Hk Hm. split.
  - apply (as_count Has).
  - intros col Hcol. destruct (as_set Has col Hcol) as (bc & bz & E). cbn. by rewrite E.
  - intros s c row col (d & Hon & Hc) Hr Hcol. rewrite <- Hc by done.
    apply (rl_length _ _ _ _ Hrem s); [done|by apply (as_known Has)|done].
  - intros s c row col _ _ Hcol. cbn. destruct (partition_at_ok s col Hcol) as (bc & bz & E).
    by rewrite (bind_ok _ _ _ _ _ E).
  - apply ReadDirect_ok.
  - apply WriteDirect_ok.
Qed.
End Direct.

(** ** An erasure code with one parity block, and a toy cipher *)
Definition xor_block (a b : list Z) : list Z := zip_with Z.lxor a b.
Definition parity (bs : Z) (blocks : list (list Z)) : list Z :=
  foldr xor_block (replicate (Z.to_nat bs) 0) blocks.
(** the missing block is the parity of the others and of the code block *)
Definition fix_block (bs k : Z) (all : list (Z * list Z)) (b : Z * list Z) : Z * list Z :=
  if k <=? fst b then (fst b, parity bs (map snd all)) else b.
Definition xor_code : erasure := mkerasure
  (fun bs k m blocks => if m =? 1 then Some [parity bs blocks] else None)
  (fun bs k m blocks => Some (map (fix_block bs k blocks) blocks)).
Definition toy_cipher : cipher :=
  mkcipher (fun iv => map (Z.lxor (nth 0 iv 0))) (fun iv => map (Z.lxor (nth 0 iv 0))).

Lemma zlen_parity bs blocks : 0 <= bs -> Forall (fun b => zlen b = bs) blocks ->
  zlen (parity bs blocks) = bs.
Proof.
  intros Hb. induction 1 as [|b blocks Hl _ IH].
  - unfold parity, zlen. cbn [foldr]. rewrite length_replicate. lia.
  - change (parity bs (b :: blocks)) with (xor_block b (parity bs blocks)).
    unfold xor_block, zlen in *. rewrite length_zip_with. lia.
Qed.
Lemma xor_encoder_total n k bs : 0 < bs -> encoder_total (mkgeometry n k 1 bs) xor_code.
Proof.
  intros Hb blocks _ Hf. exists [parity bs blocks]. split; [done|]. split; [done|].
  apply Forall_singleton. apply zlen_parity; [by apply Z.lt_le_incl|done].
Qed.
Lemma toy_cipher_ok g : cipher_ok g toy_cipher.
Proof.
  intros iv x Hx. unfold zlen in *. cbn. rewrite !length_map. split; [done|]. split; [done|].
  rewrite map_map. rewrite <- (map_id x) at 2. apply map_ext. intros a.
  by rewrite <- Z.lxor_assoc, Z.lxor_nilpotent.
Qed.

(** ** Partitions in memory *)
Section Memory.
Context (count bs : Z).
(** partition, block *)
Definition memory := Z -> Z -> list Z.
#[export] Instance memory_partition : BdPartition Z memory := {
  bd_Read r i off n := fun s => Ok (Some (Some (read_at (s r i) (Z.to_nat off) (Z.to_nat n))), s);
  bd_Write r i off d n := fun s =>
    Ok (Some (Some n), set_cell s r i (write_at (s r i) (Z.to_nat off) d));
  bd_Delete r := fun s => Ok (Some (Some true), s);
  bd_GetTimeout r := 1
}.
Definition memory_holds (s : memory) (d : Z -> Z -> list Z) : Prop :=
  forall r i, s r i = d r i /\ zlen (d r i) = bs.
Lemma memory_laws : remote_laws (fun _ => True) count bs memory_holds.
Proof.
  split.
  - intros s d r i Hs _ _. apply Hs.
  - intros s d r i off n Hs _ _ _ _ _. exists s. split; [|done]. cbn. by destruct (Hs r i) as [-> _].
  - intros s d r i off data Hs _ _ Ho Hd Hle. do 2 eexists. split; [reflexivity|]. split_and_all.
    + intros r' j. split; [reflexivity|].
      pose proof (Hs r i) as [-> ?]. pose proof (Hs r' j) as [Es ?]. unfold set_cell.
      destruct (_ && _); [|by rewrite Es]. unfold zlen in *. rewrite length_write_at. lia.
    + rewrite set_cell_eq. by destruct (Hs r i) as [-> _].
    + intros r' j _ _ Hne. rewrite set_cell_ne by done. apply Hs.
Qed.
End Memory.


(** two data columns and one of parity: four rows of three bytes *)
Definition sample_geometry : geometry := mkgeometry 4 2 1 3.
Definition sample_volume : Volume.t Z :=
  Volume.mk 4 2 1 3 (map (fun i => Some (Partition.mk 4 3 i)) [0; 1; 2]).
Definition blank : grid := fun _ _ => [0; 0; 0].

Lemma sample_geometry_ok : geometry_ok sample_geometry.
Proof. split; cbn; lia. Qed.
Lemma sample_assembled : assembled sample_volume sample_geometry (fun i => i) (fun _ => True).
Proof.
  split; [done| |done|done].
  intros i Hi. cbn in Hi. exists 4, 3. assert (i = 0 \/ i = 1 \/ i = 2) as [->|[->| ->]] by lia; done.
Qed.
Definition sample_cells : memory -> grid -> Prop :=
  remote_cells sample_geometry (fun i => i) (memory_holds 3).
Lemma sample_laws : cell_laws (Volume.direct sample_volume) sample_geometry sample_cells.
Proof.
  apply (direct_cell_laws _ _ _ (fun _ => True)); [apply memory_laws|apply sample_assembled|..]; cbn; lia.
Qed.
Lemma sample_blank : sample_cells (fun _ _ => [0; 0; 0]) blank.
Proof. by exists (fun _ _ => [0; 0; 0]). Qed.
