(* ===== verification/VolumeDisk.v ===== *)
(** * Volumes refine a byte array

    The calls of [VolumeRow] against an array of [rows * dataCount * blockSize]
    bytes: what they return, what they change, when they refuse. *)

From Stdlib Require Import ZArith Lia Bool Ascii String.
From stdpp Require Import base list gmap strings.
From S2P Require Import Prelude Streams Volume VolumeRow VolumeFacts VolumeRemote.
Set Default Goal Selector "!".
Local Open Scope Z_scope.
Local Open Scope drive_scope.

(** ** The specification: an array of bytes with bounds *)
Definition disk_accepts (d : list Z) (offset size : Z) : bool :=
  (offset <? zlen d) && (offset + size <=? zlen d).
Definition disk_write (d : list Z) (buffer : list Z) (offset : Z) : option (list Z) :=
  if zlen buffer =? 0 then Some d
  else if disk_accepts d offset (zlen buffer) then Some (write_at d (Z.to_nat offset) buffer) else None.
Definition disk_read (d : list Z) (size offset : Z) : option (list Z) :=
  if size =? 0 then Some []
  else if disk_accepts d offset size then Some (read_at d (Z.to_nat offset) (Z.to_nat size)) else None.

(** the data cells, one after the other *)
Definition flat (g : geometry) (c : grid) : list Z := bytes_at g c 0 (Z.to_nat (total g)).
(** the rows that [size] bytes at [offset] touch *)
Definition touched (g : geometry) (offset size row : Z) : Prop :=
  0 < size /\ offset / blockSize g / dataCount g <= row <= (offset + size - 1) / blockSize g / dataCount g.

Section Disk.
Context {S : Type} (ops : CellOps S) (g : geometry) (code : erasure) (aes : cipher).
Context (holds : S -> grid -> Prop).
Hypotheses (Hgeo : geometry_ok g) (Hlaws : cell_laws ops g holds) (Hcode : encoder_total g code).

Lemma total_range : 0 < total g < 2 ^ 63.
Proof. destruct Hgeo as [? ? ? ? Ht]. unfold total. split; [|done]. nia. Qed.
Lemma zlen_flat c : zlen (flat g c) = total g.
Proof. pose proof total_range. unfold zlen, flat. rewrite length_bytes_at. lia. Qed.

Lemma nth_flat c a : 0 <= a < total g -> nth (Z.to_nat a) (flat g c) 0 = byte_at g c a.
Proof. intros Ha. unfold flat. rewrite nth_bytes_at by lia. f_equal. lia. Qed.

Lemma flat_bytes c a n : 0 <= a -> a + Z.of_nat n <= total g ->
  bytes_at g c a n = read_at (flat g c) (Z.to_nat a) n.
Proof.
  intros Ha Hn. pose proof (zlen_flat c) as Hf. unfold zlen in Hf. apply nth_ext with 0 0.
  - rewrite length_bytes_at, length_read_at. lia.
  - intros i Hi. rewrite length_bytes_at in Hi. rewrite nth_bytes_at, nth_read_at by done.
    rewrite <- nth_flat by lia. f_equal. lia.
Qed.

Lemma flat_patched c c' a d : 0 <= a -> a + zlen d <= total g -> patched g c c' a d ->
  flat g c' = write_at (flat g c) (Z.to_nat a) d.
Proof.
  intros Ha Hn Hp. pose proof (zlen_flat c) as Hf. pose proof (zlen_flat c') as Hf'.
  unfold zlen in *. apply nth_ext with 0 0.
  - rewrite length_write_at. lia.
  - intros i Hi. rewrite nth_write_at by lia.
    replace i with (Z.to_nat (Z.of_nat i)) at 1 by lia. rewrite nth_flat, Hp by lia.
    unfold zlen. destruct (Z.leb_spec a (Z.of_nat i)), (Nat.leb_spec (Z.to_nat a) i); try lia; cbn [andb];
      [|by rewrite <- nth_flat, Nat2Z.id by lia].
    destruct (Z.ltb_spec (Z.of_nat i) (a + Z.of_nat (length d))),
      (Nat.ltb_spec i (Z.to_nat a + length d)); try lia;
      [f_equal; lia|by rewrite <- nth_flat, Nat2Z.id by lia].
Qed.

(** the 64-bit tests of the code are the tests on exact numbers *)
Lemma out_of_range_exact size offset : in_u64 size -> in_u64 offset ->
  out_of_range g size offset = negb ((offset <? total g) && (offset + size <=? total g)).
Proof.
  intros Hs Ho. destruct Hgeo as [? ? ? ? Ht]. pose proof total_range as Hr.
  assert (Hc : capacity g = total g).
  { unfold capacity, total in *. rewrite (u64_small (rows g * dataCount g)) by (unfold in_u64; nia).
    apply u64_small. unfold in_u64. lia. }
  unfold out_of_range, in_u64 in *. rewrite Hc.
  destruct (Z.leb_spec (total g) offset), (Z.ltb_spec offset (total g)); cbn [orb andb negb];
    try lia; try done.
  destruct (Z.ltb_spec (total g) size), (Z.leb_spec (offset + size) (total g)); cbn [orb negb];
    try lia; try done.
  - rewrite u64_small by (unfold in_u64; lia). by apply Z.ltb_ge.
  - rewrite u64_small by (unfold in_u64; lia). by apply Z.ltb_lt.
Qed.

Lemma divisible_ok : divisible g = true.
Proof.
  destruct Hgeo. unfold divisible.
  destruct (Z.eqb_spec (blockSize g) 0), (Z.eqb_spec (dataCount g) 0); first [lia|done].
Qed.

(** the place of an offset, for the loops *)
Lemma locate_ok offset : 0 <= offset < total g ->
  exists row col bo, locate g offset = (row, col, bo) /\ 0 <= row < rows g /\ 0 <= col < dataCount g /\
    0 <= bo < blockSize g /\ addr_of g row col bo = offset /\ row = offset / blockSize g / dataCount g.
Proof.
  intros Ho. destruct Hgeo as [_ Hk _ Hbs _]. unfold locate. do 3 eexists. split; [reflexivity|].
  destruct (addr_join g Hgeo offset Ho) as (H1 & H2 & H3 & H4).
  rewrite (Z.mod_eq (offset / blockSize g)) in H2 by lia. rewrite (Z.mod_eq offset) in H3 by lia.
  unfold addr_of. split_and_all; try lia.
Qed.

(** a request that is inside the array *)
Definition inside (offset size : Z) : Prop := 0 <= offset /\ 0 < size /\ offset + size <= total g.

Lemma call_inside {A} (buffer : list Z) offset (zero nodiv refused : M S A)
    (K : Z -> Z -> Z -> M S A) (bad : A) s c :
  holds s c -> inside offset (zlen buffer) ->
  exists row col bo, 0 <= row < rows g /\ 0 <= col < dataCount g /\ 0 <= bo < blockSize g /\
    addr_of g row col bo = offset /\ row = offset / blockSize g / dataCount g /\
    (if zlen buffer =? 0 then zero else if negb (divisible g) then nodiv else
     let '(row, col, blockOffset) := locate g offset in
     if out_of_range g (zlen buffer) offset then refused else
     ok <- Verify ops g code row ;;
     if negb ok then ret bad else K row col blockOffset) s = K row col bo s.
Proof.
  intros Hh (Ho & Hn & Hle). pose proof total_range.
  destruct (locate_ok offset ltac:(lia)) as (row & col & bo & El & Hrow & Hcol & Hbo & Ea & Er).
  exists row, col, bo. do 5 (split; [done|]). rewrite divisible_ok, El.
  destruct (Z.eqb_spec (zlen buffer) 0); [lia|]. cbn [negb].
  rewrite out_of_range_exact by (unfold in_u64; lia).
  destruct (Z.ltb_spec offset (total g)), (Z.leb_spec (offset + zlen buffer) (total g)); try lia.
  cbn [negb andb]. by rewrite (bind_ok _ _ _ _ _ (Verify_ok ops g code holds Hlaws row s c Hh Hrow)).
Qed.

Lemma call_outside {A} (buffer : list Z) offset (zero nodiv refused : M S A)
    (K : Z -> Z -> Z -> M S A) (s : S) :
  in_u64 offset -> in_u64 (zlen buffer) -> zlen buffer <> 0 ->
  disk_accepts (replicate (Z.to_nat (total g)) 0) offset (zlen buffer) = false ->
  (if zlen buffer =? 0 then zero else if negb (divisible g) then nodiv else
     let '(row, col, blockOffset) := locate g offset in
     if out_of_range g (zlen buffer) offset then refused else K row col blockOffset) s = refused s.
Proof.
  intros Ho Hb Hnz Hd. rewrite divisible_ok. unfold locate. pose proof total_range.
  destruct (Z.eqb_spec (zlen buffer) 0); [done|]. cbn [negb]. rewrite out_of_range_exact by done.
  unfold disk_accepts in Hd.
  assert (zlen (replicate (Z.to_nat (total g)) 0) = total g) as El
    by (unfold zlen; rewrite length_replicate; lia).
  rewrite El in Hd. by rewrite Hd.
Qed.

Lemma zlen_replicate_total : zlen (replicate (Z.to_nat (total g)) 0) = total g.
Proof. pose proof total_range. unfold zlen. rewrite length_replicate. lia. Qed.

Lemma disk_accepts_len d offset size : zlen d = total g ->
  disk_accepts d offset size = disk_accepts (replicate (Z.to_nat (total g)) 0) offset size.
Proof.
  intros Hd. pose proof total_range. unfold disk_accepts. rewrite Hd. unfold zlen.
  rewrite length_replicate. by rewrite Z2Nat.id by lia.
Qed.

Lemma accepts_inside d offset size : zlen d = total g -> 0 <= offset -> 0 <= size -> size <> 0 ->
  disk_accepts d offset size = true -> inside offset size.
Proof.
  intros Hd Ho Hs Hz Ha. unfold disk_accepts in Ha. zbool. unfold inside. lia.
Qed.

(** coded rows stay coded and touched rows become so *)
Definition parity_kept (c c' : grid) (offset size : Z) : Prop :=
  forall r, 0 <= r < rows g -> coded g code c r \/ touched g offset size r -> coded g code c' r.

Lemma parity_of c c' row offset size : row = offset / blockSize g / dataCount g ->
  progress g code row (last_row g offset size + 1) c c' -> parity_kept c c' offset size.
Proof.
  intros Er Hp r Hr [Hc|[_ Ht]]; apply Hp; [done|by left|done|right]. unfold last_row. lia.
Qed.

(** a write that behaves like one on the array [f c] *)
Definition write_refines (f : grid -> grid) (W : M S bool) (buffer : list Z) (offset : Z) (s : S) (c : grid) : Prop :=
  match disk_write (flat g (f c)) buffer offset with
  | Some d => exists s' c', W s = Ok (true, s') /\ holds s' c' /\ flat g (f c') = d /\
      parity_kept c c' offset (zlen buffer)
  | None => W s = Ok (false, s)
  end.
(** and a read, into [buffer] *)
Definition read_refines (f : grid -> grid) (Rd : M S (bool * list Z)) (buffer : list Z) (offset : Z) (s : S) (c : grid) : Prop :=
  match disk_read (flat g (f c)) (zlen buffer) offset with
  | Some d => exists s', Rd s = Ok ((true, d), s') /\ holds s' c
  | None => Rd s = Ok ((false, buffer), s)
  end.

Lemma write_refines_intro f (K : Z -> Z -> Z -> M S bool) buffer offset s c :
  holds s c -> in_u64 offset -> in_u64 (zlen buffer) ->
  (forall row col bo, 0 <= row < rows g -> 0 <= col < dataCount g -> 0 <= bo < blockSize g ->
     0 < zlen buffer -> addr_of g row col bo + zlen buffer <= total g ->
     exists s' c', K row col bo s = Ok (true, s') /\ holds s' c' /\
       patched g (f c) (f c') (addr_of g row col bo) buffer /\
       progress g code row (last_row g (addr_of g row col bo) (zlen buffer) + 1) c c') ->
  write_refines f
    (if zlen buffer =? 0 then ret true else if negb (divisible g) then fail DivByZero else
     let '(row, col, blockOffset) := locate g offset in
     if out_of_range g (zlen buffer) offset then ret false else
     ok <- Verify ops g code row ;;
     if negb ok then ret false else K row col blockOffset) buffer offset s c.
Proof.
  intros Hh Ho Hb HK. unfold write_refines, disk_write.
  destruct (Z.eqb_spec (zlen buffer) 0) as [E|E].
  - exists s, c. split_and_all; try done. intros r _ [Hr|[Hr _]]; [done|lia].
  - rewrite disk_accepts_len by apply zlen_flat.
    destruct (disk_accepts _ _ _) eqn:Ha.
    + apply (accepts_inside) in Ha; [|rewrite zlen_replicate_total; done|apply Ho|apply Hb|done].
      destruct (call_inside buffer offset (ret true) (fail DivByZero) (ret false) K false s c Hh Ha)
        as (row & col & bo & Hr & Hc & Hbo & Ea & Er & EW).
      destruct Ha as (_ & Hl & Hle).
      destruct (HK row col bo Hr Hc Hbo Hl ltac:(lia)) as (s' & c' & E' & H' & Hp & Hg).
      rewrite Ea in *. exists s', c'. apply Z.eqb_neq in E. rewrite E in EW.
      split_and_all; [by rewrite EW|done| |by apply (parity_of _ _ row)].
      by apply flat_patched; [apply Ho|done|].
    + pose proof (call_outside buffer offset (ret true) (fail DivByZero) (ret false)
        (fun row col bo => ok <- Verify ops g code row ;; if negb ok then ret false else K row col bo)
        s Ho Hb E Ha) as EW.
      apply Z.eqb_neq in E. by rewrite E in EW.
Qed.

Lemma read_refines_intro f (K : Z -> Z -> Z -> M S (bool * list Z)) buffer offset s c :
  holds s c -> in_u64 offset -> in_u64 (zlen buffer) ->
  (forall row col bo, 0 <= row < rows g -> 0 <= col < dataCount g -> 0 <= bo < blockSize g ->
     0 < zlen buffer -> addr_of g row col bo + zlen buffer <= total g ->
     exists s', K row col bo s
       = Ok ((true, bytes_at g (f c) (addr_of g row col bo) (length buffer)), s') /\ holds s' c) ->
  read_refines f
    (if zlen buffer =? 0 then ret (true, buffer) else if negb (divisible g) then fail DivByZero else
     let '(row, col, blockOffset) := locate g offset in
     if out_of_range g (zlen buffer) offset then ret (false, buffer) else
     ok <- Verify ops g code row ;;
     if negb ok then ret (false, buffer) else K row col blockOffset) buffer offset s c.
Proof.
  intros Hh Ho Hb HK. unfold read_refines, disk_read.
  destruct (Z.eqb_spec (zlen buffer) 0) as [E|E].
  - exists s. split; [|done]. destruct buffer; [done|unfold zlen in E; cbn in E; lia].
  - rewrite disk_accepts_len by apply zlen_flat.
    destruct (disk_accepts _ _ _) eqn:Ha.
    + apply (accepts_inside) in Ha; [|rewrite zlen_replicate_total; done|apply Ho|apply Hb|done].
      destruct (call_inside buffer offset (ret (true, buffer)) (fail DivByZero) (ret (false, buffer)) K
        (false, buffer) s c Hh Ha) as (row & col & bo & Hr & Hc & Hbo & Ea & Er & EW).
      destruct Ha as (Hof & Hl & Hle).
      destruct (HK row col bo Hr Hc Hbo Hl ltac:(lia)) as (s' & E' & H').
      rewrite Ea in *. exists s'. apply Z.eqb_neq in E. rewrite E in EW. split; [|done].
      rewrite EW, E'. rewrite flat_bytes by (unfold zlen in *; lia). unfold zlen. by rewrite Nat2Z.id.
    + pose proof (call_outside buffer offset (ret (true, buffer)) (fail DivByZero) (ret (false, buffer))
        (fun row col bo => ok <- Verify ops g code row ;; if negb ok then ret (false, buffer) else K row col bo)
        s Ho Hb E Ha) as EW.
      apply Z.eqb_neq in E. by rewrite E in EW.
Qed.

Lemma Write_refines buffer offset s c : holds s c -> in_u64 offset -> in_u64 (zlen buffer) ->
  write_refines (fun c => c) (Write ops g code buffer offset) buffer offset s c.
Proof using Hgeo Hlaws Hcode.
  intros Hh Ho Hb. apply write_refines_intro; try done. intros row col bo Hr Hc Hbo Hl Hle.
  eapply write_loop_ok; try done; lia.
Qed.
Lemma Read_refines buffer offset s c : holds s c -> in_u64 offset -> in_u64 (zlen buffer) ->
  read_refines (fun c => c) (Read ops g code buffer offset) buffer offset s c.
Proof using Hgeo Hlaws Hcode.
  intros Hh Ho Hb. apply read_refines_intro; try done. intros row col bo Hr Hc Hbo Hl Hle.
  apply (read_loop_ok ops g code holds Hgeo Hlaws Hcode (Datatypes.S (length buffer)) row col bo []);
    try done; lia.
Qed.

(** [C9] A volume is an array of [rows * dataCount * blockSize] bytes.  For any
    64-bit offset and buffer size, [Write] and [Read] on columns that keep their
    contract do what the array does: they refuse, changing nothing, exactly the
    requests that are not inside it (the tests do not wrap around), an empty one
    succeeds, an accepted write changes the bytes of the request and no others, an
    accepted read returns them, and after a write the code cells of every touched
    row are the encoding of its data cells, with every other coded row still
    coded. *)
Theorem volume_refines_disk (buffer : list Z) (offset : Z) (s : S) (c : grid) :
  holds s c -> in_u64 offset -> in_u64 (zlen buffer) ->
  write_refines (fun c => c) (Write ops g code buffer offset) buffer offset s c /\
  read_refines (fun c => c) (Read ops g code buffer offset) buffer offset s c.
Proof using Hgeo Hlaws Hcode.
  intros Hh Ho Hb. split; [by apply Write_refines|by apply Read_refines].
Qed.

Lemma WriteEncrypt_refines junk1 junk2 buffer offset s c :
  cipher_ok g aes -> zlen junk1 = blockSize g -> zlen junk2 = blockSize g ->
  holds s c -> in_u64 offset -> in_u64 (zlen buffer) ->
  write_refines (plain aes) (WriteEncrypt ops g code aes junk1 junk2 buffer offset) buffer offset s c.
Proof using Hgeo Hlaws Hcode.
  intros Ha H1 H2 Hh Ho Hb. apply write_refines_intro; try done. intros row col bo Hr Hc Hbo Hl Hle.
  eapply write_encrypt_loop_ok; try done; lia.
Qed.
Lemma ReadDecrypt_refines junk buffer offset s c :
  cipher_ok g aes -> zlen junk = blockSize g -> holds s c -> in_u64 offset -> in_u64 (zlen buffer) ->
  read_refines (plain aes) (ReadDecrypt ops g code aes junk buffer offset) buffer offset s c.
Proof using Hgeo Hlaws Hcode.
  intros Ha H1 Hh Ho Hb. apply read_refines_intro; try done. intros row col bo Hr Hc Hbo Hl Hle.
  apply (read_decrypt_loop_ok ops g code aes holds Hgeo Hlaws Hcode Ha (Datatypes.S (length buffer)) row col bo
    junk []); try done; lia.
Qed.

(** [C11] The same for [WriteEncrypt] and [ReadDecrypt] and the array of decrypted
    bytes, for a block cipher whose decryption inverts its encryption, whatever the
    uninitialised block buffers hold: a write that starts or ends inside a block
    reads, decrypts and re-encrypts it without losing its other bytes. *)
Theorem encrypted_volume_refines_disk (junk1 junk2 buffer : list Z) (offset : Z) (s : S) (c : grid) :
  cipher_ok g aes -> zlen junk1 = blockSize g -> zlen junk2 = blockSize g ->
  holds s c -> in_u64 offset -> in_u64 (zlen buffer) ->
  write_refines (plain aes) (WriteEncrypt ops g code aes junk1 junk2 buffer offset) buffer offset s c /\
  read_refines (plain aes) (ReadDecrypt ops g code aes junk2 buffer offset) buffer offset s c.
Proof using Hgeo Hlaws Hcode.
  intros Ha H1 H2 Hh Ho Hb. split; [by apply WriteEncrypt_refines|by apply ReadDecrypt_refines].
Qed.
End Disk.

(** four bytes across a block and a row boundary *)
Lemma volume_refines_disk_witness :
  write_refines sample_geometry xor_code sample_cells (fun c => c)
    (Write (Volume.direct sample_volume) sample_geometry xor_code [1; 2; 3; 4] 5) [1; 2; 3; 4] 5
    (fun _ _ => [0; 0; 0]) blank /\
  read_refines sample_geometry sample_cells (fun c => c)
    (Read (Volume.direct sample_volume) sample_geometry xor_code [0; 0; 0; 0] 21) [0; 0; 0; 0] 21
    (fun _ _ => [0; 0; 0]) blank.
Proof.
  split.
  - apply (volume_refines_disk (Volume.direct sample_volume) sample_geometry xor_code sample_cells
      sample_geometry_ok sample_laws (xor_encoder_total 4 2 3 ltac:(lia)) [1; 2; 3; 4] 5);
      [apply sample_blank|closed_range|closed_range].
  - apply (volume_refines_disk (Volume.direct sample_volume) sample_geometry xor_code sample_cells
      sample_geometry_ok sample_laws (xor_encoder_total 4 2 3 ltac:(lia)) [0; 0; 0; 0] 21);
      [apply sample_blank|closed_range|closed_range].
Defined.

Lemma encrypted_volume_refines_disk_witness :
  write_refines sample_geometry xor_code sample_cells (plain toy_cipher)
    (WriteEncrypt (Volume.direct sample_volume) sample_geometry xor_code toy_cipher
       [7; 7; 7] [9; 9; 9] [1; 2; 3; 4] 5) [1; 2; 3; 4] 5 (fun _ _ => [0; 0; 0]) blank.
Proof.
  apply (encrypted_volume_refines_disk (Volume.direct sample_volume) sample_geometry xor_code toy_cipher
    sample_cells sample_geometry_ok sample_laws (xor_encoder_total 4 2 3 ltac:(lia))
    [7; 7; 7] [9; 9; 9] [1; 2; 3; 4] 5);
    [apply toy_cipher_ok|reflexivity|reflexivity|apply sample_blank|closed_range|closed_range].
Defined.
