(* ===== verification/VolumeRepair.v ===== *)
(** * Repairing a row (Row::Decode of src/src/bdfsclient-lib/VolumeRow.cpp)

    What [Decode] does to a row some of whose blocks do not verify: it restores the
    whole row when there are at least as many good code cells as missing data cells,
    and it reports success, overwriting the code cells, when there are fewer. *)

From Stdlib Require Import ZArith Lia Bool Ascii String.
From stdpp Require Import base list gmap strings.
From S2P Require Import Prelude Streams Volume VolumeRow VolumeFacts VolumeRemote.
Set Default Goal Selector "!".
Local Open Scope Z_scope.
Local Open Scope drive_scope.

(** which cells verify *)
Abbreviation health := (Z -> Z -> bool).
Definition set_good (h : health) (row col : Z) : health :=
  fun r j => ((r =? row) && (j =? col)) || h r j.

Section Repair.
Context {S : Type} (ops : CellOps S) (g : geometry) (code : erasure).
Abbreviation bs := (blockSize g).
Abbreviation k := (dataCount g).
Abbreviation m := (codeCount g).

(** columns some of whose cells are bad: a good cell can be read, any cell can be
    written whole and is good from then on *)
Record repair_laws (holds : S -> health -> grid -> Prop) : Prop := {
  rp_columns : Columns ops = k + m;
  rp_set col : 0 <= col < k + m -> is_set ops col = true;
  rp_length s h c row col : holds s h c -> 0 <= row < rows g -> 0 <= col < k + m ->
    zlen (c row col) = bs;
  rp_verify s h c row col : holds s h c -> 0 <= row < rows g -> 0 <= col < k + m ->
    VerifyBlock ops col row s = Ok (h row col, s);
  rp_read s h c row col w : holds s h c -> 0 <= row < rows g -> 0 <= col < k + m ->
    h row col = true -> zlen w = bs ->
    exists s', ReadCached ops row col w 0 s = Ok ((true, c row col), s') /\ holds s' h c;
  rp_write s h c row col d : holds s h c -> 0 <= row < rows g -> 0 <= col < k + m ->
    zlen d = bs ->
    exists s', WriteCached ops row col d 0 s = Ok (true, s') /\
      holds s' (set_good h row col) (set_cell c row col d)
}.

(** [cm256_decode]: from [k] blocks, each an original one in its own place or a
    recovery block, no recovery block twice, it puts the originals back *)
Definition decoder_ok : Prop := forall data codes blocks,
  zlen data = k -> Forall (fun b => zlen b = bs) data ->
  cm256_encode code bs k m data = Some codes -> zlen blocks = k ->
  (forall i j idx b b', blocks !! i = Some (idx, b) -> blocks !! j = Some (idx, b') -> k <= idx -> i = j) ->
  (forall i idx b, blocks !! i = Some (idx, b) ->
     (idx = Z.of_nat i /\ data !! i = Some b) \/
     (k <= idx < k + m /\ codes !! Z.to_nat (idx - k) = Some b)) ->
  exists blocks', cm256_decode code bs k m blocks = Some blocks' /\ map snd blocks' = data.

Context (holds : S -> health -> grid -> Prop).
Hypotheses (Hgeo : geometry_ok g) (Hlaws : repair_laws holds) (Hcode : encoder_total g code).

(** ** The loops *)
Definition zeros : list Z := replicate (Z.to_nat bs) 0.
Lemma zlen_zeros : zlen zeros = bs.
Proof. destruct Hgeo. unfold zlen, zeros. rewrite length_replicate. lia. Qed.

Lemma VerifyCell_ok s h c row col : holds s h c -> 0 <= row < rows g -> 0 <= col < k + m ->
  VerifyCell ops row col s = Ok (h row col, s).
Proof.
  intros Hh Hr Hc. unfold VerifyCell. rewrite (rp_columns _ Hlaws), (rp_set _ Hlaws) by done.
  destruct (Z.leb_spec (k + m) col); [lia|]. cbn [negb]. by eapply rp_verify.
Qed.

(** the block [collect] makes of a column *)
Definition found_block (h : health) (c : grid) (row i : Z) : Z * list Z :=
  if h row i then (i, c row i) else (0, zeros).
Definition missing_of (h : health) (row : Z) (cols : list Z) : list Z :=
  List.filter (fun i => negb (h row i)) cols.
Definition avail_of (h : health) (row : Z) (cols : list Z) : list Z :=
  List.filter (fun i => h row (i + k)) cols.

Lemma collect_ok cols row s h c : holds s h c -> 0 <= row < rows g ->
  (forall i, In i cols -> 0 <= i < k) ->
  exists s', collect ops g cols row s
      = Ok (Some (map (found_block h c row) cols, missing_of h row cols), s') /\ holds s' h c.
Proof.
  intros Hh Hr. revert s Hh. destruct Hgeo as [_ Hk Hm _ _].
  induction cols as [|i cols IH]; intros s Hh Hc; [by exists s|].
  assert (Hi : 0 <= i < k) by (apply Hc; by left). cbn [collect].
  rewrite (bind_ok _ _ _ _ _ (VerifyCell_ok s h c row i Hh Hr ltac:(lia))).
  unfold missing_of, found_block. cbn [map List.filter].
  destruct (h row i) eqn:Eh; cbn [negb].
  - destruct (rp_read _ Hlaws s h c row i zeros Hh Hr ltac:(lia) Eh zlen_zeros) as (s1 & E1 & H1).
    fold zeros. rewrite (bind_ok _ _ _ _ _ E1). cbn [negb].
    destruct (IH s1 H1) as (s2 & E2 & H2); [intros j Hj; apply Hc; by right|].
    rewrite (bind_ok _ _ _ _ _ E2). by exists s2.
  - rewrite bind_ret_l. cbn [negb].
    destruct (IH s Hh) as (s2 & E2 & H2); [intros j Hj; apply Hc; by right|].
    rewrite (bind_ok _ _ _ _ _ E2). by exists s2.
Qed.

(** recovery blocks put in the missing slots, as far as there are any *)
Fixpoint place (w : Z -> list Z) (todo avail : list Z) (blocks : list (Z * list Z)) : list (Z * list Z) :=
  match todo, avail with
  | oi :: todo, i :: avail =>
      place w todo avail (<[Z.to_nat oi := (k + i, w (i + k))]> blocks)
  | _, _ => blocks
  end.

Definition full_blocks (blocks : list (Z * list Z)) : Prop := Forall (fun b => zlen (snd b) = bs) blocks.

Lemma snd_nth_full blocks i : full_blocks blocks -> (i < length blocks)%nat ->
  zlen (snd (nth i blocks (0, []))) = bs.
Proof.
  intros Hf Hi. destruct (lookup_lt_is_Some_2 blocks i Hi) as [b Hb].
  rewrite (nth_lookup_Some _ _ _ _ Hb). by apply (Forall_lookup_1 _ _ _ _ Hf Hb).
Qed.

Lemma full_insert blocks i b : full_blocks blocks -> zlen (snd b) = bs -> full_blocks (<[i := b]> blocks).
Proof. intros Hf Hb. by apply Forall_insert. Qed.

Lemma recover_ok cols row s h c missing todo blocks :
  holds s h c -> 0 <= row < rows g -> (forall i, In i cols -> 0 <= i < m) ->
  full_blocks blocks -> (forall oi, In oi todo -> (Z.to_nat oi < length blocks)%nat) -> todo <> [] ->
  exists s', holds s' h c /\
    let av := avail_of h row cols in
    recover ops g code cols row missing todo blocks s =
      if (length todo <=? length av)%nat then
        match cm256_decode code bs k m (place (c row) todo av blocks) with
        | None => Ok (None, s')
        | Some bl => (write_back ops missing bl row ;;; ret (Some bl)) s'
        end
      else Ok (Some (place (c row) todo av blocks), s').
Proof.
  intros Hh Hr. revert s todo blocks Hh. pose proof Hgeo as [_ Hk Hm _ _].
  induction cols as [|i cols IH]; intros s todo blocks Hh Hc Hf Ht Hne; cbv zeta.
  - exists s. split; [done|]. destruct todo; done.
  - destruct todo as [|oi todo]; [done|]. cbn [recover].
    assert (Hi : 0 <= i < m) by (apply Hc; by left).
    assert (Hc' : forall j, In j cols -> 0 <= j < m) by (intros j Hj; apply Hc; by right).
    rewrite (bind_ok _ _ _ _ _ (VerifyCell_ok s h c row (i + k) Hh Hr ltac:(lia))).
    unfold avail_of. cbn [List.filter]. destruct (h row (i + k)) eqn:Eh; [|by apply IH].
    destruct (rp_read _ Hlaws s h c row (i + k) (snd (nth (Z.to_nat oi) blocks (0, []))) Hh Hr
      ltac:(lia) Eh) as (s1 & E1 & H1); [apply snd_nth_full; [done|apply Ht; by left]|].
    rewrite (bind_ok _ _ _ _ _ E1). cbn [negb length Nat.leb place].
    assert (Hf' : full_blocks (<[Z.to_nat oi := (k + i, c row (i + k))]> blocks))
      by (apply full_insert; [done|by apply (rp_length _ Hlaws s h); [..|lia]]).
    destruct todo as [|oi' todo].
    + exists s1. split; [done|]. by destruct (cm256_decode _ _ _ _ _).
    + apply IH; try done. intros oj Hj. rewrite length_insert. apply Ht. by right.
Qed.

(** ** Writing cells back *)
Fixpoint write_list (l : list (Z * list Z)) (row : Z) : M S unit :=
  match l with
  | [] => ret tt
  | (col, d) :: l => WriteCached ops row col d 0 ;;; write_list l row
  end.
Lemma write_back_list missing blocks row :
  write_back ops missing blocks row
    = write_list (map (fun oi => (oi, snd (nth (Z.to_nat oi) blocks (0, [])))) missing) row.
Proof. induction missing as [|oi missing IH]; cbn; [done|]. by rewrite IH. Qed.
Fixpoint numbered (i : Z) (codes : list (list Z)) : list (Z * list Z) :=
  match codes with
  | [] => []
  | d :: codes => (i + k, d) :: numbered (i + 1) codes
  end.
Lemma write_codes_list i codes row : write_codes ops g i codes row = write_list (numbered i codes) row.
Proof. revert i. induction codes as [|d codes IH]; intros i; cbn; [done|]. by rewrite IH. Qed.
Lemma numbered_lookup i codes n d :
  codes !! n = Some d -> In (i + Z.of_nat n + k, d) (numbered i codes).
Proof.
  revert i n. induction codes as [|d' codes IH]; intros i [|n] Hn; cbn in *; try done.
  - injection Hn as ->. left. f_equal. lia.
  - right. replace (i + Z.of_nat (Datatypes.S n) + k) with (i + 1 + Z.of_nat n + k) by lia. by apply IH.
Qed.
Lemma numbered_in i codes p : In p (numbered i codes) ->
  exists n, codes !! n = Some (snd p) /\ fst p = i + Z.of_nat n + k.
Proof.
  revert i. induction codes as [|d' codes IH]; intros i; [done|]. intros [<-|Hp].
  - exists 0%nat. split; [done|]. cbn. lia.
  - destruct (IH _ Hp) as (n & En & Ef). exists (Datatypes.S n). split; [done|]. lia.
Qed.

(** every listed column takes the value [w] gives it *)
Lemma write_list_ok (w : Z -> list Z) l row s h c :
  holds s h c -> 0 <= row < rows g ->
  Forall (fun p => 0 <= fst p < k + m /\ zlen (snd p) = bs /\ snd p = w (fst p)) l ->
  exists s' h' c', write_list l row s = Ok (tt, s') /\ holds s' h' c' /\
    (forall j, In j (map fst l) -> h' row j = true /\ c' row j = w j) /\
    (forall r j, r <> row \/ ~ In j (map fst l) -> h' r j = h r j /\ c' r j = c r j).
Proof.
  intros Hh Hr Hl. revert s h c Hh. induction Hl as [|[col d] l (Hcol & Hd & Hw) Hl IH];
    intros s h c Hh; cbn [write_list map].
  - exists s, h, c. done.
  - cbn [fst snd] in *. destruct (rp_write _ Hlaws s h c row col d Hh Hr Hcol Hd) as (s1 & E1 & H1).
    rewrite (bind_ok _ _ _ _ _ E1).
    destruct (IH s1 _ _ H1) as (s2 & h2 & c2 & E2 & H2 & Hin & Hout).
    exists s2, h2, c2. split; [done|]. split; [done|].
    assert (Hset : forall r j, r <> row \/ j <> col ->
      set_good h row col r j = h r j /\ set_cell c row col d r j = c r j).
    { intros r j Hne. split; [|by apply set_cell_ne]. unfold set_good.
      destruct (Z.eqb_spec r row), (Z.eqb_spec j col); try done. lia. }
    split.
    + intros j Hj. destruct (in_dec Z.eq_dec j (map fst l)) as [Hi|Hi]; [by apply Hin|].
      destruct Hj as [<-|Hj]; [|done]. destruct (Hout row col) as [-> ->]; [by right|].
      unfold set_good. by rewrite set_cell_eq, !Z.eqb_refl.
    + intros r j Hrj. destruct (Hout r j) as [-> ->];
        [destruct Hrj as [|Hrj]; [by left|right; intros Hj; apply Hrj; by right]|]. apply Hset.
      destruct Hrj as [|Hrj]; [by left|]. right. intros ->. apply Hrj. by left.
Qed.

(** ** What [place] makes *)
Lemma length_place w todo avail blocks : length (place w todo avail blocks) = length blocks.
Proof.
  revert avail blocks. induction todo as [|oi todo IH]; intros [|i avail] blocks; cbn; try done.
  by rewrite IH, length_insert.
Qed.

Lemma place_lookup w todo avail blocks i p : NoDup todo -> Forall (fun oi => 0 <= oi) todo ->
  place w todo avail blocks !! i = Some p ->
  (blocks !! i = Some p /\ (In (Z.of_nat i) todo -> (length avail < length todo)%nat)) \/
  (In (Z.of_nat i) todo /\ exists a, In a avail /\ p = (k + a, w (a + k))).
Proof.
  revert avail blocks. induction todo as [|oi todo IH]; intros avail blocks Hnd Hpos Hp; [by left|].
  destruct avail as [|a avail]; [left; cbn; split; [done|lia]|]. cbn [place] in Hp.
  apply NoDup_cons in Hnd as [Hni Hnd]. apply Forall_cons in Hpos as [Ho Hpos].
  destruct (IH avail _ Hnd Hpos Hp) as [[Hb Ht]|(Hi & a' & Ha & ->)].
  - destruct (decide (Z.to_nat oi = i)) as [<-|Hne].
    + right. rewrite Z2Nat.id by done. split; [by left|]. exists a. split; [by left|].
      rewrite list_lookup_insert_eq in Hb by (apply lookup_lt_Some in Hb; by rewrite length_insert in Hb).
      by injection Hb as <-.
    + left. rewrite list_lookup_insert_ne in Hb by done. split; [done|]. intros [E|Hi]; [lia|].
      apply Ht in Hi. cbn. lia.
  - right. split; [by right|]. exists a'. split; [by right|done].
Qed.

(** no recovery index twice, none of [avail] yet *)
Definition distinct_above (blocks : list (Z * list Z)) : Prop := forall i j idx b b',
  blocks !! i = Some (idx, b) -> blocks !! j = Some (idx, b') -> k <= idx -> i = j.
Definition unused (avail : list Z) (blocks : list (Z * list Z)) : Prop := forall i idx b a,
  blocks !! i = Some (idx, b) -> In a avail -> idx <> k + a.

Lemma lookup_insert_cases {A} (l : list A) i x j y :
  <[i := x]> l !! j = Some y -> (i = j /\ y = x) \/ (i <> j /\ l !! j = Some y).
Proof.
  intros H. apply list_lookup_insert_Some in H as [(-> & -> & _)|(Hne & H)]; [by left|by right].
Qed.

Lemma place_distinct w todo avail blocks : NoDup avail -> unused avail blocks ->
  distinct_above blocks -> distinct_above (place w todo avail blocks).
Proof.
  revert avail blocks. induction todo as [|oi todo IH]; intros [|a avail] blocks Hnd Hu Hd; cbn; try done.
  apply NoDup_cons in Hnd as [Hni Hnd]. apply IH; [done| |].
  - intros i idx b a' Hi Ha. apply lookup_insert_cases in Hi as [[_ [= -> ->]]|[_ Hi]].
    + intros E. assert (a = a') as -> by lia. apply Hni. by apply list_elem_of_In.
    + eapply Hu; [exact Hi|by right].
  - intros i j idx b b' Hi Hj Hk.
    apply lookup_insert_cases in Hi as [[Ei [= -> ->]]|[Ei Hi]];
      apply lookup_insert_cases in Hj as [[Ej [= Eij]]|[Ej Hj]]; subst; try done.
    + exfalso. by apply (Hu _ _ _ a Hj); [left|].
    + exfalso. by apply (Hu _ _ _ a Hi); [left|].
    + by apply (Hd _ _ _ _ _ Hi Hj).
Qed.

Lemma place_full w todo avail blocks :
  full_blocks blocks -> (forall a, In a avail -> zlen (w (a + k)) = bs) -> full_blocks (place w todo avail blocks).
Proof.
  revert avail blocks. induction todo as [|oi todo IH]; intros [|a avail] blocks Hf Ha; cbn; try done.
  apply IH; [apply full_insert; [done|apply Ha; by left]|intros b Hb; apply Ha; by right].
Qed.

(** ** Decode *)
Definition start (h : health) (c : grid) (row : Z) : list (Z * list Z) :=
  map (found_block h c row) (columns k).
Definition missing (h : health) (row : Z) : list Z := missing_of h row (columns k).
Definition avail (h : health) (row : Z) : list Z := avail_of h row (columns m).
Definition patched_blocks (h : health) (c : grid) (row : Z) : list (Z * list Z) :=
  place (c row) (missing h row) (avail h row) (start h c row).

Lemma NoDup_columns n : NoDup (columns n).
Proof. unfold columns. apply NoDup_fmap_2; [intros a b E; lia|apply NoDup_seq]. Qed.
Lemma In_columns n i : In i (columns n) <-> 0 <= i < n.
Proof.
  split; [apply columns_range|]. intros Hi. unfold columns. apply in_map_iff. exists (Z.to_nat i).
  split; [lia|]. apply in_seq. lia.
Qed.
Lemma NoDup_filtered (f : Z -> bool) n : NoDup (List.filter f (columns n)).
Proof. apply NoDup_ListNoDup, List.NoDup_filter, NoDup_ListNoDup, NoDup_columns. Qed.
Lemma missing_spec h row i : In i (missing h row) <-> 0 <= i < k /\ h row i = false.
Proof. unfold missing, missing_of. by rewrite filter_In, In_columns, negb_true_iff. Qed.
Lemma avail_spec h row i : In i (avail h row) <-> 0 <= i < m /\ h row (i + k) = true.
Proof. unfold avail, avail_of. by rewrite filter_In, In_columns. Qed.
Lemma start_lookup h c row i p : start h c row !! i = Some p ->
  0 <= Z.of_nat i < k /\ p = found_block h c row (Z.of_nat i).
Proof.
  intros Hp. pose proof (lookup_lt_Some _ _ _ Hp) as Hl. unfold start in *.
  rewrite length_map, length_columns in Hl. rewrite list_lookup_fmap, nth_columns in Hp by done.
  injection Hp as <-. split; [lia|done].
Qed.
Lemma zlen_start h c row : zlen (start h c row) = k.
Proof. destruct Hgeo. unfold zlen, start. rewrite length_map, length_columns. lia. Qed.

Section Row.
Context (s : S) (h : health) (c : grid) (row : Z).
Hypotheses (Hh : holds s h c) (Hr : 0 <= row < rows g).

Lemma start_full : full_blocks (start h c row).
Proof using Hgeo Hlaws Hh Hr.
  apply Forall_lookup_2. intros i p Hp. apply start_lookup in Hp as [Hi ->]. destruct Hgeo as [_ ? ? _ _].
  unfold found_block. destruct (h row _); [by apply (rp_length _ Hlaws s h); [..|lia]|apply zlen_zeros].
Qed.
Lemma patched_full : full_blocks (patched_blocks h c row).
Proof using Hgeo Hlaws Hh Hr.
  apply place_full; [apply start_full|]. intros a Ha. apply avail_spec in Ha. destruct Hgeo as [_ ? ? _ _].
  apply (rp_length _ Hlaws s h); [done|done|lia].
Qed.
Lemma missing_nonneg : Forall (fun oi => 0 <= oi) (missing h row).
Proof using. apply Forall_forall. intros oi Ho. apply list_elem_of_In, missing_spec in Ho. lia. Qed.

(** the entries of the patched row *)
Lemma patched_lookup i p : patched_blocks h c row !! i = Some p ->
  0 <= Z.of_nat i < k /\
  ((p = found_block h c row (Z.of_nat i) /\
    (h row (Z.of_nat i) = false -> (length (avail h row) < length (missing h row))%nat)) \/
   (h row (Z.of_nat i) = false /\ exists a, In a (avail h row) /\ p = (k + a, c row (a + k)))).
Proof using.
  intros Hp. pose proof (lookup_lt_Some _ _ _ Hp) as Hl. unfold patched_blocks in *.
  rewrite length_place in Hl. unfold start in Hl. rewrite length_map, length_columns in Hl.
  assert (Hi : 0 <= Z.of_nat i < k) by lia. split; [done|].
  apply place_lookup in Hp; [|apply NoDup_filtered|apply missing_nonneg].
  rewrite missing_spec in Hp. destruct Hp as [[Hb Ht]|([_ Hm] & Ha)]; [|by right].
  left. apply start_lookup in Hb as [_ ->]. split; [done|]. intros Hf. by apply Ht.
Qed.

(** a row of blocks is encoded and its code cells written *)
Lemma encode_tail blocks s0 h0 c0 : holds s0 h0 c0 -> full_blocks blocks -> zlen blocks = k ->
  exists codes s' h' c',
    match cm256_encode code bs k m (map snd blocks) with
    | None => ret false
    | Some codes => write_codes ops g 0 codes row ;;; ret true
    end s0 = Ok (true, s') /\ holds s' h' c' /\
    cm256_encode code bs k m (map snd blocks) = Some codes /\ zlen codes = m /\
    (forall i, 0 <= i < m -> h' row (k + i) = true /\ codes !! Z.to_nat i = Some (c' row (k + i))) /\
    (forall r j, r <> row \/ ~ (k <= j < k + m) -> h' r j = h0 r j /\ c' r j = c0 r j).
Proof using Hgeo Hlaws Hcode Hr.
  intros H0 Hf Hl. destruct (Hcode (map snd blocks)) as (codes & Ec & Hlc & Hfc).
  - unfold zlen in *. by rewrite length_map.
  - by apply Forall_map.
  - rewrite Ec. exists codes.
    destruct (write_list_ok (fun j => nth (Z.to_nat (j - k)) codes []) (numbered 0 codes) row s0 h0 c0 H0 Hr)
      as (s' & h' & c' & E & H' & Hin & Hout).
    + apply Forall_forall. intros p Hp. apply list_elem_of_In, numbered_in in Hp as (n & En & Ef).
      pose proof (lookup_lt_Some _ _ _ En). unfold zlen in Hlc. destruct Hgeo as [_ ? ? _ _].
      rewrite Ef. replace (Z.to_nat _) with n by lia. split; [lia|].
      split; [by apply (Forall_lookup_1 _ _ _ _ Hfc En)|]. symmetry. by apply nth_lookup_Some.
    + exists s', h', c'. rewrite write_codes_list, (bind_ok _ _ _ _ _ E). unfold zlen in Hlc.
      assert (Hfst : forall j, In j (map fst (numbered 0 codes)) <-> k <= j < k + m).
      { intros j. split.
        - intros Hj. apply in_map_iff in Hj as (p & <- & Hp). apply numbered_in in Hp as (n & En & ->).
          apply lookup_lt_Some in En. lia.
        - intros Hj. destruct (lookup_lt_is_Some_2 codes (Z.to_nat (j - k))) as [d Hd]; [lia|].
          apply in_map_iff. exists (0 + Z.of_nat (Z.to_nat (j - k)) + k, d).
          split; [cbn; lia|]. by apply numbered_lookup. }
      do 4 (split; [done|]). split.
      * intros i Hi. destruct (Hin (k + i)) as [-> ->]; [apply Hfst; lia|]. split; [done|].
        destruct (lookup_lt_is_Some_2 codes (Z.to_nat i)) as [d Hd]; [lia|].
        rewrite Hd. f_equal. symmetry. apply nth_lookup_Some. by replace (k + i - k) with i by lia.
      * intros r j Hrj. apply Hout. rewrite Hfst. done.
Qed.

Definition tail (blocks : list (Z * list Z)) : M S bool :=
  match cm256_encode code bs k m (map snd blocks) with
  | None => ret false
  | Some codes => write_codes ops g 0 codes row ;;; ret true
  end.
Definition enough : bool := (length (missing h row) <=? length (avail h row))%nat.

Lemma Decode_cases : exists s1, holds s1 h c /\
  Decode ops g code row s =
    if bool_decide (missing h row = []) || negb enough then tail (patched_blocks h c row) s1
    else match cm256_decode code bs k m (patched_blocks h c row) with
         | None => Ok (false, s1)
         | Some blocks => (write_back ops (missing h row) blocks row ;;; tail blocks) s1
         end.
Proof using Hgeo Hlaws Hh Hr.
  unfold Decode, MAX_BLOCKS. destruct (Z.ltb_spec 256 k); [destruct Hgeo; lia|].
  destruct (collect_ok (columns k) row s h c Hh Hr (columns_range k)) as (s1 & E1 & H1).
  rewrite (bind_ok _ _ _ _ _ E1). fold (missing h row). fold (start h c row).
  destruct (bool_decide_reflect (missing h row = [])) as [E|E].
  - exists s1. split; [done|]. unfold patched_blocks. rewrite E. cbn [orb place].
    replace (recover ops g code (columns m) row [] [] (start h c row)) with
      (ret (Some (start h c row)) : M S _) by (by destruct (columns m)).
    by rewrite bind_ret_l.
  - destruct (recover_ok (columns m) row s1 h c (missing h row) (missing h row) (start h c row) H1 Hr
      (columns_range m) start_full) as (s2 & H2 & E2); [|done|].
    { intros oi Ho. apply missing_spec in Ho. pose proof (zlen_start h c row). unfold zlen in *. lia. }
    exists s2. split; [done|]. cbv zeta in E2. fold (avail h row) in E2.
    fold (patched_blocks h c row) in E2. fold enough in E2. unfold bind at 1. rewrite E2. cbn [orb].
    destruct enough; cbn [negb]; [|done].
    destruct (cm256_decode _ _ _ _ _) as [bl|]; [|done].
    unfold bind. by destruct (write_back _ _ _ _ _) as [[[] s3]| |].
Qed.
End Row.

(** ** The row is what it was *)
Section Restore.
Context (s : S) (h : health) (c : grid) (row : Z) (w : Z -> list Z).
Hypotheses (Hh : holds s h c) (Hr : 0 <= row < rows g).
Hypothesis Hw : forall j, 0 <= j < k + m -> zlen (w j) = bs.
Hypothesis Hcod : cm256_encode code bs k m (map w (columns k)) = Some (map (fun i => w (k + i)) (columns m)).
Hypothesis Hgood : forall j, 0 <= j < k + m -> h row j = true -> c row j = w j.

Definition restored (s' : S) : Prop := exists h' c', holds s' h' c' /\
  (forall j, 0 <= j < k + m -> h' row j = true /\ c' row j = w j) /\
  (forall r j, r <> row -> h' r j = h r j /\ c' r j = c r j).

Lemma tail_restores blocks s2 h2 c2 : holds s2 h2 c2 -> map snd blocks = map w (columns k) ->
  (forall j, 0 <= j < k -> h2 row j = true /\ c2 row j = w j) ->
  (forall r j, r <> row -> h2 r j = h r j /\ c2 r j = c r j) ->
  exists s', tail row blocks s2 = Ok (true, s') /\ restored s'.
Proof using Hgeo Hlaws Hcode Hr Hw Hcod.
  intros H2 Eb Hd Ho. pose proof Hgeo as [_ Hk Hm _ _].
  destruct (encode_tail row Hr blocks s2 h2 c2 H2) as (codes & s' & h' & c' & E & H' & Ec & _ & Hcc & Hrest).
  - apply (Forall_map snd (fun b => zlen b = bs)). rewrite Eb. apply Forall_map, Forall_forall.
    intros i Hi. apply list_elem_of_In, In_columns in Hi. apply Hw. lia.
  - unfold zlen. rewrite <- (length_map snd), Eb, length_map, length_columns. lia.
  - exists s'. split; [exact E|]. exists h', c'. split; [done|]. split.
    + intros j Hj. destruct (Z.lt_ge_cases j k) as [Hlt|Hge].
      * destruct (Hrest row j) as [-> ->]; [right; lia|]. apply Hd. lia.
      * destruct (Hcc (j - k)) as [Hg Hx]; [lia|]. replace (k + (j - k)) with j in * by lia.
        split; [done|]. rewrite Eb, Hcod in Ec. injection Ec as <-.
        rewrite list_lookup_fmap, nth_columns in Hx by lia. injection Hx as Hx.
        rewrite <- Hx. f_equal. lia.
    + intros r j Hne. destruct (Hrest r j) as [-> ->]; [by left|]. by apply Ho.
Qed.

Lemma good_data j : 0 <= j < k -> h row j = true -> c row j = w j.
Proof using Hgeo Hgood. destruct Hgeo as [_ ? ? _ _]. intros. apply Hgood; [lia|done]. Qed.

(** the patched row is something [cm256_decode] can complete *)
Lemma patched_decodes : decoder_ok -> (length (missing h row) <= length (avail h row))%nat ->
  exists blocks, cm256_decode code bs k m (patched_blocks h c row) = Some blocks /\
    map snd blocks = map w (columns k).
Proof using Hgeo Hgood Hw Hcod.
  intros Hdec Hen. pose proof Hgeo as [_ Hk Hm _ _].
  apply (Hdec (map w (columns k)) (map (fun i => w (k + i)) (columns m))).
  - unfold zlen. rewrite length_map, length_columns. lia.
  - apply Forall_map, Forall_forall. intros i Hi. apply list_elem_of_In, In_columns in Hi. apply Hw. lia.
  - done.
  - unfold patched_blocks, zlen. rewrite length_place. apply zlen_start.
  - apply place_distinct; [apply NoDup_filtered| |].
    + intros i idx b a Hi Ha. apply start_lookup in Hi as [Hi Ef]. apply avail_spec in Ha.
      unfold found_block in Ef. destruct (h row _); injection Ef as -> ->; lia.
    + intros i j idx b b' Hi Hj Hki. exfalso. apply start_lookup in Hi as [Hi Ef].
      unfold found_block in Ef. destruct (h row _); injection Ef as -> ->; lia.
  - intros i idx b Hi. apply patched_lookup in Hi as (Hik & [[Ef Hm']|(Hbad & a & Ha & [= -> ->])]).
    + unfold found_block in Ef. destruct (h row (Z.of_nat i)) eqn:Ei; [|specialize (Hm' eq_refl); lia].
      injection Ef as -> ->. left. split; [done|].
      rewrite list_lookup_fmap, nth_columns by lia. cbn. f_equal. symmetry. by apply good_data.
    + apply avail_spec in Ha as [Ha Hg]. right. split; [lia|].
      rewrite list_lookup_fmap, nth_columns by lia. cbn. f_equal.
      rewrite Hgood by (try done; lia). f_equal. lia.
Qed.

(** the recovered cells are written back *)
Lemma write_back_restores blocks s1 : holds s1 h c -> map snd blocks = map w (columns k) ->
  exists s2 h2 c2, write_back ops (missing h row) blocks row s1 = Ok (tt, s2) /\ holds s2 h2 c2 /\
    (forall j, 0 <= j < k -> h2 row j = true /\ c2 row j = w j) /\
    (forall r j, r <> row -> h2 r j = h r j /\ c2 r j = c r j).
Proof using Hgeo Hlaws Hr Hw Hgood.
  intros H1 Eb. pose proof Hgeo as [_ Hk Hm _ _].
  assert (Hnth : forall j, 0 <= j < k -> snd (nth (Z.to_nat j) blocks (0, [])) = w j).
  { intros j Hj. rewrite <- (map_nth snd), Eb. apply nth_lookup_Some.
    rewrite list_lookup_fmap, nth_columns by lia. cbn. do 2 f_equal. lia. }
  destruct (write_list_ok w (map (fun oi => (oi, snd (nth (Z.to_nat oi) blocks (0, [])))) (missing h row))
    row s1 h c H1 Hr) as (s2 & h2 & c2 & E2 & H2 & Hin & Hout).
  { apply Forall_map, Forall_forall. intros oi Ho. apply list_elem_of_In, missing_spec in Ho.
    cbn [fst snd]. rewrite Hnth by lia. split; [lia|]. split; [apply Hw; lia|done]. }
  rewrite map_map in Hin, Hout. cbn [fst] in Hin, Hout. rewrite map_id in Hin, Hout.
  exists s2, h2, c2. rewrite write_back_list. split; [done|]. split; [done|]. split.
  - intros j Hj. destruct (h row j) eqn:Ej; [|apply Hin; by apply missing_spec].
    destruct (Hout row j) as [-> ->]; [right; rewrite missing_spec, Ej; by intros []|].
    split; [done|by apply good_data].
  - intros r j Hne. apply Hout. by left.
Qed.
End Restore.

(** [C10] Repair: if the blocks of a row that verify hold what the row held, its code
    cells being the encoding of its data cells, and there are at least as many good
    code cells as data cells missing, [Decode] succeeds, every cell of the row holds
    what it held and verifies, and no other row changes. *)
Theorem row_decode_recovers (s : S) (h : health) (c : grid) (row : Z) (w : Z -> list Z) :
  holds s h c -> 0 <= row < rows g -> decoder_ok ->
  (forall j, 0 <= j < k + m -> zlen (w j) = bs) ->
  cm256_encode code bs k m (map w (columns k)) = Some (map (fun i => w (k + i)) (columns m)) ->
  (forall j, 0 <= j < k + m -> h row j = true -> c row j = w j) ->
  (length (missing h row) <= length (avail h row))%nat ->
  exists s', Decode ops g code row s = Ok (true, s') /\ restored h c row w s'.
Proof using Hgeo Hlaws Hcode.
  intros Hh Hr Hdec Hw Hcod Hgood Hen.
  destruct (Decode_cases s h c row Hh Hr) as (s1 & H1 & ->).
  destruct (bool_decide_reflect (missing h row = [])) as [E|E]; cbn [orb].
  - assert (Hall : forall j, 0 <= j < k -> h row j = true).
    { intros j Hj. destruct (h row j) eqn:Ej; [done|]. exfalso.
      assert (Hin : In j (missing h row)) by by apply missing_spec. by rewrite E in Hin. }
    unfold patched_blocks. rewrite E. cbn [place].
    apply (tail_restores h c row w Hr Hw Hcod _ s1 h c H1); [| |done].
    + unfold start. rewrite map_map. apply map_ext_in. intros i Hi. apply In_columns in Hi.
      unfold found_block. rewrite Hall by done. apply (good_data h c row w Hgood); [done|by apply Hall].
    + intros j Hj. split; [by apply Hall|]. apply (good_data h c row w Hgood); [done|by apply Hall].
  - unfold enough. destruct (Nat.leb_spec (length (missing h row)) (length (avail h row))); [|lia].
    cbn [negb]. destruct (patched_decodes h c row w Hw Hcod Hgood Hdec Hen) as (blocks & -> & Eb).
    destruct (write_back_restores h c row w Hr Hw Hgood blocks s1 H1 Eb)
      as (s2 & h2 & c2 & E2 & H2 & Hd & Ho).
    rewrite (bind_ok _ _ _ _ _ E2). by apply (tail_restores h c row w Hr Hw Hcod _ s2 h2 c2).
Qed.

(** With fewer good code cells than missing data cells [Decode] reports success
    all the same: no data cell is recovered, and the code cells, the last trace of
    the lost blocks, are overwritten with the encoding of a row whose missing
    cells are zeros or copies of code cells. *)
Theorem row_decode_hides_loss (s : S) (h : health) (c : grid) (row : Z) :
  holds s h c -> 0 <= row < rows g ->
  (length (avail h row) < length (missing h row))%nat ->
  exists s' h' c' cells codes,
    Decode ops g code row s = Ok (true, s') /\ holds s' h' c' /\
    (forall j, 0 <= j < k -> h' row j = h row j /\ c' row j = c row j) /\
    (forall i, 0 <= i < k -> h row i = true -> cells !! Z.to_nat i = Some (c row i)) /\
    (forall i d, 0 <= i < k -> h row i = false -> cells !! Z.to_nat i = Some d ->
       d = zeros \/ exists a, 0 <= a < m /\ d = c row (a + k)) /\
    cm256_encode code bs k m cells = Some codes /\
    (forall i, 0 <= i < m -> h' row (k + i) = true /\ codes !! Z.to_nat i = Some (c' row (k + i))).
Proof using Hgeo Hlaws Hcode.
  intros Hh Hr Hlt. destruct (Decode_cases s h c row Hh Hr) as (s1 & H1 & ->).
  unfold enough. destruct (Nat.leb_spec (length (missing h row)) (length (avail h row))); [lia|].
  cbn [negb]. rewrite orb_true_r.
  assert (Hlen : zlen (patched_blocks h c row) = k)
    by (unfold patched_blocks, zlen; rewrite length_place; apply zlen_start).
  destruct (encode_tail row Hr (patched_blocks h c row) s1 h c H1 (patched_full s h c row Hh Hr) Hlen)
    as (codes & s' & h' & c' & E & H' & Ec & _ & Hcc & Hrest).
  exists s', h', c', (map snd (patched_blocks h c row)), codes. split; [exact E|]. split; [done|].
  split; [intros j Hj; apply Hrest; right; lia|].
  assert (Hat : forall i d, 0 <= i < k -> map snd (patched_blocks h c row) !! Z.to_nat i = Some d ->
    (d = snd (found_block h c row i)) \/
    (h row i = false /\ exists a, In a (avail h row) /\ d = c row (a + k))).
  { intros i d Hi Hd. rewrite list_lookup_fmap in Hd.
    destruct (patched_blocks h c row !! Z.to_nat i) as [p|] eqn:Ep; [|done]. injection Hd as <-.
    apply patched_lookup in Ep as (_ & [[-> _]|(Hb & a & Ha & ->)]); rewrite Z2Nat.id in * by lia; [by left|].
    right. split; [done|]. by exists a. }
  split_and_all; [| |done|done].
  - intros i Hi Hg. destruct (lookup_lt_is_Some_2 (map snd (patched_blocks h c row)) (Z.to_nat i)) as [d Hd].
    { unfold zlen in Hlen. rewrite length_map. lia. }
    rewrite Hd. destruct (Hat i d Hi Hd) as [->|[Hb _]]; [|congruence].
    unfold found_block. by rewrite Hg.
  - intros i d Hi Hb Hd. destruct (Hat i d Hi Hd) as [->|[_ (a & Ha & ->)]].
    + left. unfold found_block. by rewrite Hb.
    + right. apply avail_spec in Ha. exists a. split; [apply Ha|done].
Qed.
End Repair.

(** ** The one-parity code can be decoded *)
Lemma xor_comm a b : xor_block a b = xor_block b a.
Proof.
  revert b. induction a as [|x a IH]; intros [|y b]; cbn; try done.
  by rewrite Z.lxor_comm, IH.
Qed.
Lemma xor_assoc a b c : xor_block a (xor_block b c) = xor_block (xor_block a b) c.
Proof.
  revert b c. induction a as [|x a IH]; intros [|y b] [|z c]; cbn; try done.
  by rewrite Z.lxor_assoc, IH.
Qed.
Lemma xor_cancel a b : (length a <= length b)%nat -> xor_block (xor_block a b) b = a.
Proof.
  revert b. induction a as [|x a IH]; intros [|y b] Hl; cbn in *; try done; [lia|].
  rewrite Z.lxor_assoc, Z.lxor_nilpotent, Z.lxor_0_r. f_equal. apply IH. lia.
Qed.
Lemma parity_delete bs l i b : l !! i = Some b ->
  parity bs l = xor_block b (parity bs (delete i l)).
Proof.
  revert i. induction l as [|x l IH]; intros [|i] Hi; try done.
  - by injection Hi as ->.
  - change (parity bs (x :: l)) with (xor_block x (parity bs l)). rewrite (IH i Hi).
    change (delete (S i) (x :: l)) with (x :: delete i l).
    change (parity bs (x :: delete i l)) with (xor_block x (parity bs (delete i l))).
    by rewrite !xor_assoc, (xor_comm x).
Qed.

Lemma xor_decoder_ok n k bs : 0 < bs -> decoder_ok (mkgeometry n k 1 bs) xor_code.
Proof.
  intros Hb data codes blocks. cbn [dataCount codeCount blockSize cm256_encode cm256_decode xor_code].
  change (1 =? 1) with true. intros Hd Hf [= <-] Hl Hinj Hb'. eexists. split; [reflexivity|].
  apply list_eq. intros i. rewrite map_map.
  destruct (decide (i < length blocks)%nat) as [Hi|Hi];
    [|rewrite !(proj2 (lookup_ge_None _ _)); [done|unfold zlen in *; lia|rewrite length_map; lia]].
  destruct (lookup_lt_is_Some_2 blocks i Hi) as [[idx b] Eb].
  rewrite list_lookup_fmap, Eb. cbn [fmap option_fmap option_map fst snd].
  destruct (Hb' i idx b Eb) as [[-> Ed]|[Hidx Ep]].
  - unfold fix_block. cbn [fst]. destruct (Z.leb_spec k (Z.of_nat i)); [unfold zlen in *; lia|done].
  - unfold fix_block. cbn [fst]. destruct (Z.leb_spec k idx); [|lia]. cbn [snd].
    assert (idx = k) as -> by lia. rewrite Z.sub_diag in Ep. injection Ep as <-.
    destruct (lookup_lt_is_Some_2 data i) as [d Ed]; [unfold zlen in *; lia|]. rewrite Ed. f_equal.
    rewrite (parity_delete bs (map snd blocks) i (parity bs data)) by (by rewrite list_lookup_fmap, Eb).
    rewrite (parity_delete bs data i d Ed).
    assert (Hsame : delete i (map snd blocks) = delete i data).
    { apply list_eq. intros j.
      assert (Hj : forall p, p <> i -> map snd blocks !! p = data !! p).
      { intros p Hp. rewrite list_lookup_fmap. destruct (blocks !! p) as [[ix x]|] eqn:Ex.
        - cbn. destruct (Hb' p ix x Ex) as [[_ ->]|[Hx _]]; [done|]. exfalso. apply Hp.
          assert (ix = k) as -> by lia. by apply (Hinj p i k x (parity bs data)).
        - cbn. symmetry. apply lookup_ge_None. apply lookup_ge_None in Ex. unfold zlen in *. lia. }
      destruct (decide (j < i)%nat).
      - rewrite !list_lookup_delete_lt by done. apply Hj. lia.
      - rewrite !list_lookup_delete_ge by lia. apply Hj. lia. }
    rewrite Hsame. apply xor_cancel.
    pose proof (zlen_parity bs (delete i data) ltac:(lia)) as Hp.
    assert (Hfd : Forall (fun b => zlen b = bs) (delete i data)) by by apply Forall_delete.
    specialize (Hp Hfd). pose proof (Forall_lookup_1 _ _ _ _ Hf Ed). cbn in *. unfold zlen in *. lia.
Qed.

(** ** Columns in memory whose cells can be bad *)
Definition frail : CellOps (health * grid) :=
  mkops (health * grid) 3 (fun _ => true) (fun col row s => Ok (fst s row col, s))
    (fun row col w off s =>
       if fst s row col then Ok ((true, read_at (snd s row col) (Z.to_nat off) (length w)), s)
       else Ok ((false, w), s))
    (fun row col d off s =>
       Ok (true, (set_good (fst s) row col,
                  set_cell (snd s) row col (write_at (snd s row col) (Z.to_nat off) d)))).
Definition frail_holds (s : health * grid) (h : health) (c : grid) : Prop :=
  s = (h, c) /\ forall row col, zlen (c row col) = 3.

Lemma frail_laws : repair_laws frail sample_geometry frail_holds.
Proof.
  split.
  - done.
  - done.
  - intros s h c row col [_ Hl] _ _. apply Hl.
  - intros s h c row col [-> _] _ _. done.
  - intros s h c row col w [-> Hl] _ _ Hg Hw. exists (h, c). cbn. rewrite Hg. split; [|done].
    do 3 f_equal. apply read_at_all. specialize (Hl row col). cbn in Hw. unfold zlen in *. lia.
  - intros s h c row col d [-> Hl] _ _ Hd. eexists. split; [reflexivity|]. cbn [fst snd] in *.
    pose proof (Hl row col). cbn in Hd. rewrite write_at_whole by (unfold zlen in *; lia). split; [done|].
    intros r j. unfold set_cell. destruct (_ && _); [done|apply Hl].
Qed.

(** the first data cell of row 1 is lost *)
Definition one_lost : health := fun r j => negb ((r =? 1) && (j =? 0)).
Definition damaged : grid := fun r j => nth (Z.to_nat j) [[0; 0; 0]; [4; 5; 6]; [5; 7; 5]] [0; 0; 0].
Definition original (j : Z) : list Z := nth (Z.to_nat j) [[1; 2; 3]; [4; 5; 6]; [5; 7; 5]] [].

Lemma damaged_holds h : frail_holds (h, damaged) h damaged.
Proof.
  split; [done|]. intros row col. unfold damaged.
  destruct (Z.to_nat col) as [|[|[|[|n]]]]; done.
Qed.
Lemma three_columns (P : Z -> Prop) : P 0 -> P 1 -> P 2 -> forall j, 0 <= j < 2 + 1 -> P j.
Proof. intros H0 H1 H2 j Hj. assert (j = 0 \/ j = 1 \/ j = 2) as [->|[->| ->]] by lia; done. Qed.

Lemma row_decode_recovers_witness :
  exists s', Decode frail sample_geometry xor_code 1 (one_lost, damaged) = Ok (true, s') /\
    restored sample_geometry frail_holds one_lost damaged 1 original s'.
Proof.
  apply (row_decode_recovers frail sample_geometry xor_code frail_holds sample_geometry_ok frail_laws
    (xor_encoder_total 4 2 3 ltac:(lia)) (one_lost, damaged) one_lost damaged 1 original).
  - apply damaged_holds.
  - cbn. lia.
  - apply xor_decoder_ok. lia.
  - by apply three_columns.
  - reflexivity.
  - by apply (three_columns (fun j => one_lost 1 j = true -> damaged 1 j = original j)).
  - vm_compute. lia.
Defined.

(** both data cells are lost *)
Definition two_lost : health := fun r j => negb ((r =? 1) && (j <? 2)).
Lemma row_decode_hides_loss_witness : exists s' h' c',
  Decode frail sample_geometry xor_code 1 (two_lost, damaged) = Ok (true, s') /\
  frail_holds s' h' c' /\ h' 1 0 = false.
Proof.
  destruct (row_decode_hides_loss frail sample_geometry xor_code frail_holds sample_geometry_ok frail_laws
    (xor_encoder_total 4 2 3 ltac:(lia)) (two_lost, damaged) two_lost damaged 1)
    as (s' & h' & c' & cells & codes & E & H & Hd & _);
    [apply damaged_holds|cbn; lia|vm_compute; lia|].
  exists s', h', c'. split; [exact E|]. split; [exact H|]. destruct (Hd 0) as [-> _]; [cbn; lia|done].
Defined.
