(* ===== verification/HostClient.v ===== *)
(** * Partitions on remote hosts (src/src/bdfs-lib/BdPartition.cpp,
      BdPartitionFolder.cpp, BdObject.cpp, BdSession.cpp, BdTypes.cpp and the callbacks
      of HttpRequest.cpp)

    The calls a client makes on a host's objects, from the arguments to the request
    the host handles and from its answer to the result.  libcurl (which hosts answer,
    percent encoding) and the JSON reader are parameters; the other end is
    [HostHandler]. *)

From Stdlib Require Import ZArith Lia Bool Ascii String.
From stdpp Require Import base list gmap strings pretty.
From S2P Require Import Prelude Json Streams Stdio BitSet HostPartition HostHandler HttpParams.
From S2P Require Import Volume VolumeRow VolumeFacts VolumeRemote VolumeDisk.
Set Default Goal Selector "!".
Local Open Scope Z_scope.
Local Open Scope drive_scope.

(** an answer that is an object of type [Error] *)
Definition is_error (v : json) : bool :=
  match member v "Type" with JString s => String.eqb s "Error" | _ => false end.

(** BdObject *)
Record object := mkobject { base : string; name : string; opath : string; otype : string }.
#[export] Instance object_eq_dec : EqDecision object.
Proof. solve_decision. Defined.

(** sessions by base address, and the hosts behind the addresses *)
Record net (St : Type) := mknet { sessions : gset string; hosts : string -> St }.
Arguments mknet {St}. Arguments sessions {St}. Arguments hosts {St}.
Definition set_host {St : Type} (b : string) (s : St) (w : net St) : net St :=
  mknet (sessions w) (fun b' => if String.eqb b' b then s else hosts w b').

Definition CreateSession {St : Type} (b : string) : M (net St) unit :=
  modify (fun w => mknet ({[b]} ∪ sessions w) (hosts w)).

(** [base/api/<path without :/>/<method>]: the part after the host *)
Definition url_path (path method : string) : option string :=
  match String.index 0 "://" path with
  | None => None
  | Some css =>
      Some ("/api/" +:+ substring 0 css path +:+
            substring (css + 2) (String.length path - (css + 2)) path +:+ "/" +:+ method)
  end.

Section Client.
Context (url_escape url_decode json_quote : string -> string) (json_unquote : string -> option string).
Context (json_parse : list Z -> option json).
(** the handler of each host, and whether libcurl reaches it *)
Context {St : Type} (process : string -> request -> M St response) (reach : string -> bool).
Context (timeout : string -> Z).

(** HttpRequest::ExecuteImpl: None for a curl error.  The status code is not looked at *)
Definition perform (b : string) (r : request) : M (net St) (option (list Z)) := fun w =>
  if reach b
  then obind (process b r (hosts w b)) (fun '(resp, s) => Ok (Some (reply_bytes (content resp)), set_host b s w))
  else Ok (None, w).

(** BdSession::Call; None when the call returns false *)
Definition Call (o : object) (method : string) (args : list (string * arg)) : M (net St) (option (option (list Z))) :=
  w <- get ;;
  if negb (bool_decide (base o ∈ sessions w)) then ret None else
  match url_path (opath o) method with
  | None => ret None
  | Some p =>
      r <- perform (base o) (mkrequest p
        (parameter_of url_decode json_unquote EmptyString (postImpl url_escape json_quote args)) None) ;;
      ret (Some r)
  end.
(** with a body: the arguments travel in the query, and an empty body leaves the
    request without callbacks *)
Definition query_of (suffix : string) : string :=
  match suffix with String "?" q => q | _ => EmptyString end.
Definition CallBody (o : object) (method : string) (args : list (string * arg)) (body : list Z)
  : M (net St) (option (option (list Z))) :=
  w <- get ;;
  if negb (bool_decide (base o ∈ sessions w)) then ret None else
  match url_path (opath o) method with
  | None => ret None
  | Some p =>
      if zlen body =? 0 then fail UncaughtException else
      r <- perform (base o) (mkrequest p
        (parameter_of url_decode json_unquote (query_of (EncodeArgs url_escape json_quote args)) EmptyString) (Some body)) ;;
      ret (Some r)
  end.

(** HttpRequest::Get with a JSON callback: None for an error *)
Definition json_reply (r : option (list Z)) : option json :=
  match r with
  | None => None
  | Some text => match json_parse text with
                 | Some v => if is_error v then None else Some v
                 | None => None
                 end
  end.
(** and with a raw one *)
Definition raw_reply (r : option (list Z)) : option (list Z) := r.

(** ** BdPartition *)
Definition as_int (v : option json) : Z :=
  match v with
  | Some (JInt n) => if (- 2 ^ 31 <=? n) && (n <? 2 ^ 31) then n else -1
  | _ => -1
  end.
Definition as_bool (v : option json) : bool := match v with Some (JBool b) => b | _ => false end.

Definition Write (o : object) (blockId offset : Z) (data : list Z) (size : Z) : M (net St) (option (option Z)) :=
  r <- CallBody o "WriteBlock" [("block", UInt (u32 blockId)); ("offset", UInt (u32 offset))]
         (take (Z.to_nat size) data) ;;
  ret (option_map (fun r => Some (as_int (json_reply r))) r).
Definition Read (o : object) (blockId offset size : Z) : M (net St) (option (option (list Z))) :=
  r <- Call o "ReadBlock" [("block", UInt (u32 blockId)); ("offset", UInt (u32 offset)); ("size", UInt (u32 size))] ;;
  ret (option_map (fun r => Some (default [] (raw_reply r))) r).
Definition Delete (o : object) : M (net St) (option (option bool)) :=
  r <- Call o "Delete" [] ;;
  ret (option_map (fun r => Some (as_bool (json_reply r))) r).
(** BdObject::GetTimeout *)
Definition GetTimeout (o : object) : Z := timeout (base o).

Definition client_partition : BdPartition object (net St) := {|
  bd_Read := Read;
  bd_Write := Write;
  bd_Delete := Delete;
  bd_GetTimeout := GetTimeout
|}.

(** ** BdPartitionFolder *)
Definition ReservePartition (o : object) (size : Z) : M (net St) (option (list Z)) :=
  r <- Call o "Reserve" [("size", UInt (u32 size))] ;;
  ret (option_map (fun r => default [] (raw_reply r)) r).
Definition UnreservePartition (o : object) (reserveId : string) : M (net St) (option bool) :=
  r <- Call o "Unreserve" [("reserveId", Str reserveId)] ;;
  ret (option_map (fun r => as_bool (json_reply r)) r).
Definition CreatePartition (o : object) (reserveId : string) (blockSize : Z) : M (net St) (option (option object)) :=
  r <- Call o "NewPartition" [("block", UInt (u32 blockSize)); ("reserveId", Str reserveId)] ;;
  ret (option_map (fun r =>
    match json_reply r with
    | Some (JObject l) =>
        match member (JObject l) "Type", member (JObject l) "Path", member (JObject l) "Name" with
        | JString t, JString p, JString n =>
            if String.eqb t "Partition" then Some (mkobject (base o) n p "Partition") else None
        | _, _, _ => None
        end
    | _ => None
    end) r).
End Client.
