(* ===== verification/VolumeHosts.v ===== *)
(** * Volumes over storage hosts

    The client's calls on partitions that hosts serve keep the contract of
    [VolumeRemote.remote_laws], so a volume over them is an array of bytes: the
    composition of the volume, the client library, the request parameters, the
    host's handler, its partitions and their files. *)

From Stdlib Require Import ZArith Lia Bool Ascii String.
From stdpp Require Import base list gmap strings pretty.
From S2P Require Import Prelude Json JsonCodec HostJson Streams Stdio BitSet HostPartition HostHandler HttpModule HttpParams HttpNumbers JsonParams HostClient.
From S2P Require Import Volume VolumeRow VolumeFacts VolumeRemote VolumeDisk.
Set Default Goal Selector "!".
Local Open Scope Z_scope.
Local Open Scope drive_scope.

(** ** Hosts that serve partitions *)
(** one host's options, and the shell it runs *)
Record host_options := mkoptions {
  workDir : string; hostSize : Z; kademlia : list bool; junk : Z;
  shell : string -> filesystem -> filesystem
}.

Section Hosts.
Context (url_escape url_decode : string -> string) (print_double : real -> list Z) (scan_double : list Z -> option real).
Abbreviation json_quote := (quote_json print_double).
Abbreviation json_unquote := (unquote_json scan_double).
Abbreviation json_parse := (json_value scan_double).
Abbreviation json_text := (reserved_text print_double).
Abbreviation json_size := (reserved_size scan_double).
Context (options : string -> host_options) (reach : string -> bool) (timeout : string -> Z).
(** a call is posted, and goes through the server's table of handlers *)
Definition process (b : string) : request -> M server response :=
  HostRequest (workDir (options b)) (hostSize (options b)) (kademlia (options b)) (junk (options b))
    json_text json_size (shell (options b)) "POST".
Abbreviation client :=
  (client_partition url_escape url_decode json_quote json_unquote json_parse process reach timeout).

(** the partition each host has for the volume, and the object VolumeManager makes of it *)
Context (partition : string -> option string) (count bsize : Z).
Definition partition_object (b n : string) : object := mkobject b "Partition" ("host://Partitions/" +:+ n) n.
Definition known (o : object) : Prop := exists n, partition (base o) = Some n /\ o = partition_object (base o) n.

Definition serving (w : net server) (d : object -> Z -> list Z) (b n : string) : Prop :=
  b ∈ sessions w /\ reach b = true /\
  (String.length (workDir (options b) +:+ n) <= 1000)%nat /\
  serves (workDir (options b)) n count bsize (hosts w b) (d (partition_object b n)).
Definition stored (w : net server) (d : object -> Z -> list Z) : Prop :=
  forall b n, partition b = Some n -> serving w d b n.

Hypothesis Hurl : url_ok url_escape url_decode.
Lemma Hcodec : codec_ok url_escape url_decode json_quote json_unquote.
Proof using Hurl. by apply json_codec_ok. Qed.
Hypotheses (Hcount : 0 < count < 2 ^ 32) (Hbsize : 0 < bsize < 2 ^ 31).

Lemma url_of_partition n method :
  url_path ("host://Partitions/" +:+ n) method = Some (PATH +:+ String "/" (n +:+ String "/" method)).
Proof.
  unfold url_path.
  assert (Hi : String.index 0 "://" ("host://Partitions/" +:+ n) = Some 4%nat) by by destruct n.
  rewrite Hi. change (4 + 2)%nat with 6%nat.
  assert (E : substring 6 (String.length ("host://Partitions/" +:+ n) - 6) ("host://Partitions/" +:+ n)
    = "/Partitions/" +:+ n) by exact (substr_from_app "host:/" ("/Partitions/" +:+ n)).
  rewrite E. reflexivity.
Qed.

Lemma plain_names : Forall plain_name ["block"; "offset"; "size"; "reserveId"]%string.
Proof.
  repeat apply Forall_cons_2; try apply Forall_nil_2;
    (split; [done|]; intros [[] [] [] [] [] [] [] []] H; first [discriminate H|reflexivity]).
Qed.
Lemma plain_uint name n : In name ["block"; "offset"; "size"]%string -> plain_arg (name, UInt (u32 n)).
Proof.
  intros Hn. split; [|apply u32_range]. pose proof plain_names as Hf.
  repeat apply Forall_cons in Hf as [? Hf]. cbn. by destruct Hn as [<-|[<-|[<-|[]]]].
Qed.

(** the server's answers change nothing but the one host *)
Lemma hosts_set b s (w : net server) b' : hosts (set_host b s w) b' = if decide (b' = b) then s else hosts w b'.
Proof. cbn. destruct (String.eqb_spec b' b), (decide (b' = b)); done. Qed.

Lemma stored_set w d d' b n s :
  stored w d -> partition b = Some n -> serves (workDir (options b)) n count bsize s (d' (partition_object b n)) ->
  (forall b' n', b' <> b -> d' (partition_object b' n') = d (partition_object b' n')) ->
  stored (set_host b s w) d'.
Proof.
  intros Hst Hb Hs Ho b' n' Hb'. destruct (Hst b' n' Hb') as (H1 & H2 & H3 & H4).
  do 3 (split; [done|]). rewrite hosts_set.
  destruct (decide (b' = b)) as [->|Hne]; [|by rewrite Ho].
  by assert (n' = n) as -> by congruence.
Qed.

Lemma perform_ok b r w resp s rest : reach b = true -> path r = PATH +:+ String "/" rest ->
  ProcessRequest (workDir (options b)) (hostSize (options b)) (kademlia (options b)) (junk (options b))
    json_text json_size (shell (options b)) r (hosts w b) = Ok (resp, s) ->
  perform process reach b r w = Ok (Some (reply_bytes (content resp)), set_host b s w).
Proof. intros Hr Hp E. unfold perform. rewrite Hr. unfold process. by rewrite (host_partition_request _ _ _ _ _ _ _ _ _ rest), E. Qed.

Section Call.
Context (w : net server) (d : object -> Z -> list Z) (b n : string) (i off : Z).
Hypotheses (Hst : stored w d) (Hb : partition b = Some n).
Hypotheses (Hi : 0 <= i < count) (Ho : 0 <= off).
Abbreviation o := (partition_object b n).

Lemma client_read len : 0 < len -> off + len <= bsize ->
  exists s', HostClient.Read url_escape url_decode json_quote json_unquote process reach o i off len w
      = Ok (Some (Some (read_at (d o i) (Z.to_nat off) (Z.to_nat len))), set_host b s' w) /\
    serves (workDir (options b)) n count bsize s' (d o).
Proof.
  pose proof Hcodec as Hcodec. intros Hl Hle. destruct (Hst b n Hb) as (Hs & Hr & Hsh & Hsv).
  set (args := [("block"%string, UInt (u32 i)); ("offset"%string, UInt (u32 off)); ("size"%string, UInt (u32 len))]).
  assert (Hargs : Forall plain_arg args).
  { repeat apply Forall_cons_2; try apply Forall_nil_2; apply plain_uint; cbn; tauto. }
  set (r := mkrequest (PATH +:+ String "/" (n +:+ String "/" "ReadBlock"))
    (parameter_of url_decode json_unquote EmptyString (postImpl url_escape json_quote args)) None).
  assert (Hnum' : forall k v, store_args args ∅ !! k = Some (arg_text (UInt (u32 v))) ->
    strtoull (parameter r k) = u32 v).
  { intros k v Hk. apply (arg_number args k); [apply in_u64_u32|done|]. by apply parameter_of_body. }
  destruct (http_read (workDir (options b)) (hostSize (options b)) (kademlia (options b)) (junk (options b))
    json_text json_size (shell (options b)) n count bsize ltac:(lia) ltac:(lia) Hsh r (hosts w b) (d o)
    i off len Hsv eq_refl) as (s' & E & Hsv'); [| | |done|lia|done|].
  - rewrite (Hnum' "block"%string i eq_refl). apply u32_small. unfold in_u32. lia.
  - rewrite (Hnum' "offset"%string off eq_refl), !u32_small by (unfold in_u32; rewrite ?u32_small; unfold in_u32; lia). done.
  - rewrite (Hnum' "size"%string len eq_refl), !u32_small by (unfold in_u32; rewrite ?u32_small; unfold in_u32; lia). done.
  - exists s'. split; [|done]. unfold HostClient.Read, Call, bind at 1 2, get, obind. cbn [base partition_object].
    rewrite bool_decide_eq_true_2 by done. cbn [negb opath partition_object]. rewrite url_of_partition.
    erewrite bind_ok; [|exact (perform_ok b r w _ s' _ Hr eq_refl E)]. reflexivity.
Qed.

Lemma client_write data : 0 < zlen data -> off + zlen data <= bsize ->
  exists s', HostClient.Write url_escape url_decode json_quote json_unquote json_parse process reach o i off data (zlen data) w
      = Ok (Some (Some (zlen data)), set_host b s' w) /\
    serves (workDir (options b)) n count bsize s' (HostPartition.disk_write (d o) i off data).
Proof.
  pose proof Hcodec as Hcodec. intros Hl Hle. destruct (Hst b n Hb) as (Hs & Hr & Hsh & Hsv).
  set (args := [("block"%string, UInt (u32 i)); ("offset"%string, UInt (u32 off))]).
  assert (Hargs : Forall plain_arg args).
  { repeat apply Forall_cons_2; try apply Forall_nil_2; apply plain_uint; cbn; tauto. }
  set (r := mkrequest (PATH +:+ String "/" (n +:+ String "/" "WriteBlock"))
    (parameter_of url_decode json_unquote (postImpl url_escape json_quote args) EmptyString) (Some data)).
  assert (Hnum' : forall k v, store_args args ∅ !! k = Some (arg_text (UInt (u32 v))) ->
    strtoull (parameter r k) = u32 v).
  { intros k v Hk. apply (arg_number args k); [apply in_u64_u32|done|]. by apply parameter_of_query. }
  destruct (http_write (workDir (options b)) (hostSize (options b)) (kademlia (options b)) (junk (options b))
    json_text json_size (shell (options b)) n count bsize ltac:(lia) ltac:(lia) Hsh r (hosts w b) (d o)
    i off data Hsv eq_refl) as (s' & E & Hsv'); [| |done|lia|done|lia|].
  - rewrite (Hnum' "block"%string i eq_refl). apply u32_small. unfold in_u32. lia.
  - rewrite (Hnum' "offset"%string off eq_refl), !u32_small by (unfold in_u32; rewrite ?u32_small; unfold in_u32; lia). done.
  - exists s'. split; [|done]. unfold HostClient.Write, CallBody, bind at 1 2, get, obind. cbn [base partition_object].
    rewrite bool_decide_eq_true_2 by done. cbn [negb opath partition_object]. rewrite url_of_partition.
    assert (Et : take (Z.to_nat (zlen data)) data = data) by (apply take_ge; unfold zlen; lia).
    rewrite Et. destruct (Z.eqb_spec (zlen data) 0); [lia|].
    erewrite bind_ok; [|exact (perform_ok b r w _ s' _ Hr eq_refl E)]. unfold ret, obind. cbn [option_map].
    unfold json_reply, ok_text. cbn [content reply_bytes]. rewrite json_value_number by lia.
    cbn [is_error member]. unfold as_int.
    by destruct (Z.leb_spec (- 2 ^ 31) (zlen data)), (Z.ltb_spec (zlen data) (2 ^ 31)); try lia.
Qed.
End Call.

(** the partition servers of [VolumeRemote] *)
Lemma client_laws : remote_laws (H := client) known count bsize stored.
Proof.
  split.
  - intros w d o i Hst (n & Hb & ->) Hi. destruct (Hst _ _ Hb) as (_ & _ & _ & _ & _ & _ & bits & R).
    by apply (rep_length _ _ _ _ _ _ _ R).
  - intros w d o i off len Hst (n & Hb & ->) Hi Ho Hl Hle.
    destruct (client_read w d (base o) n i off Hst Hb Hi Ho len Hl Hle) as (s' & E & Hs).
    eexists. split; [exact E|]. by apply (stored_set w d d _ n).
  - intros w d o i off data Hst (n & Hb & Eo) Hi Ho Hl Hle. rewrite Eo.
    destruct (client_write w d (base o) n i off Hst Hb Hi Ho data Hl Hle) as (s' & E & Hs).
    set (o' := partition_object (base o) n) in *.
    exists (set_host (base o) s' w),
      (fun x => if decide (x = o') then HostPartition.disk_write (d o') i off data else d x).
    split; [exact E|]. split; [|split].
    + apply (stored_set w d _ _ n); [done|done| |].
      * fold o'. by rewrite decide_True.
      * intros b' n' Hne. rewrite decide_False; [done|]. intros C. by injection C as C _.
    + rewrite decide_True by done. unfold HostPartition.disk_write. by rewrite Z.eqb_refl.
    + intros o2 j _ _ Hne. destruct (decide (o2 = o')) as [->|]; [|done].
      unfold HostPartition.disk_write. destruct (Z.eqb_spec j i) as [->|]; [|done].
      destruct Hne; congruence.
Qed.

(** the text of a host's answer for an object it does not have *)
Definition not_found_text : list Z := reply_bytes (Error "Object not found" OBJECT_NOT_FOUND).

Lemma client_read_not_found w b n i off len :
  b ∈ sessions w -> reach b = true -> n <> EmptyString -> find_char "/" n = None ->
  find_partition (workDir (options b)) n (sfs (hosts w b)) = None ->
  HostClient.Read url_escape url_decode json_quote json_unquote process reach (partition_object b n) i off len w
    = Ok (Some (Some not_found_text), set_host b (hosts w b) w).
Proof.
  intros Hs Hr Hne Hn Hf. unfold HostClient.Read, Call, bind at 1 2, get, obind. cbn [base partition_object].
  rewrite bool_decide_eq_true_2 by done. cbn [negb opath partition_object]. rewrite url_of_partition.
  erewrite bind_ok; [|eapply perform_ok; [done|reflexivity|];
    rewrite (route_partition _ _ _ _ _ _ _ _ n "ReadBlock") by done;
    unfold OnPartitionRequest, bind, gets, obind; rewrite Hf; reflexivity].
  reflexivity.
Qed.

(** A raw answer is taken for data whatever its status: reading from a host that
    does not have the partition succeeds, and puts the text of the error answer in
    the buffer, when the buffer has the length of that text. *)
Theorem error_answer_read_as_data (w : net server) (b n : string) (bc bz i off : Z) (buffer : list Z) :
  b ∈ sessions w -> reach b = true -> n <> EmptyString -> find_char "/" n = None ->
  find_partition (workDir (options b)) n (sfs (hosts w b)) = None ->
  zlen buffer = zlen not_found_text ->
  exists w', Volume.Partition.ReadBlock (H := client) (Volume.Partition.mk bc bz (partition_object b n)) i buffer off w
    = Ok ((true, not_found_text), w').
Proof.
  intros Hs Hr Hne Hn Hf Hl. eexists. unfold Volume.Partition.ReadBlock. cbn [Volume.Partition.ref].
  erewrite bind_ok; [|by apply client_read_not_found]. unfold Volume.Partition.wait. rewrite bind_ret_l.
  rewrite Hl, Z.eqb_refl. reflexivity.
Qed.

(** [C1] The whole storage path.  A volume without cache, whose partitions are served
    by as many reachable hosts, is an array of bytes on the hosts' disks: writes and
    reads go through the erasure-coded rows, the client library's calls, the
    encoding of their parameters and the hosts' request handlers to the partitions'
    map and block files, and refuse, return and change what the array does; after a
    write the code blocks on the hosts are the encoding of the data blocks. *)
Theorem volume_over_hosts (v : Volume.t object) (g : geometry) (refs : Z -> object) (code : erasure)
  (buffer : list Z) (offset : Z) (w : net server) (c : grid) :
  geometry_ok g -> rows g = count -> blockSize g = bsize -> encoder_total g code ->
  assembled v g refs known -> remote_cells g refs stored w c ->
  in_u64 offset -> in_u64 (zlen buffer) ->
  write_refines g code (remote_cells g refs stored) (fun c => c)
    (VolumeRow.Write (Volume.direct (H := client) v) g code buffer offset) buffer offset w c /\
  read_refines g (remote_cells g refs stored) (fun c => c)
    (VolumeRow.Read (Volume.direct (H := client) v) g code buffer offset) buffer offset w c.
Proof.
  intros Hg Hr Hbs Hcd Has Hc Ho Hb.
  assert (Hl : cell_laws (Volume.direct (H := client) v) g (remote_cells g refs stored)).
  { destruct Hg as [_ ? ? _ _]. apply (direct_cell_laws (H := client) v g refs known stored); try done; try lia.
    rewrite Hr, Hbs. apply client_laws. }
  split; [by apply Write_refines|by apply Read_refines].
Qed.
End Hosts.

(** ** Three hosts with one partition each *)
Definition sample_options (b : string) : host_options := mkoptions "/w/" 100 [] 7 (fun _ s => s).
Definition sample_partition (b : string) : option string :=
  if bool_decide (b ∈ ["http://a"; "http://b"; "http://c"]%string) then Some "p"%string else None.
Definition host_name (i : Z) : string := nth (Z.to_nat i) ["http://a"; "http://b"; "http://c"]%string EmptyString.
Definition host_ref (i : Z) : object := partition_object (host_name i) "p".
Definition sample_net : net server :=
  mknet (list_to_set ["http://a"; "http://b"; "http://c"]%string) (fun _ => sample_server).
Definition hosted_volume : Volume.t object :=
  Volume.mk 3 2 1 5 (map (fun i => Some (Partition.mk 3 5 (host_ref i))) [0; 1; 2]).
Definition hosted_geometry : geometry := mkgeometry 3 2 1 5.
Abbreviation sample_client := (client_partition percent_escape percent_decode (quote_json no_print) (unquote_json some_double) (json_value some_double)
  (process no_print some_double sample_options) (fun _ => true) (fun _ => 1)).
Abbreviation sample_stored := (stored sample_options (fun _ => true) sample_partition 3 5).

Lemma hosted_assembled : assembled hosted_volume hosted_geometry host_ref (known sample_partition).
Proof.
  split; [done| | |].
  - intros i Hi. cbn in Hi. exists 3, 5. assert (i = 0 \/ i = 1 \/ i = 2) as [->|[->| ->]] by lia; done.
  - intros i Hi. cbn in Hi. exists "p"%string. split; [|done].
    assert (i = 0 \/ i = 1 \/ i = 2) as [->|[->| ->]] by lia; reflexivity.
  - intros i j Hi Hj E. cbn in Hi, Hj. apply (f_equal base) in E. cbn [base host_ref partition_object] in E.
    assert (i = 0 \/ i = 1 \/ i = 2) as [->|[->| ->]] by lia;
      assert (j = 0 \/ j = 1 \/ j = 2) as [->|[->| ->]] by lia; first [done|discriminate E].
Qed.
Lemma hosted_cells : remote_cells hosted_geometry host_ref sample_stored sample_net (fun _ _ => zeros 5).
Proof.
  exists (fun _ _ => zeros 5). split; [|done]. intros b n Hb. unfold sample_partition in Hb.
  case_bool_decide as Hin; [|done]. injection Hb as <-. split; [|split; [done|split]].
  - cbn. set_solver.
  - vm_compute. lia.
  - apply sample_serves.
Qed.

Lemma volume_over_hosts_witness :
  write_refines hosted_geometry xor_code (remote_cells hosted_geometry host_ref sample_stored) (fun c => c)
    (VolumeRow.Write (Volume.direct (H := sample_client) hosted_volume) hosted_geometry xor_code [1; 2; 3] 9)
    [1; 2; 3] 9 sample_net (fun _ _ => zeros 5).
Proof.
  apply (volume_over_hosts percent_escape percent_decode no_print some_double
    sample_options (fun _ => true) (fun _ => 1) sample_partition 3 5
    sample_url_ok ltac:(lia) ltac:(lia)
    hosted_volume hosted_geometry host_ref xor_code [1; 2; 3] 9 sample_net (fun _ _ => zeros 5)).
  - split; cbn; lia.
  - reflexivity.
  - reflexivity.
  - apply xor_encoder_total. lia.
  - apply hosted_assembled.
  - apply hosted_cells.
  - closed_range.
  - closed_range.
Defined.

Lemma error_answer_read_as_data_witness : exists w',
  Volume.Partition.ReadBlock (H := sample_client)
    (Volume.Partition.mk 3 5 (partition_object "http://a" "q")) 0 (replicate 73 0) 0 sample_net
    = Ok ((true, not_found_text), w').
Proof.
  apply (error_answer_read_as_data percent_escape percent_decode no_print some_double
    sample_options (fun _ => true) (fun _ => 1) sample_net "http://a" "q" 3 5 0 0 (replicate 73 0)).
  - cbn. set_solver.
  - reflexivity.
  - done.
  - reflexivity.
  - reflexivity.
  - vm_compute. reflexivity.
Defined.
