(* ===== verification/Cache.v ===== *)
(** * The volume cache (src/src/bdfsclient-lib/Cache.cpp)

    One file per row under the cache directory, a sequence of (column, block)
    entries; in memory the rows in the cache with the time of their last use and
    whether they were written.  All of it runs on one thread, which takes requests
    from a queue and answers them one by one; [queue] says, each time it is
    asked, whether more requests wait.  Access to the partitions is a [CellOps]. *)

From Stdlib Require Import ZArith Lia Bool Ascii String.
From stdpp Require Import base list gmap strings pretty.
From S2P Require Import Prelude Streams Stdio Volume VolumeRow.
Set Default Goal Selector "!".
Local Open Scope Z_scope.
Local Open Scope drive_scope.

(** Cache::Item *)
Record item := mkitem { timestamp : Z; dirty : bool }.

(** the file system, the partitions, the two tables, the clock and the queue's size *)
Record world (S : Type) := mkworld {
  cfs : filesystem;
  remote : S;
  items : gmap Z item;
  timestamps : list (Z * Z);
  clock : nat -> Z;
  ticks : nat;
  queue : nat -> bool;
  polls : nat
}.
Arguments mkworld {S}. Arguments cfs {S}. Arguments remote {S}. Arguments items {S}.
Arguments timestamps {S}. Arguments clock {S}. Arguments ticks {S}. Arguments queue {S}. Arguments polls {S}.

(** ** The multimap of timestamps: ordered, equal ones in order of insertion *)
Fixpoint emplace (t row : Z) (ts : list (Z * Z)) : list (Z * Z) :=
  match ts with
  | [] => [(t, row)]
  | p :: ts' => if fst p <=? t then p :: emplace t row ts' else (t, row) :: ts
  end.
(** the first pair (t, row), if any, is erased *)
Fixpoint erase_pair (t row : Z) (ts : list (Z * Z)) : list (Z * Z) :=
  match ts with
  | [] => []
  | p :: ts => if (fst p =? t) && (snd p =? row) then ts else p :: erase_pair t row ts
  end.

Section Cache.
Context {S : Type} (ops : CellOps S).
(** the options, the volume's numbers and what an uninitialised block holds *)
Context (rootPath : string) (limit flushPolicy : Z) (dataCount codeCount blockSize : Z) (junk : list Z).

Definition set_cfs (s : filesystem) (w : world S) : world S :=
  mkworld s (remote w) (items w) (timestamps w) (clock w) (ticks w) (queue w) (polls w).
Definition set_remote (s : S) (w : world S) : world S :=
  mkworld (cfs w) s (items w) (timestamps w) (clock w) (ticks w) (queue w) (polls w).
Definition set_items (i : gmap Z item) (w : world S) : world S :=
  mkworld (cfs w) (remote w) i (timestamps w) (clock w) (ticks w) (queue w) (polls w).
Definition set_timestamps (t : list (Z * Z)) (w : world S) : world S :=
  mkworld (cfs w) (remote w) (items w) t (clock w) (ticks w) (queue w) (polls w).

Definition fs_do {A} (op : filesystem -> outcome (A * filesystem)) : M (world S) A := fun w =>
  obind (op (cfs w)) (fun '(a, s) => Ok (a, set_cfs s w)).
Definition on_remote {A} (m : M S A) : M (world S) A := fun w =>
  obind (m (remote w)) (fun '(a, s) => Ok (a, set_remote s w)).
(** [time(nullptr)] *)
Definition time : M (world S) Z := fun w =>
  Ok (clock w (ticks w), mkworld (cfs w) (remote w) (items w) (timestamps w) (clock w) (Datatypes.S (ticks w)) (queue w) (polls w)).
(** [this->requests.Size() > 0] *)
Definition requests_pending : M (world S) bool := fun w =>
  Ok (queue w (polls w), mkworld (cfs w) (remote w) (items w) (timestamps w) (clock w) (ticks w) (queue w) (Datatypes.S (polls w))).

Definition filename (row : Z) : string := rootPath +:+ "/" +:+ pretty (Z.to_N row).
Definition IDX : Z := 8.

(** ** The files *)
(** read entries from [off] on: where the data of [column] starts, or where the
    stream is when no entry is left *)
Fixpoint find_entry (fuel : nat) (file : string) (off column : Z) (s : filesystem) : outcome (Z + Z) :=
  match fuel with
  | O => OutOfFuel
  | Datatypes.S fuel =>
      let idx := Fs.fread file off IDX s in
      if zlen idx =? IDX then
        if le_combine idx =? column then Ok (inl (off + IDX))
        else find_entry fuel file (off + IDX + blockSize) column s
      else Ok (inr (Z.max off (Fs.fsize file s)))
  end.
Definition entry_fuel (file : string) (s : filesystem) : nat := Datatypes.S (length (Fs.content file s)).

Definition ReadFileBlock (file : string) (column : Z) (buffer : list Z) : M (world S) (bool * list Z) :=
  fs_do (fun s =>
    match Fs.fopen_existing file s with
    | None => Ok ((0 =? blockSize, buffer), s)
    | Some fp =>
        obind (find_entry (entry_fuel fp s) fp 0 column s) (fun pos =>
          match pos with
          | inl off =>
              let data := Fs.fread fp off blockSize s in
              Ok ((zlen data =? blockSize, write_at buffer 0 data), s)
          | inr _ => Ok ((0 =? blockSize, buffer), s)
          end)
    end).

(** [file] is open and at [pos]: the entry is appended *)
Definition append_entry (fp : string) (pos column : Z) (buffer : list Z) (bytes : Z) (s : filesystem)
  : outcome (Z * filesystem) :=
  obind (Fs.fwrite fp pos (le_split 8 column) IDX s) (fun '(n, s) =>
    if n =? IDX then Fs.fwrite fp (pos + n) buffer blockSize s else Ok (bytes, s)).

Definition WriteFileBlock (file : string) (column : Z) (buffer : list Z) : M (world S) bool :=
  fs_do (fun s =>
    let '(fp, s) := match Fs.fopen_existing file s with
                    | Some fp => (Some fp, s)
                    | None => Fs.fopen_trunc file s
                    end in
    match fp with
    | None => Ok (0 =? blockSize, s)
    | Some fp =>
        obind (find_entry (entry_fuel fp s) fp 0 column s) (fun found =>
        obind (match found with
               | inl off => obind (Fs.fwrite fp off buffer blockSize s) (fun '(n, s) => Ok (n, off + n, s))
               | inr pos => Ok (0, pos, s)
               end) (fun '(bytes, pos, s) =>
          if bytes =? blockSize then Ok (true, s)
          else obind (append_entry fp pos column buffer bytes s) (fun '(bytes, s) => Ok (bytes =? blockSize, s))))
    end).

(** ** Flush *)
(** write every block of a file to its partition *)
Fixpoint flush_file (fuel : nat) (fp : string) (off row : Z) : M (world S) bool :=
  match fuel with
  | O => nofuel
  | Datatypes.S fuel =>
      s <- gets cfs ;;
      let column := Fs.fread fp off IDX s in
      if negb (zlen column =? IDX) then ret true else
      let buf := Fs.fread fp (off + IDX) blockSize s in
      if negb (zlen buf =? blockSize) then ret false else
      ok <- on_remote (WriteCached ops row (le_combine column) buf 0) ;;
      if ok : bool then flush_file fuel fp (off + IDX + blockSize) row else ret false
  end.

Definition mark_clean (row : Z) (w : world S) : world S :=
  match items w !! row with
  | Some it => set_items (<[row := mkitem (timestamp it) false]> (items w)) w
  | None => w
  end.

(** the loop over the timestamps: [force], [expire], and [all] so far *)
Fixpoint flush_rows (ts : list (Z * Z)) (force : bool) (expire : Z) (all : bool) : M (world S) bool :=
  match ts with
  | [] => ret all
  | (t, row) :: ts =>
      if negb force && (expire <? t) then ret all else
      it <- gets (fun w => items w !! row) ;;
      match it with
      | Some (mkitem _ true) =>
          s <- gets cfs ;;
          all <- (match Fs.fopen_existing (filename row) s with
                  | None => ret all
                  | Some fp =>
                      success <- flush_file (entry_fuel fp s) fp 0 row ;;
                      if success : bool then modify (mark_clean row) ;;; ret all else ret false
                  end) ;;
          more <- requests_pending ;;
          if more : bool then ret (match ts with [] => true | _ => false end)
          else flush_rows ts force expire all
      | _ => flush_rows ts force expire all
      end
  end.

Definition Flush (force : bool) : M (world S) bool :=
  now <- time ;;
  ts <- gets timestamps ;;
  flush_rows ts force (u64 (now + flushPolicy)) true.

(** ** Pop *)
Definition erase_at (i : nat) (w : world S) : world S :=
  set_timestamps (delete i (timestamps w)) w.

Fixpoint pop_loop (fuel : nat) (i : nat) (size : nat) : M (world S) unit :=
  match fuel with
  | O => nofuel
  | Datatypes.S fuel =>
      w <- get ;;
      match timestamps w !! i with
      | None => ret tt
      | Some (_, row) =>
          if negb (Nat.eqb size (base.size (items w))) then ret tt else
          match items w !! row with
          | None => modify (erase_at i) ;;; pop_loop fuel i size
          | Some it =>
              (if dirty it then Flush false ;;; ret tt else ret tt) ;;;
              still <- gets (fun w => match items w !! row with Some it => dirty it | None => false end) ;;
              if still : bool then pop_loop fuel (Datatypes.S i) size
              else
                fs_do (fun s => Ok (tt, Fs.unlink (filename row) s)) ;;;
                modify (fun w => set_items (delete row (items w)) w) ;;;
                modify (erase_at i) ;;;
                pop_loop fuel i size
          end
      end
  end.
Definition Pop : M (world S) unit :=
  w <- get ;;
  pop_loop (Datatypes.S (length (timestamps w))) 0 (base.size (items w)).

Definition UpdateTimestamp (row : Z) (setDirty : bool) : M (world S) unit :=
  now <- time ;;
  modify (fun w =>
    match items w !! row with
    | Some it =>
        set_items (<[row := mkitem now (setDirty || dirty it)]> (items w))
          (set_timestamps (erase_pair (timestamp it) row (timestamps w)) w)
    | None => set_items (<[row := mkitem now setDirty]> (items w)) w
    end) ;;;
  modify (fun w => set_timestamps (emplace now row (timestamps w)) w) ;;;
  n <- gets (fun w => base.size (items w)) ;;
  if limit <? Z.of_nat n then Pop else ret tt.

(** ** Reading and writing *)
Definition ReadImpl (row column : Z) (buffer : list Z) (offset : Z) : M (world S) (bool * list Z) :=
  let size := zlen buffer in
  let whole := (size =? blockSize) && (offset =? 0) in
  pat! (ok, buf) <- ReadFileBlock (filename row) column (if whole then buffer else junk) ;;
  pat! (ok, buf) <-
    (if ok : bool then ret (true, buf)
     else
       pat! (ok, buf) <- on_remote (ReadCached ops row column buf 0) ;;
       (if ok : bool then WriteFileBlock (filename row) column buf ;;; ret tt else ret tt) ;;;
       ret (ok, buf)) ;;
  UpdateTimestamp row false ;;;
  ret (ok, if whole then buf else read_at buf (Z.to_nat offset) (Z.to_nat size)).

Definition WriteImpl (row column : Z) (buffer : list Z) (offset : Z) : M (world S) bool :=
  let size := zlen buffer in
  loaded <-
    (if (size =? blockSize) && (offset =? 0) then ret (Some buffer)
     else
       pat! (ok, buf) <- ReadImpl row column junk 0 ;;
       ret (if ok : bool then Some (write_at buf (Z.to_nat offset) buffer) else None)) ;;
  match loaded with
  | None => ret false
  | Some buf =>
      success <- WriteFileBlock (filename row) column buf ;;
      (if success : bool then UpdateTimestamp row true else ret tt) ;;;
      ret success
  end.

(** the tests both calls make before a request is queued *)
Definition accepts (column size offset : Z) : bool :=
  negb ((u64 (dataCount + codeCount) <=? column) || (blockSize <? u64 (size + offset))).
Definition Read (row column : Z) (buffer : list Z) (offset : Z) : M (world S) (bool * list Z) :=
  if accepts column (zlen buffer) offset then ReadImpl row column buffer offset else ret (false, buffer).
Definition Write (row column : Z) (buffer : list Z) (offset : Z) : M (world S) bool :=
  if accepts column (zlen buffer) offset then WriteImpl row column buffer offset else ret false.

(** ** The thread *)
Inductive request :=
| ReadRequest (row column : Z) (buffer : list Z) (offset : Z)
| WriteRequest (row column : Z) (buffer : list Z) (offset : Z).
Definition answer (r : request) : M (world S) (bool * list Z) :=
  match r with
  | ReadRequest row column buffer offset => ReadImpl row column buffer offset
  | WriteRequest row column buffer offset =>
      ok <- WriteImpl row column buffer offset ;; ret (ok, buffer)
  end.
Fixpoint answer_all (rs : list request) : M (world S) (list (bool * list Z)) :=
  match rs with
  | [] => ret []
  | r :: rs => a <- answer r ;; l <- answer_all rs ;; ret (a :: l)
  end.
(** one round of ThreadProc: the waiting requests, then a flush when it is due;
    [ts] is the time of the last complete flush *)
Definition thread_round (rs : list request) (ts : Z) : M (world S) (list (bool * list Z) * Z) :=
  l <- answer_all rs ;;
  now <- time ;;
  if u64 (now - ts) <? flushPolicy then ret (l, ts) else
  done <- Flush false ;;
  ret (l, if done : bool then now else ts).

(** the columns of a volume with this cache *)
Definition cached : CellOps (world S) :=
  mkops (world S) (Columns ops) (is_set ops)
    (fun col row => on_remote (VerifyBlock ops col row)) Read Write.
End Cache.
