(* ===== verification/CacheFiles.v ===== *)
(** * Row files of the cache

    A row file as a list of (column, block) entries, and what reading and writing a
    block of it does. *)

From Stdlib Require Import ZArith Lia Bool Ascii String.
From stdpp Require Import base list gmap strings pretty.
From S2P Require Import Prelude Streams Stdio Volume VolumeRow VolumeFacts Cache.
Set Default Goal Selector "!".
Local Open Scope Z_scope.
Local Open Scope drive_scope.

(** ** Row files as lists of entries *)
Abbreviation entries := (list (Z * list Z)).
Definition enc (e : Z * list Z) : list Z := le_split 8 e.1 ++ e.2.
Definition file_of (es : entries) : list Z := concat (map enc es).
Fixpoint get_entry (es : entries) (col : Z) : option (list Z) :=
  match es with
  | [] => None
  | (c, b) :: es => if c =? col then Some b else get_entry es col
  end.
Fixpoint put_entry (es : entries) (col : Z) (b : list Z) : entries :=
  match es with
  | [] => [(col, b)]
  | (c, x) :: es => if c =? col then (c, b) :: es else (c, x) :: put_entry es col b
  end.

Lemma get_put es col b c : get_entry (put_entry es col b) c = if c =? col then Some b else get_entry es c.
Proof.
  induction es as [|[c' x] es IH]; cbn.
  - by rewrite (Z.eqb_sym col c).
  - destruct (Z.eqb_spec c' col) as [->|]; cbn.
    + destruct (Z.eqb_spec col c) as [->|]; [by rewrite Z.eqb_refl|].
      by destruct (Z.eqb_spec c col); [congruence|].
    + destruct (Z.eqb_spec c' c) as [->|]; [|done]. by destruct (Z.eqb_spec c col).
Qed.
Lemma get_none es col : get_entry es col = None <-> ~ In col (map fst es).
Proof.
  induction es as [|[c x] es IH]; cbn; [tauto|].
  destruct (Z.eqb_spec c col) as [->|]; [split; [done|tauto]|]. rewrite IH. tauto.
Qed.
Lemma get_split es col b : get_entry es col = Some b ->
  exists es1 es2, es = es1 ++ (col, b) :: es2 /\ get_entry es1 col = None.
Proof.
  induction es as [|[c x] es IH]; cbn; [done|]. destruct (Z.eqb_spec c col) as [->|Hne].
  - intros [= ->]. by exists [], es.
  - intros H. destruct (IH H) as (es1 & es2 & -> & Hn). exists ((c, x) :: es1), es2. split; [done|].
    cbn. by destruct (Z.eqb_spec c col).
Qed.
Lemma get_app_none es1 es2 col : get_entry es1 col = None -> get_entry (es1 ++ es2) col = get_entry es2 col.
Proof.
  induction es1 as [|[c x] es1 IH]; [done|]. cbn. destruct (Z.eqb_spec c col); [done|]. apply IH.
Qed.
Lemma put_split es1 es2 col x b : get_entry es1 col = None ->
  put_entry (es1 ++ (col, x) :: es2) col b = es1 ++ (col, b) :: es2.
Proof.
  induction es1 as [|[c y] es1 IH]; cbn.
  - by rewrite Z.eqb_refl.
  - destruct (Z.eqb_spec c col); [done|]. intros H. by rewrite IH.
Qed.
Lemma put_none es col b : get_entry es col = None -> put_entry es col b = es ++ [(col, b)].
Proof.
  induction es as [|[c y] es IH]; cbn; [done|]. destruct (Z.eqb_spec c col); [done|].
  intros H. by rewrite IH.
Qed.

Section Entries.
Context (n bs : Z).
Hypotheses (Hn : 0 <= n <= 2 ^ 64) (Hbs : 0 < bs).
(** columns below [n], none twice, whole blocks *)
Definition wf_entries (es : entries) : Prop :=
  Forall (fun e => 0 <= e.1 < n /\ zlen e.2 = bs) es /\ NoDup (map fst es).

Lemma wf_get es col b : wf_entries es -> get_entry es col = Some b -> 0 <= col < n /\ zlen b = bs.
Proof.
  intros [Hf _] Hg. apply get_split in Hg as (es1 & es2 & -> & _).
  apply Forall_app in Hf as [_ Hf]. by apply Forall_cons in Hf as [? _].
Qed.
Lemma wf_put es col b : wf_entries es -> 0 <= col < n -> zlen b = bs -> wf_entries (put_entry es col b).
Proof.
  intros [Hf Hnd] Hc Hb. destruct (get_entry es col) as [x|] eqn:E.
  - apply get_split in E as (es1 & es2 & -> & E). rewrite put_split by done.
    apply Forall_app in Hf as [H1 H2]. apply Forall_cons in H2 as [_ H2]. split.
    + by apply Forall_app; split; [|apply Forall_cons].
    + rewrite map_app in Hnd |- *. exact Hnd.
  - rewrite put_none by done. split.
    + apply Forall_app. split; [done|]. by apply Forall_singleton.
    + rewrite map_app. apply NoDup_app. split; [done|]. split; [|apply NoDup_singleton].
      intros x Hx Hin. apply list_elem_of_singleton in Hin as ->. apply get_none in E. apply E.
      by apply list_elem_of_In.
Qed.
Lemma wf_length es : wf_entries es -> zlen es <= n.
Proof.
  intros [Hf Hnd]. destruct (NoDup_ListNoDup (map fst es)) as [H _]. specialize (H Hnd).
  pose proof (NoDup_incl_length H (l' := map Z.of_nat (seq 0 (Z.to_nat n)))) as Hl.
  rewrite !length_map, length_seq in Hl. unfold zlen. enough (length es <= Z.to_nat n)%nat by lia.
  apply Hl. intros x Hx. apply in_map_iff in Hx as (e & <- & He). apply list_elem_of_In in He.
  rewrite Forall_forall in Hf. destruct (Hf _ He) as [Hr _]. apply in_map_iff.
  exists (Z.to_nat e.1). split; [lia|]. apply in_seq. lia.
Qed.

Lemma zlen_enc e : zlen e.2 = bs -> zlen (enc e) = 8 + bs.
Proof. intros H. unfold enc. rewrite zlen_app. unfold zlen at 1. rewrite length_le_split. lia. Qed.
Lemma file_of_app es1 es2 : file_of (es1 ++ es2) = file_of es1 ++ file_of es2.
Proof. unfold file_of. by rewrite map_app, concat_app. Qed.
Lemma file_of_cons e es : file_of (e :: es) = le_split 8 e.1 ++ e.2 ++ file_of es.
Proof. unfold file_of, enc. cbn [map concat]. by rewrite <- app_assoc. Qed.
Lemma zlen_file es : Forall (fun e => 0 <= e.1 < n /\ zlen e.2 = bs) es -> zlen (file_of es) = zlen es * (8 + bs).
Proof.
  induction 1 as [|e es [_ He] Hf IH]; [done|]. unfold file_of in *. cbn [map concat].
  rewrite zlen_app, IH, zlen_enc by done. unfold zlen. cbn [length]. lia.
Qed.

Lemma read_at_app (p d q : list Z) off k : off = length p -> k = length d ->
  read_at (p ++ d ++ q) off k = d.
Proof. intros -> ->. unfold read_at. by rewrite drop_app_length, take_app_length. Qed.
Lemma write_at_mid (p d q b : list Z) off : off = length p -> length b = length d ->
  write_at (p ++ d ++ q) off b = p ++ b ++ q.
Proof.
  intros -> Hl. unfold write_at. rewrite !length_app.
  replace (length p - (length p + (length d + length q)))%nat with 0%nat by lia.
  cbn [replicate]. rewrite app_nil_r, take_app_length. do 2 f_equal.
  rewrite app_assoc, drop_app_ge by (rewrite length_app; lia). rewrite length_app.
  replace (length p + length b - (length p + length d))%nat with 0%nat by lia. by rewrite drop_0.
Qed.

(** searching a file, from [pre] on *)
Lemma find_step e es pre fuel fp col s :
  0 <= e.1 < n -> Fs.content fp s = pre ++ file_of (e :: es) ->
  find_entry bs (S fuel) fp (zlen pre) col s =
    if e.1 =? col then Ok (inl (zlen pre + 8)) else find_entry bs fuel fp (zlen pre + 8 + bs) col s.
Proof using Hn.
  intros He Hc. cbn [find_entry]. unfold Fs.fread, IDX. rewrite Hc, file_of_cons.
  rewrite read_at_app by (unfold zlen; rewrite ?length_le_split; lia).
  unfold zlen at 1. rewrite length_le_split. change (Z.of_nat 8 =? 8) with true. cbv iota.
  rewrite le_combine_split, Z.mod_small; [done|]. change (2 ^ (8 * Z.of_nat 8)) with (2 ^ 64). lia.
Qed.

Lemma find_absent es pre fuel fp col s :
  Forall (fun e => 0 <= e.1 < n /\ zlen e.2 = bs) es -> get_entry es col = None ->
  Fs.content fp s = pre ++ file_of es -> (length es < fuel)%nat ->
  find_entry bs fuel fp (zlen pre) col s = Ok (inr (zlen (Fs.content fp s))).
Proof using Hn Hbs.
  intros Hf Hg. revert pre fuel. induction Hf as [|[c b] es [He Hb] Hf IH]; intros pre fuel Hc Hl;
    (destruct fuel as [|fuel]; [lia|]).
  - cbn [find_entry]. unfold Fs.fread, Fs.fsize, IDX. rewrite Hc. cbn [file_of map concat]. rewrite app_nil_r.
    unfold read_at. rewrite drop_ge by (unfold zlen; lia). cbn. f_equal. f_equal. lia.
  - cbn in Hg. destruct (Z.eqb_spec c col) as [|Hne]; [done|]. rewrite (find_step (c, b) es) by done.
    cbn [fst]. destruct (Z.eqb_spec c col); [done|].
    replace (zlen pre + 8 + bs) with (zlen (pre ++ enc (c, b))) by (rewrite zlen_app, zlen_enc by done; lia).
    apply IH; [done| |cbn [length] in Hl; lia].
    rewrite Hc. unfold file_of. cbn [map concat]. by rewrite app_assoc.
Qed.

Lemma find_present es1 col b es2 pre fuel fp s :
  Forall (fun e => 0 <= e.1 < n /\ zlen e.2 = bs) (es1 ++ (col, b) :: es2) -> get_entry es1 col = None ->
  Fs.content fp s = pre ++ file_of (es1 ++ (col, b) :: es2) -> (length es1 < fuel)%nat ->
  find_entry bs fuel fp (zlen pre) col s = Ok (inl (zlen pre + zlen (file_of es1) + 8)).
Proof using Hn Hbs.
  intros Hf Hg. revert pre fuel Hf. induction es1 as [|[c x] es1 IH]; intros pre fuel Hf Hc Hl;
    (destruct fuel as [|fuel]; [lia|]); cbn [app] in *; apply Forall_cons in Hf as [[He Hb] Hf].
  - rewrite (find_step (col, b) es2) by done. cbn [fst]. rewrite Z.eqb_refl. do 2 f_equal.
    change (zlen (file_of [])) with 0. lia.
  - cbn in Hg. destruct (Z.eqb_spec c col) as [|Hne]; [done|]. rewrite (find_step (c, x) (es1 ++ (col, b) :: es2)) by done.
    cbn [fst]. destruct (Z.eqb_spec c col); [done|].
    replace (zlen pre + 8 + bs) with (zlen (pre ++ enc (c, x))) by (rewrite zlen_app, zlen_enc by done; lia).
    rewrite (IH Hg); [|done| |cbn [length] in Hl; lia].
    + do 2 f_equal. unfold file_of. cbn [map concat]. rewrite !zlen_app. lia.
    + rewrite Hc. unfold file_of. cbn [map concat]. by rewrite app_assoc.
Qed.

Lemma find_absent0 es fuel fp col s :
  Forall (fun e => 0 <= e.1 < n /\ zlen e.2 = bs) es -> get_entry es col = None ->
  Fs.content fp s = file_of es -> (length es < fuel)%nat ->
  find_entry bs fuel fp 0 col s = Ok (inr (zlen (Fs.content fp s))).
Proof using Hn Hbs. intros Hf Hg. exact (find_absent es [] fuel fp col s Hf Hg). Qed.
Lemma find_present0 es1 col b es2 fuel fp s :
  Forall (fun e => 0 <= e.1 < n /\ zlen e.2 = bs) (es1 ++ (col, b) :: es2) -> get_entry es1 col = None ->
  Fs.content fp s = file_of (es1 ++ (col, b) :: es2) -> (length es1 < fuel)%nat ->
  find_entry bs fuel fp 0 col s = Ok (inl (zlen (file_of es1) + 8)).
Proof using Hn Hbs. intros Hf Hg. exact (find_present es1 col b es2 [] fuel fp s Hf Hg). Qed.
End Entries.

(** ** The file operations *)
Definition file_rep (file : string) (s : filesystem) (es : entries) : Prop :=
  files s !! file = Some (file_of es) \/ (files s !! file = None /\ es = []).

Section Files.
Context {S : Type} (n bs : Z).
Hypotheses (Hn : 0 <= n <= 2 ^ 64) (Hbs : 0 < bs).
Abbreviation wf := (wf_entries n bs).

Lemma set_cfs_same (w : world S) : set_cfs (cfs w) w = w.
Proof. by destruct w. Qed.
Lemma content_rep file s es : files s !! file = Some (file_of es) -> Fs.content file s = file_of es.
Proof. unfold Fs.content. by intros ->. Qed.
Lemma entry_fuel_ok file s es : Forall (fun e => 0 <= e.1 < n /\ zlen e.2 = bs) es ->
  Fs.content file s = file_of es -> (length es < entry_fuel file s)%nat.
Proof.
  intros Hf Hc. unfold entry_fuel. rewrite Hc. pose proof (zlen_file n bs es Hf) as H.
  unfold zlen in H. assert (Z.of_nat (length es) <= Z.of_nat (length (file_of es))) by nia. lia.
Qed.

Lemma ReadFileBlock_ok file column buffer (w : world S) es :
  file_rep file (cfs w) es -> wf es -> deny (cfs w) file = false -> zlen buffer = bs ->
  ReadFileBlock bs file column buffer w =
    match get_entry es column with
    | Some b => Ok ((true, b), w)
    | None => Ok ((false, buffer), w)
    end.
Proof.
  intros Hr Hwf Hd Hb. unfold ReadFileBlock, fs_do. destruct Hr as [Hf|[Hf ->]].
  - rewrite (FsFacts.fopen_existing_ok _ _ _ Hd Hf). pose proof (content_rep _ _ _ Hf) as Hc.
    pose proof (entry_fuel_ok _ _ _ (proj1 Hwf) Hc) as Hfu.
    destruct (get_entry es column) as [b|] eqn:Eg.
    + destruct (get_split _ _ _ Eg) as (es1 & es2 & -> & E1).
      destruct Hwf as [Hwf _]. pose proof Hwf as Hwf'. apply Forall_app in Hwf' as [_ Hb2].
      apply Forall_cons in Hb2 as [[_ Hb2] _]. cbn [snd] in Hb2.
      rewrite (find_present0 n bs Hn Hbs es1 column b es2 _ _ _ Hwf E1 Hc)
        by (rewrite length_app in Hfu; lia).
      cbn [obind]. unfold Fs.fread. rewrite Hc, file_of_app, file_of_cons.
      rewrite app_assoc, read_at_app; cycle 1.
      * rewrite length_app, length_le_split. unfold zlen. cbn [length]. lia.
      * unfold zlen in Hb2. cbn [snd]. lia.
      * cbn [snd]. rewrite Hb2, Z.eqb_refl. rewrite set_cfs_same. do 3 f_equal.
        unfold zlen in *. apply write_at_whole. lia.
    + rewrite (find_absent0 n bs Hn Hbs es _ _ _ _ (proj1 Hwf) Eg Hc Hfu). cbn [obind].
      rewrite set_cfs_same. by destruct (Z.eqb_spec 0 bs); [lia|].
  - unfold Fs.fopen_existing. rewrite Hd, Hf. cbn [obind get_entry].
    rewrite set_cfs_same. by destruct (Z.eqb_spec 0 bs); [lia|].
Qed.

Lemma file_store_insert file d d' s : Fs.store file d (Fs.store file d' s) = Fs.store file d s.
Proof. unfold Fs.store, Fs.set_files. cbn. by rewrite insert_insert_eq. Qed.

(** an open stream on a file of entries *)
Lemma write_entry file column buffer s es :
  files s !! file = Some (file_of es) -> wf es -> 0 <= column < n -> zlen buffer = bs ->
  n * (8 + bs) <= limit s ->
  obind (find_entry bs (entry_fuel file s) file 0 column s) (fun found =>
    obind (match found with
           | inl off => obind (Fs.fwrite file off buffer bs s) (fun '(k, s) => Ok (k, off + k, s))
           | inr pos => Ok (0, pos, s)
           end) (fun '(bytes, pos, s) =>
      if bytes =? bs then Ok (true, s)
      else obind (append_entry bs file pos column buffer bytes s) (fun '(bytes, s) => Ok (bytes =? bs, s))))
    = Ok (true, Fs.store file (file_of (put_entry es column buffer)) s).
Proof.
  intros Hf Hwf Hcol Hb Hlim. pose proof (content_rep _ _ _ Hf) as Hc.
  pose proof (entry_fuel_ok _ _ _ (proj1 Hwf) Hc) as Hfu.
  pose proof (wf_length n bs Hn (put_entry es column buffer) (wf_put n bs es column buffer Hwf Hcol Hb)) as Hlen.
  pose proof (zlen_file n bs _ (proj1 (wf_put n bs es column buffer Hwf Hcol Hb))) as Hz.
  assert (Htot : zlen (file_of (put_entry es column buffer)) <= limit s).
  { rewrite Hz. etrans; [|exact Hlim]. apply Z.mul_le_mono_nonneg_r; lia. }
  destruct (get_entry es column) as [b|] eqn:Eg.
  - destruct (get_split _ _ _ Eg) as (es1 & es2 & -> & E1). rewrite put_split in * by done.
    destruct Hwf as [Hwf _]. pose proof Hwf as Hwf'. apply Forall_app in Hwf' as [_ Hb2].
    apply Forall_cons in Hb2 as [[_ Hb2] _]. cbn [snd] in Hb2.
    rewrite (find_present0 n bs Hn Hbs es1 column b es2 _ _ _ Hwf E1 Hc) by (rewrite length_app in Hfu; lia).
    cbn [obind]. rewrite <- Hb at 1.
    rewrite (FsFacts.fwrite_ok _ _ _ _ _ Hf); cycle 1.
    + unfold zlen. lia.
    + rewrite file_of_app, file_of_cons in Htot. rewrite !zlen_app in Htot. unfold zlen in *.
      rewrite length_le_split in Htot. cbn [length snd] in *. lia.
    + cbn [obind]. rewrite Hb, Z.eqb_refl. do 3 f_equal.
      rewrite !file_of_app, !file_of_cons, !app_assoc. cbn [fst snd]. rewrite <- !(app_assoc _ _ (file_of es2)).
      apply write_at_mid.
      * rewrite length_app, length_le_split. unfold zlen. cbn [length]. lia.
      * unfold zlen in *. lia.
  - rewrite put_none in * by done.
    rewrite (find_absent0 n bs Hn Hbs es _ _ _ _ (proj1 Hwf) Eg Hc Hfu). cbn [obind].
    destruct (Z.eqb_spec 0 bs); [lia|]. unfold append_entry, IDX.
    rewrite Hc. rewrite file_of_app, zlen_app in Htot.
    assert (Hone : zlen (file_of [(column, buffer)]) = 8 + bs).
    { rewrite file_of_cons, !zlen_app. cbn [fst snd]. unfold zlen at 1. rewrite length_le_split.
      change (zlen (file_of [])) with 0. lia. }
    assert (Hl8 : zlen (le_split 8 column) = 8) by (unfold zlen; rewrite length_le_split; lia).
    rewrite <- Hl8 at 1. pose proof (zlen_nonneg (file_of es)).
    rewrite (FsFacts.fwrite_ok _ _ _ _ _ Hf) by (rewrite ?Hl8; lia).
    cbn [obind]. rewrite Hl8, Z.eqb_refl. rewrite <- Hb at 1.
    rewrite (FsFacts.fwrite_ok _ _ _ _ (file_of es ++ le_split 8 column)); cycle 1.
    + cbn. rewrite lookup_insert_eq. f_equal.
      replace (Z.to_nat (zlen (file_of es))) with (length (file_of es)) by (unfold zlen; lia).
      apply write_at_end.
    + lia.
    + rewrite FsFacts.limit_store. lia.
    + cbn [obind]. rewrite Hb, Z.eqb_refl, file_store_insert. do 3 f_equal.
      replace (Z.to_nat (zlen (file_of es) + 8)) with (length (file_of es ++ le_split 8 column))
        by (rewrite length_app, length_le_split; unfold zlen; lia).
      rewrite write_at_end, file_of_app, file_of_cons. cbn [fst snd].
      change (file_of []) with (@nil Z). by rewrite app_nil_r, app_assoc.
Qed.

Lemma WriteFileBlock_ok file column buffer (w : world S) es :
  file_rep file (cfs w) es -> wf es -> deny (cfs w) file = false -> 0 <= column < n ->
  zlen buffer = bs -> n * (8 + bs) <= limit (cfs w) ->
  WriteFileBlock bs file column buffer w
    = Ok (true, set_cfs (Fs.store file (file_of (put_entry es column buffer)) (cfs w)) w).
Proof.
  intros Hr Hwf Hd Hcol Hb Hlim. unfold WriteFileBlock, fs_do. destruct Hr as [Hf|[Hf ->]].
  - rewrite (FsFacts.fopen_existing_ok _ _ _ Hd Hf). by rewrite (write_entry file column buffer (cfs w) es).
  - unfold Fs.fopen_existing. rewrite Hd, Hf, FsFacts.fopen_trunc_ok by done.
    rewrite (write_entry file column buffer _ []); try done.
    + cbn [obind]. by rewrite file_store_insert.
    + cbn. by rewrite lookup_insert_eq.
Qed.
End Files.
