(* ===== verification/CacheFacts.v ===== *)
(** * The cache is transparent

    Reads and writes through the cache keep the contract of the columns
    ([VolumeFacts.cell_laws]) that the partitions keep: a cell is what the row's
    file says, or else what its partition holds, and a row that is not dirty says
    nothing else than the partitions. *)

From Stdlib Require Import ZArith Lia Bool Ascii String.
From stdpp Require Import base list gmap strings pretty.
From S2P Require Import Prelude Streams Stdio Volume VolumeRow VolumeFacts Cache CacheFiles.
Set Default Goal Selector "!".
Local Open Scope Z_scope.
Local Open Scope drive_scope.

(** ** The invariant *)
Section Invariant.
Context {S : Type} (ops : CellOps S) (g : geometry) (rootPath : string) (maxRows policy : Z).
Context (rem : S -> grid -> Prop).
Abbreviation bs := (blockSize g).
Abbreviation n := (dataCount g + codeCount g).
Hypotheses (Hgeo : geometry_ok g) (Hlaws : cell_laws ops g rem).
Hypothesis Hn : n < 2 ^ 64.
Abbreviation fn := (filename rootPath).

Definition in_rows (row : Z) : Prop := 0 <= row < rows g.
Definition in_cols (col : Z) : Prop := 0 <= col < n.
Definition is_dirty (w : world S) (row : Z) : Prop := exists t, items w !! row = Some (mkitem t true).

(** [E]: the entries of the row files; [c0]: what the partitions hold; rows in [x]
    may be ahead of their dirty mark *)
Record inv_with (x : Z -> Prop) (w : world S) (c : grid) (E : Z -> entries) (c0 : grid) : Prop := {
  inv_remote : rem (remote w) c0;
  inv_file row : in_rows row -> file_rep (fn row) (cfs w) (E row);
  inv_wf row : in_rows row -> wf_entries n bs (E row);
  inv_cell row col : in_rows row -> in_cols col -> c row col = default (c0 row col) (get_entry (E row) col);
  inv_clean row : in_rows row -> ~ is_dirty w row -> ~ x row ->
    forall col b, get_entry (E row) col = Some b -> b = c0 row col;
  inv_dirty row : is_dirty w row -> E row <> [];
  inv_items row : is_Some (items w !! row) -> in_rows row;
  inv_times t row : (t, row) ∈ timestamps w -> in_rows row;
  inv_listed row it : items w !! row = Some it -> (timestamp it, row) ∈ timestamps w;
  inv_open row : in_rows row -> deny (cfs w) (fn row) = false;
  inv_room : n * (8 + bs) <= limit (cfs w)
}.
Definition inv (w : world S) (c : grid) : Prop := exists E c0, inv_with (fun _ => False) w c E c0.

Lemma bs_pos : 0 < bs. Proof. by destruct Hgeo. Qed.
Lemma n_range : 0 <= n <= 2 ^ 64. Proof. destruct Hgeo. lia. Qed.
Lemma fn_inj r r' : in_rows r -> in_rows r' -> fn r = fn r' -> r = r'.
Proof.
  unfold in_rows, filename. intros Hr Hr' E. do 2 apply string_app_inj in E.
  apply (inj pretty) in E. lia.
Qed.
Lemma dirty_dec w row : is_dirty w row \/ ~ is_dirty w row.
Proof.
  unfold is_dirty. destruct (items w !! row) as [[t []]|] eqn:E.
  - left. by exists t.
  - right. by intros [t' H].
  - right. by intros [t' H].
Qed.

(** a change of the clock or the queue does not matter *)
Lemma inv_same x w w' c E c0 : inv_with x w c E c0 -> cfs w' = cfs w -> remote w' = remote w ->
  items w' = items w -> timestamps w' = timestamps w -> inv_with x w' c E c0.
Proof.
  intros [H1 H2 H3 H4 H5 HD H6 H7 H8 H9 H10] E1 E2 E3 E4.
  assert (Hd : forall row, is_dirty w' row <-> is_dirty w row) by (intros row; unfold is_dirty; by rewrite E3).
  split; rewrite ?E1, ?E2, ?E3, ?E4; try done.
  - intros row Hr Hn'. apply H5; [done|]. by rewrite <- Hd.
  - intros row. rewrite Hd. apply HD.
Qed.

(** ** Flushing *)
Lemma flush_file_ok es pre fuel fp row w c0 :
  Forall (fun e => 0 <= e.1 < n /\ zlen e.2 = bs) es -> NoDup (map fst es) ->
  Fs.content fp (cfs w) = pre ++ file_of es -> (length es < fuel)%nat ->
  in_rows row -> rem (remote w) c0 ->
  exists s' c0', flush_file ops bs fuel fp (zlen pre) row w = Ok (true, set_remote s' w) /\
    rem s' c0' /\ forall r j, c0' r j = if r =? row then default (c0 r j) (get_entry es j) else c0 r j.
Proof.
  intros Hf Hnd. pose proof n_range as Hn'. pose proof bs_pos as Hb'.
  revert pre fuel w c0. induction Hf as [|[col b] es [Hc Hb] Hf IH];
    intros pre fuel w c0 Hcon Hfu Hr Hrem; (destruct fuel as [|fuel]; [lia|]); cbn [flush_file].
  - rewrite (bind_ok _ _ _ _ _ (eq_refl : gets cfs w = Ok (cfs w, w))). unfold Fs.fread, IDX.
    rewrite Hcon. change (file_of []) with (@nil Z). rewrite app_nil_r. unfold read_at at 1.
    rewrite drop_ge by (unfold zlen; lia). cbn [negb].
    exists (remote w), c0. split; [by destruct w|]. split; [done|].
    intros r j. by destruct (r =? row).
  - rewrite (bind_ok _ _ _ _ _ (eq_refl : gets cfs w = Ok (cfs w, w))). unfold Fs.fread, IDX.
    cbn [fst snd] in *. rewrite Hcon, file_of_cons. cbn [fst snd].
    assert (Hl8 : length (le_split 8 col) = 8%nat) by apply length_le_split.
    rewrite read_at_app by (rewrite ?Hl8; unfold zlen; lia).
    assert (E8 : zlen (le_split 8 col) = 8) by (unfold zlen; rewrite Hl8; lia). rewrite E8.
    change (8 =? 8) with true. cbn [negb].
    rewrite (app_assoc pre), read_at_app by (rewrite ?length_app, ?Hl8; unfold zlen in *; lia).
    rewrite Hb, Z.eqb_refl. cbn [negb].
    rewrite le_combine_split, Z.mod_small by (change (2 ^ (8 * Z.of_nat 8)) with (2 ^ 64); lia).
    destruct (law_write _ _ _ Hlaws (remote w) c0 row col b 0 Hrem Hr Hc) as (s1 & E1 & H1); [lia|lia|lia|].
    assert (Ew : on_remote (WriteCached ops row col b 0) w = Ok (true, set_remote s1 w))
      by (unfold on_remote; by rewrite E1).
    rewrite (bind_ok _ _ _ _ _ Ew). cbv iota.
    pose proof (law_length _ _ _ Hlaws _ _ row col Hrem Hr Hc) as Hl0.
    rewrite write_at_whole in H1 by (unfold zlen in *; lia).
    cbn [map fst] in Hnd. apply NoDup_cons in Hnd as [Hni Hnd].
    destruct (IH Hnd (pre ++ enc (col, b)) fuel (set_remote s1 w) (set_cell c0 row col b)) as (s2 & c2 & E2 & H2 & Hc2);
      [|cbn [length] in Hfu; lia|done|exact H1|].
    { change (cfs (set_remote s1 w)) with (cfs w). rewrite Hcon. unfold file_of. cbn [map concat].
      by rewrite app_assoc. }
    rewrite zlen_app, (zlen_enc bs (col, b) Hb), Z.add_assoc in E2.
    exists s2, c2. split; [exact E2|]. split; [done|].
    intros r j. rewrite Hc2. cbn [get_entry]. destruct (Z.eqb_spec r row) as [->|Hne].
    + destruct (Z.eqb_spec col j) as [->|Hnc].
      * assert (get_entry es j = None) as ->
          by (apply get_none; intros Hin; apply Hni; by apply list_elem_of_In).
        cbn. by rewrite set_cell_eq.
      * rewrite set_cell_ne; [done|]. right. congruence.
    + apply set_cell_ne. by left.
Qed.

(** what a flush may do to the tables: mark rows clean *)
Record flushed (w w' : world S) : Prop := {
  fl_cfs : cfs w' = cfs w;
  fl_times : timestamps w' = timestamps w;
  fl_queue : queue w' = queue w;
  fl_items row : items w' !! row = items w !! row \/
    exists t, items w !! row = Some (mkitem t true) /\ items w' !! row = Some (mkitem t false);
  fl_size : size (items w') = size (items w)
}.
Lemma flushed_refl w : flushed w w.
Proof. split; try done. by left. Qed.
Lemma flushed_trans w1 w2 w3 : flushed w1 w2 -> flushed w2 w3 -> flushed w1 w3.
Proof.
  intros [A1 A2 A3 A4 A5] [B1 B2 B3 B4 B5]. split; try congruence.
  intros row. destruct (B4 row) as [->|(t & E & ->)]; [apply A4|].
  destruct (A4 row) as [E'|(t' & E' & E'')]; [right; exists t; split; congruence|congruence].
Qed.
Lemma flushed_clean w w' row : flushed w w' -> ~ is_dirty w row -> ~ is_dirty w' row.
Proof.
  intros F Hc [t Ht]. destruct (fl_items _ _ F row) as [E|(t' & _ & E)]; [|congruence].
  apply Hc. exists t. congruence.
Qed.

Lemma mark_clean_flushed w row t : items w !! row = Some (mkitem t true) -> flushed w (mark_clean row w).
Proof.
  intros E. unfold mark_clean. rewrite E. split; try done; cbn [items set_items timestamp].
  - intros r. destruct (decide (r = row)) as [->|].
    + right. exists t. split; [done|]. apply lookup_insert_eq.
    + left. by rewrite lookup_insert_ne.
  - rewrite map_size_insert, E. done.
Qed.
Lemma mark_clean_dirty w row t r : items w !! row = Some (mkitem t true) ->
  is_dirty (mark_clean row w) r <-> is_dirty w r /\ r <> row.
Proof.
  intros E. unfold mark_clean, is_dirty. rewrite E. cbn [items set_items timestamp].
  destruct (decide (r = row)) as [->|Hne].
  - rewrite lookup_insert_eq. split; [intros [? ?]; congruence|tauto].
  - rewrite lookup_insert_ne by done. tauto.
Qed.

(** one dirty row is written to the partitions and marked *)
Lemma flush_row_inv w c E c0 row t s' c0' :
  inv_with (fun _ => False) w c E c0 -> in_rows row -> items w !! row = Some (mkitem t true) ->
  rem s' c0' ->
  (forall r j, c0' r j = if r =? row then default (c0 r j) (get_entry (E r) j) else c0 r j) ->
  inv_with (fun _ => False) (mark_clean row (set_remote s' w)) c E c0'.
Proof.
  intros [H1 H2 H3 H4 H5 HD H6 H7 H8 H9 H10] Hr Hit Hrem Hc.
  assert (Hit' : items (set_remote s' w) !! row = Some (mkitem t true)) by done.
  pose proof (mark_clean_flushed _ _ _ Hit') as F.
  split; rewrite ?(fl_cfs _ _ F), ?(fl_times _ _ F); try done.
  - unfold mark_clean. by rewrite Hit'.
  - intros r j Hrr Hj. rewrite H4 by done. rewrite Hc. destruct (r =? row); [|done].
    by destruct (get_entry (E r) j).
  - intros r Hrr Hd _ j b Hb. rewrite Hc. destruct (Z.eqb_spec r row) as [->|Hne]; [by rewrite Hb|].
    refine (H5 r Hrr _ id j b Hb). intros Hdd. apply Hd. by apply (mark_clean_dirty _ _ _ _ Hit').
  - intros r Hd. apply HD. by apply (mark_clean_dirty _ _ _ _ Hit') in Hd as [Hd _].
  - intros r Hsome. apply H6. destruct (fl_items _ _ F r) as [Eq|(t' & Eq & _)]; cbn in Eq.
    + by rewrite <- Eq.
    + by exists (mkitem t' true).
  - intros r it Hi. destruct (fl_items _ _ F r) as [Eq|(t' & Eq & Eq')]; cbn in Eq.
    + apply H8. by rewrite <- Eq.
    + rewrite Eq' in Hi. injection Hi as <-. exact (H8 _ _ Eq).
Qed.

Lemma flush_rows_ok ts force expire all w c E c0 :
  inv_with (fun _ => False) w c E c0 -> (forall t row, (t, row) ∈ ts -> in_rows row) ->
  exists b w' c0', flush_rows ops rootPath bs ts force expire all w = Ok (b, w') /\
    inv_with (fun _ => False) w' c E c0' /\ flushed w w' /\
    (force = true -> (forall i, queue w i = false) ->
       b = all /\ forall t row, (t, row) ∈ ts -> ~ is_dirty w' row).
Proof.
  revert w c0 all. induction ts as [|[t row] ts IH]; intros w c0 all Hinv Hts; cbn [flush_rows].
  { exists all, w, c0. split; [done|]. split; [done|]. split; [apply flushed_refl|].
    intros _ _. split; [done|]. intros t row Hin. by apply not_elem_of_nil in Hin. }
  assert (Hr : in_rows row) by (apply (Hts t); apply list_elem_of_here).
  assert (Hts' : forall t row, (t, row) ∈ ts -> in_rows row)
    by (intros t' r' Hin; apply (Hts t'); by apply list_elem_of_further).
  destruct (negb force && (expire <? t)) eqn:Ex.
  { exists all, w, c0. split; [done|]. split; [done|]. split; [apply flushed_refl|].
    intros ->. by cbn in Ex. }
  rewrite (bind_ok _ _ _ _ _ (eq_refl : gets (fun w => items w !! row) w = Ok (items w !! row, w))).
  assert (Hskip : ~ is_dirty w row ->
    exists b w' c0', flush_rows ops rootPath bs ts force expire all w = Ok (b, w') /\
      inv_with (fun _ => False) w' c E c0' /\ flushed w w' /\
      (force = true -> (forall i, queue w i = false) ->
         b = all /\ forall t' r', (t', r') ∈ (t, row) :: ts -> ~ is_dirty w' r')).
  { intros Hcl. destruct (IH w c0 all Hinv Hts') as (b & w' & c0' & E1 & H1 & F1 & D1).
    exists b, w', c0'. split; [exact E1|]. split; [done|]. split; [done|].
    intros Hf Hq. destruct (D1 Hf Hq) as [Hb Hd]. split; [done|].
    intros t' r' Hin. apply elem_of_cons in Hin as [[= -> ->]|Hin]; [by apply (flushed_clean w)|by apply (Hd t')]. }
  destruct (items w !! row) as [[t0 []]|] eqn:Hit.
  2:{ apply Hskip. intros [? ?]. congruence. }
  2:{ apply Hskip. intros [? ?]. congruence. }
  clear Hskip.
  rewrite (bind_ok _ _ _ _ _ (eq_refl : gets cfs w = Ok (cfs w, w))).
  assert (Hf : files (cfs w) !! fn row = Some (file_of (E row))).
  { destruct (inv_file _ _ _ _ _ Hinv row Hr) as [Hf|[_ He]]; [done|].
    exfalso. apply (inv_dirty _ _ _ _ _ Hinv row); [by exists t0|done]. }
  rewrite (FsFacts.fopen_existing_ok _ _ _ (inv_open _ _ _ _ _ Hinv row Hr) Hf).
  pose proof (inv_wf _ _ _ _ _ Hinv row Hr) as [Hwf Hnd].
  pose proof (content_rep _ _ _ Hf) as Hcon.
  destruct (flush_file_ok (E row) [] (entry_fuel (fn row) (cfs w)) (fn row) row w c0 Hwf Hnd Hcon
    (entry_fuel_ok n bs n_range bs_pos _ _ _ Hwf Hcon) Hr (inv_remote _ _ _ _ _ Hinv)) as (s' & c1 & E1 & H1 & Hc1).
  change (zlen []) with 0 in E1.
  set (w1 := mark_clean row (set_remote s' w)).
  assert (E2 : (success <- flush_file ops bs (entry_fuel (fn row) (cfs w)) (fn row) 0 row ;;
      (if success : bool then modify (mark_clean row) ;;; ret all else ret false)) w = Ok (all, w1))
    by (by rewrite (bind_ok _ _ _ _ _ E1)).
  rewrite (bind_ok _ _ _ _ _ E2).
  assert (Hinv1 : inv_with (fun _ => False) w1 c E c1).
  { apply (flush_row_inv w c E c0 row t0); try done. intros r j. rewrite Hc1.
    by destruct (Z.eqb_spec r row) as [->|]. }
  assert (F1 : flushed w w1).
  { destruct (mark_clean_flushed (set_remote s' w) row t0 Hit) as [F1 F2 F3 F4 F5]. by split. }
  assert (Hcl1 : ~ is_dirty w1 row).
  { intros Hd. by apply (mark_clean_dirty (set_remote s' w) row t0 row Hit) in Hd as [_ Hd]. }
  set (w2 := mkworld (cfs w1) (remote w1) (items w1) (timestamps w1) (clock w1) (ticks w1) (queue w1) (Datatypes.S (polls w1))).
  rewrite (bind_ok _ _ _ _ _ (eq_refl : requests_pending w1 = Ok (queue w1 (polls w1), w2))).
  assert (Hinv2 : inv_with (fun _ => False) w2 c E c1) by by apply (inv_same _ w1).
  assert (F2 : flushed w w2) by (destruct F1; by split).
  destruct (queue w1 (polls w1)) eqn:Eq.
  - exists (match ts with [] => true | _ => false end), w2, c1. split; [done|]. split; [done|]. split; [done|].
    intros _ Hq. rewrite (fl_queue _ _ F1), Hq in Eq. done.
  - destruct (IH w2 c1 all Hinv2 Hts') as (b & w' & c0' & E3 & H3 & F3 & D3).
    exists b, w', c0'. split; [exact E3|]. split; [done|]. split; [by eapply flushed_trans|].
    intros Hfo Hq. destruct (D3 Hfo) as [Hb Hd]; [intros i; by rewrite (fl_queue _ _ F2)|].
    split; [done|]. intros t' r' Hin. apply elem_of_cons in Hin as [[= -> ->]|Hin]; [|by apply (Hd t')].
    by apply (flushed_clean w2).
Qed.

Lemma Flush_ok force w c E c0 : inv_with (fun _ => False) w c E c0 ->
  exists b w' c0', Flush ops rootPath policy bs force w = Ok (b, w') /\
    inv_with (fun _ => False) w' c E c0' /\ flushed w w' /\
    (force = true -> (forall i, queue w i = false) -> b = true /\ forall row, ~ is_dirty w' row).
Proof.
  intros Hinv. unfold Flush, time.
  set (w1 := mkworld (cfs w) (remote w) (items w) (timestamps w) (clock w) (Datatypes.S (ticks w)) (queue w) (polls w)).
  rewrite (bind_ok _ _ w (clock w (ticks w)) w1) by done.
  rewrite (bind_ok _ _ w1 (timestamps w) w1) by done.
  destruct (flush_rows_ok (timestamps w) force (u64 (clock w (ticks w) + policy)) true w1 c E c0)
    as (b & w' & c0' & E1 & H1 & F1 & D1); [by apply (inv_same _ w)|intros t row; by apply (inv_times _ _ _ _ _ Hinv)|].
  exists b, w', c0'. split; [exact E1|]. split; [done|].
  assert (F : flushed w w') by (destruct F1; by split). split; [done|].
  intros Hf Hq. destruct (D1 Hf Hq) as [-> Hd]. split; [done|]. intros row [t Ht].
  pose proof (inv_listed _ _ _ _ _ H1 row _ Ht) as Hin. cbn [timestamp] in Hin.
  rewrite (fl_times _ _ F) in Hin. apply (Hd _ _ Hin). by exists t.
Qed.

(** ** Popping a row *)
Lemma elem_of_delete_other {A} (x y : A) (l : list A) (i : nat) : l !! i = Some y -> x <> y -> x ∈ l -> x ∈ delete i l.
Proof.
  intros Hi Hne Hx. apply list_elem_of_lookup in Hx as [j Hj]. apply list_elem_of_lookup.
  assert (j <> i) by congruence. destruct (decide (j < i)%nat).
  - exists j. by rewrite list_lookup_delete_lt.
  - exists (j - 1)%nat. rewrite list_lookup_delete_ge by lia. replace (Datatypes.S (j - 1)) with j by lia. done.
Qed.
Lemma elem_of_delete_back {A} (x : A) (l : list A) (i : nat) : x ∈ delete i l -> x ∈ l.
Proof.
  rewrite !list_elem_of_lookup. intros [j Hj]. destruct (decide (j < i)%nat).
  - exists j. by rewrite list_lookup_delete_lt in Hj.
  - exists (Datatypes.S j). by rewrite list_lookup_delete_ge in Hj by lia.
Qed.

(** a stale timestamp goes *)
Lemma erase_at_inv w c E c0 i t row : inv_with (fun _ => False) w c E c0 ->
  timestamps w !! i = Some (t, row) -> items w !! row = None ->
  inv_with (fun _ => False) (erase_at i w) c E c0.
Proof.
  intros [H1 H2 H3 H4 H5 HD H6 H7 H8 H9 H10] Hi Hit. split; try done.
  - intros t' r' Hin. apply (H7 t'). cbn in Hin. by apply elem_of_delete_back in Hin.
  - intros r it Hr. apply (elem_of_delete_other _ (t, row)); [done| |by apply H8].
    intros [= _ ->]. cbn in Hr. congruence.
Qed.

(** a clean row goes, with its file *)
Lemma unlink_inv w c E c0 row : inv_with (fun _ => False) w c E c0 -> in_rows row -> ~ is_dirty w row ->
  inv_with (fun _ => False) (set_items (delete row (items w)) (set_cfs (Fs.unlink (fn row) (cfs w)) w)) c
    (fun r => if r =? row then [] else E r) c0.
Proof.
  intros [H1 H2 H3 H4 H5 HD H6 H7 H8 H9 H10] Hr Hcl. split; try done.
  - intros r Hrr. destruct (Z.eqb_spec r row) as [->|Hne].
    + right. split; [|done]. cbn. apply lookup_delete_eq.
    + assert (fn row <> fn r) by (intros C; by apply fn_inj in C).
      destruct (H2 r Hrr) as [Hf|[Hf He]]; [left|right; split; [|done]]; cbn; by rewrite lookup_delete_ne.
  - intros r Hrr. destruct (Z.eqb_spec r row); [|by apply H3]. split; [by apply Forall_nil_2|by apply NoDup_nil_2].
  - intros r j Hrr Hj. rewrite H4 by done. destruct (Z.eqb_spec r row) as [->|]; [|done].
    destruct (get_entry (E row) j) as [b|] eqn:Eg; [|done]. cbn. exact (H5 row Hr Hcl id j b Eg).
  - intros r Hrr Hd _ j b Hb. destruct (Z.eqb_spec r row) as [->|Hne]; [done|].
    refine (H5 r Hrr _ id j b Hb). intros [t Ht]. apply Hd. exists t. cbn. by rewrite lookup_delete_ne.
  - intros r [t Ht]. cbn in Ht. destruct (Z.eqb_spec r row) as [->|Hne]; [by rewrite lookup_delete_eq in Ht|].
    rewrite lookup_delete_ne in Ht by done. apply HD. by exists t.
  - intros r [it Hit]. cbn in Hit. apply lookup_delete_Some in Hit as [_ Hit]. apply H6. by exists it.
  - intros r it Hit. cbn in Hit. apply lookup_delete_Some in Hit as [_ Hit]. by apply H8.
Qed.

Lemma pop_loop_ok fuel i size w c E c0 : inv_with (fun _ => False) w c E c0 ->
  (length (timestamps w) - i < fuel)%nat ->
  exists w' E' c0', pop_loop ops rootPath policy bs fuel i size w = Ok (tt, w') /\
    inv_with (fun _ => False) w' c E' c0'.
Proof.
  revert i w E c0. induction fuel as [|fuel IH]; intros i w E c0 Hinv Hfu; [lia|]. cbn [pop_loop].
  rewrite (bind_ok _ _ _ _ _ (eq_refl : get w = Ok (w, w))).
  destruct (timestamps w !! i) as [[t row]|] eqn:Hi; [|by exists w, E, c0].
  destruct (negb _); [by exists w, E, c0|].
  assert (Hlt : (i < length (timestamps w))%nat) by by eapply lookup_lt_Some.
  assert (Hr : in_rows row) by (apply (inv_times _ _ _ _ _ Hinv t); by eapply list_elem_of_lookup_2).
  destruct (items w !! row) as [it|] eqn:Hit.
  2:{ rewrite (bind_ok _ _ _ _ _ (eq_refl : modify (erase_at i) w = Ok (tt, erase_at i w))).
      apply (IH i _ E c0); [by apply (erase_at_inv w c E c0 i t row)|].
      cbn. rewrite length_delete by done. lia. }
  assert (Hfl : exists w1 c1, (if dirty it then Flush ops rootPath policy bs false ;;; ret tt else ret tt) w = Ok (tt, w1) /\
    inv_with (fun _ => False) w1 c E c1 /\ flushed w w1).
  { destruct (dirty it).
    - destruct (Flush_ok false w c E c0 Hinv) as (b & w1 & c1 & E1 & H1 & F1 & _).
      exists w1, c1. by rewrite (bind_ok _ _ _ _ _ E1).
    - exists w, c0. split; [done|]. split; [done|apply flushed_refl]. }
  destruct Hfl as (w1 & c1 & E1 & H1 & F1). rewrite (bind_ok _ _ _ _ _ E1).
  erewrite bind_ok; [|reflexivity].
  assert (Ht1 : timestamps w1 !! i = Some (t, row)) by by rewrite (fl_times _ _ F1).
  destruct (match items w1 !! row with Some it => dirty it | None => false end) eqn:Hd.
  - apply (IH (Datatypes.S i) w1 E c1 H1). rewrite (fl_times _ _ F1). lia.
  - assert (Hcl : ~ is_dirty w1 row) by (intros [t' Ht']; by rewrite Ht' in Hd).
    do 3 (erewrite bind_ok; [|reflexivity]).
    apply (IH i _ (fun r => if r =? row then [] else E r) c1).
    + apply (erase_at_inv _ c _ c1 i t row); [exact (unlink_inv w1 c E c1 row H1 Hr Hcl)|done|].
      cbn. apply lookup_delete_eq.
    + cbn. rewrite length_delete by done. rewrite (fl_times _ _ F1). lia.
Qed.

Lemma Pop_ok w c E c0 : inv_with (fun _ => False) w c E c0 ->
  exists w' E' c0', Pop ops rootPath policy bs w = Ok (tt, w') /\ inv_with (fun _ => False) w' c E' c0'.
Proof.
  intros Hinv. unfold Pop. rewrite (bind_ok _ _ _ _ _ (eq_refl : get w = Ok (w, w))).
  apply (pop_loop_ok _ _ _ w c E c0 Hinv). lia.
Qed.

(** ** Using a row *)
Lemma elem_of_emplace x t row ts : x ∈ emplace t row ts <-> x = (t, row) \/ x ∈ ts.
Proof.
  induction ts as [|p ts IH]; cbn.
  - rewrite list_elem_of_singleton. split; [by left|intros [|H]; [done|by apply not_elem_of_nil in H]].
  - destruct (fst p <=? t); rewrite !elem_of_cons, ?IH, ?elem_of_cons; tauto.
Qed.
Lemma elem_of_erase_pair x t row ts : x ∈ erase_pair t row ts -> x ∈ ts.
Proof.
  induction ts as [|p ts IH]; cbn; [done|]. rewrite elem_of_cons.
  destruct (_ && _); [by right|]. rewrite elem_of_cons. intros [|]; [by left|right; by apply IH].
Qed.
Lemma elem_of_erase_other x t row ts : snd x <> row -> x ∈ ts -> x ∈ erase_pair t row ts.
Proof.
  intros Hne. induction ts as [|p ts IH]; cbn; [done|]. rewrite elem_of_cons.
  destruct ((fst p =? t) && (snd p =? row)) eqn:Ep; zbool; intros [->|Hin]; try done.
  - by apply elem_of_cons; left.
  - apply elem_of_cons. right. by apply IH.
Qed.

(** the tables after the row has been stamped *)
Definition stamp (row : Z) (setDirty : bool) (now : Z) (w : world S) : world S :=
  let w := match items w !! row with
           | Some it => set_items (<[row := mkitem now (setDirty || dirty it)]> (items w))
               (set_timestamps (erase_pair (timestamp it) row (timestamps w)) w)
           | None => set_items (<[row := mkitem now setDirty]> (items w)) w
           end in
  set_timestamps (emplace now row (timestamps w)) w.

Lemma stamp_tables row setDirty now w :
  let w' := stamp row setDirty now w in
  cfs w' = cfs w /\ remote w' = remote w /\
  (exists d, items w' = <[row := mkitem now d]> (items w) /\
     (d = true <-> setDirty = true \/ is_dirty w row)) /\
  (forall x, x ∈ timestamps w' -> x = (now, row) \/ x ∈ timestamps w) /\
  (forall x, snd x <> row -> x ∈ timestamps w -> x ∈ timestamps w') /\ (now, row) ∈ timestamps w'.
Proof.
  cbv zeta. unfold stamp, is_dirty. destruct (items w !! row) as [[t d]|] eqn:Hit; cbn [timestamp dirty];
    (split; [done|]; split; [done|]; split; [eexists; split; [reflexivity|]|split; [|split]]);
    cbn [timestamps set_timestamps set_items].
  - destruct setDirty, d; cbn; split; try done; try (by left).
    + intros _. right. by exists t.
    + intros [|[t' E]]; [done|congruence].
  - intros x Hx. apply elem_of_emplace in Hx as [|Hx]; [by left|right; by apply elem_of_erase_pair in Hx].
  - intros x Hne Hx. apply elem_of_emplace. right. by apply elem_of_erase_other.
  - apply elem_of_emplace. by left.
  - split; [by left|]. intros [|[t' E]]; [done|congruence].
  - intros x Hx. by apply elem_of_emplace in Hx.
  - intros x _ Hx. apply elem_of_emplace. by right.
  - apply elem_of_emplace. by left.
Qed.

Lemma stamp_inv row setDirty now w c E c0 :
  inv_with (fun r => r = row /\ setDirty = true) w c E c0 -> in_rows row ->
  (setDirty = true -> E row <> []) ->
  inv_with (fun _ => False) (stamp row setDirty now w) c E c0.
Proof.
  intros [H1 H2 H3 H4 H5 HD H6 H7 H8 H9 H10] Hr Hne.
  destruct (stamp_tables row setDirty now w) as (T1 & T2 & (d & T3 & Td) & T4 & T5 & T6).
  assert (Hdirty : forall r, is_dirty (stamp row setDirty now w) r <->
    (r = row /\ (setDirty = true \/ is_dirty w row)) \/ (r <> row /\ is_dirty w r)).
  { intros r. unfold is_dirty at 1. rewrite T3. destruct (decide (r = row)) as [->|Hrr].
    - rewrite lookup_insert_eq. rewrite <- Td. split.
      + intros [t [= _ ->]]. by left.
      + intros [[_ ->]|[? _]]; [by exists now|done].
    - rewrite lookup_insert_ne by done. split; [by right|]. intros [[? _]|[_ H]]; done. }
  split; rewrite ?T1, ?T2; try done.
  - intros r Hrr Hd _. apply (H5 r Hrr); [|intros [-> Hs]; apply Hd, Hdirty; left; by split; [|left]].
    intros Hdr. apply Hd, Hdirty. destruct (decide (r = row)) as [->|]; [left; by split; [|right]|by right].
  - intros r Hd. apply Hdirty in Hd as [[-> [Hs|Hd]]|[_ Hd]]; [by apply Hne|by apply HD..].
  - intros r [it Hit]. rewrite T3 in Hit. destruct (decide (r = row)) as [->|Hrr]; [done|].
    rewrite lookup_insert_ne in Hit by done. apply H6. by exists it.
  - intros t r Hin. destruct (T4 _ Hin) as [[= _ ->]|Hin']; [done|by apply (H7 t)].
  - intros r it Hit. rewrite T3 in Hit. destruct (decide (r = row)) as [->|Hrr].
    + rewrite lookup_insert_eq in Hit. by injection Hit as <-.
    + rewrite lookup_insert_ne in Hit by done. apply T5; [done|]. by apply H8.
Qed.

Lemma UpdateTimestamp_ok row setDirty w c E c0 :
  inv_with (fun r => r = row /\ setDirty = true) w c E c0 -> in_rows row ->
  (setDirty = true -> E row <> []) ->
  exists w' E' c0', UpdateTimestamp ops rootPath maxRows policy bs row setDirty w = Ok (tt, w') /\
    inv_with (fun _ => False) w' c E' c0'.
Proof.
  intros Hinv Hr Hne. unfold UpdateTimestamp, time.
  set (w1 := mkworld (cfs w) (remote w) (items w) (timestamps w) (clock w) (Datatypes.S (ticks w)) (queue w) (polls w)).
  set (now := clock w (ticks w)).
  rewrite (bind_ok _ _ w now w1) by done. do 2 (erewrite bind_ok; [|reflexivity]).
  pose proof (stamp_inv row setDirty now w1 c E c0 (inv_same _ w w1 c E c0 Hinv eq_refl eq_refl eq_refl eq_refl) Hr Hne) as H2.
  fold (stamp row setDirty now w1). set (w2 := stamp row setDirty now w1) in *.
  rewrite (bind_ok _ _ w2 (base.size (items w2)) w2) by done.
  destruct (maxRows <? _); [by apply (Pop_ok w2 c E c0)|]. by exists w2, E, c0.
Qed.

(** a forced flush with no request waiting brings the partitions up to date *)
Lemma flush_durable w c : inv w c -> (forall i, queue w i = false) ->
  exists w' c', Flush ops rootPath policy bs true w = Ok (true, w') /\ inv w' c /\
    (forall row, ~ is_dirty w' row) /\ rem (remote w') c' /\
    forall row col, in_rows row -> in_cols col -> c' row col = c row col.
Proof.
  intros (E & c0 & Hinv) Hq.
  destruct (Flush_ok true w c E c0 Hinv) as (b & w' & c' & EF & H' & _ & Hd).
  destruct (Hd eq_refl Hq) as [-> Hcl]. exists w', c'. split; [done|]. split; [by exists E, c'|].
  split; [done|]. split; [by apply (inv_remote _ _ _ _ _ H')|].
  intros row col Hr Hc. rewrite (inv_cell _ _ _ _ _ H') by done.
  destruct (get_entry (E row) col) as [x|] eqn:Eg; [|done]. cbn. symmetry.
  exact (inv_clean _ _ _ _ _ H' row Hr (Hcl row) id col x Eg).
Qed.
Context (junk : list Z).
Hypothesis Hjunk : zlen junk = bs.

(** ** Reading and writing blocks *)
Lemma inv_weaken (x y : Z -> Prop) w c E c0 : (forall r, x r -> y r) -> inv_with x w c E c0 -> inv_with y w c E c0.
Proof.
  intros Hxy [H1 H2 H3 H4 H5 HD H6 H7 H8 H9 H10]. split; try done.
  intros r Hr Hd Hy. apply H5; [done|done|]. intros Hx. by apply Hy, Hxy.
Qed.

Definition put_file (w : world S) (E : Z -> entries) (row col : Z) (b : list Z) : world S :=
  set_cfs (Fs.store (fn row) (file_of (put_entry (E row) col b)) (cfs w)) w.
Definition put_entries (E : Z -> entries) (row col : Z) (b : list Z) : Z -> entries :=
  fun r => if r =? row then put_entry (E row) col b else E r.

Lemma put_inv x w c c' E c0 row col b : inv_with x w c E c0 -> in_rows row -> in_cols col -> zlen b = bs ->
  x row \/ b = c0 row col ->
  (forall r j, in_rows r -> in_cols j -> c' r j = set_cell c row col b r j) ->
  inv_with x (put_file w E row col b) c' (put_entries E row col b) c0.
Proof.
  intros [H1 H2 H3 H4 H5 HD H6 H7 H8 H9 H10] Hr Hc Hb Hx Hc'. unfold put_entries. split; try done.
  - intros r Hrr. destruct (Z.eqb_spec r row) as [->|Hne].
    + left. cbn. apply lookup_insert_eq.
    + assert (fn row <> fn r) by (intros C; by apply fn_inj in C).
      destruct (H2 r Hrr) as [Hf|[Hf He]]; [left|right; split; [|done]]; cbn; by rewrite lookup_insert_ne.
  - intros r Hrr. destruct (Z.eqb_spec r row) as [->|]; [|by apply H3].
    apply wf_put; [by apply H3|done|done].
  - intros r j Hrr Hj. rewrite Hc' by done. unfold set_cell. destruct (Z.eqb_spec r row) as [->|]; cbn [andb].
    + rewrite get_put. destruct (j =? col); [done|]. by apply H4.
    + by apply H4.
  - intros r Hrr Hd Hxr j b' Hg. destruct (Z.eqb_spec r row) as [->|]; [|by apply (H5 r Hrr Hd Hxr)].
    destruct Hx as [Hx| ->]; [done|]. rewrite get_put in Hg.
    destruct (Z.eqb_spec j col) as [->|]; [congruence|by apply (H5 row Hrr Hd Hxr)].
  - intros r Hd. destruct (Z.eqb_spec r row) as [->|]; [|by apply HD].
    intros C. pose proof (get_put (E row) col b col) as G. rewrite C, Z.eqb_refl in G. done.
Qed.

Lemma in_cols_range col : in_cols col -> 0 <= col < n.
Proof. done. Qed.
Lemma cell_length w c E c0 row col : inv_with (fun _ => False) w c E c0 -> in_rows row -> in_cols col ->
  zlen (c row col) = bs.
Proof.
  intros Hinv Hr Hc. rewrite (inv_cell _ _ _ _ _ Hinv) by done.
  destruct (get_entry (E row) col) as [b|] eqn:Eg; cbn.
  - by apply (wf_get n bs (E row) col b (inv_wf _ _ _ _ _ Hinv row Hr)).
  - by apply (law_length _ _ _ Hlaws (remote w)); [apply (inv_remote _ _ _ _ _ Hinv)|..].
Qed.

(** the block that [ReadImpl] uses, before the row is stamped *)
Definition load_block (row col : Z) (buf : list Z) : M (world S) (bool * list Z) :=
  pat! (ok, buf) <- ReadFileBlock bs (fn row) col buf ;;
  (if ok : bool then ret (true, buf)
   else
     pat! (ok, buf) <- on_remote (ReadCached ops row col buf 0) ;;
     (if ok : bool then WriteFileBlock bs (fn row) col buf ;;; ret tt else ret tt) ;;;
     ret (ok, buf)).

Lemma load_block_ok row col buf w c E c0 : inv_with (fun _ => False) w c E c0 -> in_rows row -> in_cols col ->
  zlen buf = bs ->
  exists w' E', load_block row col buf w = Ok ((true, c row col), w') /\ inv_with (fun _ => False) w' c E' c0.
Proof.
  intros Hinv Hr Hc Hb. pose proof n_range as Hn'. pose proof bs_pos as Hb'. unfold load_block.
  pose proof (inv_cell _ _ _ _ _ Hinv row col Hr Hc) as Hcell.
  pose proof (ReadFileBlock_ok n bs Hn' Hb' (fn row) col buf w (E row) (inv_file _ _ _ _ _ Hinv row Hr)
    (inv_wf _ _ _ _ _ Hinv row Hr) (inv_open _ _ _ _ _ Hinv row Hr) Hb) as ER.
  destruct (get_entry (E row) col) as [b|] eqn:Eg; cbn in Hcell; rewrite (bind_ok _ _ _ _ _ ER); cbv iota.
  - exists w, E. by rewrite Hcell.
  - destruct (law_read _ _ _ Hlaws (remote w) c0 row col buf 0 (inv_remote _ _ _ _ _ Hinv) Hr Hc)
      as (s1 & E1 & H1); [lia|lia|lia|].
    pose proof (law_length _ _ _ Hlaws _ _ row col (inv_remote _ _ _ _ _ Hinv) Hr Hc) as Hl.
    rewrite read_at_all in E1 by (unfold zlen in *; lia).
    assert (Ew : on_remote (ReadCached ops row col buf 0) w = Ok ((true, c0 row col), set_remote s1 w))
      by (unfold on_remote; by rewrite E1).
    rewrite (bind_ok _ _ _ _ _ Ew). cbv iota.
    assert (Hinv1 : inv_with (fun _ => False) (set_remote s1 w) c E c0).
    { destruct Hinv as [I1 I2 I3 I4 I5 ID I6 I7 I8 I9 I10]. by split. }
    assert (EW : WriteFileBlock bs (fn row) col (c0 row col) (set_remote s1 w)
      = Ok (true, put_file (set_remote s1 w) E row col (c0 row col))).
    { apply (WriteFileBlock_ok n bs Hn' Hb'); try done.
      - by apply (inv_file _ _ _ _ _ Hinv1).
      - by apply (inv_wf _ _ _ _ _ Hinv1).
      - by apply (inv_open _ _ _ _ _ Hinv1).
      - by apply (inv_room _ _ _ _ _ Hinv1). }
    exists (put_file (set_remote s1 w) E row col (c0 row col)), (put_entries E row col (c0 row col)).
    split.
    + unfold bind at 1. rewrite (bind_ok _ _ _ _ _ EW). cbn. by rewrite Hcell.
    + apply (put_inv _ _ c); [done|done|done|done|by right|].
      intros r j _ _. unfold set_cell. destruct (Z.eqb_spec r row) as [->|]; [|done].
      by destruct (Z.eqb_spec j col) as [->|].
Qed.

Lemma ReadImpl_ok row col buffer off w c : inv w c -> in_rows row -> in_cols col ->
  0 <= off -> off + zlen buffer <= bs ->
  exists w', ReadImpl ops rootPath maxRows policy bs junk row col buffer off w
      = Ok ((true, read_at (c row col) (Z.to_nat off) (length buffer)), w') /\ inv w' c.
Proof.
  intros (E & c0 & Hinv) Hr Hc Ho Hle. unfold ReadImpl. pose proof (zlen_nonneg buffer) as Hz.
  set (whole := (zlen buffer =? bs) && (off =? 0)).
  assert (Hb : zlen (if whole then buffer else junk) = bs).
  { destruct whole eqn:Ew; [|done]. unfold whole in Ew. zbool. done. }
  destruct (load_block_ok row col (if whole then buffer else junk) w c E c0 Hinv Hr Hc Hb)
    as (w1 & E1 & EL & H1). unfold load_block in EL.
  destruct (UpdateTimestamp_ok row false w1 c E1 c0) as (w2 & E2 & c2 & EU & H2);
    [by apply (inv_weaken (fun _ => False))|done|done|].
  exists w2. split; [|by exists E2, c2].
  apply bind_inv in EL as ([ok buf] & wa & EA & EB). rewrite (bind_ok _ _ _ _ _ EA).
  rewrite (bind_ok _ _ _ _ _ EB), (bind_ok _ _ _ _ _ EU). unfold ret. do 3 f_equal.
  pose proof (cell_length _ _ _ _ _ _ Hinv Hr Hc) as Hl.
  destruct whole eqn:Ew; [|unfold zlen; by rewrite Nat2Z.id].
  unfold whole in Ew. zbool. subst off. symmetry. apply read_at_all. unfold zlen in *. lia.
Qed.

Lemma WriteImpl_ok row col buffer off w c : inv w c -> in_rows row -> in_cols col ->
  0 <= off -> off + zlen buffer <= bs ->
  exists w', WriteImpl ops rootPath maxRows policy bs junk row col buffer off w = Ok (true, w') /\
    inv w' (set_cell c row col (write_at (c row col) (Z.to_nat off) buffer)).
Proof.
  intros Hi Hr Hc Ho Hle. unfold WriteImpl. pose proof (zlen_nonneg buffer) as Hz.
  pose proof n_range as Hn'. pose proof bs_pos as Hb'.
  set (block := write_at (c row col) (Z.to_nat off) buffer).
  assert (Hcl : zlen (c row col) = bs) by (destruct Hi as (E & c0 & Hinv); by apply (cell_length w c E c0)).
  assert (Hbl : zlen block = bs) by (unfold block, zlen in *; rewrite length_write_at; lia).
  assert (Hload : exists w1, (if (zlen buffer =? bs) && (off =? 0) then ret (Some buffer)
     else
       pat! (ok, buf) <- ReadImpl ops rootPath maxRows policy bs junk row col junk 0 ;;
       ret (if ok : bool then Some (write_at buf (Z.to_nat off) buffer) else None)) w = Ok (Some block, w1) /\ inv w1 c).
  { destruct ((zlen buffer =? bs) && (off =? 0)) eqn:Ew.
    - exists w. split; [|done]. zbool. subst off. unfold block, ret. rewrite write_at_whole; [done|].
      unfold zlen in *. lia.
    - destruct (ReadImpl_ok row col junk 0 w c Hi Hr Hc) as (w1 & E1 & H1); [lia|lia|].
      exists w1. split; [|done]. rewrite (bind_ok _ _ _ _ _ E1). unfold ret. cbn [Z.to_nat].
      rewrite read_at_all by (unfold zlen in *; lia). done. }
  destruct Hload as (w1 & E1 & (E & c0 & Hinv)). rewrite (bind_ok _ _ _ _ _ E1).
  assert (EW : WriteFileBlock bs (fn row) col block w1 = Ok (true, put_file w1 E row col block)).
  { apply (WriteFileBlock_ok n bs Hn' Hb'); try done.
    - by apply (inv_file _ _ _ _ _ Hinv).
    - by apply (inv_wf _ _ _ _ _ Hinv).
    - by apply (inv_open _ _ _ _ _ Hinv).
    - by apply (inv_room _ _ _ _ _ Hinv). }
  rewrite (bind_ok _ _ _ _ _ EW). cbv iota.
  destruct (UpdateTimestamp_ok row true (put_file w1 E row col block) (set_cell c row col block)
    (put_entries E row col block) c0) as (w2 & E2 & c2 & EU & H2).
  - apply (put_inv _ _ c); [|done|done|done|by left|done]. by apply (inv_weaken (fun _ => False)).
  - done.
  - intros _ C. unfold put_entries in C. rewrite Z.eqb_refl in C.
    pose proof (get_put (E row) col block col) as G. by rewrite C, Z.eqb_refl in G.
  - rewrite (bind_ok _ _ _ _ _ EU). exists w2. split; [done|]. by exists E2, c2.
Qed.

(** the columns behind the cache keep their contract *)
Lemma cached_laws : cell_laws (cached ops rootPath maxRows policy (dataCount g) (codeCount g) bs junk) g inv.
Proof.
  destruct Hgeo as [Hg1 Hg2 Hg3 Hg4 Hg5].
  assert (Hacc : forall col size off, in_cols col -> 0 <= off -> 0 < size -> off + size <= bs ->
    accepts (dataCount g) (codeCount g) bs col size off = true).
  { intros col size off Hc Ho Hs Hle. unfold accepts, in_cols in *.
    assert (bs < 2 ^ 63) by nia.
    rewrite (u64_small (size + off)) by (unfold in_u64; lia).
    destruct (Z.ltb_spec bs (size + off)); [lia|]. rewrite orb_false_r.
    destruct (Z.leb_spec (u64 (dataCount g + codeCount g)) col) as [Hl|]; [|done].
    exfalso. rewrite u64_small in Hl by (unfold in_u64; lia). lia. }
  split.
  - apply (law_columns _ _ _ Hlaws).
  - apply (law_set _ _ _ Hlaws).
  - intros w c row col (E & c0 & Hinv) Hr Hc. by apply (cell_length w c E c0).
  - intros w c row col (E & c0 & Hinv) Hr Hc. cbn. unfold on_remote.
    rewrite (law_verify _ _ _ Hlaws (remote w) c0 row col (inv_remote _ _ _ _ _ Hinv) Hr Hc).
    cbn. by destruct w.
  - intros w c row col buf off Hi Hr Hc Ho Hl Hle. cbn [ReadCached cached]. unfold Read.
    rewrite Hacc by done. by apply ReadImpl_ok.
  - intros w c row col buf off Hi Hr Hc Ho Hl Hle. cbn [WriteCached cached]. unfold Write.
    rewrite Hacc by done. by apply WriteImpl_ok.
Qed.

End Invariant.
