(* ===== verification/CacheDisk.v ===== *)
(** * Volumes with a cache

    The volume's reads and writes through the cache, what a flush leaves on the
    partitions, and a cache opened on the files of an earlier one. *)

From Stdlib Require Import ZArith Lia Bool Ascii String.
From stdpp Require Import base list gmap strings pretty.
From S2P Require Import Prelude Streams Stdio Volume VolumeRow VolumeFacts VolumeRemote VolumeDisk.
From S2P Require Import Cache CacheFiles CacheFacts.
Set Default Goal Selector "!".
Local Open Scope Z_scope.
Local Open Scope drive_scope.

(** the tables of a cache just constructed: the files stay, [cleanpath] removes none *)
Definition reopen {S : Type} (w : world S) : world S :=
  mkworld (cfs w) (remote w) ∅ [] (clock w) (ticks w) (queue w) (polls w).

Section Cached.
Context {S : Type} (ops : CellOps S) (g : geometry) (code : erasure).
Context (rootPath : string) (maxRows policy : Z) (junk : list Z) (rem : S -> grid -> Prop).
Hypotheses (Hgeo : geometry_ok g) (Hlaws : cell_laws ops g rem) (Hcode : encoder_total g code).
Hypotheses (Hn : dataCount g + codeCount g < 2 ^ 64) (Hjunk : zlen junk = blockSize g).
Abbreviation columns_of := (cached ops rootPath maxRows policy (dataCount g) (codeCount g) (blockSize g) junk).
Abbreviation Inv := (inv g rootPath rem).

(** a cache directory without row files *)
Lemma inv_fresh w c : rem (remote w) c -> items w = ∅ -> timestamps w = [] ->
  (forall row, in_rows g row -> files (cfs w) !! filename rootPath row = None /\ deny (cfs w) (filename rootPath row) = false) ->
  (dataCount g + codeCount g) * (8 + blockSize g) <= limit (cfs w) -> Inv w c.
Proof using.
  intros Hr Hi Ht Hf Hl. exists (fun _ => []), c. split; try done.
  - intros row Hrow. right. split; [by apply Hf|done].
  - intros row _. split; [by apply Forall_nil_2|by apply NoDup_nil_2].
  - intros row [t H]. by rewrite Hi, lookup_empty in H.
  - intros row [it H]. by rewrite Hi, lookup_empty in H.
  - intros t row H. rewrite Ht in H. by apply not_elem_of_nil in H.
  - intros row it H. by rewrite Hi, lookup_empty in H.
  - intros row Hrow. by apply Hf.
Qed.

(** opened again on the files of a cache whose rows are all clean *)
Lemma inv_reopen w c : Inv w c -> (forall row, ~ is_dirty w row) -> Inv (reopen w) c.
Proof using.
  intros (E & c0 & [H1 H2 H3 H4 H5 HD H6 H7 H8 H9 H10]) Hcl. exists E, c0. split; try done.
  - intros row Hr _ _. exact (H5 row Hr (Hcl row) id).
  - intros row [t H]. cbn in H; by rewrite lookup_empty in H.
  - intros row [it H]. cbn in H; by rewrite lookup_empty in H.
  - intros t row H. by apply not_elem_of_nil in H.
Qed.

(** [C12] With a cache of any size the volume is still an array of bytes: every read
    and write through the cache, evictions and the flushes they cause included,
    returns and changes what the array does. *)
Theorem cached_volume_refines_disk (buffer : list Z) (offset : Z) (w : world S) (c : grid) :
  Inv w c -> in_u64 offset -> in_u64 (zlen buffer) ->
  write_refines g code Inv (fun c => c) (VolumeRow.Write columns_of g code buffer offset) buffer offset w c /\
  read_refines g Inv (fun c => c) (VolumeRow.Read columns_of g code buffer offset) buffer offset w c.
Proof using Hgeo Hlaws Hcode Hn Hjunk.
  intros Hi Ho Hb.
  pose proof (cached_laws ops g rootPath maxRows policy rem Hgeo Hlaws Hn junk Hjunk) as Hl.
  split; [by apply Write_refines|by apply Read_refines].
Qed.

(** [C13] Nothing stays behind: while no request waits, the flush of the destructor
    succeeds, leaves no row dirty, and the partitions then hold the array the cache
    showed; a cache opened again on the same files, which the constructor does not
    remove, still shows that array. *)
Theorem cache_flush_writes_back (w : world S) (c : grid) :
  Inv w c -> (forall i, queue w i = false) ->
  exists w' c', Flush ops rootPath policy (blockSize g) true w = Ok (true, w') /\
    (forall row, ~ is_dirty w' row) /\ rem (remote w') c' /\ flat g c' = flat g c /\
    Inv w' c /\ Inv (reopen w') c.
Proof using Hgeo Hlaws Hn.
  intros Hi Hq.
  destruct (flush_durable ops g rootPath policy rem Hgeo Hlaws Hn w c Hi Hq)
    as (w' & c' & E & H' & Hcl & Hr & Hc). exists w', c'.
  split; [done|]. split; [done|]. split; [done|]. split; [|split; [done|by apply inv_reopen]].
  unfold flat, bytes_at. apply map_ext_in. intros i Hin. apply in_seq in Hin. unfold byte_at.
  destruct (addr_join g Hgeo (0 + Z.of_nat i)) as (Hrow & Hcol & _); [lia|].
  destruct Hgeo. by rewrite Hc by (unfold in_rows, in_cols; lia).
Qed.
End Cached.

(** ** A cache of one row over partitions in memory *)
Definition sample_cache : world memory :=
  mkworld (mkfs ∅ {["/c"]} (fun _ => false) 1000) (fun _ _ => [0; 0; 0]) ∅ [] (fun _ => 100) 0 (fun _ => false) 0.
Lemma sample_cache_inv : inv sample_geometry "/c" sample_cells sample_cache blank.
Proof. apply inv_fresh; try done. apply sample_blank. Qed.

Lemma cached_volume_refines_disk_witness :
  write_refines sample_geometry xor_code (inv sample_geometry "/c" sample_cells) (fun c => c)
    (VolumeRow.Write (cached (Volume.direct sample_volume) "/c" 1 60 2 1 3 [9; 9; 9]) sample_geometry xor_code
       [1; 2; 3; 4] 5) [1; 2; 3; 4] 5 sample_cache blank.
Proof.
  apply (cached_volume_refines_disk (Volume.direct sample_volume) sample_geometry xor_code "/c" 1 60 [9; 9; 9]
    sample_cells sample_geometry_ok sample_laws (xor_encoder_total 4 2 3 ltac:(lia)) ltac:(cbn; lia)
    eq_refl [1; 2; 3; 4] 5); [apply sample_cache_inv|closed_range|closed_range].
Defined.

Lemma cache_flush_writes_back_witness : exists w' c',
  Flush (Volume.direct sample_volume) "/c" 60 3 true sample_cache = Ok (true, w') /\
  sample_cells (remote w') c' /\ flat sample_geometry c' = flat sample_geometry blank.
Proof.
  destruct (cache_flush_writes_back (Volume.direct sample_volume) sample_geometry "/c" 60
    sample_cells sample_geometry_ok sample_laws ltac:(cbn; lia) sample_cache blank
    sample_cache_inv (fun _ => eq_refl)) as (w' & c' & E & _ & Hr & Hf & _).
  exists w', c'. split; [exact E|split; [exact Hr|exact Hf]].
Defined.
