(* ===== verification/LockFree.v ===== *)
(** * The lock-free queue (src/src/bdfs-lib/LockFreeQueue.h)

    Producers and consumers as machines that do one access to shared memory per
    step; a run is any sequence of steps.  An address can be used again after it
    was freed, and a weak compare-and-exchange may fail for no reason. *)

From Stdlib Require Import ZArith Lia Bool.
From stdpp Require Import base list gmap.
From S2P Require Import Prelude.
Set Default Goal Selector "!".
Local Open Scope Z_scope.
Local Open Scope drive_scope.

Record node := mknode { next : option nat; value : Z }.
Record queue := mkqueue {
  heap : gmap nat node;
  first : option nat;
  divider : option nat;
  last : option nat;
  size : Z
}.

(** where a call of Produce stands *)
Inductive ppc :=
| P_idle
| P_new (n : nat)
| P_cas (n l : nat)
| P_last (n : nat)
| P_size
| P_first
| P_cmp (tmp : nat)
| P_next (tmp : nat)
| P_cas_first (tmp : nat) (nx : option nat)
| P_delete (tmp : nat).
Record producer := mkproducer { todo : list Z; ppos : ppc }.
(** and a call of Consume *)
Inductive cpc :=
| C_idle
| C_cmp (tmp : nat)
| C_read (tmp : nat)
| C_next (tmp : nat) (v : Z)
| C_cas (tmp : nat) (nx : option nat) (v : Z)
| C_dec (v : Z).
Record consumer := mkconsumer { got : list Z; cpos : cpc }.

Definition set_heap (h : gmap nat node) (q : queue) : queue := mkqueue h (first q) (divider q) (last q) (size q).

(** [this->first], [last] or [divider] read as a pointer to be followed *)
Definition pointer (p : option nat) : outcome nat :=
  match p with Some a => Ok a | None => Fault NullDeref end.
Definition deref (a : nat) (q : queue) : outcome node :=
  match heap q !! a with Some n => Ok n | None => Fault UseAfterFree end.
(** [assert(this->first && this->last && this->divider)] *)
Definition pointers_set (q : queue) : bool :=
  match first q, last q, divider q with Some _, Some _, Some _ => true | _, _, _ => false end.

(** one step of a producer: [a] is what [new] returns, [spurious] makes a weak
    exchange fail; a step for which [a] is not free does nothing *)
Definition produce_step (a : nat) (spurious : bool) (p : producer) (q : queue) : outcome (producer * queue) :=
  let goto pc q := Ok (mkproducer (todo p) pc, q) in
  match ppos p with
  | P_idle =>
      match todo p with
      | [] => Ok (p, q)
      | v :: vs =>
          match heap q !! a with
          | Some _ => Ok (p, q)
          | None => Ok (mkproducer vs (P_new a), set_heap (<[a := mknode None v]> (heap q)) q)
          end
      end
  | P_new n =>
      if pointers_set q
      then obind (pointer (last q)) (fun l => goto (P_cas n l) q)
      else Fault AssertFailed
  | P_cas n l =>
      obind (deref l q) (fun nd =>
        match next nd, spurious with
        | None, false => goto (P_last n) (set_heap (<[l := mknode (Some n) (value nd)]> (heap q)) q)
        | _, _ => goto (P_new n) q
        end)
  | P_last n => goto P_size (mkqueue (heap q) (first q) (divider q) (Some n) (size q))
  | P_size => goto P_first (mkqueue (heap q) (first q) (divider q) (last q) (u64 (size q + 1)))
  | P_first => obind (pointer (first q)) (fun tmp => goto (P_cmp tmp) q)
  | P_cmp tmp => if bool_decide (Some tmp = divider q) then goto P_idle q else goto (P_next tmp) q
  | P_next tmp => obind (deref tmp q) (fun nd => goto (P_cas_first tmp (next nd)) q)
  | P_cas_first tmp nx =>
      if bool_decide (first q = Some tmp) && negb spurious
      then goto (P_delete tmp) (mkqueue (heap q) nx (divider q) (last q) (size q))
      else goto P_idle q
  | P_delete tmp => obind (deref tmp q) (fun _ => goto P_first (set_heap (delete tmp (heap q)) q))
  end.

Definition consume_step (spurious : bool) (c : consumer) (q : queue) : outcome (consumer * queue) :=
  let goto pc q := Ok (mkconsumer (got c) pc, q) in
  match cpos c with
  | C_idle =>
      if pointers_set q
      then obind (pointer (divider q)) (fun tmp => goto (C_cmp tmp) q)
      else Fault AssertFailed
  | C_cmp tmp => if bool_decide (Some tmp = last q) then goto C_idle q else goto (C_read tmp) q
  | C_read tmp =>
      obind (deref tmp q) (fun nd => obind (pointer (next nd)) (fun a => obind (deref a q) (fun n =>
        goto (C_next tmp (value n)) q)))
  | C_next tmp v => obind (deref tmp q) (fun nd => goto (C_cas tmp (next nd) v) q)
  | C_cas tmp nx v =>
      if bool_decide (divider q = Some tmp) && negb spurious
      then goto (C_dec v) (mkqueue (heap q) (first q) nx (last q) (size q))
      else goto C_idle q
  | C_dec v => Ok (mkconsumer (got c ++ [v]) C_idle, mkqueue (heap q) (first q) (divider q) (last q) (u64 (size q - 1)))
  end.

(** ** Runs *)
Record system := mksystem { shared : queue; producers : list producer; consumers : list consumer }.
Inductive event :=
| Producer (i : nat) (a : nat) (spurious : bool)
| Consumer (i : nat) (spurious : bool).

Definition step (e : event) (s : system) : outcome system :=
  match e with
  | Producer i a spurious =>
      match producers s !! i with
      | None => Ok s
      | Some p => obind (produce_step a spurious p (shared s)) (fun '(p, q) =>
                    Ok (mksystem q (<[i := p]> (producers s)) (consumers s)))
      end
  | Consumer i spurious =>
      match consumers s !! i with
      | None => Ok s
      | Some c => obind (consume_step spurious c (shared s)) (fun '(c, q) =>
                    Ok (mksystem q (producers s) (<[i := c]> (consumers s))))
      end
  end.
Fixpoint run (es : list event) (s : system) : outcome system :=
  match es with
  | [] => Ok s
  | e :: es => obind (step e s) (run es)
  end.

(** LockFreeQueue(): a node of no value is all three *)
Definition new_queue : queue := mkqueue {[0%nat := mknode None 0]} (Some 0%nat) (Some 0%nat) (Some 0%nat) 0.
Definition start (vs : list (list Z)) (consumers : nat) : system :=
  mksystem new_queue (map (fun v => mkproducer v P_idle) vs) (replicate consumers (mkconsumer [] C_idle)).

(** ** One producer and one consumer *)
(** nodes linked one after the other *)
Fixpoint linked (h : gmap nat node) (l : list (nat * Z)) : Prop :=
  match l with
  | [] => True
  | (a, v) :: l => h !! a = Some (mknode (fst <$> head l) v) /\ linked h l
  end.

Lemma linked_insert h l a n : a ∉ l.*1 -> linked h l -> linked (<[a := n]> h) l.
Proof.
  induction l as [|[b v] l IH]; [done|]. cbn. intros [Hb Hn]%not_elem_of_cons [Hh Hl]. split; [|by apply IH].
  by rewrite lookup_insert_ne.
Qed.
Lemma linked_delete h l a : a ∉ l.*1 -> linked h l -> linked (delete a h) l.
Proof.
  induction l as [|[b v] l IH]; [done|]. cbn. intros [Hb Hn]%not_elem_of_cons [Hh Hl]. split; [|by apply IH].
  by rewrite lookup_delete_ne.
Qed.
Lemma linked_lookup h l1 a v l2 : linked h (l1 ++ (a, v) :: l2) -> h !! a = Some (mknode (fst <$> head l2) v).
Proof. induction l1 as [|[b x] l1 IH]; cbn; [by intros [? _]|]. intros [_ H]. by apply IH. Qed.
Lemma linked_fresh h l a : linked h l -> h !! a = None -> a ∉ l.*1.
Proof.
  induction l as [|[b v] l IH]; cbn; [by intros; apply not_elem_of_nil|]. intros [Hb Hl] Ha.
  apply not_elem_of_cons. split; [congruence|by apply IH].
Qed.
(** a node of no successor is linked at the end *)
Lemma linked_snoc h l a v n x : NoDup (l ++ [(a, v)]).*1 -> n ∉ (l ++ [(a, v)]).*1 ->
  linked h (l ++ [(a, v)]) -> h !! n = Some (mknode None x) ->
  linked (<[a := mknode (Some n) v]> h) (l ++ [(a, v); (n, x)]).
Proof.
  induction l as [|[b y] l IH]; cbn; intros Hnd [Hnb Hn]%not_elem_of_cons [Hb Hl] Hx.
  - rewrite lookup_insert_eq. split; [done|]. split; [|done]. by rewrite lookup_insert_ne.
  - apply NoDup_cons in Hnd as [Hni Hnd]. split; [|by apply IH].
    assert (a <> b). { intros ->. apply Hni. rewrite fmap_app. set_solver. }
    rewrite lookup_insert_ne by done. rewrite Hb. by destruct l as [|[]].
Qed.

(** the value of the node a producer has made and not linked yet *)
Definition inflight (q : queue) (p : producer) : list Z :=
  match ppos p with
  | P_new n | P_cas n _ => match heap q !! n with Some nd => [value nd] | None => [] end
  | _ => []
  end.
(** the value a consumer has claimed and not returned yet *)
Definition taken (c : consumer) : list Z := match cpos c with C_dec v => [v] | _ => [] end.

(** the nodes in the order of their links: those consumed and not freed yet,
    the divider, those to be consumed, and the one not yet published as last *)
Record shape := mkshape { dead : list (nat * Z); mid : nat * Z; live : list (nat * Z); fresh : list (nat * Z) }.
Definition chain (w : shape) : list (nat * Z) := dead w ++ mid w :: live w ++ fresh w.
(** the node [last] is to point to *)
Definition tail (w : shape) : nat * Z := List.last (live w) (mid w).

Definition unlinked (w : shape) (q : queue) (n : nat) : Prop :=
  (exists v, heap q !! n = Some (mknode None v)) /\ n ∉ (chain w).*1.
Definition pinv (w : shape) (q : queue) (p : producer) : Prop :=
  match ppos p with
  | P_idle | P_size | P_first => fresh w = []
  | P_new n => fresh w = [] /\ unlinked w q n
  | P_cas n l => fresh w = [] /\ unlinked w q n /\ l = fst (tail w)
  | P_last n => exists v, fresh w = [(n, v)]
  | P_cmp tmp => fresh w = [] /\ first q = Some tmp
  | P_next tmp => fresh w = [] /\ exists v A, dead w = (tmp, v) :: A
  | P_cas_first tmp nx => fresh w = [] /\ exists v A, dead w = (tmp, v) :: A /\ nx = fst <$> head (A ++ mid w :: live w)
  | P_delete tmp => fresh w = [] /\ is_Some (heap q !! tmp) /\ tmp ∉ (chain w).*1
  end.
Definition cinv (w : shape) (c : consumer) : Prop :=
  match cpos c with
  | C_idle | C_dec _ => True
  | C_cmp tmp => tmp = fst (mid w)
  | C_read tmp => tmp = fst (mid w) /\ live w <> []
  | C_next tmp v => tmp = fst (mid w) /\ exists a B, live w = (a, v) :: B
  | C_cas tmp nx v => tmp = fst (mid w) /\ exists a B, live w = (a, v) :: B /\ nx = Some a
  end.
Record shaped (w : shape) (q : queue) : Prop := mkshaped {
  shaped_linked : linked (heap q) (chain w);
  shaped_nodup : NoDup (chain w).*1;
  shaped_first : first q = fst <$> head (chain w);
  shaped_divider : divider q = Some (fst (mid w));
  shaped_last : last q = Some (fst (tail w))
}.
(** what has come out, what is inside and what is still to go in *)
Definition history (w : shape) (q : queue) (p : producer) (c : consumer) : list Z :=
  got c ++ taken c ++ (live w).*2 ++ (fresh w).*2 ++ inflight q p ++ todo p.
Definition spsc_at (w : shape) (vs : list Z) (p : producer) (c : consumer) (q : queue) : Prop :=
  shaped w q /\ pinv w q p /\ cinv w c /\ history w q p c = vs.
Definition spsc (vs : list Z) (p : producer) (c : consumer) (q : queue) : Prop := exists w, spsc_at w vs p c q.

(** the steps a consumer has to take alone until the queue is empty *)
Definition work (w : shape) (c : consumer) : nat :=
  match live w, cpos c with
  | [], (C_idle | C_cmp _) => 0
  | l, C_idle => 6 * length l + 5
  | l, C_cmp _ => 6 * length l + 4
  | l, C_read _ => 6 * length l + 3
  | l, C_next _ _ => 6 * length l + 2
  | l, C_cas _ _ _ => 6 * length l + 1
  | l, C_dec _ => 6 * length l + 6
  end%nat.

Lemma last_cons {X} (x : X) l d : List.last (x :: l) d = List.last l x.
Proof. revert x. induction l as [|y l IH]; intros x; [done|]. cbn in *. destruct l; [done|]. apply IH. Qed.
Lemma chain_tail w : fresh w = [] -> exists L, chain w = L ++ [tail w].
Proof.
  intros Hf. unfold chain, tail. rewrite Hf, app_nil_r.
  destruct (exists_last (l := mid w :: live w)) as (L & x & Hx); [done|]. exists (dead w ++ L).
  rewrite Hx, app_assoc. f_equal. rewrite <- (last_cons _ _ x), Hx, List.last_last. done.
Qed.
Lemma shaped_pointers_set w q : shaped w q -> pointers_set q = true.
Proof.
  intros [_ _ Hf Hd Hl]. unfold pointers_set. rewrite Hf, Hd, Hl. unfold chain. by destruct (dead w).
Qed.
Lemma shaped_mid w q : shaped w q -> heap q !! fst (mid w) = Some (mknode (fst <$> head (live w ++ fresh w)) (snd (mid w))).
Proof. intros [Hl _ _ _ _]. unfold chain in Hl. destruct (mid w) as [d v]. by apply linked_lookup in Hl. Qed.
Lemma shaped_new w q a n : heap q !! a = None -> shaped w q -> shaped w (set_heap (<[a := n]> (heap q)) q).
Proof. intros Ha [Hl Hn Hf Hd Ht]. split; try done. cbn. apply linked_insert; [by eapply linked_fresh|done]. Qed.
Lemma shaped_delete w q a : a ∉ (chain w).*1 -> shaped w q -> shaped w (set_heap (delete a (heap q)) q).
Proof. intros Ha [Hl Hn Hf Hd Ht]. split; try done. cbn. by apply linked_delete. Qed.

(** [this->last->next = n] *)
Lemma shaped_link w q n v : fresh w = [] -> heap q !! n = Some (mknode None v) -> n ∉ (chain w).*1 -> shaped w q ->
  heap q !! fst (tail w) = Some (mknode None (snd (tail w))) /\
  shaped (mkshape (dead w) (mid w) (live w) [(n, v)])
    (set_heap (<[fst (tail w) := mknode (Some n) (snd (tail w))]> (heap q)) q).
Proof.
  intros Hf Hn Hni [Hl Hnd Hfi Hd Ht]. destruct (chain_tail w Hf) as [L HL].
  assert (chain (mkshape (dead w) (mid w) (live w) [(n, v)]) = L ++ [tail w; (n, v)]) as HC.
  { unfold chain in *; cbn. rewrite Hf, app_nil_r in HL. change [tail w; (n, v)] with ([tail w] ++ [(n, v)]).
    rewrite app_assoc, <- HL, <- app_assoc. done. }
  rewrite HL in Hl, Hnd, Hni, Hfi. destruct (tail w) as [t x] eqn:Et. split; [by apply linked_lookup in Hl|].
  split; rewrite ?HC; cbn; try done.
  - by apply linked_snoc.
  - change [(t, x); (n, v)] with ([(t, x)] ++ [(n, v)]). rewrite app_assoc, fmap_app. apply NoDup_app. split; [done|].
    split; [|apply NoDup_singleton]. intros y Hy ->%list_elem_of_singleton. done.
  - rewrite Hfi. by destruct L.
  - rewrite Ht. unfold tail in *; cbn. by rewrite Et.
Qed.
(** [this->last = n] *)
Lemma shaped_publish w q n v : fresh w = [(n, v)] -> shaped w q ->
  shaped (mkshape (dead w) (mid w) (live w ++ [(n, v)]) []) (mkqueue (heap q) (first q) (divider q) (Some n) (size q)).
Proof.
  intros Hf [Hl Hnd Hfi Hd Ht].
  assert (chain (mkshape (dead w) (mid w) (live w ++ [(n, v)]) []) = chain w) as HC.
  { unfold chain; cbn. by rewrite Hf, app_nil_r. }
  split; rewrite ?HC; try done. unfold tail; cbn. by rewrite List.last_last.
Qed.
(** [this->first = this->first->next] *)
Lemma shaped_skip w q tmp v A : dead w = (tmp, v) :: A -> shaped w q ->
  shaped (mkshape A (mid w) (live w) (fresh w)) (mkqueue (heap q) (fst <$> head (chain (mkshape A (mid w) (live w) (fresh w)))) (divider q) (last q) (size q))
  /\ is_Some (heap q !! tmp) /\ tmp ∉ (chain (mkshape A (mid w) (live w) (fresh w))).*1.
Proof.
  intros HA [Hl Hnd Hfi Hd Ht]. unfold chain in *. rewrite HA in *. cbn in *. destruct Hl as [Hh Hl].
  apply NoDup_cons in Hnd as [Hni Hnd]. split; [by split|]. split; [by eexists|done].
Qed.
(** [this->divider = this->divider->next] *)
Lemma shaped_advance w q a v B : live w = (a, v) :: B -> shaped w q ->
  shaped (mkshape (dead w ++ [mid w]) (a, v) B (fresh w)) (mkqueue (heap q) (first q) (Some a) (last q) (size q)).
Proof.
  intros HB [Hl Hnd Hfi Hd Ht].
  assert (chain (mkshape (dead w ++ [mid w]) (a, v) B (fresh w)) = chain w) as HC.
  { unfold chain; cbn. by rewrite HB, <- app_assoc. }
  split; rewrite ?HC; try done. rewrite Ht. unfold tail; cbn. by rewrite HB, last_cons.
Qed.
(** the divider is last only when nothing is to be consumed *)
Lemma shaped_live_last w q : shaped w q -> live w <> [] -> Some (fst (mid w)) <> Some (fst (tail w)).
Proof.
  intros Hs Hl He. pose proof (shaped_nodup w q Hs) as Hn. unfold chain, tail in *.
  destruct (exists_last Hl) as (B & x & HB). rewrite HB, List.last_last in *.
  rewrite fmap_app in Hn. cbn in Hn. apply NoDup_app in Hn as (_ & _ & Hn). apply NoDup_cons in Hn as [Hn _].
  apply Hn. rewrite !fmap_app. cbn. injection He as ->. set_solver.
Qed.
(** size is not looked at *)
Lemma shaped_size w q z : shaped w q -> shaped w (mkqueue (heap q) (first q) (divider q) (last q) z).
Proof. intros []. by split. Qed.
Lemma cinv_more w w' c n : mid w' = mid w -> live w' = live w ++ n -> cinv w c -> cinv w' c.
Proof.
  unfold cinv. intros -> ->. destruct (cpos c); try done.
  - intros [-> Hl]. split; [done|]. by destruct (live w).
  - intros (-> & a & B & ->). split; [done|]. by exists a, (B ++ n).
  - intros (-> & a & B & -> & ->). split; [done|]. by exists a, (B ++ n).
Qed.
Lemma cinv_same w w' c : mid w' = mid w -> live w' = live w -> cinv w c -> cinv w' c.
Proof. intros Hm Hl. apply (cinv_more w w' c []); [done|]. by rewrite app_nil_r. Qed.

Lemma produce_step_ok vs a spurious p c q : spsc vs p c q ->
  exists p' q', produce_step a spurious p q = Ok (p', q') /\ spsc vs p' c q'.
Proof.
  intros (w & Hs & Hp & Hc & Hh). unfold produce_step. destruct p as [td pc]. unfold pinv in Hp. cbn in *.
  destruct pc; cbn in *.
  - destruct td as [|v td]; [do 2 eexists; split; [done|]; by exists w|].
    destruct (heap q !! a) eqn:Ea; [do 2 eexists; split; [done|]; by exists w|].
    do 2 eexists. split; [done|]. exists w. split; [by apply shaped_new|]. split; [|split; [done|]].
    + cbn. split; [done|]. split; [exists v; apply lookup_insert_eq|]. eapply linked_fresh; [apply Hs|done].
    + rewrite <- Hh. unfold history, inflight; cbn. by rewrite lookup_insert_eq.
  - destruct Hp as [Hf Hu]. rewrite (shaped_pointers_set w) by done. rewrite (shaped_last w) by done. cbn.
    do 2 eexists. split; [done|]. by exists w.
  - destruct Hp as (Hf & [[v Hv] Hni] & ->). destruct (shaped_link w q n v) as [Ht Hl]; [done..|].
    unfold deref. rewrite Ht. cbn. destruct spurious.
    + do 2 eexists. split; [done|]. exists w. split; [done|]. split; [|done]. cbn. split; [done|]. split; [|done]. by exists v.
    + do 2 eexists. split; [done|]. eexists. split; [exact Hl|]. split; [by exists v|]. split; [done|].
      rewrite <- Hh. unfold history, inflight; cbn. rewrite Hf, Hv. done.
  - destruct Hp as [v Hf]. do 2 eexists. split; [done|]. eexists. split; [by eapply shaped_publish|]. split; [done|].
    split; [by apply (cinv_more w _ _ [(n, v)])|]. rewrite <- Hh. unfold history, inflight; cbn. rewrite Hf, fmap_app, <- app_assoc. done.
  - do 2 eexists. split; [done|]. exists w. by split; [apply shaped_size|].
  - rewrite (shaped_first w) by done. destruct (head (chain w)) as [x|] eqn:Ex; [|by unfold chain in Ex; destruct (dead w)].
    cbn. do 2 eexists. split; [done|]. exists w. split; [done|]. split; [|done]. cbn. split; [done|].
    rewrite (shaped_first w), Ex by done. done.
  - destruct Hp as [Hf Hfi]. case_bool_decide as Hd.
    + do 2 eexists. split; [done|]. by exists w.
    + do 2 eexists. split; [done|]. exists w. split; [done|]. split; [|done]. cbn. split; [done|].
      rewrite (shaped_first w) in Hfi by done. rewrite (shaped_divider w) in Hd by done. unfold chain in Hfi.
      destruct (dead w) as [|[b v] A]; cbn in *; [congruence|]. simplify_eq. by eexists _, _.
  - destruct Hp as (Hf & v & A & HA). pose proof (shaped_linked w q Hs) as Hl. unfold chain in Hl. rewrite HA, Hf, app_nil_r in Hl.
    destruct Hl as [Ht Hl]. unfold deref. rewrite Ht. cbn.
    do 2 eexists. split; [done|]. exists w. split; [done|]. split; [|done]. cbn. split; [done|]. by exists v, A.
  - destruct Hp as (Hf & v & A & HA & ->). case_bool_decide as Hfi; [destruct spurious|]; cbn.
    1,3: do 2 eexists; split; [done|]; by exists w.
    destruct (shaped_skip w q tmp v A) as (Hs' & Hin & Hni); [done..|]. do 2 eexists. split; [done|].
    exists (mkshape A (mid w) (live w) (fresh w)). split; [|split; [|split; [by apply (cinv_same w)|exact Hh]]].
    + unfold chain in Hs'. cbn in Hs'. rewrite Hf, app_nil_r in *. exact Hs'.
    + done.
  - destruct Hp as (Hf & [nd Hn] & Hni). unfold deref. rewrite Hn. cbn. do 2 eexists. split; [done|]. exists w.
    split; [by apply shaped_delete|]. done.
Qed.

Lemma pinv_size w q p z : pinv w q p -> pinv w (mkqueue (heap q) (first q) (divider q) (last q) z) p.
Proof. done. Qed.
Lemma pinv_advance w q p a v B : live w = (a, v) :: B -> pinv w q p ->
  pinv (mkshape (dead w ++ [mid w]) (a, v) B (fresh w)) (mkqueue (heap q) (first q) (Some a) (last q) (size q)) p.
Proof.
  intros HB. assert (chain (mkshape (dead w ++ [mid w]) (a, v) B (fresh w)) = chain w) as HC.
  { unfold chain; cbn. by rewrite HB, <- app_assoc. }
  unfold pinv, unlinked. rewrite HC. cbn. destruct (ppos p); try done.
  - intros (Hf & Hu & ->). split; [done|]. split; [done|]. unfold tail; cbn. by rewrite HB, last_cons.
  - intros (Hf & x & A & ->). split; [done|]. by eexists _, _.
  - intros (Hf & x & A & -> & ->). split; [done|]. eexists x, _. split; [done|]. by rewrite HB, <- app_assoc.
Qed.

Lemma consume_step_at w vs spurious p c q : spsc_at w vs p c q ->
  exists c' q' w', consume_step spurious c q = Ok (c', q') /\ spsc_at w' vs p c' q' /\
    (spurious = false -> work w' c' <= pred (work w c))%nat.
Proof.
  intros (Hs & Hp & Hc & Hh). unfold consume_step. destruct c as [gt pc]. unfold cinv in Hc. cbn in Hc |- *.
  destruct pc; cbn in Hc |- *.
  - rewrite (shaped_pointers_set w), (shaped_divider w) by done. cbn. do 3 eexists. split; [done|].
    split; [exact (conj Hs (conj Hp (conj eq_refl Hh)))|]. intros _. unfold work; cbn. destruct (live w); cbn; lia.
  - subst tmp. rewrite (shaped_last w) by done. case_bool_decide as Hl.
    + do 3 eexists. split; [done|]. split; [exact (conj Hs (conj Hp (conj I Hh)))|]. intros _.
      unfold work; cbn. destruct (live w) as [|x B] eqn:HB; [lia|]. exfalso. apply (shaped_live_last w q); [done|by rewrite HB|]. done.
    + assert (live w <> []) as HB. { intros HB. apply Hl. unfold tail. by rewrite HB. }
      do 3 eexists. split; [done|]. split; [exact (conj Hs (conj Hp (conj (conj eq_refl HB) Hh)))|]. intros _.
      unfold work; cbn. destruct (live w); cbn; [done|lia].
  - destruct Hc as [-> Hl]. unfold deref. rewrite (shaped_mid w) by done.
    assert (exists a v B, live w = (a, v) :: B) as (a & v & B & HB). { destruct (live w) as [|[a v] B]; [done|]. by exists a, v, B. }
    rewrite HB. cbn. pose proof (shaped_linked w q Hs) as Hk. unfold chain in Hk. rewrite HB in Hk. cbn in Hk.
    rewrite cons_middle, app_assoc in Hk. apply linked_lookup in Hk. rewrite Hk. cbn.
    do 3 eexists. split; [done|]. split; [exact (conj Hs (conj Hp (conj (conj eq_refl (ex_intro _ a (ex_intro _ B HB))) Hh)))|].
    intros _. unfold work; cbn. destruct (live w); cbn; lia.
  - destruct Hc as (-> & a & B & HB). unfold deref. rewrite (shaped_mid w), HB by done. cbn.
    do 2 eexists. exists w. split; [done|]. split.
    + split; [done|]. split; [done|]. split; [|done]. split; [done|]. by exists a, B.
    + intros _. unfold work; cbn. rewrite HB. cbn. lia.
  - destruct Hc as (-> & a & B & HB & ->). rewrite (shaped_divider w) by done. rewrite bool_decide_eq_true_2 by done.
    destruct spurious; cbn; [do 3 eexists; split; [done|]; split; [exact (conj Hs (conj Hp (conj I Hh)))|done]|].
    do 3 eexists. split; [done|]. split.
    + split; [by eapply shaped_advance|]. split; [by apply pinv_advance|]. split; [done|].
      rewrite <- Hh. unfold history; cbn. by rewrite HB.
    + intros _. unfold work; cbn. rewrite HB. cbn. destruct B; cbn; lia.
  - do 3 eexists. split; [done|]. split.
    + split; [by apply shaped_size|]. split; [by apply (pinv_size w)|]. split; [done|].
      rewrite <- Hh. unfold history; cbn. by rewrite <- app_assoc.
    + intros _. unfold work; cbn. destruct (live w); cbn; lia.
Qed.
Lemma consume_step_ok vs spurious p c q : spsc vs p c q ->
  exists c' q', consume_step spurious c q = Ok (c', q') /\ spsc vs p c' q'.
Proof.
  intros [w Hw]. destruct (consume_step_at w vs spurious p c q Hw) as (c' & q' & w' & Hc & Hs & _).
  exists c', q'. split; [done|]. by exists w'.
Qed.

Lemma start_ok vs : spsc vs (mkproducer vs P_idle) (mkconsumer [] C_idle) new_queue.
Proof.
  exists (mkshape [] (0%nat, 0) [] []). split; [|done]. split; try done. cbn. apply NoDup_singleton.
Qed.

Definition pair_inv (vs : list Z) (s : system) : Prop :=
  exists p c, producers s = [p] /\ consumers s = [c] /\ spsc vs p c (shared s).
Lemma step_ok vs e s : pair_inv vs s -> exists s', step e s = Ok s' /\ pair_inv vs s'.
Proof.
  intros (p & c & Hp & Hc & H). destruct s as [q ps cs]. cbn in *. subst. destruct e as [[|i] a sp|[|i] sp]; cbn.
  2,4: eexists; split; [done|]; by exists p, c.
  - destruct (produce_step_ok vs a sp p c q H) as (p' & q' & -> & H'). cbn. eexists. split; [done|]. by exists p', c.
  - destruct (consume_step_ok vs sp p c q H) as (c' & q' & -> & H'). cbn. eexists. split; [done|]. by exists p, c'.
Qed.
Lemma run_ok vs es s : pair_inv vs s -> exists s', run es s = Ok s' /\ pair_inv vs s'.
Proof.
  revert s. induction es as [|e es IH]; intros s Hs; [by exists s|].
  destruct (step_ok vs e s Hs) as (s1 & He & Hs1). cbn. rewrite He. by apply IH.
Qed.
Lemma start_inv vs : pair_inv vs (start [vs] 1).
Proof. exists (mkproducer vs P_idle), (mkconsumer [] C_idle). split; [done|]. split; [done|]. apply start_ok. Qed.

(** [C23] A queue with one producer and one consumer is safe and in order: under
    every interleaving of their accesses, whatever addresses [new] returns and
    whichever weak exchanges fail, no freed node is followed, no pointer is
    null, no assertion fails, and what the consumer has got so far is a prefix
    of what the producer was given, each value once and in its order. *)
Theorem spsc_queue_safe (vs : list Z) (es : list event) :
  exists s c rest, run es (start [vs] 1) = Ok s /\ consumers s = [c] /\ vs = got c ++ rest.
Proof.
  destruct (run_ok vs es _ (start_inv vs)) as (s & Hr & p & c & Hp & Hc & w & _ & _ & _ & Hh).
  exists s, c. eexists. split; [done|]. split; [done|]. symmetry. exact Hh.
Qed.

Lemma drain n : forall w vs q c, (work w c <= n)%nat -> spsc_at w vs (mkproducer [] P_idle) c q ->
  exists q' c', run (replicate n (Consumer 0 false)) (mksystem q [mkproducer [] P_idle] [c]) =
      Ok (mksystem q' [mkproducer [] P_idle] [c']) /\ got c' = vs.
Proof.
  induction n as [|n IH]; intros w vs q c Hn Hw.
  - exists q, c. split; [done|]. destruct Hw as (_ & Hf & _ & <-). unfold work in Hn. unfold history, inflight. cbn.
    rewrite Hf. destruct (live w), c as [g []]; cbn in *; try lia; by rewrite !app_nil_r.
  - destruct (consume_step_at w vs false _ c q Hw) as (c1 & q1 & w1 & Hc & Hw1 & Hm). cbn. rewrite Hc. cbn.
    apply (IH w1); [|done]. specialize (Hm eq_refl). lia.
Qed.
Lemma work_bound w vs p c q : spsc_at w vs p c q -> (work w c <= 6 * length vs + 6)%nat.
Proof.
  intros (_ & _ & _ & <-). unfold history, work. rewrite !length_app, length_fmap. destruct (live w), (cpos c); cbn; lia.
Qed.

(** Nothing is left behind: from any state one producer and one consumer
    can reach in which the producer has finished, the consumer alone gets all
    that was produced, within six steps for each value. *)
Theorem consumer_drains (vs : list Z) (es : list event) (s : system)
  (Hr : run es (start [vs] 1) = Ok s) (Hd : producers s = [mkproducer [] P_idle]) :
  exists s' c, run (replicate (6 * length vs + 6) (Consumer 0 false)) s = Ok s' /\ consumers s' = [c] /\ got c = vs.
Proof.
  destruct (run_ok vs es _ (start_inv vs)) as (s0 & Hr0 & p & c & Hp & Hc & w & Hw). rewrite Hr in Hr0. injection Hr0 as <-.
  rewrite Hp in Hd. injection Hd as ->. destruct s as [q ps cs]. cbn in *. subst.
  destruct (drain _ w vs q c (work_bound w vs _ c q Hw) Hw) as (q' & c' & Hq & Hg). by exists (mksystem q' [mkproducer [] P_idle] [c']), c'.
Qed.

(** two values are produced, one exchange failing on the way; one is consumed in between *)
Definition sample_run : list event :=
  [Producer 0 1 false; Producer 0 1 false; Producer 0 1 true; Producer 0 1 false; Producer 0 1 false;
   Producer 0 1 false; Consumer 0 false; Consumer 0 false; Consumer 0 false; Consumer 0 false; Consumer 0 false] ++
  replicate 16 (Producer 0 5 false).
Lemma consumer_drains_witness : exists s, run sample_run (start [[7; 8]] 1) = Ok s /\
  producers s = [mkproducer [] P_idle] /\
  exists s' c, run (replicate 18 (Consumer 0 false)) s = Ok s' /\ consumers s' = [c] /\ got c = [7; 8].
Proof.
  eexists. split; [vm_compute; reflexivity|]. split; [vm_compute; reflexivity|].
  apply (consumer_drains [7; 8] sample_run); vm_compute; reflexivity.
Defined.

(** With two producers the queue is not safe: one of them may have read
    [last] when the other links its node, the consumer passes the old one, and
    the other producer's clean-up frees it; the exchange on its [next] then
    follows a freed node. *)
Theorem two_producers_use_after_free : exists es, run es (start [[1]; [2]] 1) = Fault UseAfterFree.
Proof.
  exists ([Producer 1 1 false; Producer 1 1 false] ++ replicate 5 (Producer 0 2 false) ++
    replicate 6 (Consumer 0 false) ++ replicate 5 (Producer 0 3 false) ++ [Producer 1 3 false]).
  vm_compute. reflexivity.
Qed.
