(* ===== verification/AsyncQueue.v ===== *)
(** * The queue of requests (src/src/bdfs-lib/AsyncQueue.h)

    Threads that enqueue, the thread that sends, and a thread that stops it, as
    machines that do one access to shared memory per step; a run is any sequence of
    steps.  The queue itself is taken as a list whose ends are used in one step each:
    [LockFree] shows this of calls of Produce that do not overlap, and that calls
    that do may break the queue.  So a run with several threads that enqueue is one
    in which their calls of Produce come one after the other. *)

From Stdlib Require Import ZArith Lia Bool.
From stdpp Require Import base list.
From S2P Require Import Prelude.
Set Default Goal Selector "!".
Local Open Scope Z_scope.

(** where a call of Enqueue stands *)
Inductive epc {A : Type} :=
| E_idle
| E_inc (x : A)
| E_produce (x : A) (count : Z)
| E_lock
| E_signal
| E_unlock.
Arguments epc : clear implicits.
(** SendLoop *)
Inductive spc {A : Type} :=
| S_while
| S_consume
| S_dec (x : A)
| S_call (x : A)
| S_lock
| S_count
| S_done
| S_sleep
| S_wait
| S_woken
| S_unlock
| S_exit.
Arguments spc : clear implicits.
(** Stop *)
Inductive tpc := T_idle | T_lock | T_signal | T_unlock | T_join | T_stopped.

Inductive thread := Enqueuer (i : nat) | Sender | Stopper.
#[export] Instance thread_eq_dec : EqDecision thread.
Proof. solve_decision. Defined.

Section Queue.
Context {A : Type}.
Record enqueuer := mkenqueuer { todo : list A; epos : epc A }.
Record state := mkstate {
  outQueue : list A;
  queuedCount : Z;
  done : bool;
  mutex : option thread;
  sender : spc A;
  stopper : tpc;
  enqueuers : list enqueuer;
  (** the items given to [onDequeue] and then to [onDelete] *)
  delivered : list A
}.
Definition set_mutex (m : option thread) (s : state) : state :=
  mkstate (outQueue s) (queuedCount s) (done s) m (sender s) (stopper s) (enqueuers s) (delivered s).
Definition set_sender (c : spc A) (s : state) : state :=
  mkstate (outQueue s) (queuedCount s) (done s) (mutex s) c (stopper s) (enqueuers s) (delivered s).
Definition set_stopper (c : tpc) (s : state) : state :=
  mkstate (outQueue s) (queuedCount s) (done s) (mutex s) (sender s) c (enqueuers s) (delivered s).
Definition set_enqueuer (i : nat) (p : enqueuer) (s : state) : state :=
  mkstate (outQueue s) (queuedCount s) (done s) (mutex s) (sender s) (stopper s) (<[i := p]> (enqueuers s)) (delivered s).
Definition set_count (n : Z) (s : state) : state :=
  mkstate (outQueue s) n (done s) (mutex s) (sender s) (stopper s) (enqueuers s) (delivered s).
Definition set_queue (l : list A) (s : state) : state :=
  mkstate l (queuedCount s) (done s) (mutex s) (sender s) (stopper s) (enqueuers s) (delivered s).
Definition set_done (b : bool) (s : state) : state :=
  mkstate (outQueue s) (queuedCount s) b (mutex s) (sender s) (stopper s) (enqueuers s) (delivered s).
Definition deliver (x : A) (s : state) : state :=
  mkstate (outQueue s) (queuedCount s) (done s) (mutex s) (sender s) (stopper s) (enqueuers s) (delivered s ++ [x]).

(** pthread_cond_signal; the one thread that waits is the sender *)
Definition signal (s : state) : state :=
  match sender s with S_wait => set_sender S_woken s | _ => s end.
(** pthread_mutex_lock: a thread that cannot have the mutex stays where it is *)
Definition lock (t : thread) (k : state -> state) (s : state) : state :=
  match mutex s with None => k (set_mutex (Some t) s) | Some _ => s end.

(** one step of Enqueue, or the start of the next one *)
Definition enqueue_step (i : nat) (p : enqueuer) (s : state) : state :=
  let goto pc s := set_enqueuer i (mkenqueuer (todo p) pc) s in
  match epos p with
  | E_idle =>
      match todo p with
      | [] => s
      | x :: l => set_enqueuer i (mkenqueuer l (if done s then E_idle else E_inc x)) s
      end
  | E_inc x => let count := u32 (queuedCount s + 1) in goto (E_produce x count) (set_count count s)
  | E_produce x count => goto (if count =? 1 then E_lock else E_idle) (set_queue (outQueue s ++ [x]) s)
  | E_lock => lock (Enqueuer i) (goto E_signal) s
  | E_signal => goto E_unlock (signal s)
  | E_unlock => goto E_idle (set_mutex None s)
  end.
(** one step of SendLoop; nobody gives an [onEmpty] *)
Definition send_step (s : state) : state :=
  match sender s with
  | S_while => set_sender (if done s then S_exit else S_consume) s
  | S_consume =>
      match outQueue s with
      | x :: l => set_sender (S_dec x) (set_queue l s)
      | [] => set_sender S_lock s
      end
  | S_dec x => set_sender (S_call x) (set_count (u32 (queuedCount s - 1)) s)
  | S_call x => set_sender S_while (deliver x s)
  | S_lock | S_woken => lock Sender (set_sender S_count) s
  | S_count => set_sender (if queuedCount s =? 0 then S_done else S_unlock) s
  | S_done => set_sender (if done s then S_unlock else S_sleep) s
  | S_sleep => set_sender S_wait (set_mutex None s)
  | S_wait => s
  | S_unlock => set_sender S_while (set_mutex None s)
  | S_exit => s
  end.
(** one step of Stop *)
Definition stop_step (s : state) : state :=
  match stopper s with
  | T_idle => set_stopper T_lock (set_done true s)
  | T_lock => lock Stopper (set_stopper T_signal) s
  | T_signal => set_stopper T_unlock (signal s)
  | T_unlock => set_stopper T_join (set_mutex None s)
  | T_join => match sender s with S_exit => set_stopper T_stopped s | _ => s end
  | T_stopped => s
  end.

Inductive event := Enqueue (i : nat) | Send | Stop | Spurious.
Definition step (e : event) (s : state) : state :=
  match e with
  | Enqueue i => match enqueuers s !! i with Some p => enqueue_step i p s | None => s end
  | Send => send_step s
  | Stop => stop_step s
  | Spurious => signal s
  end.
Definition run (es : list event) (s : state) : state := fold_left (fun s e => step e s) es s.
(** after Start, with what each thread is going to enqueue *)
Definition started (jobs : list (list A)) : state :=
  mkstate [] 0 false None S_while T_idle (map (fun l => mkenqueuer l E_idle) jobs) [].
(** Reset, when no thread is left: what is in the queue is deleted *)
Definition Reset (s : state) : bool * state :=
  if done s then (true, set_done false (set_count (u32 (queuedCount s - zlen (outQueue s))) (set_queue [] s)))
  else (false, s).
(** Start when no sender is running, as after Stop: a new mutex, condition variable
    and thread, over the queue and the counter as they are *)
Definition Start (s : state) : state :=
  mkstate (outQueue s) (queuedCount s) false None S_while T_idle (enqueuers s) (delivered s).

(** ** The queue of all sessions (BdSession) *)
Record sessions_queue := mkqueue { queueStarted : bool; queue : state }.
(** CreateSession starts it, whatever Start answers *)
Definition CreateSession_start (q : sessions_queue) : sessions_queue :=
  if queueStarted q then q else mkqueue true (Start (queue q)).
(** BdSession::Stop waits in the queue's Stop, while the other threads go on *)
Inductive BdSession_Stop : sessions_queue -> sessions_queue -> Prop :=
| stop_unstarted s : BdSession_Stop (mkqueue false s) (mkqueue false s)
| stop_started s es : stopper (run es s) = T_stopped -> BdSession_Stop (mkqueue true s) (mkqueue false (run es s)).
Definition VolumeManager_Stop : sessions_queue -> sessions_queue -> Prop := BdSession_Stop.
End Queue.
Arguments sessions_queue : clear implicits.
Arguments enqueuer : clear implicits.
Arguments state : clear implicits.
