(* ===== verification/AsyncQueueFacts.v ===== *)
(** * The queue of requests delivers (AsyncQueue)

    Its invariant over all runs: who holds the mutex, what the counter counts, and
    that a sender that sleeps with work to do is about to be woken. *)

From Stdlib Require Import ZArith Lia Bool.
From stdpp Require Import base list.
From S2P Require Import Prelude Mutex AsyncQueue.
Set Default Goal Selector "!".
Local Open Scope Z_scope.

Section Facts.
Context {A : Type}.
Implicit Types (s : state A) (p q : enqueuer A) (x : A) (ps : list (enqueuer A)).

(** ** The invariant *)
Definition in_critical (p : enqueuer A) : bool := match epos p with E_signal | E_unlock => true | _ => false end.
Definition critical s (t : thread) : bool :=
  match t with
  | Enqueuer i => match enqueuers s !! i with Some p => in_critical p | None => false end
  | Sender => match sender s with S_count | S_done | S_sleep | S_unlock => true | _ => false end
  | Stopper => match stopper s with T_signal | T_unlock => true | _ => false end
  end.
(** counted, but not yet in the queue; and still to be counted or in the queue *)
Definition pending p : nat := match epos p with E_produce _ _ => 1 | _ => 0 end.
Definition open p : nat := length (todo p) + match epos p with E_inc _ | E_produce _ _ => 1 | _ => 0 end.
Definition taken s : nat := match sender s with S_dec _ => 1 | _ => 0 end.
Definition counted s : nat := sum_list_with pending (enqueuers s) + length (outQueue s) + taken s.
Definition load s : nat := sum_list_with open (enqueuers s) + length (outQueue s) + taken s.
(** a call of Enqueue that has yet to signal *)
Definition signals p : bool := match epos p with E_produce _ c => c =? 1 | E_lock | E_signal => true | _ => false end.
Definition signalled s : Prop := some_in signals (enqueuers s).
Definition asleep s : bool := match sender s with S_done | S_sleep | S_wait => true | _ => false end.
Definition stopping s : bool := match stopper s with T_lock | T_signal => true | _ => false end.

Record inv s := mkinv {
  inv_done : done s = match stopper s with T_idle => false | _ => true end;
  inv_mutex : excludes (critical s) (mutex s);
  inv_count : queuedCount s = Z.of_nat (counted s);
  inv_load : Z.of_nat (load s) < 2 ^ 32;
  inv_wake : asleep s = true -> (0 < counted s)%nat -> signalled s;
  inv_stop : (sender s = S_sleep \/ sender s = S_wait) -> done s = true -> stopping s = true
}.

Lemma pending_open ps : (sum_list_with pending ps <= sum_list_with open ps)%nat.
Proof. induction ps as [|p ps IH]; cbn; [lia|]. unfold pending at 1, open at 1. destruct (epos p); lia. Qed.
Lemma counted_load s : (counted s <= load s)%nat.
Proof. unfold counted, load. pose proof (pending_open (enqueuers s)). lia. Qed.
Lemma inv_small s n : inv s -> (n <= load s)%nat -> u32 (Z.of_nat n) = Z.of_nat n.
Proof. intros Hi Hn. pose proof (inv_load s Hi). apply u32_small. unfold in_u32. lia. Qed.

(** ** The mutex *)
Definition guarded s : Prop := excludes (critical s) (mutex s).
Lemma guarded_keep s s' : guarded s -> mutex s' = mutex s -> (forall t, critical s' t = critical s t) -> guarded s'.
Proof. unfold guarded. intros He -> Hc. by apply (excludes_keep (critical s)). Qed.
Lemma guarded_acquire s s' t : guarded s -> mutex s = None -> mutex s' = Some t ->
  critical s' t = true -> (forall t', t' <> t -> critical s' t' = critical s t') -> guarded s'.
Proof. unfold guarded. intros He Hn -> Ht Hc. rewrite Hn in He. by apply (excludes_acquire (critical s)). Qed.
Lemma guarded_release s s' t : guarded s -> critical s t = true -> mutex s' = None ->
  critical s' t = false -> (forall t', t' <> t -> critical s' t' = critical s t') -> guarded s'.
Proof. unfold guarded. intros He Hn -> Ht Hc. by apply (excludes_release (critical s) (mutex s) _ t). Qed.

Lemma critical_set i p q s t : enqueuers s !! i = Some p ->
  critical (set_enqueuer i q s) t = if decide (t = Enqueuer i) then in_critical q else critical s t.
Proof.
  intros Hp. destruct t as [j| |]; cbn; [|by destruct (decide _)..].
  destruct (decide (Enqueuer j = Enqueuer i)) as [[= ->]|Hne]; [by rewrite list_lookup_insert_eq by by eapply lookup_lt_Some|].
  rewrite list_lookup_insert_ne by congruence. done.
Qed.

(** ** Every step preserves it *)
Lemma inv_enqueuer i p q s s' : inv s -> enqueuers s !! i = Some p -> enqueuers s' = <[i := q]> (enqueuers s) ->
  (sender s' = sender s \/ asleep s' = false) -> stopper s' = stopper s -> done s' = done s -> guarded s' ->
  queuedCount s' = Z.of_nat (counted s') -> (load s' <= load s)%nat ->
  (asleep s' = true -> (0 < counted s')%nat -> signals q = true \/ (signals p = false /\ (0 < counted s)%nat)) -> inv s'.
Proof.
  intros [Hd Hm Hc Hl Hw Hs] Hp He Hse Hst Hdo Hex Hcn Hlo Hsi. split; try done.
  - by rewrite Hst, Hdo.
  - lia.
  - intros Ha H0. unfold signalled. rewrite He. apply (some_insert _ _ i p q Hp). destruct (Hsi Ha H0) as [|[Hp' Hn]]; [by left|right].
    split; [done|]. apply Hw; [|done]. destruct Hse as [E|E]; [|congruence]. unfold asleep in *. by rewrite E in Ha.
  - intros Hw' Hdn. unfold stopping. rewrite Hst. destruct Hse as [E|E].
    + rewrite E, Hdo in *. by apply Hs.
    + unfold asleep in E. by destruct Hw' as [Ew|Ew]; rewrite Ew in E.
Qed.

Lemma signal_frame s : enqueuers (signal s) = enqueuers s /\ outQueue (signal s) = outQueue s /\ queuedCount (signal s) = queuedCount s /\
  done (signal s) = done s /\ mutex (signal s) = mutex s /\ stopper (signal s) = stopper s /\ delivered (signal s) = delivered s.
Proof. unfold signal. by destruct (sender s). Qed.
Lemma signal_taken s : taken (signal s) = taken s.
Proof. unfold signal, taken. by destruct (sender s) eqn:E; cbn; rewrite ?E. Qed.
Lemma signal_critical s t : critical (signal s) t = critical s t.
Proof. unfold signal, critical. by destruct (sender s) eqn:E; cbn; rewrite ?E. Qed.
Lemma signal_asleep s : critical s Sender = false -> asleep (signal s) = false.
Proof. unfold signal, asleep, critical. by destruct (sender s) eqn:E; cbn; rewrite ?E. Qed.
Lemma signal_counted s : counted (signal s) = counted s /\ load (signal s) = load s.
Proof. unfold counted, load. rewrite signal_taken. destruct (signal_frame s) as (-> & -> & _). done. Qed.
Lemma signal_inv s : inv s -> inv (signal s).
Proof.
  intros [Hd Hm Hc Hl Hw Hs]. destruct (signal_frame s) as (He & Hq & Hn & Hdo & Hmu & Hst & _). destruct (signal_counted s) as [Hco Hlo].
  split; rewrite ?Hdo, ?Hst, ?Hn, ?Hco, ?Hlo; try done.
  - by apply (guarded_keep s); [done|done|apply signal_critical].
  - intros Ha H0. unfold signalled. rewrite He. apply Hw; [|done]. unfold signal, asleep in *. destruct (sender s) eqn:E; cbn in Ha; rewrite ?E in Ha; done.
  - intros Hse Hdn. unfold stopping. rewrite Hst. apply Hs; [|done]. unfold signal in Hse. destruct (sender s) eqn:E; cbn in Hse; rewrite ?E in Hse; naive_solver.
Qed.

Lemma sum_pending_open ps i p : ps !! i = Some p -> (pending p < open p)%nat -> (sum_list_with pending ps < sum_list_with open ps)%nat.
Proof.
  intros Hp Hlt. pose proof (pending_open ps). revert i Hp. induction ps as [|r ps IH]; intros [|i]; [done..| |]; intros E.
  - injection E as ->. cbn. pose proof (pending_open ps). lia.
  - cbn. pose proof (IH (pending_open ps) i E). pose proof (pending_open [r]) as Hr. cbn in Hr. lia.
Qed.
Lemma critical_other i p q s t : enqueuers s !! i = Some p -> in_critical q = in_critical p -> critical (set_enqueuer i q s) t = critical s t.
Proof. intros Hp E. rewrite (critical_set i p q s t Hp). destruct (decide _) as [->|]; [|done]. cbn. by rewrite Hp. Qed.
Lemma enqueue_idle i l s : inv s -> enqueuers s !! i = Some (mkenqueuer l E_idle) -> inv (enqueue_step i (mkenqueuer l E_idle) s).
Proof.
  intros Hi Hp. pose proof (inv_count s Hi) as Hc. pose proof (inv_mutex s Hi) as Hm. pose proof (counted_load s) as Hcl.
  pose proof (fun q => sum_insert pending _ i _ q Hp) as Hpe. pose proof (fun q => sum_insert open _ i _ q Hp) as Hop. unfold enqueue_step; cbn [epos todo].
  destruct l as [|x l]; [done|].
  set (q := mkenqueuer l (if done s then E_idle else E_inc x)). specialize (Hpe q). specialize (Hop q).
  assert (pending q = 0%nat /\ (open q <= open (mkenqueuer (x :: l) E_idle))%nat) as [E1 E2] by (unfold q; by destruct (done s); cbn; lia).
  cbn [pending epos] in Hpe.
  eapply (inv_enqueuer i _ q s); try done; [by left| | | |].
  - apply (guarded_keep s); [done|done|]. intros t. rewrite (critical_set i _ q s t Hp). destruct (decide _) as [->|]; [|done].
    cbn [critical]. rewrite Hp. unfold q. by destruct (done s).
  - cbn. rewrite Hc. f_equal. unfold counted, taken. cbn. fold (pending q). lia.
  - unfold load, taken. cbn. lia.
  - intros _ H0. right. split; [done|]. unfold counted, taken in *. cbn in H0. lia.
Qed.
Lemma enqueue_inc i l x s : inv s -> enqueuers s !! i = Some (mkenqueuer l (E_inc x)) -> inv (enqueue_step i (mkenqueuer l (E_inc x)) s).
Proof.
  intros Hi Hp. pose proof (inv_count s Hi) as Hc. pose proof (inv_mutex s Hi) as Hm. pose proof (counted_load s) as Hcl.
  pose proof (fun q => sum_insert pending _ i _ q Hp) as Hpe. pose proof (fun q => sum_insert open _ i _ q Hp) as Hop. unfold enqueue_step; cbn [epos todo].
  set (c := u32 (queuedCount s + 1)). set (q := mkenqueuer l (E_produce x c)). specialize (Hpe q). specialize (Hop q). cbn in Hpe, Hop.
  assert (c = Z.of_nat (S (counted s))) as Ec.
  { unfold c. rewrite Hc. replace (Z.of_nat (counted s) + 1) with (Z.of_nat (S (counted s))) by lia. apply (inv_small s); [done|].
    unfold counted, load in *. assert (sum_list_with pending (enqueuers s) < sum_list_with open (enqueuers s))%nat; [|lia].
    apply (sum_pending_open _ i (mkenqueuer l (E_inc x))); [done|cbn; lia]. }
  eapply (inv_enqueuer i _ q s); try done; [by left| | | |].
  - apply (guarded_keep s); [done|done|]. intros t. by apply (critical_other i (mkenqueuer l (E_inc x)) q (set_count c s)).
  - cbn. rewrite Ec. f_equal. unfold counted, taken. cbn. fold (pending q). lia.
  - unfold load, taken. cbn. lia.
  - intros _ _. cbn. rewrite Ec. destruct (counted s); [by left|right; split; [done|lia]].
Qed.
Lemma enqueue_produce i l x count s : inv s -> enqueuers s !! i = Some (mkenqueuer l (E_produce x count)) -> inv (enqueue_step i (mkenqueuer l (E_produce x count)) s).
Proof.
  intros Hi Hp. pose proof (inv_count s Hi) as Hc. pose proof (inv_mutex s Hi) as Hm. pose proof (counted_load s) as Hcl.
  pose proof (fun q => sum_insert pending _ i _ q Hp) as Hpe. pose proof (fun q => sum_insert open _ i _ q Hp) as Hop. unfold enqueue_step; cbn [epos todo].
  set (q := mkenqueuer l (if count =? 1 then E_lock else E_idle)). specialize (Hpe q). specialize (Hop q).
  assert (pending q = 0%nat /\ open q = length l) as [E1 E2] by (unfold q, open; destruct (count =? 1); cbn; lia).
  rewrite E1 in Hpe. rewrite E2 in Hop. cbn in Hpe, Hop.
  eapply (inv_enqueuer i _ q s); try done; [by left| | | |].
  - apply (guarded_keep s); [done|done|]. intros t.
    apply (critical_other i (mkenqueuer l (E_produce x count)) q (set_queue (outQueue s ++ [x]) s)); [done|]. unfold q. by destruct (count =? 1).
  - cbn. rewrite Hc. f_equal. unfold counted, taken. cbn. rewrite length_app. cbn. lia.
  - unfold load, taken. cbn. rewrite length_app. cbn. lia.
  - intros _ _. unfold q. cbn. destruct (count =? 1); [by left|right; split; [done|]]. unfold counted. lia.
Qed.
Lemma enqueue_lock i l s : inv s -> enqueuers s !! i = Some (mkenqueuer l E_lock) -> inv (enqueue_step i (mkenqueuer l E_lock) s).
Proof.
  intros Hi Hp. pose proof (inv_count s Hi) as Hc. pose proof (inv_mutex s Hi) as Hm. pose proof (counted_load s) as Hcl.
  pose proof (fun q => sum_insert pending _ i _ q Hp) as Hpe. pose proof (fun q => sum_insert open _ i _ q Hp) as Hop. unfold enqueue_step; cbn [epos todo].
  unfold lock. destruct (mutex s) eqn:Em; [done|]. set (q := mkenqueuer l E_signal). specialize (Hpe q). specialize (Hop q). cbn in Hpe, Hop.
  eapply (inv_enqueuer i _ q s); try done; [by left| | | |].
  - apply (guarded_acquire s _ (Enqueuer i)); [exact (inv_mutex s Hi)|done|done| |].
    + cbn [critical]. cbn. by rewrite list_lookup_insert_eq by by eapply lookup_lt_Some.
    + intros t Hne. etrans; [apply (critical_set i (mkenqueuer l E_lock) q (set_mutex (Some (Enqueuer i)) s) t Hp)|]. by rewrite decide_False.
  - cbn. rewrite Hc. f_equal. unfold counted, taken. cbn. lia.
  - unfold load, taken. cbn. lia.
  - intros _ _. by left.
Qed.
Lemma enqueue_signal i l s : inv s -> enqueuers s !! i = Some (mkenqueuer l E_signal) -> inv (enqueue_step i (mkenqueuer l E_signal) s).
Proof.
  intros Hi Hp. pose proof (inv_count s Hi) as Hc. pose proof (inv_mutex s Hi) as Hm. pose proof (counted_load s) as Hcl.
  pose proof (fun q => sum_insert pending _ i _ q Hp) as Hpe. pose proof (fun q => sum_insert open _ i _ q Hp) as Hop. unfold enqueue_step; cbn [epos todo].
  set (q := mkenqueuer l E_unlock). specialize (Hpe q). specialize (Hop q). cbn in Hpe, Hop.
  assert (critical s (Enqueuer i) = true) as Hcr by by cbn; rewrite Hp.
  assert (asleep (set_enqueuer i q (signal s)) = false) as Has.
  { apply (signal_asleep s). destruct (critical s Sender) eqn:E; [|done]. by pose proof (excludes_one _ _ _ _ Hm Hcr E). }
  destruct (signal_frame s) as (He & Hq & Hn & Hdo & Hmu & Hst & _).
  eapply (inv_enqueuer i _ q s); try done; [by cbn; rewrite He|by right| | | |].
  - apply (guarded_keep s); [done|done|]. intros t. rewrite <- (signal_critical s t). apply (critical_other i (mkenqueuer l E_signal)); [by rewrite He|done].
  - cbn. rewrite Hn, Hc. f_equal. unfold counted. change (taken (set_enqueuer i q (signal s))) with (taken (signal s)).
    rewrite signal_taken. cbn. rewrite He, Hq. lia.
  - unfold load. change (taken (set_enqueuer i q (signal s))) with (taken (signal s)). rewrite signal_taken. cbn. rewrite He, Hq. lia.
  - by rewrite Has.
Qed.
Lemma enqueue_unlock i l s : inv s -> enqueuers s !! i = Some (mkenqueuer l E_unlock) -> inv (enqueue_step i (mkenqueuer l E_unlock) s).
Proof.
  intros Hi Hp. pose proof (inv_count s Hi) as Hc. pose proof (inv_mutex s Hi) as Hm. pose proof (counted_load s) as Hcl.
  pose proof (fun q => sum_insert pending _ i _ q Hp) as Hpe. pose proof (fun q => sum_insert open _ i _ q Hp) as Hop. unfold enqueue_step; cbn [epos todo].
  set (q := mkenqueuer l E_idle). specialize (Hpe q). specialize (Hop q). cbn in Hpe, Hop.
  assert (critical s (Enqueuer i) = true) as Hcr by by cbn; rewrite Hp.
  eapply (inv_enqueuer i _ q s); try done; [by left| | | |].
  - apply (guarded_release s _ (Enqueuer i)); [done|done|done| |].
    + cbn [critical]. cbn. by rewrite list_lookup_insert_eq by by eapply lookup_lt_Some.
    + intros t Hne. etrans; [apply (critical_set i (mkenqueuer l E_unlock) q (set_mutex None s) t Hp)|]. by rewrite decide_False.
  - cbn. rewrite Hc. f_equal. unfold counted, taken. cbn. lia.
  - unfold load, taken. cbn. lia.
  - intros _ H0. right. split; [done|]. unfold counted, taken in *. cbn in H0. lia.
Qed.
Lemma enqueue_inv i p s : inv s -> enqueuers s !! i = Some p -> inv (enqueue_step i p s).
Proof.
  destruct p as [l []];
    [apply enqueue_idle|apply enqueue_inc|apply enqueue_produce|apply enqueue_lock|apply enqueue_signal|apply enqueue_unlock].
Qed.

(** a step that changes the sender, the queue and the counter only *)
Lemma inv_sender s s' : inv s -> enqueuers s' = enqueuers s -> stopper s' = stopper s -> done s' = done s -> guarded s' ->
  queuedCount s' = Z.of_nat (counted s') -> (load s' <= load s)%nat ->
  (asleep s' = true -> counted s' = 0%nat \/ (asleep s = true /\ counted s' = counted s)) ->
  (sender s' = S_sleep -> done s = false) -> (sender s' = S_wait -> sender s = S_sleep \/ sender s = S_wait) -> inv s'.
Proof.
  intros [Hd Hm Hc Hl Hw Hs] He Hst Hdo Hex Hcn Hlo Has Hsl Hwt. split; try done.
  - by rewrite Hst, Hdo.
  - lia.
  - intros Ha H0. unfold signalled. rewrite He. destruct (Has Ha) as [E|[Ha' E]]; [lia|]. apply Hw; [done|lia].
  - unfold stopping. rewrite Hst, Hdo. intros [E|E] Hdn; [rewrite (Hsl E) in Hdn; done|]. apply Hs; [by apply Hwt|done].
Qed.
Ltac sender_counts E := unfold counted, load, taken, asleep, critical in *; cbn in *; rewrite ?E in *; cbn in *;
  try match goal with Eq : outQueue _ = _ |- _ => rewrite ?Eq in * end; cbn in *; first [done|lia|intros; left; lia|naive_solver].
Ltac sender_keeps E :=
  match goal with Hi : inv ?s |- _ => pose proof (inv_count s Hi); eapply (inv_sender s); [exact Hi|reflexivity..| | | | | |];
    [first [apply (guarded_keep s); [exact (inv_mutex s Hi)|done|intros [| |]; cbn; rewrite ?E; done]
           |apply (guarded_acquire s _ Sender); [exact (inv_mutex s Hi)|done..|intros [| |] ?; done]
           |apply (guarded_release s _ Sender); [exact (inv_mutex s Hi)|cbn; rewrite E; done|done..|intros [| |] ?; done]]
    |..]; try (sender_counts E) end.
Lemma send_inv s : inv s -> inv (send_step s).
Proof.
  intros Hi. unfold send_step. destruct (sender s) eqn:E.
  - destruct (done s) eqn:Ed; sender_keeps E.
  - destruct (outQueue s) as [|x l] eqn:Eq; sender_keeps E.
  - assert (u32 (queuedCount s - 1) = Z.of_nat (pred (counted s))) as Ec.
    { rewrite (inv_count s Hi). assert (0 < counted s)%nat by (unfold counted, taken; rewrite E; lia).
      replace (Z.of_nat (counted s) - 1) with (Z.of_nat (pred (counted s))) by lia. apply (inv_small s); [done|]. pose proof (counted_load s). lia. }
    sender_keeps E.
  - sender_keeps E.
  - unfold lock. destruct (mutex s) eqn:Em; [done|]. sender_keeps E.
  - destruct (Z.eqb_spec (queuedCount s) 0) as [Ez|Ez]; sender_keeps E.
  - destruct (done s) eqn:Ed; sender_keeps E.
  - sender_keeps E.
  - done.
  - unfold lock. destruct (mutex s) eqn:Em; [done|]. sender_keeps E.
  - sender_keeps E.
  - done.
Qed.
Lemma inv_stopper s s' : inv s -> enqueuers s' = enqueuers s -> outQueue s' = outQueue s -> queuedCount s' = queuedCount s ->
  sender s' = sender s -> done s' = match stopper s' with T_idle => false | _ => true end -> guarded s' -> 
  ((sender s = S_sleep \/ sender s = S_wait) -> done s' = true -> stopping s' = true) -> inv s'.
Proof.
  intros [Hd Hm Hc Hl Hw Hs] He Hq Hn Hse Hdo Hex Hst.
  assert (counted s' = counted s /\ load s' = load s) as [Ec El] by (unfold counted, load, taken; by rewrite He, Hq, Hse).
  split; rewrite ?Hn, ?Ec, ?El, ?Hse; try done. unfold asleep, signalled in *. by rewrite Hse, He.
Qed.
Lemma stop_inv s : inv s -> inv (stop_step s).
Proof.
  intros Hi. unfold stop_step. pose proof (inv_mutex s Hi) as Hm. pose proof (inv_done s Hi) as Hd. destruct (stopper s) eqn:E.
  - apply (inv_stopper s); try done. apply (guarded_keep s); [done|done|]. intros [| |]; cbn; by rewrite ?E.
  - unfold lock. destruct (mutex s) eqn:Em; [done|]. apply (inv_stopper s); try done.
    apply (guarded_acquire s _ Stopper); [exact (inv_mutex s Hi)|done|done|done|by intros [| |]].
  - assert (critical s Sender = false) as Hcs.
    { destruct (critical s Sender) eqn:Ec; [|done]. assert (critical s Stopper = true) as Hcr by by cbn; rewrite E.
      by pose proof (excludes_one _ _ _ _ Hm Hcr Ec). }
    pose proof (signal_inv s Hi) as Hi'. destruct (signal_frame s) as (He & Hq & Hn & Hdo & Hmu & Hst & _).
    apply (inv_stopper (signal s)); try done; [cbn; by rewrite Hdo| |].
    + apply (guarded_keep (signal s)); [exact (inv_mutex _ Hi')|done|]. intros [| |]; [done..|]. cbn. by rewrite Hst, E.
    + pose proof (signal_asleep s Hcs) as Ha. unfold asleep in Ha. by intros [Ew|Ew]; rewrite Ew in Ha.
  - apply (inv_stopper s); try done.
    + apply (guarded_release s _ Stopper); [done|cbn; by rewrite E|done|done|by intros [| |]].
    + intros Hw _. pose proof (inv_stop s Hi Hw ltac:(done)) as C. unfold stopping in C. by rewrite E in C.
  - destruct (sender s) eqn:Es; try done. apply (inv_stopper s); try done; [|by rewrite Es; intros [|]].
    apply (guarded_keep s); [done|done|]. intros [| |]; cbn; by rewrite ?E.
  - done.
Qed.
Lemma step_inv e s : inv s -> inv (step e s).
Proof.
  intros Hi. destruct e as [i| | |]; cbn [step]; [|by apply send_inv|by apply stop_inv|by apply signal_inv].
  destruct (enqueuers s !! i) as [p|] eqn:E; [by apply enqueue_inv|done].
Qed.
Lemma run_inv es s : inv s -> inv (run es s).
Proof. revert s. induction es as [|e es IH]; intros s Hi; [done|]. by apply IH, step_inv. Qed.
Lemma started_inv (jobs : list (list A)) : Z.of_nat (length (concat jobs)) < 2 ^ 32 -> inv (started jobs).
Proof.
  intros Hl. assert (sum_list_with open (map (fun l => mkenqueuer l E_idle) jobs) = length (concat jobs)) as Ho.
  { clear Hl. induction jobs as [|l jobs IH]; [done|]. cbn. rewrite length_app, IH. lia. }
  assert (sum_list_with pending (map (fun l => mkenqueuer l E_idle) jobs) = 0%nat) as Hz by (clear; by induction jobs).
  split; try done.
  - intros [i| |]; cbn; [|done..]. rewrite list_lookup_fmap. by destruct (jobs !! i).
  - cbn. unfold counted. cbn [enqueuers started]. by rewrite Hz.
  - unfold load. cbn [enqueuers started]. rewrite Ho. cbn. lia.
Qed.
End Facts.

Section Runs.
Context {A : Type}.
Implicit Types (s : state A) (p q : enqueuer A) (x : A) (jobs : list (list A)) (log : list (nat * A)).

(** ** Order *)
Definition hand s : list A := match sender s with S_dec x | S_call x => [x] | _ => [] end.
Definition held p : list A := match epos p with E_inc x | E_produce x _ => [x] | _ => [] end.
(** what the [i]-th thread put in a log *)
Definition of_thread (i : nat) log : list A := (filter (fun e => fst e = i) log).*2.
(** some log of who enqueued what explains what was delivered and what is queued *)
Definition in_order jobs s : Prop := exists log,
  log.*2 = delivered s ++ hand s ++ outQueue s /\ Forall (fun e => (fst e < length jobs)%nat) log /\
  length (enqueuers s) = length jobs /\
  forall i p, enqueuers s !! i = Some p -> jobs !! i = Some (of_thread i log ++ held p ++ todo p).

Lemma of_thread_snoc i log j x : of_thread i (log ++ [(j, x)]) = of_thread i log ++ (if decide (j = i) then [x] else []).
Proof.
  unfold of_thread. rewrite filter_app, fmap_app. f_equal. rewrite filter_cons. cbn. by destruct (decide (j = i)).
Qed.
(** a step that gives nothing to the queue *)
Lemma in_order_keep jobs s s' : in_order jobs s -> delivered s' ++ hand s' ++ outQueue s' = delivered s ++ hand s ++ outQueue s ->
  enqueuers s' = enqueuers s -> in_order jobs s'.
Proof. intros (log & Hl & Hf & Hn & Hj) E He. exists log. by rewrite E, He. Qed.
Lemma in_order_move jobs s s' i p q : in_order jobs s -> delivered s' ++ hand s' ++ outQueue s' = delivered s ++ hand s ++ outQueue s ->
  enqueuers s !! i = Some p -> enqueuers s' = <[i := q]> (enqueuers s) -> held q ++ todo q = held p ++ todo p -> in_order jobs s'.
Proof.
  intros (log & Hl & Hf & Hn & Hj) E Hp He Hq. exists log. rewrite E, He, length_insert. repeat (split; [done|]). intros j r Hr.
  destruct (decide (i = j)) as [<-|Hne].
  - rewrite list_lookup_insert_eq in Hr by by eapply lookup_lt_Some. injection Hr as <-. rewrite Hq. by apply Hj.
  - rewrite list_lookup_insert_ne in Hr by done. by apply Hj.
Qed.
Lemma signal_order s : delivered (signal s) ++ hand (signal s) ++ outQueue (signal s) = delivered s ++ hand s ++ outQueue s.
Proof. unfold signal, hand. by destruct (sender s) eqn:E; cbn; rewrite ?E. Qed.

Lemma enqueue_order jobs i p s : done s = false -> in_order jobs s -> enqueuers s !! i = Some p -> in_order jobs (enqueue_step i p s).
Proof.
  intros Hd Ho Hp. unfold enqueue_step. destruct p as [l pc]. destruct pc; cbn [epos todo].
  - destruct l as [|x l]; [done|]. rewrite Hd. by eapply (in_order_move _ s).
  - by eapply (in_order_move _ s).
  - destruct Ho as (log & Hl & Hf & Hn & Hj). exists (log ++ [(i, x)]). pose proof (lookup_lt_Some _ _ _ Hp) as Hlt.
    split; [cbn; by rewrite fmap_app, Hl, !app_assoc|]. split; [apply Forall_app; split; [done|]; constructor; [cbn; lia|done]|].
    split; [cbn; by rewrite length_insert|]. intros j r Hr. cbn in Hr. rewrite of_thread_snoc. destruct (decide (i = j)) as [<-|Hne].
    + rewrite list_lookup_insert_eq in Hr by done. injection Hr as <-. rewrite (Hj _ _ Hp). unfold held. cbn.
      destruct (count =? 1); by rewrite <- app_assoc.
    + rewrite list_lookup_insert_ne in Hr by done. rewrite app_nil_r. by apply Hj.
  - unfold lock. destruct (mutex s); [done|]. by eapply (in_order_move _ s).
  - destruct (signal_frame s) as (He & _). eapply (in_order_move _ s); [done|apply signal_order|done|cbn; by rewrite He|done].
  - by eapply (in_order_move _ s).
Qed.
Lemma send_order jobs s : in_order jobs s -> in_order jobs (send_step s).
Proof.
  intros Ho. unfold send_step, lock.
  destruct (sender s) eqn:E; try done; repeat case_match; try done;
    (eapply (in_order_keep _ s); [done| |done]); unfold hand; cbn; rewrite ?E; rewrite <- ?app_assoc; cbn; congruence.
Qed.
Lemma step_order jobs e s : done s = false -> in_order jobs s -> in_order jobs (step e s).
Proof.
  intros Hd Ho. destruct e as [i| | |]; cbn [step]; [|by apply send_order| |].
  - destruct (enqueuers s !! i) as [p|] eqn:E; [by apply enqueue_order|done].
  - unfold stop_step, lock. destruct (signal_frame s) as (He & _).
    repeat case_match; try done; (eapply (in_order_keep _ s); [done| |done]); first [done|apply signal_order].
  - destruct (signal_frame s) as (He & _). apply (in_order_keep _ s); [done|apply signal_order|done].
Qed.

(** ** Runs in which nobody calls Stop *)
Definition own (e : event) : bool := match e with Enqueue _ | Send => true | Stop | Spurious => false end.
Lemma step_done e s : done s = true -> done (step e s) = true.
Proof.
  intros Hd. destruct (signal_frame s) as (_ & _ & _ & E & _). destruct e as [i| | |]; cbn [step]; [|..| |by rewrite E].
  - unfold enqueue_step, lock. repeat case_match; cbn; try done. by rewrite E.
  - unfold send_step, lock. by repeat case_match.
  - unfold stop_step, lock. repeat case_match; cbn; try done. by rewrite E.
Qed.
Lemma step_own e s : own e = true -> done s = false -> done (step e s) = false.
Proof.
  intros Ho Hd. destruct (signal_frame s) as (_ & _ & _ & E & _). destruct e as [i| | |]; cbn [step]; [| |done|done].
  - unfold enqueue_step, lock. repeat case_match; cbn; try done. by rewrite E.
  - unfold send_step, lock. by repeat case_match.
Qed.
Lemma step_exit e s : (sender s = S_exit -> done s = true) -> sender (step e s) = S_exit -> done (step e s) = true.
Proof.
  intros He Hx. assert (done s = true -> done (step e s) = true) as Hd by apply step_done.
  assert (sender s = S_exit \/ (sender s = S_while /\ done s = true)) as Hs; [|by destruct Hs as [?|[_ ?]]; auto].
  assert (sender (signal s) = S_exit -> sender s = S_exit) as Hsi by (unfold signal; by destruct (sender s) eqn:E; cbn; rewrite ?E).
  destruct e as [i| | |]; cbn [step] in Hx.
  - left. unfold enqueue_step, lock in Hx. repeat case_match; cbn in Hx; auto.
  - unfold send_step, lock in Hx. repeat case_match; cbn in Hx; try done; auto. all: left; congruence.
  - left. unfold stop_step, lock in Hx. repeat case_match; cbn in Hx; try done; auto; congruence.
  - left. auto.
Qed.
(** what holds of every state of a run *)
Record sound jobs s := mksound {
  sound_inv : inv s;
  sound_order : done s = false -> in_order jobs s;
  sound_exit : sender s = S_exit -> done s = true
}.
Lemma step_sound jobs e s : sound jobs s -> sound jobs (step e s).
Proof.
  intros [Hi Ho He]. split; [by apply step_inv| |by apply step_exit]. intros Hd.
  destruct (done s) eqn:E; [by rewrite (step_done e s E) in Hd|]. by apply step_order; auto.
Qed.
Lemma run_sound jobs es s : sound jobs s -> sound jobs (run es s).
Proof. revert s. induction es as [|e es IH]; intros s Hs; [done|]. by apply IH, step_sound. Qed.
Lemma started_sound jobs : Z.of_nat (length (concat jobs)) < 2 ^ 32 -> sound jobs (started jobs).
Proof.
  intros Hl. split; [by apply started_inv| |done]. intros _. exists []. split; [done|]. split; [done|]. split; [cbn; apply length_map|].
  intros i p. cbn. rewrite list_lookup_fmap. destruct (jobs !! i); [|done]. by intros [= <-].
Qed.
Lemma run_own jobs es s : forallb own es = true -> done s = false -> done (run es s) = false.
Proof.
  revert s. induction es as [|e es IH]; intros s; [done|]. cbn. intros [Ho Hes]%andb_prop Hd. by apply IH, step_own.
Qed.
Lemma run_app es es' s : run (es ++ es') s = run es' (run es s).
Proof. unfold run. by rewrite fold_left_app. Qed.

(** ** Everything can still be delivered *)
Definition reaches s (P : state A -> Prop) : Prop := exists es, forallb own es = true /\ P (run es s).
Lemma reaches_now s (P : state A -> Prop) : P s -> reaches s P.
Proof. intros H. by exists []. Qed.
Lemma reaches_step e s P : own e = true -> reaches (step e s) P -> reaches s P.
Proof. intros Ho (es & Hes & HP). exists (e :: es). split; [|done]. cbn. by rewrite Ho. Qed.
Lemma reaches_trans s P Q : reaches s P -> (forall s', P s' -> reaches s' Q) -> reaches s Q.
Proof.
  intros (es & Hes & HP) HQ. destruct (HQ _ HP) as (es' & Hes' & H). exists (es ++ es'). rewrite run_app, forallb_app, Hes, Hes'. by split.
Qed.
(** a state of a run without Stop *)
Definition live jobs s : Prop := sound jobs s /\ done s = false.
Lemma live_step jobs e s : own e = true -> live jobs s -> live jobs (step e s).
Proof. intros Ho [Hs Hd]. split; [by apply step_sound|by apply step_own]. Qed.

(** the steps the threads that enqueue have left to do *)
Definition weight p : nat := 6 * length (todo p) +
  match epos p with E_idle => 0 | E_unlock => 1 | E_signal => 2 | E_lock => 3 | E_produce _ _ => 4 | E_inc _ => 5 end.
Definition work s : nat := sum_list_with weight (enqueuers s).
Lemma work_insert s s' i p q : enqueuers s !! i = Some p -> enqueuers s' = <[i := q]> (enqueuers s) ->
  (weight q < weight p)%nat -> (work s' < work s)%nat.
Proof. intros Hp He Hw. unfold work. rewrite He. pose proof (sum_insert weight (enqueuers s) i p q Hp). lia. Qed.
Lemma enqueue_work i p s : enqueuers s !! i = Some p -> (0 < weight p)%nat -> (epos p = E_lock -> mutex s = None) ->
  (work (enqueue_step i p s) < work s)%nat.
Proof.
  intros Hp Hw Hl. destruct (signal_frame s) as (He & _). destruct p as [l pc]. unfold enqueue_step, lock. destruct pc; cbn [epos todo] in *.
  - destruct l as [|x l]; [cbn in Hw; lia|]. eapply (work_insert s); [done|done|]. destruct (done s); cbn; lia.
  - eapply (work_insert s); [done|done|cbn; lia].
  - eapply (work_insert s); [done|done|]. destruct (count =? 1); cbn; lia.
  - rewrite (Hl eq_refl). eapply (work_insert s); [done|done|cbn; lia].
  - eapply (work_insert s); [done|cbn; by rewrite He|cbn; lia].
  - eapply (work_insert s); [done|done|cbn; lia].
Qed.
Lemma work_send s : enqueuers (send_step s) = enqueuers s.
Proof. unfold send_step, lock. by repeat case_match. Qed.

Lemma live_run jobs es s : forallb own es = true -> live jobs s -> live jobs (run es s).
Proof. intros Ho [Hs Hd]. split; [by apply run_sound|by apply run_own]. Qed.

(** whoever has the mutex gives it back *)
Definition released jobs s s' : Prop := live jobs s' /\ mutex s' = None /\ (work s' <= work s)%nat.
Lemma enqueuer_releases jobs s i p : live jobs s -> enqueuers s !! i = Some p -> in_critical p = true -> reaches s (released jobs s).
Proof.
  intros Hs Hp Hc. assert (forall s p, live jobs s -> enqueuers s !! i = Some p -> epos p = E_unlock -> reaches s (released jobs s)) as Hu.
  { clear. intros s p Hs Hp E. exists [Enqueue i]. split; [done|]. split; [by apply live_run|]. cbn. rewrite Hp.
    split; [unfold enqueue_step; by rewrite E|]. apply Nat.lt_le_incl, enqueue_work; [done|unfold weight; rewrite E; lia|by rewrite E]. }
  unfold in_critical in Hc. destruct (epos p) eqn:E; try done; [|by eapply Hu].
  apply (reaches_step (Enqueue i)); [done|]. eapply (reaches_trans _ (released jobs (step (Enqueue i) s))).
  - apply (Hu _ (mkenqueuer (todo p) E_unlock)); [by apply live_step| |done]. cbn [step]. rewrite Hp. unfold enqueue_step. rewrite E.
    destruct (signal_frame s) as (He & _). cbn. rewrite He, list_lookup_insert_eq by by eapply lookup_lt_Some. done.
  - intros s' (Hl & Hm & Hw). apply reaches_now. split; [done|]. split; [done|]. cbn [step] in Hw. rewrite Hp in Hw.
    pose proof (enqueue_work i p s Hp ltac:(unfold weight; rewrite E; lia) ltac:(by rewrite E)). lia.
Qed.
Lemma sender_releases jobs s : live jobs s -> critical s Sender = true -> reaches s (released jobs s).
Proof.
  intros Hs Hc. assert (forall es, forallb own es = true -> mutex (run es s) = None -> enqueuers (run es s) = enqueuers s -> reaches s (released jobs s)) as Hr.
  { intros es Ho Hm He. exists es. split; [done|]. split; [by apply live_run|]. split; [done|]. unfold work. by rewrite He. }
  destruct Hs as [_ Hd]. destruct s as [q n d m se st en de]. cbn in Hd, Hc, Hr. subst d. destruct se; try done.
  - destruct (n =? 0) eqn:E; [apply (Hr [Send; Send; Send])|apply (Hr [Send; Send])]; cbn; rewrite ?E; done.
  - by apply (Hr [Send; Send]).
  - by apply (Hr [Send]).
  - by apply (Hr [Send]).
Qed.
Lemma mutex_released jobs s : live jobs s -> reaches s (released jobs s).
Proof.
  intros Hs. pose proof Hs as [[Hi _ _] Hd]. destruct (mutex s) as [t|] eqn:Em; [|by apply reaches_now].
  assert (critical s t = true) as Hc by by apply (inv_mutex s Hi).
  destruct t as [i| |]; [|by apply sender_releases|].
  - cbn in Hc. destruct (enqueuers s !! i) as [p|] eqn:Hp; [|done]. by eapply enqueuer_releases.
  - cbn in Hc. pose proof (inv_done s Hi) as E. rewrite Hd in E. by destruct (stopper s).
Qed.
(** the threads that enqueue finish *)
Definition finished s : Prop := Forall (fun p => todo p = [] /\ epos p = E_idle) (enqueuers s).
Lemma work_zero s : work s = 0%nat -> finished s.
Proof.
  unfold work, finished. induction (enqueuers s) as [|[l pc] ps IH]; [by constructor|]. cbn [sum_list_with]. intros H. constructor; [|apply IH; lia].
  assert (weight (mkenqueuer l pc) = 0%nat) as Hw by lia. unfold weight in Hw. destruct l, pc; cbn in Hw; try lia. done.
Qed.
Lemma enqueuers_finish jobs s : live jobs s -> reaches s (fun s' => live jobs s' /\ mutex s' = None /\ finished s').
Proof.
  remember (work s) as n eqn:En. revert s En. induction n as [n IH] using lt_wf_ind. intros s -> Hs.
  eapply reaches_trans; [by eapply mutex_released|]. intros s1 (Hs1 & Hm1 & Hw1).
  destruct (decide (work s1 = 0%nat)) as [E|Hne]; [apply reaches_now; split_and!; [done..|by apply work_zero]|].
  destruct (sum_pos weight (enqueuers s1)) as (i & p & Hp & Hw); [unfold work in Hne; lia|]. apply (reaches_step (Enqueue i)); [done|].
  apply (IH (work (step (Enqueue i) s1))); [|done|by apply live_step]. cbn [step]. rewrite Hp.
  pose proof (enqueue_work i p s1 Hp Hw (fun _ => Hm1)). lia.
Qed.

(** the sender empties the queue and sleeps *)
Definition delivered_all jobs (d : list A) : Prop := exists log,
  log.*2 = d /\ Forall (fun e => (fst e < length jobs)%nat) log /\ forall i l, jobs !! i = Some l -> of_thread i log = l.
Definition idle s : Prop := sender s = S_wait /\ outQueue s = [].
Definition settled jobs s : Prop := finished s /\ idle s /\ delivered_all jobs (delivered s).
Lemma finished_pending s : finished s -> sum_list_with pending (enqueuers s) = 0%nat.
Proof. unfold finished. induction 1 as [|p ps [_ E] _ IH]; [done|]. cbn [sum_list_with]. unfold pending at 1. by rewrite E. Qed.
Lemma finished_complete jobs s : in_order jobs s -> finished s -> idle s -> delivered_all jobs (delivered s).
Proof.
  intros (log & Hl & Hf & Hn & Hj) Hfi [Hs Hq]. exists log. unfold hand in Hl. rewrite Hs, Hq, !app_nil_r in Hl. split_and!; [done..|].
  intros i l Hi. destruct (lookup_lt_is_Some_2 (enqueuers s) i) as [p Hp]; [rewrite Hn; by eapply lookup_lt_Some|].
  pose proof (Hj _ _ Hp) as Hp'. unfold finished in Hfi. rewrite Forall_lookup in Hfi. destruct (Hfi _ _ Hp) as [Et Ee].
  unfold held in Hp'. rewrite Et, Ee, !app_nil_r in Hp'. congruence.
Qed.
(** a sender that sleeps when all is done has nothing to do *)
Lemma sleeping_idle s : inv s -> finished s -> sender s = S_wait -> idle s.
Proof.
  intros Hi Hf Hs. split; [done|]. destruct (outQueue s) as [|x l] eqn:Eq; [done|]. exfalso.
  destruct (inv_wake s Hi) as (i & p & Hp & Hsg); [unfold asleep; by rewrite Hs|unfold counted; rewrite Eq; cbn; lia|].
  unfold finished in Hf. rewrite Forall_lookup in Hf. destruct (Hf _ _ Hp) as [_ Ee]. unfold signals in Hsg. by rewrite Ee in Hsg.
Qed.
Lemma drains_now jobs s : live jobs s -> finished s -> mutex s = None -> sender s = S_while ->
  reaches s (fun s' => live jobs s' /\ finished s' /\ sender s' = S_wait).
Proof.
  remember (length (outQueue s)) as n eqn:En. revert s En. induction n as [|n IH]; intros s En Hs Hf Hm Hw.
  - exists [Send; Send; Send; Send; Send; Send]. split; [done|]. split; [by apply live_run|].
    pose proof (inv_count s (sound_inv _ _ (proj1 Hs))) as Hc. unfold counted, taken in Hc. rewrite (finished_pending s Hf), Hw, <- En in Hc.
    destruct Hs as [_ Hd]. destruct s as [q k d m se st en de]. cbn in *. subst. destruct q; [|done]. by split.
  - destruct (outQueue s) as [|x l] eqn:Eq; [done|]. eapply (reaches_trans _ (fun s' => s' = run [Send; Send; Send; Send] s)); [by exists [Send; Send; Send; Send]|].
    intros s' ->. apply IH; [| | | |].
    + destruct Hs as [_ Hd]. destruct s as [q k d m se st en de]. cbn in *. subst. cbn. injection En as ->. done.
    + by apply live_run.
    + destruct Hs as [_ Hd]. destruct s as [q k d m se st en de]. cbn in *. by subst.
    + destruct Hs as [_ Hd]. destruct s as [q k d m se st en de]. cbn in *. by subst.
    + destruct Hs as [_ Hd]. destruct s as [q k d m se st en de]. cbn in *. by subst.
Qed.
Lemma sender_settles jobs s : live jobs s -> finished s -> mutex s = None ->
  reaches s (fun s' => live jobs s' /\ finished s' /\ sender s' = S_wait).
Proof.
  intros Hs Hf Hm. 
  assert (forall es, forallb own es = true -> enqueuers (run es s) = enqueuers s -> mutex (run es s) = None -> sender (run es s) = S_while ->
    reaches s (fun s' => live jobs s' /\ finished s' /\ sender s' = S_wait)) as Hr.
  { intros es Ho He Hm' Hw. eapply (reaches_trans _ (fun s' => s' = run es s)); [by exists es|]. intros s' ->.
    apply drains_now; [by apply live_run|by unfold finished; rewrite He|done|done]. }
  assert (forall es, forallb own es = true -> enqueuers (run es s) = enqueuers s -> sender (run es s) = S_wait ->
    reaches s (fun s' => live jobs s' /\ finished s' /\ sender s' = S_wait)) as Hq.
  { intros es Ho He Hw. exists es. split; [done|]. split; [by apply live_run|]. by unfold finished; rewrite He. }
  assert (critical s Sender = false) as Hcr.
  { destruct (critical s Sender) eqn:E; [|done]. apply (inv_mutex s (sound_inv _ _ (proj1 Hs))) in E. congruence. }
  pose proof (sound_exit _ _ (proj1 Hs)) as Hx. destruct Hs as [[Hi _ _] Hd]. pose proof (inv_count s Hi) as Hc. unfold counted, taken in Hc. rewrite (finished_pending s Hf) in Hc.
  destruct s as [q k d m se st en de]. cbn in *. subst d m. destruct se; try done; try (by specialize (Hx eq_refl)).
  - by apply (Hr []).
  - destruct q as [|x q]; [|by apply (Hr [Send; Send; Send])]. apply (Hq [Send; Send; Send; Send; Send]); [done|..]; cbn; by rewrite Hc.
  - by apply (Hr [Send; Send]).
  - by apply (Hr [Send]).
  - destruct (k =? 0) eqn:E; [apply (Hq [Send; Send; Send; Send])|apply (Hr [Send; Send; Send])]; cbn; rewrite ?E; done.
  - by apply (Hq []).
  - destruct (k =? 0) eqn:E; [apply (Hq [Send; Send; Send; Send])|apply (Hr [Send; Send; Send])]; cbn; rewrite ?E; done.
Qed.
Lemma everything_settles jobs s : live jobs s -> reaches s (settled jobs).
Proof.
  intros Hs. eapply reaches_trans; [by apply enqueuers_finish|]. intros s1 (Hs1 & Hm1 & Hf1).
  eapply reaches_trans; [by apply (sender_settles jobs)|]. intros s2 (([Hi Ho _] & Hd) & Hf & Hw). apply reaches_now.
  pose proof (sleeping_idle _ Hi Hf Hw). split; [done|]. split; [done|]. apply finished_complete; auto.
Qed.

(** ** Theorems *)
(** Nothing is lost, doubled or reordered: until Stop is called, what was given
    to the callback, what the sender has in hand and what is in the queue are
    together, in each thread's order, what the threads have enqueued so far. *)
Theorem queue_in_order jobs es : let s := run es (started jobs) in
  Z.of_nat (length (concat jobs)) < 2 ^ 32 -> done s = false -> in_order jobs s.
Proof. intros s Hl Hd. by apply (sound_order jobs s (run_sound jobs es _ (started_sound jobs Hl))). Qed.

(** No wake-up is lost: when every thread has returned from its calls of Enqueue
    and the sender sleeps on the condition variable, the queue is empty and all that was
    enqueued has been delivered, each thread's requests in its order. *)
Theorem no_lost_wakeup jobs es : let s := run es (started jobs) in
  Z.of_nat (length (concat jobs)) < 2 ^ 32 -> done s = false -> finished s -> sender s = S_wait ->
  outQueue s = [] /\ delivered_all jobs (delivered s).
Proof.
  intros s Hl Hd Hf Hw. pose proof (run_sound jobs es _ (started_sound jobs Hl)) as [Hi Ho _]. fold s in Hi, Ho.
  pose proof (sleeping_idle s Hi Hf Hw) as Hid. split; [apply Hid|]. apply finished_complete; auto.
Qed.


(** ** Stop, and the next session *)
Lemma step_stopped e s : (stopper s = T_stopped -> sender s = S_exit) -> stopper (step e s) = T_stopped -> sender (step e s) = S_exit.
Proof.
  intros Hs. assert (stopper (signal s) = stopper s /\ (sender s = S_exit -> sender (signal s) = S_exit)) as [E1 E2].
  { unfold signal. by destruct (sender s) eqn:E; cbn; rewrite ?E. }
  destruct e as [i| | |]; cbn [step]; [|..|by rewrite E1; auto].
  - unfold enqueue_step, lock. repeat case_match; cbn; rewrite ?E1; auto.
  - unfold send_step, lock. repeat case_match; cbn; intros H'; auto; specialize (Hs H'); congruence.
  - unfold stop_step, lock. repeat case_match; cbn; try done; auto; congruence.
Qed.
Lemma run_stopped es s : (stopper s = T_stopped -> sender s = S_exit) -> stopper (run es s) = T_stopped -> sender (run es s) = S_exit.
Proof. revert s. induction es as [|e es IH]; intros s Hs; [done|]. apply IH. by apply step_stopped. Qed.
(** a sender that starts with a queue and no calls of Enqueue *)
Lemma start_drains (q d : list A) st en : Z.of_nat (length q) < 2 ^ 32 ->
  reaches (mkstate q (Z.of_nat (length q)) false None S_while st en d) (eq (mkstate [] 0 false None S_wait st en (d ++ q))).
Proof.
  revert d. induction q as [|x q IH]; intros d Hq.
  { exists [Send; Send; Send; Send; Send; Send]. by rewrite app_nil_r. }
  apply (reaches_trans _ (eq (mkstate q (Z.of_nat (length q)) false None S_while st en (d ++ [x])))).
  - exists [Send; Send; Send; Send]. split; [done|]. cbn -[Z.of_nat u32]. unfold deliver, set_sender. cbn -[Z.of_nat u32]. f_equal.
    cbn [length] in *. rewrite u32_small; [|unfold in_u32]; lia.
  - intros s' <-. replace (d ++ x :: q) with ((d ++ [x]) ++ q) by (by rewrite <- app_assoc). apply IH. cbn [length] in Hq. lia.
Qed.
(** What Stop leaves in the queue is not lost for good: when it has returned and no
    call of Enqueue is under way, the next session's sender delivers the rest in
    its order. *)
Theorem restart_delivers jobs es (q : sessions_queue A) : let s := run es (started jobs) in
  Z.of_nat (length (concat jobs)) < 2 ^ 32 -> BdSession_Stop (mkqueue true s) q -> finished (queue q) ->
  queueStarted q = false /\ exists es', forallb own es' = true /\
    let s' := run es' (queue (CreateSession_start q)) in
    idle s' /\ delivered s' = delivered (queue q) ++ outQueue (queue q).
Proof.
  intros s Hl Hq Hf. inversion Hq as [|s0 es0 Hst]; subst. split; [done|]. cbn [queue CreateSession_start queueStarted] in *.
  unfold s in *. rewrite <- run_app in *. set (s1 := run (es ++ es0) (started jobs)) in *.
  assert (inv s1) as Hi by (by apply sound_inv with jobs, run_sound, started_sound).
  assert (sender s1 = S_exit) as Hx by (by apply run_stopped).
  pose proof (inv_count s1 Hi) as Hc. pose proof (inv_load s1 Hi) as Hload. unfold load, counted, taken in Hc, Hload.
  rewrite Hx, (finished_pending s1 Hf) in Hc. rewrite Hx in Hload.
  unfold Start. rewrite Hc, Nat.add_0_r. cbn [Nat.add].
  destruct (start_drains (outQueue s1) (delivered s1) T_idle (enqueuers s1)) as (es' & Ho & E); [lia|].
  exists es'. split; [done|]. by rewrite <- E.
Qed.
End Runs.

(** two threads, one of them interrupted between counting its request and queueing it *)
Definition sample_jobs : list (list nat) := [[1; 2]; [3]]%nat.
Definition sample_events : list event := [Enqueue 0; Enqueue 0; Enqueue 1; Enqueue 1; Enqueue 1; Send; Send; Send; Send; Spurious; Send].
Lemma queue_in_order_witness : in_order sample_jobs (run sample_events (started sample_jobs)).
Proof. apply (queue_in_order sample_jobs sample_events); vm_compute; reflexivity. Defined.
Definition quiet_events : list event := repeat (Enqueue 0) 20 ++ repeat (Enqueue 1) 10 ++ repeat Send 40.
Lemma no_lost_wakeup_witness : outQueue (run quiet_events (started sample_jobs)) = [] /\ delivered_all sample_jobs (delivered (run quiet_events (started sample_jobs))).
Proof.
  apply (no_lost_wakeup sample_jobs quiet_events); [vm_compute; reflexivity..| |vm_compute; reflexivity].
  vm_compute. repeat constructor.
Defined.

Definition stop_events : list event := repeat (Enqueue 0) 9 ++ repeat Stop 4 ++ [Send; Stop; Enqueue 0].
Definition stopped_queue : sessions_queue nat := mkqueue false (run stop_events (started [[1; 2; 3]%nat])).
Lemma restart_delivers_witness : queueStarted stopped_queue = false /\ exists es', forallb own es' = true /\
  let s' := run es' (queue (CreateSession_start stopped_queue)) in
  idle s' /\ delivered s' = delivered (queue stopped_queue) ++ outQueue (queue stopped_queue).
Proof.
  apply (restart_delivers [[1; 2; 3]%nat] []).
  - vm_compute. reflexivity.
  - apply (stop_started (started [[1; 2; 3]%nat]) stop_events). vm_compute. reflexivity.
  - unfold finished. vm_compute. repeat constructor.
Defined.

(** what is in the queue when Stop is called is not delivered, although Enqueue said
    that it was taken, and Stop returns; what is enqueued later is dropped in the same way *)
Lemma stop_forgets : exists es, stopper (run es (started [[1; 2; 3]%nat])) = T_stopped /\
  delivered (run es (started [[1; 2; 3]%nat])) = [] /\ outQueue (run es (started [[1; 2; 3]%nat])) = [1; 2]%nat /\
  finished (run es (started [[1; 2; 3]%nat])).
Proof.
  exists stop_events.
  split_and!; [done..|]. unfold finished. vm_compute. repeat constructor.
Qed.
