(* ===== verification/Base64.v ===== *)
(** * Base64 (src/src/bdfs-lib/Base64Encoder.cpp)

    Characters and bytes are numbers below 256; [room] is the number of bytes at
    [target], which neither function looks at: a write beyond it is a fault. *)

From Stdlib Require Import ZArith Lia Bool Ascii String.
From stdpp Require Import base list.
From S2P Require Import Prelude.
Set Default Goal Selector "!".
Local Open Scope Z_scope.
Local Open Scope drive_scope.

Definition base64DecodeMap : list Z :=
  replicate 43 255 ++ [62; 255; 255; 255; 63] ++
  [52; 53; 54; 55; 56; 57; 58; 59; 60; 61] ++ replicate 7 255 ++
  [0; 1; 2; 3; 4; 5; 6; 7; 8; 9; 10; 11; 12; 13; 14; 15; 16; 17; 18; 19; 20; 21; 22; 23; 24; 25] ++ replicate 6 255 ++
  [26; 27; 28; 29; 30; 31; 32; 33; 34; 35; 36; 37; 38; 39; 40; 41; 42; 43; 44; 45; 46; 47; 48; 49; 50; 51] ++
  replicate 5 255 ++ replicate 128 255.
Definition base64EncodeMap : list Z :=
  bytes_of_string "ABCDEFGHIJKLMNOPQRSTUVWXYZabcdefghijklmnopqrstuvwxyz0123456789+/".

Definition GetEncodedLength (length : Z) : Z := u64 (4 * (u64 (length + 2) / 3)).
Definition GetDecodedLength (length : Z) : Z := u64 (3 * (u64 (length + 3) / 4)).

(** [base64DecodeMap[(unsigned int)c]]: a [char] is signed, so one above 127
    becomes an index near 2^32 *)
Definition decode_char (c : Z) : outcome Z :=
  let idx := u32 (to_signed 1 c) in
  if idx <? 256 then Ok (nth (Z.to_nat idx) base64DecodeMap 255) else Fault OutOfBounds.
Definition encode_char (i : Z) : Z := nth (Z.to_nat i) base64EncodeMap 0.

Section Room.
Context (room : Z).
(** [*targetPtr++ = b] *)
Definition push (b : Z) (out : list Z) : outcome (list Z) :=
  if zlen out <? room then Ok (out ++ [u8 b]) else Fault OutOfBounds.

(** one of the inner loops: the next value, where the source is, and whether the
    loop's body returned *)
Fixpoint scan (b : Z) (source : list Z) : outcome (Z * list Z * bool) :=
  match source with
  | [] => Ok (b, [], false)
  | c :: source =>
      obind (decode_char c) (fun v =>
        if v =? 255 then match source with [] => Ok (v, [], true) | _ => scan v source end
        else Ok (v, source, false))
  end.

Definition byte1 (b1 b2 : Z) : Z := Z.lor (Z.shiftl b1 2) (Z.shiftr b2 4).
Definition byte2 (b2 b3 : Z) : Z := Z.lor (Z.shiftl b2 4) (Z.shiftr b3 2).
Definition byte3 (b3 b4 : Z) : Z := Z.lor (Z.shiftl b3 6) b4.

Fixpoint decode_loop (fuel : nat) (source : list Z) (b1 b2 b3 b4 : Z) (out : list Z) : outcome (list Z) :=
  match source, fuel with
  | [], _ => Ok out
  | _, O => OutOfFuel
  | _, S fuel =>
      obind (scan b1 source) (fun '(b1, source, returned) => if returned : bool then Ok out else
      obind (scan b2 source) (fun '(b2, source, returned) => if returned : bool then Ok out else
      obind (scan b3 source) (fun '(b3, source, returned) => if returned : bool then push (byte1 b1 b2) out else
      obind (scan b4 source) (fun '(b4, source, returned) =>
        if returned : bool then obind (push (byte1 b1 b2) out) (push (byte2 b2 b3)) else
        obind (push (byte1 b1 b2) out) (fun out =>
        obind (push (byte2 b2 b3) out) (fun out =>
        obind (push (byte3 b3 b4) out) (fun out =>
          decode_loop fuel source b1 b2 b3 b4 out)))))))
  end.
Definition Decode (source : list Z) : outcome (list Z) := decode_loop (length source) source 0 0 0 0 [].

Definition index1 (a : Z) : Z := Z.shiftr a 2.
Definition index2 (a b : Z) : Z := Z.lor (Z.shiftl (Z.land a 3) 4) (Z.shiftr b 4).
Definition index3 (b c : Z) : Z := Z.lor (Z.shiftl (Z.land b 15) 2) (Z.shiftr c 6).
Definition index4 (c : Z) : Z := Z.land c 63.

Fixpoint push_all (l : list Z) (out : list Z) : outcome (list Z) :=
  match l with [] => Ok out | b :: l => obind (push b out) (push_all l) end.
Fixpoint encode_loop (source : list Z) (out : list Z) : outcome (list Z) :=
  match source with
  | [] => Ok out
  | [a] => push_all [encode_char (index1 a); encode_char (index2 a 0); 61; 61] out
  | [a; b] => push_all [encode_char (index1 a); encode_char (index2 a b); encode_char (index3 b 0); 61] out
  | a :: b :: c :: source =>
      obind (push_all [encode_char (index1 a); encode_char (index2 a b); encode_char (index3 b c); encode_char (index4 c)] out)
        (encode_loop source)
  end.
Definition Encode (source : list Z) : outcome (list Z) := encode_loop source [].
End Room.

(** ** Checks over all values *)
Definition all_below (n : nat) (f : Z -> bool) : bool := forallb (fun i => f (Z.of_nat i)) (seq 0 n).
Lemma all_below_ok n f x : all_below n f = true -> 0 <= x < Z.of_nat n -> f x = true.
Proof.
  intros H Hx. apply forallb_forall with (x := Z.to_nat x) in H; [by rewrite Z2Nat.id in H by lia|].
  apply in_seq. lia.
Qed.

Lemma decode_encode_char i : 0 <= i < 64 -> decode_char (encode_char i) = Ok i /\ 0 <= encode_char i < 128.
Proof.
  intros Hi.
  pose proof (all_below_ok 64 (fun i => match decode_char (encode_char i) with Ok v => v =? i | _ => false end &&
    (0 <=? encode_char i) && (encode_char i <? 128)) i ltac:(vm_compute; reflexivity) Hi) as H. cbn beta in H.
  apply andb_true_iff in H as [[H H1]%andb_true_iff H2]. destruct (decode_char (encode_char i)); try done. split; [f_equal; lia|lia].
Qed.
Lemma byte1_ok a h : 0 <= a < 256 -> 0 <= h < 16 ->
  u8 (byte1 (index1 a) (Z.lor (Z.shiftl (Z.land a 3) 4) h)) = a.
Proof.
  intros Ha Hh. apply Z.eqb_eq.
  pose proof (all_below_ok 256 (fun a => all_below 16 (fun h => u8 (byte1 (index1 a) (Z.lor (Z.shiftl (Z.land a 3) 4) h)) =? a))
    a ltac:(vm_compute; reflexivity) Ha) as H. by apply (all_below_ok 16 _ h H).
Qed.
Lemma byte2_ok q b r : 0 <= q < 4 -> 0 <= b < 256 -> 0 <= r < 4 ->
  u8 (byte2 (Z.lor (Z.shiftl q 4) (Z.shiftr b 4)) (Z.lor (Z.shiftl (Z.land b 15) 2) r)) = b.
Proof.
  intros Hq Hb Hr. apply Z.eqb_eq.
  pose proof (all_below_ok 4 (fun q => all_below 256 (fun b => all_below 4 (fun r =>
    u8 (byte2 (Z.lor (Z.shiftl q 4) (Z.shiftr b 4)) (Z.lor (Z.shiftl (Z.land b 15) 2) r)) =? b)))
    q ltac:(vm_compute; reflexivity) Hq) as H.
  pose proof (all_below_ok 256 _ b H Hb) as H1. by apply (all_below_ok 4 _ r H1).
Qed.
Lemma byte3_ok p c : 0 <= p < 16 -> 0 <= c < 256 ->
  u8 (byte3 (Z.lor (Z.shiftl p 2) (Z.shiftr c 6)) (index4 c)) = c.
Proof.
  intros Hp Hc. apply Z.eqb_eq.
  pose proof (all_below_ok 16 (fun p => all_below 256 (fun c => u8 (byte3 (Z.lor (Z.shiftl p 2) (Z.shiftr c 6)) (index4 c)) =? c))
    p ltac:(vm_compute; reflexivity) Hp) as H. by apply (all_below_ok 256 _ c H).
Qed.
(** the ranges of the parts a byte is split into *)
Lemma split_ranges a : 0 <= a < 256 ->
  0 <= index1 a < 64 /\ 0 <= Z.land a 3 < 4 /\ 0 <= Z.shiftr a 4 < 16 /\ 0 <= Z.land a 15 < 16 /\
  0 <= Z.shiftr a 6 < 4 /\ 0 <= index4 a < 64.
Proof.
  intros Ha. unfold index1, index4.
  change 3 with (Z.ones 2). change 15 with (Z.ones 4). change 63 with (Z.ones 6).
  rewrite !Z.land_ones, !Z.shiftr_div_pow2 by lia. repeat split; try (apply Z.mod_pos_bound; lia);
    try (apply Z.div_pos; lia); try (apply Z.div_lt_upper_bound; lia).
Qed.
Lemma index2_range q h : 0 <= q < 4 -> 0 <= h < 16 -> 0 <= Z.lor (Z.shiftl q 4) h < 64.
Proof.
  intros Hq Hh.
  pose proof (all_below_ok 4 (fun q => all_below 16 (fun h => (0 <=? Z.lor (Z.shiftl q 4) h) && (Z.lor (Z.shiftl q 4) h <? 64)))
    q ltac:(vm_compute; reflexivity) Hq) as H.
  pose proof (all_below_ok 16 _ h H Hh) as [H1 H2]%andb_true_iff. lia.
Qed.
Lemma index3_range p r : 0 <= p < 16 -> 0 <= r < 4 -> 0 <= Z.lor (Z.shiftl p 2) r < 64.
Proof.
  intros Hp Hr.
  pose proof (all_below_ok 16 (fun p => all_below 4 (fun r => (0 <=? Z.lor (Z.shiftl p 2) r) && (Z.lor (Z.shiftl p 2) r <? 64)))
    p ltac:(vm_compute; reflexivity) Hp) as H.
  pose proof (all_below_ok 4 _ r H Hr) as [H1 H2]%andb_true_iff. lia.
Qed.

(** ** Encoding *)
Fixpoint encoded (source : list Z) : list Z :=
  match source with
  | [] => []
  | [a] => [encode_char (index1 a); encode_char (index2 a 0); 61; 61]
  | [a; b] => [encode_char (index1 a); encode_char (index2 a b); encode_char (index3 b 0); 61]
  | a :: b :: c :: source =>
      [encode_char (index1 a); encode_char (index2 a b); encode_char (index3 b c); encode_char (index4 c)] ++ encoded source
  end.
(** a list is empty, one or two bytes long, or a group of three and a rest *)
Lemma triples_ind (P : list Z -> Prop) : P [] -> (forall a, P [a]) -> (forall a b, P [a; b]) ->
  (forall a b c l, P l -> P (a :: b :: c :: l)) -> forall l, P l.
Proof.
  intros H0 H1 H2 H3 l. assert (P l /\ (forall x, P (x :: l)) /\ (forall x y, P (x :: y :: l))) as [H _]; [|done].
  induction l as [|a l (IH0 & IH1 & IH2)]; [done|]. split; [done|]. split; [done|]. intros x y. by apply H3.
Qed.
Lemma zlen_encoded source : zlen (encoded source) = 4 * ((zlen source + 2) / 3).
Proof.
  induction source as [| | |a b c l IH] using triples_ind; [done..|]. cbn [encoded].
  rewrite zlen_app, IH. unfold zlen. cbn [length]. rewrite !Nat2Z.inj_succ.
  replace (Z.succ (Z.succ (Z.succ (Z.of_nat (length l)))) + 2) with (Z.of_nat (length l) + 2 + 1 * 3) by lia.
  rewrite Z.div_add by lia. lia.
Qed.
Lemma push_ok room b out : zlen out < room -> push room b out = Ok (out ++ [u8 b]).
Proof. intros H. unfold push. by rewrite (proj2 (Z.ltb_lt _ _) H). Qed.
Lemma zlen_one (b : Z) : zlen [b] = 1. Proof. done. Qed.
Ltac room := rewrite ?zlen_app, ?zlen_one; lia.
Lemma push_all_ok room l : forall out, Forall (fun b => 0 <= b < 256) l -> zlen out + zlen l <= room ->
  push_all room l out = Ok (out ++ l).
Proof.
  induction l as [|b l IH]; intros out Hl Hr; [by rewrite app_nil_r|]. apply Forall_cons in Hl as [Hb Hl].
  unfold zlen in Hr. cbn [length] in Hr. cbn [push_all]. rewrite push_ok by (unfold zlen; lia). cbn.
  rewrite IH; [|done|unfold zlen in *; rewrite length_app; cbn; lia].
  unfold u8. by rewrite Z.mod_small, <- app_assoc by lia.
Qed.
Lemma is_char i : 0 <= i < 64 -> 0 <= encode_char i < 256.
Proof. intros Hi. destruct (decode_encode_char i Hi). lia. Qed.
(** the four indices of a group *)
Lemma indices a b c : is_byte a -> is_byte b -> is_byte c ->
  0 <= index1 a < 64 /\ 0 <= index2 a b < 64 /\ 0 <= index3 b c < 64 /\ 0 <= index4 c < 64.
Proof.
  intros Ha Hb Hc. destruct (split_ranges a Ha) as (H1 & H2 & _).
  destruct (split_ranges b Hb) as (_ & _ & H3 & H4 & _). destruct (split_ranges c Hc) as (_ & _ & _ & _ & H5 & H6).
  split; [done|]. split; [by apply index2_range|]. split; [by apply index3_range|done].
Qed.
Lemma is_byte_0 : is_byte 0. Proof. done. Qed.
Lemma group_bytes a b c : is_byte a -> is_byte b -> is_byte c ->
  Forall (fun b => 0 <= b < 256) [encode_char (index1 a); encode_char (index2 a b); encode_char (index3 b c); encode_char (index4 c)].
Proof. intros Ha Hb Hc. destruct (indices a b c) as (H1 & H2 & H3 & H4); [done..|]. repeat constructor; by apply is_char. Qed.
Lemma encode_loop_ok room source : forall out, Forall is_byte source ->
  zlen out + zlen (encoded source) <= room -> encode_loop room source out = Ok (out ++ encoded source).
Proof.
  induction source as [|a|a b|a b c l IH] using triples_ind; intros out Hs Hr; [by rewrite app_nil_r|..]; cbn [encoded encode_loop] in *.
  - apply Forall_cons in Hs as [Ha _]. apply push_all_ok; [|done].
    pose proof (group_bytes a 0 0 Ha is_byte_0 is_byte_0) as H. by rewrite !Forall_cons in *; intuition.
  - apply Forall_cons in Hs as [Ha [Hb _]%Forall_cons]. apply push_all_ok; [|done].
    pose proof (group_bytes a b 0 Ha Hb is_byte_0) as H. by rewrite !Forall_cons in *; intuition.
  - apply Forall_cons in Hs as [Ha [Hb [Hc Hl]%Forall_cons]%Forall_cons]. rewrite zlen_app in Hr. pose proof (zlen_nonneg (encoded l)).
    rewrite push_all_ok; [|by apply group_bytes|lia]. cbn [obind].
    rewrite IH; [|done|rewrite zlen_app; lia]. by rewrite <- app_assoc.
Qed.

(** ** Decoding *)
Lemma scan_char b i rest : 0 <= i < 64 -> scan b (encode_char i :: rest) = Ok (i, rest, false).
Proof.
  intros Hi. cbn [scan]. rewrite (proj1 (decode_encode_char i Hi)). cbn [obind]. by destruct (Z.eqb_spec i 255); [lia|].
Qed.
Lemma scan_pads b : scan b [61; 61] = Ok (255, [], true) /\ scan b [61] = Ok (255, [], true).
Proof. done. Qed.
Lemma decode_loop_encoded room source : forall fuel b1 b2 b3 b4 out, Forall is_byte source ->
  (length (encoded source) <= fuel)%nat -> zlen out + zlen (encoded source) / 4 * 3 <= room ->
  decode_loop room fuel (encoded source) b1 b2 b3 b4 out = Ok (out ++ source).
Proof.
  induction source as [|a|a b|a b c l IH] using triples_ind; intros fuel b1 b2 b3 b4 out Hs Hf Hr.
  { destruct fuel; cbn; by rewrite app_nil_r. }
  - apply Forall_cons in Hs as [Ha _]. destruct (indices a 0 0 Ha is_byte_0 is_byte_0) as (H1 & H2 & _).
    destruct (split_ranges 0 is_byte_0) as (_ & _ & H0 & _).
    destruct fuel as [|fuel]; [cbn in Hf; lia|]. cbn [encoded decode_loop]. rewrite !scan_char by done. cbn [obind].
    rewrite !scan_char by done. cbn [obind]. rewrite (proj1 (scan_pads _)). cbn [obind].
    change (zlen _ / 4 * 3) with 3 in Hr. rewrite push_ok by lia. unfold index2. by rewrite byte1_ok.
  - apply Forall_cons in Hs as [Ha [Hb _]%Forall_cons]. destruct (indices a b 0 Ha Hb is_byte_0) as (H1 & H2 & H3 & _).
    destruct (split_ranges a Ha) as (_ & Hq & _). destruct (split_ranges b Hb) as (_ & _ & Hh & _).
    destruct fuel as [|fuel]; [cbn in Hf; lia|]. cbn [encoded decode_loop]. rewrite scan_char by done. cbn [obind].
    rewrite scan_char by done. cbn [obind]. rewrite scan_char by done. cbn [obind]. rewrite (proj2 (scan_pads _)). cbn [obind].
    change (zlen _ / 4 * 3) with 3 in Hr. rewrite push_ok by lia. cbn [obind]. rewrite push_ok by room.
    unfold index2, index3. change (Z.shiftr 0 6) with 0. rewrite byte1_ok, byte2_ok, <- app_assoc by (done || lia). done.
  - apply Forall_cons in Hs as [Ha [Hb [Hc Hl]%Forall_cons]%Forall_cons].
    destruct (indices a b c Ha Hb Hc) as (H1 & H2 & H3 & H4). destruct (split_ranges a Ha) as (_ & Hq & _).
    destruct (split_ranges b Hb) as (_ & _ & Hh & Hp & _). destruct (split_ranges c Hc) as (_ & _ & _ & _ & Hr6 & _).
    destruct fuel as [|fuel]; [cbn in Hf; lia|]. cbn [encoded app decode_loop]. cbn [encoded app length] in Hf.
    do 4 (rewrite scan_char by done; cbn [obind]).
    cbn [encoded] in Hr. rewrite zlen_app in Hr. change (zlen [_; _; _; _]) with (1 * 4) in Hr.
    rewrite Z.div_add_l in Hr by lia. pose proof (Z.div_pos _ 4 (zlen_nonneg (encoded l)) ltac:(lia)).
    do 3 (rewrite push_ok by room; cbn [obind]).
    unfold index2, index3. rewrite byte1_ok, byte2_ok, byte3_ok by done.
    rewrite IH; [|done|lia|room]. by rewrite <- !app_assoc.
Qed.

Definition base64_char (c : Z) : Prop := c = 61 \/ In c base64EncodeMap.
Lemma encode_base64_char i : 0 <= i < 64 -> base64_char (encode_char i).
Proof. intros Hi. right. apply nth_In. change (length base64EncodeMap) with 64%nat. lia. Qed.
Lemma encoded_chars source : Forall is_byte source -> Forall base64_char (encoded source).
Proof.
  induction source as [|a|a b|a b c l IH] using triples_ind; intros Hs; cbn [encoded app]; [constructor|..];
    repeat (apply Forall_cons in Hs as [? Hs]).
  - destruct (indices a 0 0) as (I1 & I2 & _); [done..|]. rewrite !Forall_cons. intuition (by apply encode_base64_char || by left).
  - destruct (indices a b 0) as (I1 & I2 & I3 & _); [done..|]. rewrite !Forall_cons. intuition (by apply encode_base64_char || by left).
  - destruct (indices a b c) as (I1 & I2 & I3 & I4); [done..|]. rewrite !Forall_cons. intuition (by apply encode_base64_char).
Qed.
Lemma encoded_length source : zlen source < 2 ^ 61 -> GetEncodedLength (zlen source) = zlen (encoded source).
Proof.
  intros H. pose proof (zlen_nonneg source). rewrite zlen_encoded. unfold GetEncodedLength.
  pose proof (Z.div_pos (zlen source + 2) 3). pose proof (Z.mul_div_le (zlen source + 2) 3).
  rewrite (u64_small (zlen source + 2)) by (unfold in_u64; lia). apply u64_small. unfold in_u64. lia.
Qed.
Lemma decoded_length n : 0 <= n < 2 ^ 63 -> GetDecodedLength n = 3 * ((n + 3) / 4).
Proof.
  intros H. unfold GetDecodedLength. pose proof (Z.div_pos (n + 3) 4). pose proof (Z.mul_div_le (n + 3) 4).
  rewrite (u64_small (n + 3)) by (unfold in_u64; lia). apply u64_small. unfold in_u64. lia.
Qed.

(** What Encode writes fits the length its caller computes, is Base64, and
    Decode turns it back into the bytes, within the buffer its caller makes. *)
Theorem base64_roundtrip (source : list Z) : Forall is_byte source -> zlen source < 2 ^ 61 ->
  exists text, Encode (GetEncodedLength (zlen source)) source = Ok text /\
    zlen text = GetEncodedLength (zlen source) /\ Forall base64_char text /\
    Decode (GetDecodedLength (zlen text)) text = Ok source.
Proof.
  intros Hs Hlen. pose proof (zlen_nonneg source). exists (encoded source). rewrite encoded_length by done.
  split; [by apply encode_loop_ok|]. split; [done|]. split; [by apply encoded_chars|].
  pose proof (zlen_encoded source) as Hz. pose proof (Z.div_pos (zlen source + 2) 3). pose proof (Z.mul_div_le (zlen source + 2) 3).
  rewrite decoded_length by lia. unfold Decode. apply (decode_loop_encoded _ source _ 0 0 0 0 []); [done|done|].
  rewrite Hz. set (m := (zlen source + 2) / 3). rewrite (Z.mul_comm 4 m), Z.div_mul, Z.div_add_l by lia. change (zlen (@nil Z)) with 0. change (3 / 4) with 0. lia.
Qed.

(** ** Any text *)
Abbreviation ascii_text := (Forall (fun c => 0 <= c < 128)).
Lemma decode_char_ascii c : 0 <= c < 128 -> exists v, decode_char c = Ok v.
Proof.
  intros Hc. pose proof (all_below_ok 128 (fun c => match decode_char c with Ok _ => true | _ => false end)
    c ltac:(vm_compute; reflexivity) Hc) as H. cbn beta in H. destruct (decode_char c) as [v| |]; [by exists v|done..].
Qed.
Lemma scan_ascii source : forall b, ascii_text source ->
  exists b' rest returned, scan b source = Ok (b', rest, returned) /\ ascii_text rest /\
    (length rest <= pred (length source))%nat.
Proof.
  induction source as [|c source IH]; intros b Hs; [do 3 eexists; split; [done|]; by split|].
  apply Forall_cons in Hs as [Hc Hs]. destruct (decode_char_ascii c Hc) as [v Hv]. cbn [scan]. rewrite Hv. cbn [obind].
  destruct (v =? 255); [|do 3 eexists; split; [done|]; by split]. destruct source as [|d source]; [do 3 eexists; split; [done|]; by split|].
  destruct (IH v Hs) as (b' & rest & r & -> & Hr & Hl). do 3 eexists. split; [done|]. split; [done|]. cbn [length] in *. lia.
Qed.
Lemma decode_loop_ascii room fuel : forall source b1 b2 b3 b4 out, ascii_text source -> (length source <= fuel)%nat ->
  zlen out + 3 * ((zlen source + 3) / 4) <= room ->
  exists bytes, decode_loop room fuel source b1 b2 b3 b4 out = Ok bytes /\ zlen bytes <= room.
Proof.
  induction fuel as [|fuel IH]; intros source b1 b2 b3 b4 out Hs Hf Hr;
    (assert (zlen out <= room) as Hout by (pose proof (Z.div_pos (zlen source + 3) 4); pose proof (zlen_nonneg source); lia)).
  { destruct source; [|cbn in Hf; lia]. by exists out. }
  destruct source as [|c source]; [by exists out|].
  assert (zlen out + 3 <= room) as Hroom.
  { unfold zlen in *; cbn [length] in *. 
    assert (1 <= (Z.of_nat (S (length source)) + 3) / 4) by (apply Z.div_le_lower_bound; lia). lia. }
  cbn [decode_loop]. destruct (scan_ascii (c :: source) b1 Hs) as (v1 & s1 & r1 & -> & H1 & L1). cbn [obind].
  destruct r1; [exists out; split; [done|lia]|].
  destruct (scan_ascii s1 b2 H1) as (v2 & s2 & r2 & -> & H2 & L2). cbn [obind].
  destruct r2; [exists out; split; [done|lia]|].
  destruct (scan_ascii s2 b3 H2) as (v3 & s3 & r3 & -> & H3 & L3). cbn [obind].
  destruct r3; [rewrite push_ok by lia; eexists; split; [done|]; room|].
  destruct (scan_ascii s3 b4 H3) as (v4 & s4 & r4 & -> & H4 & L4). cbn [obind].
  rewrite push_ok by lia. cbn [obind]. rewrite push_ok by room. cbn [obind].
  destruct r4; [eexists; split; [done|]; room|].
  rewrite push_ok by room. cbn [obind]. apply IH; [done|cbn [length] in *; lia|].
  rewrite !zlen_app, !zlen_one. unfold zlen in *. cbn [length] in *.
  destruct (decide (length source < 4)%nat).
  - assert (length s4 = 0%nat) as -> by lia. change ((Z.of_nat 0 + 3) / 4) with 0. lia.
  - assert ((Z.of_nat (length s4) + 3) / 4 <= (Z.of_nat (length source) + 1 - 4 + 3) / 4) as Hd by (apply Z.div_le_mono; lia).
    replace (Z.of_nat (S (length source)) + 3) with (Z.of_nat (length source) + 1 - 4 + 3 + 1 * 4) in Hr by lia.
    rewrite Z.div_add in Hr by lia. lia.
Qed.

(** [C40] Decode returns on every ASCII text, padded or not, and never writes past
    the buffer of GetDecodedLength bytes its caller makes, whose size it does not
    look at. *)
Theorem base64_decode_bounds (text : list Z) : ascii_text text -> zlen text < 2 ^ 63 ->
  exists bytes, Decode (GetDecodedLength (zlen text)) text = Ok bytes /\ zlen bytes <= GetDecodedLength (zlen text).
Proof.
  intros Ht Hl. rewrite decoded_length by (pose proof (zlen_nonneg text); lia). unfold Decode.
  apply decode_loop_ascii; [done|done|]. apply Z.le_refl.
Qed.

(** a character above 127 reads outside the table *)
Lemma base64_decode_high_char room c rest : 128 <= c < 256 -> Decode room (c :: rest) = Fault OutOfBounds.
Proof.
  intros Hc. assert (decode_char c = Fault OutOfBounds) as E; [|unfold Decode; cbn [length decode_loop scan]; by rewrite E].
  pose proof (all_below_ok 128 (fun c => match decode_char (c + 128) with Fault OutOfBounds => true | _ => false end)
    (c - 128) ltac:(vm_compute; reflexivity) ltac:(lia)) as H. cbn beta in H. rewrite Z.sub_add in H.
  by destruct (decode_char c) as [|[]|].
Qed.
(** a text cut short, "QQ" for "QQ==", decodes to three bytes for one *)
Lemma base64_decode_unpadded : Decode 3 (bytes_of_string "QQ==") = Ok [65] /\ Decode 3 (bytes_of_string "QQ") = Ok [65; 0; 0].
Proof. split; reflexivity. Qed.

Lemma base64_roundtrip_witness : exists text, Encode (GetEncodedLength 4) [1; 2; 255; 254] = Ok text /\ zlen text = GetEncodedLength 4 /\
  Forall base64_char text /\ Decode (GetDecodedLength (zlen text)) text = Ok [1; 2; 255; 254].
Proof.
  apply (base64_roundtrip [1; 2; 255; 254]); [|reflexivity].
  repeat (apply List.Forall_cons; [split; [discriminate|reflexivity]|]). apply List.Forall_nil.
Defined.
Lemma base64_decode_bounds_witness : exists bytes, Decode (GetDecodedLength 3) [81; 61; 81] = Ok bytes /\ zlen bytes <= GetDecodedLength 3.
Proof.
  apply (base64_decode_bounds [81; 61; 81]); [|reflexivity].
  repeat (apply List.Forall_cons; [split; [discriminate|reflexivity]|]). apply List.Forall_nil.
Defined.
