(* ===== verification/Relays.v ===== *)
(** * Relays (src/src/bdfs-lib/RelayInfo.h and HostInfo.cpp)

    The JSON a host publishes of itself and its relays, and how it is read back. *)

From Stdlib Require Import ZArith Lia Bool Ascii String.
From stdpp Require Import base list strings pretty.
From S2P Require Import Prelude Json HostHandler HostClient.
Set Default Goal Selector "!".
Local Open Scope Z_scope.
Local Open Scope drive_scope.

(** ** RelayInfo and HostInfo *)
Record Endpoint := mkendpoint { host : string; socksPort : Z; quicPort : Z }.
Record RelayInfo := mkrelay { rname : string; endpoints : list Endpoint }.
Record HostInfo := mkhost { url : string; relays : list RelayInfo }.

Definition endpoint_json (ep : Endpoint) : json :=
  JObject [("host", JString (host ep)); ("quic", JInt (quicPort ep)); ("socks", JInt (socksPort ep))]%string.
Definition relay_json (relay : RelayInfo) : json :=
  JObject [("endpoints", JArray (map endpoint_json (endpoints relay))); ("name", JString (rname relay))]%string.
(** HostInfo::ToString, before the writer *)
Definition host_json (h : HostInfo) : json :=
  JObject [("relays", JArray (map relay_json (relays h))); ("url", JString (url h))]%string.

(** HostInfo::FromString, after the reader: a port that is no number stays 0 *)
Definition port_of (v : json) : outcome Z :=
  if isIntegral v then obind (asUInt v) (fun n => Ok (u16 n)) else Ok 0.
Fixpoint read_endpoints (l : list json) (acc : list Endpoint) : outcome (list Endpoint) :=
  match l with
  | [] => Ok acc
  | epObj :: l =>
      obind (index epObj "host") (fun h =>
        match h with
        | JString s =>
            obind (index epObj "socks") (fun socks => obind (port_of socks) (fun socks =>
            obind (index epObj "quic") (fun quic => obind (port_of quic) (fun quic =>
              read_endpoints l (acc ++ [mkendpoint s socks quic])))))
        | _ => read_endpoints l acc
        end)
  end.
Fixpoint read_relays (l : list json) (acc : list RelayInfo) : outcome (list RelayInfo) :=
  match l with
  | [] => Ok acc
  | relayObj :: l =>
      obind (index relayObj "name") (fun nm => obind (index relayObj "endpoints") (fun eps =>
        match nm with
        | JString s =>
            if isArray eps
            then obind (read_endpoints (elements eps) []) (fun eps => read_relays l (acc ++ [mkrelay s eps]))
            else read_relays l acc
        | _ => read_relays l acc
        end))
  end.
Definition FromJson (obj : option json) (this : HostInfo) : outcome (bool * HostInfo) :=
  match obj with
  | Some (JObject l) =>
      match member (JObject l) "url" with
      | JString u =>
          let this := mkhost u (relays this) in
          if negb (isArray (member (JObject l) "relays")) then Ok (true, this)
          else obind (read_relays (elements (member (JObject l) "relays")) (relays this)) (fun rs =>
                 Ok (true, mkhost u rs))
      | _ => Ok (false, this)
      end
  | _ => Ok (false, this)
  end.

(** ports fit their 16 bits *)
Definition port_ok (n : Z) : Prop := 0 <= n < 2 ^ 16.
Definition relay_ok (r : RelayInfo) : Prop := Forall (fun ep => port_ok (socksPort ep) /\ port_ok (quicPort ep)) (endpoints r).

Lemma port_of_ok n : port_ok n -> port_of (JInt n) = Ok n.
Proof.
  intros H. unfold port_ok in H. unfold port_of, asUInt. cbn [isIntegral]. destruct (Z.ltb_spec n 0); [lia|].
  cbn. unfold u16. by rewrite Z.mod_small.
Qed.
Lemma read_endpoints_ok eps : forall acc, Forall (fun ep => port_ok (socksPort ep) /\ port_ok (quicPort ep)) eps ->
  read_endpoints (map endpoint_json eps) acc = Ok (acc ++ eps).
Proof.
  induction eps as [|[h s k] eps IH]; intros acc Hf; [by rewrite app_nil_r|]. apply Forall_cons in Hf as [[Hs Hq] Hf].
  cbn [map endpoint_json host socksPort quicPort read_endpoints index member find fst snd obind].
  cbn -[port_of read_endpoints endpoint_json]. rewrite !port_of_ok by done. cbn [obind]. rewrite IH by done. by rewrite <- app_assoc.
Qed.
Lemma read_relays_ok rs : forall acc, Forall relay_ok rs -> read_relays (map relay_json rs) acc = Ok (acc ++ rs).
Proof.
  induction rs as [|[n eps] rs IH]; intros acc Hf; [by rewrite app_nil_r|]. apply Forall_cons in Hf as [Hr Hf].
  cbn -[read_endpoints read_relays relay_json]. cbn -[read_endpoints endpoint_json].
  rewrite read_endpoints_ok by done. cbn [obind app]. rewrite IH by done. by rewrite <- app_assoc.
Qed.
Lemma FromJson_host_json h : Forall relay_ok (relays h) -> FromJson (Some (host_json h)) (mkhost EmptyString []) = Ok (true, h).
Proof.
  intros Hr. destruct h as [u rs]. cbn -[read_relays relay_json]. by rewrite read_relays_ok.
Qed.
