(* ===== verification/RelayLoop.v ===== *)
(** * Requests through relays (src/src/bdfs-lib/HttpRequest.cpp, HttpConfig.h)

    Which proxies and addresses a request tries, in which order, and when it stops.
    The exchange itself is libcurl's: [curl n a] is the code of the [n]-th attempt
    [a] of a run, None when curl_easy_init fails. *)

From Stdlib Require Import ZArith Lia Bool Ascii String.
From stdpp Require Import base list strings pretty.
From S2P Require Import Prelude Json HostHandler HostClient Relays.
Set Default Goal Selector "!".
Local Open Scope Z_scope.
Local Open Scope drive_scope.

(** ** replaceHostInUrl *)
(** [url.find_first_of(":/?", start)] *)
Fixpoint find_first_of (cs : list ascii) (s : string) (pos : nat) : option nat :=
  match s with
  | EmptyString => None
  | String c s => if existsb (Ascii.eqb c) cs then Some pos else find_first_of cs s (S pos)
  end.
Definition replaceHostInUrl (url host : string) : string :=
  match String.index 0 "://" url with
  | None => url
  | Some start =>
      let start := (start + 3)%nat in
      if (String.length url <=? start)%nat then url else
      match find_first_of [":"; "/"; "?"]%char (substr_from start url) start with
      | Some e => if Nat.eqb e (start + 1) then url else substring 0 start url +:+ host +:+ substr_from e url
      | None => substring 0 start url +:+ host
      end
  end.

(** ** The state of a run *)
(** the proxy and the address of an attempt *)
Record attempt := mkattempt { proxy : option string; target : string }.
Record config := mkconfig { crelays : list RelayInfo; activeRelay : Z; activeEndpoint : Z }.
Record http := mkhttp { cfg : config; attempts : list attempt; completed : list bool }.

Definition set_active (r e : Z) : M http unit :=
  modify (fun w => mkhttp (mkconfig (crelays (cfg w)) r e) (attempts w) (completed w)).
Definition complete (isError : bool) : M http unit :=
  modify (fun w => mkhttp (cfg w) (attempts w) (completed w ++ [isError])).
(** the size of a vector, as int *)
Definition int_size {A} (l : list A) : Z := to_signed 4 (zlen l).

Definition CURLE_OK : Z := 0.
(** the codes after which the next relay is tried: proxy or host not resolved, not
    connected, denied, timed out, not sent *)
Definition relay_failed (rtn : Z) : bool :=
  existsb (Z.eqb rtn) [5; 6; 7; 9; 28; 55].

Section Run.
Context (url : string) (curl : nat -> attempt -> option Z).

Definition active_endpoint (c : config) : option (RelayInfo * Endpoint) :=
  if (0 <=? activeRelay c) && (activeRelay c <? int_size (crelays c)) && (0 <=? activeEndpoint c) then
    match crelays c !! Z.to_nat (activeRelay c) with
    | Some r =>
        if activeEndpoint c <? int_size (endpoints r)
        then option_map (fun ep => (r, ep)) (endpoints r !! Z.to_nat (activeEndpoint c))
        else None
    | None => None
    end
  else None.
Definition attempt_of (c : config) : attempt :=
  match active_endpoint c with
  | Some (r, ep) =>
      if negb (empty_str (host ep)) && (0 <? socksPort ep)
      then mkattempt (Some ("socks5h://" +:+ host ep +:+ ":" +:+ pretty (Z.to_N (socksPort ep))))
             (if empty_str (rname r) then url else replaceHostInUrl url (rname r))
      else mkattempt None url
  | None => mkattempt None url
  end.

Definition ExecuteImpl : M http Z :=
  w <- get ;;
  let a := attempt_of (cfg w) in
  match curl (length (attempts w)) a with
  | None => complete true ;;; ret (-1)
  | Some rtn => put (mkhttp (cfg w) (attempts w ++ [a]) (completed w)) ;;; ret rtn
  end.

(** the do-while loop: the next relay that has endpoints *)
Fixpoint next_relay (fuel : nat) : M http unit :=
  match fuel with
  | O => nofuel
  | S fuel =>
      w <- get ;;
      let r := activeRelay (cfg w) + 1 in
      set_active r 0 ;;;
      if r <? int_size (crelays (cfg w))
      then match crelays (cfg w) !! Z.to_nat r with
           | Some x => if Nat.eqb (length (endpoints x)) 0 then next_relay fuel else ret tt
           | None => fail OutOfBounds
           end
      else ret tt
  end.
Definition advance : M http unit :=
  w <- get ;;
  let c := cfg w in
  last <- (if activeRelay c <? 0 then ret true
           else match crelays c !! Z.to_nat (activeRelay c) with
                | Some x => ret (int_size (endpoints x) - 1 <=? activeEndpoint c)
                | None => fail OutOfBounds
                end) ;;
  if last : bool then next_relay (S (length (crelays c)))
  else set_active (activeRelay c) (activeEndpoint c + 1).

Fixpoint execute_loop (fuel : nat) (tryingRelays : bool) (rtn : Z) : M http Z :=
  match fuel with
  | O => nofuel
  | S fuel =>
      w <- get ;;
      if activeRelay (cfg w) <? int_size (crelays (cfg w)) then
        rtn <- ExecuteImpl ;;
        if negb tryingRelays then ret rtn
        else if negb (relay_failed rtn) then ret rtn
        else advance ;;; execute_loop fuel tryingRelays rtn
      else ret rtn
  end.
Definition endpoint_count (rs : list RelayInfo) : nat := list_sum (map (fun r => length (endpoints r)) rs).
Definition Execute : M http unit :=
  w <- get ;;
  rtn <- (if int_size (crelays (cfg w)) <=? activeRelay (cfg w) then ExecuteImpl
          else execute_loop (S (S (endpoint_count (crelays (cfg w))))) (activeRelay (cfg w) <? 0) CURLE_OK) ;;
  complete (negb (rtn =? CURLE_OK)).
End Run.

#[local] Arguments relay_failed : simpl never.
#[local] Arguments attempt_of : simpl never.
#[local] Arguments advance : simpl never.

(** ** The order of the attempts *)
(** every endpoint of every relay, in order *)
Fixpoint all_from (r : nat) (rs : list RelayInfo) : list (Z * Z) :=
  match rs with
  | [] => []
  | x :: rs => map (fun e => (Z.of_nat r, Z.of_nat e)) (seq 0 (length (endpoints x))) ++ all_from (S r) rs
  end.

Section Order.
Context (url : string) (code : nat -> attempt -> Z) (rs : list RelayInfo).
Abbreviation at_pos p := (mkconfig rs (fst p) (snd p)).
(** one after the other, until one does not fail as a relay fails; when all do the
    position is past the end *)
Fixpoint try_all (n : nat) (ps : list (Z * Z)) (rtn : Z) : list attempt * Z * (Z * Z) :=
  match ps with
  | [] => ([], rtn, (zlen rs, 0))
  | p :: ps =>
      let a := attempt_of url (at_pos p) in
      let c := code n a in
      if relay_failed c then let '(t, c, q) := try_all (S n) ps c in (a :: t, c, q) else ([a], c, p)
  end.
Lemma try_all_length n ps rtn : (length (fst (fst (try_all n ps rtn))) <= length ps)%nat.
Proof.
  revert n rtn. induction ps as [|p ps IH]; intros n rtn; [done|]. cbn. destruct (relay_failed _); [|cbn; lia].
  specialize (IH (S n) (code n (attempt_of url (at_pos p)))).
  destruct (try_all (S n) ps (code n (attempt_of url (at_pos p)))) as [[t c] q]. cbn in *. lia.
Qed.

Lemma int_size_small {A} (l : list A) : zlen l < 2 ^ 31 -> int_size l = zlen l.
Proof.
  intros H. pose proof (zlen_nonneg l). unfold int_size, to_signed. change (2 ^ (8 * Z.of_nat 4)) with (2 ^ 32).
  rewrite Z.mod_small by lia. by rewrite (proj2 (Z.ltb_lt _ _)) by (change (2 ^ 32 / 2) with (2 ^ 31); lia).
Qed.
Lemma length_all_from r l : length (all_from r l) = endpoint_count l.
Proof.
  revert r. induction l as [|x l IH]; intros r; [done|]. cbn. rewrite length_app, length_map, length_seq, IH. done.
Qed.

Hypotheses (Hsize : zlen rs < 2 ^ 31) (Heps : Forall (fun r => zlen (endpoints r) < 2 ^ 31) rs).
Abbreviation run p att done := (mkhttp (at_pos p) att done).
Definition first_or (ps : list (Z * Z)) : Z * Z := match ps with p :: _ => p | [] => (zlen rs, 0) end.
(** [ps] is what is left after the position [p] *)
Definition rest_of (p : Z * Z) (ps : list (Z * Z)) : Prop :=
  (fst p = -1 /\ ps = all_from 0 rs) \/
  exists r e x, p = (Z.of_nat r, Z.of_nat e) /\ rs !! r = Some x /\ (e < length (endpoints x))%nat /\
    ps = map (fun e => (Z.of_nat r, Z.of_nat e)) (seq (S e) (length (endpoints x) - S e)) ++ all_from (S r) (drop (S r) rs).

Lemma drop_head r x l : drop r rs = x :: l -> rs !! r = Some x /\ drop (S r) rs = l.
Proof using.
  intros Hd. split; [by rewrite <- (Nat.add_0_r r), <- lookup_drop, Hd|].
  by rewrite <- Nat.add_1_r, <- drop_drop, Hd.
Qed.
Lemma rest_all_from l : forall r q ps, drop r rs = l -> all_from r l = q :: ps -> rest_of q ps.
Proof using.
  induction l as [|x l IH]; intros r q ps Hd Ha; [done|]. cbn in Ha.
  destruct (drop_head r x l Hd) as [Hx Hd'].
  destruct (length (endpoints x)) as [|k] eqn:Ek; cbn in Ha; [by apply (IH (S r))|].
  injection Ha as <- <-. right. exists r, 0%nat, x. split; [done|]. split; [done|]. rewrite Ek, Hd'. split; [lia|].
  by replace (S k - 1)%nat with k by lia.
Qed.
Lemma rest_next p q ps : rest_of p (q :: ps) -> rest_of q ps.
Proof using.
  intros [[_ Ha]|(r & e & x & -> & Hx & He & Hq)]; [by apply (rest_all_from rs 0)|].
  destruct (length (endpoints x) - S e)%nat as [|k] eqn:Ek; cbn in Hq; [by apply (rest_all_from (drop (S r) rs) (S r))|].
  injection Hq as Hq Hps. subst q ps. right. exists r, (S e), x. split; [done|]. split; [done|]. split; [lia|].
  by replace (length (endpoints x) - S (S e))%nat with k by lia.
Qed.
Lemma next_relay_ok l : forall r fuel e att done, drop r rs = l -> (length l < fuel)%nat -> (r <= length rs)%nat ->
  next_relay fuel (run (Z.of_nat r - 1, e) att done) = Ok (tt, run (first_or (all_from r l)) att done).
Proof using Hsize.
  induction l as [|x l IH]; intros r fuel e att dn Hd Hf Hr; (destruct fuel as [|fuel]; [cbn in Hf; lia|]).
  - assert (r = length rs) as -> by (apply (f_equal length) in Hd; rewrite length_drop in Hd; cbn in Hd; lia).
    cbn. unfold bind, get, set_active, modify, ret. cbn. rewrite Z.sub_add, int_size_small, Z.ltb_irrefl by done. done.
  - destruct (drop_head r x l Hd) as [Hx Hd'].
    apply lookup_lt_Some in Hx as Hlt.
    cbn. unfold bind, get, set_active, modify, ret. cbn. rewrite Z.sub_add, int_size_small by done.
    rewrite (proj2 (Z.ltb_lt _ _)) by (unfold zlen; lia). rewrite Nat2Z.id, Hx.
    destruct (length (endpoints x)) as [|k] eqn:Ek; [|done]. cbn [Nat.eqb seq map app].
    replace (Z.of_nat r) with (Z.of_nat (S r) - 1) by lia. apply IH; [done|cbn in Hf; lia|lia].
Qed.
#[local] Arguments next_relay : simpl never.
Lemma relay_advance_ok p ps att done : rest_of p ps ->
  advance (run p att done) = Ok (tt, run (first_or ps) att done).
Proof using Hsize Heps.
  unfold advance, bind, get, ret. cbn. intros [[-> ->]|(r & e & x & -> & Hx & He & ->)]; cbn.
  - apply (next_relay_ok rs 0); [done|lia|lia].
  - destruct (Z.ltb_spec (Z.of_nat r) 0); [lia|]. rewrite Nat2Z.id, Hx. cbn.
    assert (zlen (endpoints x) < 2 ^ 31) as Hs. { rewrite Forall_lookup in Heps. by apply (Heps r). }
    rewrite int_size_small by done. apply lookup_lt_Some in Hx as Hlt.
    destruct (Z.leb_spec (zlen (endpoints x) - 1) (Z.of_nat e)) as [Hle|Hgt].
    + assert (length (endpoints x) - S e = 0)%nat as -> by (unfold zlen in Hle; lia). cbn.
      replace (Z.of_nat r) with (Z.of_nat (S r) - 1) by lia.
      apply (next_relay_ok (drop (S r) rs) (S r)); [done|rewrite length_drop; lia|lia].
    + unfold zlen in Hgt. destruct (length (endpoints x) - S e)%nat as [|k] eqn:Ek; [lia|].
      cbn. unfold set_active, modify. cbn. do 4 f_equal. lia.
Qed.
Lemma rest_inside p ps : rest_of p ps -> fst p < zlen rs.
Proof using.
  intros [[-> _]|(r & e & x & -> & Hx & _)]; [pose proof (zlen_nonneg rs); lia|].
  apply lookup_lt_Some in Hx. cbn. unfold zlen. lia.
Qed.
Lemma execute_loop_ok ps : forall p fuel att done rtn, rest_of p ps -> (S (length ps) < fuel)%nat ->
  execute_loop url (fun n a => Some (code n a)) fuel true rtn (run p att done) =
    let '(t, c, q) := try_all (length att) (p :: ps) rtn in Ok (c, run q (att ++ t) done).
Proof using Hsize Heps.
  induction ps as [|q ps IH]; intros p fuel att dn rtn Hp Hf; (destruct fuel as [|fuel]; [lia|]);
    cbn [execute_loop]; unfold bind, get; cbn -[try_all execute_loop];
    rewrite int_size_small, (proj2 (Z.ltb_lt _ _)) by (done || by eapply rest_inside);
    unfold ExecuteImpl, bind, get, put, ret; cbn -[execute_loop];
    (destruct (relay_failed _) eqn:Ef; cbn -[execute_loop]; [|done]);
    rewrite (relay_advance_ok _ _ _ _ Hp); cbn -[execute_loop].
  - destruct fuel as [|fuel]; [cbn in Hf; lia|]. cbn. unfold bind, get, ret. cbn. by rewrite int_size_small, Z.ltb_irrefl by done.
  - rewrite IH; [|by eapply rest_next|cbn in *; lia]. rewrite length_app, Nat.add_1_r. cbn.
    destruct (relay_failed (code (S (length att)) _)); [|by rewrite <- app_assoc].
    destruct (try_all (S (S (length att))) ps _) as [[t c] q']. by rewrite <- app_assoc.
Qed.
End Order.

(** [C28] A request without a chosen relay ends: it goes directly first, then through
    each endpoint of each relay in order, at most once each, until an exchange does
    not fail as a relay fails; it completes once, with the result of the last
    exchange, and the relay that worked is kept for the requests to come. *)
Theorem execute_tries_in_order (url : string) (code : nat -> attempt -> Z) (rs : list RelayInfo) (e : Z) (done : list bool) :
  zlen rs < 2 ^ 31 -> Forall (fun r => zlen (endpoints r) < 2 ^ 31) rs ->
  exists trace rtn pos, try_all url code rs 0 ((-1, e) :: all_from 0 rs) CURLE_OK = (trace, rtn, pos) /\
    Execute url (fun n a => Some (code n a)) (mkhttp (mkconfig rs (-1) e) [] done) =
      Ok (tt, mkhttp (mkconfig rs (fst pos) (snd pos)) trace (done ++ [negb (rtn =? CURLE_OK)])) /\
    (length trace <= S (endpoint_count rs))%nat.
Proof.
  intros Hs He. destruct (try_all url code rs 0 ((-1, e) :: all_from 0 rs) CURLE_OK) as [[t c] q] eqn:Et.
  exists t, c, q. split; [done|]. split.
  - unfold Execute, bind, get. cbn -[execute_loop]. rewrite int_size_small by done.
    destruct (Z.leb_spec (zlen rs) (-1)); [pose proof (zlen_nonneg rs); lia|].
    rewrite (execute_loop_ok url code rs Hs He (all_from 0 rs) (-1, e)); [|by left|rewrite length_all_from; apply Nat.lt_succ_diag_r].
    cbn [length]. rewrite Et. done.
  - pose proof (try_all_length url code rs 0 ((-1, e) :: all_from 0 rs) CURLE_OK) as Hl. rewrite Et in Hl. cbn in Hl.
    by rewrite length_all_from in Hl.
Qed.
(** three attempts: directly, then both endpoints of the relay that has any *)
Definition sample_relays : list RelayInfo :=
  [mkrelay "empty" []; mkrelay "r" [mkendpoint "10.0.0.1" 1080 0; mkendpoint "10.0.0.2" 1081 0]].
Definition sample_code (n : nat) (a : attempt) : Z := if (n <? 2)%nat then 7 else 0.
Lemma execute_tries_in_order_witness : exists trace rtn pos,
  try_all "http://n/x" sample_code sample_relays 0 ((-1, -1) :: all_from 0 sample_relays) CURLE_OK = (trace, rtn, pos) /\
  Execute "http://n/x" (fun n a => Some (sample_code n a)) (mkhttp (mkconfig sample_relays (-1) (-1)) [] []) =
    Ok (tt, mkhttp (mkconfig sample_relays (fst pos) (snd pos)) trace ([] ++ [negb (rtn =? CURLE_OK)])) /\
  (length trace <= 3)%nat.
Proof.
  apply (execute_tries_in_order "http://n/x" sample_code sample_relays (-1) []); [reflexivity|].
  repeat (apply List.Forall_cons; [reflexivity|]). apply List.Forall_nil.
Defined.
Example sample_trace : try_all "http://node/x" sample_code sample_relays 0 ((-1, -1) :: all_from 0 sample_relays) CURLE_OK =
  ([mkattempt None "http://node/x"; mkattempt (Some "socks5h://10.0.0.1:1080") "http://r/x";
    mkattempt (Some "socks5h://10.0.0.2:1081") "http://r/x"], 0, (1, 1))%string.
Proof. vm_compute. reflexivity. Qed.

(** when curl_easy_init fails the callback runs twice, the second time on the
    buffer the first one deleted *)
Lemma init_failure_completes_twice url c dn : int_size (crelays c) <= activeRelay c ->
  Execute url (fun _ _ => None) (mkhttp c [] dn) = Ok (tt, mkhttp c [] ((dn ++ [true]) ++ [true])).
Proof. intros H. unfold Execute, bind, get. cbn. by rewrite (proj2 (Z.leb_le _ _)). Qed.
