(* ===== verification/HttpRequest.v ===== *)
(** * One request (src/src/bdfs-lib/HttpRequest.cpp)

    What an HttpRequest takes from its address, the options it gives libcurl, and what
    it does with the headers and the body that come back, over all the relays that
    [RelayLoop] has it try.  The exchange is libcurl's and a parameter. *)

From Stdlib Require Import ZArith Lia Bool Ascii String.
From stdpp Require Import base list strings.
From S2P Require Import Prelude StdMap HostHandler HttpParams Cookies Relays RelayLoop.
Set Default Goal Selector "!".
Local Open Scope Z_scope.
Local Open Scope drive_scope.

(** ** The constructor *)
(** [strchrnul], as an offset *)
Definition offset_of (c : ascii) (s : string) : nat := String.length (upto c s).
(** the domain and the path *)
Definition split_url (url : string) : string * string :=
  match String.index 0 "://" url with
  | None => (EmptyString, EmptyString)
  | Some start =>
      let s := substr_from (start + 3) url in
      let quest := offset_of "?" s in
      let hash := offset_of "#" s in
      let port := offset_of ":" s in
      let slash := offset_of "/" s in
      let slash := if (quest <? slash)%nat then quest else slash in
      let slash := if (hash <? slash)%nat then hash else slash in
      (substring 0 (if (port <? slash)%nat then port else slash) s, substring slash (Nat.min quest hash - slash) s)
  end.

(** ** Headers *)
(** memory from [ptr] on: what lies behind it is not known *)
Fixpoint strchr (c : ascii) (mem : string) : outcome (option nat) :=
  match mem with
  | EmptyString => Fault OutOfBounds
  | String x mem =>
      if Ascii.eqb x c then Ok (Some 0%nat)
      else if Ascii.eqb x "000" then Ok None
      else obind (strchr c mem) (fun r => Ok (option_map S r))
  end.
Fixpoint blanks (mem : string) : outcome nat :=
  match mem with
  | EmptyString => Fault OutOfBounds
  | String x mem => if Ascii.eqb x " " then obind (blanks mem) (fun n => Ok (S n)) else Ok 0%nat
  end.
(** what headers change: responseHeaders, and the cookies of the configuration *)
Abbreviation headers := (list (string * string) * jar)%type.
Definition headerCallback (domain path : string) (ptr : string) (size : nat) (h : headers) : outcome headers :=
  if (size =? 0)%nat then Ok h else
  if (String.length ptr <? size)%nat then Fault OutOfBounds else
  obind (strchr ":" ptr) (fun colon =>
  match colon with
  | None => Ok h
  | Some colon =>
      let name := substring 0 colon ptr in
      obind (blanks (substr_from (S colon) ptr)) (fun n =>
      let colon := (S colon + n)%nat in
      if (size <? colon + 2)%nat then Fault UncaughtException else
        let value := substring colon (size - colon - 2) ptr in
        let name := lower name in
        obind (if String.eqb name "set-cookie" then Set_raw (cstr value) domain path h.2 else Ok h.2) (fun cookies =>
          Ok (SMap.insert name value h.1, cookies)))
  end).
Fixpoint read_headers (domain path : string) (lines : list (string * nat)) (h : headers) : outcome headers :=
  match lines with
  | [] => Ok h
  | (ptr, size) :: lines => obind (headerCallback domain path ptr size h) (read_headers domain path lines)
  end.

(** ** The options of an exchange *)
(** HttpConfig, but for the cookies and the relays *)
Record settings := mksettings {
  connectTimeout : Z; requestTimeout : Z; userAgent : string; certPath : string; keyPath : string; caPath : string
}.
Record request := mkreq { rurl : string; rdomain : string; rpath : string; contentType : string; postdata : string; range : string }.
(** the options of curl_easy_setopt *)
Record easy := mkeasy {
  o_connecttimeout : Z; o_timeout : Z; o_useragent : string; o_proxy : option string; o_url : string;
  o_range : option string; o_postfields : option string; o_httpheader : list string; o_cookie : option string;
  o_sslcert : option string; o_sslkey : option string; o_cainfo : option string; o_verifypeer : bool
}.
Definition new_request (url : string) : request :=
  mkreq url (split_url url).1 (split_url url).2 EmptyString EmptyString EmptyString.
Definition non_empty (s : string) : option string := if empty_str s then None else Some s.
(** [sprintf] into 256 bytes *)
Definition type_header (contentType : string) : outcome (list string) :=
  if empty_str contentType then Ok [] else
  let text := "Content-Type:" +:+ contentType in
  if 256 <? str_size text + 1 then Fault OutOfBounds else Ok [text].
Definition setup (cf : settings) (r : request) (a : attempt) (cookies : jar) : outcome easy :=
  obind (type_header (contentType r)) (fun types =>
  obind (Format (rdomain r) (rpath r) cookies) (fun cookie =>
  Ok (mkeasy (connectTimeout cf) (requestTimeout cf) (userAgent cf) (proxy a) (target a) (non_empty (range r))
        (non_empty (postdata r)) ((if empty_str (postdata r) then [] else ["Expect:"%string]) ++ types) (non_empty cookie)
        (non_empty (certPath cf)) (if empty_str (certPath cf) then None else non_empty (keyPath cf))
        (non_empty (caPath cf)) (negb (empty_str (caPath cf)))))).

(** Post with a buffer: an empty one leaves the request as it is *)
Definition Post (type : option string) (buf : string) (r : request) : request :=
  if empty_str buf then r
  else mkreq (rurl r) (rdomain r) (rpath r) (default (contentType r) type) buf (range r).

(** ** Execute *)
(** an exchange: its code, the calls of the header callback and of the body callback *)
Record reply := mkreply { code : Z; lines : list (string * nat); chunks : list string }.
Record state := mkstate { base : http; received : headers; body : string }.

Section Request.
Context (cf : settings) (r : request) (exchange : nat -> option (easy -> reply)).
Definition on_base {A} (m : M http A) : M state A := fun w =>
  obind (m (base w)) (fun '(a, b) => Ok (a, mkstate b (received w) (body w))).

Definition ExecuteImpl : M state Z :=
  w <- get ;;
  match exchange (length (attempts (base w))) with
  | None => on_base (complete true) ;;; ret (-1)
  | Some perform =>
      let a := attempt_of (rurl r) (cfg (base w)) in
      options <- lift (setup cf r a (received w).2) ;;
      let reply := perform options in
      h <- lift (read_headers (rdomain r) (rpath r) (lines reply) (received w)) ;;
      put (mkstate (mkhttp (cfg (base w)) (attempts (base w) ++ [a]) (completed (base w))) h
             (body w +:+ String.concat EmptyString (chunks reply))) ;;;
      ret (code reply)
  end.
Fixpoint execute_loop (fuel : nat) (tryingRelays : bool) (rtn : Z) : M state Z :=
  match fuel with
  | O => nofuel
  | S fuel =>
      w <- get ;;
      if activeRelay (cfg (base w)) <? int_size (crelays (cfg (base w))) then
        rtn <- ExecuteImpl ;;
        if negb tryingRelays then ret rtn
        else if negb (relay_failed rtn) then ret rtn
        else on_base advance ;;; execute_loop fuel tryingRelays rtn
      else ret rtn
  end.
Definition Execute : M state unit :=
  w <- get ;;
  let c := cfg (base w) in
  rtn <- (if int_size (crelays c) <=? activeRelay c then ExecuteImpl
          else execute_loop (S (S (endpoint_count (crelays c)))) (activeRelay c <? 0) CURLE_OK) ;;
  on_base (complete (negb (rtn =? CURLE_OK))).
End Request.

(** ** A request is what its exchanges are *)
(** what a run adds: attempts, with their replies, after those there were *)
Record added (cf : settings) (r : request) (exchange : nat -> option (easy -> reply)) (w w' : state) (replies : list reply) : Prop := mkadded {
  added_attempts : length (attempts (base w')) = (length (attempts (base w)) + length replies)%nat;
  added_replies i rp : replies !! i = Some rp -> exists perform a cookies o,
    exchange (length (attempts (base w)) + i)%nat = Some perform /\ setup cf r a cookies = Ok o /\ rp = perform o;
  added_headers : read_headers (rdomain r) (rpath r) (concat (map lines replies)) (received w) = Ok (received w');
  added_body : body w' = body w +:+ String.concat EmptyString (concat (map chunks replies))
}.
Lemma read_headers_app d p l1 l2 h : read_headers d p (l1 ++ l2) h = obind (read_headers d p l1 h) (read_headers d p l2).
Proof.
  revert h. induction l1 as [|[ptr size] l1 IH]; intros h; [done|]. cbn. destruct (headerCallback d p ptr size h); cbn; [apply IH|done..].
Qed.
Lemma concat_strings l1 l2 : String.concat EmptyString (l1 ++ l2) = String.concat EmptyString l1 +:+ String.concat EmptyString l2.
Proof.
  assert (forall s l, String.concat EmptyString (s :: l) = s +:+ String.concat EmptyString l) as Hc.
  { intros s [|s' l]; [cbn; by rewrite append_nil_r|done]. }
  induction l1 as [|s l1 IH]; [done|]. change ((s :: l1) ++ l2) with (s :: (l1 ++ l2)). rewrite !Hc, IH. by rewrite append_assoc.
Qed.
Lemma added_none cf r exchange w w' : attempts (base w') = attempts (base w) -> received w' = received w -> body w' = body w -> added cf r exchange w w' [].
Proof. intros E1 E2 E3. split; [by rewrite E1, Nat.add_0_r|done|by rewrite E2|by rewrite E3, append_nil_r]. Qed.
Lemma added_trans cf r exchange w w1 w2 rs1 rs2 : added cf r exchange w w1 rs1 -> added cf r exchange w1 w2 rs2 ->
  added cf r exchange w w2 (rs1 ++ rs2).
Proof.
  intros [A1 C1 H1 B1] [A2 C2 H2 B2]. split.
  - rewrite A2, A1, length_app. lia.
  - intros i rp Hi. destruct (decide (i < length rs1)%nat) as [Hlt|Hge].
    + apply C1. by rewrite lookup_app_l in Hi.
    + rewrite lookup_app_r in Hi by lia. specialize (C2 _ _ Hi). rewrite A1 in C2.
      by replace (length (attempts (base w)) + i)%nat with (length (attempts (base w)) + length rs1 + (i - length rs1))%nat by lia.
  - by rewrite map_app, concat_app, read_headers_app, H1.
  - by rewrite B2, B1, map_app, concat_app, concat_strings, append_assoc.
Qed.

Section Exchanges.
Context (cf : settings) (r : request) (exchange : nat -> option (easy -> reply)).
(** an oracle for [RelayLoop] that gives the codes of the exchanges *)
Definition agrees (curl : nat -> attempt -> option Z) (n0 : nat) (replies : list reply) : Prop :=
  (forall n a, exchange n = None -> curl n a = None) /\
  (forall i rp, replies !! i = Some rp -> forall a, curl (n0 + i)%nat a = Some (code rp)).
Lemma agrees_left curl n0 rs1 rs2 : agrees curl n0 (rs1 ++ rs2) -> agrees curl n0 rs1.
Proof. intros [Ha Hc]. split; [done|]. intros i rp Hi. apply Hc. by apply lookup_app_l_Some. Qed.
Lemma agrees_right curl n0 rs1 rs2 : agrees curl n0 (rs1 ++ rs2) -> agrees curl (n0 + length rs1)%nat rs2.
Proof.
  intros [Ha Hc]. split; [done|]. intros i rp Hi a. rewrite <- Nat.add_assoc. apply Hc. rewrite lookup_app_r by lia.
  by replace (_ - _)%nat with i by lia.
Qed.
Abbreviation ran w w' replies P := (added cf r exchange w w' replies /\
  forall curl, agrees curl (length (attempts (base w))) replies -> P curl).
Lemma on_base_inv {A} (m : M http A) w w' a : on_base m w = Ok (a, w') -> exists b, m (base w) = Ok (a, b) /\ w' = mkstate b (received w) (body w).
Proof. unfold on_base. destruct (m (base w)) as [[a' b]| |]; [|done..]. intros [= <- <-]. by exists b. Qed.
Lemma ExecuteImpl_run w n w' : ExecuteImpl cf r exchange w = Ok (n, w') -> exists replies,
  ran w w' replies (fun curl => RelayLoop.ExecuteImpl (rurl r) curl (base w) = Ok (n, base w')).
Proof.
  unfold ExecuteImpl, RelayLoop.ExecuteImpl. intros H. apply bind_inv in H as (w0 & w1 & H0 & H). injection H0 as <- <-.
  destruct (exchange (length (attempts (base w)))) as [perform|] eqn:Ex.
  - apply bind_inv in H as (o & w1 & H0 & H). apply lift_inv in H0 as [Eo ->].
    apply bind_inv in H as (h & w1 & H0 & H). apply lift_inv in H0 as [Eh ->].
    apply bind_inv in H as ([] & w1 & H0 & H). injection H0 as <-. injection H as <- <-.
    exists [perform o]. split.
    + split; cbn; [by rewrite length_app| |by rewrite app_nil_r|by rewrite app_nil_r].
      intros i rp Hi. destruct i as [|i]; [|done]. injection Hi as <-. rewrite Nat.add_0_r. by exists perform, (attempt_of (rurl r) (cfg (base w))), (received w).2, o.
    + intros curl [_ Hc]. unfold bind, get. cbn. specialize (Hc 0%nat _ eq_refl (attempt_of (rurl r) (cfg (base w)))).
      rewrite Nat.add_0_r in Hc. by rewrite Hc.
  - apply bind_inv in H as ([] & w1 & H0 & H). apply on_base_inv in H0 as (b & H0 & ->). injection H as <- <-.
    injection H0 as <-. exists []. split; [by apply added_none|]. intros curl [Ha _]. unfold bind, get. cbn. by rewrite (Ha _ _ Ex).
Qed.
Lemma advance_attempts u : forall w w', advance w = Ok (u, w') -> attempts w' = attempts w.
Proof.
  assert (forall fuel w u w', next_relay fuel w = Ok (u, w') -> attempts w' = attempts w) as Hn.
  { induction fuel as [|fuel IH]; intros w u' w'; [done|]. cbn [next_relay]. intros (w0 & w1 & H0 & H)%bind_inv. injection H0 as <- <-.
    apply bind_inv in H as ([] & w1 & H0 & H). injection H0 as <-. destruct (_ <? _); [|by injection H as _ <-].
    destruct (crelays _ !! _) as [x|]; [|done]. destruct (Nat.eqb _ _); [by apply IH in H|by injection H as _ <-]. }
  intros w w' H. unfold advance in H. apply bind_inv in H as (w0 & w1 & H0 & H). injection H0 as <- <-.
  apply bind_inv in H as (last & w1 & H0 & H).
  assert (w1 = w) as -> by (destruct (_ <? 0); [by injection H0 as _ <-|]; destruct (crelays _ !! _); [by injection H0 as _ <-|done]).
  destruct last; [by eapply Hn|by injection H as _ <-].
Qed.
Lemma execute_loop_run fuel try : forall rtn w n w', execute_loop cf r exchange fuel try rtn w = Ok (n, w') -> exists replies,
  ran w w' replies (fun curl => RelayLoop.execute_loop (rurl r) curl fuel try rtn (base w) = Ok (n, base w')).
Proof.
  induction fuel as [|fuel IH]; intros rtn w n w'; [done|]. cbn [execute_loop RelayLoop.execute_loop].
  intros (w0 & w1 & H0 & H)%bind_inv. injection H0 as <- <-. unfold bind at 1, get at 1. cbn [obind].
  destruct (activeRelay (cfg (base w)) <? int_size (crelays (cfg (base w)))).
  2: { injection H as <- <-. exists []. by split; [apply added_none|]. }
  apply bind_inv in H as (m & w1 & H1 & H). apply ExecuteImpl_run in H1 as (rs1 & Hd & H1).
  destruct (negb try) eqn:Et; [|destruct (negb (relay_failed m)) eqn:Er].
  - injection H as <- <-. exists rs1. split; [done|]. intros curl Hc. by erewrite bind_ok by exact (H1 curl Hc).
  - injection H as <- <-. exists rs1. split; [done|]. intros curl Hc. erewrite bind_ok by exact (H1 curl Hc). by rewrite Er.
  - apply bind_inv in H as ([] & w2 & H2 & H). apply on_base_inv in H2 as (b & H2 & ->). apply IH in H as (rs2 & Hd2 & H3). cbn [base] in H3.
    pose proof (added_attempts _ _ _ _ _ _ Hd) as El. pose proof (advance_attempts tt _ _ H2) as Eb.
    exists (rs1 ++ rs2). split.
    + apply (added_trans cf r exchange w w1); [done|]. change rs2 with ([] ++ rs2). eapply added_trans; [|exact Hd2]. by apply added_none.
    + intros curl Hc. erewrite bind_ok by exact (H1 curl (agrees_left _ _ _ _ Hc)). rewrite Er. erewrite bind_ok by exact H2.
      apply H3. rewrite Eb, El. by apply (agrees_right _ _ rs1).
Qed.
Lemma Execute_run w w' : Execute cf r exchange w = Ok (tt, w') -> exists replies,
  ran w w' replies (fun curl => RelayLoop.Execute (rurl r) curl (base w) = Ok (tt, base w')).
Proof.
  unfold Execute, RelayLoop.Execute. intros (w0 & w1 & H0 & H)%bind_inv. injection H0 as <- <-. unfold bind at 1, get at 1. cbn [obind].
  apply bind_inv in H as (n & w1 & H1 & H). apply on_base_inv in H as (b & H & ->).
  assert (exists replies, ran w w1 replies (fun curl => (if int_size (crelays (cfg (base w))) <=? activeRelay (cfg (base w))
      then RelayLoop.ExecuteImpl (rurl r) curl
      else RelayLoop.execute_loop (rurl r) curl (S (S (endpoint_count (crelays (cfg (base w)))))) (activeRelay (cfg (base w)) <? 0) CURLE_OK) (base w) =
      Ok (n, base w1))) as (rs & Hd & Hr) by (destruct (_ <=? _); [by apply ExecuteImpl_run|by apply execute_loop_run]).
  exists rs. split.
  - rewrite <- (app_nil_r rs). eapply added_trans; [exact Hd|]. injection H as <-. by apply added_none.
  - intros curl Hc. by erewrite bind_ok by exact (Hr curl Hc).
Qed.
End Exchanges.

(** a time-out on the way to the host, in the middle of an answer, and a relay that works *)
Definition CRLF : string := String "013" (String "010" EmptyString).
(** a line as libcurl has it in memory, with the NUL behind it *)
Definition header_line (s : string) : string * nat := (s +:+ CRLF +:+ String "000" EmptyString, (String.length s + 2)%nat).
Definition sample_settings : settings := mksettings 5 10 "bdfs" EmptyString EmptyString EmptyString.
Definition sample_exchange (n : nat) : option (easy -> reply) := Some (fun o =>
  match n with
  | O => mkreply 28 [header_line "HTTP/1.1 200 OK"; header_line "Content-Length: 5"] ["who"]%string
  | _ => mkreply 0 [header_line "HTTP/1.1 200 OK"; header_line "Set-Cookie: id=7"] ["whole"]%string
  end).
Definition sample_before : state := mkstate (mkhttp (mkconfig [mkrelay "r" [mkendpoint "10.0.0.1" 1080 0]] (-1) (-1)) [] []) ([], []) EmptyString.
Definition sample_after : state :=
  mkstate (mkhttp (mkconfig [mkrelay "r" [mkendpoint "10.0.0.1" 1080 0]] 0 0)
      [mkattempt None "http://node/x"; mkattempt (Some "socks5h://10.0.0.1:1080"%string) "http://r/x"] [false])
    ([("content-length", "5"); ("set-cookie", "id=7")]%string, [mkcookie "id" "7" "node" "/x" 0 0 false false]) "whowhole".
Lemma sample_request : Execute sample_settings (new_request "http://node/x") sample_exchange sample_before = Ok (tt, sample_after).
Proof. vm_compute. reflexivity. Qed.
(** what came before a relay failed stays in front of the answer of the next one, and
    the request succeeds *)
Lemma partial_body_kept : exists w', Execute sample_settings (new_request "http://node/x") sample_exchange sample_before = Ok (tt, w') /\
  completed (base w') = [false] /\ body w' = "whowhole"%string.
Proof. exists sample_after. split; [apply sample_request|done]. Qed.

(** ** Addresses *)
Definition plain (s : string) : Prop := str_mem ":" s = false /\ str_mem "/" s = false /\ str_mem "?" s = false /\ str_mem "#" s = false.
Lemma offset_stop c s rest : str_mem c s = false -> offset_of c (s +:+ String c rest) = String.length s.
Proof. intros Hs. unfold offset_of. by rewrite upto_stop. Qed.
Lemma offset_end c s : str_mem c s = false -> offset_of c s = String.length s.
Proof. intros Hs. unfold offset_of. by rewrite upto_end. Qed.
Lemma offset_past c s rest : str_mem c s = false -> (String.length s <= offset_of c (s +:+ rest))%nat.
Proof.
  unfold offset_of. induction s as [|x s IH]; [cbn; lia|]. intros [Hx Hs]%orb_false_iff.
  change (String x s +:+ rest) with (String x (s +:+ rest)). cbn [upto]. rewrite Hx. cbn [String.length]. specialize (IH Hs). lia.
Qed.
Lemma index_scheme scheme rest : str_mem ":" scheme = false -> String.index 0 "://" (scheme +:+ "://" +:+ rest) = Some (String.length scheme).
Proof.
  induction scheme as [|x s IH]; intros Hs; [by destruct rest|]. cbn [str_mem] in Hs. apply orb_false_iff in Hs as [Hx Hs].
  change (String x s +:+ ?t) with (String x (s +:+ t)). cbn [String.index]. rewrite (IH Hs).
  destruct (String.prefix "://" (String x (s +:+ "://" +:+ rest))) eqn:E; [|done].
  assert (String.prefix "://" (String x (s +:+ "://" +:+ rest)) = if ascii_dec ":" x then String.prefix "//" (s +:+ "://" +:+ rest) else false)
    as Ep by done. rewrite E in Ep. destruct (ascii_dec ":" x) as [<-|]; [by rewrite Ascii.eqb_refl in Hx|done].
Qed.
(** the domain of an address is its host, without the port, and the path goes up to the
    query *)
Theorem split_url_parts (scheme host port path : string) : str_mem ":" scheme = false -> plain host ->
  (port = EmptyString \/ exists digits, port = ":" +:+ digits /\ plain digits) ->
  (path = EmptyString \/ exists rest, path = "/" +:+ rest) -> str_mem "?" path = false -> str_mem "#" path = false ->
  split_url (scheme +:+ "://" +:+ host +:+ port +:+ path) = (host, path).
Proof.
  intros Hs Hh Hp Hpath Hq Hx. unfold split_url. rewrite index_scheme by done. cbv zeta.
  assert (substr_from (String.length scheme + 3) (scheme +:+ "://" +:+ host +:+ port +:+ path) = host +:+ port +:+ path) as ->.
  { replace (String.length scheme + 3)%nat with (String.length (scheme +:+ "://")) by (rewrite length_append; done).
    rewrite <- append_assoc. apply substr_from_app. }
  assert (forall c, c = "/"%char \/ c = "?"%char \/ c = "#"%char -> str_mem c (host +:+ port) = false) as Hc.
  { destruct Hh as (_ & H1 & H2 & H3). intros c Hc. rewrite str_mem_app. destruct Hp as [->|(digits & -> & _ & D1 & D2 & D3)].
    - destruct Hc as [->|[->| ->]]; by rewrite ?H1, ?H2, ?H3.
    - change (":" +:+ digits) with (String ":" digits). destruct Hc as [->|[->| ->]]; cbn [str_mem]; by rewrite ?H1, ?H2, ?H3, ?D1, ?D2, ?D3. }
  destruct Hh as [Hh _].
  assert (offset_of "?" (host +:+ port +:+ path) = String.length (host +:+ port +:+ path)) as ->
    by (apply offset_end; by rewrite <- append_assoc, str_mem_app, (Hc "?"%char ltac:(auto)), Hq).
  assert (offset_of "#" (host +:+ port +:+ path) = String.length (host +:+ port +:+ path)) as ->
    by (apply offset_end; by rewrite <- append_assoc, str_mem_app, (Hc "#"%char ltac:(auto)), Hx).
  assert (offset_of "/" (host +:+ port +:+ path) = String.length (host +:+ port)) as ->.
  { rewrite <- append_assoc. destruct Hpath as [->|(rest & ->)]; [rewrite append_nil_r; apply offset_end; apply Hc; by left|].
    change ("/" +:+ rest) with (String "/" rest). apply offset_stop. apply Hc. by left. }
  rewrite Nat.min_id. assert ((String.length (host +:+ port +:+ path) <? String.length (host +:+ port))%nat = false) as ->
    by (apply Nat.ltb_ge; rewrite !length_append; lia).
  assert ((String.length (host +:+ port +:+ path) <? String.length (host +:+ port))%nat = false) as ->
    by (apply Nat.ltb_ge; rewrite !length_append; lia).
  f_equal.
  - destruct Hp as [->|(digits & -> & Hd)].
    + change ("" +:+ path) with path. rewrite append_nil_r. pose proof (offset_past ":" host path Hh) as Ho.
      rewrite (proj2 (Nat.ltb_ge _ _) Ho). apply substring_prefix.
    + assert (offset_of ":" (host +:+ (":" +:+ digits) +:+ path) = String.length host) as ->
        by exact (offset_stop ":" host (digits +:+ path) Hh).
      rewrite length_append. cbn [String.length]. rewrite (proj2 (Nat.ltb_lt _ _)); [apply substring_prefix|].
      change (":" +:+ digits) with (String ":" digits). cbn [String.length]. lia.
  - rewrite <- append_assoc. rewrite (length_append (host +:+ port) path), Nat.add_comm, Nat.add_sub. apply substring_back.
Qed.
Lemma split_url_parts_witness : split_url "http://node.drive.io:7800/api/host://Partitions" = ("node.drive.io", "/api/host://Partitions")%string.
Proof.
  apply (split_url_parts "http" "node.drive.io" ":7800" "/api/host://Partitions"); [done|done| | |done|done].
  - right. by exists "7800"%string.
  - right. by exists "api/host://Partitions"%string.
Defined.

(** ** Headers *)
Lemma strchr_stop c s rest : str_mem c s = false -> no_nul s -> strchr c (s +:+ String c rest) = Ok (Some (String.length s)).
Proof.
  induction s as [|x s IH]; [intros _ _; change (EmptyString +:+ String c rest) with (String c rest); cbn [strchr]; by rewrite Ascii.eqb_refl|]. intros [Hx Hs]%orb_false_iff [Nx Ns]%orb_false_iff.
  change (String x s +:+ ?t) with (String x (s +:+ t)). cbn [strchr]. rewrite Hx, Nx, IH by done. done.
Qed.
(** a line without a colon is passed over, if there is a NUL behind it *)
Lemma no_colon_skipped d p s h : str_mem ":" s = false -> no_nul s -> headerCallback d p (fst (header_line s)) (snd (header_line s)) h = Ok h.
Proof.
  intros Hs Hn. unfold headerCallback, header_line. cbn [fst snd]. rewrite (proj2 (Nat.eqb_neq _ _)) by lia.
  rewrite (proj2 (Nat.ltb_ge _ _)) by (rewrite !length_append; cbn; lia).
  assert (strchr ":" (s +:+ CRLF +:+ String "000" EmptyString) = Ok None) as ->; [|done].
  induction s as [|x s IH]; [done|]. cbn in Hs, Hn. apply orb_false_iff in Hs as [Hx Hs], Hn as [Nx Hn].
  change (String x s +:+ ?t) with (String x (s +:+ t)). cbn [strchr]. rewrite Hx, Nx, IH by done. done.
Qed.
(** name, colon, a blank, value *)
Lemma header_read d p name value h : str_mem ":" name = false -> no_nul name -> no_blank value -> value <> EmptyString -> no_nul value ->
  headerCallback d p (fst (header_line (name +:+ ": " +:+ value))) (snd (header_line (name +:+ ": " +:+ value))) h =
    obind (if String.eqb (lower name) "set-cookie" then Set_raw value d p h.2 else Ok h.2) (fun cookies =>
      Ok (SMap.insert (lower name) value h.1, cookies)).
Proof.
  intros Hn Nn Hb Hv Nv. unfold headerCallback, header_line. cbn [fst snd]. rewrite (proj2 (Nat.eqb_neq _ _)) by lia.
  rewrite (proj2 (Nat.ltb_ge _ _)) by (rewrite !length_append; cbn; lia).
  rewrite !append_assoc. set (rest := value +:+ CRLF +:+ String "000" EmptyString).
  change (": " +:+ rest) with (String ":" (String " " rest)). rewrite strchr_stop by done. cbn [obind].
  assert (substr_from (S (String.length name)) (name +:+ String ":" (String " " rest)) = String " " rest) as ->.
  { replace (S (String.length name)) with (String.length (name +:+ ":")) by (rewrite length_append; cbn; lia).
    change (String ":" (String " " rest)) with (":" +:+ String " " rest). rewrite <- append_assoc. apply substr_from_app. }
  assert (blanks (String " " rest) = Ok 1%nat) as ->.
  { cbn [blanks]. change (Ascii.eqb " " " ") with true. cbv iota. unfold rest. destruct value as [|x value]; [done|].
    change (String x value +:+ ?t) with (String x (value +:+ t)). cbn [blanks]. cbn in Hb. by rewrite Hb. }
  cbn [obind]. rewrite !length_append. change (String.length ": ") with 2%nat.
  rewrite (proj2 (Nat.ltb_ge _ _)) by lia.
  replace (_ - _ - 2)%nat with (String.length value) by lia.
  replace (S (String.length name) + 1)%nat with (String.length (name +:+ ": ")) by (rewrite length_append; cbn; lia).
  assert (substring (String.length (name +:+ ": ")) (String.length value) (name +:+ String ":" (String " " rest)) = value) as ->.
  { change (String ":" (String " " rest)) with (": " +:+ rest). rewrite <- append_assoc. unfold rest.
    generalize (name +:+ ": ") as x. induction x as [|c x IH]; [change ("" +:+ ?t) with t; apply (substring_prefix value (CRLF +:+ String "000" EmptyString))|]. exact IH. }
  rewrite substring_prefix, cstr_no_nul by done. done.
Qed.
(** A cookie that a response sets goes into the next request: a Set-Cookie line is
    read into the jar for the domain and path of the request, and the options of every
    later exchange of a request with them have it, after the cookies there were. *)
Theorem cookie_comes_back (cf : settings) (r : request) (a : attempt) (n v before : string) (types : list string) (h : headers) :
  str_mem "=" n = false -> no_blank (n +:+ "=" +:+ v) -> Cookies.clean v -> no_nul (n +:+ "=" +:+ v) ->
  Format (rdomain r) (rpath r) (Delete n (rdomain r) (rpath r) h.2) = Ok before -> type_header (contentType r) = Ok types ->
  exists h' o, headerCallback (rdomain r) (rpath r) (fst (header_line ("Set-Cookie: " +:+ n +:+ "=" +:+ v)))
      (snd (header_line ("Set-Cookie: " +:+ n +:+ "=" +:+ v))) h = Ok h' /\
    SMap.find "set-cookie" h'.1 = Some (n +:+ "=" +:+ v) /\
    setup cf r a h'.2 = Ok o /\ o_cookie o = Some (before +:+ n +:+ "=" +:+ v +:+ ";").
Proof.
  intros Hn Hb Hv Nv Hf Ht. set (c := mkcookie n v (rdomain r) (rpath r) 0 0 false false).
  assert (Set_raw (n +:+ "=" +:+ v) (rdomain r) (rpath r) h.2 = Ok (Delete n (rdomain r) (rpath r) h.2 ++ [c])) as Es.
  { pose proof (Set_raw_ok n v [] (rdomain r) (rpath r) h.2 Hn Hv) as E. cbn [options_text] in E. rewrite append_nil_r in E.
    apply E, List.Forall_nil. }
  assert (Format (rdomain r) (rpath r) (Delete n (rdomain r) (rpath r) h.2 ++ [c]) = Ok (before +:+ shown c)) as Ef.
  { apply Format_last; [done|]. pose proof (matches_ok c EmptyString EmptyString) as Hm. rewrite append_nil_r in Hm. exact Hm. }
  eexists (SMap.insert "set-cookie" (n +:+ "=" +:+ v) h.1, Delete n (rdomain r) (rpath r) h.2 ++ [c]), _.
  split; [|split; [apply SMapFacts.find_insert_eq|split]].
  - change ("Set-Cookie: " +:+ n +:+ "=" +:+ v) with ("Set-Cookie" +:+ ": " +:+ (n +:+ "=" +:+ v)).
    rewrite header_read; [|done|done|done|by destruct n|done]. change (lower "Set-Cookie") with "set-cookie"%string.
    rewrite String.eqb_refl, Es. done.
  - unfold setup. rewrite Ht. cbn [obind snd]. rewrite Ef. reflexivity.
  - cbn [o_cookie]. unfold non_empty. assert (empty_str (before +:+ shown c) = false) as ->; [|done].
    unfold shown, c. cbn [name value]. destruct before as [|x before]; [by destruct n|done].
Qed.
Lemma cookie_comes_back_witness : exists h' o,
  headerCallback "node" "/x" (fst (header_line "Set-Cookie: id=7")) (snd (header_line "Set-Cookie: id=7")) ([], []) = Ok h' /\
  SMap.find "set-cookie" h'.1 = Some "id=7"%string /\
  setup sample_settings (new_request "http://node/x") (mkattempt None "http://node/x") h'.2 = Ok o /\ o_cookie o = Some "id=7;"%string.
Proof.
  apply (cookie_comes_back sample_settings (new_request "http://node/x") (mkattempt None "http://node/x") "id" "7" "" [] ([], [])); done.
Defined.
(** a line that ends without a carriage return loses the last character of its value,
    and one whose value is not even two characters away from its end is an exception *)
Example bare_newline : headerCallback "node" "/x" ("A: b" +:+ String "010" (String "000" EmptyString)) 5 ([], []) = Ok ([("a", "")]%string, []).
Proof. vm_compute. reflexivity. Qed.
Example bare_colon : headerCallback "node" "/x" ("A:" +:+ String "010" (String "000" EmptyString)) 3 ([], []) = Fault UncaughtException.
Proof. vm_compute. reflexivity. Qed.
(** a long content type does not fit the buffer for its header *)
Lemma long_content_type cf r a cookies : 242 < str_size (contentType r) -> setup cf r a cookies = Fault OutOfBounds.
Proof.
  intros H. unfold setup, type_header. assert (empty_str (contentType r) = false) as -> by (destruct (contentType r); [done|done]).
  rewrite str_size_app. change (str_size "Content-Type:") with 13. by rewrite (proj2 (Z.ltb_lt _ _)) by lia.
Qed.
(** without a bundle of certificates that of the host is not looked at *)
Lemma no_ca_no_verify cf r a cookies o : setup cf r a cookies = Ok o -> caPath cf = EmptyString -> o_verifypeer o = false.
Proof.
  unfold setup. intros H Hc. apply obind_inv in H as (types & _ & H). apply obind_inv in H as (cookie & _ & H). injection H as <-. cbn. by rewrite Hc.
Qed.
