(* ===== verification/Kademlia.v ===== *)
(** * The Kademlia node's HTTP interface (src/src/bdkad/KademliaHandler.cpp)

    Requests on [/api/host/Kademlia].  The node itself is the kademlia submodule: a
    class of operations; jsoncpp's reader and writers and SHA-1 are parameters.  A
    handler may write more than one answer; a client sees the first. *)

From Stdlib Require Import ZArith Lia Bool Ascii String.
From stdpp Require Import base list strings pretty.
From S2P Require Import Prelude Json HostHandler HttpParams HostClient Relays.
Set Default Goal Selector "!".
Local Open Scope Z_scope.
Local Open Scope drive_scope.

(** kad::Kademlia, by the keys' digests; None when the minute's wait ends first *)
Class KademliaNode (K : Type) := {
  Store : list Z -> list Z -> Z -> Z -> M K (option bool);
  FindValue : list Z -> M K (option (option (list Z)));
  Publish : list Z -> list Z -> Z -> Z -> M K (option bool);
  Query : list Z -> string -> Z -> M K (option (option (list Z)));
  StoreLog : list Z -> list Z -> Z -> Z -> M K (option bool);
  QueryLogs : list Z -> string -> Z -> M K (option (option (list Z)))
}.
(** the node, and what the threads started for the log have still to store *)
Record node (K : Type) := mknode { controller : K; logging : list json }.
Arguments mknode {K}. Arguments controller {K}. Arguments logging {K}.

Definition PATH : string := "/api/host/Kademlia".

Section Handler.
Context {K : Type} `{KademliaNode K}.
Context (Digest : list Z -> list Z).
(** reader.parse(text, value): what it returns and what the value holds then;
    toStyledString and FastWriter *)
Context (reader : list Z -> bool * json) (styled fast : json -> string).

Definition on_node {A} (m : M K A) : M (node K) A := fun w =>
  obind (m (controller w)) (fun '(a, k) => Ok (a, mknode k (logging w))).
Definition digest (s : string) : list Z := Digest (bytes_of_string s).
(** a parameter that is a JSON string is replaced by the string *)
Definition unwrapped (text : string) : string :=
  match reader (bytes_of_string text) with (true, JString s) => s | _ => text end.

Definition fail500 (details : string) (e : ErrorCode) : response := failed 500 details e.

Definition OnSetValue (context : request) : M (node K) (list response) :=
  let key := unwrapped (parameter context "key") in
  let value := unwrapped (parameter context "value") in
  let version := strtoull (parameter context "version") in
  let ttl := u32 (strtoull (parameter context "ttl")) in
  if empty_str key then ret [fail500 "Paramter 'key' missing or invalid" ARGUMENT_INVALID] else
  if empty_str value then ret [fail500 "Paramter 'value' missing or invalid" ARGUMENT_INVALID] else
  result <- on_node (Store (digest key) (bytes_of_string value) ttl version) ;;
  match result with
  | Some true => ret [ok_text "true"]
  | _ => ret [fail500 "Failed to set value" GENERIC_ERROR; mkresponse 500 (Text "true")]
  end.

(** the answer made of a node's answer *)
Definition answer (result : option (option (list Z))) (text : list Z -> reply) : list response :=
  match result with
  | None => [fail500 "Internal Error" GENERIC_ERROR]
  | Some (Some (b :: data)) => [mkresponse 200 (text (b :: data))]
  | Some _ => [fail500 "Value not found" GENERIC_ERROR]
  end.
Definition OnGetValue (context : request) : M (node K) (list response) :=
  let key := unwrapped (parameter context "key") in
  if empty_str key then ret [fail500 "Paramter 'key' missing or invalid" ARGUMENT_INVALID] else
  result <- on_node (FindValue (digest key)) ;;
  ret (answer result (fun data => Text (styled (JString (string_of_bytes data))))).

Definition publishTtl : Z := 10 * 24 * 3600.
Definition logTtl : Z := 180 * 24 * 3600.
Definition OnPublish (context : request) : M (node K) (list response) :=
  let text := parameter context "value" in
  let json := snd (reader (bytes_of_string text)) in
  let value := unwrapped text in
  if empty_str value then ret [fail500 "Paramter 'value' missing or invalid" ARGUMENT_INVALID] else
  match isObject json, member json "type", member json "name" with
  | true, JString type, JString nm =>
      result <- on_node (Publish (digest (type +:+ ":" +:+ nm)) (bytes_of_string value) publishTtl 1) ;;
      match result with
      | Some true => modify (fun w => mknode (controller w) (logging w ++ [json])) ;;; ret [ok_text "true"]
      | _ => ret [fail500 "Failed to publish value" GENERIC_ERROR]
      end
  | _, _, _ => ret [fail500 "Wrong format of published data" ARGUMENT_INVALID]
  end.
(** the thread OnPublish starts: the first of those still to run *)
Definition set_member (name : string) (v : json) (j : json) : json :=
  match j with
  | JObject l => JObject (map (fun p => if String.eqb (fst p) name then (name, v) else p) l)
  | _ => j
  end.
Definition log_published : M (node K) unit :=
  w <- get ;;
  match logging w with
  | [] => ret tt
  | json :: rest =>
      put (mknode (controller w) rest) ;;;
      type <- lift (asString (member json "type")) ;;
      on_node (StoreLog (digest "LOG")
        (bytes_of_string (fast (set_member "type" (JString ("log:" +:+ type)) json))) logTtl 0) ;;;
      ret tt
  end.

Definition OnQuery (context : request) : M (node K) (list response) :=
  let limit := u32 (strtoull (parameter context "limit")) in
  let query := unwrapped (parameter context "query") in
  if empty_str query then ret [fail500 "Paramter 'query' missing or invalid" ARGUMENT_INVALID] else
  if limit =? 0 then ret [fail500 "Paramter 'limit' missing or invalid" ARGUMENT_INVALID] else
  result <- on_node (Query (digest query) query limit) ;;
  ret (answer result Octets).

Definition OnGetActivityLog (context : request) : M (node K) (list response) :=
  let starttime := u32 (strtoull (parameter context "starttime")) in
  let endtime := u32 (strtoull (parameter context "endtime")) in
  let query := "type:" +:+ quote "log:storage" in
  let query := if starttime =? 0 then query else query +:+ " ts:" +:+ pretty (Z.to_N starttime) in
  let query := if endtime =? 0 then query else query +:+ " -ts:" +:+ pretty (Z.to_N endtime) in
  result <- on_node (QueryLogs (digest "LOG") query (2 ^ 32 - 1)) ;;
  ret (answer result Octets).

Definition OnKademliaRequest (context : request) (action : string) : M (node K) (list response) :=
  if String.eqb action "SetValue" then OnSetValue context
  else if String.eqb action "GetValue" then OnGetValue context
  else if String.eqb action "Publish" then OnPublish context
  else if String.eqb action "Query" then OnQuery context
  else if String.eqb action "GetActivityLog" then OnGetActivityLog context
  else ret [fail500 "Action not supported" E_NOT_SUPPORTED].

Definition not_found : list response := [failed 404 "Object not found" OBJECT_NOT_FOUND].
Definition ProcessRequest (context : request) : M (node K) (list response) :=
  match below PATH (path context) with
  | None => ret not_found
  | Some None =>
      ret [ok_text (json_object [("Name", "Kademlia"); ("Path", "host://Kademlia"); ("Type", "Kademlia")]%string ",")]
  | Some (Some action) =>
      match find_char "/" action with
      | Some _ => ret not_found
      | None => OnKademliaRequest context action
      end
  end.
(** what reaches the client *)
Definition serve (context : request) : M (node K) response :=
  rs <- ProcessRequest context ;;
  ret (default (mkresponse 0 (Octets [])) (head rs)).

(** a value the node refuses is answered twice, the second time with [true] *)
Lemma refused_value_answered_true (context : request) (s : node K) (k : K) :
  unwrapped (parameter context "key") <> EmptyString -> unwrapped (parameter context "value") <> EmptyString ->
  Store (digest (unwrapped (parameter context "key"))) (bytes_of_string (unwrapped (parameter context "value")))
    (u32 (strtoull (parameter context "ttl"))) (strtoull (parameter context "version")) (controller s) = Ok (Some false, k) ->
  OnSetValue context s =
    Ok ([fail500 "Failed to set value" GENERIC_ERROR; mkresponse 500 (Text "true")], mknode k (logging s)).
Proof.
  intros Hk Hv Hs. unfold OnSetValue.
  assert (forall s, s <> EmptyString -> empty_str s = false) as He by by intros [].
  rewrite !He by done. unfold bind, on_node. by rewrite Hs.
Qed.
End Handler.
