(* ===== verification/KademliaClient.v ===== *)
(** * The Kademlia client (src/src/bdfs-lib/BdKademlia.cpp), the cache of lookups
      (src/src/bdfsclient-lib/BlobCache.cpp), and the two ends of the endpoint lookup:
      the host's thread (init_kad of src/src/bdhost/Main.cpp) and
      VolumeManager::GetProviderEndpoint

    Calls are those of [HostClient]; a result that carries an error is [(true, _)],
    and None a call that could not be made, for which the callers follow a null
    pointer. *)

From Stdlib Require Import ZArith Lia Bool Ascii String.
From stdpp Require Import base list gmap strings pretty.
From S2P Require Import Prelude Json Base64 HostHandler HttpParams HostClient Relays Kademlia.
Set Default Goal Selector "!".
Local Open Scope Z_scope.
Local Open Scope drive_scope.

(** parseRelayInfo *)
Fixpoint parse_endpoints (l : list json) (acc : list Endpoint) : outcome (list Endpoint) :=
  match l with
  | [] => Ok acc
  | ep :: l =>
      if negb (isObject ep) || isNull ep then parse_endpoints l acc else
      match member ep "host" with
      | JString h =>
          if isIntegral (member ep "socks") && isIntegral (member ep "quic")
          then obind (asUInt (member ep "socks")) (fun socks => obind (asUInt (member ep "quic")) (fun quic =>
                 parse_endpoints l (acc ++ [mkendpoint h (u16 socks) (u16 quic)])))
          else parse_endpoints l acc
      | _ => parse_endpoints l acc
      end
  end.
Definition parseRelayInfo (obj : json) (output : RelayInfo) : outcome (bool * RelayInfo) :=
  if negb (isObject obj) || isNull obj then Ok (false, output) else
  match member obj "type" with
  | JString t =>
      if negb (String.eqb t "relay") then Ok (false, output) else
      let nm := match member obj "name" with JString n => n | _ => rname output end in
      obind (parse_endpoints (elements (member obj "endpoints")) (endpoints output)) (fun eps =>
        Ok (true, mkrelay nm eps))
  | _ => Ok (false, output)
  end.
Fixpoint parse_relays (l : list json) : outcome (list RelayInfo) :=
  match l with
  | [] => Ok []
  | v :: l =>
      obind (parseRelayInfo v (mkrelay EmptyString [])) (fun '(ok, info) =>
      obind (parse_relays l) (fun rest => Ok (if ok : bool then info :: rest else rest)))
  end.

Section Client.
Context (url_escape url_decode json_quote : string -> string) (json_unquote : string -> option string).
Context (reader : list Z -> bool * json) (styled fast : json -> string).
Context {St : Type} (process : string -> request -> M St response) (reach : string -> bool).

Definition json_parse (text : list Z) : option json := let '(ok, v) := reader text in if ok : bool then Some v else None.
Abbreviation Call := (HostClient.Call url_escape url_decode json_quote json_unquote process reach).
Abbreviation reply_of := (json_reply json_parse).

Definition is_none {A} (o : option A) : bool := match o with None => true | _ => false end.
(** the callback of the calls that answer with a boolean *)
Definition bool_result (r : option (list Z)) : bool * bool := (is_none (reply_of r), as_bool (reply_of r)).

Definition SetValue (o : object) (key : string) (value : list Z) (version ttl : Z) : M (net St) (option (bool * bool)) :=
  encoded <- lift (Encode (GetEncodedLength (zlen value)) value) ;;
  r <- Call o "SetValue" [("key", Str key); ("ttl", UInt (u32 ttl));
                          ("value", Str (string_of_bytes encoded)); ("version", UInt (u32 version))]%string ;;
  ret (option_map bool_result r).

Definition GetValue (o : object) (key : string) : M (net St) (option (bool * list Z)) :=
  r <- Call o "GetValue" [("key", Str key)]%string ;;
  match r with
  | None => ret None
  | Some r =>
      match reply_of r with
      | Some (JString str) =>
          let text := bytes_of_string str in
          data <- lift (Decode (GetDecodedLength (zlen text)) text) ;;
          ret (Some (false, data))
      | Some _ => ret (Some (false, []))
      | None => ret (Some (true, []))
      end
  end.

Definition PublishStorage (o : object) (node contract endpoint : string) (totalStorage availableStorage reputation timestamp : Z)
  : M (net St) (option (bool * bool)) :=
  let value := JObject [("availableSize", JInt (u32 availableStorage)); ("contract", JString contract);
    ("endpoint", JString endpoint); ("name", JString node); ("reputation", JInt (u32 reputation));
    ("totalSize", JInt (u32 totalStorage)); ("ts", JInt (u32 timestamp)); ("type", JString "storage")]%string in
  r <- Call o "Publish" [("value", Str (styled value))]%string ;;
  ret (option_map bool_result r).

Definition QueryStorage (o : object) (query : string) (limit : Z) : M (net St) (option (bool * json)) :=
  r <- Call o "Query" [("limit", UInt (u32 limit)); ("query", Str query)]%string ;;
  ret (option_map (fun r =>
    match reply_of r with
    | Some v => (false, if isArray v then v else JNull)
    | None => (true, JNull)
    end) r).

(** without endpoints there is no such member *)
Definition relay_published (reg : RelayInfo) : json :=
  JObject ((match endpoints reg with [] => [] | eps => [("endpoints"%string, JArray (map endpoint_json eps))] end) ++
           [("name"%string, JString (rname reg)); ("type"%string, JString "relay")]).
Definition PublishRelay (o : object) (reg : RelayInfo) : M (net St) (option (bool * bool)) :=
  r <- Call o "Publish" [("value", Str (styled (relay_published reg)))]%string ;;
  ret (option_map bool_result r).

Definition QueryRelays (o : object) (hints : option string) (limit : Z) : M (net St) (option (bool * list RelayInfo)) :=
  let query := "type:relay" +:+ match hints with Some h => " " +:+ h | None => EmptyString end in
  r <- Call o "Query" [("limit", UInt (u32 limit)); ("query", Str query)]%string ;;
  match r with
  | None => ret None
  | Some r =>
      match reply_of r with
      | Some v =>
          if isArray v then regs <- lift (parse_relays (elements v)) ;; ret (Some (false, regs)) else ret (Some (false, []))
      | None => ret (Some (true, []))
      end
  end.

(** ** HostInfo as text *)
Definition ToString (h : HostInfo) : string := fast (host_json h).
Definition FromString (str : string) (this : HostInfo) : outcome (bool * HostInfo) :=
  FromJson (json_parse (bytes_of_string str)) this.

(** ** The host publishes its address *)
Definition kademlia_object (kd : string) : object := mkobject kd "Kademlia" "host://Kademlia" "Kademlia".
(** [result->] of a call *)
Definition deref_result {A} (r : option A) : M (net St) A :=
  match r with Some a => ret a | None => fail NullDeref end.
Definition endpoint_key (name : string) : string := "ep:" +:+ name.
Definition endpoint_ttl : Z := 7 * 24 * 60 * 60.
(** one round of init_kad; true when a node took it *)
Fixpoint publish_endpoint (nodes : list string) (name : string) (hostInfo : HostInfo) (now : Z) : M (net St) bool :=
  match nodes with
  | [] => ret false
  | kd :: nodes =>
      CreateSession kd ;;;
      r <- SetValue (kademlia_object kd) (endpoint_key name) (bytes_of_string (ToString hostInfo)) now endpoint_ttl ;;
      pat! (err, done) <- deref_result r ;;
      if negb err && done then ret true else publish_endpoint nodes name hostInfo now
  end.

(** ** BlobCache *)
Record client := mkclient {
  network : net St;
  lookups : gmap string (json * Z);
  opened : bool;
  clock_ms : nat -> Z;
  looked : nat
}.
Definition cacheExpiry : Z := 5 * 60 * 1000.
Definition on_net {A} (m : M (net St) A) : M client A := fun w =>
  obind (m (network w)) (fun '(a, n) => Ok (a, mkclient n (lookups w) (opened w) (clock_ms w) (looked w))).
Definition set_lookups (l : gmap string (json * Z)) : M client unit :=
  modify (fun w => mkclient (network w) l (opened w) (clock_ms w) (looked w)).
(** [Clock::now()], as uint64_t *)
Definition Clock_now : M client Z := fun w =>
  Ok (u64 (clock_ms w (looked w)), mkclient (network w) (lookups w) (opened w) (clock_ms w) (S (looked w))).

Definition cache_SetValue (key : string) (value : json) : M client unit :=
  w <- get ;;
  if negb (opened w) || empty_str key then ret tt else
  now <- Clock_now ;;
  set_lookups (<[key := (value, u64 (now + cacheExpiry))]> (lookups w)).
Definition cache_GetValue (key : string) : M client json :=
  w <- get ;;
  match lookups w !! key with
  | Some (data, expiry) =>
      now <- Clock_now ;;
      if now <? expiry then ret data else set_lookups (delete key (lookups w)) ;;; ret JNull
  | None => ret JNull
  end.
(** what SyncWrite puts in the file, and what the constructor makes of it *)
Definition cache_json (l : gmap string (json * Z)) : json :=
  JArray (map (fun '(k, (v, e)) => JObject [("expiry", JInt (u32 e)); ("key", JString k); ("value", v)]%string) (map_to_list l)).
Fixpoint cache_load (l : list json) (acc : gmap string (json * Z)) : outcome (gmap string (json * Z)) :=
  match l with
  | [] => Ok acc
  | js :: l =>
      obind (index js "value") (fun v => obind (index js "expiry") (fun e => obind (asUInt e) (fun e =>
      obind (index js "key") (fun k => obind (asString k) (fun k => cache_load l (<[k := (v, e)]> acc))))))
  end.

(** ** The client looks a provider up *)
Fixpoint ask_nodes (nodes : list string) (name : string) : M client HostInfo :=
  match nodes with
  | [] => ret (mkhost EmptyString [])
  | kd :: nodes =>
      on_net (CreateSession kd) ;;;
      r <- on_net (GetValue (kademlia_object kd) (endpoint_key name)) ;;
      pat! (err, buffer) <- on_net (deref_result r) ;;
      if err : bool then ask_nodes nodes name else
      if zlen buffer =? 0 then ret (mkhost EmptyString []) else
      let hostInfoStr := string_of_bytes buffer in
      pat! (_, hostInfo) <- lift (FromString hostInfoStr (mkhost EmptyString [])) ;;
      cache_SetValue name (JString hostInfoStr) ;;;
      ret hostInfo
  end.
Definition GetProviderEndpoint (kademliaUrl : list string) (name : string) : M client HostInfo :=
  getInfo <- cache_GetValue name ;;
  match getInfo with
  | JString s =>
      pat! (_, hostInfo) <- lift (FromString s (mkhost EmptyString [])) ;;
      ret hostInfo
  | _ => ask_nodes kademliaUrl name
  end.
End Client.
