(* ===== verification/EndpointLookup.v ===== *)
(** * A host's address, from the host to the client

    What a host publishes of itself through a Kademlia node is what a client that
    looks its name up gets: the composition of the JSON of [Relays], [Base64], the
    calls of [KademliaClient], the parameters of [HttpParams] and the handler of
    [Kademlia], over any node that finds what it stored. *)

From Stdlib Require Import ZArith Lia Bool Ascii String.
From stdpp Require Import base list gmap strings pretty.
From S2P Require Import Prelude StdMap Json JsonReader JsonText JsonCodec Base64 HostHandler HttpParams HttpNumbers JsonParams.
From S2P Require Import HostClient Relays Kademlia KademliaClient.
Set Default Goal Selector "!".
Local Open Scope Z_scope.
Local Open Scope drive_scope.

Definition quote_mark : ascii := ascii_of_nat 34.
(** jsoncpp: only a text with a quotation mark is read as a string, a string is
    written so that it is read back, and [true] is a boolean *)
Record json_ok (reader : list Z -> bool * json) (styled : json -> string) : Prop := {
  json_string_quoted s v : reader (bytes_of_string s) = (true, JString v) -> str_mem quote_mark s = true;
  json_styled s : str_mem quote_mark s = false -> no_nul s ->
    reader (bytes_of_string (styled (JString s))) = (true, JString s);
  json_true : reader (bytes_of_string "true") = (true, JBool true)
}.
(** what a node stored it finds *)
Definition node_ok (K : Type) `{KademliaNode K} : Prop := forall key data ttl version k k',
  Store key data ttl version k = Ok (Some true, k') -> exists k'', FindValue key k' = Ok (Some (Some data), k'').
(** names that are sent as they are *)
Definition plain_text (s : string) : Prop := s <> EmptyString /\ no_nul s /\ str_mem quote_mark s = false.

Section Lookup.
Context (url_escape url_decode json_quote : string -> string) (json_unquote : string -> option string).
Context (reader : list Z -> bool * json) (styled fast : json -> string).
Context {K : Type} `{KademliaNode K} (Digest : list Z -> list Z) (reach : string -> bool).
Hypotheses (Hcodec : codec_ok url_escape url_decode json_quote json_unquote) (Hjson : json_ok reader styled) (Hnode : node_ok K).
Definition process (b : string) : request -> M (node K) response := serve Digest reader styled.
Abbreviation set_value := (SetValue url_escape url_decode json_quote json_unquote reader process reach).
Abbreviation get_value := (GetValue url_escape url_decode json_quote json_unquote reader process reach).
Abbreviation key_of s := (Digest (bytes_of_string s)).

Lemma unwrapped_plain s : str_mem quote_mark s = false -> unwrapped reader s = s.
Proof using Hjson.
  intros Hs. unfold unwrapped. destruct (reader (bytes_of_string s)) as [[] []] eqn:E; try done.
  apply (json_string_quoted _ _ Hjson) in E. congruence.
Qed.
Lemma base64_text l : Forall base64_char l -> no_nul (string_of_bytes l) /\ str_mem quote_mark (string_of_bytes l) = false.
Proof using.
  assert (forall c, base64_char c -> Ascii.eqb (byte_ascii c) "000" = false /\ Ascii.eqb (byte_ascii c) quote_mark = false) as Hc.
  { intros c [->|Hc]; [done|]. apply list_elem_of_In in Hc.
    assert (Forall (fun c => Ascii.eqb (byte_ascii c) "000" = false /\ Ascii.eqb (byte_ascii c) quote_mark = false) base64EncodeMap) as Hf.
    { repeat (apply List.Forall_cons; [by split|]). apply List.Forall_nil. }
    by eapply Forall_forall in Hf. }
  induction l as [|c l IH]; intros Hf; [done|]. apply Forall_cons in Hf as [H1 Hf]. destruct (Hc c H1) as [E1 E2].
  destruct (IH Hf) as [I1 I2]. unfold no_nul in *. unfold string_of_bytes in *. cbn. by rewrite E1, E2.
Qed.
Lemma base64_bytes l : Forall base64_char l -> Forall is_byte l.
Proof using.
  intros Hl. eapply Forall_impl; [exact Hl|]. intros c [->|Hc]; [done|]. apply list_elem_of_In in Hc.
  assert (Forall is_byte base64EncodeMap) as Hf by apply bytes_of_string_bytes. by eapply Forall_forall in Hf.
Qed.

Lemma call_names_plain : Forall plain_name ["key"; "ttl"; "value"; "version"]%string.
Proof using.
  repeat apply Forall_cons_2; try apply Forall_nil_2;
    (split; [done|]; intros [[] [] [] [] [] [] [] []] H0; first [discriminate H0|reflexivity]).
Qed.

Section Call.
Context (b key : string) (w : net (node K)).
Hypotheses (Hb : b ∈ sessions w) (Hr : reach b = true) (Hkey : plain_text key).

Abbreviation first_of rs := (reply_bytes (content (default (mkresponse 0 (Octets [])) (head rs)))).
Lemma call_ok method args rs s' : method <> EmptyString -> find_char "/" method = None ->
  OnKademliaRequest Digest reader styled
    (mkrequest (PATH +:+ String "/" method) (parameter_of url_decode json_unquote EmptyString (postImpl url_escape json_quote args)) None)
    method (hosts w b) = Ok (rs, s') ->
  Call url_escape url_decode json_quote json_unquote process reach (kademlia_object b) method args w =
    Ok (Some (Some (first_of rs)), set_host b s' w).
Proof using Hb Hr.
  intros Hm Hf E. unfold Call, bind at 1, get, obind. cbn [base kademlia_object]. rewrite bool_decide_eq_true_2 by done.
  cbn [negb opath kademlia_object].
  change (url_path "host://Kademlia" method) with (Some (PATH +:+ String "/" method)). cbv iota.
  unfold perform. rewrite Hr. unfold process, serve, ProcessRequest. cbn [path].
  rewrite below_rest by done. cbv iota. rewrite Hf. unfold bind, ret, obind. by rewrite E.
Qed.

Lemma OnSetValue_ok context text ttl version k1 (s : node K) : text <> [] -> Forall base64_char text ->
  parameter context "key" = key -> parameter context "value" = string_of_bytes text ->
  strtoull (parameter context "ttl") = u32 ttl -> strtoull (parameter context "version") = u32 version ->
  Store (key_of key) text (u32 ttl) (u32 version) (controller s) = Ok (Some true, k1) ->
  OnSetValue Digest reader context s = Ok ([ok_text "true"], mknode k1 (logging s)).
Proof using Hjson Hkey.
  intros Hne Hc Ek Ev Et En Hst. destruct Hkey as (Hk & Hk0 & Hkq). destruct (base64_text text Hc) as [_ Htq].
  unfold OnSetValue. rewrite Ek, Ev, Et, En, !unwrapped_plain by done.
  rewrite (u32_small (u32 ttl)) by apply u32_range.
  assert (empty_str key = false) as -> by by destruct key.
  assert (empty_str (string_of_bytes text) = false) as -> by by destruct text.
  rewrite bytes_of_string_of_bytes by by apply base64_bytes. unfold bind, on_node, digest. by rewrite Hst.
Qed.
Lemma OnGetValue_ok context text (s : node K) k2 : text <> [] -> parameter context "key" = key ->
  FindValue (key_of key) (controller s) = Ok (Some (Some text), k2) ->
  OnGetValue Digest reader styled context s = Ok ([ok_text (styled (JString (string_of_bytes text)))], mknode k2 (logging s)).
Proof using Hjson Hkey.
  intros Hne Ek Hf. destruct Hkey as (Hk & Hk0 & Hkq). unfold OnGetValue. rewrite Ek, unwrapped_plain by done.
  assert (empty_str key = false) as -> by by destruct key. unfold bind, on_node, digest. rewrite Hf.
  by destruct text.
Qed.

Lemma SetValue_stores value version ttl text k1 :
  Encode (GetEncodedLength (zlen value)) value = Ok text -> text <> [] -> Forall base64_char text ->
  Store (key_of key) text (u32 ttl) (u32 version) (controller (hosts w b)) = Ok (Some true, k1) ->
  set_value (kademlia_object b) key value version ttl w =
    Ok (Some (false, true), set_host b (mknode k1 (logging (hosts w b))) w).
Proof using Hcodec Hjson Hb Hr Hkey.
  intros He Hne Hc Hst. destruct (base64_text text Hc) as [Ht0 _].
  set (args := [("key", Str key); ("ttl", UInt (u32 ttl)); ("value", Str (string_of_bytes text)); ("version", UInt (u32 version))]%string).
  assert (Forall plain_arg args) as Hargs.
  { pose proof call_names_plain as Hf. destruct Hkey as (_ & Hk0 & _). repeat apply Forall_cons in Hf as [? Hf].
    repeat apply Forall_cons_2; try apply Forall_nil_2; (split; [done|]); cbn; try done; apply u32_range. }
  unfold KademliaClient.SetValue. rewrite He. unfold lift, bind at 1. cbn [obind].
  erewrite bind_ok; [|apply (call_ok "SetValue" args); [done|done|]; unfold OnKademliaRequest; cbn [String.eqb Ascii.eqb Bool.eqb];
    eapply OnSetValue_ok; [exact Hne|exact Hc|by apply parameter_of_body|by apply parameter_of_body| | |exact Hst]].
  2,3: eapply arg_number; [apply in_u64_u32| |by apply parameter_of_body]; reflexivity.
  cbn [head default from_option content ok_text reply_bytes]. unfold ret. cbn [option_map]. unfold bool_result, json_reply, json_parse.
  cbn [id content ok_text reply_bytes]. by rewrite (json_true _ _ Hjson).
Qed.
Lemma GetValue_finds value text k2 : text <> [] -> Forall base64_char text ->
  Decode (GetDecodedLength (zlen text)) text = Ok value ->
  FindValue (key_of key) (controller (hosts w b)) = Ok (Some (Some text), k2) ->
  get_value (kademlia_object b) key w = Ok (Some (false, value), set_host b (mknode k2 (logging (hosts w b))) w).
Proof using Hcodec Hjson Hb Hr Hkey.
  intros Hne Hc Hd Hf. destruct (base64_text text Hc) as [Ht0 Htq].
  set (args := [("key"%string, Str key)]).
  assert (Forall plain_arg args) as Hargs.
  { pose proof call_names_plain as Hp. destruct Hkey as (_ & Hk0 & _). apply Forall_cons in Hp as [? _].
    by repeat apply Forall_cons_2; try apply Forall_nil_2. }
  unfold KademliaClient.GetValue.
  erewrite bind_ok; [|apply (call_ok "GetValue" args); [done|done|]; unfold OnKademliaRequest; cbn [String.eqb Ascii.eqb Bool.eqb];
    eapply OnGetValue_ok; [exact Hne|by apply parameter_of_body|exact Hf]].
  cbn [head default from_option content ok_text reply_bytes]. unfold json_reply, json_parse.
  cbn [id content ok_text reply_bytes]. rewrite (json_styled _ _ Hjson) by done. cbn [is_error member].
  rewrite bytes_of_string_of_bytes by by apply base64_bytes. unfold lift, bind. by rewrite Hd.
Qed.
End Call.

(** jsoncpp reads back what it writes of [h] *)
Definition reads_back (h : HostInfo) : Prop :=
  ToString fast h <> EmptyString /\ reader (bytes_of_string (ToString fast h)) = (true, host_json h).

Lemma cache_SetValue_total name v (w : client (St := node K)) : exists w', cache_SetValue name v w = Ok (tt, w').
Proof using. unfold cache_SetValue, bind, get. cbn [obind]. destruct (negb (opened w) || empty_str name); by eexists. Qed.
(** the rest of the round once the node has answered *)
Lemma ask_answered kd nodes name h n' (wc : client (St := node K)) :
  get_value (kademlia_object kd) (endpoint_key name) (mknet ({[kd]} ∪ sessions (network wc)) (hosts (network wc)))
    = Ok (Some (false, bytes_of_string (ToString fast h)), n') ->
  reader (bytes_of_string (ToString fast h)) = (true, host_json h) -> ToString fast h <> EmptyString -> Forall relay_ok (relays h) ->
  exists wc', ask_nodes url_escape url_decode json_quote json_unquote reader process reach (kd :: nodes) name wc = Ok (h, wc').
Proof using.
  intros E Hread Hne Hrel.
  set (w2 := mkclient n' (lookups wc) (opened wc) (clock_ms wc) (looked wc)).
  destruct (cache_SetValue_total name (JString (ToString fast h)) w2) as [wc' Hc]. exists wc'.
  cbn [ask_nodes]. unfold bind at 1. unfold on_net at 1, CreateSession, modify. cbn [obind].
  unfold bind at 1. unfold on_net at 1. cbn [network]. rewrite E. cbn [obind].
  unfold bind at 1. unfold on_net at 1. cbn [deref_result ret obind network lookups opened clock_ms looked].
  assert ((zlen (bytes_of_string (ToString fast h)) =? 0) = false) as ->.
  { rewrite zlen_bytes_of_string. by destruct (ToString fast h). }
  rewrite string_of_bytes_of_string. unfold FromString, json_parse. rewrite Hread, FromJson_host_json by done.
  fold w2. unfold lift, bind. cbn [obind]. by rewrite Hc.
Qed.

Lemma endpoint_found (kd name : string) (h : HostInfo) (now : Z) (wh : net (node K)) (text : list Z) (k1 : K) :
  reach kd = true -> plain_text name -> Forall relay_ok (relays h) -> reads_back h -> str_size (ToString fast h) < 2 ^ 61 ->
  Encode (GetEncodedLength (str_size (ToString fast h))) (bytes_of_string (ToString fast h)) = Ok text ->
  Store (key_of (endpoint_key name)) text (u32 endpoint_ttl) (u32 now) (controller (hosts wh kd)) = Ok (Some true, k1) ->
  exists wh', publish_endpoint url_escape url_decode json_quote json_unquote reader fast process reach [kd] name h now wh = Ok (true, wh') /\
    forall wc : client (St := node K), lookups wc !! name = None -> hosts (network wc) kd = hosts wh' kd ->
      exists wc', GetProviderEndpoint url_escape url_decode json_quote json_unquote reader process reach [kd] name wc = Ok (h, wc').
Proof using Hcodec Hjson Hnode.
  intros Hr Hname Hrel [Hne Hread] Hlen Henc Hst.
  destruct (base64_roundtrip (bytes_of_string (ToString fast h))) as (t & He & _ & Hc & Hd);
    [apply bytes_of_string_bytes|by rewrite zlen_bytes_of_string|].
  rewrite zlen_bytes_of_string, Henc in He. injection He as <-.
  assert (text <> []) as Ht. { intros ->. cbn in Hd. injection Hd as Hd. by destruct (ToString fast h). }
  assert (plain_text (endpoint_key name)) as Hk. { by destruct Hname as (H1 & H2 & H3). }
  eexists. split.
  - cbn [publish_endpoint]. unfold CreateSession, modify, bind at 1. cbn [obind].
    erewrite bind_ok; [|eapply (SetValue_stores kd (endpoint_key name)); [cbn; set_solver|done|done|by rewrite zlen_bytes_of_string|done|done|exact Hst]].
    reflexivity.
  - intros wc Hl Hh. destruct (Hnode _ _ _ _ _ _ Hst) as [k2 Hf].
    unfold GetProviderEndpoint, cache_GetValue, bind at 1 2, get. cbn [obind]. rewrite Hl. cbn [obind ret].
    epose proof (GetValue_finds kd (endpoint_key name) (mknet ({[kd]} ∪ sessions (network wc)) (hosts (network wc)))
      ltac:(cbn; set_solver) Hr Hk (bytes_of_string (ToString fast h)) text k2 Ht Hc Hd _) as E.
    eapply ask_answered; [exact E|exact Hread|exact Hne|exact Hrel].
    Unshelve. cbn. rewrite Hh. cbn. by rewrite String.eqb_refl.
Qed.
End Lookup.

(** ** With jsoncpp at both ends *)
(** strings that end where they end *)
Definition plain_host (h : HostInfo) : Prop :=
  no_nul (url h) /\ Forall (fun r => no_nul (rname r) /\ Forall (fun ep => no_nul (host ep)) (endpoints r)) (relays h).
Lemma host_json_plain h : plain_host h -> Forall relay_ok (relays h) -> plain (host_json h).
Proof.
  intros [Hu Hs] Hr. assert (forall n, port_ok n -> - 2147483640 < n < 4294967290) as Hport by (unfold port_ok; lia).
  unfold host_json. plain_json; try done. apply Forall_map. rewrite Forall_forall in *. intros r Hin. specialize (Hr r Hin). destruct (Hs r Hin) as [Hn He].
  unfold relay_json. plain_json; try done. apply Forall_map. unfold relay_ok in Hr. rewrite Forall_forall in *. intros ep Hep.
  destruct (Hr ep Hep). unfold endpoint_json. plain_json; try done; auto.
Qed.
Lemma jsoncpp_ok print_double scan_double : json_ok (json_reader scan_double) (toStyledString print_double).
Proof.
  split; [| |by vm_compute].
  - intros s v H%reader_string. by apply str_mem_In.
  - intros s _ Hs%no_nul_In. by apply styled_reader.
Qed.
Section Jsoncpp.
Context (print_double : real -> list Z) (scan_double : list Z -> option real) (url_escape url_decode : string -> string).
Context {K : Type} `{KademliaNode K} (Digest : list Z -> list Z) (reach : string -> bool).
Hypotheses (Hurl : url_ok url_escape url_decode) (Hnode : node_ok K).
Abbreviation quote := (quote_json print_double).
Abbreviation unquote := (unquote_json scan_double).
Abbreviation reader := (json_reader scan_double).
Abbreviation fast := (fastString print_double).
Abbreviation node_process := (process reader (toStyledString print_double) Digest).

(** [C14] What a host publishes is what a client finds: once the node has taken the
    host's address and relays under its name, as jsoncpp writes them, a client that
    looks the name up at that node, and has it not in its cache, gets the same
    address, relays, endpoints and ports. *)
Theorem published_endpoint_found (kd name : string) (h : HostInfo) (now : Z) (wh : net (node K)) (text : list Z) (k1 : K) :
  reach kd = true -> plain_text name -> Forall relay_ok (relays h) -> plain_host h -> str_size (ToString fast h) < 2 ^ 61 ->
  Encode (GetEncodedLength (str_size (ToString fast h))) (bytes_of_string (ToString fast h)) = Ok text ->
  Store (Digest (bytes_of_string (endpoint_key name))) text (u32 endpoint_ttl) (u32 now) (controller (hosts wh kd)) = Ok (Some true, k1) ->
  exists wh', publish_endpoint url_escape url_decode quote unquote reader fast node_process reach [kd] name h now wh = Ok (true, wh') /\
    forall wc : client (St := node K), lookups wc !! name = None -> hosts (network wc) kd = hosts wh' kd ->
      exists wc', GetProviderEndpoint url_escape url_decode quote unquote reader node_process reach [kd] name wc = Ok (h, wc').
Proof using Hurl Hnode.
  intros Hr Hname Hrel Hp Hlen Henc Hst. pose proof (host_json_plain h Hp Hrel) as Hj.
  apply (endpoint_found _ _ _ _ _ _ fast Digest reach (json_codec_ok print_double scan_double _ _ Hurl)
    (jsoncpp_ok print_double scan_double) Hnode kd name h now wh text k1); try done.
  assert (reader (bytes_of_string (ToString fast h)) = (true, host_json h)) as Hread by by apply fast_reader.
  split; [by eapply reader_nonempty|done].
Qed.
End Jsoncpp.

(** ** A node that is a map *)
#[export] Instance map_node : KademliaNode (gmap (list Z) (list Z)) := {
  Store := fun key data _ _ k => Ok (Some true, <[key := data]> k);
  FindValue := fun key k => Ok (Some (k !! key), k);
  Publish := fun key data _ _ k => Ok (Some true, <[key := data]> k);
  Query := fun _ _ _ k => Ok (Some None, k);
  StoreLog := fun _ _ _ _ k => Ok (Some true, k);
  QueryLogs := fun _ _ _ k => Ok (Some None, k)
}.
Lemma map_node_ok : node_ok (gmap (list Z) (list Z)).
Proof. intros key data ttl version k k' [= <-]. eexists. cbn. by rewrite lookup_insert_eq. Qed.

Definition sample_host : HostInfo := mkhost "http://10.0.0.5" [mkrelay "n1" [mkendpoint "10.0.0.9" 1080 443]].
Definition sample_text : list Z :=
  match Encode (GetEncodedLength (str_size (ToString (fastString no_print) sample_host))) (bytes_of_string (ToString (fastString no_print) sample_host)) with
  | Ok text => text | _ => []
  end.
Definition empty_net : net (node (gmap (list Z) (list Z))) := mknet ∅ (fun _ => mknode ∅ []).
Lemma published_endpoint_found_witness : exists wh',
  publish_endpoint percent_escape percent_decode (quote_json no_print) (unquote_json some_double) (json_reader some_double) (fastString no_print)
    (process (json_reader some_double) (toStyledString no_print) (fun d => d)) (fun _ => true) ["http://k"%string] "n1" sample_host 1500000000 empty_net = Ok (true, wh') /\
  forall wc, lookups wc !! "n1"%string = None -> hosts (network wc) "http://k"%string = hosts wh' "http://k"%string ->
    exists wc', GetProviderEndpoint percent_escape percent_decode (quote_json no_print) (unquote_json some_double) (json_reader some_double)
      (process (json_reader some_double) (toStyledString no_print) (fun d => d)) (fun _ => true) ["http://k"%string] "n1" wc = Ok (sample_host, wc').
Proof.
  apply (published_endpoint_found no_print some_double percent_escape percent_decode
    (fun d => d) (fun _ => true) sample_url_ok map_node_ok "http://k" "n1" sample_host 1500000000 empty_net
    sample_text (<[bytes_of_string "ep:n1" := sample_text]> ∅)); try reflexivity.
  - split; [discriminate|split; reflexivity].
  - repeat (apply List.Forall_cons || apply List.Forall_nil || split); cbn; unfold port_ok; lia.
  - repeat (apply List.Forall_cons || apply List.Forall_nil || split); reflexivity.
Defined.
