(* ===== verification/RelayManager.v ===== *)
(** * The relays a host is reached through (src/src/bdhost: RelayManager.cpp, init_kad of
      Main.cpp)

    The host runs a client process for every relay it finds and publishes the relays
    with its address.  The machine's processes are a table of what their executables
    are and what they were started with; fork and the search of exec are parameters. *)

From Stdlib Require Import ZArith Lia Bool Ascii String.
From stdpp Require Import base list gmap strings pretty.
From S2P Require Import Prelude StdMap Json HostHandler HttpParams HostClient Relays Kademlia KademliaClient.
Set Default Goal Selector "!".
Local Open Scope Z_scope.
Local Open Scope drive_scope.

(** what /proc tells of a process: the text of its exe link, empty for a process that
    has ended and was not waited for *)
Record process := mkprocess { exe : string; argv : list string }.

Section Manager.
Context (url_escape url_decode json_quote : string -> string) (json_unquote : string -> option string).
Context (reader : list Z -> bool * json) (styled fast : json -> string).
Context {St : Type} (serve : string -> request -> M St response) (reach : string -> bool).
Context (fork : gmap Z process -> Z) (exec : string -> option string).
(** Options *)
Context (relayExe hostName : string) (kademlia : list string) (limit : Z).

Record host := mkhost {
  network : net St;
  procs : gmap Z process;
  regs : list (string * RelayInfo);
  relays : list (string * Z)
}.
Definition set_regs (l : list (string * RelayInfo)) (h : host) : host := mkhost (network h) (procs h) l (relays h).
Definition set_relays (l : list (string * Z)) (h : host) : host := mkhost (network h) (procs h) (regs h) l.
Definition set_procs (t : gmap Z process) (h : host) : host := mkhost (network h) t (regs h) (relays h).
Definition on_net {A} (m : M (net St) A) : M host A := fun h =>
  obind (m (network h)) (fun '(a, n) => Ok (a, mkhost n (procs h) (regs h) (relays h))).

(** [readlink] into [BUFSIZ - 1] bytes, and strstr *)
Definition IsRelayAlive (pid : Z) (t : gmap Z process) : bool :=
  match t !! pid with
  | None => false
  | Some p =>
      let cmd := substring 0 8191 (exe p) in
      negb (empty_str cmd) && match String.index 0 relayExe cmd with Some _ => true | None => false end
  end.

(** the loop over the map's entries; erasing one leaves the others in place *)
Fixpoint cleanup_loop (itr : list (string * Z)) (h : host) : host :=
  match itr with
  | [] => h
  | (name, pid) :: itr =>
      cleanup_loop itr
        (if IsRelayAlive pid (procs h) then h
         else set_relays (SMap.erase name (relays h)) (set_regs (SMap.erase name (regs h)) h))
  end.
Definition Cleanup (h : host) : host := cleanup_loop (relays h) h.

Definition relay_args (ep : Endpoint) : list string :=
  [relayExe; "-n"; hostName; "-h"; Relays.host ep; "-p"; pretty (Z.to_N (quicPort ep));
   "-o"; "/var/log/bdrelay." +:+ hostName +:+ ".log"]%string.
(** the child's [execvp]; a child that cannot run the program ends *)
Definition StartRelayProcess (info : RelayInfo) : M host Z := fun h =>
  match endpoints info with
  | [] => Ok (0, h)
  | ep :: _ =>
      let pid := fork (procs h) in
      if pid <? 0 then Ok (0, h)
      else Ok (pid, set_procs (<[pid := match exec relayExe with
                                        | Some path => mkprocess path (relay_args ep)
                                        | None => mkprocess EmptyString []
                                        end]> (procs h)) h)
  end.
Fixpoint start_relays (arr : list RelayInfo) : M host unit :=
  match arr with
  | [] => ret tt
  | info :: arr =>
      h <- get ;;
      match SMap.find (rname info) (relays h) with
      | Some _ => start_relays arr
      | None =>
          pid <- StartRelayProcess info ;;
          (if pid =? 0 then ret tt
           else modify (fun h => set_regs (SMap.insert (rname info) info (regs h)) (set_relays (SMap.insert (rname info) pid (relays h)) h))) ;;;
          start_relays arr
      end
  end.
(** the first node that answers is the one that is asked *)
Fixpoint find_relays (nodes : list string) : M host unit :=
  match nodes with
  | [] => ret tt
  | kd :: nodes =>
      on_net (CreateSession kd) ;;;
      pat! (err, arr) <- on_net (r <- QueryRelays url_escape url_decode json_quote json_unquote reader serve reach (kademlia_object kd) None limit ;; deref_result r) ;;
      if err : bool then find_relays nodes else start_relays arr
  end.
Definition Validate : M host unit :=
  modify Cleanup ;;;
  h <- get ;;
  if limit <=? zlen (relays h) then ret tt else find_relays kademlia.
Definition GetRelayInfos (h : host) : list RelayInfo := map snd (regs h).

(** ~RelayManager: SIGTERM to the relays that run *)
Definition terminated (h : host) : list Z := filter (fun pid => IsRelayAlive pid (procs h) = true) (map snd (relays h)).

(** ** init_kad *)
Definition endpoint_url (endpoint : string) (port : Z) : string :=
  if empty_str endpoint then "http://localhost:" +:+ pretty (Z.to_N port) else endpoint.
(** every relay is published under the host's own name *)
Definition published_info (url : string) (infos : list RelayInfo) : HostInfo :=
  Relays.mkhost url (map (fun r => mkrelay hostName (endpoints r)) infos).
(** a round of the loop, without PublishStorage *)
Definition kad_round (endpoint : string) (port now : Z) : M host HostInfo :=
  Validate ;;;
  h <- get ;;
  let info := published_info (endpoint_url endpoint port) (GetRelayInfos h) in
  on_net (publish_endpoint url_escape url_decode json_quote json_unquote reader fast serve reach kademlia hostName info now) ;;;
  ret info.
End Manager.
Arguments host : clear implicits.

Import SMapFacts.

Section Facts.
Context (url_escape url_decode json_quote : string -> string) (json_unquote : string -> option string).
Context (reader : list Z -> bool * json) {St : Type} (serve : string -> request -> M St response) (reach : string -> bool).
Context (fork : gmap Z process -> Z) (exec : string -> option string).
Context (relayExe hostName : string) (kademlia : list string) (limit : Z).
(** the process that is new is not one that is there, and is not the first one *)
Hypothesis Hfork : forall t, 0 <= fork t -> fork t <> 0 /\ t !! fork t = None.
Implicit Types (h : host St) (k : string) (pid : Z) (info : RelayInfo).
Abbreviation alive h pid := (IsRelayAlive relayExe pid (procs h)).
Abbreviation Cleanup := (Cleanup relayExe).
Abbreviation start_relays := (start_relays fork exec relayExe hostName).
Abbreviation Validate := (Validate url_escape url_decode json_quote json_unquote reader serve reach fork exec relayExe hostName kademlia limit).

(** every entry of [relays] has one in [regs], of its own name, and the process, if it
    is there, was started for the first endpoint *)
Record entry_ok h k pid : Prop := mkentry_ok {
  entry_pid : pid <> 0;
  entry_reg : exists info ep eps, SMap.find k (regs h) = Some info /\ rname info = k /\ endpoints info = ep :: eps /\
    forall p, procs h !! pid = Some p -> exe p = EmptyString \/ argv p = relay_args relayExe hostName ep
}.
Record managed h : Prop := mkmanaged {
  managed_sorted : SMap.sorted (relays h) /\ SMap.sorted (regs h);
  managed_entry : forall k pid, SMap.find k (relays h) = Some pid -> entry_ok h k pid;
  managed_regs : forall k, SMap.find k (regs h) <> None -> SMap.find k (relays h) <> None
}.
(** the processes of all entries are there *)
Definition present h : Prop := forall k pid, SMap.find k (relays h) = Some pid -> is_Some (procs h !! pid).

(** ** Cleanup *)
Lemma cleanup_loop_find itr : forall h, SMap.sorted itr -> SMap.sorted (relays h) -> SMap.sorted (regs h) ->
  let h' := cleanup_loop relayExe itr h in
  procs h' = procs h /\ network h' = network h /\ SMap.sorted (relays h') /\ SMap.sorted (regs h') /\
  let gone k := match SMap.find k itr with Some pid => negb (alive h pid) | None => false end in
  (forall k, SMap.find k (relays h') = if gone k then None else SMap.find k (relays h)) /\
  (forall k, SMap.find k (regs h') = if gone k then None else SMap.find k (regs h)).
Proof.
  induction itr as [|[k0 pid0] itr IH]; intros h; [by repeat split|]. cbn [SMap.sorted]. intros [Ha Hi] Hs Hg. cbn zeta. cbn [cleanup_loop].
  set (h1 := if alive h pid0 then h else _).
  assert (procs h1 = procs h /\ network h1 = network h) as [Ep En] by (unfold h1; by destruct (alive h pid0)).
  destruct (IH h1 Hi) as (E1 & E2 & S1 & S2 & F1 & F2).
  1,2: unfold h1; destruct (alive h pid0); [done|by apply sorted_erase].
  rewrite E1, E2, Ep, En. do 4 (split; [done|]). 
  split; intros k; rewrite ?F1, ?F2, Ep; cbn [SMap.find]; destruct (String.eqb_spec k k0) as [->|Hne].
  1,3: rewrite (above_find k0 itr Ha); unfold h1; destruct (alive h pid0); cbn; by rewrite ?find_erase, ?String.eqb_refl.
  all: assert (SMap.find k (relays h1) = SMap.find k (relays h) /\ SMap.find k (regs h1) = SMap.find k (regs h)) as [Er Eg]; [|by rewrite ?Er, ?Eg].
  all: unfold h1; destruct (alive h pid0); cbn; [done|]; rewrite !find_erase by done; by apply String.eqb_neq in Hne as ->.
Qed.
Lemma Cleanup_ok h : managed h -> managed (Cleanup h) /\ present (Cleanup h) /\ procs (Cleanup h) = procs h /\ network (Cleanup h) = network h /\
  forall k pid, SMap.find k (relays (Cleanup h)) = Some pid <-> SMap.find k (relays h) = Some pid /\ alive h pid = true.
Proof.
  intros [[Hs Hg] He Hr]. destruct (cleanup_loop_find (relays h) h Hs Hs Hg) as (E1 & E2 & S1 & S2 & F1 & F2). fold (Cleanup h) in *.
  assert (forall k pid, SMap.find k (relays (Cleanup h)) = Some pid <-> SMap.find k (relays h) = Some pid /\ alive h pid = true) as Hf.
  { intros k pid. rewrite F1. destruct (SMap.find k (relays h)) as [q|]; [|by split; [|intros [? _]]].
    destruct (alive h q) eqn:Ea; cbn; split; [by intros [= <-]|by intros [? _]|done|intros [[= <-] ?]; congruence]. }
  split_and!; [split; [done| |]| |done|done|done].
  - intros k pid [Hk Ha]%Hf. destruct (He k pid Hk) as [H0 (info & ep & eps & Hi & Hn)]. split; [done|]. exists info, ep, eps.
    rewrite F2, Hk, Ha, E1. by split.
  - intros k Hk. rewrite F2 in Hk. rewrite F1. destruct (SMap.find k (relays h)) as [q|] eqn:Ek.
    + destruct (alive h q); [done|]. by cbn in Hk.
    + by apply Hr in Hk.
  - intros k pid [Hk Ha]%Hf. rewrite E1. unfold IsRelayAlive in Ha. by destruct (procs h !! pid).
Qed.

(** ** Starting relays *)
(** nothing that was there is lost *)
Definition kept h h' : Prop := forall k pid, SMap.find k (relays h) = Some pid -> SMap.find k (relays h') = Some pid.
Definition sound h h' : Prop := managed h' /\ present h' /\ kept h h'.
Lemma sound_refl h : managed h -> present h -> sound h h.
Proof. intros Hm Hp. split; [done|]. split; [done|]. by intros k pid Hk. Qed.
Lemma managed_process h pid p : managed h -> present h -> procs h !! pid = None ->
  managed (set_procs (<[pid := p]> (procs h)) h) /\ present (set_procs (<[pid := p]> (procs h)) h).
Proof.
  intros [Hs He Hr] Hp Hn. split; [split; [done| |done]|].
  - intros k q Hk. destruct (He k q Hk) as [H0 (info & ep & eps & Hi & Hnm & Hep & Hpr)]. split; [done|]. exists info, ep, eps.
    split_and!; [done..|]. intros r. cbn. rewrite lookup_insert_ne; [by apply Hpr|]. intros ->. destruct (Hp k q Hk) as [x Hx]. congruence.
  - intros k q Hk. cbn. destruct (decide (pid = q)) as [->|Hne]; [rewrite lookup_insert_eq; by eexists|].
    rewrite lookup_insert_ne by done. by apply (Hp k).
Qed.
Lemma managed_insert h pid info ep eps : managed h -> present h -> pid <> 0 -> is_Some (procs h !! pid) -> endpoints info = ep :: eps ->
  (forall p, procs h !! pid = Some p -> exe p = EmptyString \/ argv p = relay_args relayExe hostName ep) ->
  SMap.find (rname info) (relays h) = None ->
  sound h (set_regs (SMap.insert (rname info) info (regs h)) (set_relays (SMap.insert (rname info) pid (relays h)) h)).
Proof.
  intros [[Hs Hg] He Hr] Hp H0 Hin Hep Hpr Hnew. split; [split|split].
  - cbn. split; by apply sorted_insert.
  - cbn. intros k q. rewrite find_insert. destruct (String.eqb_spec k (rname info)) as [->|Hne].
    + intros [= <-]. split; [done|]. exists info, ep, eps. cbn. by rewrite find_insert_eq.
    + intros Hk. destruct (He k q Hk) as [Hq (i & e & es & Hi & Hn)]. split; [done|]. exists i, e, es. cbn. by rewrite find_insert_ne.
  - cbn. intros k. rewrite !find_insert. destruct (String.eqb k (rname info)); [done|]. apply Hr.
  - intros k q. cbn. rewrite find_insert. destruct (String.eqb k (rname info)); [by intros [= <-]|]. apply Hp.
  - intros k q Hk. cbn. rewrite find_insert_ne; [done|]. intros ->. congruence.
Qed.
Lemma start_relays_ok arr : forall h, managed h -> present h -> exists h', start_relays arr h = Ok (tt, h') /\ sound h h'.
Proof.
  induction arr as [|info arr IH]; intros h Hm Hp; [exists h; split; [done|by apply sound_refl]|]. cbn [RelayManager.start_relays]. erewrite bind_ok by reflexivity.
  destruct (SMap.find (rname info) (relays h)) eqn:Ef; [by apply IH|].
  assert (exists pid h1, StartRelayProcess fork exec relayExe hostName info h = Ok (pid, h1) /\ relays h1 = relays h /\ managed h1 /\ present h1 /\
    (pid = 0 \/ (exists ep eps, endpoints info = ep :: eps /\ is_Some (procs h1 !! pid) /\
      forall p, procs h1 !! pid = Some p -> exe p = EmptyString \/ argv p = relay_args relayExe hostName ep))) as (pid & h1 & E & Er & Hm1 & Hp1 & Hs).
  { unfold StartRelayProcess. destruct (endpoints info) as [|ep eps]; [exists 0, h; split_and!; try done; by left|].
    destruct (Z.ltb_spec (fork (procs h)) 0) as [Hlt|Hge]; [exists 0, h; split_and!; try done; by left|].
    destruct (Hfork (procs h) Hge) as [H0 Hn]. eexists _, _. split; [done|]. split; [done|].
    match goal with |- managed (set_procs (<[_ := ?p]> _) _) /\ _ => destruct (managed_process h _ p Hm Hp Hn) as [Hm' Hp'] end. split; [done|]. split; [done|]. right.
    exists ep, eps. split; [done|]. cbn. rewrite lookup_insert_eq. split; [by eexists|]. intros p [= <-]. destruct (exec relayExe); [by right|by left]. }
  erewrite bind_ok by exact E. destruct (Z.eqb_spec pid 0) as [->|H0].
  - erewrite bind_ok by reflexivity. destruct (IH h1 Hm1 Hp1) as (h' & E' & Hm' & Hp' & Hk'). exists h'. split; [done|]. split; [done|]. split; [done|].
    intros k q Hk. apply Hk'. by rewrite Er.
  - destruct Hs as [|(ep & eps & Hep & Hin & Hpr)]; [done|]. erewrite bind_ok by reflexivity.
    destruct (managed_insert h1 pid info ep eps Hm1 Hp1 H0 Hin Hep Hpr) as (Hm2 & Hp2 & Hk2); [by rewrite Er|].
    destruct (IH _ Hm2 Hp2) as (h' & E' & Hm' & Hp' & Hk'). exists h'. split; [exact E'|]. split; [done|]. split; [done|].
    intros k q Hk. apply Hk', Hk2. by rewrite Er.
Qed.

(** ** Validate *)
Lemma on_net_frame {B} (m : M (net St) B) h b h' : on_net m h = Ok (b, h') -> procs h' = procs h /\ regs h' = regs h /\ relays h' = relays h.
Proof. unfold on_net. intros ([c n] & _ & E)%obind_inv. by injection E as <- <-. Qed.
Lemma managed_frame h h' : procs h' = procs h -> regs h' = regs h -> relays h' = relays h -> managed h -> present h -> sound h h'.
Proof.
  intros Ep Eg Er [Hs He Hr] Hp. unfold sound, present, kept. rewrite Ep, Er. split; [split|]; rewrite ?Eg, ?Er; try done.
  intros k pid Hk. destruct (He k pid Hk) as [H0 Hi]. split; [done|]. by rewrite Ep, Eg.
Qed.
Lemma sound_trans h1 h2 h3 : sound h1 h2 -> sound h2 h3 -> sound h1 h3.
Proof. intros (_ & _ & K1) (M & P & K2). split; [done|]. split; [done|]. intros k pid Hk. by apply K2, K1. Qed.
Lemma find_relays_ok nodes : forall h h', managed h -> present h ->
  find_relays url_escape url_decode json_quote json_unquote reader serve reach fork exec relayExe hostName limit nodes h = Ok (tt, h') -> sound h h'.
Proof.
  induction nodes as [|kd nodes IH]; intros h h' Hm Hp E; cbn [find_relays] in E; [injection E as <-; by apply sound_refl|].
  apply bind_inv in E as (u & h1 & (E1 & G1 & R1)%on_net_frame & E). apply bind_inv in E as ([er arr] & h2 & (E2 & G2 & R2)%on_net_frame & E).
  destruct (managed_frame h h2) as (Hm2 & Hp2 & Hk2); [congruence..|done|done|].
  apply (sound_trans h h2); [done|]. destruct er; [by apply IH|]. destruct (start_relays_ok arr h2 Hm2 Hp2) as (h3 & E3 & Hs3). rewrite E in E3. by injection E3 as ->.
Qed.
(** what a round of Validate does to a manager whose tables are together *)
Lemma Validate_ok h h' : managed h -> Validate h = Ok (tt, h') ->
  managed h' /\ present h' /\ (forall k pid, SMap.find k (relays h) = Some pid -> alive h pid = true -> SMap.find k (relays h') = Some pid) /\
  (limit <= zlen (relays (Cleanup h)) -> h' = Cleanup h).
Proof.
  intros Hm E. destruct (Cleanup_ok h Hm) as (Hm1 & Hp1 & Ep & En & Hf). unfold RelayManager.Validate in E.
  erewrite bind_ok in E by reflexivity. erewrite bind_ok in E by reflexivity.
  destruct (Z.leb_spec limit (zlen (relays (Cleanup h)))) as [Hle|Hlt].
  - injection E as <-. split_and!; [done|done| |done]. intros k pid Hk Ha. by apply Hf.
  - destruct (find_relays_ok _ _ _ Hm1 Hp1 E) as (Hm' & Hp' & Hk'). split_and!; [done|done| |lia]. intros k pid Hk Ha. by apply Hk', Hf.
Qed.
(** a manager that was just made *)
Lemma fresh_managed (n : net St) (t : gmap Z process) : managed (mkhost n t [] []).
Proof. by split. Qed.

(** [C18] The tables of the relay manager stay together: after a round of Validate every
    relay that has a process has a registration of its own name, and the process was
    started for that relay's first endpoint; the relays that were running still are,
    those whose process had ended are forgotten or were started anew, and nothing is
    started when there are enough. *)
Theorem relays_stay_together h h' : managed h -> Validate h = Ok (tt, h') ->
  managed h' /\ present h' /\
  (forall k pid, SMap.find k (relays h) = Some pid -> alive h pid = true -> SMap.find k (relays h') = Some pid) /\
  (limit <= zlen (relays (Cleanup h)) -> h' = Cleanup h).
Proof. apply Validate_ok. Qed.
(** what is published lists exactly the relays that have a process *)
Lemma published_relays h k : managed h ->
  (exists info, SMap.find k (regs h) = Some info /\ In info (GetRelayInfos h)) <-> (exists pid, SMap.find k (relays h) = Some pid).
Proof.
  intros [[Hs Hg] He Hr]. split.
  - intros (info & Hk & _). destruct (SMap.find k (relays h)) as [pid|] eqn:E; [by eexists|]. by apply (Hr k) in E; [|congruence].
  - intros (pid & Hk). destruct (entry_reg _ _ _ (He k pid Hk)) as (info & ep & eps & Hi & _). exists info. split; [done|].
    apply in_map_iff. exists (k, info). split; [done|]. by apply find_in.
Qed.
End Facts.

(** ** A round over a network of canned answers *)
(** the pid after the largest that is there *)
Definition next_pid (t : gmap Z process) : Z := map_fold (fun k _ m => Z.max k m) 0 t + 1.
Lemma next_pid_above t : 0 < next_pid t /\ forall k p, t !! k = Some p -> k < next_pid t.
Proof.
  unfold next_pid. apply (map_fold_weak_ind (fun m t => 0 < m + 1 /\ forall k (p : process), t !! k = Some p -> k < m + 1)); [by split|].
  intros k p t' m Hk [H0 IH]. split; [lia|]. intros k' q. destruct (decide (k = k')) as [->|Hne]; [lia|].
  rewrite lookup_insert_ne by done. intros Hq. specialize (IH k' q Hq). lia.
Qed.
Lemma next_pid_new t : 0 <= next_pid t -> next_pid t <> 0 /\ t !! next_pid t = None.
Proof.
  intros _. destruct (next_pid_above t) as [H0 Hk]. split; [lia|]. destruct (t !! next_pid t) as [p|] eqn:E; [|done].
  specialize (Hk _ _ E). lia.
Qed.
Definition relay_answer (b : string) (r : request) : M unit response := ret (mkresponse 200 (Text "R")).
Definition relay_reader (text : list Z) : bool * json :=
  (true, JArray [relay_published (mkrelay "r1" [mkendpoint "10.0.0.1" 1080 443]); relay_published (mkrelay "r2" [mkendpoint "10.0.0.2" 1080 443]);
                 relay_published (mkrelay "r1" [])]).
Definition new_host : host unit := RelayManager.mkhost (mknet ∅ (fun _ => tt)) ∅ [] [].
Abbreviation sample_validate := (Validate id id id Some relay_reader relay_answer (fun _ => true) next_pid (fun f => Some ("/usr/bin/" +:+ f))
  "relay-client" "me" ["http://k1"%string; "http://k2"%string]).
(** all the relays of an answer are started, although the limit is one *)
Lemma limit_exceeded : exists h', sample_validate 1 new_host = Ok (tt, h') /\ relays h' = [("r1"%string, 1); ("r2"%string, 2)].
Proof. eexists. split; [vm_compute; reflexivity|]. reflexivity. Qed.
Lemma relays_stay_together_witness : exists h',
  sample_validate 2 new_host = Ok (tt, h') /\ managed "relay-client" "me" h' /\ present h' /\
  (forall k pid, SMap.find k (relays new_host) = Some pid -> IsRelayAlive "relay-client" pid (procs new_host) = true -> SMap.find k (relays h') = Some pid) /\
  (2 <= zlen (relays (Cleanup "relay-client" new_host)) -> h' = Cleanup "relay-client" new_host).
Proof.
  assert (exists h', sample_validate 2 new_host = Ok (tt, h')) as [h' E] by (eexists; vm_compute; reflexivity).
  exists h'. split; [exact E|].
  exact (relays_stay_together id id id Some relay_reader relay_answer (fun _ => true) next_pid (fun f => Some ("/usr/bin/" +:+ f)) "relay-client" "me"
    ["http://k1"%string; "http://k2"%string] 2 next_pid_new new_host h' (fresh_managed "relay-client" "me" _ _) E).
Defined.
