(* ===== verification/VolumeManager.v ===== *)
(** * The volume manager (src/src/bdfsclient-lib/VolumeManager.cpp)

    A volume's description is JSON: its geometry and, for each column, the name of
    a partition and the provider that has it.  CreateVolumePartitions finds
    providers through a Kademlia node and reserves and creates a partition on each;
    LoadVolumeFromJson looks the providers up and puts the volume together.  The
    relays of a session are not part of [net]. *)

From Stdlib Require Import ZArith Lia Bool Ascii String.
From stdpp Require Import base list gmap strings pretty.
From S2P Require Import Prelude Json Contracts HostHandler HostClient Volume Relays Kademlia KademliaClient.
Set Default Goal Selector "!".
Local Open Scope Z_scope.
Local Open Scope drive_scope.

(** the value CreateVolumePartitions returns *)
Definition volume_json (blockSize blockCount dataBlocks codeBlocks : Z) (partitions : list json) : json :=
  JObject [("blockCount", JInt blockCount); ("blockSize", JInt blockSize); ("codeBlocks", JInt codeBlocks);
           ("dataBlocks", JInt dataBlocks); ("partitions", JArray partitions)]%string.
Definition partition_json (name provider : string) : json :=
  JObject [("name", JString name); ("provider", JString provider)]%string.

Section Manager.
Context (url_escape url_decode json_quote : string -> string) (json_unquote : string -> option string).
Context (reader : list Z -> bool * json) (styled : json -> string).
Context {St : Type} (process : string -> request -> M St response) (reach : string -> bool).
Context (kademliaUrl : list string).
Abbreviation endpoint_of := (GetProviderEndpoint url_escape url_decode json_quote json_unquote reader process reach kademliaUrl).

Definition orM {A} (o : outcome A) : M (client (St := St)) A := lift o.
Definition session (b : string) : M (client (St := St)) unit := on_net (CreateSession b).

(** ** LoadVolumeFromJson *)
Definition partition_of (ep : HostInfo) (name : string) : object :=
  mkobject (Relays.url ep) "Partition" ("host://Partitions/" +:+ name) name.
Fixpoint load_partitions (i : Z) (configs : list json) (blockCount blockSize : Z) (v : Volume.t object)
  : M (client (St := St)) (option (Volume.t object)) :=
  match configs with
  | [] => ret (Some v)
  | config :: configs =>
      n <- orM (index config "name") ;;
      pr <- (if isString n then orM (index config "provider") else ret JNull) ;;
      match n, pr with
      | JString name, JString provider =>
          ep <- endpoint_of provider ;;
          if empty_str (Relays.url ep) then ret None else
          session (Relays.url ep) ;;;
          pat! (_, v) <- orM (Volume.SetPartition i
                 (Some (Volume.Partition.mk blockCount blockSize (partition_of ep name))) v) ;;
          load_partitions (i + 1) configs blockCount blockSize v
      | _, _ => ret None
      end
  end.
Definition LoadVolumeFromJson (v : json) : M (client (St := St)) (option (Volume.t object)) :=
  if negb (isObject v) || negb (isIntegral (member v "blockSize")) || negb (isIntegral (member v "blockCount")) ||
     negb (isIntegral (member v "dataBlocks")) || negb (isIntegral (member v "codeBlocks")) ||
     negb (isArray (member v "partitions"))
  then ret None else
  blockSize <- orM (asUInt (member v "blockSize")) ;;
  blockCount <- orM (asUInt (member v "blockCount")) ;;
  dataBlocks <- orM (asUInt (member v "dataBlocks")) ;;
  codeBlocks <- orM (asUInt (member v "codeBlocks")) ;;
  let configs := elements (member v "partitions") in
  if zlen configs <? u64 (dataBlocks + codeBlocks) then ret None else
  load_partitions 0 configs blockCount blockSize (Volume.make dataBlocks codeBlocks blockCount blockSize).

(** ** CreateVolumePartitions *)
(** what the loops carry: the providers tried and the partitions made *)
Record progress := mkprogress { providersUsed : list string; partitionsArray : list json }.

Definition read_contract (v : json) : outcome contract :=
  obind (index v "contract") (fun c => obind (asString c) (fun c =>
  obind (index v "name") (fun n => obind (asString n) (fun n =>
  obind (index v "availableSize") (fun s => obind (asUInt s) (fun s =>
  obind (index v "reputation") (fun r => obind (asUInt r) (fun r => Ok (mkcontract c n s r))))))))).
Fixpoint read_contracts (l : list json) : outcome (list contract) :=
  match l with
  | [] => Ok []
  | v :: l => obind (read_contract v) (fun c => obind (read_contracts l) (fun cs => Ok (c :: cs)))
  end.
Definition folder_object (b : string) : object := mkobject b "PartitionFolder" "host://Partitions" "Partitions".

(** one provider: its endpoint, the reservation and the partition *)
Definition try_provider (providerSize blockSize : Z) (c : contract) (s : progress) : M (client (St := St)) progress :=
  if existsb (String.eqb (provider c)) (providersUsed s) then ret s else
  ep <- endpoint_of (provider c) ;;
  if empty_str (Relays.url ep) then ret s else
  let s := mkprogress (provider c :: providersUsed s) (partitionsArray s) in
  session (Relays.url ep) ;;;
  let folder := folder_object (Relays.url ep) in
  r <- on_net (HostClient.ReservePartition url_escape url_decode json_quote json_unquote process reach folder providerSize) ;;
  buf <- on_net (deref_result r) ;;
  let reserveId := string_of_bytes buf in
  if empty_str reserveId then ret s else
  r <- on_net (HostClient.CreatePartition url_escape url_decode json_quote json_unquote (json_parse reader) process reach
         folder reserveId blockSize) ;;
  result <- on_net (deref_result r) ;;
  match result with
  | None => ret s
  | Some obj => ret (mkprogress (providersUsed s) (partitionsArray s ++ [partition_json (HostClient.name obj) (provider c)]))
  end.
Fixpoint try_contracts (providerSize blockSize : Z) (providerCount : nat) (cs : list contract) (s : progress)
  : M (client (St := St)) progress :=
  match cs with
  | [] => ret s
  | c :: cs =>
      s' <- try_provider providerSize blockSize c s ;;
      (* the count is compared where a partition was added *)
      if (length (partitionsArray s) <? length (partitionsArray s'))%nat && Nat.eqb (length (partitionsArray s')) providerCount
      then ret s' else try_contracts providerSize blockSize providerCount cs s'
  end.
Inductive query_result :=
| NoProviders
| Queried (kadActive : bool) (s : progress).
(** the do-while loop; [retries] more rounds are left after this one *)
Fixpoint query_rounds (retries : nat) (retryCount : Z) (kadActive : bool) (kademlia : object) (query : string)
    (providerSize blockSize : Z) (providerCount : nat) (s : progress) : M (client (St := St)) query_result :=
  r <- on_net (QueryStorage url_escape url_decode json_quote json_unquote reader process reach kademlia query
         (Z.of_nat providerCount * retryCount)) ;;
  pat! (err, arr) <- on_net (deref_result r) ;;
  if err : bool then ret (Queried kadActive s) else
  if isNull arr then ret NoProviders else
  cs <- orM (read_contracts (elements arr)) ;;
  s <- try_contracts providerSize blockSize providerCount cs s ;;
  match retries with
  | O => ret (Queried true s)
  | S retries =>
      if Nat.eqb (length (partitionsArray s)) providerCount then ret (Queried true s)
      else query_rounds retries (retryCount + 1) true kademlia query providerSize blockSize providerCount s
  end.
Fixpoint query_nodes (nodes : list string) (query : string) (providerSize blockSize : Z) (providerCount : nat) (s : progress)
  : M (client (St := St)) (option progress) :=
  match nodes with
  | [] => ret (Some s)
  | kd :: nodes =>
      session kd ;;;
      r <- query_rounds 2 1 false (kademlia_object kd) query providerSize blockSize providerCount s ;;
      match r with
      | NoProviders => ret None
      | Queried true s => ret (Some s)
      | Queried false s => query_nodes nodes query providerSize blockSize providerCount s
      end
  end.
Definition block_size : Z := 64 * 1024.
(** [ceil(a * 1.0 / b)], exact below 2^53 *)
Definition ceil_div (a b : Z) : Z := - ((- a) / b).
Definition CreateVolumePartitions (size dataBlocks codeBlocks : Z) : M (client (St := St)) json :=
  if dataBlocks =? 0 then fail DivByZero else
  let providerSize := size / dataBlocks in
  let query := "type:" +:+ quote "storage" +:+ " availableSize:" +:+ pretty (Z.to_N providerSize) in
  r <- query_nodes kademliaUrl query providerSize block_size (Z.to_nat (dataBlocks + codeBlocks)) (mkprogress [] []) ;;
  match r with
  | None => ret JNull
  | Some s => ret (volume_json block_size (u32 (ceil_div providerSize block_size)) dataBlocks codeBlocks (partitionsArray s))
  end.
End Manager.

(** ** What CreateVolumePartitions promises *)
Section Created.
Context (url_escape url_decode json_quote : string -> string) (json_unquote : string -> option string).
Context (reader : list Z -> bool * json).
Context {St : Type} (process : string -> request -> M St response) (reach : string -> bool).
Context (kademliaUrl : list string) (count : nat).

(** the partitions made so far: at most one for each provider, all of them used *)
Definition spread (ps : list (string * string)) (s : progress) : Prop :=
  partitionsArray s = map (fun p => partition_json (fst p) (snd p)) ps /\ NoDup ps.*2 /\
  Forall (fun p => In (snd p) (providersUsed s)) ps.

Lemma existsb_in x l : existsb (String.eqb x) l = false -> ~ In x l.
Proof using.
  intros H Hin. assert (existsb (String.eqb x) l = true); [|congruence].
  apply existsb_exists. exists x. split; [done|]. apply String.eqb_refl.
Qed.
Lemma try_provider_spread providerSize blockSize c ps s w s' w' : spread ps s ->
  try_provider url_escape url_decode json_quote json_unquote reader process reach kademliaUrl providerSize blockSize c s w = Ok (s', w') ->
  spread ps s' \/ exists n, spread (ps ++ [(n, provider c)]) s'.
Proof using.
  intros (H1 & H2 & H3) E. unfold try_provider in E.
  destruct (existsb _ _) eqn:Ex; [injection E as <- _; left; by split|]. apply existsb_in in Ex.
  apply bind_inv in E as (ep & w1 & _ & E). destruct (empty_str _); [injection E as <- _; left; by split|].
  assert (spread ps (mkprogress (provider c :: providersUsed s) (partitionsArray s))) as Hs.
  { split; [done|]. split; [done|]. eapply Forall_impl; [exact H3|]. intros p Hp. by right. }
  apply bind_inv in E as (u & w2 & _ & E). apply bind_inv in E as (r & w3 & _ & E). apply bind_inv in E as (buf & w4 & _ & E).
  destruct (empty_str _); [injection E as <- _; by left|].
  apply bind_inv in E as (r' & w5 & _ & E). apply bind_inv in E as (result & w6 & _ & E).
  destruct result as [obj|]; [|injection E as <- _; by left]. injection E as <- _. right. exists (HostClient.name obj).
  split; [|split].
  - cbn. by rewrite H1, map_app.
  - rewrite fmap_app. apply NoDup_app. split; [done|]. split; [|apply NoDup_singleton]. intros x Hx Hy%list_elem_of_singleton. cbn in Hy. subst x.
    apply list_elem_of_fmap in Hx as (q & Eq & Hq). rewrite Forall_forall in H3. apply Ex. rewrite Eq. by apply H3.
  - apply Forall_app. split; [apply Hs|]. apply Forall_singleton. by left.
Qed.
Lemma spread_length ps s : spread ps s -> length (partitionsArray s) = length ps.
Proof using. intros (-> & _). by rewrite length_map. Qed.

Lemma try_contracts_spread providerSize blockSize cs : forall ps s w s' w', spread ps s -> (length ps < count)%nat ->
  try_contracts url_escape url_decode json_quote json_unquote reader process reach kademliaUrl providerSize blockSize count cs s w = Ok (s', w') ->
  exists ps', spread ps' s' /\ (length ps' <= count)%nat.
Proof using.
  induction cs as [|c cs IH]; intros ps s w s' w' Hs Hl E.
  { injection E as <- _. exists ps. split; [done|lia]. }
  cbn [try_contracts] in E. apply bind_inv in E as (s1 & w1 & E1 & E).
  destruct (try_provider_spread _ _ _ _ _ _ _ _ Hs E1) as [Hs1|[n Hs1]]; rewrite !(spread_length _ _ Hs1), !(spread_length _ _ Hs) in E.
  - rewrite Nat.ltb_irrefl in E. exact (IH ps s1 w1 s' w' Hs1 Hl E).
  - rewrite length_app in E. cbn [length] in E. rewrite (proj2 (Nat.ltb_lt _ _)) in E by lia. cbn [andb] in E.
    destruct (Nat.eqb_spec (length ps + 1) count).
    + injection E as <- _. eexists. split; [exact Hs1|]. rewrite length_app. cbn. lia.
    + apply (IH (ps ++ [(n, provider c)]) s1 w1 s' w'); [done| |done]. rewrite length_app. cbn. lia.
Qed.
Definition spread_result (r : query_result) (active : bool) (s0 : progress) : Prop :=
  match r with
  | NoProviders => True
  | Queried true s => exists ps, spread ps s /\ (length ps <= count)%nat
  | Queried false s => active = false /\ s = s0
  end.
Lemma query_rounds_spread retries : forall retryCount active kademlia query providerSize blockSize ps s w r w',
  spread ps s -> (length ps < count)%nat ->
  query_rounds url_escape url_decode json_quote json_unquote reader process reach kademliaUrl retries retryCount active kademlia query
    providerSize blockSize count s w = Ok (r, w') -> spread_result r active s.
Proof using.
  induction retries as [|retries IH]; intros retryCount active kademlia query providerSize blockSize ps s w r w' Hs Hl E;
    cbn [query_rounds] in E; apply bind_inv in E as (q & w1 & _ & E); apply bind_inv in E as ([err arr] & w2 & _ & E);
    (destruct err; [injection E as <- _; destruct active; [exists ps; split; [done|lia]|done]|]);
    (destruct (isNull arr); [by injection E as <- _|]);
    apply bind_inv in E as (cs & w3 & _ & E); apply bind_inv in E as (s1 & w4 & E1 & E);
    destruct (try_contracts_spread _ _ _ _ _ _ _ _ Hs Hl E1) as (ps1 & Hs1 & Hl1).
  - injection E as <- _. by exists ps1.
  - rewrite (spread_length _ _ Hs1) in E. destruct (Nat.eqb_spec (length ps1) count); [injection E as <- _; by exists ps1|].
    apply (IH _ _ _ _ _ _ ps1) in E; [|done|lia]. destruct r as [|[] s2]; [done|done|]. by destruct E.
Qed.
Hypothesis Hcount : (0 < count)%nat.
Lemma query_nodes_spread nodes : forall query providerSize blockSize s w r w', spread [] s ->
  query_nodes url_escape url_decode json_quote json_unquote reader process reach kademliaUrl nodes query providerSize blockSize count s w
    = Ok (r, w') -> match r with Some s' => exists ps, spread ps s' /\ (length ps <= count)%nat | None => True end.
Proof using Hcount.
  induction nodes as [|kd nodes IH]; intros query providerSize blockSize s w r w' Hs E.
  { injection E as <- _. exists []. split; [done|cbn; lia]. }
  cbn [query_nodes] in E. apply bind_inv in E as (u & w1 & _ & E). apply bind_inv in E as (q & w2 & E1 & E).
  apply (query_rounds_spread _ _ _ _ _ _ _ []) in E1; [|done|done]. destruct q as [|[] s2]; [by injection E as <- _| |].
  - injection E as <- _. exact E1.
  - destruct E1 as [_ ->]. by apply (IH _ _ _ _ _ _ _ Hs E).
Qed.
End Created.

Lemma created_volume (url_escape url_decode json_quote : string -> string) (json_unquote : string -> option string)
    (reader : list Z -> bool * json) {St : Type} (process : string -> request -> M St response) (reach : string -> bool)
    (kademliaUrl : list string) (size dataBlocks codeBlocks : Z) (w w' : client (St := St)) (v : json) :
  0 < dataBlocks -> 0 <= codeBlocks ->
  CreateVolumePartitions url_escape url_decode json_quote json_unquote reader process reach kademliaUrl size dataBlocks codeBlocks w = Ok (v, w') ->
  v = JNull \/ exists ps, v = volume_json block_size (u32 (ceil_div (size / dataBlocks) block_size)) dataBlocks codeBlocks
      (map (fun p => partition_json (fst p) (snd p)) ps) /\ NoDup ps.*2 /\ zlen ps <= dataBlocks + codeBlocks.
Proof.
  intros Hd Hc E. unfold CreateVolumePartitions in E. destruct (Z.eqb_spec dataBlocks 0); [lia|].
  apply bind_inv in E as (r & w1 & E1 & E). apply query_nodes_spread in E1; [|lia|by split; [|split; [apply NoDup_nil_2|apply Forall_nil_2]]].
  destruct r as [s|]; [|by injection E as <- _; left]. injection E as <- _. right. destruct E1 as (ps & (-> & Hn & _) & Hl).
  exists ps. split; [done|]. split; [done|]. unfold zlen. lia.
Qed.

(** [C17] Whatever the nodes and the hosts answer, a volume that is created has at
    most as many partitions as columns, and no two of them at one provider, so that
    one provider's loss is the loss of one column. *)
Theorem create_volume_distinct_providers (url_escape url_decode json_quote : string -> string) (json_unquote : string -> option string)
    (reader : list Z -> bool * json) {St : Type} (process : string -> request -> M St response) (reach : string -> bool)
    (kademliaUrl : list string) (size dataBlocks codeBlocks : Z) (w w' : client (St := St)) (v : json) :
  0 < dataBlocks -> 0 <= codeBlocks ->
  CreateVolumePartitions url_escape url_decode json_quote json_unquote reader process reach kademliaUrl size dataBlocks codeBlocks w = Ok (v, w') ->
  v = JNull \/ exists ps, v = volume_json block_size (u32 (ceil_div (size / dataBlocks) block_size)) dataBlocks codeBlocks
      (map (fun p => partition_json (fst p) (snd p)) ps) /\ NoDup ps.*2 /\ zlen ps <= dataBlocks + codeBlocks.
Proof. apply created_volume. Qed.

(** ** What LoadVolumeFromJson promises *)
(** the column a description stands for: a partition of that name at an endpoint *)
Definition column_of (config : json) (blockCount blockSize : Z) (column : option (Volume.Partition.t object)) : Prop :=
  exists name provider url, index config "name" = Ok (JString name) /\ index config "provider" = Ok (JString provider) /\
    url <> EmptyString /\
    column = Some (Volume.Partition.mk blockCount blockSize (mkobject url "Partition" ("host://Partitions/" +:+ name) name)).

Section Loaded.
Context (url_escape url_decode json_quote : string -> string) (json_unquote : string -> option string).
Context (reader : list Z -> bool * json).
Context {St : Type} (process : string -> request -> M St response) (reach : string -> bool).
Context (kademliaUrl : list string).
Abbreviation load := (load_partitions url_escape url_decode json_quote json_unquote reader process reach kademliaUrl).

Lemma load_partitions_ok configs bc bs : forall i v w vol w', 0 <= i <= zlen (Volume.partitions v) ->
  Volume.blockSize v = bs -> Volume.blockCount v = bc ->
  load i configs bc bs v w = Ok (Some vol, w') ->
  vol = Volume.set_partitions (Volume.partitions vol) v /\
  zlen (Volume.partitions vol) = zlen (Volume.partitions v) /\ i + zlen configs <= zlen (Volume.partitions v) /\
  (forall j, (j < Z.to_nat i)%nat -> Volume.partitions vol !! j = Volume.partitions v !! j) /\
  forall k config, configs !! k = Some config ->
    exists column, Volume.partitions vol !! (Z.to_nat i + k)%nat = Some column /\ column_of config bc bs column.
Proof using.
  induction configs as [|config configs IH]; intros i v w vol w' Hi Hbs Hbc E.
  { injection E as <- _. unfold zlen in *. cbn. split; [by destruct v|]. split; [done|]. split; [lia|]. by split. }
  cbn [load_partitions] in E. apply bind_inv in E as (n & w1 & E1 & E). apply lift_inv in E1 as [En ->].
  apply bind_inv in E as (pr & w2 & E2 & E). destruct n as [| | |name| | |]; try done. cbn [isString] in E2.
  apply lift_inv in E2 as [Ep ->]. destruct pr as [| | |provider| | |]; try done.
  apply bind_inv in E as (ep & w3 & _ & E). destruct (empty_str (Relays.url ep)) eqn:Eu; [done|].
  apply bind_inv in E as (u & w4 & _ & E). apply bind_inv in E as ([b v1] & w5 & E5 & E). apply lift_inv in E5 as [Es ->].
  unfold Volume.SetPartition in Es. cbn [Volume.Partition.blockSize Volume.Partition.blockCount] in Es.
  destruct (Z.ltb_spec (zlen (Volume.partitions v)) i); [lia|]. rewrite Hbs, Hbc, Z.eqb_refl, Z.ltb_irrefl in Es. cbn [orb negb] in Es.
  destruct (Z.leb_spec (zlen (Volume.partitions v)) i) as [|Hlt]; [done|]. injection Es as _ <-.
  set (col := Some (Volume.Partition.mk bc bs (partition_of ep name))) in *.
  apply IH in E as (H1 & H2 & H3 & H4 & H5); [| |done|done].
  2: { cbn. unfold zlen in *. rewrite length_insert. lia. }
  cbn [Volume.set_partitions Volume.partitions] in *. unfold zlen in *. rewrite length_insert in *. cbn [length] in *.
  split; [by rewrite H1|]. split; [done|]. split; [lia|]. split.
  - intros j Hj. rewrite H4 by lia. apply list_lookup_insert_ne. lia.
  - intros [|k] c Hk.
    + injection Hk as <-. exists col. split.
      * rewrite Nat.add_0_r, H4 by lia. apply list_lookup_insert_eq. lia.
      * exists name, provider, (Relays.url ep). split; [done|]. split; [done|]. split; [by intros C; rewrite C in Eu|done].
    + replace (Z.to_nat i + S k)%nat with (Z.to_nat (i + 1) + k)%nat by lia. by apply H5.
Qed.

Lemma LoadVolumeFromJson_inv v w vol w' :
  LoadVolumeFromJson url_escape url_decode json_quote json_unquote reader process reach kademliaUrl v w = Ok (Some vol, w') ->
  exists bs bc d c, asUInt (member v "blockSize") = Ok bs /\ asUInt (member v "blockCount") = Ok bc /\
    asUInt (member v "dataBlocks") = Ok d /\ asUInt (member v "codeBlocks") = Ok c /\
    u64 (d + c) <= zlen (elements (member v "partitions")) /\
    load 0 (elements (member v "partitions")) bc bs (Volume.make d c bc bs) w = Ok (Some vol, w').
Proof using.
  unfold LoadVolumeFromJson. intros E. destruct (_ || _); [done|].
  apply bind_inv in E as (bs & w1 & E1 & E). apply lift_inv in E1 as [E1 ->].
  apply bind_inv in E as (bc & w2 & E2 & E). apply lift_inv in E2 as [E2 ->].
  apply bind_inv in E as (d & w3 & E3 & E). apply lift_inv in E3 as [E3 ->].
  apply bind_inv in E as (c & w4 & E4 & E). apply lift_inv in E4 as [E4 ->].
  destruct (Z.ltb_spec (zlen (elements (member v "partitions"))) (u64 (d + c))); [done|].
  exists bs, bc, d, c. do 5 (split; [done|]). exact E.
Qed.
End Loaded.

(** A volume that is loaded from a description has the description's geometry
    and, in the order of the description, one partition object for each column, at
    the address its provider published; a description with fewer or more
    partitions than columns gives none. *)
Theorem load_volume_puts_together (url_escape url_decode json_quote : string -> string) (json_unquote : string -> option string)
    (reader : list Z -> bool * json) {St : Type} (process : string -> request -> M St response) (reach : string -> bool)
    (kademliaUrl : list string) (bs bc d c : Z) (configs : list json) (w w' : client (St := St)) (vol : Volume.t object) :
  0 <= d -> 0 <= c -> d + c < 2 ^ 64 ->
  LoadVolumeFromJson url_escape url_decode json_quote json_unquote reader process reach kademliaUrl
    (volume_json bs bc d c configs) w = Ok (Some vol, w') ->
  Volume.blockSize vol = bs /\ Volume.blockCount vol = bc /\ Volume.dataCount vol = d /\ Volume.codeCount vol = c /\
  Forall2 (fun config column => column_of config bc bs column) configs (Volume.partitions vol).
Proof.
  intros Hd Hc Hdc E. apply LoadVolumeFromJson_inv in E as (bs' & bc' & d' & c' & E1 & E2 & E3 & E4 & Hl & E).
  unfold volume_json, member in E1, E2, E3, E4, Hl, E. cbn [find fst snd String.eqb Ascii.eqb Bool.eqb elements asUInt] in E1, E2, E3, E4, Hl, E.
  assert (forall n m, (if n <? 0 then Fault UncaughtException else Ok n) = Ok m -> m = n) as Hu by (intros n m; destruct (n <? 0); congruence).
  apply Hu in E1 as ->, E2 as ->, E3 as ->, E4 as ->. rewrite u64_small in Hl by (unfold in_u64; lia).
  assert (zlen (Volume.partitions (Volume.make (R := object) d c bc bs)) = d + c) as Hm by (unfold zlen; cbn; rewrite length_replicate; lia).
  apply load_partitions_ok in E as (H1 & H2 & H3 & _ & H5); [|lia|done|done].
  do 4 (split; [by rewrite H1|]).
  apply Forall2_same_length_lookup. unfold zlen in *. split; [lia|]. intros k config column Hk Hv.
  destruct (H5 k config Hk) as (col & Ec & Hcol). change (Z.to_nat 0 + k)%nat with k in Ec. rewrite Ec in Hv. by injection Hv as <-.
Qed.

(** ** A network of canned answers *)
Definition canned (b : string) (r : request) : M unit response :=
  ret (mkresponse 200 (Text (
    match String.index 0 "Query" (path r), String.index 0 "GetValue" (path r), String.index 0 "Reserve" (path r) with
    | Some _, _, _ => "Q"
    | _, Some _, _ => "E"
    | _, _, Some _ => "r1"
    | _, _, _ => "P"
    end))).
Definition offer (name : string) : json :=
  JObject [("availableSize", JInt 1000); ("contract", JString name); ("name", JString name); ("reputation", JInt 0)]%string.
Definition canned_reader (text : list Z) : bool * json :=
  match string_of_bytes text with
  | "Q"%string => (true, JArray [offer "p1"; offer "p1"; offer "p2"; offer "p3"; offer "p4"])
  | "E"%string => (true, JString "aA==")
  | "h"%string => (true, host_json (mkhost "http://h" []))
  | "P"%string => (true, JObject [("Name", JString "n"); ("Path", JString "host://Partitions/n"); ("Type", JString "Partition")]%string)
  | _ => (false, JNull)
  end.
Definition canned_client : client (St := unit) := mkclient (mknet ∅ (fun _ => tt)) ∅ true (fun _ => 5) 0.

Lemma create_volume_distinct_providers_witness : exists v w',
  CreateVolumePartitions id id id Some canned_reader canned (fun _ => true) ["http://k"%string] 100 2 1 canned_client = Ok (v, w') /\
  (v = JNull \/ exists ps, v = volume_json block_size (u32 (ceil_div (100 / 2) block_size)) 2 1
     (map (fun p => partition_json (fst p) (snd p)) ps) /\ NoDup ps.*2 /\ zlen ps <= 2 + 1).
Proof.
  eexists _, _. split; [vm_compute; reflexivity|].
  eapply (create_volume_distinct_providers id id id Some canned_reader canned (fun _ => true) ["http://k"%string] 100 2 1 canned_client);
    [reflexivity|discriminate|vm_compute; reflexivity].
Defined.
Lemma load_volume_puts_together_witness : exists vol w',
  LoadVolumeFromJson id id id Some canned_reader canned (fun _ => true) ["http://k"%string]
    (volume_json 5 3 1 1 [partition_json "a" "p1"; partition_json "b" "p2"]) canned_client = Ok (Some vol, w') /\
  Volume.blockSize vol = 5 /\ Volume.blockCount vol = 3 /\ Volume.dataCount vol = 1 /\ Volume.codeCount vol = 1 /\
  Forall2 (fun config column => column_of config 3 5 column) [partition_json "a" "p1"; partition_json "b" "p2"] (Volume.partitions vol).
Proof.
  eexists _, _. split; [vm_compute; reflexivity|].
  eapply (load_volume_puts_together id id id Some canned_reader canned (fun _ => true) ["http://k"%string] 5 3 1 1
    [partition_json "a" "p1"; partition_json "b" "p2"] canned_client); [discriminate|discriminate|reflexivity|vm_compute; reflexivity].
Defined.
