(* ===== verification/VolumeConfig.v ===== *)
(** * The configuration file of a volume (src/src/bdfsclient-lib/VolumeManager.cpp)

    CreateVolume keeps the description of a new volume in a file, LoadVolume reads
    it back and DeleteVolume deletes the partitions and the file: VolumeManager over
    files, with jsoncpp as reader and writer.  [system] is a parameter. *)

From Stdlib Require Import ZArith Lia Bool Ascii String.
From stdpp Require Import base list gmap strings.
From S2P Require Import Prelude StdMap Json JsonReader JsonText JsonWriter JsonFacts JsonCodec Stdio Contracts.
From S2P Require Import HostHandler HttpParams HostClient Volume Relays Kademlia KademliaClient VolumeManager.
Set Default Goal Selector "!".
Local Open Scope Z_scope.
Local Open Scope drive_scope.

Section Config.
Context (print_double : real -> list Z) (scan_double : list Z -> option real).
Context (url_escape url_decode : string -> string) (shell : string -> filesystem -> filesystem).
Context {St : Type} (process : string -> request -> M St response) (reach : string -> bool) (timeout : string -> Z) (kademliaUrl : list string).
Abbreviation quote := (quote_json print_double).
Abbreviation unquote := (unquote_json scan_double).
Abbreviation reader := (json_reader scan_double).

(** the client of the network and the machine's files *)
Record machine := mkmachine { net_of : client (St := St); fs_of : filesystem }.
Definition on_client {A} (m : M (client (St := St)) A) : M machine A := fun w =>
  obind (m (net_of w)) (fun '(a, n) => Ok (a, mkmachine n (fs_of w))).
Definition on_files (f : filesystem -> filesystem) : M machine unit := modify (fun w => mkmachine (net_of w) (f (fs_of w))).

(** GetWorkingDir makes the directory it names *)
Definition workingDir : string := "/etc/drive".
Definition GetWorkingDir : M machine string := on_files (Fs.mkdir workingDir) ;;; ret workingDir.
Definition conf_path (dir name : string) : string := dir +:+ "/" +:+ name +:+ "/volume.conf".

(** [fopen(path, "w")] *)
Definition open_new (path : string) : M machine (option string) := fun w =>
  let (file, s) := Fs.fopen_trunc (c_path path) (fs_of w) in Ok (file, mkmachine (net_of w) s).
Definition write_file (file : string) (data : list Z) : M machine unit := fun w =>
  obind (Fs.fwrite file 0 data (zlen data) (fs_of w)) (fun '(_, s) => Ok (tt, mkmachine (net_of w) s)).
Definition CreateVolume (volumeName : string) (size dataBlocks codeBlocks : Z) : M machine bool :=
  volume <- on_client (CreateVolumePartitions url_escape url_decode quote unquote reader process reach kademliaUrl size dataBlocks codeBlocks) ;;
  let result := toStyledString print_double volume in
  dir <- GetWorkingDir ;;
  on_files (Fs.mkdir (c_path (dir +:+ "/" +:+ volumeName))) ;;;
  file <- open_new (conf_path dir volumeName) ;;
  file <- match file with
          | Some file => ret (Some file)
          | None =>
              let path := "/tmp/drive/" +:+ volumeName in
              on_files (shell (c_path ("mkdir -p " +:+ path))) ;;; open_new (path +:+ "/volume.conf")
          end ;;
  match file with
  | None => ret false
  | Some file =>
      write_file file (bytes_of_string result) ;;;
      partitions <- lift (index volume "partitions") ;;
      ret (Value.size partitions =? codeBlocks + dataBlocks)
  end.

(** the loop of LoadVolume: [buffer] grows by BUFSIZ whenever a read fills it *)
Fixpoint load_loop (fuel : nat) (file : string) (offset : Z) (buffer : list Z) (s : filesystem) : outcome (list Z) :=
  match fuel with
  | O => OutOfFuel
  | S fuel =>
      let data := Fs.fread file (zlen buffer) BUFSIZ s in
      if zlen data =? BUFSIZ then load_loop fuel file (offset + BUFSIZ) (buffer ++ data) s
      else Ok (take (Z.to_nat (offset + zlen data)) (buffer ++ data))
  end.
Definition LoadVolume (name configPath : string) : M machine (option (Volume.t object)) :=
  path <- (if negb (empty_str configPath) then ret configPath else dir <- GetWorkingDir ;; ret (conf_path dir name)) ;;
  w <- get ;;
  match Fs.fopen_existing (c_path path) (fs_of w) with
  | None => ret None
  | Some file =>
      text <- lift (load_loop (S (length (Fs.content file (fs_of w)))) file 0 [] (fs_of w)) ;;
      let (ok, json) := reader text in
      if negb ok then ret None
      else on_client (LoadVolumeFromJson url_escape url_decode quote unquote reader process reach kademliaUrl json)
  end.
Definition DeleteVolume (name configPath : string) : M machine bool :=
  volume <- LoadVolume name configPath ;;
  match volume with
  | None => ret false
  | Some v =>
      deleted <- on_client (on_net (Volume.Delete (H := client_partition url_escape url_decode quote unquote (json_parse reader) process reach timeout) v)) ;;
      if negb deleted then ret false else
      dir <- GetWorkingDir ;;
      on_files (Fs.unlink (c_path (conf_path dir name))) ;;;
      ret true
  end.

(** ** The file is what the description was *)
Lemma load_loop_ok file s fuel : forall buffer rest, Fs.content file s = buffer ++ rest -> (length rest < fuel)%nat ->
  load_loop fuel file (zlen buffer) buffer s = Ok (Fs.content file s).
Proof using.
  induction fuel as [|fuel IH]; intros buffer rest E Hf; [lia|]. cbn [load_loop]. rewrite (fread_rest _ _ _ rest) by done.
  destruct (Z.eqb_spec (zlen (take (Z.to_nat BUFSIZ) rest)) BUFSIZ) as [Hl|Hl].
  - set (data := take (Z.to_nat BUFSIZ) rest) in *. replace (zlen buffer + BUFSIZ) with (zlen (buffer ++ data)) by (rewrite zlen_app; lia).
    apply (IH _ (drop (Z.to_nat BUFSIZ) rest)); [rewrite E, <- app_assoc; f_equal; symmetry; apply take_drop|].
    rewrite length_drop. assert (0 < length rest)%nat; [destruct rest; [done|cbn; lia]|unfold BUFSIZ; lia].
  - assert (length rest < Z.to_nat BUFSIZ)%nat as Hs.
    { unfold zlen in Hl. rewrite length_take in Hl. unfold BUFSIZ in *. lia. }
    rewrite (take_ge rest) by lia. rewrite <- zlen_app, <- E. by rewrite take_ge by (unfold zlen; lia).
Qed.
Lemma load_file file s : load_loop (S (length (Fs.content file s))) file 0 [] s = Ok (Fs.content file s).
Proof using. apply (load_loop_ok file s _ [] (Fs.content file s)); [done|lia]. Qed.
Lemma conf_no_nul dir name : no_nul dir -> no_nul name -> no_nul (conf_path dir name).
Proof using.
  intros Hd Hn. unfold conf_path. apply no_nul_app. split; [done|]. apply (no_nul_app "/"). split; [done|]. by apply no_nul_app.
Qed.
(** what a file says is what LoadVolumeFromJson gets *)
Lemma LoadVolume_file path name configPath n s v : no_nul path ->
  (configPath = path /\ path <> EmptyString \/ configPath = EmptyString /\ path = conf_path workingDir name) ->
  deny s path = false -> files s !! path = Some (bytes_of_string (toStyledString print_double v)) -> plain v ->
  exists s', files s' = files s /\ LoadVolume name configPath (mkmachine n s) =
    on_client (LoadVolumeFromJson url_escape url_decode quote unquote reader process reach kademliaUrl v) (mkmachine n s').
Proof using.
  intros Hz Hpath Hd Hf Hp.
  assert (forall s', deny s' = deny s -> files s' = files s -> (w <- get ;;
    match Fs.fopen_existing (c_path path) (fs_of w) with
    | None => ret None
    | Some file =>
        text <- lift (load_loop (S (length (Fs.content file (fs_of w)))) file 0 [] (fs_of w)) ;;
        let (ok, json) := reader text in
        if negb ok then ret None
        else on_client (LoadVolumeFromJson url_escape url_decode quote unquote reader process reach kademliaUrl json)
    end) (mkmachine n s') =
    on_client (LoadVolumeFromJson url_escape url_decode quote unquote reader process reach kademliaUrl v) (mkmachine n s')) as Hopen.
  { intros s' E1 E2. erewrite bind_ok by reflexivity. cbn [fs_of]. rewrite c_path_plain by done.
    rewrite (FsFacts.fopen_existing_ok _ _ (bytes_of_string (toStyledString print_double v))) by (by rewrite ?E1, ?E2).
    rewrite load_file. unfold Fs.content. rewrite E2, Hf. cbn [default from_option id lift obind bind]. by rewrite styled_reader. }
  unfold LoadVolume. destruct Hpath as [[-> Hne]|[-> ->]].
  - exists s. split; [done|]. assert (empty_str path = false) as -> by by destruct path.
    erewrite bind_ok by reflexivity. by apply Hopen.
  - exists (Fs.mkdir workingDir s). split; [done|]. cbn [empty_str negb]. erewrite bind_ok; [|erewrite bind_ok by reflexivity; reflexivity].
    by apply Hopen.
Qed.

(** [C20] A volume that is created is found again: when its configuration file can be
    written, LoadVolume gives LoadVolumeFromJson the very description that
    CreateVolumePartitions made, and CreateVolume says whether every column got a
    partition. *)
Theorem created_volume_loads (name : string) (size dataBlocks codeBlocks : Z) (n n' : client (St := St)) (s : filesystem) (v partitions : json) :
  no_nul name -> deny s (conf_path workingDir name) = false ->
  CreateVolumePartitions url_escape url_decode quote unquote reader process reach kademliaUrl size dataBlocks codeBlocks n = Ok (v, n') ->
  plain v -> index v "partitions" = Ok partitions -> str_size (toStyledString print_double v) <= limit s ->
  exists s', CreateVolume name size dataBlocks codeBlocks (mkmachine n s) =
      Ok (Value.size partitions =? codeBlocks + dataBlocks, mkmachine n' s') /\
    forall n'', exists s'', files s'' = files s' /\ LoadVolume name EmptyString (mkmachine n'' s') =
      on_client (LoadVolumeFromJson url_escape url_decode quote unquote reader process reach kademliaUrl v) (mkmachine n'' s'').
Proof using.
  intros Hz Hd Hv Hp Hi Hl. pose proof (conf_no_nul workingDir name eq_refl Hz) as Hc.
  set (path := conf_path workingDir name) in *. set (text := bytes_of_string (toStyledString print_double v)).
  set (s1 := Fs.mkdir (c_path (workingDir +:+ "/" +:+ name)) (Fs.mkdir workingDir s)).
  exists (Fs.store path text (Fs.store path [] s1)). split.
  - unfold CreateVolume. erewrite bind_ok by by unfold on_client; cbn [net_of]; rewrite Hv. cbv zeta.
    erewrite bind_ok by reflexivity. erewrite bind_ok by reflexivity. fold path.
    erewrite bind_ok by by unfold open_new; rewrite c_path_plain, FsFacts.fopen_trunc_ok by done.
    erewrite bind_ok by reflexivity. cbv iota.
    erewrite bind_ok; [|unfold write_file; cbn [fs_of]; rewrite (FsFacts.fwrite_ok _ 0 _ _ []);
      [reflexivity|cbn; by rewrite lookup_insert_eq|done|cbn; by rewrite zlen_bytes_of_string]].
    rewrite write_new. fold text. by erewrite bind_ok by by rewrite Hi.
  - intros n''. apply (LoadVolume_file path name EmptyString n'' _ v); [done|by right|done| |done].
    cbn. by rewrite lookup_insert_eq.
Qed.

(** LoadVolume with a path reads the file there and writes none *)
Lemma LoadVolume_path name configPath w v w' : configPath <> EmptyString ->
  LoadVolume name configPath w = Ok (Some v, w') -> fs_of w' = fs_of w /\ is_Some (files (fs_of w) !! c_path configPath).
Proof using.
  intros Hne E1. unfold LoadVolume in E1. assert (empty_str configPath = false) as Ee by by destruct configPath.
  rewrite Ee in E1. cbn [negb] in E1. apply bind_inv in E1 as (p & w2 & [= <- <-] & E1).
  apply bind_inv in E1 as (w2' & w3 & [= <- <-] & E1). unfold Fs.fopen_existing in E1.
  destruct (deny _ _); [done|]. destruct (files (fs_of w) !! c_path configPath) as [d|]; [|done]. split; [|by eexists].
  apply bind_inv in E1 as (t & w4 & [_ ->]%lift_inv & E1). destruct (reader t) as [[] j]; [|done].
  unfold on_client in E1. cbn [negb] in E1. apply obind_inv in E1 as ([a n1] & _ & E1). by injection E1 as _ <-.
Qed.

(** A volume that is deleted by its configuration file keeps the file: the
    partitions are deleted, the answer is true, and the file that is removed is the
    one of that name in the working directory. *)
Theorem custom_config_kept (name configPath : string) (w w' : machine) :
  configPath <> EmptyString -> c_path configPath <> c_path (conf_path workingDir name) ->
  DeleteVolume name configPath w = Ok (true, w') ->
  files (fs_of w') !! c_path configPath = files (fs_of w) !! c_path configPath /\
  is_Some (files (fs_of w') !! c_path configPath).
Proof using.
  intros Hne Hp E. unfold DeleteVolume in E. apply bind_inv in E as (v & w1 & E1 & E). destruct v as [v|]; [|done].
  apply LoadVolume_path in E1 as [Ef Hs]; [|done]. apply bind_inv in E as (b & w2 & E2 & E).
  unfold on_client in E2. apply obind_inv in E2 as ([a n1] & _ & E2). injection E2 as -> <-.
  destruct b; [|done]. cbn [negb] in E. apply bind_inv in E as (dir & w4 & E4 & E). unfold GetWorkingDir, on_files in E4.
  apply bind_inv in E4 as (u & w5 & [= _ <-] & [= <- <-]). apply bind_inv in E as (u2 & w6 & [= _ <-] & [= <-]).
  unfold Fs.unlink, Fs.mkdir, Fs.set_files. cbn [fs_of files]. rewrite lookup_delete_ne, Ef by done. by split.
Qed.
End Config.

(** ** A network that answers in JSON *)
Definition fast_json (v : json) : string := fastString no_print v.
Definition endpoint_text : string :=
  match Base64.Encode (Base64.GetEncodedLength (str_size (ToString fast_json (mkhost "http://h" []))))
          (bytes_of_string (ToString fast_json (mkhost "http://h" []))) with
  | Ok t => string_of_bytes t
  | _ => EmptyString
  end.
Definition answering (b : string) (r : request) : M unit response :=
  ret (mkresponse 200 (Text (
    match String.index 0 "Query" (path r), String.index 0 "GetValue" (path r), String.index 0 "Reserve" (path r), String.index 0 "Delete" (path r) with
    | Some _, _, _, _ => fast_json (JArray [offer "p1"; offer "p2"])
    | _, Some _, _, _ => fast_json (JString endpoint_text)
    | _, _, Some _, _ => "r1"
    | _, _, _, Some _ => "true"
    | _, _, _, _ => fast_json (JObject [("Name", JString "n"); ("Path", JString "host://Partitions/n"); ("Type", JString "Partition")]%string)
    end))).
Definition sample_created : json :=
  volume_json 65536 1 1 1 [partition_json "n" "p1"; partition_json "n" "p2"].
Lemma sample_created_plain : plain sample_created.
Proof.
  unfold sample_created, volume_json, partition_json.
  plain_json; first [done|lia].
Qed.
Abbreviation create_sample := (CreateVolume no_print some_double percent_escape percent_decode (fun _ s => s) answering (fun _ => true) ["http://k"%string]).
Abbreviation load_sample := (LoadVolume no_print some_double percent_escape percent_decode answering (fun _ => true) ["http://k"%string]).
Lemma created_volume_loads_witness : exists n' s',
  create_sample "vol" 100 1 1 (mkmachine canned_client sample_fs) = Ok (2 =? 1 + 1, mkmachine n' s') /\
  forall n'', exists s'', files s'' = files s' /\ load_sample "vol" "" (mkmachine n'' s') =
    on_client (LoadVolumeFromJson percent_escape percent_decode (quote_json no_print) (unquote_json some_double) (json_reader some_double)
      answering (fun _ => true) ["http://k"%string] sample_created) (mkmachine n'' s'').
Proof.
  assert (exists n', CreateVolumePartitions percent_escape percent_decode (quote_json no_print) (unquote_json some_double) (json_reader some_double)
    answering (fun _ => true) ["http://k"%string] 100 1 1 canned_client = Ok (sample_created, n')) as [n' Ev] by (eexists; vm_compute; reflexivity).
  exists n'. exact (created_volume_loads no_print some_double percent_escape percent_decode (fun _ s => s) answering (fun _ => true) ["http://k"%string]
    "vol" 100 1 1 canned_client n' sample_fs sample_created (JArray [partition_json "n" "p1"; partition_json "n" "p2"])
    eq_refl eq_refl Ev sample_created_plain eq_refl ltac:(vm_compute; discriminate)).
Defined.
Definition custom_machine : machine :=
  mkmachine canned_client (Fs.store "/home/v.conf" (bytes_of_string (toStyledString no_print sample_created)) sample_fs).
Lemma custom_config_kept_witness : exists w',
  DeleteVolume no_print some_double percent_escape percent_decode answering (fun _ => true) (fun _ => 0) ["http://k"%string]
    "vol" "/home/v.conf" custom_machine = Ok (true, w') /\
  files (fs_of w') !! "/home/v.conf"%string = files (fs_of custom_machine) !! "/home/v.conf"%string /\
  is_Some (files (fs_of w') !! "/home/v.conf"%string).
Proof.
  eexists. split; [vm_compute; reflexivity|].
  eapply (custom_config_kept no_print some_double percent_escape percent_decode answering (fun _ => true) (fun _ => 0) ["http://k"%string]
    "vol" "/home/v.conf" custom_machine); [discriminate|discriminate|vm_compute; reflexivity].
Defined.
