(* ===== verification/RemoteBlobs.v ===== *)
(** * Blobs on storage hosts (src/src/bdblob: RemoteBlob.cpp, RemoteBlobProvider.cpp)

    A remote blob is an encrypted volume whose partitions hosts serve.  The provider
    keeps, in the blob map, the partitions and providers of each blob; from them it
    puts the description of the volume together again.  A system is the state of the
    bdblob process with its files and the client's state of the network. *)

From Stdlib Require Import ZArith Lia Bool Ascii String.
From stdpp Require Import base list gmap strings.
From S2P Require Import Prelude StdMap Json Streams Stdio Contracts.
From S2P Require Import HostHandler HostClient Volume VolumeRow VolumeFacts VolumeRemote VolumeDisk.
From S2P Require Import Relays Kademlia KademliaClient VolumeManager Metadata BlobMap BlobStore.
Set Default Goal Selector "!".
Local Open Scope Z_scope.
Local Open Scope drive_scope.

(** ** RemoteBlob.cpp *)
Module RemoteBlob.
Record t := mk { volume : option (Volume.t object); Id : string; Size : Z }.

Section RemoteBlob.
Context {S : Type} `{BdPartition object S} (code : erasure) (aes : cipher).
Definition geometry_of (v : Volume.t object) : geometry :=
  mkgeometry (Volume.blockCount v) (Volume.dataCount v) (Volume.codeCount v) (Volume.blockSize v).

Definition Close (b : t) : t := mk None (Id b) (Size b).
Definition IsOpened (b : t) : bool := match volume b with Some _ => true | None => false end.

(** [buf] is where the bytes go: the count and what it holds afterwards; [junk] and
    the like are what the volume's buffers hold before they are used *)
Definition Read (junk : list Z) (b : t) (offset : Z) (buf : list Z) : M S (Z * list Z) :=
  match volume b with
  | None => ret (0, buf)
  | Some v =>
      if Size b <? offset then ret (0, buf) else
      pat! (ok, buf') <- ReadDecrypt (Volume.direct v) (geometry_of v) code aes junk buf offset ;;
      let len := if ok : bool then zlen buf else 0 in
      ret (Z.min len (Size b - offset), buf')
  end.
Definition Write (junk1 junk2 : list Z) (b : t) (offset : Z) (data : list Z) : M S Z :=
  match volume b with
  | None => ret 0
  | Some v =>
      if Size b <? offset then ret 0 else
      ok <- WriteEncrypt (Volume.direct v) (geometry_of v) code aes junk1 junk2 data offset ;;
      ret (if ok : bool then zlen data else 0)
  end.
End RemoteBlob.
End RemoteBlob.

(** ** RemoteBlobProvider.cpp *)
(** [value\[key\]] on a value that is not const: a member that is missing is made,
    and null becomes an object *)
Definition subscript (v : json) (key : string) : outcome (json * json) :=
  obind (index v key) (fun x =>
  match v with
  | JObject l => if SMap.find key l is Some _ then Ok (x, v) else obind (Json.set_member key JNull v) (fun v => Ok (x, v))
  | _ => obind (Json.set_member key JNull v) (fun v => Ok (x, v))
  end).
(** the loop of NewBlob over the partitions; [None] is its return *)
Fixpoint add_partitions (ps : list json) (md : BlobMetadata) : outcome (option BlobMetadata) :=
  match ps with
  | [] => Ok (Some md)
  | p :: ps =>
      obind (index p "name") (fun n => obind (if isString n then index p "provider" else Ok JNull) (fun pr =>
      match n, pr with
      | JString n, JString pr => add_partitions ps (Metadata.AddPartition n pr md)
      | _, _ => Ok None
      end))
  end.
Fixpoint partition_array (ps : list PartitionInfo) (a : json) : outcome json :=
  match ps with
  | [] => Ok a
  | p :: ps =>
      obind (Json.set_member "name" (JString (name p)) JNull) (fun pt =>
      obind (Json.set_member "provider" (JString (provider p)) pt) (fun pt =>
      obind (Value.append pt a) (partition_array ps)))
  end.
(** the description OpenBlob makes; a division by a block size of zero gives an
    infinity or no number, whose conversion is undefined *)
Definition description (md : BlobMetadata) (c : BlobConfig.t) : outcome json :=
  obind (partition_array (partitions md) JNull) (fun partitionArray =>
  obind (Json.set_member "partitions" partitionArray JNull) (fun json =>
  obind (Json.set_member "blockSize" (JInt (u32 (blockSize md))) json) (fun json =>
  if BlobConfig.dataBlocks c =? 0 then Fault DivByZero else
  if blockSize md =? 0 then Fault BadCast else
  obind (Json.set_member "blockCount" (JInt (u32 (ceil_div (size md / BlobConfig.dataBlocks c) (blockSize md)))) json) (fun json =>
  obind (Json.set_member "dataBlocks" (JInt (u32 (BlobConfig.dataBlocks c))) json) (fun json =>
  Json.set_member "codeBlocks" (JInt (u32 (BlobConfig.codeBlocks c))) json))))).
Definition DataSize (v : Volume.t object) : Z := u64 (u64 (Volume.dataCount v * Volume.blockCount v) * Volume.blockSize v).

Module RemoteBlobProvider.
Record t := mk { rootPath : string }.
Definition PATH_MAX : Z := 4096.

Section Provider.
Context (url_escape url_decode json_quote : string -> string) (json_unquote : string -> option string).
Context (reader : list Z -> bool * json).
Context {St : Type} (process : string -> request -> M St response) (reach : string -> bool).
Context (kademliaUrl : list string).
Record system := mksystem { store : world; network : client (St := St) }.
Definition on_store {A} (m : M world A) : M system A := fun w =>
  obind (m (store w)) (fun '(a, s) => Ok (a, mksystem s (network w))).
Definition on_network {A} (m : M (client (St := St)) A) : M system A := fun w =>
  obind (m (network w)) (fun '(a, n) => Ok (a, mksystem (store w) n)).
Abbreviation create := (CreateVolumePartitions url_escape url_decode json_quote json_unquote reader process reach kademliaUrl).
Abbreviation load := (LoadVolumeFromJson url_escape url_decode json_quote json_unquote reader process reach kademliaUrl).

Definition make (path : option string) : M system t :=
  let rootPath := default "."%string path in
  (if String.eqb rootPath "." then ret tt
   else on_store (on_fs (fun s => Ok (tt, Fs.mkdir (c_path rootPath) s)))) ;;;
  ret (mk rootPath).
Definition isFolderExist (path : string) : M system bool :=
  gets (fun w => bool_decide (c_path path ∈ dirs (fs (store w)))).

Definition NewBlob (p : t) (size : Z) : M system (option RemoteBlob.t) :=
  id <- on_store uuidgen ;;
  exists_ <- isFolderExist (rootPath p +:+ "/" +:+ id) ;;
  if exists_ then ret None else
  blobMap <- on_store GetBlobMap ;;
  match blobMap with
  | None => ret None
  | Some _ =>
      c <- on_store (gets config) ;;
      volumeInfo <- on_network (create size (u16 (BlobConfig.dataBlocks c)) (u16 (BlobConfig.codeBlocks c))) ;;
      pat! (blockSize, volumeInfo) <- lift (subscript volumeInfo "blockSize") ;;
      blockSize <- lift (asUInt blockSize) ;;
      pat! (partitions, volumeInfo) <- lift (subscript volumeInfo "partitions") ;;
      metadata <- lift (add_partitions (elements partitions)
                          (Metadata.SetBlockSize blockSize (Metadata.SetSize size Metadata.empty))) ;;
      match metadata with
      | None => ret None
      | Some metadata =>
          on_store (SetMetadata id metadata) ;;;
          if isNull volumeInfo then ret None else
          volume <- on_network (load volumeInfo) ;;
          ret (option_map (fun v => RemoteBlob.mk (Some v) id size) volume)
      end
  end.
Definition OpenBlob (p : t) (id : string) : M system (option RemoteBlob.t) :=
  blobMap <- on_store GetBlobMap ;;
  match blobMap with
  | None => ret None
  | Some _ =>
      pat! (ok, metadata) <- on_store (GetMetadata id Metadata.empty) ;;
      if negb ok then ret None else
      c <- on_store (gets config) ;;
      json <- lift (description metadata c) ;;
      volume <- on_network (load json) ;;
      ret (option_map (fun v => RemoteBlob.mk (Some v) id (DataSize v)) volume)
  end.
(** [sprintf] into [char path\[PATH_MAX\]], then [unlink] *)
Definition unlink_buffer (path : string) : M system unit :=
  if str_size path <? PATH_MAX then on_store (on_fs (fun s => Ok (tt, Fs.unlink path s))) else fail OutOfBounds.
Definition DeleteBlob (p : t) (id : string) : M system unit :=
  let folder := c_path (rootPath p) +:+ "/" +:+ c_path id in
  unlink_buffer (folder +:+ "/blob") ;;;
  unlink_buffer (folder +:+ "/.size") ;;;
  unlink_buffer folder.
End Provider.
End RemoteBlobProvider.

(** ** A remote blob is an array of bytes *)
(** the requests that are served: those that start inside the blob and end inside
    the volume, whose [zlen d] bytes are [d] *)
Definition accepts (b : RemoteBlob.t) (d : list Z) (offset n : Z) : bool :=
  (offset <=? RemoteBlob.Size b) && ((n =? 0) || (offset + n <=? zlen d)).

Section Array.
Context {S : Type} `{BdPartition object S} (v : Volume.t object) (code : erasure) (aes : cipher) (holds : S -> grid -> Prop).
Abbreviation g := (RemoteBlob.geometry_of v).
Context (b : RemoteBlob.t) (junk1 junk2 buffer : list Z) (offset : Z).
Hypotheses (Hgeo : geometry_ok g) (Hlaws : cell_laws (Volume.direct v) g holds) (Hcode : encoder_total g code) (Haes : cipher_ok g aes).
Hypotheses (Hj1 : zlen junk1 = Volume.blockSize v) (Hj2 : zlen junk2 = Volume.blockSize v).
Hypotheses (Hv : RemoteBlob.volume b = Some v) (Hsize : RemoteBlob.Size b <= total g).
Hypotheses (Ho : in_u64 offset) (Hb : in_u64 (zlen buffer)).

Lemma accepts_disk d : zlen d = total g -> accepts b d offset (zlen buffer) =
  (offset <=? RemoteBlob.Size b) && ((zlen buffer =? 0) || disk_accepts d offset (zlen buffer)).
Proof using Ho Hb.
  intros Hd. unfold accepts, disk_accepts. f_equal. unfold in_u64 in *. rewrite Hd.
  destruct (Z.eqb_spec (zlen buffer) 0) as [|Hn]; [done|]. cbn [orb].
  destruct (Z.leb_spec (offset + zlen buffer) (total g)), (Z.ltb_spec offset (total g)); try done; lia.
Qed.

Lemma remote_write s c : holds s c ->
  let d := flat g (plain aes c) in
  if accepts b d offset (zlen buffer)
  then exists s' c', RemoteBlob.Write code aes junk1 junk2 b offset buffer s = Ok (zlen buffer, s') /\ holds s' c' /\
      flat g (plain aes c') = write_at d (Z.to_nat offset) buffer
  else RemoteBlob.Write code aes junk1 junk2 b offset buffer s = Ok (0, s).
Proof using Hgeo Hlaws Hcode Haes Hj1 Hj2 Hv Hsize Ho Hb.
  intros Hh d. assert (zlen d = total g) as Hd by by apply zlen_flat. rewrite accepts_disk by done.
  pose proof (WriteEncrypt_refines (Volume.direct v) g code aes holds Hgeo Hlaws Hcode junk1 junk2 buffer offset s c
    Haes Hj1 Hj2 Hh Ho Hb) as Hw. unfold write_refines, disk_write in Hw. fold d in Hw.
  unfold RemoteBlob.Write. rewrite Hv.
  destruct (Z.leb_spec offset (RemoteBlob.Size b)) as [Hle|Hlt], (Z.ltb_spec (RemoteBlob.Size b) offset); try lia; [|done]. cbn [andb].
  destruct (Z.eqb_spec (zlen buffer) 0) as [E|E]; cbn [orb].
  - destruct Hw as (s' & c' & Ew & Hh' & Ef & _). exists s', c'. split; [by rewrite (bind_ok _ _ _ _ _ Ew)|]. split; [done|].
    rewrite Ef. destruct buffer; [|unfold zlen in E; cbn in E; lia]. unfold write_at, zlen in *. cbn [length app].
    unfold in_u64 in Ho. replace (Z.to_nat offset - length d)%nat with O by lia. cbn. by rewrite app_nil_r, Nat.add_0_r, take_drop.
  - destruct (disk_accepts d offset (zlen buffer)).
    + destruct Hw as (s' & c' & Ew & Hh' & Ef & _). exists s', c'. split; [by rewrite (bind_ok _ _ _ _ _ Ew)|]. by split.
    + by rewrite (bind_ok _ _ _ _ _ Hw).
Qed.
Lemma remote_read s c : holds s c ->
  let d := flat g (plain aes c) in
  if accepts b d offset (zlen buffer)
  then exists s', RemoteBlob.Read code aes junk1 b offset buffer s =
      Ok ((Z.min (zlen buffer) (RemoteBlob.Size b - offset), read_at d (Z.to_nat offset) (length buffer)), s') /\ holds s' c
  else RemoteBlob.Read code aes junk1 b offset buffer s = Ok ((0, buffer), s).
Proof using Hgeo Hlaws Hcode Haes Hj1 Hv Hsize Ho Hb.
  intros Hh d. assert (zlen d = total g) as Hd by by apply zlen_flat. rewrite accepts_disk by done.
  pose proof (ReadDecrypt_refines (Volume.direct v) g code aes holds Hgeo Hlaws Hcode junk1 buffer offset s c
    Haes Hj1 Hh Ho Hb) as Hr. unfold read_refines, disk_read in Hr. fold d in Hr.
  unfold RemoteBlob.Read. rewrite Hv.
  destruct (Z.leb_spec offset (RemoteBlob.Size b)) as [Hle|Hlt], (Z.ltb_spec (RemoteBlob.Size b) offset); try lia; [|done]. cbn [andb].
  destruct (Z.eqb_spec (zlen buffer) 0) as [E|E]; cbn [orb].
  - destruct Hr as (s' & Er & Hh'). exists s'. rewrite (bind_ok _ _ _ _ _ Er). split; [|done].
    by destruct buffer; [|unfold zlen in E; cbn in E; lia].
  - destruct (disk_accepts d offset (zlen buffer)).
    + destruct Hr as (s' & Er & Hh'). exists s'. rewrite (bind_ok _ _ _ _ _ Er). split; [|done].
      unfold zlen. by rewrite Nat2Z.id.
    + rewrite (bind_ok _ _ _ _ _ Hr). unfold ret. do 3 f_equal. lia.
Qed.
End Array.
