(* ===== verification/RemoteBlobFacts.v ===== *)
(** * What remote blobs promise

    A blob over hosts is an array of bytes on their disks, and the metadata of a new
    blob is enough to open it again: the description of the volume survives the blob
    map. *)

From Stdlib Require Import ZArith Lia Bool Ascii String.
From stdpp Require Import base list gmap strings.
From S2P Require Import Prelude StdMap Json JsonCodec Streams Stdio Contracts HttpParams HttpNumbers JsonParams.
From S2P Require Import FileStore HostPartition HostHandler HostClient Volume VolumeRow VolumeFacts VolumeRemote VolumeDisk VolumeHosts.
From S2P Require Import Relays Kademlia KademliaClient VolumeManager Metadata BlobMap BlobStore RemoteBlobs.
Set Default Goal Selector "!".
Local Open Scope Z_scope.
Local Open Scope drive_scope.

(** [C7] A blob whose volume is served by as many reachable hosts is an encrypted
    array of bytes on the hosts' disks.  A write or read that starts inside the blob
    and ends inside the volume is done whole: the array has the new bytes, or the
    buffer has the array's bytes and the count is cut at the blob's size.  Any other
    one does nothing and gives 0, a read that only passes the end included. *)
Theorem remote_blob_over_hosts (url_escape url_decode : string -> string) (print_double : real -> list Z)
    (scan_double : list Z -> option real) (options : string -> host_options) (reach : string -> bool) (timeout : string -> Z)
    (partition : string -> option string) (b : RemoteBlob.t) (v : Volume.t object) (refs : Z -> object)
    (code : erasure) (aes : cipher) (junk1 junk2 buffer : list Z) (offset : Z) (w : net server) (c : grid) :
  let g := RemoteBlob.geometry_of v in
  let H := client_partition url_escape url_decode (quote_json print_double) (unquote_json scan_double) (json_value scan_double)
    (process print_double scan_double options) reach timeout in
  let holds := remote_cells g refs (stored options reach partition (Volume.blockCount v) (Volume.blockSize v)) in
  let d := flat g (plain aes c) in
  url_ok url_escape url_decode -> geometry_ok g -> Volume.blockCount v < 2 ^ 32 -> Volume.blockSize v < 2 ^ 31 ->
  encoder_total g code -> cipher_ok g aes -> zlen junk1 = Volume.blockSize v -> zlen junk2 = Volume.blockSize v ->
  assembled v g refs (known partition) -> RemoteBlob.volume b = Some v -> RemoteBlob.Size b <= total g -> holds w c ->
  in_u64 offset -> in_u64 (zlen buffer) ->
  if accepts b d offset (zlen buffer)
  then (exists w' c', RemoteBlob.Write (H := H) code aes junk1 junk2 b offset buffer w = Ok (zlen buffer, w') /\
          holds w' c' /\ flat g (plain aes c') = write_at d (Z.to_nat offset) buffer) /\
       (exists w', RemoteBlob.Read (H := H) code aes junk1 b offset buffer w =
          Ok ((Z.min (zlen buffer) (RemoteBlob.Size b - offset), read_at d (Z.to_nat offset) (length buffer)), w') /\ holds w' c)
  else RemoteBlob.Write (H := H) code aes junk1 junk2 b offset buffer w = Ok (0, w) /\
       RemoteBlob.Read (H := H) code aes junk1 b offset buffer w = Ok ((0, buffer), w).
Proof.
  intros g H holds d Hurl Hg Hn Hbs Hcode Haes Hj1 Hj2 Has Hv Hsize Hh Ho Hb.
  assert (cell_laws (Volume.direct (H := H) v) g holds) as Hl.
  { destruct Hg as [Hr ? ? Hz _]. cbn in Hr, Hz. apply (direct_cell_laws (H := H) v g refs (known partition)); try done; try lia.
    - apply client_laws; cbn; try done; lia.
    - cbn. lia. }
  pose proof (remote_write (H := H) v code aes holds b junk1 junk2 buffer offset Hg Hl Hcode Haes Hj1 Hj2 Hv Hsize Ho Hb w c Hh) as Hw.
  pose proof (remote_read (H := H) v code aes holds b junk1 buffer offset Hg Hl Hcode Haes Hj1 Hv Hsize Ho Hb w c Hh) as Hr.
  cbv zeta in Hw, Hr. change (flat (RemoteBlob.geometry_of v) (plain aes c)) with d in Hw, Hr.
  by destruct (accepts b d offset (zlen buffer)).
Qed.

Lemma remote_blob_over_hosts_witness : exists w' c',
  RemoteBlob.Write (H := sample_client) xor_code toy_cipher (zeros 5) (zeros 5) (RemoteBlob.mk (Some hosted_volume) "id" 20) 9 [1; 2; 3] sample_net
    = Ok (3, w') /\
  remote_cells hosted_geometry host_ref sample_stored w' c' /\
  flat hosted_geometry (plain toy_cipher c') = write_at (flat hosted_geometry (plain toy_cipher (fun _ _ => zeros 5))) 9 [1; 2; 3].
Proof.
  pose proof (remote_blob_over_hosts percent_escape percent_decode no_print some_double sample_options (fun _ => true) (fun _ => 1)
    sample_partition (RemoteBlob.mk (Some hosted_volume) "id" 20) hosted_volume host_ref xor_code toy_cipher (zeros 5) (zeros 5) [1; 2; 3] 9
    sample_net (fun _ _ => zeros 5)) as T.
  assert (accepts (RemoteBlob.mk (Some hosted_volume) "id" 20)
    (flat (RemoteBlob.geometry_of hosted_volume) (plain toy_cipher (fun _ _ => zeros 5))) 9 (zlen [1; 2; 3]) = true) as Ea
    by (vm_compute; reflexivity).
  cbv zeta in T. rewrite Ea in T. apply T.
  - apply sample_url_ok.
  - split; cbn; lia.
  - reflexivity.
  - reflexivity.
  - by apply (xor_encoder_total 3 2 5).
  - apply toy_cipher_ok.
  - reflexivity.
  - reflexivity.
  - apply hosted_assembled.
  - reflexivity.
  - discriminate.
  - apply hosted_cells.
  - closed_range.
  - closed_range.
Defined.

(** ** The description survives the blob map *)
Definition info_of (ps : list (string * string)) : list PartitionInfo := map (fun p => {| name := fst p; provider := snd p |}) ps.
Definition metadata_of (size : Z) (ps : list (string * string)) : BlobMetadata :=
  {| size := size; blockSize := block_size; partitions := info_of ps |}.
Definition volume_of (size dataBlocks codeBlocks : Z) (ps : list (string * string)) : json :=
  volume_json block_size (u32 (ceil_div (size / dataBlocks) block_size)) dataBlocks codeBlocks
    (map (fun p => partition_json (fst p) (snd p)) ps).

Lemma add_partitions_ok ps : forall md, add_partitions (map (fun p => partition_json (fst p) (snd p)) ps) md =
  Ok (Some {| size := size md; blockSize := blockSize md; partitions := partitions md ++ info_of ps |}).
Proof.
  induction ps as [|[n pr] ps IH]; intros md; [cbn; rewrite app_nil_r; by destruct md|].
  change (add_partitions (map _ ((n, pr) :: ps)) md)
    with (add_partitions (map (fun p => partition_json (fst p) (snd p)) ps) (Metadata.AddPartition n pr md)).
  rewrite IH. cbn. by rewrite <- app_assoc.
Qed.
Lemma partition_array_ok ps : forall l, partition_array (info_of ps) (JArray l) =
  Ok (JArray (l ++ map (fun p => partition_json (fst p) (snd p)) ps)).
Proof.
  induction ps as [|[n pr] ps IH]; intros l; [cbn; by rewrite app_nil_r|].
  change (partition_array (info_of ((n, pr) :: ps)) (JArray l))
    with (partition_array (info_of ps) (JArray (l ++ [partition_json n pr]))).
  rewrite IH. cbn. by rewrite <- app_assoc.
Qed.
Lemma description_ok size ps c : ps <> [] -> 0 < BlobConfig.dataBlocks c < 2 ^ 16 -> 0 <= BlobConfig.codeBlocks c < 2 ^ 16 ->
  description (metadata_of size ps) c = Ok (volume_of size (BlobConfig.dataBlocks c) (BlobConfig.codeBlocks c) ps).
Proof.
  intros Hps Hd Hc. destruct ps as [|[n pr] ps]; [done|]. unfold description.
  change (partition_array (partitions (metadata_of size ((n, pr) :: ps))) JNull)
    with (partition_array (info_of ps) (JArray [partition_json n pr])).
  rewrite partition_array_ok. cbn [obind Json.set_member metadata_of blockSize Metadata.size].
  destruct (Z.eqb_spec (BlobConfig.dataBlocks c) 0); [lia|]. cbn -[u32 ceil_div Z.div].
  rewrite (u32_small (BlobConfig.dataBlocks c)), (u32_small (BlobConfig.codeBlocks c)) by (unfold in_u32; lia). done.
Qed.

Section Reopen.
Context (url_escape url_decode json_quote : string -> string) (json_unquote : string -> option string).
Context (reader : list Z -> bool * json) {St : Type} (process : string -> request -> M St response) (reach : string -> bool).
Context (kademliaUrl : list string) (p : RemoteBlobProvider.t).
Import RemoteBlobProvider.
Abbreviation create := (CreateVolumePartitions url_escape url_decode json_quote json_unquote reader process reach kademliaUrl).
Abbreviation load := (LoadVolumeFromJson url_escape url_decode json_quote json_unquote reader process reach kademliaUrl).
Abbreviation NewBlob := (NewBlob url_escape url_decode json_quote json_unquote reader process reach kademliaUrl p).
Abbreviation OpenBlob := (OpenBlob url_escape url_decode json_quote json_unquote reader process reach kademliaUrl).

Lemma on_store_inv {A} (m : M world A) (w : system (St := St)) a w' : on_store m w = Ok (a, w') ->
  m (store w) = Ok (a, store w') /\ network w' = network w.
Proof using. unfold on_store. destruct (m (store w)) as [[x s]| |]; cbn; [|done..]. by intros [= <- <-]. Qed.
Lemma on_network_inv {A} (m : M (client (St := St)) A) (w : system (St := St)) a w' : on_network m w = Ok (a, w') ->
  m (network w) = Ok (a, network w') /\ store w' = store w.
Proof using. unfold on_network. destruct (m (network w)) as [[x s]| |]; cbn; [|done..]. by intros [= <- <-]. Qed.
(** a loaded volume has a partition for each column *)
Lemma load_volume_of size d k ps n v n' : 0 < d < 2 ^ 16 -> 0 <= k < 2 ^ 16 -> load (volume_of size d k ps) n = Ok (Some v, n') ->
  d + k <= zlen ps /\ Volume.blockSize v = block_size /\ Volume.dataCount v = d /\
  Volume.blockCount v = u32 (ceil_div (size / d) block_size).
Proof using.
  intros Hd Hk E. apply LoadVolumeFromJson_inv in E as (bs & bc & d' & k' & E1 & E2 & E3 & E4 & Hl & E).
  unfold volume_of, volume_json, member in E1, E2, E3, E4, Hl, E.
  cbn -[u32 ceil_div Z.div u64 load_partitions Volume.make] in E1, E2, E3, E4, Hl, E.
  assert (forall x y, (if x <? 0 then Fault UncaughtException else Ok x) = Ok y -> y = x) as Hu by (intros x y; destruct (x <? 0); congruence).
  apply Hu in E1 as ->, E2 as ->, E3 as ->, E4 as ->.
  rewrite u64_small in Hl by (unfold in_u64; lia). unfold zlen in *. rewrite length_map in Hl.
  split; [lia|]. apply load_partitions_ok in E as (-> & _); [done| |done|done]. unfold zlen. cbn. lia.
Qed.

Lemma new_blob_inv size sys b sys' :
  let c := config (store sys) in
  0 < BlobConfig.dataBlocks c < 2 ^ 16 -> 0 <= BlobConfig.codeBlocks c < 2 ^ 16 -> NewBlob size sys = Ok (Some b, sys') ->
  exists ps v n w1, fs w1 = fs (store sys) /\ blobMap w1 = blobMap (store sys) /\ config w1 = c /\
    RemoteBlob.Id b = uuids (store sys) (fresh (store sys)) /\ RemoteBlob.Size b = size /\ RemoteBlob.volume b = Some v /\
    NoDup ps.*2 /\ zlen ps <= BlobConfig.dataBlocks c + BlobConfig.codeBlocks c /\
    SetMetadata (RemoteBlob.Id b) (metadata_of size ps) w1 = Ok (tt, store sys') /\
    load (volume_of size (BlobConfig.dataBlocks c) (BlobConfig.codeBlocks c) ps) n = Ok (Some v, network sys').
Proof using.
  intros c Hd Hk E. unfold RemoteBlobProvider.NewBlob in E.
  apply bind_inv in E as (id & s1 & E1 & E). apply on_store_inv in E1 as [E1 N1]. injection E1 as <- Es1.
  apply bind_inv in E as (ex & s2 & E2 & E). injection E2 as <- <-. destruct (bool_decide _); [done|].
  apply bind_inv in E as (bm & s2 & E2 & E). apply on_store_inv in E2 as [E2 N2]. injection E2 as <- Es2.
  destruct (blobMap (store s1)) as [m|] eqn:Em; [|done].
  apply bind_inv in E as (c' & s3 & E3 & E). apply on_store_inv in E3 as [E3 N3]. injection E3 as <- Es3.
  assert (config (store s2) = c) as Ec by (rewrite <- Es2, <- Es1; done). rewrite Ec in E.
  apply bind_inv in E as (info & s4 & E4 & E). apply on_network_inv in E4 as [E4 N4].
  unfold u16 in E4. rewrite !Z.mod_small in E4 by lia.
  apply created_volume in E4; [|lia|lia]. destruct E4 as [->|(ps & -> & Hn & Hl)].
  { cbn in E. apply bind_inv in E as (u & s5 & _ & E). cbn in E. unfold bind, on_network, LoadVolumeFromJson in E. cbn in E. discriminate E. }
  fold (volume_of size (BlobConfig.dataBlocks c) (BlobConfig.codeBlocks c) ps) in E.
  apply bind_inv in E as ([x info] & s5 & E5 & E). apply lift_inv in E5 as [E5 ->]. injection E5 as <- <-.
  apply bind_inv in E as (bs & s5 & E5 & E). apply lift_inv in E5 as [E5 ->]. injection E5 as <-.
  apply bind_inv in E as ([x info] & s5 & E5 & E). apply lift_inv in E5 as [E5 ->]. injection E5 as <- <-.
  apply bind_inv in E as (md & s5 & E5 & E). apply lift_inv in E5 as [E5 ->]. cbn [elements] in E5. rewrite add_partitions_ok in E5. injection E5 as <-.
  apply bind_inv in E as (u & s5 & E5 & E). apply on_store_inv in E5 as [E5 N5]. destruct u. cbn [isNull volume_of volume_json] in E.
  apply bind_inv in E as (v & s6 & E6 & E). apply on_network_inv in E6 as [E6 N6]. destruct v as [v|]; [|done]. injection E as <- <-.
  exists ps, v, (network s5), (store s4). rewrite N4, <- Es3, <- Es2, <- Es1. do 3 (split; [done|]). do 5 (split; [done|]). rewrite N6. split; [|done].
  rewrite <- E5. rewrite N4, <- Es3, <- Es2, <- Es1. done.
Qed.

Lemma DataSize_whole size d v : 0 < d < 2 ^ 16 -> 0 <= size < 2 ^ 48 -> size mod (d * block_size) = 0 ->
  Volume.dataCount v = d -> Volume.blockSize v = block_size -> Volume.blockCount v = u32 (ceil_div (size / d) block_size) ->
  DataSize v = size.
Proof using.
  intros Hd Hs Hm E1 E2 E3. unfold DataSize. rewrite E1, E2, E3. unfold block_size in *.
  apply Z_div_exact_2 in Hm; [|lia]. set (q := size / (d * (64 * 1024))) in *.
  assert (size / d = q * 65536) as E.
  { rewrite Hm. symmetry. apply Z.div_unique_exact; lia. }
  assert (ceil_div (size / d) (64 * 1024) = q) as ->.
  { unfold ceil_div. rewrite E. rewrite <- Z.mul_opp_l, Z.div_mul by lia. lia. }
  assert (0 <= q < 2 ^ 32) by nia. rewrite u32_small by done.
  rewrite (u64_small (d * q)) by (unfold in_u64; nia). rewrite u64_small by (unfold in_u64; nia). nia.
Qed.

(** [C8] A new blob can be opened again, by this process or by another one with its
    blob map: the metadata it leaves there gives OpenBlob the description that the
    volume of NewBlob was put together from, with a partition for each column and no
    two at one provider.  The size is the one asked for when that is a whole number
    of rows of blocks. *)
Theorem remote_blob_reopens (size : Z) (sys sys' : system (St := St)) (b : RemoteBlob.t) (m : BlobMap.t) :
  let d := BlobConfig.dataBlocks (config (store sys)) in
  let k := BlobConfig.codeBlocks (config (store sys)) in
  0 < d < 2 ^ 16 -> 0 <= k < 2 ^ 16 ->
  blobMap (store sys) = Some m -> BlobMap.inv m (fs (store sys)) -> uuids (store sys) (fresh (store sys)) <> EmptyString ->
  NewBlob size sys = Ok (Some b, sys') ->
  exists ps v n, RemoteBlob.volume b = Some v /\ RemoteBlob.Size b = size /\ NoDup ps.*2 /\ zlen ps = d + k /\
    load (volume_of size d k ps) n = Ok (Some v, network sys') /\
    (metadata_ok (metadata_of size ps) -> BlobMap.room m (fs (store sys)) (zlen (Metadata.encode (metadata_of size ps))) ->
     GetMetadata (RemoteBlob.Id b) Metadata.empty (store sys') = Ok ((true, metadata_of size ps), store sys')) /\
    (forall p2 (sys2 : system (St := St)), blobMap (store sys2) <> None -> config (store sys2) = config (store sys) ->
     GetMetadata (RemoteBlob.Id b) Metadata.empty (store sys2) = Ok ((true, metadata_of size ps), store sys2) ->
     OpenBlob p2 (RemoteBlob.Id b) sys2 =
       obind (load (volume_of size d k ps) (network sys2)) (fun '(v2, n2) =>
         Ok (option_map (fun v2 => RemoteBlob.mk (Some v2) (RemoteBlob.Id b) (DataSize v2)) v2, mksystem (store sys2) n2))) /\
    (0 <= size < 2 ^ 48 -> size mod (d * block_size) = 0 -> DataSize v = size).
Proof using.
  intros d k Hd Hk Hm Hinv Hid E.
  destruct (new_blob_inv size sys b sys' Hd Hk E) as (ps & v & n & w1 & F1 & F2 & F3 & Hib & Hsz & Hv & Hn & Hl & Em & El).
  fold d k in Hl, El. destruct (load_volume_of _ _ _ _ _ _ _ Hd Hk El) as (Hl' & V1 & V2 & V3).
  exists ps, v, n. do 3 (split; [done|]). split; [lia|]. split; [done|]. split; [|split].
  - intros [Hwf Hmd] Hroom. rewrite <- Hib in Hid. rewrite <- F1 in Hinv, Hroom. unfold SetMetadata in Em. rewrite F2, Hm in Em.
    destruct (BlobMapFacts.SetMetadata_cases _ _ _ _ Hinv Hid Hwf Hmd) as (m' & s' & fp & old & Es & _ & _ & _ & Hinv' & _ & Hval).
    rewrite Es in Em. injection Em as Em. rewrite <- Em. unfold GetMetadata. cbn [blobMap set_blobMap fs].
    rewrite (BlobMapFacts.GetMetadata_stored _ (metadata_of size ps)); [done|done|done|].
    destruct Hval as [Hval|[Hval _]]; [|done]. by rewrite Hval, String.eqb_refl.
  - intros p2 sys2 Hm2 Hc2 Hg. unfold RemoteBlobProvider.OpenBlob. unfold bind at 1, on_store at 1, GetBlobMap, gets. cbn [obind store network].
    destruct (blobMap (store sys2)); [|done]. unfold bind at 1, on_store at 1. cbn [store network]. rewrite Hg. cbn [obind negb].
    unfold bind at 1, on_store at 1, gets. cbn [obind store network]. unfold bind at 1, lift. rewrite Hc2.
    assert (ps <> []) as Hps by (intros ->; change (zlen []) with 0 in Hl'; lia).
    rewrite (description_ok size ps _ Hps Hd Hk). cbn [obind]. unfold bind, on_network. cbn [store network].
    fold d k. by destruct (load (volume_of size d k ps) (network sys2)) as [[v2 n2]| |].
  - intros Hs Hw. by apply (DataSize_whole size d v Hd).
Qed.

(** DeleteBlob is an unlink of local files that a remote blob does not have: the
    hosts keep the partitions, and the blob can be opened as before *)
Lemma deleted_blob_kept id (sys sys' : system (St := St)) : DeleteBlob p id sys = Ok (tt, sys') ->
  network sys' = network sys /\ blobMap (store sys') = blobMap (store sys).
Proof using.
  unfold DeleteBlob, unlink_buffer. intros E. apply bind_inv in E as (u & s1 & E1 & E). apply bind_inv in E as (u2 & s2 & E2 & E).
  destruct (_ <? _); [|done]. apply on_store_inv in E1 as [E1 N1]. injection E1 as _ E1.
  destruct (_ <? _); [|done]. apply on_store_inv in E2 as [E2 N2]. injection E2 as _ E2.
  destruct (_ <? _); [|done]. apply on_store_inv in E as [E N]. injection E as E.
  split; [congruence|]. by rewrite <- E, <- E2, <- E1.
Qed.
End Reopen.

(** four providers, each with one column of a blob of two rows *)
Definition sample_system : RemoteBlobProvider.system (St := unit) := RemoteBlobProvider.mksystem sample_world canned_client.

Lemma remote_blob_reopens_witness : exists b sys' m,
  RemoteBlobProvider.NewBlob id id id Some canned_reader canned (fun _ => true) ["http://k"%string]
    (RemoteBlobProvider.mk ".") 262144 sample_system = Ok (Some b, sys') /\
  blobMap (RemoteBlobProvider.store sample_system) = Some m /\
  exists ps v n, RemoteBlob.volume b = Some v /\ RemoteBlob.Size b = 262144 /\ NoDup ps.*2 /\ zlen ps = 2 + 2 /\
    LoadVolumeFromJson id id id Some canned_reader canned (fun _ => true) ["http://k"%string] (volume_of 262144 2 2 ps) n
      = Ok (Some v, RemoteBlobProvider.network sys') /\ DataSize v = 262144.
Proof.
  destruct (inv_map _ _ (proj1 sample_inv)) as (m & fp & Hm & _ & Hinv & _).
  assert (Ec : config (RemoteBlobProvider.store sample_system) = BlobConfig.mk 64 2 2 (Some EmptyString)) by (vm_compute; reflexivity).
  assert (exists b sys', RemoteBlobProvider.NewBlob id id id Some canned_reader canned (fun _ => true) ["http://k"%string]
    (RemoteBlobProvider.mk ".") 262144 sample_system = Ok (Some b, sys')) as (b & sys' & E) by (eexists _, _; vm_compute; reflexivity).
  pose proof (remote_blob_reopens id id id Some canned_reader canned (fun _ => true) ["http://k"%string]
    (RemoteBlobProvider.mk ".") 262144 sample_system sys' b m) as T.
  cbv zeta in T. rewrite Ec in T. cbn [BlobConfig.dataBlocks BlobConfig.codeBlocks] in T.
  destruct T as (ps & v & n & H1 & H2 & H3 & H4 & H5 & _ & _ & H8);
    [lia|lia|exact Hm|exact Hinv|vm_compute; discriminate|exact E|].
  exists b, sys', m. split; [exact E|]. split; [exact Hm|].
  exists ps, v, n. do 5 (split; [assumption|]). apply H8; [lia|reflexivity].
Defined.
