(* ===== verification/Arguments.v ===== *)
(** * Command-line arguments (src/src/bdblob/Argument.h, Argument.cpp,
      ArgumentParser.h, ArgumentParser.cpp)

    Registration, the split of a command line into parameters, and the values they
    give.  An [argument] has both the tag [ArgumentType] and the type of the value
    it was made with; a cast between them that does not fit is a fault. *)

From Stdlib Require Import ZArith Lia Bool Ascii String.
From stdpp Require Import base list gmap strings pretty.
From S2P Require Import Prelude StdMap Paths HostPartition HostHandler.
Set Default Goal Selector "!".
Local Open Scope Z_scope.
Local Open Scope drive_scope.

Inductive ArgumentType := STRING | INTEGER | BOOLEAN.
#[export] Instance ArgumentType_eq_dec : EqDecision ArgumentType.
Proof. solve_decision. Defined.
(** the [T] of an Argument<T> with its value *)
Inductive typed_value := VString (s : string) | VInt (n : Z) | VBool (b : bool).
Definition type_of (v : typed_value) : ArgumentType :=
  match v with VString _ => STRING | VInt _ => INTEGER | VBool _ => BOOLEAN end.
Record argument := mkargument {
  type : ArgumentType;
  isSet : bool;
  required : bool;
  isAnonymouse : bool;
  abbrev : ascii;
  description : string;
  val : typed_value
}.
(** SetValue on the argument cast to the type of [v] *)
Definition SetValue (v : typed_value) (a : argument) : outcome argument :=
  if bool_decide (type_of v = type_of (val a))
  then Ok (mkargument (type a) true (required a) (isAnonymouse a) (abbrev a) (description a) v)
  else Fault BadCast.
Definition AsString (a : argument) : outcome string :=
  match val a with VString s => Ok s | _ => Fault AssertFailed end.
Definition AsInt (a : argument) : outcome Z :=
  match val a with VInt n => Ok n | _ => Fault AssertFailed end.
Definition AsBoolean (a : argument) : outcome bool :=
  match val a with VBool b => Ok b | _ => Fault AssertFailed end.

Record parser := mkparser {
  args : list (string * argument);
  abbrevs : gmap ascii string;
  anonymouse : list string
}.
Definition no_abbrev : ascii := "000"%char.
Definition empty_parser : parser := mkparser [] ∅ [].

Definition Register (name : string) (req : bool) (ab : ascii) (desc : string) (isAnon : bool) (default : typed_value)
    (p : parser) : outcome parser :=
  if empty_str name then Fault AssertFailed else
  if SMap.find name (args p) then Fault AssertFailed else
  if negb (Ascii.eqb ab no_abbrev) && (if abbrevs p !! ab then true else false) then Fault AssertFailed else
  Ok (mkparser
    (SMap.insert name (mkargument (type_of default) false req isAnon ab desc default) (args p))
    (if Ascii.eqb ab no_abbrev then abbrevs p else <[ab := name]> (abbrevs p))
    (if isAnon then anonymouse p ++ [name] else anonymouse p)).

(** ** From the command line to parameters *)
(** [input] split at its first [=]; nothing when either side would be empty *)
Definition parseParam (input : string) : string * string :=
  if empty_str input then (EmptyString, EmptyString) else
  match find_char "=" input with
  | Some pos =>
      if Nat.eqb pos 0 || Nat.eqb pos (String.length input - 1) then (EmptyString, EmptyString)
      else (substring 0 pos input, substr_from (S pos) input)
  | None => (input, EmptyString)
  end.
Fixpoint abbrev_names (p : parser) (key : string) : option (list string) :=
  match key with
  | EmptyString => Some []
  | String c key =>
      match abbrevs p !! c with
      | None => None
      | Some name => option_map (cons name) (abbrev_names p key)
      end
  end.
Abbreviation params := (list (string * string)).
(** the options of one word; a value that is not in it is the next word *)
Fixpoint set_names (p : parser) (several : bool) (names : list string) (value : string) (rest : list string) (ps : params)
  : option (list string * params) :=
  match names with
  | [] => Some (rest, ps)
  | name :: names =>
      match SMap.find name (args p) with
      | None => None
      | Some a =>
          let isBool := bool_decide (type a = BOOLEAN) in
          if several && negb isBool then None
          else if isBool then set_names p several names value rest (SMap.insert name value ps)
          else if negb (empty_str value) then set_names p several names value rest (SMap.insert name value ps)
          else match rest with
               | next :: rest => set_names p several names value rest (SMap.insert name next ps)
               | [] => None
               end
      end
  end.
Definition starts_with_dash (s : string) : bool := match s with String "-" _ => true | _ => false end.
(** one word of the command line and the words after it *)
Definition parse_word (p : parser) (cur : string) (rest : list string) (idx : nat) (ps : params)
  : option (list string * nat * params) :=
  match cur with
  | String "-" opt =>
      let isAbbrev := negb (starts_with_dash opt) in
      let '(key, value) := parseParam (if isAbbrev then opt else substr_from 1 opt) in
      if empty_str key || (isAbbrev && (1 <? String.length key)%nat && negb (empty_str value)) then None else
      match (if isAbbrev then abbrev_names p key else Some [key]) with
      | None => None
      | Some names =>
          option_map (fun '(rest, ps) => (rest, idx, ps))
            (set_names p (1 <? length names)%nat names value rest ps)
      end
  | _ =>
      match anonymouse p !! idx with
      | None => None
      | Some name => Some (rest, S idx, SMap.insert name cur ps)
      end
  end.
Fixpoint parse_words (fuel : nat) (p : parser) (words : list string) (idx : nat) (ps : params) : outcome (option params) :=
  match words, fuel with
  | [], _ => Ok (Some ps)
  | _, O => OutOfFuel
  | cur :: rest, S fuel =>
      match parse_word p cur rest idx ps with
      | None => Ok None
      | Some (rest, idx, ps) => parse_words fuel p rest idx ps
      end
  end.
(** ArgumentParser::Parse(argc, argv, params): the program's name is skipped *)
Definition parse_params (p : parser) (argv : list string) : outcome (option params) :=
  parse_words (length argv) p (tail argv) 0 [].

(** ** From parameters to values *)
(** atoll, with the C library's limits *)
Definition clamp_i64 (n : Z) : Z := Z.max (- 2 ^ 63) (Z.min (2 ^ 63 - 1) n).
Definition atoll (s : string) : Z :=
  match skip_spaces s with
  | String "-" s => clamp_i64 (- digits_value 0 s)
  | String "+" s => clamp_i64 (digits_value 0 s)
  | s => clamp_i64 (digits_value 0 s)
  end.
Definition convert (t : ArgumentType) (text : string) : typed_value :=
  match t with
  | STRING => VString text
  | INTEGER => VInt (atoll text)
  | BOOLEAN => VBool (empty_str text || String.eqb text "true" || String.eqb text "1")
  end.
Fixpoint apply_params (ps : params) (p : parser) : outcome (bool * parser) :=
  match ps with
  | [] => Ok (true, p)
  | (name, text) :: ps =>
      match SMap.find name (args p) with
      | None => Ok (false, p)
      | Some a =>
          obind (SetValue (convert (type a) text) a) (fun a =>
            apply_params ps (mkparser (SMap.insert name a (args p)) (abbrevs p) (anonymouse p)))
      end
  end.
Definition ValidateRequired (p : parser) : bool :=
  forallb (fun q => negb (required (snd q)) || isSet (snd q)) (args p).
Definition Parse (argv : list string) (p : parser) : outcome (bool * parser) :=
  obind (parse_params p argv) (fun ps =>
    match ps with
    | None => Ok (false, p)
    | Some ps => obind (apply_params ps p) (fun '(ok, p) => Ok (if ok : bool then (ValidateRequired p, p) else (false, p)))
    end).
Definition IsSet (name : string) (p : parser) : bool :=
  match SMap.find name (args p) with Some a => isSet a | None => false end.
Definition GetArgument (name : string) (p : parser) : option argument := SMap.find name (args p).
(** [parser\[name\]] *)
Definition argument_at (name : string) (p : parser) : outcome argument :=
  match GetArgument name p with Some a => Ok a | None => Fault NullDeref end.

Import SMapFacts.
Set Default Goal Selector "!".
Local Open Scope Z_scope.
Local Open Scope drive_scope.

Abbreviation lookup_arg p name := (SMap.find name (args p)).

(** ** Parsers made by Register *)
Inductive registered : parser -> Prop :=
| registered_empty : registered empty_parser
| registered_step p name req ab desc isAnon default p' :
    registered p -> Register name req ab desc isAnon default p = Ok p' -> registered p'.
(** tags fit values, and the two indices name arguments *)
Record well_formed (p : parser) : Prop := {
  wf_types name a : lookup_arg p name = Some a -> type a = type_of (val a);
  wf_abbrevs c name : abbrevs p !! c = Some name -> is_Some (lookup_arg p name);
  wf_anonymouse i name : anonymouse p !! i = Some name -> is_Some (lookup_arg p name)
}.
Lemma registered_wf p : registered p -> well_formed p.
Proof.
  induction 1 as [|p name req ab desc isAnon default p' _ [H1 H2 H3] E].
  { split; [done|..]; intros x n Hn; cbn in Hn; [by rewrite lookup_empty in Hn|done]. }
  unfold Register in E. destruct (empty_str name); [done|]. destruct (SMap.find name (args p)) eqn:Ef; [done|].
  destruct (_ && _); [done|]. injection E as <-.
  assert (forall n, is_Some (lookup_arg p n) ->
    is_Some (SMap.find n (SMap.insert name (mkargument (type_of default) false req isAnon ab desc default) (args p)))) as Hi.
  { intros n Hn. rewrite find_insert. by destruct (String.eqb n name). }
  assert (forall a, is_Some (SMap.find name (SMap.insert name a (args p)))) as Hs.
  { intros a. rewrite find_insert_eq. by eexists. }
  split; cbn.
  - intros n a. rewrite find_insert. destruct (String.eqb n name); [by intros [= <-]|apply H1].
  - intros c n Hn. destruct (Ascii.eqb ab no_abbrev); [by apply Hi, (H2 c)|].
    apply lookup_insert_Some in Hn as [[_ <-]|[_ Hn]]; [apply Hs|by apply Hi, (H2 c)].
  - intros i n Hn. destruct isAnon; [|by apply Hi, (H3 i)].
    apply lookup_app_Some in Hn as [Hn|[_ Hn]]; [by apply Hi, (H3 i)|].
    apply list_lookup_singleton_Some in Hn as [_ <-]. apply Hs.
Qed.

(** ** Words become parameters of registered arguments *)
Definition keys_in (p : parser) (ps : list (string * string)) : Prop := Forall (fun q => is_Some (lookup_arg p (fst q))) ps.
Definition params_ok (p : parser) (ps : list (string * string)) : Prop := keys_in p ps /\ SMap.sorted ps.
Lemma params_ok_insert p ps name v : params_ok p ps -> is_Some (lookup_arg p name) -> params_ok p (SMap.insert name v ps).
Proof. intros [Hk Hs] Hn. split; [by apply Forall_insert|by apply sorted_insert]. Qed.

Lemma set_names_ok p several names : forall value rest ps rest' ps',
  set_names p several names value rest ps = Some (rest', ps') -> params_ok p ps ->
  params_ok p ps' /\ (length rest' <= length rest)%nat.
Proof.
  induction names as [|name names IH]; intros value rest ps rest' ps' E Hp; [by injection E as <- <-|]. cbn in E.
  destruct (SMap.find name (args p)) as [a|] eqn:Ef; [|done].
  assert (forall v, params_ok p (SMap.insert name v ps)) as Hi.
  { intros v. apply params_ok_insert; [done|]. rewrite Ef. by eexists. }
  destruct (several && _); [done|]. destruct (bool_decide _); [by apply (IH _ _ _ _ _ E)|].
  destruct (negb (empty_str value)); [by apply (IH _ _ _ _ _ E)|]. destruct rest as [|next rest]; [done|].
  apply IH in E as [Hp' Hl]; [|done]. split; [done|]. cbn. lia.
Qed.
Lemma parse_word_ok p cur rest idx ps rest' idx' ps' : well_formed p ->
  parse_word p cur rest idx ps = Some (rest', idx', ps') -> params_ok p ps ->
  params_ok p ps' /\ (length rest' <= length rest)%nat.
Proof.
  intros Hw E Hp. unfold parse_word in E.
  assert (forall r i q, match anonymouse p !! idx with
      | None => None | Some name => Some (rest, S idx, SMap.insert name cur ps) end = Some (r, i, q) ->
    params_ok p q /\ (length r <= length rest)%nat) as Hanon.
  { intros r i q Ea. destruct (anonymouse p !! idx) as [name|] eqn:En; [|done]. injection Ea as <- <- <-. split; [|done].
    apply params_ok_insert; [done|]. by apply (wf_anonymouse p Hw idx). }
  destruct cur as [|c opt]; [by apply (Hanon _ _ _ E)|].
  destruct (decide (c = "-"%char)) as [->|Hc].
  - destruct (parseParam _) as [key value]. destruct (_ || _); [done|].
    destruct (if negb (starts_with_dash opt) then _ else _) as [names|]; [|done].
    destruct (set_names _ _ _ _ _ _) as [[r q]|] eqn:Es; [|done]. cbn in E. injection E as <- _ <-.
    by apply (set_names_ok _ _ _ _ _ _ _ _ Es).
  - destruct c as [[] [] [] [] [] [] [] []]; first [by destruct Hc|by apply (Hanon _ _ _ E)].
Qed.
Lemma parse_words_ok p fuel : well_formed p -> forall words idx ps, (length words <= fuel)%nat -> params_ok p ps ->
  exists r, parse_words fuel p words idx ps = Ok r /\ match r with Some ps' => params_ok p ps' | None => True end.
Proof.
  intros Hw. induction fuel as [|fuel IH]; intros words idx ps Hf Hp.
  { destruct words; [|cbn in Hf; lia]. by exists (Some ps). }
  destruct words as [|cur rest]; [by exists (Some ps)|]. cbn [parse_words].
  destruct (parse_word p cur rest idx ps) as [[[rest' idx'] ps']|] eqn:E; [|by exists None].
  destruct (parse_word_ok _ _ _ _ _ _ _ _ Hw E Hp) as [Hp' Hl]. apply IH; [cbn in Hf; lia|done].
Qed.

(** ** Parameters become values *)
Definition set_text (text : string) (a : argument) : argument :=
  mkargument (type a) true (required a) (isAnonymouse a) (abbrev a) (description a) (convert (type a) text).
Definition updated (ps : list (string * string)) (name : string) (a : argument) : argument :=
  match SMap.find name ps with Some text => set_text text a | None => a end.
Lemma type_of_convert t text : type_of (convert t text) = t.
Proof. by destruct t. Qed.
Lemma apply_params_ok ps : forall p, (forall name a, lookup_arg p name = Some a -> type a = type_of (val a)) -> params_ok p ps ->
  exists p', apply_params ps p = Ok (true, p') /\ abbrevs p' = abbrevs p /\ anonymouse p' = anonymouse p /\
    forall name, lookup_arg p' name = option_map (updated ps name) (lookup_arg p name).
Proof.
  induction ps as [|[k t] ps IH]; intros p Ht [Hk Hs].
  { exists p. do 3 (split; [done|]). intros name. by destruct (lookup_arg p name). }
  apply Forall_cons in Hk as [[a Ha] Hk]. destruct Hs as [Hab Hs]. cbn [fst] in Ha. cbn [apply_params]. rewrite Ha.
  unfold SetValue. rewrite type_of_convert, bool_decide_eq_true_2 by by apply (Ht k). cbn [obind].
  set (q := mkparser _ _ _).
  assert (forall name, lookup_arg q name = if String.eqb name k then Some (set_text t a) else lookup_arg p name) as Hq.
  { intros name. apply find_insert. }
  destruct (IH q) as (p' & E & H1 & H2 & H3).
  - intros name a'. rewrite Hq. destruct (String.eqb name k); [|apply Ht]. intros [= <-]. cbn. by rewrite type_of_convert.
  - split; [|done]. eapply Forall_impl; [exact Hk|]. intros [n v] Hn. cbn in *. rewrite Hq. by destruct (String.eqb n k).
  - exists p'. split; [done|]. split; [done|]. split; [done|]. intros name. rewrite H3, Hq. unfold updated. cbn [SMap.find].
    destruct (String.eqb_spec name k) as [->|]; [|done]. cbn. by rewrite Ha, (above_find _ _ Hab).
Qed.

Lemma option_map_id {A} (f : A -> A) o : (forall a, f a = a) -> option_map f o = o.
Proof. intros Hf. destruct o; cbn; [by rewrite Hf|done]. Qed.

(** [C36] Parsing is type-safe: on every command line it returns, without casting an
    argument to a type it does not have, and each argument keeps the type it was
    registered with and can be read at that type. *)
Theorem parse_keeps_types (p : parser) (argv : list string) (Hp : registered p) :
  exists ok p', Parse argv p = Ok (ok, p') /\
    forall name a', lookup_arg p' name = Some a' -> exists a, lookup_arg p name = Some a /\ type a' = type a /\
      match type a' with
      | STRING => exists s, AsString a' = Ok s
      | INTEGER => exists n, AsInt a' = Ok n
      | BOOLEAN => exists b, AsBoolean a' = Ok b
      end.
Proof.
  apply registered_wf in Hp as Hw.
  assert (forall a, type a = type_of (val a) ->
    match type a with STRING => exists s, AsString a = Ok s | INTEGER => exists n, AsInt a = Ok n
      | BOOLEAN => exists b, AsBoolean a = Ok b end) as Hread.
  { intros a. unfold AsString, AsInt, AsBoolean. intros ->. destruct (val a); by eexists. }
  destruct (parse_words_ok p (length argv) Hw (tail argv) 0 []) as (r & Er & Hr); [destruct argv; cbn; lia|split; [by apply Forall_nil_2|done]|].
  unfold Parse, parse_params. rewrite Er. cbn [obind]. destruct r as [ps|].
  - destruct (apply_params_ok ps p (wf_types p Hw) Hr) as (p' & E & _ & _ & Hl). rewrite E. cbn [obind].
    do 2 eexists. split; [done|]. intros name a'. rewrite Hl. destruct (lookup_arg p name) as [a|] eqn:Ea; [|done].
    cbn. intros [= <-]. exists a. unfold updated. pose proof (wf_types p Hw _ _ Ea) as Ht.
    destruct (SMap.find name ps); (split; [done|split; [done|apply Hread]]); [by cbn; rewrite type_of_convert|done].
  - do 2 eexists. split; [done|]. intros name a Ha. exists a. split; [done|]. split; [done|].
    by apply Hread, (wf_types p Hw name).
Qed.

(** ** Rendered command lines *)
Definition render (o : string * string) : string :=
  "--" +:+ fst o +:+ (if empty_str (snd o) then EmptyString else "=" +:+ snd o).
(** an option of a registered argument: no [=] in its name, and a value unless it is boolean *)
Definition option_ok (p : parser) (o : string * string) : Prop :=
  fst o <> EmptyString /\ find_char "=" (fst o) = None /\
  exists a, lookup_arg p (fst o) = Some a /\ (snd o = EmptyString -> type a = BOOLEAN).
(** what is given: the options, the later ones first, and the words that are not options *)
Definition insert_all (l : list (string * string)) (ps : list (string * string)) : list (string * string) :=
  foldl (fun ps q => SMap.insert (fst q) (snd q) ps) ps l.
Definition given (p : parser) (options : list (string * string)) (words : list string) : list (string * string) :=
  insert_all (options ++ zip (anonymouse p) words) [].

Lemma parseParam_render n v : n <> EmptyString -> find_char "=" n = None ->
  parseParam (n +:+ (if empty_str v then EmptyString else "=" +:+ v)) = (n, v).
Proof.
  intros Hn Hf. unfold parseParam. destruct v as [|c v]; cbn [empty_str].
  - rewrite append_nil_r. destruct n; [done|]. cbn [empty_str]. by rewrite Hf.
  - change ("=" +:+ String c v) with (String "=" (String c v)).
    assert (empty_str (n +:+ String "=" (String c v)) = false) as -> by by destruct n.
    rewrite find_char_app by done. rewrite length_append. cbn [String.length].
    destruct (Nat.eqb_spec (String.length n) 0); [by destruct n|].
    destruct (Nat.eqb_spec (String.length n) (String.length n + S (S (String.length v)) - 1)); [lia|]. cbn [orb].
    rewrite substring_prefix. f_equal.
    assert (n +:+ String "=" (String c v) = (n +:+ "=") +:+ String c v) as ->.
    { clear. induction n as [|x n IH]; [done|]. change (String x n +:+ ?b) with (String x (n +:+ b)). by rewrite IH. }
    replace (S (String.length n)) with (String.length (n +:+ "=")) by (rewrite length_append; cbn; lia).
    apply substr_from_app.
Qed.
Lemma parse_word_option p o rest idx ps : option_ok p o ->
  parse_word p (render o) rest idx ps = Some (rest, idx, SMap.insert (fst o) (snd o) ps).
Proof.
  destruct o as [n v]. intros (Hn & Hf & a & Ha & Hb). cbn [fst snd] in *. unfold render. cbn [fst snd].
  set (body := n +:+ (if empty_str v then EmptyString else "=" +:+ v)).
  change ("--" +:+ body) with (String "-" (String "-" body)). unfold parse_word. cbn [starts_with_dash negb].
  assert (substr_from 1 (String "-" body) = body) as -> by exact (substr_from_app "-" body).
  unfold body. rewrite parseParam_render by done.
  assert (empty_str n = false) as -> by by destruct n. cbn [orb andb length Nat.ltb Nat.leb set_names]. rewrite Ha. cbn [andb].
  destruct (bool_decide_reflect (type a = BOOLEAN)) as [Hbool|Hbool]; [done|].
  assert (empty_str v = false) as ->; [|done]. destruct v; [by destruct Hbool; apply Hb|done].
Qed.
Lemma parse_word_plain p cur rest idx ps name : starts_with_dash cur = false -> anonymouse p !! idx = Some name ->
  parse_word p cur rest idx ps = Some (rest, S idx, SMap.insert name cur ps).
Proof.
  intros Hc Hn. unfold parse_word. destruct cur as [|c cur]; [by rewrite Hn|].
  destruct c as [[] [] [] [] [] [] [] []]; first [discriminate Hc|by rewrite Hn].
Qed.
Lemma parse_plain_words p words : forall fuel idx ps, Forall (fun w => starts_with_dash w = false) words ->
  (length words <= fuel)%nat -> (idx + length words <= length (anonymouse p))%nat ->
  parse_words fuel p words idx ps = Ok (Some (insert_all (zip (drop idx (anonymouse p)) words) ps)).
Proof.
  induction words as [|w words IH]; intros fuel idx ps Hd Hf Hl.
  { destruct fuel; cbn; by destruct (drop idx (anonymouse p)). }
  apply Forall_cons in Hd as [Hw Hd]. destruct fuel as [|fuel]; [cbn in Hf; lia|]. cbn [length] in Hl, Hf.
  destruct (lookup_lt_is_Some_2 (anonymouse p) idx) as [name Hn]; [lia|]. cbn [parse_words].
  rewrite (parse_word_plain _ _ _ _ _ name) by done. rewrite IH by (done || lia). by rewrite (drop_S _ _ _ Hn).
Qed.
Lemma parse_rendered_words p options words : forall fuel ps, Forall (option_ok p) options ->
  Forall (fun w => starts_with_dash w = false) words -> (length words <= length (anonymouse p))%nat ->
  (length options + length words <= fuel)%nat ->
  parse_words fuel p (map render options ++ words) 0 ps = Ok (Some (insert_all (options ++ zip (anonymouse p) words) ps)).
Proof.
  induction options as [|o options IH]; intros fuel ps Ho Hw Hl Hf.
  - cbn [map app]. rewrite parse_plain_words by done. by rewrite drop_0.
  - apply Forall_cons in Ho as [Ho Hos]. destruct fuel as [|fuel]; [cbn in Hf; lia|].
    cbn [map app parse_words]. rewrite parse_word_option by done. cbn [length] in Hf. rewrite IH by (done || lia). done.
Qed.
Lemma insert_all_ok p l : forall ps, Forall (fun q => is_Some (lookup_arg p (fst q))) l -> params_ok p ps -> params_ok p (insert_all l ps).
Proof.
  induction l as [|[n v] l IH]; intros ps Hl Hp; [done|]. apply Forall_cons in Hl as [Hn Hl].
  cbn [insert_all foldl fst snd]. apply IH; [done|]. by apply params_ok_insert.
Qed.


(** ** The put command's arguments (src/src/bdblob/commands/PutCommand.cpp) *)
Definition put_arguments (p : parser) : outcome parser :=
  obind (Register "force" false "f"%char "overwrite if file already exists" false (VBool false) p) (fun p =>
  obind (Register "source" true no_abbrev "local source" true (VString EmptyString) p) (fun p =>
  Register "target" false no_abbrev "remote target" true (VString EmptyString) p)).
Definition put_parser : parser := match put_arguments empty_parser with Ok p => p | _ => empty_parser end.
Lemma put_arguments_registered p p' : registered p -> put_arguments p = Ok p' -> registered p'.
Proof.
  intros Hp (p1 & E1 & (p2 & E2 & E3)%obind_inv)%obind_inv.
  eapply registered_step; [|exact E3]. eapply registered_step; [|exact E2]. by eapply registered_step.
Qed.
Lemma put_parser_registered : registered put_parser.
Proof. apply (put_arguments_registered empty_parser); [constructor|vm_compute; reflexivity]. Qed.
Example put_force : exists p, Parse ["put"; "-f"; "a.txt"; "/b"] put_parser = Ok (true, p) /\
  obind (argument_at "force" p) AsBoolean = Ok true /\ obind (argument_at "target" p) AsString = Ok "/b"%string.
Proof. eexists. split; [vm_compute; reflexivity|]. split; vm_compute; reflexivity. Qed.
Example put_without_source : exists p, Parse ["put"; "--force"] put_parser = Ok (false, p).
Proof. eexists. vm_compute. reflexivity. Qed.

Lemma parse_keeps_types_witness : exists ok p', Parse ["put"; "--source=1"; "-x"] put_parser = Ok (ok, p') /\
  forall name a', lookup_arg p' name = Some a' -> exists a, lookup_arg put_parser name = Some a /\ type a' = type a /\
    match type a' with
    | STRING => exists s, AsString a' = Ok s
    | INTEGER => exists n, AsInt a' = Ok n
    | BOOLEAN => exists b, AsBoolean a' = Ok b
    end.
Proof. exact (parse_keeps_types put_parser ["put"; "--source=1"; "-x"]%string put_parser_registered). Defined.
