(* ===== verification/Commands.v ===== *)
(** * The commands of bdblob (src/src/bdblob: Command.cpp, commands/, Main.cpp)

    Each command reads its arguments, calls the file API and turns its errors into a
    text and an exit code.  A command's result is the code and what it prints.  The
    main program is modelled as it is built with LOCAL_BLOB, over the file-system
    provider. *)

From Stdlib Require Import ZArith Lia Bool Ascii String.
From stdpp Require Import base list gmap strings pretty.
From S2P Require Import Prelude StdMap Json Streams Metadata Stdio BlobMap BlobStore Paths Folder BlobApi HostHandler Arguments.
Set Default Goal Selector "!".
Local Open Scope Z_scope.
Local Open Scope drive_scope.
Import BlobApi.

#[export] Instance BlobError_eq_dec : EqDecision BlobError.
Proof. solve_decision. Defined.
#[export] Instance EntryType_eq_dec : EqDecision EntryType.
Proof. solve_decision. Defined.

Definition error_code (e : BlobError) : Z :=
  match e with
  | SUCCESS => 0 | GENERIC_FAILURE => 1 | NOT_FOUND => 2 | IO_ERROR => 3 | ALREADY_EXIST => 4 | NOT_SUPPORTED => 5
  | FOLDER_NOT_EMPTY => 6 | INVALID_NAME => 7 | REJECT_DELETE_FOLDER => 8
  end.

(** ** Exit codes and printed text *)
Record result := mkresult { code : Z; out : string; err : string }.
Definition newline : string := String "010" EmptyString.
Definition success : result := mkresult 0 EmptyString EmptyString.
Definition failure (e : BlobError) : result := mkresult (error_code e) EmptyString (BlobErrorToString e +:+ newline).
(** [if (rtn != 0) return rtn;] *)
Definition and_then {W} (m k : M W result) : M W result :=
  r <- m ;;
  if code r =? 0 then r2 <- k ;; ret (mkresult (code r2) (out r +:+ out r2) (err r +:+ err r2)) else ret r.
(** a bounded field of printf *)
Fixpoint spaces (n : nat) : string := match n with O => EmptyString | S n => String " " (spaces n) end.
Fixpoint zeros (n : nat) : string := match n with O => EmptyString | S n => String "0" (zeros n) end.
Definition pad_left (w : nat) (s : string) : string := spaces (w - String.length s) +:+ s.
Definition pad_right (w : nat) (s : string) : string := s +:+ spaces (w - String.length s).
Definition two_digits (n : Z) : string := let s := pretty n in zeros (2 - String.length s) +:+ s.
(** what [printf("%s")] shows of a buffer *)
Definition c_text (bytes : list Z) : string := string_of_list_ascii (c_str (string_of_bytes bytes)).
Definition ends_with_slash (s : string) : bool :=
  match String.get (String.length s - 1) s with Some c => Ascii.eqb c "/" | None => false end.
(** [target += (target ends with / ? "" : "/") + BaseName(source)] *)
Definition in_folder (target source : string) : string :=
  target +:+ (if ends_with_slash target then EmptyString else "/") +:+ BaseName source.

(** ** Arguments *)
Definition string_arg (name : string) (p : parser) : outcome string := obind (argument_at name p) AsString.
Definition bool_arg (name : string) (p : parser) : outcome bool := obind (argument_at name p) AsBoolean.
Definition flag (name : string) (abbrev : ascii) (desc : string) (p : parser) : outcome parser :=
  Register name false abbrev desc false (VBool false) p.
Definition text (name : string) (req : bool) (desc default : string) (p : parser) : outcome parser :=
  Register name req no_abbrev desc true (VString default) p.

Inductive command := CatCommand | GetCommand | ListCommand | MkdirCommand | MvCommand | PutCommand | RmCommand.
Definition Name (c : command) : string :=
  match c with
  | CatCommand => "cat" | GetCommand => "get" | ListCommand => "ls" | MkdirCommand => "mkdir" | MvCommand => "mv"
  | PutCommand => "put" | RmCommand => "rm"
  end.
(** what the constructors register *)
Definition cat_parser : outcome parser := text "path" true "path" "" empty_parser.
Definition get_parser : outcome parser :=
  obind (flag "force" "f" "overwrite existing local files" empty_parser) (fun p =>
  obind (text "source" true "remote source" "" p) (text "target" false "local target" "")).
Definition list_parser : outcome parser :=
  obind (flag "list" "l" "show the result in detail list" empty_parser) (fun p =>
  obind (flag "all" "a" "show hidden files" p) (text "path" false "path" "/")).
Definition mkdir_parser : outcome parser :=
  obind (flag "recursive" "p" "create directories recursively" empty_parser) (text "target" true "target" "").
Definition mv_parser : outcome parser :=
  obind (flag "force" "f" "overwrite existing file" empty_parser) (fun p =>
  obind (text "source" true "source path" "" p) (text "destination" true "destination path" "")).
Definition put_parser : outcome parser :=
  obind (flag "force" "f" "overwrite if file already exists" empty_parser) (fun p =>
  obind (text "source" true "local source" "" p) (text "target" false "remote target" "")).
Definition rm_parser : outcome parser :=
  obind (flag "recursive" "r" "delete files or directories" empty_parser) (fun p =>
  obind (flag "force" "f" "delete even if directory is not empty" p) (text "target" true "target" "")).
Definition parser_of (c : command) : outcome parser :=
  match c with
  | CatCommand => cat_parser | GetCommand => get_parser | ListCommand => list_parser | MkdirCommand => mkdir_parser
  | MvCommand => mv_parser | PutCommand => put_parser | RmCommand => rm_parser
  end.

(** ArgumentParser::PrintUsage *)
Definition usage_word (p : parser) (name : string) : string :=
  match SMap.find name (args p) with
  | Some a => " " +:+ (if required a then "<" else "[") +:+ Arguments.description a +:+ (if required a then ">" else "]")
  | None => EmptyString
  end.
Definition usage_option (name : string) (a : argument) : string :=
  "  " +:+ (if Ascii.eqb (abbrev a) no_abbrev then "    " else String "-" (String (abbrev a) ", ")) +:+
  "--" +:+ pad_right 20 name +:+ (if required a then "(Required)" else "") +:+ Arguments.description a +:+ newline.
Fixpoint concat_strings (l : list string) : string := match l with [] => EmptyString | s :: l => s +:+ concat_strings l end.
Definition PrintUsage (prefix : string) (p : parser) : string :=
  let options := List.filter (fun q => negb (isAnonymouse (snd q))) (args p) in
  "Usage: " +:+ prefix +:+ " [options]" +:+ concat_strings (map (usage_word p) (anonymouse p)) +:+ newline +:+
  (match options with [] => EmptyString | _ => newline +:+ "Options:" +:+ newline end) +:+
  concat_strings (map (fun q => usage_option (fst q) (snd q)) options).
(** Command::PrintUsage *)
Definition command_usage (prefix : string) (c : command) (p : parser) : string :=
  PrintUsage (if empty_str prefix then Name c else prefix +:+ " " +:+ Name c) p.

(** ** The commands over the file API of any provider *)
Section Commands.
Context {P B : Type} `{BlobProvider P B} (provider : P).
(** [fuel] for the folders of the API, [steps] for the loops of the commands *)
Context (fuel steps : nat) (localtime : Z -> Z * Z * Z * Z * Z * Z).
Abbreviation state := (BlobApi.t * world)%type.

Definition Error : M state BlobError := gets (fun s => error (fst s)).
Definition api_failure : M state result := e <- Error ;; ret (failure e).
(** [stat]: whether there is such a path, and whether it is a directory *)
Definition stat (path : string) : M state (option bool) :=
  gets (fun s => if bool_decide (path ∈ dirs (fs (snd s))) then Some true
                 else if bool_decide (is_Some (files (fs (snd s)) !! path)) then Some false else None).
Definition is_folder (e : option Entry.t) : bool :=
  match e with Some e => bool_decide (Entry.type e = FOLDER) | None => false end.

Fixpoint cat_loop (n : nat) (path : string) (offset : Z) (shown : string) : M state string :=
  match n with
  | O => nofuel
  | S n =>
      c <- get_config ;;
      pat! (ok, bytes, size) <- Get_range provider fuel path offset (BlobConfig.blockSize c) ;;
      if (ok : bool) && (0 <? size) then cat_loop n path (u64 (offset + size)) (shown +:+ c_text (take (Z.to_nat size) bytes))
      else ret shown
  end.
Definition Cat (p : parser) : M state result :=
  path <- lift (string_arg "path" p) ;;
  shown <- cat_loop steps path 0 EmptyString ;;
  e <- Error ;;
  if bool_decide (e = SUCCESS) then ret (mkresult 0 shown EmptyString)
  else ret (mkresult (error_code e) shown (BlobErrorToString e +:+ newline)).

Definition Get (p : parser) : M state result :=
  force <- lift (bool_arg "force" p) ;;
  source <- lift (string_arg "source" p) ;;
  target <- lift (string_arg "target" p) ;;
  info <- Info provider fuel source ;;
  match info with
  | None => api_failure
  | Some info =>
      if bool_decide (Entry.type info = FOLDER) then ret (failure NOT_SUPPORTED) else
      let target := if empty_str target then "."%string else target in
      props <- stat target ;;
      let target := match props with Some true => in_folder target source | _ => target end in
      ok <- BlobApi.Get provider fuel source target force ;;
      if ok : bool then ret success else api_failure
  end.

(** the date of a detailed line *)
Definition date_text (t : Z) : string :=
  let '(year, month, day, hour, minute, second) := localtime t in
  pretty (year + 1900) +:+ "-" +:+ two_digits (month + 1) +:+ "-" +:+ two_digits day +:+ " " +:+
  two_digits hour +:+ ":" +:+ two_digits minute +:+ ":" +:+ two_digits second +:+ " ".
Definition list_line (showList : bool) (name : string) (e : Entry.t) : string :=
  if negb showList then name +:+ String "009" EmptyString
  else (if bool_decide (Entry.type e = FOLDER) then "D " else "F ") +:+
       pad_left 20 (pretty (Entry.size e)) +:+ " " +:+ date_text (Entry.modifyTime e) +:+ name +:+ newline.
Definition hidden (name : string) : bool := match name with String "." _ => true | _ => false end.
Definition List_ (p : parser) : M state result :=
  showList <- lift (bool_arg "list" p) ;;
  showAll <- lift (bool_arg "all" p) ;;
  path <- lift (string_arg "path" p) ;;
  parts <- lift (SplitPath path) ;;
  let wildcard := match parts with [] => false | _ => has_wildcard (last_part parts) end in
  let target := if wildcard then JoinPaths_range parts 0 (length parts - 1) else path in
  entries <- BlobApi.List_ provider fuel target ;;
  e <- Error ;;
  if bool_decide (e <> SUCCESS) then ret (failure e) else
  let shown := List.filter (fun q => (negb (hidden (fst q)) || showAll) &&
                                     (negb wildcard || PatternMatch (last_part parts) (fst q))) entries in
  ret (mkresult 0 (concat_strings (map (fun q => list_line showList (fst q) (snd q)) shown) +:+
                   (match shown with [] => EmptyString | _ => if showList then EmptyString else newline end)) EmptyString).

(** the loop of -p: the error that stops it *)
Fixpoint mkdir_parts (path : string) (parts : list string) : M state (option BlobError) :=
  match parts with
  | [] => ret None
  | part :: parts =>
      let path := path +:+ "/" +:+ part in
      ok <- BlobApi.Mkdir provider fuel path ;;
      e <- Error ;;
      if negb ok && bool_decide (e <> ALREADY_EXIST) then ret (Some e) else mkdir_parts path parts
  end.
Definition Mkdir (p : parser) : M state result :=
  recursive <- lift (bool_arg "recursive" p) ;;
  target <- lift (string_arg "target" p) ;;
  ok <- BlobApi.Mkdir provider fuel target ;;
  if ok : bool then ret success else
  e <- Error ;;
  if bool_decide (e <> NOT_FOUND) || negb recursive then ret (failure e) else
  parts <- lift (SplitPath target) ;;
  match parts with
  | [] => ret (failure ALREADY_EXIST)
  | _ =>
      stopped <- mkdir_parts EmptyString parts ;;
      match stopped with Some e => ret (failure e) | None => ret success end
  end.

Definition Mv (p : parser) : M state result :=
  force <- lift (bool_arg "force" p) ;;
  source <- lift (string_arg "source" p) ;;
  target <- lift (string_arg "destination" p) ;;
  ok <- Move provider fuel source target force ;;
  if ok : bool then ret success else api_failure.

Definition Put (p : parser) : M state result :=
  force <- lift (bool_arg "force" p) ;;
  source <- lift (string_arg "source" p) ;;
  target <- lift (string_arg "target" p) ;;
  props <- stat source ;;
  match props with
  | None => ret (failure NOT_FOUND)
  | Some true => ret (failure NOT_SUPPORTED)
  | Some false =>
      let target := if empty_str target then "/"%string else target in
      info <- Info provider fuel target ;;
      let target := if is_folder info then in_folder target source else target in
      ok <- BlobApi.Put provider fuel target source force ;;
      if ok : bool then ret success else api_failure
  end.

(** RmCommand::Delete; [depth] bounds the folders inside folders *)
Fixpoint rm_delete (depth : nat) (recursive force : bool) (path : string) : M state result :=
  match depth with
  | O => nofuel
  | S depth =>
      info <- Info provider fuel path ;;
      match info with
      | None => fail NullDeref
      | Some info =>
          if bool_decide (Entry.type info = FOLDER) && negb recursive then ret (failure REJECT_DELETE_FOLDER) else
          ok <- BlobApi.Delete provider fuel path ;;
          if ok : bool then ret success else
          e <- Error ;;
          if bool_decide (e <> FOLDER_NOT_EMPTY) || negb force then ret (failure e) else
          children <- BlobApi.List_ provider fuel path ;;
          (fix delete_children (l : list (string * Entry.t)) : M state result :=
             match l with
             | [] => ok <- BlobApi.Delete provider fuel path ;; if ok : bool then ret success else api_failure
             | child :: l =>
                 if String.eqb (fst child) "." || String.eqb (fst child) ".." then delete_children l
                 else and_then (rm_delete depth recursive force (path +:+ "/" +:+ fst child)) (delete_children l)
             end) children
      end
  end.
Fixpoint rm_matched (recursive force : bool) (parentPath : string) (names : list string) : M state result :=
  match names with
  | [] => ret success
  | name :: names =>
      and_then (rm_delete steps recursive force (parentPath +:+ "/" +:+ name)) (rm_matched recursive force parentPath names)
  end.
Definition Rm (p : parser) : M state result :=
  recursive <- lift (bool_arg "recursive" p) ;;
  force <- lift (bool_arg "force" p) ;;
  target <- lift (string_arg "target" p) ;;
  parts <- lift (SplitPath target) ;;
  parent <- GetParentFolder provider fuel parts ;;
  match parent with
  | None => ret success
  | Some parent =>
      let parentPath := match parts with [] => EmptyString | _ => JoinPaths_range parts 0 (length parts - 1) end in
      let parentPath := if String.eqb parentPath "/" then EmptyString else parentPath in
      f <- deref parent ;;
      r <- rm_matched recursive force parentPath (Folder.Find (BaseName target) f) ;;
      release provider fuel parent ;;;
      ret r
  end.

(** Command::Execute *)
Definition execute (c : command) (p : parser) : M state result :=
  match c with
  | CatCommand => Cat p | GetCommand => Get p | ListCommand => List_ p | MkdirCommand => Mkdir p | MvCommand => Mv p
  | PutCommand => Put p | RmCommand => Rm p
  end.
Definition Execute (prefix : string) (c : command) (argv : list string) : M state result :=
  p <- lift (parser_of c) ;;
  pat! (ok, p) <- lift (Parse argv p) ;;
  if negb ok then ret (mkresult (-1) (command_usage prefix c p) ("Invalid arguments." +:+ newline +:+ newline))
  else execute c p.
End Commands.

(** ** Main.cpp *)
Section Main.
Context (reader : list Z -> bool * json) (fuel steps : nat) (localtime : Z -> Z * Z * Z * Z * Z * Z).

Fixpoint as_strings (l : list json) : outcome (list string) :=
  match l with
  | [] => Ok []
  | v :: l => obind (asString v) (fun s => obind (as_strings l) (fun ss => Ok (s :: ss)))
  end.
(** the nodes that the configuration file names *)
Definition ReadConfig (s : filesystem) : outcome (list string) :=
  match Fs.fopen_existing "/etc/drive/bdblob.conf" s with
  | None => Ok []
  | Some f =>
      match Fs.content f s with
      | [] => Ok []
      | data =>
          let (ok, json) := reader data in
          if negb ok || negb (isObject json) then Ok [] else
          obind (index json "kademlia") (fun k => if isArray k then as_strings (elements k) else Ok [])
      end
  end.
Definition kademlia_nodes (s : filesystem) : outcome (list string) :=
  obind (ReadConfig s) (fun l => Ok (match l with [] => ["http://18.220.231.21:7800"%string] | _ => l end)).

Definition main_usage (prefix : string) : string :=
  let tabs := String "009" (String "009" (String "009" EmptyString)) in
  let action name desc := "  " +:+ name +:+ tabs +:+ desc +:+ newline in
  "Usage: " +:+ prefix +:+ " <action>" +:+ newline +:+ newline +:+ "Actions:" +:+ newline +:+
  action "cat" "Show file content." +:+ action "get" "Download file." +:+ action "ls" "List files or directories." +:+
  action "mkdir" "Create directory." +:+ action "mv" "Move file or directory." +:+
  action "rm" "Delete files or directories." +:+ action "put" "Upload file.".

Definition commands : list command := [CatCommand; GetCommand; ListCommand; MkdirCommand; MvCommand; PutCommand; RmCommand].
(** what [main] does on a new BlobApi *)
Definition on_api {A} (m : M (BlobApi.t * world) A) : M world A := fun w =>
  obind (m (BlobApi.init, w)) (fun '(r, (_, w)) => Ok (r, w)).
(** the results of [InitializeBlobMap] and [Initialize] are not looked at *)
Definition main (argv : list string) : M world result :=
  match argv with
  | prefix :: action :: _ =>
      w <- get ;;
      lift (kademlia_nodes (fs w)) ;;;
      provider <- FileBlobProvider.FileBlobProvider (Some "storage"%string) ;;
      InitializeBlobMap "blob.cache" ;;;
      BlobConfigOps.Initialize ;;;
      rootId <- BlobConfigOps.RootId ;;
      r <- on_api (BlobApi.Initialize provider fuel rootId ;;;
                   match List.find (fun c => String.eqb (Name c) action) commands with
                   | Some c => Execute provider fuel steps localtime prefix c (tail argv)
                   | None => ret (mkresult (-1) EmptyString EmptyString)
                   end) ;;
      ret (if code r =? -1 then mkresult (-1) (out r +:+ main_usage prefix) (err r) else r)
  | _ => ret (mkresult (-1) (main_usage (nth 0 argv EmptyString)) EmptyString)
  end.
End Main.
