(* ===== verification/CommandFacts.v ===== *)
(** * What the commands of bdblob promise

    The command line down to the stored bytes: a file that [put] stores is printed by
    [cat], fetched by [get] and removed by [rm]. *)

From Stdlib Require Import ZArith Lia Bool Ascii String.
From stdpp Require Import base list gmap strings pretty.
From S2P Require Import Prelude StdMap Json Streams Metadata Stdio BlobMap BlobStore FileStore Paths Folder FolderFacts.
From S2P Require Import BlobApi BlobApiFacts BlobApiErrors BlobApiLife Arguments Commands.
Set Default Goal Selector "!".
Local Open Scope Z_scope.
Local Open Scope drive_scope.
Import Folder BlobApi.

(** ** Command lines of plain words *)
Definition parser_for (c : command) : parser := match parser_of c with Ok p => p | _ => empty_parser end.
Lemma parser_of_ok c : parser_of c = Ok (parser_for c).
Proof. by destruct c. Qed.

Lemma Parse_plain program words p : Forall (fun w => starts_with_dash w = false) words ->
  (length words <= length (anonymouse p))%nat ->
  Parse (program :: words) p = obind (apply_params (insert_all (zip (anonymouse p) words) []) p)
    (fun '(ok, p) => Ok (if ok : bool then (ValidateRequired p, p) else (false, p))).
Proof.
  intros Hw Hl. unfold Parse, parse_params. cbn [tail]. rewrite parse_plain_words by (done || cbn; lia). done.
Qed.

Lemma Execute_parsed {P B} `{BlobProvider P B} (p : P) fuel steps localtime prefix c words q s :
  Parse words (parser_for c) = Ok (true, q) ->
  Execute p fuel steps localtime prefix c words s = execute p fuel steps localtime c q s.
Proof.
  intros E. unfold Execute. rewrite parser_of_ok. unfold bind at 1, lift. cbn [obind].
  unfold bind at 1. rewrite E. done.
Qed.

(** a command with the flag [force] off and two words *)
Lemma put_arguments_given local path : starts_with_dash local = false -> starts_with_dash path = false ->
  exists q, Parse ["put"%string; local; path] (parser_for PutCommand) = Ok (true, q) /\
    bool_arg "force" q = Ok false /\ string_arg "source" q = Ok local /\ string_arg "target" q = Ok path.
Proof.
  intros Hl Hp. eexists. rewrite Parse_plain by (repeat constructor; done). split; [reflexivity|]. by repeat split.
Qed.
Lemma get_arguments_given path out : starts_with_dash path = false -> starts_with_dash out = false ->
  exists q, Parse ["get"%string; path; out] (parser_for GetCommand) = Ok (true, q) /\
    bool_arg "force" q = Ok false /\ string_arg "source" q = Ok path /\ string_arg "target" q = Ok out.
Proof.
  intros Hl Hp. eexists. rewrite Parse_plain by (repeat constructor; done). split; [reflexivity|]. by repeat split.
Qed.
Lemma cat_arguments_given path : starts_with_dash path = false ->
  exists q, Parse ["cat"%string; path] (parser_for CatCommand) = Ok (true, q) /\ string_arg "path" q = Ok path.
Proof. intros Hl. eexists. rewrite Parse_plain by (repeat constructor; done). by split. Qed.
Lemma rm_arguments_given path : starts_with_dash path = false ->
  exists q, Parse ["rm"%string; path] (parser_for RmCommand) = Ok (true, q) /\
    bool_arg "recursive" q = Ok false /\ bool_arg "force" q = Ok false /\ string_arg "target" q = Ok path.
Proof. intros Hl. eexists. rewrite Parse_plain by (repeat constructor; done). by repeat split. Qed.

Section Files.
Context {P B : Type} `{BlobProviderLaws P B} (p : P) (fuel steps : nat) (localtime : Z -> Z * Z * Z * Z * Z * Z).

Lemma ready_error e a w f props n : ready p a w f props n -> ready p (with_error e a) w f props n.
Proof using. by intros []. Qed.

(** one command's arguments *)
Lemma lift_bind {W A C} (o : outcome A) (x : A) (k : A -> M W C) s : o = Ok x -> bind (lift o) k s = k x s.
Proof using. by intros ->. Qed.

(** ** put *)
Lemma put_command q local path nm a w f s' :
  bool_arg "force" q = Ok false -> string_arg "source" q = Ok local -> string_arg "target" q = Ok path ->
  root a = Some f -> SplitPath path = Ok [nm] -> SMap.find nm (entries f) = None ->
  local ∉ dirs (fs w) -> is_Some (files (fs w) !! local) ->
  BlobApi.Put p fuel path local false (with_error NOT_FOUND a, w) = Ok (true, s') ->
  Commands.Put p fuel q (a, w) = Ok (success, s').
Proof using.
  intros E1 E2 E3 Hr Hs Hn Hd Hf E. unfold Commands.Put. rewrite !(lift_bind _ _ _ _ E1), !(lift_bind _ _ _ _ E2), !(lift_bind _ _ _ _ E3).
  unfold stat at 1. unfold bind at 1, gets at 1. cbn [obind snd]. rewrite bool_decide_eq_false_2, bool_decide_eq_true_2 by done.
  assert (empty_str path = false) as -> by (destruct path; [done|done]).
  rewrite (bind_ok _ _ _ _ _ (Info_missing p fuel path nm a w f Hr Hs Hn)). cbn [is_folder].
  by rewrite (bind_ok _ _ _ _ _ E).
Qed.

(** ** get *)
Lemma get_command q path out nm a w f e s' :
  bool_arg "force" q = Ok false -> string_arg "source" q = Ok path -> string_arg "target" q = Ok out ->
  root a = Some f -> SplitPath path = Ok [nm] -> SMap.find nm (entries f) = Some e -> Entry.type e = FILE ->
  out <> EmptyString -> out ∉ dirs (fs w) ->
  BlobApi.Get p fuel path out false (with_error SUCCESS a, w) = Ok (true, s') ->
  Commands.Get p fuel q (a, w) = Ok (success, s').
Proof using.
  intros E1 E2 E3 Hr Hs Hn Ht Ho Hd E. unfold Commands.Get. rewrite !(lift_bind _ _ _ _ E1), !(lift_bind _ _ _ _ E2), !(lift_bind _ _ _ _ E3).
  rewrite (bind_ok _ _ _ _ _ (Info_root p fuel path nm a w f e Hr Hs Hn)). rewrite Ht. cbn [bool_decide].
  rewrite bool_decide_eq_false_2 by done. assert (empty_str out = false) as -> by (by destruct out).
  unfold stat at 1. unfold bind at 1, gets at 1. cbn [obind snd]. rewrite bool_decide_eq_false_2 by done.
  replace (match (if bool_decide (is_Some (files (fs w) !! out)) then Some false else None) with Some true => in_folder out path | _ => out end)
    with out by by destruct (bool_decide _).
  by rewrite (bind_ok _ _ _ _ _ E).
Qed.

Lemma get_missing q path out nm a w f :
  bool_arg "force" q = Ok false -> string_arg "source" q = Ok path -> string_arg "target" q = Ok out ->
  root a = Some f -> SplitPath path = Ok [nm] -> SMap.find nm (entries f) = None ->
  Commands.Get p fuel q (a, w) = Ok (failure NOT_FOUND, fails NOT_FOUND a w).
Proof using.
  intros E1 E2 E3 Hr Hs Hn. unfold Commands.Get. rewrite !(lift_bind _ _ _ _ E1), !(lift_bind _ _ _ _ E2), !(lift_bind _ _ _ _ E3).
  by rewrite (bind_ok _ _ _ _ _ (Info_missing p fuel path nm a w f Hr Hs Hn)).
Qed.

(** ** cat *)
Lemma Get_range_root path nm a w f e data r off n :
  bp_inv p w -> root a = Some f -> SplitPath path = Ok [nm] ->
  SMap.find nm (entries f) = Some e -> Entry.type e = FILE -> Entry.size e = zlen data ->
  bp_stored p w (Entry.id e) (data ++ r) -> 0 < n -> 0 <= off <= zlen data ->
  Get_range p fuel path off n (a, w) =
    Ok ((true, read_at data (Z.to_nat off) (Z.to_nat n), Z.min n (zlen data - off)), (with_error SUCCESS a, w)).
Proof using.
  intros Hi Hr Hsplit He Hty Hsz Hst Hn Ho. unfold Get_range. rewrite (bind_ok _ _ (a, w) tt (with_error SUCCESS a, w) eq_refl).
  destruct (Z.eqb_spec n 0); [lia|]. rewrite (bind_ok _ _ _ _ _ (Info_root p fuel path nm (with_error SUCCESS a) w f e Hr Hsplit He)).
  change (with_error SUCCESS (with_error SUCCESS a)) with (with_error SUCCESS a). rewrite Hty, Hsz.
  destruct (bp_OpenBlob p w (Entry.id e) _ Hi Hst) as (b & E1 & Hid & Hbsz & Hop).
  rewrite (bind_ok _ _ _ _ _ (liftW_ok _ (with_error SUCCESS a) _ _ _ E1)). rewrite <- Hid in Hst.
  unfold zlen in *. destruct (Z.leb_spec (Z.of_nat (length data)) off) as [Hle|Hlt].
  - unfold ret, read_at. rewrite drop_ge, take_nil by lia. do 3 f_equal. lia.
  - assert (E2 := bp_Read p w b (data ++ r) off (Z.min n (Z.of_nat (length data) - off)) Hi Hop Hst Hbsz ltac:(lia) ltac:(lia)).
    rewrite (bind_ok _ _ _ _ _ (liftW_ok _ (with_error SUCCESS a) _ _ _ E2)).
    assert (read_at (data ++ r) (Z.to_nat off) (Z.to_nat (Z.min n (Z.of_nat (length data) - off)))
      = read_at data (Z.to_nat off) (Z.to_nat n)) as ->.
    { unfold read_at. rewrite drop_app_le, take_app_le by (rewrite ?length_drop; lia).
      destruct (decide (n <= Z.of_nat (length data) - off)); [f_equal; lia|]. rewrite !take_ge by (rewrite length_drop; lia). done. }
    rewrite length_read_at.
    destruct (Z.ltb_spec (Z.of_nat (Nat.min (Z.to_nat n) (length data - Z.to_nat off))) (Z.min n (Z.of_nat (length data) - off))); [lia|].
    unfold ret. do 4 f_equal. lia.
Qed.

Lemma c_text_ok l : Forall (fun b => 0 < b < 256) l -> c_text l = string_of_bytes l.
Proof using.
  intros Hl. unfold c_text. rewrite <- (string_of_list_ascii_of_string (string_of_bytes l)) at 2. f_equal.
  unfold string_of_bytes. rewrite list_ascii_of_string_of_list_ascii.
  induction Hl as [|b l Hb _ IH]; [done|]. cbn [map string_of_list_ascii c_str].
  destruct (Ascii.eqb_spec (byte_ascii b) "000") as [E|_]; [|by rewrite IH].
  exfalso. apply (f_equal ascii_byte) in E. rewrite ascii_byte_ascii in E by (unfold is_byte; lia). change (ascii_byte "000") with 0 in E. lia.
Qed.
Lemma cat_loop_ok path nm a w f e data r : bp_inv p w -> root a = Some f -> SplitPath path = Ok [nm] ->
  SMap.find nm (entries f) = Some e -> Entry.type e = FILE -> Entry.size e = zlen data -> zlen data < 2 ^ 63 ->
  bp_stored p w (Entry.id e) (data ++ r) -> 0 < BlobConfig.blockSize (config w) -> Forall (fun b => 0 < b < 256) data ->
  forall n er off, (off <= length data)%nat -> (length data - off < n)%nat ->
  cat_loop p fuel n path (Z.of_nat off) (string_of_bytes (take off data)) (with_error er a, w)
    = Ok (string_of_bytes data, (with_error SUCCESS a, w)).
Proof using.
  intros Hi Hr Hsplit He Hty Hsz Hmax Hst Hbs Hd n. induction n as [|n IH]; intros er off Ho Hn; [lia|].
  cbn [cat_loop]. unfold get_config. rewrite (bind_ok _ _ _ _ _ (gets_ok _ (with_error er a, w))). cbn [snd].
  pose proof (Get_range_root path nm (with_error er a) w f e data r (Z.of_nat off) (BlobConfig.blockSize (config w))
    Hi Hr Hsplit He Hty Hsz Hst Hbs ltac:(unfold zlen; lia)) as E.
  rewrite (bind_ok _ _ _ _ _ E). rewrite Nat2Z.id. change (with_error SUCCESS (with_error er a)) with (with_error SUCCESS a).
  unfold zlen in *. set (bs := BlobConfig.blockSize (config w)) in *. cbn [andb].
  destruct (Z.ltb_spec 0 (Z.min bs (Z.of_nat (length data) - Z.of_nat off))) as [Hpos|Hz].
  - set (k := Z.min bs (Z.of_nat (length data) - Z.of_nat off)) in *.
    assert (take (Z.to_nat k) (read_at data off (Z.to_nat bs)) = read_at data off (Z.to_nat k)) as ->.
    { unfold read_at. rewrite take_take. f_equal. lia. }
    rewrite c_text_ok by (unfold read_at; apply Forall_take, Forall_drop, Hd).
    rewrite <- string_of_bytes_app. rewrite u64_small by (unfold in_u64; lia).
    replace (Z.of_nat off + k) with (Z.of_nat (off + Z.to_nat k)) by lia. unfold read_at. rewrite take_take_drop.
    apply IH; lia.
  - unfold ret. rewrite take_ge by lia. done.
Qed.
Lemma cat_command q path nm a w f e data r :
  string_arg "path" q = Ok path -> bp_inv p w -> root a = Some f -> SplitPath path = Ok [nm] ->
  SMap.find nm (entries f) = Some e -> Entry.type e = FILE -> Entry.size e = zlen data -> zlen data < 2 ^ 63 ->
  bp_stored p w (Entry.id e) (data ++ r) -> 0 < BlobConfig.blockSize (config w) -> Forall (fun b => 0 < b < 256) data ->
  (length data < steps)%nat ->
  Cat p fuel steps q (a, w) = Ok (mkresult 0 (string_of_bytes data) EmptyString, (with_error SUCCESS a, w)).
Proof using.
  intros E1 Hi Hr Hsplit He Hty Hsz Hmax Hst Hbs Hd Hn. unfold Cat. rewrite (lift_bind _ _ _ _ E1).
  pose proof (cat_loop_ok path nm a w f e data r Hi Hr Hsplit He Hty Hsz Hmax Hst Hbs Hd steps (error a) 0 ltac:(lia) ltac:(lia)) as E.
  replace (with_error (error a) a) with a in E by by destruct a.
  change (Z.of_nat 0) with 0 in E. rewrite take_0 in E. change (string_of_bytes []) with EmptyString in E.
  rewrite (bind_ok _ _ _ _ _ E). unfold Error. rewrite (bind_ok _ _ _ _ _ (gets_ok _ _)). cbn [fst with_error error]. done.
Qed.

(** ** rm *)
Lemma matchPattern_literal (nm : list ascii) : forallb (fun c => negb (Ascii.eqb c "*" || Ascii.eqb c "?")) nm = true ->
  forall h, matchPattern nm h = true <-> h = nm.
Proof using.
  induction nm as [|c nm IH]; intros Hw h; [by destruct h|]. cbn [forallb] in Hw. apply andb_true_iff in Hw as [Hc Hw].
  cbn [matchPattern]. destruct (Ascii.eqb c "*"), (Ascii.eqb c "?"); try done. destruct h as [|d h]; [done|].
  rewrite andb_true_iff, (IH Hw), Ascii.eqb_eq. split; [by intros [-> ->]|by intros [= -> ->]].
Qed.
Lemma c_str_no_nul s : no_nul s -> c_str s = list_ascii_of_string s.
Proof using.
  unfold no_nul. induction s as [|c s IH]; [done|]. cbn [c_str str_mem list_ascii_of_string]. intros Hn.
  apply orb_false_iff in Hn as [Hc Hn]. rewrite Hc. by rewrite IH.
Qed.
Lemma has_wildcard_forallb s : has_wildcard s = false ->
  forallb (fun c => negb (Ascii.eqb c "*" || Ascii.eqb c "?")) (list_ascii_of_string s) = true.
Proof using.
  induction s as [|c s IH]; [done|]. cbn [has_wildcard list_ascii_of_string forallb]. intros Hw.
  apply orb_false_iff in Hw as [Hw1 Hw2]. rewrite Hw1, IH by done. done.
Qed.
Lemma PatternMatch_literal nm k : has_wildcard nm = false -> no_nul nm -> no_nul k -> PatternMatch nm k = String.eqb k nm.
Proof using.
  intros Hw Hn Hk. unfold PatternMatch. rewrite !c_str_no_nul by done. apply eq_true_iff_eq.
  rewrite matchPattern_literal by by apply has_wildcard_forallb. rewrite String.eqb_eq. split; [|by intros ->].
  intros E. by rewrite <- (string_of_list_ascii_of_string k), E, string_of_list_ascii_of_string.
Qed.

Lemma find_sorted_keys {V} nm (es : list (string * V)) : SMap.sorted es ->
  List.filter (fun k => String.eqb k nm) (map fst es) = match SMap.find nm es with Some _ => [nm] | None => [] end.
Proof using.
  induction es as [|[k v] es IH]; [done|]. intros [Ha Hs]. cbn [map List.filter fst SMap.find].
  rewrite (String.eqb_sym nm k), (IH Hs). destruct (String.eqb_spec k nm) as [->|]; [|done].
  by rewrite (SMapFacts.above_find _ _ Ha).
Qed.
Lemma Find_name nm f e : SMap.sorted (entries f) -> SMap.find nm (entries f) = Some e -> child nm = true ->
  has_wildcard nm = false -> no_nul nm -> Forall (fun q => no_nul (fst q)) (entries f) -> Folder.Find nm f = [nm].
Proof using.
  intros Hs He Hc Hw Hn Hk. unfold Folder.Find.
  assert (forall ks, Forall no_nul ks ->
    List.filter (PatternMatch nm) (List.filter (fun k => negb (String.eqb k "." || String.eqb k "..")) ks)
      = List.filter (fun k => String.eqb k nm) ks) as ->.
  { induction 1 as [|k ks Hk1 _ IH]; [done|]. cbn [List.filter]. destruct (String.eqb_spec k nm) as [->|Hne].
    - unfold child in Hc. rewrite Hc. cbn [List.filter]. rewrite (PatternMatch_literal nm nm), String.eqb_refl by done. by rewrite IH.
    - destruct (negb _); [|done]. cbn [List.filter]. rewrite PatternMatch_literal by done.
      apply String.eqb_neq in Hne. by rewrite Hne. }
  - rewrite find_sorted_keys by done. by rewrite He.
  - apply Forall_map. exact Hk.
Qed.
Lemma rm_command q nm a w f e s' : let path := "/" +:+ nm in
  bool_arg "recursive" q = Ok false -> bool_arg "force" q = Ok false -> string_arg "target" q = Ok path ->
  root a = Some f -> SplitPath path = Ok [nm] -> BaseName path = nm -> SMap.find nm (entries f) = Some e -> Entry.type e = FILE ->
  SMap.sorted (entries f) -> child nm = true -> has_wildcard nm = false -> no_nul nm -> Forall (fun q => no_nul (fst q)) (entries f) ->
  (0 < steps)%nat ->
  BlobApi.Delete p fuel path (with_error SUCCESS a, w) = Ok (true, s') ->
  Rm p fuel steps q (a, w) = Ok (success, s').
Proof using.
  intros path E1 E2 E3 Hr Hs Hb He Ht Hso Hc Hw Hn Hk Hst E. unfold Rm.
  rewrite !(lift_bind _ _ _ _ E1), !(lift_bind _ _ _ _ E2), !(lift_bind _ _ _ _ E3), (lift_bind _ _ _ _ Hs).
  rewrite (bind_ok _ _ _ _ _ (GetParentFolder_one p fuel nm a w f Hr)), (bind_ok _ _ _ _ _ (deref_root a w f Hr)).
  rewrite Hb, (Find_name nm f e) by done. cbn [length Nat.sub JoinPaths_range Nat.min seq fold_left String.eqb rm_matched].
  destruct steps as [|n]; [lia|].
  assert (rm_delete p fuel (S n) false false path (a, w) = Ok (success, s')) as Ed.
  { cbn [rm_delete]. rewrite (bind_ok _ _ _ _ _ (Info_root p fuel path nm a w f e Hr Hs He)), Ht.
    rewrite bool_decide_eq_false_2 by done. cbn [andb]. by rewrite (bind_ok _ _ _ _ _ E). }
  unfold JoinPaths_range. cbn [length Nat.min Nat.sub seq fold_left String.eqb].
  unfold and_then. unfold bind at 1 2. change ("" +:+ "/" +:+ nm) with path. rewrite Ed. cbn [obind code success Z.eqb].
  destruct s' as [a' w']. done.
Qed.
End Files.

(** a local file that can be stored under a new name of the root folder *)
Record storable {P B} `{BlobProviderLaws P B} (p : P) (nm path local : string) (a : BlobApi.t) (w : world) (f : Folder.t)
    (props : Entry.t) (data : list Z) : Prop := {
  sto_ready : ready p a w f props (entry_room nm);
  sto_name : child nm = true /\ in_u32 (str_size nm) /\ SMap.find nm (entries f) = None /\ zlen (entries f) + 1 < 2 ^ 32;
  sto_path : has_wildcard path = false /\ SplitPath path = Ok [nm];
  sto_local : deny (fs w) local = false /\ files (fs w) !! local = Some data /\ (local ∉ dirs (fs w)) /\ ~ bp_private p w local;
  sto_size : 0 < BlobConfig.blockSize (config w) /\ zlen data + BlobConfig.blockSize (config w) < 2 ^ 63 /\
    blob_size_for (config w) (zlen data) <= limit (fs w) /\ blob_size_for (config w) (zlen data) < 2 ^ 63;
  sto_room : map_room w (NewBlob_cost + 2 * (metadata_cost (entries f) + 20))
}.
(** a path where a local file can be made *)
Definition free_path {P B} `{BlobProviderLaws P B} (p : P) (out : string) (w : world) : Prop :=
  out <> EmptyString /\ deny (fs w) out = false /\ files (fs w) !! out = None /\ (out ∉ dirs (fs w)) /\ ~ bp_private p w out.
Definition word (s : string) : Prop := starts_with_dash s = false.


(** [bdblob rm] of a file in the root folder removes it, exits with 0 and keeps
    every other entry; the file is not found any more. *)
Theorem rm_removes_file {P B} `{BlobProviderLaws P B} (p : P) (n m steps : nat) (localtime : Z -> Z * Z * Z * Z * Z * Z)
    (prefix nm : string) (a : BlobApi.t) (w : world) (f : Folder.t) (props e : Entry.t) (d : list Z) :
  let path := "/" +:+ nm in
  ready p a w f props 0 -> child nm = true -> SplitPath path = Ok [nm] -> BaseName path = nm ->
  has_wildcard nm = false -> no_nul nm -> Forall (fun q => no_nul (fst q)) (entries f) ->
  SMap.find nm (entries f) = Some e -> Entry.type e = FILE -> sole_owner nm e f -> bp_stored p w (Entry.id e) d ->
  map_room w (metadata_cost (entries f)) -> 0 < Z.of_nat steps ->
  exists a' w' f',
    Execute p (S n) steps localtime prefix RmCommand ["rm"%string; path] (a, w) = Ok (success, (a', w')) /\
    root a' = Some f' /\ (forall k, named k f' = if String.eqb k nm then None else named k f) /\
    forall out, word out ->
      Execute p m steps localtime prefix GetCommand ["get"%string; path; out] (a', w') = Ok (failure NOT_FOUND, fails NOT_FOUND a' w').
Proof.
  intros path Hready Hc Hsplit Hb Hw Hn Hk He Ht Hso Hd Hroom Hst.
  destruct (rm_arguments_given path eq_refl) as (q & P1 & F1 & F2 & T1).
  destruct (Delete_root p n path nm (with_error SUCCESS a) w f props e d (ready_error p _ _ _ _ _ _ Hready) Hc Hsplit He Ht Hso Hd Hroom)
    as (a' & w' & f' & props' & E & Hready' & _ & Hent & _).
  pose proof (ready_root _ _ _ _ _ _ Hready') as Hr'.
  exists a', w', f'. rewrite !(Execute_parsed _ _ _ _ _ _ _ _ _ P1). cbn [execute].
  split; [|split; [done|split]].
  - apply (rm_command p (S n) steps q nm a w f e); try done.
    + apply (ready_root _ _ _ _ _ _ Hready).
    + by destruct (ready_wf _ _ _ _ _ _ Hready) as (_ & _ & _ & Hso1).
    + lia.
  - intros k. unfold named. destruct (String.eqb_spec k ".") as [->|Hkd]; [by destruct (String.eqb "." nm)|].
    rewrite Hent. apply String.eqb_neq in Hkd. by rewrite Hkd.
  - intros out Ho. destruct (get_arguments_given path out eq_refl Ho) as (q2 & P2 & F3 & S2 & T2).
    rewrite (Execute_parsed _ _ _ _ _ _ _ _ _ P2). cbn [execute].
    apply (get_missing p m q2 path out nm a' w' f'); try done. by rewrite Hent, String.eqb_refl.
Qed.

Definition sample_time (t : Z) : Z * Z * Z * Z * Z * Z := (118, 0, 1, 0, 0, t).
Lemma rm_removes_file_witness : exists a1 w1 a2 w2 f2,
  BlobApi.Put sample_provider 2 "/f" "local" false (sample_api, api_world) = Ok (true, (a1, w1)) /\
  Execute sample_provider 1 9 sample_time "bdblob" RmCommand ["rm"; "/f"]%string (a1, w1) = Ok (success, (a2, w2)) /\
  root a2 = Some f2 /\ named "f" f2 = None.
Proof.
  destruct sample_put as (a1 & w1 & f1 & props1 & e & r & E1 & Hready & He & Hty & Hso & Hst & Hroom & Hk).
  destruct (rm_removes_file sample_provider 0 1 9 sample_time "bdblob" "f" a1 w1 f1 props1 e ([1; 2; 3] ++ r) Hready eq_refl eq_refl
    eq_refl eq_refl eq_refl) as (a2 & w2 & f2 & E2 & Hr & Hn & _); try assumption.
  - apply (Forall_map fst no_nul). rewrite Hk. repeat constructor.
  - reflexivity.
  - exists a1, w1, a2, w2, f2. split_and_all; try assumption. by rewrite Hn.
Defined.
