(* ===== verification/Options.v ===== *)
(** * The programs' command lines (src/src: bdhost/Options.cpp, bdkad/Options.cpp,
      bdfs/Options.cpp, bdfs/Action.cpp)

    A program goes on with its options or ends with an exit code; what Usage prints is
    left out.  inet_addr and jsoncpp's reader are parameters. *)

From Stdlib Require Import ZArith Lia Bool Ascii String.
From stdpp Require Import base list gmap strings pretty.
From S2P Require Import Prelude StdMap Json Stdio HostHandler HttpParams HttpNumbers Commands.
Set Default Goal Selector "!".
Local Open Scope Z_scope.
Local Open Scope drive_scope.

(** ** [atoi]: [strtol], without what does not fit an int *)
Definition strtol (s : string) : Z :=
  match skip_spaces s with
  | String "-" s => Z.max (- 2 ^ 63) (- digits_value 0 s)
  | String "+" s => Z.min (2 ^ 63 - 1) (digits_value 0 s)
  | s => Z.min (2 ^ 63 - 1) (digits_value 0 s)
  end.
Definition atoi (s : string) : Z := to_signed 4 (strtol s).
(** [errno] after strtoull *)
Definition out_of_range (s : string) : bool :=
  2 ^ 64 <=? digits_value 0 (match skip_spaces s with String "-" s => s | String "+" s => s | s => s end).

Inductive init (A : Type) := Run (o : A) | Exit (code : Z).
Arguments Run {A}. Arguments Exit {A}.

Module HostOptions.
Record t := mk {
  port : Z; name : string; endpoint : string; kademlia : list string; workDir : string;
  size : Z; relayExe : string; maxRelayCount : Z
}.
Definition default : t := mk 80 EmptyString EmptyString [] "/var/drive/bdhost/" (1024 * 1024 * 1024) "./relay-client" 0.
(** one option with its argument; None for an unknown one *)
Definition set_option (o : string) (v : string) (c : t) : option (init t) :=
  if String.eqb o "-s" then
    let n := strtoull v in
    Some (if n <? 1024 * 1024 then Exit 1
          else Run (mk (port c) (name c) (endpoint c) (kademlia c) (workDir c) n (relayExe c) (maxRelayCount c)))
  else if String.eqb o "-n" then Some (Run (mk (port c) v (endpoint c) (kademlia c) (workDir c) (size c) (relayExe c) (maxRelayCount c)))
  else if String.eqb o "-e" then Some (Run (mk (port c) (name c) v (kademlia c) (workDir c) (size c) (relayExe c) (maxRelayCount c)))
  else if String.eqb o "-w" then Some (Run (mk (port c) (name c) (endpoint c) (kademlia c) (v +:+ "/") (size c) (relayExe c) (maxRelayCount c)))
  else if String.eqb o "-k" then Some (Run (mk (port c) (name c) (endpoint c) (kademlia c ++ [v]) (workDir c) (size c) (relayExe c) (maxRelayCount c)))
  else if String.eqb o "-a" then Some (Run (mk (port c) (name c) (endpoint c) (kademlia c) (workDir c) (size c) v (maxRelayCount c)))
  else if String.eqb o "-p" then Some (Run (mk (u16 (atoi v)) (name c) (endpoint c) (kademlia c) (workDir c) (size c) (relayExe c) (maxRelayCount c)))
  else if String.eqb o "-m" then Some (Run (mk (port c) (name c) (endpoint c) (kademlia c) (workDir c) (size c) (relayExe c) (u64 (atoi v))))
  else None.
(** every option takes an argument; one that is missing or unknown ends the program *)
Fixpoint Init (args : list string) (c : t) : init t :=
  match args with
  | [] => Run c
  | [o] => Exit 1
  | o :: v :: args =>
      match set_option o v c with
      | Some (Run c) => Init args c
      | Some (Exit code) => Exit code
      | None => Exit 1
      end
  end.
End HostOptions.

Module KadOptions.
Record t := mk { http_port : Z; nodeName : string; rootPath : string; defcontPath : string; addr : Z; port : Z }.
Definition default : t := mk 80 EmptyString EmptyString EmptyString 0 0.
Section Kad.
Context (inet_addr : string -> Z) (reader : list Z -> bool * json).
(** a file that is not there reads as no text *)
Definition LoadConfig (path : string) (s : filesystem) (c : t) : outcome (bool * t) :=
  let content := match Fs.fopen_existing path s with Some f => Fs.content f s | None => [] end in
  let (ok, json) := reader content in
  if negb ok || negb (isObject json) then Ok (false, c) else
  obind (index json "http_port") (fun hp => if negb (isIntegral hp) then Ok (false, c) else
  obind (index json "node_name") (fun nn => if negb (isString nn) then Ok (false, c) else
  obind (index json "kad_addr") (fun ka => if negb (isString ka) then Ok (false, c) else
  obind (index json "kad_port") (fun kp => if negb (isIntegral kp) then Ok (false, c) else
  obind (asUInt hp) (fun hp => obind (asString nn) (fun nn => obind (asString ka) (fun ka => obind (asUInt kp) (fun kp =>
  Ok (true, mk (u16 hp) nn (rootPath c) (defcontPath c) (u32 (inet_addr ka)) (u16 kp)))))))))).
(** what LoadConfig answers is not looked at *)
Fixpoint Init_loop (args : list string) (s : filesystem) (c : t) : outcome (init t) :=
  match args with
  | [] => Ok (Run c)
  | o :: args =>
      if String.eqb o "-c" then
        match args with path :: args => obind (LoadConfig path s c) (fun '(_, c) => Init_loop args s c) | [] => Ok (Exit 1) end
      else if String.eqb o "-r" then
        match args with v :: args => Init_loop args s (mk (http_port c) (nodeName c) v (defcontPath c) (addr c) (port c)) | [] => Ok (Exit 1) end
      else if String.eqb o "-d" then
        match args with v :: args => Init_loop args s (mk (http_port c) (nodeName c) (rootPath c) v (addr c) (port c)) | [] => Ok (Exit 1) end
      else if String.eqb o "-p" then
        match args with v :: args => Init_loop args s (mk (u16 (atoi v)) (nodeName c) (rootPath c) (defcontPath c) (addr c) (port c)) | [] => Ok (Exit 1) end
      else if String.eqb o "-k" then
        match args with v :: args => Init_loop args s (mk (http_port c) v (rootPath c) (defcontPath c) (addr c) (port c)) | [] => Ok (Exit 1) end
      else if String.eqb o "-n" then
        match args with
        | a :: p :: args => Init_loop args s (mk (http_port c) (nodeName c) (rootPath c) (defcontPath c) (u32 (inet_addr a)) (u16 (atoi p)))
        | _ => Ok (Exit 1)
        end
      else Ok (Exit 1)
  end.
Definition Init (args : list string) (s : filesystem) : outcome (init t) :=
  obind (Init_loop args s default) (fun r => Ok match r with
    | Run c => Run (mk (http_port c) (nodeName c) (if empty_str (rootPath c) then nodeName c else rootPath c) (defcontPath c) (addr c) (port c))
    | Exit n => Exit n
    end).
End Kad.
End KadOptions.

(** ** bdfs *)
Module Action.
Inductive t := Unknown | Create | Delete | Verify | List | Mount | Unmount | Show | Format.
#[export] Instance eq_dec : EqDecision t.
Proof. solve_decision. Defined.
Definition ToString (a : t) : string :=
  match a with
  | Unknown => "Unknown" | Create => "Create" | Delete => "Delete" | Verify => "Verify" | List => "List"
  | Mount => "Mount" | Unmount => "Unmount" | Show => "Show" | Format => "Format"
  end.
Definition lower_char (c : ascii) : ascii :=
  let b := ascii_byte c in if (65 <=? b) && (b <=? 90) then ascii_of_nat (Z.to_nat (b + 32)) else c.
Fixpoint strcasecmp (a b : string) : bool :=
  match a, b with
  | EmptyString, EmptyString => true
  | String x a, String y b => Ascii.eqb (lower_char x) (lower_char y) && strcasecmp a b
  | _, _ => false
  end.
(** in the order in which they are compared *)
Definition all : list t := [Create; Delete; Verify; List; Mount; Unmount; Show; Format].
Definition FromString (value : string) : t :=
  match List.find (fun a => strcasecmp (ToString a) value) all with Some a => a | None => Unknown end.
End Action.

Module DriveOptions.
Record t := mk {
  action : Action.t; name : string; dataBlocks : Z; codeBlocks : Z; size : Z;
  kademliaUrl : list string; paths : list string; externalArgs : list string
}.
Definition default : t := mk Action.Unknown EmptyString 4 4 (1024 * 1024 * 1024) [] [] [].

(** [substr(size() - 2, 2)] throws when there are not as many *)
Definition ParseSizeStr (ssize : string) : outcome Z :=
  let n := String.length ssize in
  if (n <? 2)%nat then Fault UncaughtException else
  let units := substring (n - 2) 2 ssize in
  let s := u64 (atoi ssize) in
  Ok (if String.eqb units "KB" then u64 (s * 1024)
      else if String.eqb units "MB" then u64 (s * (1024 * 1024))
      else if String.eqb units "GB" then u64 (s * (1024 * 1024 * 1024))
      else s).

Section Drive.
Context (reader : list Z -> bool * json).
Definition apply_config (json : json) (c : t) : outcome t :=
  obind (index json "kademlia") (fun k =>
  obind (if isArray k then as_strings (elements k) else Ok []) (fun urls =>
  obind (index json "codeBlocks") (fun cb =>
  obind (if isIntegral cb then obind (asUInt cb) (fun n => Ok (u16 n)) else Ok (codeBlocks c)) (fun code =>
  obind (index json "dataBlocks") (fun db =>
  obind (if isIntegral db then obind (asUInt db) (fun n => Ok (u16 n)) else Ok (dataBlocks c)) (fun data =>
  obind (index json "size") (fun sz =>
  obind (if isIntegral sz then asUInt sz
         else if isString sz then obind (asString sz) ParseSizeStr else Ok (size c)) (fun n =>
  Ok (mk (action c) (name c) data code n (kademliaUrl c ++ urls) (paths c) (externalArgs c)))))))))).
Definition ReadConfig (s : filesystem) (c : t) : outcome t :=
  match Fs.fopen_existing "/etc/drive/bdfs.conf" s with
  | None => Ok c
  | Some f =>
      match Fs.content f s with
      | [] => Ok c
      | data => let (ok, json) := reader data in if negb ok || negb (isObject json) then Ok c else apply_config json c
      end
  end.

Definition is_option (arg : string) : bool := match arg with String "-" _ => true | _ => false end.
Definition set_blocks (code : bool) (v : string) (c : t) : init t :=
  let val := atoi v in
  if (val <? 1) || (256 <? val) then Exit 1
  else Run (if code then mk (action c) (name c) (dataBlocks c) (u16 val) (size c) (kademliaUrl c) (paths c) (externalArgs c)
            else mk (action c) (name c) (u16 val) (codeBlocks c) (size c) (kademliaUrl c) (paths c) (externalArgs c)).
(** an option and its argument; None for an unknown one *)
Definition set_option (o v : string) (c : t) : option (init t) :=
  if String.eqb o "-n" then Some (Run (mk (action c) v (dataBlocks c) (codeBlocks c) (size c) (kademliaUrl c) (paths c) (externalArgs c)))
  else if String.eqb o "-d" then Some (set_blocks false v c)
  else if String.eqb o "-c" then Some (set_blocks true v c)
  else if String.eqb o "-s" then
    Some (if out_of_range v then Exit 1
          else Run (mk (action c) (name c) (dataBlocks c) (codeBlocks c) (strtoull v) (kademliaUrl c) (paths c) (externalArgs c)))
  else if String.eqb o "-k" then Some (Run (mk (action c) (name c) (dataBlocks c) (codeBlocks c) (size c) (v :: kademliaUrl c) (paths c) (externalArgs c)))
  else if String.eqb o "-f" then Some (Run (mk (action c) (name c) (dataBlocks c) (codeBlocks c) (size c) (kademliaUrl c) (paths c ++ [v]) (externalArgs c)))
  else None.
(** an argument that is no option *)
Definition set_word (arg : string) (c : t) : init t :=
  match action c with
  | Action.Unknown =>
      match Action.FromString arg with
      | Action.Unknown => Exit 1
      | a => Run (mk a (name c) (dataBlocks c) (codeBlocks c) (size c) (kademliaUrl c) (paths c) (externalArgs c))
      end
  | _ => Run (mk (action c) (name c) (dataBlocks c) (codeBlocks c) (size c) (kademliaUrl c) (paths c ++ [arg]) (externalArgs c))
  end.
(** an option whose argument is missing gets [argv[argc]], a null pointer *)
Fixpoint Init_loop (args : list string) (c : t) : outcome (init t) :=
  match args with
  | [] => Ok (Run c)
  | arg :: args =>
      if String.eqb arg "-?" || String.eqb arg "-h" then Ok (Exit 0)
      else if String.eqb arg "--args" then
        Ok (Run (mk (action c) (name c) (dataBlocks c) (codeBlocks c) (size c) (kademliaUrl c) (paths c) (externalArgs c ++ args)))
      else if is_option arg then
        match args with
        | v :: args =>
            match set_option arg v c with
            | Some (Run c) => Init_loop args c
            | Some (Exit n) => Ok (Exit n)
            | None => Ok (Exit 1)
            end
        | [] => match set_option arg EmptyString c with Some _ => Fault NullDeref | None => Ok (Exit 1) end
        end
      else
        match set_word arg c with
        | Run c => Init_loop args c
        | Exit n => Ok (Exit n)
        end
  end.
Definition final_checks (c : t) : init t :=
  match action c with
  | Action.Unknown => Exit 1
  | Action.Create => if 256 <? u16 (dataBlocks c + codeBlocks c) then Exit 1 else Run c
  | Action.Mount => match paths c with [] => Exit 1 | _ => Run c end
  | _ => Run c
  end.
Definition Init (args : list string) (s : filesystem) : outcome (init t) :=
  obind (ReadConfig s default) (fun c => obind (Init_loop args c) (fun r => Ok match r with Run c => final_checks c | Exit n => Exit n end)).
End Drive.
End DriveOptions.

(** ** Numbers *)
Lemma to_signed_small n : 0 <= n < 2 ^ 31 -> to_signed 4 n = n.
Proof.
  intros Hn. unfold to_signed. change (8 * Z.of_nat 4) with 32. rewrite Z.mod_small by lia.
  change (2 ^ 32 / 2) with (2 ^ 31). by destruct (Z.ltb_spec n (2 ^ 31)); [|lia].
Qed.
(** atoi reads a number and leaves what follows it *)
Lemma atoi_pretty n t : (n < 2 ^ 31)%N -> no_digit t -> atoi (pretty n +:+ t) = Z.of_N n.
Proof.
  intros Hn Ht. destruct (pretty_head n) as (c & s & E & Hd). unfold atoi.
  assert (strtol (pretty n +:+ t) = Z.of_N n) as ->; [|apply to_signed_small; lia].
  rewrite E. etrans; [exact (number_start c (s +:+ t) _ _ (fun s => Z.min (2 ^ 63 - 1) (digits_value 0 s)) Hd)|]. cbv beta.
  change (String c (s +:+ t)) with (String c s +:+ t). rewrite <- E, digits_pretty by done. lia.
Qed.
Lemma atoi_number n : 0 <= n < 2 ^ 31 -> atoi (pretty (Z.to_N n)) = n.
Proof. intros Hn. rewrite <- (append_nil_r (pretty _)). rewrite atoi_pretty; [lia|lia|done]. Qed.

(** ** bdhost *)
Definition host_args (c : HostOptions.t) (dir : string) : list string :=
  ["-n"; HostOptions.name c; "-e"; HostOptions.endpoint c; "-s"; pretty (Z.to_N (HostOptions.size c)); "-w"; dir;
   "-p"; pretty (Z.to_N (HostOptions.port c)); "-a"; HostOptions.relayExe c; "-m"; pretty (Z.to_N (HostOptions.maxRelayCount c))]%string ++
  concat (map (fun k => ["-k"%string; k]) (HostOptions.kademlia c)).
Lemma host_kademlia ks : forall c, HostOptions.Init (concat (map (fun k => ["-k"%string; k]) ks)) c =
  Run (HostOptions.mk (HostOptions.port c) (HostOptions.name c) (HostOptions.endpoint c) (HostOptions.kademlia c ++ ks)
    (HostOptions.workDir c) (HostOptions.size c) (HostOptions.relayExe c) (HostOptions.maxRelayCount c)).
Proof.
  induction ks as [|k ks IH]; intros c; [cbn; rewrite app_nil_r; by destruct c|].
  change (HostOptions.Init (concat (map (fun k => ["-k"%string; k]) (k :: ks))) c) with
    (HostOptions.Init (concat (map (fun k => ["-k"%string; k]) ks))
      (HostOptions.mk (HostOptions.port c) (HostOptions.name c) (HostOptions.endpoint c) (HostOptions.kademlia c ++ [k])
        (HostOptions.workDir c) (HostOptions.size c) (HostOptions.relayExe c) (HostOptions.maxRelayCount c))).
  rewrite IH. cbn. by rewrite <- app_assoc.
Qed.
(** bdhost understands a command line that is written from its options *)
Lemma host_options_read c dir : HostOptions.workDir c = dir +:+ "/" -> 1024 * 1024 <= HostOptions.size c < 2 ^ 64 ->
  0 <= HostOptions.port c < 2 ^ 16 -> 0 <= HostOptions.maxRelayCount c < 2 ^ 31 ->
  HostOptions.Init (host_args c dir) HostOptions.default = Run c.
Proof.
  intros Hw Hs Hp Hm. unfold host_args. cbn -[concat strtoull atoi pretty u16 u64 Z.ltb Z.mul].
  rewrite strtoull_pretty by (unfold in_u64; lia). destruct (Z.ltb_spec (HostOptions.size c) (1024 * 1024)); [lia|].
  cbn -[concat strtoull atoi pretty u16 u64 Z.ltb Z.mul]. rewrite !atoi_number by lia.
  unfold u16, u64. rewrite !Z.mod_small by lia. rewrite host_kademlia. cbn -[String.append]. rewrite <- Hw. by destruct c.
Qed.
(** a port that is too large is another one *)
Lemma port_truncated : HostOptions.Init ["-p"; "70000"]%string HostOptions.default =
  Run (HostOptions.mk 4464 EmptyString EmptyString [] "/var/drive/bdhost/" (1024 * 1024 * 1024) "./relay-client" 0).
Proof. reflexivity. Qed.

(** ** bdfs *)
(** a size with its unit *)
Lemma sized_units n u m : (n < 2 ^ 31)%N -> In (u, m) [("KB", 2 ^ 10); ("MB", 2 ^ 20); ("GB", 2 ^ 30)]%string ->
  DriveOptions.ParseSizeStr (pretty n +:+ u) = Ok (u64 (Z.of_N n * m)).
Proof.
  intros Hn Hu. assert (String.length u = 2%nat /\ no_digit u) as [Hl Hd] by (cbn in Hu; by destruct Hu as [[= <- <-]|[[= <- <-]|[[= <- <-]|[]]]]).
  unfold DriveOptions.ParseSizeStr. rewrite length_append, Hl.
  destruct (Nat.ltb_spec (String.length (pretty n) + 2) 2); [lia|].
  replace (String.length (pretty n) + 2 - 2)%nat with (String.length (pretty n)) by lia.
  assert (substring (String.length (pretty n)) 2 (pretty n +:+ u) = u) as ->.
  { clear - Hl. induction (pretty n) as [|c s IH]; [by apply substring_all; rewrite Hl|exact IH]. }
  rewrite atoi_pretty by done. assert (u64 (Z.of_N n) = Z.of_N n) as -> by (apply u64_small; unfold in_u64; lia).
  cbn in Hu. by destruct Hu as [[= <- <-]|[[= <- <-]|[[= <- <-]|[]]]].
Qed.
(** and one of a single character, which ends the program with an exception *)
Lemma short_size_throws : DriveOptions.ParseSizeStr "5" = Fault UncaughtException.
Proof. reflexivity. Qed.

Definition blocks_ok (c : DriveOptions.t) : Prop :=
  1 <= DriveOptions.dataBlocks c <= 256 /\ 1 <= DriveOptions.codeBlocks c <= 256.
Lemma set_blocks_ok code v c c' : blocks_ok c -> DriveOptions.set_blocks code v c = Run c' -> blocks_ok c'.
Proof.
  intros [Hd Hc]. unfold DriveOptions.set_blocks. destruct ((atoi v <? 1) || (256 <? atoi v)) eqn:E; [done|].
  apply orb_false_iff in E as [E1%Z.ltb_ge E2%Z.ltb_ge]. assert (u16 (atoi v) = atoi v) as Eu by (unfold u16; apply Z.mod_small; lia).
  unfold blocks_ok. destruct code; intros [= <-]; cbn [DriveOptions.dataBlocks DriveOptions.codeBlocks]; rewrite Eu; lia.
Qed.
Lemma set_option_blocks o v c c' : blocks_ok c -> DriveOptions.set_option o v c = Some (Run c') -> blocks_ok c'.
Proof.
  intros Hb E. unfold DriveOptions.set_option in E. repeat case_match; try done; first [by injection E as <-|injection E as E; by apply set_blocks_ok in E].
Qed.
Lemma set_word_blocks arg c c' : blocks_ok c -> DriveOptions.set_word arg c = Run c' -> blocks_ok c'.
Proof. intros Hb E. unfold DriveOptions.set_word in E. repeat case_match; try done; by injection E as <-. Qed.
Lemma init_loop_blocks args : forall c c', blocks_ok c -> DriveOptions.Init_loop args c = Ok (Run c') -> blocks_ok c'.
Proof.
  assert (forall n args, (length args <= n)%nat -> forall c c', blocks_ok c -> DriveOptions.Init_loop args c = Ok (Run c') -> blocks_ok c') as H;
    [|by apply (H (length args))].
  clear args. induction n as [|n IH]; intros [|arg args] Hn c c' Hb E; try by injection E as <-; try done.
  - cbn in Hn. lia.
  - cbn [DriveOptions.Init_loop] in E. cbn [length] in Hn. destruct (_ || _); [done|]. destruct (String.eqb arg "--args"); [by injection E as <-|].
    destruct (DriveOptions.is_option arg).
    + destruct args as [|v args]; [by repeat case_match|]. destruct (DriveOptions.set_option arg v c) as [[c1|]|] eqn:Es; [|done..].
      apply (IH args ltac:(cbn in Hn; lia) c1 c'); [by eapply set_option_blocks|done].
    + destruct (DriveOptions.set_word arg c) as [c1|] eqn:Es; [|done]. apply (IH args ltac:(lia) c1 c'); [by eapply set_word_blocks|done].
Qed.
(** Without a configuration file, bdfs only creates volumes with at least one data
    and one code block and no more than 256 together, whatever its arguments are. *)
Theorem created_blocks_bounded (reader : list Z -> bool * json) (args : list string) (s : filesystem) (c : DriveOptions.t) :
  Fs.fopen_existing "/etc/drive/bdfs.conf" s = None -> DriveOptions.Init reader args s = Ok (Run c) ->
  DriveOptions.action c = Action.Create ->
  1 <= DriveOptions.dataBlocks c /\ 1 <= DriveOptions.codeBlocks c /\ DriveOptions.dataBlocks c + DriveOptions.codeBlocks c <= 256.
Proof.
  intros Hf E Ha. unfold DriveOptions.Init, DriveOptions.ReadConfig in E. rewrite Hf in E. cbn [obind] in E.
  apply obind_inv in E as (r & E & Er). destruct r as [c1|]; [|done].
  assert (blocks_ok c1) as [Hd Hc] by (eapply init_loop_blocks; [|exact E]; done).
  injection Er as Er. unfold DriveOptions.final_checks in Er.
  assert (c1 = c) as -> by (repeat case_match; try done; by injection Er).
  rewrite Ha in Er. destruct (256 <? u16 _) eqn:El; [done|]. apply Z.ltb_ge in El.
  unfold u16 in El. rewrite Z.mod_small in El by lia. lia.
Qed.
Definition empty_fs : filesystem := mkfs ∅ ∅ (fun _ => false) 100.
Lemma created_blocks_bounded_witness : exists c,
  DriveOptions.Init (fun _ => (false, JNull)) ["create"; "-n"; "v"; "-d"; "5"; "-k"; "http://k"]%string empty_fs = Ok (Run c) /\
  1 <= DriveOptions.dataBlocks c /\ 1 <= DriveOptions.codeBlocks c /\ DriveOptions.dataBlocks c + DriveOptions.codeBlocks c <= 256.
Proof.
  eexists. split; [vm_compute; reflexivity|].
  apply (created_blocks_bounded (fun _ => (false, JNull)) ["create"; "-n"; "v"; "-d"; "5"; "-k"; "http://k"]%string empty_fs); vm_compute; reflexivity.
Defined.
(** blocks of a configuration file are not looked at, and their sum wraps: 65535 data
    and one code block are not too many *)
Lemma config_blocks_wrap : exists c,
  DriveOptions.apply_config (JObject [("codeBlocks", JInt 1); ("dataBlocks", JInt 65535)]%string) DriveOptions.default = Ok c /\
  exists c', DriveOptions.Init_loop ["create"; "-n"; "v"]%string c = Ok (Run c') /\ DriveOptions.final_checks c' = Run c' /\ DriveOptions.dataBlocks c' = 65535.
Proof. eexists. split; [reflexivity|]. eexists. by split_and!. Qed.
(** an option without its argument reads a null pointer *)
Lemma missing_argument : DriveOptions.Init_loop ["mount"; "-n"]%string DriveOptions.default = Fault NullDeref.
Proof. reflexivity. Qed.

(** ** bdkad *)
(** a configuration file that cannot be read leaves the node with its defaults *)
Lemma bad_config_ignored inet_addr reader s : Fs.fopen_existing "kad.conf" s = None -> fst (reader []) = false ->
  KadOptions.Init inet_addr reader ["-c"; "kad.conf"]%string s = Ok (Run KadOptions.default).
Proof.
  intros Hf Hr. unfold KadOptions.Init. cbn -[Fs.fopen_existing]. unfold KadOptions.LoadConfig. rewrite Hf.
  destruct (reader []) as [ok j]. cbn in Hr. by subst.
Qed.
