(* ===== verification/DriveMain.v ===== *)
(** * The program bdfs (src/src/bdfs/Main.cpp)

    main and the actions behind it, over the options of [Options], the daemon of
    [Daemon] on the other end of a socket, and the files and hosts of [VolumeConfig].
    How a socket cuts what is sent on it, the results of its send and what a command
    prints are parameters.  What bdfs prints is kept, line by line. *)

From Stdlib Require Import ZArith Lia Bool Ascii String.
From stdpp Require Import base list gmap strings.
From S2P Require Import Prelude StdMap Json JsonReader JsonText JsonWriter JsonFacts JsonCodec Stdio Contracts.
From S2P Require Import HostHandler HttpParams HostClient Protocol Daemon DaemonFacts VolumeManager VolumeConfig Commands Options.
Set Default Goal Selector "!".
Local Open Scope Z_scope.
Local Open Scope drive_scope.

(** ** The start of bdfsclient (src/src/bdfsclient/Main.cpp) *)
(** the pieces between newlines, as getline gives them *)
Fixpoint getlines (line : string) (text : string) : list string :=
  match text with
  | EmptyString => if empty_str line then [] else [line]
  | String c text =>
      if ascii_byte c =? 10 then line :: getlines EmptyString text
      else getlines (line +:+ String c EmptyString) text
  end.
Section Start.
Context {E : Type} (reader : list Z -> bool * json).
Fixpoint add_paths (lines : list string) : M (daemon E) unit :=
  match lines with
  | [] => ret tt
  | path :: lines => if empty_str path then ret tt else AddNbdPath path ;;; add_paths lines
  end.
(** the URLs of the Kademlia nodes and the daemon when its client manager starts, from
    the configuration and the output of ls; None when it ends before; [init] is the
    result of cm256_init *)
Definition start_daemon (init : Z) (listing : string) (s : filesystem) (e : E) : outcome (option (list string * daemon E)) :=
  match Fs.fopen_existing "/etc/drive/bdfs.conf" s with
  | None => Ok None
  | Some f =>
      match Fs.content f s with
      | [] => Ok None
      | data =>
          let (ok, json) := reader data in
          if negb ok || negb (isObject json) then Ok None else
          obind (index json "kademlia") (fun k =>
          obind (if isArray k then as_strings (elements k) else Ok []) (fun urls =>
          if negb (init =? 0) then Ok None else
          obind (add_paths (getlines EmptyString listing) (mkdaemon [] [] e)) (fun '(_, d) => Ok (Some (urls, d)))))
      end
  end.
End Start.

Section Program.
Context (print_double : real -> list Z) (scan_double : list Z -> option real).
Context (url_escape url_decode : string -> string) (shell : string -> filesystem -> filesystem).
Context {St : Type} (process : string -> request -> M St response) (reach : string -> bool) (timeout : string -> Z).
Context {E : Type} `{Platform E}.
Context (execCmd : string -> M E string) (pieces : list Z -> list arrival) (send_results : list Z -> list Z).
Abbreviation Drive := DriveOptions.t.

(** bdfsclient, whether it listens, and the rest of the machine *)
Record world := mkworld {
  listening : bool; bdfsclient : daemon E; rest_of : machine (St := St); printed : list string
}.
Definition print (line : string) : M world unit :=
  modify (fun w => mkworld (listening w) (bdfsclient w) (rest_of w) (printed w ++ [line])).
Definition on_daemon {A} (m : M (daemon E) A) : M world A := fun w =>
  obind (m (bdfsclient w)) (fun '(a, d) => Ok (a, mkworld (listening w) d (rest_of w) (printed w))).
(** the environment that the daemon's commands change too *)
Definition on_platform {A} (m : M E A) : M world A := on_daemon (on_env m).
Definition on_machine {A} (m : M (machine (St := St)) A) : M world A := fun w =>
  obind (m (rest_of w)) (fun '(a, r) => Ok (a, mkworld (listening w) (bdfsclient w) r (printed w))).

(** ** A request to the daemon; None when the program has given up *)
Definition SendReceive (args : list string) (type : Z) : M world (option (list Z)) :=
  buff <- lift (Create type args 0) ;;
  w <- get ;;
  if negb (listening w) then print "Error: Unable to connect to bdfsclient daemon." ;;; ret None
  else if negb (bool_decide (SendMessage (send_results buff) buff = Some (length_of buff)))
  then print "Error: Unable to sendmessage to bdfsclient daemon." ;;; ret None
  else
    pat! (_, sent) <- on_daemon (HandleRequest (pieces buff)) ;;
    pat! (returnBuff, _) <- lift (ReceiveBdcp (pieces (concat sent))) ;;
    match returnBuff with
    | None => print "Error: Unable to readresponse from bdfsclient daemon." ;;; ret None
    | Some resp => ret (Some resp)
    end.

(** [printf("%-<n>s", s)] *)
Definition pad (n : nat) (s : string) : string := s +:+ string_of_list_ascii (replicate (n - String.length s) " "%char).
Definition row (args : list string) : string := String.concat EmptyString (map (pad 25) args).
Definition heading : string := pad 25 "VOLUME NAME" +:+ pad 20 "NBD PATH" +:+ pad 25 "MOUNT PATH".
Fixpoint print_rows (responses : list (list string)) : M world unit :=
  match responses with
  | [] => ret tt
  | args :: responses => print (row args) ;;; print_rows responses
  end.
Definition ListVolumes : M world unit :=
  buff <- lift (Create QUERY_VOLUMEINFO [] 0) ;;
  w <- get ;;
  if negb (listening w) then print "Error: Unable to connect to bdfsclient daemon."
  else if negb (bool_decide (SendMessage (send_results buff) buff = Some (length_of buff)))
  then print "Error: Unable to sendmessage to bdfsclient daemon."
  else
    pat! (_, sent) <- on_daemon (HandleRequest (pieces buff)) ;;
    print heading ;;;
    responses <- lift (list_responses (S (length (concat sent))) (pieces (concat sent))) ;;
    print_rows responses.

(** ** The actions *)
(** BIND and the wait until the device is ready; None when there is no device *)
Definition bind_device (name : string) (args : list string) : M world (option string) :=
  resp <- SendReceive args BIND ;;
  match resp with
  | None => ret None
  | Some resp =>
      respParams <- lift (Parse resp) ;;
      status <- lift (byte_at 6 resp) ;;
      match respParams with
      | [device] =>
          if status =? 0 then print ("Bind failed for volume '" +:+ name +:+ "'.") ;;; ret None else
          counter <- on_platform (wait_ready device 10) ;;
          if counter =? 0 then print ("Bind timeout for volume '" +:+ name +:+ "'.") ;;; ret None
          else ret (Some device)
      | _ => print ("Bind failed for volume '" +:+ name +:+ "'.") ;;; ret None
      end
  end.
(** [s.substr(0, s.size() - 1)] *)
Definition chomp (s : string) : string := substring 0 (String.length s - 1) s.
Definition with_args (cmd : string) (args : list string) : string :=
  fold_left (fun cmd arg => cmd +:+ " " +:+ arg) args cmd.
Definition mount_command (device path : string) (args : list string) : string :=
  with_args "sudo mount" args +:+ " " +:+ device +:+ " " +:+ path.
Definition chown_command (user group path : string) : string := "sudo chown " +:+ user +:+ ":" +:+ group +:+ " " +:+ path.
Definition mkfs_command (device fstype : string) (args : list string) : string :=
  with_args ("sudo mkfs." +:+ fstype) args +:+ " " +:+ device.
Definition do_mount (c : Drive) : M world unit :=
  match DriveOptions.paths c with
  | [path] =>
      device <- bind_device (DriveOptions.name c) [DriveOptions.name c; path] ;;
      match device with
      | None => ret tt
      | Some device =>
          print ("Mounting '" +:+ device +:+ "' to '" +:+ path +:+ "'") ;;;
          on_platform (
            user <- execCmd "id -u -n" ;;
            group <- execCmd "id -g -n" ;;
            system (c_path (mount_command device path (DriveOptions.externalArgs c))) ;;;
            system (c_path (chown_command (chomp user) (chomp group) path)))
      end
  | _ => print "Missing <volumename> or <path>"
  end.
Definition do_unmount (c : Drive) : M world unit :=
  if empty_str (DriveOptions.name c) then print "Missing <volumename>" else
  resp <- SendReceive [DriveOptions.name c] UNBIND ;;
  match resp with
  | None => ret tt
  | Some resp =>
      lift (Parse resp) ;;;
      status <- lift (byte_at 6 resp) ;;
      if status =? 0 then print ("Mount path not found for volume '" +:+ DriveOptions.name c +:+ "'.")
      else print "Unmounting complete."
  end.
Definition do_format (c : Drive) : M world unit :=
  match DriveOptions.paths c with
  | [fstype] =>
      if empty_str (DriveOptions.name c) then print "Missing <volumename> or <fstype>" else
      device <- bind_device (DriveOptions.name c) [DriveOptions.name c] ;;
      match device with
      | None => ret tt
      | Some device =>
          print ("Formatting '" +:+ device +:+ "' to '" +:+ fstype +:+ "'...") ;;;
          on_platform (system (c_path (mkfs_command device fstype (DriveOptions.externalArgs c))))
      end
  | _ => print "Missing <volumename> or <fstype>"
  end.
Definition do_create (c : Drive) : M world unit :=
  if empty_str (DriveOptions.name c) then print "Missing <volumeName>" else
  print ("Creating volume '" +:+ DriveOptions.name c +:+ "'...") ;;;
  on_machine (CreateVolume print_double scan_double url_escape url_decode shell process reach (DriveOptions.kademliaUrl c)
    (DriveOptions.name c) (DriveOptions.size c) (DriveOptions.dataBlocks c) (DriveOptions.codeBlocks c)) ;;;
  ret tt.
Definition do_delete (c : Drive) : M world unit :=
  if empty_str (DriveOptions.name c) then print "Missing <volumeName>" else
  success <- on_machine (DeleteVolume print_double scan_double url_escape url_decode process reach timeout (DriveOptions.kademliaUrl c)
    (DriveOptions.name c) (match DriveOptions.paths c with path :: _ => path | [] => EmptyString end)) ;;
  if success : bool then print ("Volume '" +:+ DriveOptions.name c +:+ "' deleted.") else ret tt.
Definition HandleOptions (c : Drive) : M world unit :=
  match DriveOptions.action c with
  | Action.Mount => do_mount c
  | Action.Unmount => do_unmount c
  | Action.Format => do_format c
  | Action.Create => do_create c
  | Action.Delete => do_delete c
  | Action.List => ListVolumes
  | a => print ("Unhandled option : " +:+ Action.ToString a)
  end.
(** main: the exit code *)
Definition main (args : list string) : M world Z :=
  w <- get ;;
  options <- lift (DriveOptions.Init (json_reader scan_double) args (fs_of (rest_of w))) ;;
  match options with
  | Exit n => ret n
  | Run c =>
      match DriveOptions.kademliaUrl c with
      | [] => print "Kademlia url's not found." ;;; ret 0
      | _ => HandleOptions c ;;; ret 0
      end
  end.
End Program.
