(* ===== verification/DriveMainFacts.v ===== *)
(** * What bdfs does (src/src/bdfs/Main.cpp)

    From a command line over the daemon to the commands that are run and the lines
    that are printed. *)

From Stdlib Require Import ZArith Lia Bool Ascii String.
From stdpp Require Import base list gmap strings.
From S2P Require Import Prelude StdMap Json JsonReader JsonText JsonWriter JsonFacts JsonCodec Stdio Contracts.
From S2P Require Import HostHandler HttpParams Protocol Daemon DaemonFacts HostClient VolumeManager VolumeConfig Options DriveMain.
Set Default Goal Selector "!".
Local Open Scope Z_scope.
Local Open Scope drive_scope.

(** ** bdfsclient starts with all its devices free *)
Section Start.
Context {E : Type} `{Platform E}.
Lemma add_paths_ok lines : forall n e, SMap.sorted n -> (forall p, SMap.find p n <> Some true) -> SMap.find EmptyString n = None ->
  exists n', add_paths lines (mkdaemon (E := E) [] n e) = Ok (tt, mkdaemon [] n' e) /\ SMap.sorted n' /\
    (forall p, SMap.find p n' <> Some true) /\ SMap.find EmptyString n' = None.
Proof using.
  induction lines as [|path lines IH]; intros n e Hs Hf He; [by exists n|]. cbn [add_paths].
  destruct (empty_str path) eqn:Ep; [by exists n|]. erewrite bind_ok by reflexivity. apply IH.
  - by apply SMapFacts.sorted_insert.
  - intros p. rewrite SMapFacts.find_insert. by destruct (String.eqb p path).
  - rewrite SMapFacts.find_insert. by destruct path.
Qed.
Lemma daemon_starts_ok reader init listing s (e : E) urls d : start_daemon reader init listing s e = Ok (Some (urls, d)) ->
  devices_ok d /\ volumeInfo d = [] /\ env d = e.
Proof using.
  unfold start_daemon. destruct (Fs.fopen_existing _ s) as [f|]; [|done]. destruct (Fs.content f s) as [|b data]; [done|].
  destruct (reader (b :: data)) as [ok json]. destruct (_ || _); [done|]. intros Hr.
  apply obind_inv in Hr as (k & _ & Hr). apply obind_inv in Hr as (us & _ & Hr). destruct (negb _); [done|].
  apply obind_inv in Hr as ([[] d1] & Ha & Hr). injection Hr as _ <-.
  destruct (add_paths_ok (getlines EmptyString listing) [] e) as (n' & En & Hs & Hf & He); [done..|].
  rewrite En in Ha. injection Ha as <-. split; [|done].
  split; cbn; [done|done|done|done|]. intros p Hp. by destruct (Hf p).
Qed.
End Start.

(** a socket gives what was sent, cut in some way; send takes all of a message *)
Class Sockets (pieces : list Z -> list arrival) (send_results : list Z -> list Z) := {
  pieces_flow l : Forall flowing (pieces l);
  pieces_stream l : stream (pieces l) = l;
  sends_all l : l <> [] -> SendMessage (send_results l) l = Some (zlen l)
}.

Section Facts.
Context (print_double : real -> list Z) (scan_double : list Z -> option real).
Context (url_escape url_decode : string -> string) (shell : string -> filesystem -> filesystem).
Context {St : Type} (process : string -> request -> M St response) (reach : string -> bool) (timeout : string -> Z).
Context {E : Type} `{Platform E}.
Context (execCmd : string -> M E string) (pieces : list Z -> list arrival) (send_results : list Z -> list Z).
Context {HS : Sockets pieces send_results}.
Abbreviation program := (main print_double scan_double url_escape url_decode shell process reach timeout execCmd pieces send_results).
Implicit Types (w : world (St := St) (E := E)) (d : daemon E) (c : DriveOptions.t).

(** the world with another daemon, and more printed *)
Definition after w d (lines : list string) : world := mkworld (listening w) d (rest_of w) (printed w ++ lines).
Lemma after_print w d lines line : print line (after w d lines) = Ok (tt, after w d (lines ++ [line])).
Proof using. unfold print, modify, after. cbn. by rewrite app_assoc. Qed.
Lemma after_id w : after w (bdfsclient w) [] = w.
Proof using. unfold after. rewrite app_nil_r. by destruct w. Qed.

Lemma on_daemon_ok {A} (m : M (daemon E) A) w d lines a d' : m d = Ok (a, d') -> on_daemon m (after w d lines) = Ok (a, after w d' lines).
Proof using. unfold on_daemon, after. cbn. by intros ->. Qed.
Lemma on_platform_ok {A} (m : M E A) w d lines a e : m (env d) = Ok (a, e) ->
  on_platform m (after w d lines) = Ok (a, after w (mkdaemon (volumeInfo d) (nbdInfo d) e) lines).
Proof using. intros Hm. apply on_daemon_ok. unfold on_env. by rewrite Hm. Qed.
Lemma message_sent type args status : fits type args ->
  bool_decide (SendMessage (send_results (message type args status)) (message type args status) = Some (length_of (message type args status))) = true.
Proof using HS.
  intros Hf. apply bool_decide_eq_true. rewrite message_length by done. apply sends_all.
  intros E0. pose proof (zlen_message_big type args status) as Hb. rewrite E0 in Hb. by cbn in Hb.
Qed.
Lemma SendReceive_ok type args w d lines params status d' : listening w = true -> fits type args -> fits RESPONSE params ->
  HandleRequest (pieces (message type args 0)) d = Ok ((true, [message RESPONSE params status]), d') ->
  SendReceive pieces send_results args type (after w d lines) = Ok (Some (message RESPONSE params status), after w d' lines).
Proof using HS.
  intros Hl Hf Hr Hh. unfold SendReceive. rewrite Create_ok by done. erewrite bind_ok by reflexivity. erewrite bind_ok by reflexivity.
  cbn [after listening]. rewrite Hl, message_sent by done. cbn [negb]. erewrite bind_ok by by apply on_daemon_ok. cbn [concat]. rewrite app_nil_r.
  destruct (response_received RESPONSE params status (pieces (message RESPONSE params status)) []) as (rest & -> & _ & _); try done.
  - apply pieces_flow.
  - by rewrite pieces_stream, app_nil_r.
Qed.

(** ** Binding *)
Lemma bind_device_ok name rest w d lines status d' e : listening w = true -> (length rest <= 1)%nat -> fits BIND (name :: rest) ->
  BindVolume name (match rest with path :: _ => path | [] => EmptyString end) d = Ok (status, d') -> 0 < status < 256 ->
  fits RESPONSE [GetNbdForVolume name d'] -> nbd_ready (GetNbdForVolume name d') (env d') = Ok (true, e) ->
  bind_device pieces send_results name (name :: rest) (after w d lines) =
    Ok (Some (GetNbdForVolume name d'), after w (mkdaemon (volumeInfo d') (nbdInfo d') e) lines).
Proof using HS.
  intros Hl Hr Hf Hb Hs Hfr Hn. unfold bind_device.
  pose proof (bind_served (name :: rest) (pieces (message BIND (name :: rest) 0)) d d' status name rest eq_refl ltac:(cbn; lia) Hf
    (pieces_flow _) (pieces_stream _) Hb ltac:(lia)) as Hh. cbv zeta in Hh. rewrite (proj2 (Z.eqb_neq status 0)) in Hh by lia.
  erewrite bind_ok by (apply SendReceive_ok; [done..|by apply Hh]).
  cbv iota. rewrite Parse_message by done. change (take (Z.to_nat (u8 (zlen [?x]))) [?x]) with [x]. erewrite bind_ok by reflexivity.
  change (byte_at 6 (message RESPONSE [?x] status)) with (Ok status). erewrite bind_ok by reflexivity.
  rewrite (proj2 (Z.eqb_neq status 0)) by lia.
  assert (wait_ready (GetNbdForVolume name d') 10 (env d') = Ok (10, e)) as Hw by (cbn [wait_ready]; by erewrite bind_ok by exact Hn).
  by erewrite bind_ok by (apply on_platform_ok; exact Hw).
Qed.
Lemma bind_device_refused name rest w d lines d' : listening w = true -> (length rest <= 1)%nat -> fits BIND (name :: rest) ->
  BindVolume name (match rest with path :: _ => path | [] => EmptyString end) d = Ok (0, d') ->
  bind_device pieces send_results name (name :: rest) (after w d lines) =
    Ok (None, after w d' (lines ++ ["Bind failed for volume '" +:+ name +:+ "'."])).
Proof using HS.
  intros Hl Hr Hf Hb. unfold bind_device. assert (fits RESPONSE []) as Hf0 by by split; [apply List.Forall_nil|].
  pose proof (bind_served (name :: rest) (pieces (message BIND (name :: rest) 0)) d d' 0 name rest eq_refl ltac:(cbn; lia) Hf
    (pieces_flow _) (pieces_stream _) Hb ltac:(lia) Hf0) as Hh.
  erewrite bind_ok by (apply SendReceive_ok; [done..|by apply Hh]).
  cbv iota. rewrite Parse_message by done. erewrite bind_ok by reflexivity. change (byte_at 6 (message RESPONSE [] 0)) with (Ok 0).
  erewrite bind_ok by reflexivity. cbv beta iota zeta. change (take (Z.to_nat (u8 (zlen (@nil string)))) []) with (@nil string). cbv iota. by erewrite bind_ok by apply after_print.
Qed.

(** ** The command line of a mount *)
Lemma no_option_no_help path : DriveOptions.is_option path = false -> String.eqb path "-?" || String.eqb path "-h" = false /\ String.eqb path "--args" = false.
Proof using.
  intros Hp. split; [apply orb_false_iff; split|]; apply String.eqb_neq; by intros ->.
Qed.
Lemma mount_options url name path ext s : Fs.fopen_existing "/etc/drive/bdfs.conf" s = None -> DriveOptions.is_option path = false ->
  DriveOptions.Init (json_reader scan_double) (["mount"; "-k"; url; "-n"; name; path; "--args"] ++ ext) s =
  Ok (Run (DriveOptions.mk Action.Mount name 4 4 (1024 * 1024 * 1024) [url] [path] ext)).
Proof using.
  intros Hs Hp. destruct (no_option_no_help path Hp) as [H1 H2]. unfold DriveOptions.Init, DriveOptions.ReadConfig. rewrite Hs.
  cbn [obind app]. cbn. by rewrite H1, H2, Hp.
Qed.
Lemma main_runs args w c w' : DriveOptions.Init (json_reader scan_double) args (fs_of (rest_of w)) = Ok (Run c) -> DriveOptions.kademliaUrl c <> [] ->
  HandleOptions print_double scan_double url_escape url_decode shell process reach timeout execCmd pieces send_results c (after w (bdfsclient w) []) = Ok (tt, w') ->
  program args w = Ok (0, w').
Proof using.
  rewrite after_id. intros Hi Hk Hh. unfold main. erewrite bind_ok by reflexivity. rewrite Hi. erewrite bind_ok by reflexivity. cbv iota.
  destruct (DriveOptions.kademliaUrl c); [done|]. by erewrite bind_ok by exact Hh.
Qed.
(** a volume that the daemon does not bind is not mounted: no command is run *)
Lemma mount_refused (url name path : string) (ext : list string) (w : world) (d' : daemon E) :
  Fs.fopen_existing "/etc/drive/bdfs.conf" (fs_of (rest_of w)) = None -> DriveOptions.is_option path = false ->
  listening w = true -> fits BIND [name; path] -> BindVolume name path (bdfsclient w) = Ok (0, d') ->
  program (["mount"; "-k"; url; "-n"; name; path; "--args"] ++ ext) w =
    Ok (0, after w d' ["Bind failed for volume '" +:+ name +:+ "'."]).
Proof using HS.
  intros Hc Hp Hl Hf Hb. apply (main_runs _ _ _ _ (mount_options url name path ext _ Hc Hp)); [done|].
  unfold HandleOptions, do_mount. cbn [DriveOptions.action DriveOptions.paths DriveOptions.name DriveOptions.externalArgs].
  by rewrite (bind_ok _ _ _ _ _ (bind_device_refused name [path] w (bdfsclient w) [] d' Hl (le_n 1) Hf Hb)).
Qed.

(** ** bdfs unmount *)
Lemma unmount_served (url name : string) (w : world) (d' : daemon E) :
  Fs.fopen_existing "/etc/drive/bdfs.conf" (fs_of (rest_of w)) = None -> name <> EmptyString -> listening w = true ->
  fits UNBIND [name] -> UnbindVolume name (bdfsclient w) = Ok (1, d') -> fits RESPONSE [GetMountPathForVolume name (bdfsclient w)] ->
  program ["unmount"; "-k"; url; "-n"; name]%string w = Ok (0, after w d' ["Unmounting complete."%string]).
Proof using HS.
  intros Hc Hne Hl Hf Hu Hfr.
  apply (main_runs _ _ (DriveOptions.mk Action.Unmount name 4 4 (1024 * 1024 * 1024) [url] [] [])); [|done|].
  { unfold DriveOptions.Init, DriveOptions.ReadConfig. by rewrite Hc. }
  unfold HandleOptions, do_unmount. cbn [DriveOptions.action DriveOptions.name]. assert (empty_str name = false) as -> by by destruct name.
  pose proof (unbind_served (pieces (message UNBIND [name] 0)) _ d' 1 name Hf (pieces_flow _) (pieces_stream _) Hu ltac:(lia) Hfr) as Hh.
  rewrite (bind_ok _ _ _ _ _ (SendReceive_ok UNBIND [name] w _ [] _ 1 d' Hl Hf Hfr Hh)). cbv iota. rewrite Parse_message by done.
  erewrite bind_ok by reflexivity. change (byte_at 6 (message RESPONSE [?x] 1)) with (Ok 1). erewrite bind_ok by reflexivity.
  apply (after_print w d' []).
Qed.
(** a volume that is not mounted anywhere is unmounted with success *)
Lemma unmount_unknown (url name : string) (w : world) :
  Fs.fopen_existing "/etc/drive/bdfs.conf" (fs_of (rest_of w)) = None -> name <> EmptyString -> listening w = true ->
  fits UNBIND [name] -> SMap.find name (volumeInfo (bdfsclient w)) = None ->
  program ["unmount"; "-k"; url; "-n"; name]%string w = Ok (0, after w (bdfsclient w) ["Unmounting complete."%string]).
Proof using HS.
  intros Hc Hne Hl Hf Hn. apply unmount_served; try done.
  - unfold UnbindVolume. erewrite bind_ok by reflexivity. by rewrite Hn.
  - unfold GetMountPathForVolume. rewrite Hn. by split; [repeat constructor|].
Qed.

(** ** bdfs create *)
(** whether all columns of the volume got a partition is neither printed nor returned *)
Lemma create_result_ignored c w (b : bool) r : DriveOptions.name c <> EmptyString ->
  CreateVolume print_double scan_double url_escape url_decode shell process reach (DriveOptions.kademliaUrl c)
    (DriveOptions.name c) (DriveOptions.size c) (DriveOptions.dataBlocks c) (DriveOptions.codeBlocks c) (rest_of w) = Ok (b, r) ->
  do_create print_double scan_double url_escape url_decode shell process reach c w =
    Ok (tt, mkworld (listening w) (bdfsclient w) r (printed w ++ ["Creating volume '" +:+ DriveOptions.name c +:+ "'..."])).
Proof using.
  intros Hn Hr. unfold do_create. assert (empty_str (DriveOptions.name c) = false) as -> by by destruct (DriveOptions.name c).
  erewrite bind_ok by reflexivity. by erewrite bind_ok by (unfold on_machine; cbn [rest_of]; rewrite Hr; reflexivity).
Qed.

(** ** bdfs list *)
Lemma list_responses_ok (argss : list (list string)) : forall fuel incoming, Forall flowing incoming ->
  Forall (fun args => fits RESPONSE args /\ zlen args < 256) argss ->
  stream incoming = concat (map (fun args => message RESPONSE args 1) argss) -> (length argss < fuel)%nat ->
  list_responses fuel incoming = Ok argss.
Proof using.
  induction argss as [|args argss IH]; intros [|fuel] incoming Hfl Hargs Es Hfuel; try (cbn in Hfuel; lia); cbn [list_responses].
  - destruct incoming as [|[[|b l]|] incoming]; [done|by apply Forall_cons in Hfl as [[] _]|done|by apply Forall_cons in Hfl as [[] _]].
  - apply Forall_cons in Hargs as [[Hf Hn] Hargs].
    destruct (response_received RESPONSE args 1 incoming (concat (map (fun args => message RESPONSE args 1) argss)))
      as (rest & -> & Hr & Hk); [done|done|done|exact Es|].
    cbn [obind]. change (byte_at 6 (message RESPONSE args 1)) with (Ok 1). cbn [obind]. change (1 =? 0) with false. cbv iota.
    rewrite Parse_message by done. cbn [obind]. rewrite (IH fuel rest Hr Hargs Hk) by (cbn in Hfuel; lia). cbn [obind].
    rewrite take_ge; [done|]. unfold u8. rewrite Z.mod_small by (pose proof (zlen_nonneg args); lia). unfold zlen. lia.
Qed.
Lemma length_messages argss : (length argss <= length (concat (map (fun args => message RESPONSE args 1) argss)))%nat.
Proof using.
  induction argss as [|a argss IH]; [done|]. cbn [map concat length]. rewrite length_app.
  pose proof (zlen_message_big RESPONSE a 1). unfold zlen in *. lia.
Qed.
Lemma print_rows_ok responses : forall w d lines, print_rows responses (after w d lines) = Ok (tt, after w d (lines ++ map row responses)).
Proof using.
  induction responses as [|args responses IH]; intros w d lines; [by rewrite app_nil_r|]. cbn [print_rows map].
  erewrite bind_ok by apply after_print. by rewrite IH, <- app_assoc.
Qed.
Lemma list_options url s : Fs.fopen_existing "/etc/drive/bdfs.conf" s = None ->
  DriveOptions.Init (json_reader scan_double) ["list"; "-k"; url]%string s =
  Ok (Run (DriveOptions.mk Action.List EmptyString 4 4 (1024 * 1024 * 1024) [url] [] [])).
Proof using. intros Hs. unfold DriveOptions.Init, DriveOptions.ReadConfig. by rewrite Hs. Qed.
(** bdfs list prints every volume that the daemon has bound, but each line repeats the
    volumes of the lines before it *)
Lemma list_repeats_volumes (url : string) (w : world) :
  let volumes := volumeInfo (bdfsclient w) in
  Fs.fopen_existing "/etc/drive/bdfs.conf" (fs_of (rest_of w)) = None -> listening w = true ->
  fits RESPONSE (listed_all volumes) -> 3 * zlen volumes < 256 ->
  program ["list"; "-k"; url]%string w = Ok (0, after w (bdfsclient w)
    (heading :: map (fun n => row (listed_all (take n volumes))) (seq 1 (length volumes)))).
Proof using HS.
  intros volumes Hc Hl Hf Hn. apply (main_runs _ _ _ _ (list_options url _ Hc)); [done|].
  assert (fits QUERY_VOLUMEINFO []) as Hq by by split; [apply List.Forall_nil|].
  unfold HandleOptions, ListVolumes. cbn [DriveOptions.action]. rewrite Create_ok by done. erewrite bind_ok by reflexivity.
  erewrite bind_ok by reflexivity. cbn [after listening]. rewrite Hl, message_sent by done. cbn [negb]. fold (after w (bdfsclient w) []).
  erewrite bind_ok by (apply on_daemon_ok, query_served; [done|apply pieces_flow|apply pieces_stream|exact Hf]). fold volumes.
  set (replies := map _ (seq 1 (length volumes))). cbv iota beta. erewrite bind_ok by apply after_print.
  assert (replies = map (fun args => message RESPONSE args 1) (map (fun n => listed_all (take n volumes)) (seq 1 (length volumes)))) as Er
    by by rewrite map_map.
  rewrite (list_responses_ok (map (fun n => listed_all (take n volumes)) (seq 1 (length volumes)))).
  - erewrite bind_ok by reflexivity. rewrite print_rows_ok. by rewrite map_map.
  - apply pieces_flow.
  - apply Forall_map, Forall_forall. intros n _. split; [by apply fits_take|]. unfold zlen. rewrite length_listed, length_take. unfold zlen in Hn. lia.
  - by rewrite pieces_stream, Er.
  - pose proof (length_messages (map (fun n => listed_all (take n volumes)) (seq 1 (length volumes)))). rewrite Er. lia.
Qed.
(** without the daemon the program says so and ends with 0 all the same *)
Lemma no_daemon (url : string) (w : world) :
  Fs.fopen_existing "/etc/drive/bdfs.conf" (fs_of (rest_of w)) = None -> listening w = false ->
  program ["list"; "-k"; url]%string w = Ok (0, after w (bdfsclient w) ["Error: Unable to connect to bdfsclient daemon."%string]).
Proof using.
  intros Hc Hl. apply (main_runs _ _ _ _ (list_options url _ Hc)); [done|].
  assert (fits QUERY_VOLUMEINFO []) as Hq by by split; [apply List.Forall_nil|].
  unfold HandleOptions, ListVolumes. cbn [DriveOptions.action]. rewrite Create_ok by done. erewrite bind_ok by reflexivity.
  erewrite bind_ok by reflexivity. cbn [after listening]. rewrite Hl. cbn [negb]. fold (after w (bdfsclient w) []). apply (after_print w (bdfsclient w) []).
Qed.
End Facts.

(** ** A socket that gives one byte at a time *)
#[export] Instance byte_sockets : Sockets (map (fun b => Data [b])) (fun l => [zlen l]).
Proof.
  split.
  - intros l. by apply Forall_map, Forall_true.
  - intros l. unfold stream. rewrite map_map. induction l as [|b l IH]; [done|]. cbn in *. by rewrite IH.
  - intros l Hl. assert (0 < zlen l) as Hp by (destruct l; [done|unfold zlen; cbn; lia]).
    unfold SendMessage. cbn [send_loop]. destruct (Z.leb_spec (zlen l) 0); [lia|]. destruct (Z.leb_spec (zlen l) (0 + zlen l)); [|lia]. done.
Qed.
Definition newline : string := String (ascii_of_nat 10) EmptyString.
Definition sample_world : world := mkworld true idle (mkmachine canned_client sample_fs) [].
Abbreviation sample_program :=
  (main (H := sample_platform true) no_print some_double percent_escape percent_decode (fun _ s => s) answering (fun _ => true) (fun _ => 0)
    (fun _ => ret ("root" +:+ newline)) (map (fun b => Data [b])) (fun l => [zlen l])).
