(* ===== verification/HttpContext.v ===== *)
(** * A request as the server gets it (src/src/httpserver: MGHttpContext.cpp, and the
      start of HttpServer.cpp)

    The headers, form and body of a request read from mongoose's connection, cookies,
    the text of an answer, and the options a server is started with. *)

From Stdlib Require Import ZArith Lia Bool Ascii String.
From stdpp Require Import base list gmap strings pretty.
From S2P Require Import Prelude StdMap Streams Json HttpParams HostHandler Cookies Options.
Set Default Goal Selector "!".
Local Open Scope Z_scope.
Local Open Scope drive_scope.

(** mg_request_info, mg_get_header and what mg_read has to give; a header's name does not
    depend on the case of its letters *)
Record connection := mkconnection {
  method : string;
  uri : string;
  query_string : option string;
  header : string -> option string;
  received : list Z
}.
Definition is_post (c : connection) : bool := String.eqb (method c) "POST".
(** [strcmp] with a header: a header that is not there is a null pointer *)
Definition header_is (name value : string) (c : connection) : outcome bool :=
  match header c name with None => Fault NullDeref | Some v => Ok (String.eqb (cstr v) value) end.
(** [new char\[len + 1\]; body\[len\] = 0] *)
Definition form_buffer (len : Z) : outcome unit :=
  if len =? -1 then Fault OutOfBounds
  else if (len <? -1) || (len =? 2 ^ 31 - 1) then Fault UncaughtException
  else Ok tt.
(** the form of a POST *)
Definition form (c : connection) : outcome string :=
  if negb (is_post c) then Ok EmptyString else
  obind (header_is "content-type" "application/x-www-form-urlencoded" c) (fun urlencoded =>
  if negb urlencoded then Ok EmptyString else
  match header c "content-length" with
  | None => Ok EmptyString
  | Some contentLength =>
      let len := atoi contentLength in
      obind (form_buffer len) (fun _ => Ok (cstr (string_of_bytes (take (Z.to_nat len) (received c)))))
  end).
Section Codec.
Context (url_decode : string -> string) (json_unquote : string -> option string).
Definition parameter (c : connection) (name : string) : outcome string :=
  obind (form c) (fun body =>
    Ok (parameter_of url_decode json_unquote (match query_string c with Some q => cstr q | None => EmptyString end) body name)).
End Codec.
(** the body of a POST of bytes; null when there is none *)
Definition body (c : connection) : outcome (option (list Z)) :=
  if negb (is_post c) then Ok None else
  obind (header_is "content-type" "application/octet-stream" c) (fun octets =>
  if negb octets then Ok None else
  match header c "content-length" with
  | None => Ok None
  | Some contentLength =>
      let len := atoi contentLength in
      Ok (if len <=? 0 then None
          else match take (Z.to_nat len) (received c) with [] => None | data => Some data end)
  end).
Definition bodylen (c : connection) : outcome Z := obind (body c) (fun b => Ok match b with Some data => zlen data | None => 0 end).

(** ** Cookies *)
Fixpoint parse_cookies (fuel : nat) (buf : string) (cookies : gmap string string) : gmap string string :=
  match fuel with
  | O => cookies
  | S fuel =>
      match strtok "= " buf with
      | None => cookies
      | Some (name, rest) =>
          match strtok ";," rest with
          | None => cookies
          | Some (value, rest) => parse_cookies fuel rest (<[name := value]> cookies)
          end
      end
  end.
Definition cookies_of (c : connection) : gmap string string :=
  match header c "cookie" with None => ∅ | Some text => parse_cookies (S (String.length text)) (cstr text) ∅ end.
Definition cookie (c : connection) (name : string) : string := default EmptyString (cookies_of c !! name).

(** ** The answer *)
Definition GetHttpStatus (code : Z) : outcome string :=
  if code =? 200 then Ok "OK"%string else if code =? 206 then Ok "Partial Content"%string
  else if code =? 400 then Ok "Bad Request"%string else if code =? 401 then Ok "Unauthorized"%string
  else if code =? 404 then Ok "Not Found"%string else if code =? 416 then Ok "Requested Range Not Satisfiable"%string
  else if code =? 500 then Ok "Internal Error"%string else Fault AssertFailed.
Definition crlf : string := String "013" (String "010" EmptyString).
Fixpoint header_lines (headers : list (string * string)) : string :=
  match headers with
  | [] => EmptyString
  | (name, value) :: headers => cstr name +:+ ": " +:+ cstr value +:+ crlf +:+ header_lines headers
  end.
(** writeResponse: what goes to the connection; [size] bytes of a content that is there *)
Definition writeResponse (code : Z) (headers : list (string * string)) (content : option (list Z)) (size : Z) : outcome (list Z) :=
  obind (GetHttpStatus code) (fun status =>
    Ok (bytes_of_string ("HTTP/1.1 " +:+ pretty (Z.to_N code) +:+ " " +:+ status +:+ crlf +:+ header_lines headers +:+
          "Content-Length: " +:+ pretty (Z.to_N size) +:+ crlf +:+ crlf) ++
        match content with Some data => take (Z.to_nat size) data | None => [] end)).

(** ** HttpServer::Start *)
Definition start_options (port : Z) (certificate : option string) : list string :=
  ["listening_ports"; pretty (Z.to_N port) +:+ match certificate with Some _ => "s" | None => EmptyString end;
   "num_threads"; "10"; "enable_directory_listing"; "no"; "enable_keep_alive"; "yes"]%string ++
  match certificate with Some c => ["ssl_ceritificate"%string; c] | None => [] end.
(** mg_start's options: their names, and the loop that looks them up *)
Definition config_options : list string :=
  ["cgi_pattern"; "cgi_environment"; "put_delete_auth_file"; "cgi_interpreter"; "protect_uri"; "authentication_domain"; "ssi_pattern";
   "throttle"; "access_log_file"; "enable_directory_listing"; "error_log_file"; "global_auth_file"; "index_files"; "enable_keep_alive";
   "access_control_list"; "extra_mime_types"; "listening_ports"; "document_root"; "ssl_certificate"; "num_threads"; "run_as_user";
   "url_rewrite_patterns"; "hide_files_patterns"; "request_timeout_ms"]%string.
Fixpoint options_known (options : list string) : bool :=
  match options with
  | [] => true
  | [_] => false
  | name :: _ :: options => existsb (String.eqb name) config_options && options_known options
  end.
(** the server's context; [listens] is whether mongoose can go on from the options *)
Definition Start (listens : list string -> bool) (port : Z) (certificate : option string) (running : bool) : bool * bool :=
  if running then (false, running)
  else let options := start_options port certificate in
       let running := options_known options && listens options in (running, running).

(** Stop and IsRunning *)
Definition Stop (running : bool) : bool := if running then false else running.
Definition IsRunning (running : bool) : bool := running.

(** ** What holds *)
(** a POST without a content type ends the server *)
Lemma post_without_type url_decode json_unquote c name : method c = "POST"%string -> header c "content-type" = None ->
  parameter url_decode json_unquote c name = Fault NullDeref /\ body c = Fault NullDeref.
Proof. intros Hm Hh. unfold parameter, form, body, is_post, header_is. by rewrite Hm, Hh. Qed.
(** and so does a form with a negative length *)
Lemma negative_length url_decode json_unquote c name l : method c = "POST"%string ->
  header c "content-type" = Some "application/x-www-form-urlencoded"%string -> header c "content-length" = Some l -> atoi l = -1 ->
  parameter url_decode json_unquote c name = Fault OutOfBounds.
Proof. intros Hm Ht Hl Ha. unfold parameter, form, is_post, header_is. rewrite Hm, Ht, Hl. cbn -[atoi]. by rewrite Ha. Qed.
(** a server is never started with a certificate: mongoose does not know the option *)
Lemma certificate_never_starts listens port certificate running : (Start listens port (Some certificate) running).1 = false.
Proof. unfold Start. by destruct running. Qed.
Lemma plain_starts listens port : Start listens port None false = (listens (start_options port None), listens (start_options port None)).
Proof. reflexivity. Qed.

(** a server that was stopped can be started again, and one that runs is not started twice *)
Lemma server_restarts listens port running : listens (start_options port None) = true ->
  Start listens port None (Stop running) = (true, true) /\ Start listens port None (IsRunning true) = (false, true).
Proof. intros H. unfold Start, Stop. destruct running; by rewrite H. Qed.

(** cookies whose text is cut where it should be *)
Definition sendable (c : Cookies.cookie) : Prop :=
  name c <> EmptyString /\ HttpParams.clean "= " (name c) /\ value c <> EmptyString /\ HttpParams.clean ";," (value c) /\ no_nul (name c) /\ no_nul (value c).
Definition sent (cs : jar) : string := fold_right (fun c rest => shown c +:+ rest) EmptyString cs.
Lemma parse_shown cs : forall fuel (m : gmap string string), (length cs < fuel)%nat -> Forall sendable cs ->
  parse_cookies fuel (sent cs) m = fold_left (fun m c => <[name c := value c]> m) cs m.
Proof.
  induction cs as [|c cs IH]; intros [|fuel] m Hf Hs; [cbn in Hf; lia|done|cbn in Hf; lia|].
  apply Forall_cons in Hs as [(Hn & Hcn & Hv & Hcv & _) Hs]. change (sent (c :: cs)) with (shown c +:+ sent cs). cbn [parse_cookies fold_left].
  unfold shown. rewrite !append_assoc.
  assert (strtok "= " (name c +:+ ("=" +:+ (value c +:+ (";" +:+ sent cs)))) = Some (name c, value c +:+ (";" +:+ sent cs))) as -> by by apply strtok_stop.
  assert (strtok ";," (value c +:+ (";" +:+ sent cs)) = Some (value c, sent cs)) as -> by by apply strtok_stop.
  apply IH; [cbn in Hf; lia|done].
Qed.
Lemma sent_no_nul cs : Forall sendable cs -> cstr (sent cs) = sent cs.
Proof.
  intros Hs. assert (forall a b, cstr a = a -> cstr b = b -> cstr (a +:+ b) = a +:+ b) as Happ.
  { intros a b Ha Hb. induction a as [|x a IH]; [done|]. change (String x a +:+ b) with (String x (a +:+ b)). cbn in *.
    destruct (Ascii.eqb x "000"); [done|]. injection Ha as Ha. by rewrite IH. }
  assert (forall a, no_nul a -> cstr a = a) as Hc.
  { intros a Ha. induction a as [|x a IH]; [done|]. unfold no_nul in *. cbn in *. apply orb_false_iff in Ha as [Hx Ha].
    rewrite Hx. by rewrite IH. }
  induction Hs as [|c cs (_ & _ & _ & _ & Hn & Hv) _ IH]; [done|]. change (sent (c :: cs)) with (shown c +:+ sent cs).
  apply Happ; [|done]. unfold shown. by repeat apply Happ; auto.
Qed.
Lemma fold_insert_lookup cs : forall (m : gmap string string) n, NoDup (map name cs) ->
  fold_left (fun m c => <[name c := value c]> m) cs m !! n = match List.find (fun c => String.eqb (name c) n) cs with Some c => Some (value c) | None => m !! n end.
Proof.
  induction cs as [|c cs IH]; intros m n Hn; [done|]. cbn [fold_left List.find map] in *. apply NoDup_cons in Hn as [Hni Hn]. rewrite IH by done.
  destruct (String.eqb_spec (name c) n) as [<-|Hne].
  - destruct (List.find _ cs) as [c'|] eqn:E; [|by rewrite lookup_insert_eq]. exfalso. apply List.find_some in E as [Hin He]. apply String.eqb_eq in He.
    apply Hni. rewrite <- He. apply list_elem_of_fmap. exists c'. split; [done|]. by apply list_elem_of_In.
  - by rewrite lookup_insert_ne.
Qed.

(** [C33] Cookies get through: what the client's jar sends for an address is what the
    server finds by name, for cookies whose names and values do not contain the
    characters that end them. *)
Theorem cookies_get_through (cs : jar) (d p : string) (text : string) (c : connection) (n : string) :
  let wanted := List.filter (fun k => match matches d p k with Ok true => true | _ => false end) cs in
  Format d p cs = Ok text -> header c "cookie" = Some text -> Forall sendable wanted -> NoDup (map name wanted) ->
  cookie c n = match List.find (fun k => String.eqb (name k) n) wanted with Some k => value k | None => EmptyString end.
Proof.
  intros wanted Ht Hh Hs Hn. assert (text = sent wanted) as ->.
  { clear - Ht. unfold wanted. clear wanted. revert text Ht. induction cs as [|k cs IH]; intros text; cbn [Format List.filter]; [by intros [= <-]|].
    intros (m & Em & (rest & Er & E)%obind_inv)%obind_inv. rewrite Em. rewrite (IH rest Er) in E. destruct m; by injection E as <-. }
  unfold cookie, cookies_of. rewrite Hh, sent_no_nul, parse_shown; [|clear Hn|done|done].
  - rewrite fold_insert_lookup by done. destruct (List.find _ wanted); [done|]. by rewrite lookup_empty.
  - clear. induction wanted as [|k w IH]; [cbn; lia|]. change (sent (k :: w)) with (shown k +:+ sent w). rewrite length_append. unfold shown.
    rewrite !length_append. cbn. lia.
Qed.
Lemma clean_check delims s : forallb (fun c => negb (str_mem c s)) (list_ascii_of_string delims) = true -> HttpParams.clean delims s.
Proof.
  intros H c Hc. assert (In c (list_ascii_of_string delims)) as Hin.
  { clear H. induction delims as [|x d IH]; [done|]. cbn in *. apply orb_prop in Hc as [<-%Ascii.eqb_eq|Hc]; [by left|right; auto]. }
  rewrite forallb_forall in H. by apply negb_true_iff, H.
Qed.
Definition two_cookies : jar := [mkcookie "id" "1" "drive.io" "/" 0 0 false false; mkcookie "lang" "en" "drive.io" "/" 0 0 false false].
Definition cookie_request (text : string) : connection :=
  mkconnection "GET" "/" None (fun h => if String.eqb h "cookie" then Some text else None) [].
Lemma cookies_get_through_witness : Format "drive.io" "/" two_cookies = Ok "id=1;lang=en;"%string /\
  cookie (cookie_request "id=1;lang=en;") "lang" =
    match List.find (fun k => String.eqb (name k) "lang") (List.filter (fun k => match matches "drive.io" "/" k with Ok true => true | _ => false end) two_cookies)
    with Some k => value k | None => EmptyString end.
Proof.
  split; [reflexivity|].
  apply (cookies_get_through two_cookies "drive.io" "/" "id=1;lang=en;" (cookie_request "id=1;lang=en;") "lang"); [reflexivity|reflexivity| |].
  - change (Forall sendable two_cookies). repeat (apply Forall_cons_2; [split_and!; try done; by apply clean_check|]). apply Forall_nil_2.
  - change (NoDup ["id"; "lang"]%string). repeat (apply NoDup_cons; split; [set_solver|]). apply NoDup_nil_2.
Defined.
